(* ===== verification/_CoqProject ===== *)
-Q . S2P
Prelude.v
Text.v
Float32.v
Json.v
ProtocolTypes.v
ProtocolCommand.v
ProtocolResult.v
ProtocolMessage.v
Paths.v
Channel.v
NodeManager.v
TaskScheduler.v
SchedulerFacts.v
SchedulerTheorems.v
SchedulerInterleaving.v
SessionRuntime.v
SessionRuntimeFacts.v
Approval.v
ApprovalFacts.v
Workspace.v
Permission.v
PermissionFacts.v
Notifications.v
Hub.v
HubFacts.v
Executor.v
ExecutorFacts.v
NodeConnection.v
NodeProcess.v
NodeProcessFacts.v
NodeHub.v
Versioning.v
Cron.v
JobScheduler.v
RateLimit.v
Queue.v
Discovery.v
DiscoveryFacts.v
LoadBalancer.v
Pairing.v
PairingFacts.v
Sharding.v
ShardingFacts.v
AgentRouting.v
Sessions.v
SessionsFacts.v
IpAddr.v
Planner.v
PlannerFacts.v
Replies.v
AgentLoop.v
AgentLoopFacts.v
Jwt.v
NodeAuth.v
HubSocket.v
WebApi.v
WebApiFacts.v
GatewayAuth.v
Tenancy.v
OAuth.v
Oidc.v
SsoFacts.v
Privacy.v
PrivacyFacts.v
Governance.v
GovernanceFacts.v
Webhook.v
WebhookFacts.v
Config.v
ConfigFacts.v
Cache.v
Siem.v
Backup.v
Layered.v
AgentFiles.v
AgentCatalog.v
TaskApi.v
SkillInstall.v
GatewayStore.v
Tools.v
