(* ===== verification/Prelude.v ===== *)
(** * A verification library for uHorse

    uHorse is a service in which a Hub receives tasks and hands them to the nodes
    connected to it; a node executes commands inside a workspace directory, under
    permission rules, and asks the Hub for human approval where a rule says so.
    This library models that core as executable functions over explicit state and
    proves what makes it correct, or shows by a theorem where it is not.

    ** The parts and their files

    - Prelude: results with the bind of the [?] operator, integer widths, strings,
      stable sorting, the iteration order of hash maps, updates of maps.
    - Text: lines, prefixes and characters of UTF-8 texts.
    - Float32, Json, Channel: binary32 floats; the interface of JSON values; the
      message channels as a store of sent messages indexed by handles, and the
      errors of the Hub (uhorse-hub/src/error.rs).
    - ProtocolTypes, ProtocolCommand, ProtocolResult, ProtocolMessage
      (src/crates/uhorse-protocol/src): identifiers, versions, capabilities and
      the load score; commands; results and errors; the messages both ways.
    - Paths (the path functions of node_manager.rs and workspace.rs): paths as
      component lists, the file system as a parameter with its laws, and the
      resolution of a path of which a tail need not exist.
    - NodeManager (uhorse-hub/src/node_manager.rs): the registry of nodes, its
      workspace index, heartbeats and node selection.
    - TaskScheduler, with SchedulerFacts, SchedulerTheorems and
      SchedulerInterleaving (task_scheduler.rs): queues by priority, running and
      finished tasks; the abstract life cycle of a task and the refinement; the
      steps inside one scheduling call interleaved with results.
    - SessionRuntime, SessionRuntimeFacts (session_runtime.rs): turns, transcripts,
      lanes and the bindings of tasks to turns.
    - Approval, ApprovalFacts (uhorse-security/src/approval.rs,
      idempotency.rs): requests, decisions, the rule engine, the manager, the
      idempotency records, and the expiry task with the lock it takes.
    - Workspace (uhorse-node-runtime/src/workspace.rs and the two path checks of
      executor.rs), Permission, PermissionFacts (permission.rs): the confinement
      of paths, rules, the git protection and approvals on the node.
    - Executor, ExecutorFacts (executor.rs, browser.rs): the commands of a node as
      sequences of calls to an operating system that is a parameter.
    - NodeConnection (connection.rs): connecting, receiving,
      reconnecting and the heartbeat, over the events the loops wait for.
    - NodeProcess, NodeProcessFacts (node.rs, status.rs): the handling of every
      message of the Hub on top of Permission and Executor.
    - NodeHub: what the messages of a node do to the records of the Hub.
    - Versioning (versioning.rs): checkpoints and restores of a
      workspace over a git that is a parameter.
    - Notifications (notification_binding.rs, uhorse-core/src/types.rs and the
      forwarding functions of message_router.rs).
    - Hub, HubFacts (hub.rs, message_router.rs, security_integration.rs): the parts
      put together: connections, node messages, submission, dispatch,
      cancellation, approval requests, the background tick and the statistics.
    - Jwt, NodeAuth (uhorse-security/src/auth.rs and the
      authenticator of security_integration.rs): the interface of a token codec,
      the tokens of nodes, their refresh and revocation.
    - HubSocket (uhorse-hub/src/web/ws.rs): the sockets of the
      nodes, one from its first frame to its end and many as a step relation.
    - WebApi, WebApiFacts (uhorse-hub/src/web/mod.rs): the endpoints that decide
      approvals, issue tokens, pair and unbind accounts, set rules and cancel.
    - GatewayAuth, Tenancy
      (uhorse-gateway/src/auth): users and their tokens; roles, tenants with
      their quotas, and the audit log.
    - GatewayStore (uhorse-gateway/src/store.rs, api): the agents, skills, sessions,
      files and channels behind the API of the gateway, page by page.
    - Tools (uhorse-tool/src, uhorse-core/src/error.rs): errors and their codes, who
      may call a tool, the registry, the built-in tools, plugins as processes and
      their sandbox.
    - OAuth, Oidc, SsoFacts (uhorse-sso/src): the authorization
      server and histories of calls to it; the clients of OIDC, of providers and of
      SAML.
    - Privacy, PrivacyFacts (uhorse-gdpr/src: consent.rs, erasure.rs, export.rs):
      consents, erasure over registered handlers, exports, a Module for each.
    - Governance, GovernanceFacts (uhorse-governance/src, uhorse-gdpr/src/
      classification.rs): classification of fields, retention, archives.
    - Webhook, WebhookFacts (uhorse-webhook/src): retries, signatures, templates,
      the history of calls and the client.
    - Cron, JobScheduler (uhorse-scheduler/src/cron.rs,
      scheduler.rs): parsing of cron expressions, the search for the next run, jobs
      and the rounds of the scheduling loop.
    - RateLimit (uhorse-gateway/src/ratelimit: mod.rs, global.rs,
      user.rs, endpoint.rs): the three limiters of the gateway.
    - Queue (uhorse-queue/src/task_queue.rs, dead_letter.rs): the
      in-memory queue, its pass over the tasks, and the dead letters.
    - Discovery, DiscoveryFacts (uhorse-discovery/src/types.rs, error.rs,
      registry.rs, health.rs, failover.rs): the interface of a registry, its
      in-memory implementation and client, health tracking and failover.
    - LoadBalancer (uhorse-gateway/src/lb): the interface of a
      balancer and its four implementations.
    - Pairing, PairingFacts (uhorse-security/src/pairing.rs): pairing requests,
      their codes, devices, and the order in which operations take their locks.
    - Sharding, ShardingFacts (uhorse-storage/src/sharding): the ring, the tenant
      cache, replicas, reads and writes, and migrations.
    - AgentRouting (uhorse-agent/src/session_key.rs,
      bindings.rs, router.rs): session keys, scopes, bindings and routes.
    - Sessions, SessionsFacts (uhorse-session/src, uhorse-storage/src/sqlite.rs):
      the tables of sessions and messages, the manager with its cache, isolation.
    - IpAddr, Planner, PlannerFacts (uhorse-hub/src/web/mod.rs): addresses as the
      standard library reads them; what the Hub makes of an answer of the language
      model, and the checks of a planned command.
    - Replies, AgentLoop, AgentLoopFacts (uhorse-hub/src/web/mod.rs): replies to the
      channel; the loop from a message through tasks and their results to the
      answer, on top of Hub, SessionRuntime and Planner.
    - Config, ConfigFacts (uhorse-config/src): settings, sources and their merging,
      validation, histories, hot reload and the client of a distributed store.
    - Cache (uhorse-cache/src, uhorse-queue/src/retry.rs): the Redis wrapper, the
      black list of tokens, the cache of sessions, and retry strategies.
    - Siem (uhorse-siem/src): alert rules with their counters, exports of events and
      the clients that buffer them.
    - Backup (uhorse-backup/src): schedules and retention, encryption with its keys,
      restores and replication.
    - Layered (uhorse-agent/src/skill.rs): the two catalogues by scope, of which the
      other is LayeredAgentCatalog of web/mod.rs, as one type over their values;
      loading and running skills.
    - AgentFiles (memory.rs, agent_scope.rs, and the reading of histories in
      web/mod.rs): memories, workspaces of agents and states of sessions on a disk.
    - AgentCatalog, TaskApi (web/mod.rs): loading the agents, namespaces in the
      metadata, the agent and the state of a session, what is kept of a turn, the
      views; submitting and reading tasks.
    - SkillInstall (web/mod.rs): what a chat message asks to install, attachments
      that wait, unpacking and moving an archive.

    The Hub record holds a [NodeManager], a [TaskScheduler], the senders of the
    nodes, the session runtime and, optionally, the approver; its operations call
    the operations of these parts in the order of the code.  Submission and node
    messages that may free a node end in [dispatch_pending_tasks], which calls
    [schedule_next] until nothing can be placed.

    ** Conventions

    - An operation is a function from the state and its arguments to the new
      state and the result; [&mut self] and interior locks become state passing.
      A panic is [None] of the outer option.  A method that holds its locks from
      start to end is one step; where it releases them and that matters, the
      steps are an inductive relation (SchedulerInterleaving, ApprovalFacts).  The
      operations of pairing, which take their locks one after the other, are one step
      each; the order of their locks is treated on its own (PairingFacts).
    - Names are those of the source; a method whose name several types share
      carries its type as a prefix.  Record fields carry a short prefix.
    - Time is a number of nanoseconds (of seconds where the code uses seconds).
      Clock readings and fresh UUIDs are arguments, one reading for each call or
      each message; overflow panics of the date library are not modelled.
    - Machine integers are integers in [Z]; where the code wraps or saturates, so
      does the model ([wrap], [as_i64], [saturating_sub], counters of tasks).
    - Logs, metrics and audit events are left out.  Channel capacities are left
      out: a send is shown when it completes, and fails exactly when the receiver
      is gone.

    ** Parameters

    Code that is not part of the repository is a class: [HashOrder] (the iteration
    order of a hash map is some permutation of its keys), [JsonValue] and
    [WireJson] (serde_json), [FileSystem] with [FileSystemLaws] (existence and
    canonical forms), [FileLocation] with [FileLocationLaws] (the place at which the
    system opens a path), [GlobMatch] (glob_match), [ToLowercase] (Unicode tables; its
    law fixes ASCII), [SendErrorText], [PathTexts] and [ChannelTypeText] (texts of
    errors and formatted values), [Calendar] (the fields of a date, with the laws
    that they are in range and agree inside a minute), the outcome of a channel
    object's send, the outcome of a health request, and the answer of a task
    handler.  [ColumnJson] and [SqliteBehaviour] stand for the texts serde_json
    writes into columns and for what SQLite decides, [UrlParser] for the url crate,
    [PlannerText] for the derived JSON readers, [Os] and [ExecTexts] for the
    system calls of the executor and the texts of their errors, [JwtCodec] with
    [JwtLaws] for jsonwebtoken (what was encoded decodes, with the same secret and
    before its date, and nothing else does), [TimeText] and [DateText] for
    formatted dates.  [FormEncode] with [FormEncodeLaws], [Base64] with its laws,
    [Http] and [JsonReaders] stand for the form encoding, base64, HTTP client and
    derived readers of the sign-on clients; [ExportJson] for the JSON of an export;
    [ArchiveWorld] with [ArchiveWorldLaws] for the files of archives (a file reads
    as it was written last); [Powi], [Hmac], [LossyText], [ValueKinds] and
    [EventTexts] for the powers of floats, the keyed hash, lossy decoding, the kinds
    of JSON values and the texts of events of the webhooks.  [JsonMaps] and
    [ConfigJson] with [ConfigJsonLaws] are the trees of settings, [ConfigBackend] a
    distributed store; [RedisServer] and [Lru] with their laws the server and the
    container of the caches, [StoredJson] the texts of what is cached; [SiemTexts],
    [DefaultHasher] and [BackupFiles] the texts of events, the hasher of the standard
    library and the files of backups.  [AgentDisk], [AgentDirs], [AgentTexts],
    [RolesJson] and [PendingJson] are the faults of a disk, its directories and the
    JSON that agents keep; [SkillFiles], [Processes] and [SkillOutput] the files of
    skills and the processes they are; a record [install_world] holds the archive
    that was fetched and what Python does with a skill; [StampText], [ToolJson],
    [ToUppercase], [ToolDates], [ToolHttp] and [PluginWorld] are times as texts, more
    of serde_json, Unicode, chrono, HTTP and the processes of plugins.  The language model and the remote
    side of a channel are arbitrary streams of answers.
    Each has a concrete instance that the examples use.

    ** The theorems

    - The scheduler: its invariant, the refinement of the life cycle, stability of
      outcomes, unique identifiers, and the behaviour of each operation on every
      branch, with a specification of [schedule_next] as a whole.
    - The registry: its invariant, least-loaded selection, exactness of the
      workspace index while workspaces are exclusive, and what a collision of
      workspace identifiers breaks.
    - Approvals: the invariant of the manager, soundness and finality of
      approvals, the work lists, the expiry task that waits for itself, and who
      may approve.
    - The node: the place at which a path of the executor is opened lies inside the
      workspace through any link, unless the path is itself a link to something
      missing (which escapes), why two checks are needed, the decision of the permission check, the git
      protection, the default rules, and answers to approval requests.
    - The node as a process: whatever a task runs, every path the executor touches
      was granted by the workspace (two kinds of paths of its own aside: directories
      above a granted path, and code files of the internal directory); only authorised commands run; every
      assignment is answered, and the answer reaches the record of the Hub, also
      through an approval decided by a human at the web API; what a cancellation
      does not stop.
    - Sockets and tokens: every connected channel was opened by a frame whose token
      verified as that node, what the
      end of an old socket does to a new one, single use of refresh tokens, and
      what the authorization of the account endpoints is worth.
    - The Hub: dispatch ends and leaves nothing that could be placed, submission,
      totality of message handling, deduplication of approval requests and its
      race, cancellation, and the trust the Hub puts in the sender of a result.
    - Turns, notifications and the protocol: pruning of transcripts, lanes,
      late results, forwarding, and the round trip of versions.
    - Sign-on: a code is exchanged once and a valid token goes back to a grant; what
      is never checked (clients, signatures).
    - Personal data and governance: consent is the last word of its user, every
      handler erases, what a report of erasure is worth, retention reports and
      clean-ups are exact, archives give back their data.
    - Webhooks: retries end, how many requests are sent, signatures verify exactly
      within the tolerance, the history keeps the newest calls.
    - Schedules: what a parsed expression holds, that the search finds the first
      matching minute, and which jobs the loop can start at all.
    - Limits and queues: how many requests a window lets through, the pass over
      the queue against a reference filter, and the number of attempts of a task.
    - Services: the in-memory registry refines a directory, what the health
      tracker reports, failover, and the proportions of the balancers.
    - The agent loop: the text of an answer that is read as a JSON object, by a grammar;
      a turn submits at most four tasks, how a resumed turn ends,
      results and turns that get lost; planned commands were checked, and what the
      checks let through.
    - Pairing: its invariant, how a device becomes paired, and exactly which
      concurrent operations can block each other.
    - Storage and sessions: the tenant cache and the session cache are invisible,
      shards that get no key, numbered histories, and the round trips of keys and
      rows.
    - Settings: an overlay wins, histories are numbered, what validation accepts, and
      what the sources cannot say.
    - Caches, events and backups: what is found after what was stored, how many
      retries there are, when alerts are raised, what a clean-up removes, that
      encryption is undone, and what it is worth.
    - Agents and skills: the nearest scope decides, listings do not depend on the
      order of hash maps, users are kept apart, states, values and histories are read
      back, which agent a session gets, and who names its user.
    - Installation: who may install, and that an ordinary zip archive changes only the
      directory of its skill, up to what installing its Python requirements does; what
      an absolute one changes.
    - The gateway's store and tools: pages cover a collection, keys of files that
      collide, what requests leave alone; which error is whose, that the registry
      asks for no permission, what the calculator reads, and processes that outlive
      their plugin.

    ** Fuel

    [existing_ancestor] runs with one unit more than the path has components, and
    each step drops one; [dispatch_loop] runs with one unit more than there are
    queued tasks, and each round places one (proved as termination in HubFacts);
    [split_whitespace] runs with the length of the text; [search_match] makes the
    2,102,400 rounds the code makes; [process_loop] runs as often as the queue is
    long and [make_room] once more than it has entries; [execute_from] and [send_from] run
    once more than attempts are allowed, and [extract_from] once more than the
    template has bytes (proved to suffice in WebhookFacts); [merge_from] runs with the
    depth of the overlay, [hex_go] makes the 16 digits of 64 bits, [split_text_go],
    [trim_end_go], [trim_start_go] and [name_characters] run with the length of the
    text, of which every round takes at least a byte; the example file system follows
    at most 64 links.

    ** What is not modelled

    The directory listing and the file index of a workspace; TLS and the encryption of
    fields, which call cryptographic libraries; pages, prompts, metrics and audit
    events; schemas of parameters; the etcd, consul and NATS clients, the channels and the language models,
    which are clients of external services; the wizard, the command lines and the
    desktop shell, which are dialogues and wiring.  A lock of the operating system,
    free space and links made while an operation runs are not part of the disks, the
    links in a tar archive of a skill are left out, and moving a directory between file systems is assumed to succeed. *)
From Stdlib Require Export Ascii ZArith Lia.
From stdpp Require Export base gmap strings fin_maps relations numbers pretty option sorting list.

(** ** Notations and the result type *)

Declare Scope uhorse_scope.
Delimit Scope uhorse_scope with uhorse.

(** Rust's [Result<T, E>]. *)
Inductive Result (T E : Type) : Type :=
| Ok (v : T)
| Err (e : E).
Arguments Ok {T E} v.
Arguments Err {T E} e.

Definition is_ok {T E} (r : Result T E) : bool :=
  match r with Ok _ => true | Err _ => false end.

(** [Result::unwrap_or]. *)
Definition unwrap_or {T E} (r : Result T E) (d : T) : T :=
  match r with Ok v => v | Err _ => d end.

(** The [?] operator: the continuation of a successful call. *)
Definition result_bind {A B E} (r : Result A E) (k : A → Result B E) : Result B E :=
  match r with Ok v => k v | Err e => Err e end.

Definition ok_or {T E} (o : option T) (e : E) : Result T E :=
  match o with Some v => Ok v | None => Err e end.

(** [Option::or_else]. *)
Definition or_else {A} (o : option A) (alt : option A) : option A :=
  match o with Some _ => o | None => alt end.

Notation "'let?' x := r 'in' k" := (result_bind r (λ x, k))
  (at level 10, x binder, r at level 100, k at level 200) : uhorse_scope.
#[global] Open Scope uhorse_scope.

(** ** Machine integers *)

Definition wrap (w : Z) (z : Z) : Z := z mod 2 ^ w.
Definition u32_max : Z := 2 ^ 32 - 1.
Definition u64_max : Z := 2 ^ 64 - 1.

(** [x as i64] for an unsigned 64-bit [x]: reinterpretation in two's complement. *)
Definition as_i64 (z : Z) : Z := if decide (z < 2 ^ 63)%Z then z else (z - 2 ^ 64)%Z.

(** [usize] / [u64] lengths. *)
Definition zlen {A} (l : list A) : Z := Z.of_nat (length l).

(** [usize::saturating_sub]. *)
Definition saturating_sub (a b : nat) : nat := a - b.

(** ** Time: nanoseconds since the Unix epoch *)

Abbreviation timestamp := Z (only parsing).
Abbreviation duration := Z (only parsing).
Definition nanos_per_sec : Z := 1000000000.
Definition seconds (s : Z) : duration := (s * nanos_per_sec)%Z.
Definition millis (ms : Z) : duration := (ms * 1000000)%Z.

(** ** Strings (byte strings, UTF-8 encoded as in Rust) *)

Fixpoint str_contains (sub s : string) : bool :=
  String.prefix sub s ||
  match s with
  | EmptyString => false
  | String _ s' => str_contains sub s'
  end.

Definition ascii_is_upper (c : Ascii.ascii) : bool :=
  let n := Ascii.nat_of_ascii c in (65 <=? n)%nat && (n <=? 90)%nat.

Definition ascii_to_lower (c : Ascii.ascii) : Ascii.ascii :=
  if ascii_is_upper c then Ascii.ascii_of_nat (Ascii.nat_of_ascii c + 32) else c.

Fixpoint str_map (f : Ascii.ascii → Ascii.ascii) (s : string) : string :=
  match s with
  | EmptyString => EmptyString
  | String c s' => String (f c) (str_map f s')
  end.

Fixpoint str_forallb (f : Ascii.ascii → bool) (s : string) : bool :=
  match s with
  | EmptyString => true
  | String c s' => f c && str_forallb f s'
  end.

Definition ascii_lower : string → string := str_map ascii_to_lower.

(** All bytes below 128. *)
Definition is_ascii_str : string → bool :=
  str_forallb (λ c, (Ascii.nat_of_ascii c <? 128)%nat).

(** [[String]::join]. *)
Definition str_join : string → list string → string := String.concat.

(** [str::split(c)] for a one-byte separator: never empty. *)
Fixpoint str_split_aux (sep : Ascii.ascii) (cur : string) (s : string) : list string :=
  match s with
  | EmptyString => [cur]
  | String c s' =>
      if Ascii.eqb c sep then cur :: str_split_aux sep EmptyString s'
      else str_split_aux sep (cur +:+ String c EmptyString) s'
  end.
Definition str_split (sep : Ascii.ascii) (s : string) : list string :=
  str_split_aux sep EmptyString s.

Definition byte_of (c : Ascii.ascii) : nat := Ascii.nat_of_ascii c.

(** The rest of the string after one white space character, in UTF-8. *)
Definition skip_whitespace (s : string) : option string :=
  match s with
  | EmptyString => None
  | String c r =>
      let n := byte_of c in
      if bool_decide (9 ≤ n ≤ 13) || bool_decide (n = 32) then Some r
      else
        match r with
        | EmptyString => None
        | String c2 r2 =>
            let n2 := byte_of c2 in
            if bool_decide (n = 194 ∧ (n2 = 133 ∨ n2 = 160)) then Some r2
            else
              match r2 with
              | EmptyString => None
              | String c3 r3 =>
                  let n3 := byte_of c3 in
                  if bool_decide ((n = 225 ∧ n2 = 154 ∧ n3 = 128)
                       ∨ (n = 226 ∧ n2 = 128 ∧ (128 ≤ n3 ≤ 138 ∨ n3 = 168 ∨ n3 = 169 ∨ n3 = 175))
                       ∨ (n = 226 ∧ n2 = 129 ∧ n3 = 159) ∨ (n = 227 ∧ n2 = 128 ∧ n3 = 128))
                  then Some r3 else None
              end
        end
  end.

(** [str::split_whitespace]: the maximal pieces without white space.  A round
    consumes at least one byte, so the length of the string is enough fuel. *)
Fixpoint split_whitespace_aux (fuel : nat) (cur s : string) : list string :=
  let flush := if decide (cur = "") then [] else [cur] in
  match fuel, s with
  | O, _ | _, EmptyString => flush
  | S fuel', String c r =>
      match skip_whitespace s with
      | Some rest => flush ++ split_whitespace_aux fuel' "" rest
      | None => split_whitespace_aux fuel' (cur +:+ String c "") r
      end
  end.
Definition split_whitespace (s : string) : list string :=
  split_whitespace_aux (String.length s) "" s.

(** [find(c)] and the two slices around the position it gives. *)
Fixpoint split_at_char (c : Ascii.ascii) (s : string) : option (string * string) :=
  match s with
  | EmptyString => None
  | String d s' =>
      if Ascii.eqb d c then Some ("", s')
      else (λ ab : string * string, (String d ab.1, ab.2)) <$> split_at_char c s'
  end.

(** [str::trim]: white space is dropped at the front; the pieces between and after
    the rest are kept only when something else follows them. *)
Fixpoint trim_start (fuel : nat) (s : string) : string :=
  match fuel, skip_whitespace s with
  | S fuel', Some rest => trim_start fuel' rest
  | _, _ => s
  end.
Fixpoint trim_end (fuel : nat) (kept spaces s : string) : string :=
  match fuel, s with
  | O, _ | _, EmptyString => kept
  | S fuel', String c r =>
      match skip_whitespace s with
      | Some rest =>
          trim_end fuel' kept
            (spaces +:+ String.substring 0 (String.length s - String.length rest) s) rest
      | None => trim_end fuel' (kept +:+ spaces +:+ String c "") "" r
      end
  end.
Definition str_trim (s : string) : string :=
  trim_end (String.length s) "" "" (trim_start (String.length s) s).

(** Byte-wise [<=], the [Ord] of Rust strings. *)
Definition str_leb : string → string → bool := String.leb.

(** [Vec::dedup]. *)
Fixpoint dedup (l : list string) : list string :=
  match l with
  | x :: l' =>
      match l' with
      | y :: _ => if decide (x = y) then dedup l' else x :: dedup l'
      | [] => l
      end
  | [] => []
  end.

(** ** Stable sorting: the specification of [slice::sort_by] *)

Section SortBy.
Context {A : Type} (leb : A → A → bool).

Fixpoint insert_by (x : A) (l : list A) : list A :=
  match l with
  | [] => [x]
  | y :: l' => if leb x y then x :: l else y :: insert_by x l'
  end.

Definition sort_by (l : list A) : list A := foldr insert_by [] l.
End SortBy.

(** ** Iteration order of a [HashMap] *)

(** Rust leaves the traversal order of a [HashMap] unspecified.  Every
    traversal of the model goes through this interface, whose only law is that
    the traversal visits each entry exactly once. *)
Class HashOrder := {
  hash_order : ∀ {K V : Type} `{Countable K}, gmap K V → list (K * V);
  hash_order_perm : ∀ {K V : Type} `{Countable K} (m : gmap K V),
    hash_order m ≡ₚ map_to_list m
}.

Definition hash_keys `{HashOrder} {K V} `{Countable K} (m : gmap K V) : list K :=
  (hash_order m).*1.
Definition hash_values `{HashOrder} {K V} `{Countable K} (m : gmap K V) : list V :=
  (hash_order m).*2.

(** An executable instance, used by the concrete examples. *)
Definition canonical_order : HashOrder :=
  {| hash_order := λ K V _ _ m, map_to_list m;
     hash_order_perm := λ K V _ _ m, Permutation_refl _ |}.

(** [retain] on a map. *)
Definition map_retain {K V} `{Countable K} (f : K → V → bool) (m : gmap K V) : gmap K V :=
  filter (λ kv, Is_true (f kv.1 kv.2)) m.

(** Update of the entry of a key, as by [get_mut]: nothing when it is absent. *)
Definition map_update {K V} `{Countable K} (f : V → V) (k : K) (m : gmap K V) : gmap K V :=
  match m !! k with Some v => <[k := f v]> m | None => m end.

(** ** Tactics *)

Create HintDb uhorse.

Ltac invert H := inversion H; try clear H; simplify_eq.

(** Case analysis on the innermost scrutinee of the goal or of a hypothesis. *)
Ltac case_goal :=
  match goal with
  | |- context [match ?x with _ => _ end] =>
      lazymatch x with context [match _ with _ => _ end] => fail | _ => destruct x eqn:? end
  end.
Ltac case_hyp H :=
  match type of H with
  | context [match ?x with _ => _ end] =>
      lazymatch x with context [match _ with _ => _ end] => fail | _ => destruct x eqn:? end
  end.

Ltac bool_prop :=
  repeat match goal with
  | H : _ && _ = true |- _ => apply andb_true_iff in H as [??]
  | H : _ || _ = false |- _ => apply orb_false_iff in H as [??]
  | H : negb _ = true |- _ => apply negb_true_iff in H
  | H : negb _ = false |- _ => apply negb_false_iff in H
  | H : bool_decide _ = true |- _ => apply bool_decide_eq_true in H
  | H : bool_decide _ = false |- _ => apply bool_decide_eq_false in H
  end.

(** ** Generic lemmas: results, integers *)

Lemma result_bind_ok {A B E} (r : Result A E) (k : A → Result B E) v :
  result_bind r k = Ok v ↔ ∃ a, r = Ok a ∧ k a = Ok v.
Proof. destruct r; naive_solver. Qed.

Lemma wrap_range w z : (0 ≤ w)%Z → (0 ≤ wrap w z < 2 ^ w)%Z.
Proof. intros. apply Z.mod_pos_bound. lia. Qed.

Lemma wrap_small w z : (0 ≤ z < 2 ^ w)%Z → wrap w z = z.
Proof. apply Z.mod_small. Qed.

Lemma as_i64_small z : (0 ≤ z < 2 ^ 63)%Z → as_i64 z = z.
Proof. intros ?. unfold as_i64. case_decide; lia. Qed.

(** ** Generic lemmas: strings *)

Lemma str_app_cons c (a b : string) : String c a +:+ b = String c (a +:+ b).
Proof. done. Qed.

Lemma str_app_nil_l (a : string) : "" +:+ a = a.
Proof. done. Qed.

Lemma str_app_nil_r (a : string) : a +:+ "" = a.
Proof. induction a as [|x a IH]; [done|]. by rewrite str_app_cons, IH. Qed.

Lemma str_app_assoc (a b c : string) : (a +:+ b) +:+ c = a +:+ (b +:+ c).
Proof. induction a as [|x a IH]; [done|]. by rewrite !str_app_cons, IH. Qed.

Lemma str_app_inj_l (p a b : string) : p +:+ a = p +:+ b → a = b.
Proof. intros He. by apply (inj (String.app p)) in He. Qed.

Lemma str_length_app (a b : string) : String.length (a +:+ b) = String.length a + String.length b.
Proof. induction a as [|x a IH]; [done|]. rewrite str_app_cons. simpl. by rewrite IH. Qed.

Lemma str_forallb_app f (a b : string) : str_forallb f (a +:+ b) = str_forallb f a && str_forallb f b.
Proof. induction a as [|c a IH]; [done|]. rewrite str_app_cons. simpl. by rewrite IH, andb_assoc. Qed.

Lemma split_at_absent c s : str_forallb (λ d, negb (Ascii.eqb d c)) s = true → split_at_char c s = None.
Proof. induction s as [|d s IH]; [done|]. simpl. intros [Hd%negb_true_iff Hs]%andb_prop. by rewrite Hd, (IH Hs). Qed.

Lemma split_at_first c a b : str_forallb (λ d, negb (Ascii.eqb d c)) a = true → split_at_char c (a +:+ String c b) = Some (a, b).
Proof.
  induction a as [|d a IH]; simpl; [by rewrite Ascii.eqb_refl|]. intros [Hd%negb_true_iff Ha]%andb_prop.
  by rewrite Hd, (IH Ha).
Qed.

Lemma split_at_char_spec c s :
  match split_at_char c s with
  | Some (pre, rest) => s = pre +:+ String c rest ∧ str_forallb (λ d, negb (Ascii.eqb d c)) pre = true
  | None => str_forallb (λ d, negb (Ascii.eqb d c)) s = true
  end.
Proof.
  induction s as [|d s IH]; simpl; [done|]. destruct (Ascii.eqb d c) eqn:E.
  - apply Ascii.eqb_eq in E as ->. done.
  - destruct (split_at_char c s) as [[pre rest]|]; simpl; [|done].
    destruct IH as [-> Hp]. rewrite E. done.
Qed.

(** Splitting skips a text without the separator. *)
Lemma str_split_skip sep cur s rest :
  str_forallb (λ c, negb (Ascii.eqb c sep)) s = true →
  str_split_aux sep cur (s +:+ rest) = str_split_aux sep (cur +:+ s) rest.
Proof.
  revert cur. induction s as [|c s IH]; intros cur Hs; [by rewrite str_app_nil_r|].
  simpl in Hs. apply andb_true_iff in Hs as [Hc Hs]. rewrite str_app_cons. simpl.
  rewrite (proj1 (negb_true_iff _) Hc), IH by done. by rewrite str_app_assoc.
Qed.

Lemma str_split_whole sep s :
  str_forallb (λ c, negb (Ascii.eqb c sep)) s = true → str_split sep s = [s].
Proof.
  intros Hs. unfold str_split. rewrite <-(str_app_nil_r s) at 1.
  rewrite str_split_skip by done. by rewrite str_app_nil_l.
Qed.

Lemma str_app_inj_r (a b s : string) : a +:+ s = b +:+ s → a = b.
Proof.
  revert b. induction a as [|x a IH]; intros [|y b] E; [done| | |].
  - apply (f_equal String.length) in E. rewrite str_app_cons, str_app_nil_l in E. simpl in E.
    rewrite str_length_app in E. lia.
  - apply (f_equal String.length) in E. rewrite str_app_cons, str_app_nil_l in E. simpl in E.
    rewrite str_length_app in E. lia.
  - rewrite !str_app_cons in E. injection E as -> E. f_equal. auto.
Qed.

Lemma str_leb_total a b : str_leb a b = true ∨ str_leb b a = true.
Proof. apply String.leb_total. Qed.

Lemma str_leb_refl a : str_leb a a = true.
Proof. by destruct (str_leb_total a a). Qed.

Lemma str_compare_trans a b c :
  String.compare a b ≠ Gt → String.compare b c ≠ Gt → String.compare a c ≠ Gt.
Proof.
  revert b c. induction a as [|x a IH]; intros [|y b] [|z c]; simpl; try done.
  unfold Ascii.compare.
  destruct (N.compare_spec (N_of_ascii x) (N_of_ascii y)) as [Exy|Exy|Exy],
    (N.compare_spec (N_of_ascii y) (N_of_ascii z)) as [Eyz|Eyz|Eyz],
    (N.compare_spec (N_of_ascii x) (N_of_ascii z)) as [Exz|Exz|Exz]; try done; try lia.
  apply IH.
Qed.

Lemma str_leb_trans a b c : str_leb a b = true → str_leb b c = true → str_leb a c = true.
Proof.
  unfold str_leb, String.leb. pose proof (str_compare_trans a b c).
  destruct (String.compare a b), (String.compare b c), (String.compare a c); naive_solver.
Qed.

Lemma dedup_cons_cons x y l :
  dedup (x :: y :: l) = if decide (x = y) then dedup (y :: l) else x :: dedup (y :: l).
Proof. done. Qed.

Lemma dedup_elem_of l x : x ∈ dedup l ↔ x ∈ l.
Proof.
  induction l as [|y l IH]; [done|]. destruct l as [|z l]; [done|].
  rewrite dedup_cons_cons. case_decide; subst; set_solver.
Qed.

Lemma dedup_strict l :
  StronglySorted (λ x y, str_leb x y = true) l →
  StronglySorted (λ x y, str_leb x y = true ∧ x ≠ y) (dedup l).
Proof.
  induction 1 as [|x l Hs IH Hx]; [constructor|]. destruct l as [|y l]; [by repeat constructor|].
  rewrite dedup_cons_cons. case_decide as Hd; [done|]. constructor; [done|]. rewrite Forall_forall in Hx |- *.
  intros z Hz. rewrite dedup_elem_of in Hz. split; [by apply Hx|]. intros ->.
  inversion_clear Hs as [|?? _ Hy]. rewrite Forall_forall in Hy.
  apply elem_of_cons in Hz as [?|Hz]; [done|]. destruct Hd.
  apply String.leb_antisym; [apply Hx; set_solver|by apply Hy].
Qed.

(** ** Generic lemmas: lists *)

Lemma NoDup_fmap_app {A B} (f : A → B) (l1 l2 : list A) :
  NoDup (f <$> l1 ++ l2) ↔
  NoDup (f <$> l1) ∧ (∀ x, x ∈ f <$> l1 → x ∉ f <$> l2) ∧ NoDup (f <$> l2).
Proof. rewrite fmap_app. apply NoDup_app. Qed.

Lemma elem_of_filter_bool {A} (f : A → bool) (l : list A) x :
  x ∈ List.filter f l ↔ f x = true ∧ x ∈ l.
Proof. rewrite !list_elem_of_In, filter_In. tauto. Qed.

Lemma forallb_elem_of {A} `{EqDecision A} (l k : list A) :
  forallb (λ x, bool_decide (x ∈ k)) l = true ↔ l ⊆ k.
Proof.
  rewrite forallb_forall. split.
  - intros Hl x Hx. apply list_elem_of_In, Hl in Hx. by apply bool_decide_eq_true in Hx.
  - intros Hl x Hx. apply bool_decide_eq_true, Hl. by apply list_elem_of_In.
Qed.

Lemma list_delete_fmap_perm {A B} (f : A → B) (l : list A) i x :
  l !! i = Some x → f <$> l ≡ₚ f x :: (f <$> delete i l).
Proof. intros Hi. apply delete_Permutation in Hi. rewrite Hi at 1. done. Qed.

(** ** Generic lemmas: sorting *)

Section SortByFacts.
Context {A : Type} (leb : A → A → bool).

Lemma insert_by_perm x l : insert_by leb x l ≡ₚ x :: l.
Proof.
  induction l as [|y l IH]; simpl; [done|].
  destruct (leb x y); [done|]. rewrite IH. apply Permutation_swap.
Qed.

(** A list in strictly descending order is reversed. *)
Lemma insert_by_last x l : (∀ y, y ∈ l → leb x y = false) → insert_by leb x l = l ++ [x].
Proof.
  induction l as [|y l IH]; simpl; intros Hx; [done|].
  rewrite Hx by set_solver. f_equal. apply IH. set_solver.
Qed.

Lemma sort_by_reverse l : StronglySorted (λ x y, leb x y = false) l → sort_by leb l = reverse l.
Proof.
  induction 1 as [|x l Hs IH Hx]; simpl; [done|].
  rewrite IH, reverse_cons. apply insert_by_last. intros y Hy. rewrite elem_of_reverse in Hy.
  exact (proj1 (Forall_forall _ _) Hx y Hy).
Qed.

Lemma sort_by_perm l : sort_by leb l ≡ₚ l.
Proof. induction l as [|x l IH]; simpl; [done|]. by rewrite insert_by_perm, IH. Qed.

Lemma sort_by_elem_of l x : x ∈ sort_by leb l ↔ x ∈ l.
Proof. by rewrite sort_by_perm. Qed.

Lemma sort_by_length l : length (sort_by leb l) = length l.
Proof. by rewrite sort_by_perm. Qed.

Context (Htot : ∀ x y, leb x y = true ∨ leb y x = true).
Context (Htrans : ∀ x y z, leb x y = true → leb y z = true → leb x z = true).
Notation Sorted := (StronglySorted (λ x y, leb x y = true)).

Lemma insert_by_sorted x l : Sorted l → Sorted (insert_by leb x l).
Proof.
  induction l as [|y l IH]; intros Hs; simpl; [by repeat constructor|].
  inversion_clear Hs as [|?? Hl Hy]. destruct (leb x y) eqn:E.
  - constructor; [by constructor|]. constructor; [done|].
    eapply Forall_impl; [exact Hy|]. intros z. by apply Htrans.
  - assert (leb y x = true) by (destruct (Htot x y); congruence).
    constructor; [auto|]. by rewrite insert_by_perm, Forall_cons.
Qed.

Lemma sort_by_sorted l : Sorted (sort_by leb l).
Proof. induction l; simpl; [constructor|]. by apply insert_by_sorted. Qed.

(** The first element of a sorted list is a minimum of the input. *)
Lemma sort_by_head_min l x l' :
  sort_by leb l = x :: l' → x ∈ l ∧ ∀ y, y ∈ l → leb x y = true.
Proof.
  intros E. pose proof (sort_by_sorted l) as Hs. rewrite E in Hs.
  inversion_clear Hs as [|?? _ Hx]. split.
  - rewrite <-sort_by_elem_of, E. set_solver.
  - intros y. rewrite <-sort_by_elem_of, E, elem_of_cons. intros [->|Hy].
    + by destruct (Htot x x).
    + by rewrite Forall_forall in Hx; apply Hx.
Qed.

(** Stability: elements that compare equal to [z] keep their order. *)
Lemma sort_by_stable z l :
  let eqv x := leb x z && leb z x in
  List.filter eqv (sort_by leb l) = List.filter eqv l.
Proof.
  intros eqv. induction l as [|x l IH]; simpl; [done|]. rewrite <-IH. clear IH.
  generalize (sort_by leb l). intros s. induction s as [|y s IHs]; simpl; [done|].
  destruct (leb x y) eqn:E; simpl; [by destruct (eqv x)|]. rewrite IHs.
  destruct (eqv x) eqn:Ex, (eqv y) eqn:Ey; try done.
  unfold eqv in Ex, Ey. bool_prop.
  assert (leb x y = true) by eauto. congruence.
Qed.
End SortByFacts.

(** ** Generic lemmas: maps *)

Section MapFacts.
Context {K V : Type} `{Countable K}.
Implicit Types m : gmap K V.

Lemma map_update_lookup f k m k' :
  map_update f k m !! k' = if decide (k = k') then f <$> m !! k' else m !! k'.
Proof.
  unfold map_update. destruct (m !! k) eqn:E; case_decide; subst;
    by simplify_map_eq.
Qed.

Lemma map_update_dom f k m : dom (map_update f k m) = dom m.
Proof.
  apply set_eq. intros k'. rewrite !elem_of_dom, map_update_lookup.
  case_decide; [|done]. by rewrite fmap_is_Some.
Qed.

Lemma map_retain_lookup f m k v :
  map_retain f m !! k = Some v ↔ m !! k = Some v ∧ f k v = true.
Proof.
  unfold map_retain. rewrite map_lookup_filter_Some. simpl.
  by rewrite Is_true_true.
Qed.

Lemma map_retain_size f m : size (map_retain f m) ≤ size m.
Proof. apply map_subseteq_size, map_filter_subseteq. Qed.

Context `{HashOrder}.

Lemma elem_of_hash_values m v : v ∈ hash_values m ↔ ∃ k, m !! k = Some v.
Proof.
  unfold hash_values. rewrite hash_order_perm, list_elem_of_fmap. split.
  - intros [[k v'] [-> Hk]]. exists k. by apply elem_of_map_to_list.
  - intros [k Hk]. exists (k, v). split; [done|]. by apply elem_of_map_to_list.
Qed.

Lemma elem_of_hash_keys m k : k ∈ hash_keys m ↔ is_Some (m !! k).
Proof.
  unfold hash_keys. rewrite hash_order_perm, list_elem_of_fmap. split.
  - intros [[k' v] [-> Hk]]. exists v. by apply elem_of_map_to_list.
  - intros [v Hk]. exists (k, v). split; [done|]. by apply elem_of_map_to_list.
Qed.

Lemma elem_of_hash_order m k v : (k, v) ∈ hash_order m ↔ m !! k = Some v.
Proof. by rewrite hash_order_perm, elem_of_map_to_list. Qed.

Lemma NoDup_hash_keys m : NoDup (hash_keys m).
Proof. unfold hash_keys. rewrite hash_order_perm. apply NoDup_fst_map_to_list. Qed.

(** The keys whose value passes a test, each once. *)
Lemma filter_keys_spec (f : V → bool) m :
  let ks := (List.filter (λ kv : K * V, f kv.2) (hash_order m)).*1 in
  NoDup ks ∧ ∀ k, k ∈ ks ↔ ∃ v, m !! k = Some v ∧ f v = true.
Proof.
  intros ks. split.
  - assert (∀ l : list (K * V), NoDup l.*1 → NoDup (List.filter (λ kv, f kv.2) l).*1) as Hnd.
    { induction l as [|[i x] l IH]; simpl; [done|]. intros (Hi & Hl)%NoDup_cons.
      destruct (f x); simpl; [|auto]. apply NoDup_cons. split; [|auto].
      intros Hc. apply Hi. apply list_elem_of_fmap in Hc as (kv & -> & Hkv).
      apply elem_of_filter_bool in Hkv as [_ Hkv]. by apply list_elem_of_fmap_2. }
    apply Hnd, NoDup_hash_keys.
  - intros k. unfold ks. rewrite list_elem_of_fmap. split.
    + intros [[k' v] [-> Hf]]. apply elem_of_filter_bool in Hf as [Hs Hi].
      exists v. by apply elem_of_hash_order in Hi.
    + intros (v & Hk & Hf). exists (k, v). split; [done|].
      apply elem_of_filter_bool. by rewrite elem_of_hash_order.
Qed.

Lemma hash_order_length m : length (hash_order m) = size m.
Proof. by rewrite hash_order_perm, length_map_to_list. Qed.
End MapFacts.

#[export] Hint Rewrite str_app_cons str_app_nil_l str_app_nil_r str_app_assoc : uhorse.
#[export] Hint Rewrite @map_update_lookup @map_retain_lookup : uhorse.
#[export] Hint Resolve NoDup_hash_keys wrap_range : uhorse.
