(* ===== verification/Text.v ===== *)
(** Texts as the standard library sees them, shared by the components that read
    lines, prefixes or single characters of UTF-8 strings. *)
From S2P Require Import Prelude.

(** ** Lines and prefixes *)

(** [str::lines]: split at line feeds, without a last empty line; a carriage
    return before a line feed goes with it. *)
Definition strip_cr (s : string) : string :=
  match String.length s with
  | O => s
  | S n => if bool_decide (String.get n s = Some "013"%char) then String.substring 0 n s else s
  end.
Definition str_lines (s : string) : list string :=
  let pieces := str_split "010" s in
  (strip_cr <$> removelast pieces) ++
  match last pieces with
  | Some l => if bool_decide (l = "") then [] else [l]
  | None => []
  end.

Definition strip_prefix (p s : string) : option string :=
  if String.prefix p s then Some (String.substring (String.length p) (String.length s - String.length p) s)
  else None.

(** [s.split(sep).next()] for a separator of several bytes. *)
Fixpoint before_first (sep s : string) : string :=
  if String.prefix sep s then ""
  else match s with EmptyString => "" | String c r => String c (before_first sep r) end.

(** A quotation mark, and a text between two of them. *)
Definition dquote : string := String "034" EmptyString.
Definition in_quotes (s : string) : string := dquote +:+ s +:+ dquote.

(** ** Slices of UTF-8 strings *)

(** A continuation byte, [10xxxxxx]. *)
Definition is_continuation (c : Ascii.ascii) : bool :=
  bool_decide (128 ≤ byte_of c ∧ byte_of c < 192).

(** The indices of [char_indices]. *)
Fixpoint char_indices (i : nat) (s : string) : list nat :=
  match s with
  | EmptyString => []
  | String c s' =>
      if is_continuation c then char_indices (S i) s' else i :: char_indices (S i) s'
  end.

Definition slice_from (k : nat) (s : string) : string := String.substring k (String.length s - k) s.
Definition slice_to (k : nat) (s : string) : string := String.substring 0 k s.

(** [str::is_char_boundary]: slicing anywhere else panics. *)
Fixpoint is_char_boundary (s : string) (k : nat) : bool :=
  match k, s with
  | O, _ => true
  | S _, EmptyString => false
  | S O, String _ EmptyString => true
  | S O, String _ (String c _) => negb (is_continuation c)
  | S k', String _ s' => is_char_boundary s' k'
  end.

(** ** Facts *)

(** One encoded character: a byte that starts one, then continuation bytes. *)
Definition is_char (ch : string) : Prop :=
  ∃ c tail, ch = String c tail ∧ is_continuation c = false ∧ str_forallb is_continuation tail = true.

Definition str_concat : list string → string := foldr (λ a b, a +:+ b) "".

Lemma str_concat_cons x l : str_concat (x :: l) = x +:+ str_concat l.
Proof. done. Qed.

Lemma str_concat_app a b : str_concat (a ++ b) = str_concat a +:+ str_concat b.
Proof. induction a as [|x a IH]; simpl; [by rewrite str_app_nil_l|]. by rewrite IH, str_app_assoc. Qed.

Lemma char_indices_tail i tail r :
  str_forallb is_continuation tail = true →
  char_indices i (tail +:+ r) = char_indices (i + String.length tail) r.
Proof.
  revert i. induction tail as [|c tail IH]; intros i Ht.
  { by rewrite str_app_nil_l, Nat.add_0_r. }
  simpl in Ht. apply andb_true_iff in Ht as [Hc Ht]. rewrite str_app_cons. simpl.
  rewrite Hc, IH by done. f_equal. lia.
Qed.

(** The n-th index is where the n-th character starts. *)
Lemma char_indices_lookup i cs n :
  Forall is_char cs →
  char_indices i (str_concat cs) !! n =
  if bool_decide (n < length cs) then Some (i + String.length (str_concat (take n cs))) else None.
Proof.
  intros Hcs. revert i n. induction Hcs as [|ch cs (c & tail & -> & Hc & Ht) _ IH]; intros i n; [done|].
  rewrite str_concat_cons, str_app_cons. cbn [char_indices]. rewrite Hc, char_indices_tail by done.
  destruct n as [|n]; [by rewrite Nat.add_0_r|]. cbn [lookup list_lookup]. rewrite IH. cbn [length].
  rewrite (bool_decide_ext (S n < S (length cs)) _ (iff_sym (Nat.succ_lt_mono n _))).
  case_bool_decide; [|done]. rewrite firstn_cons, str_concat_cons, str_length_app. simpl. f_equal. lia.
Qed.

Lemma substring_app a b : String.substring (String.length a) (String.length b) (a +:+ b) = b.
Proof.
  induction a as [|c a IH]; [|by rewrite str_app_cons].
  rewrite str_app_nil_l. simpl. induction b as [|c b IHb]; simpl; [done|by rewrite IHb].
Qed.

Lemma slice_from_app a b : slice_from (String.length a) (a +:+ b) = b.
Proof.
  unfold slice_from. rewrite str_length_app.
  replace (_ + String.length b - _) with (String.length b) by lia. apply substring_app.
Qed.

Lemma slice_to_app a b : slice_to (String.length a) (a +:+ b) = a.
Proof.
  unfold slice_to. induction a as [|c a IH].
  - rewrite str_app_nil_l. by destruct b.
  - rewrite str_app_cons. cbn [String.length String.substring]. by rewrite IH.
Qed.

(** The start of the n-th character, or the end. *)
Lemma nth_char_start cs n :
  Forall is_char cs →
  default (String.length (str_concat cs)) (char_indices 0 (str_concat cs) !! n)
  = String.length (str_concat (take n cs)).
Proof.
  intros Hcs. rewrite char_indices_lookup by done. case_bool_decide as Hn; simpl; [done|].
  by rewrite take_ge by lia.
Qed.

(** ** Trimming and prefixes *)

(** A byte that starts no white space, in UTF-8. *)
Definition is_solid (c : Ascii.ascii) : bool :=
  let n := byte_of c in
  bool_decide (¬ (9 ≤ n ≤ 13) ∧ n ≠ 32 ∧ n ≠ 194 ∧ n ≠ 225 ∧ n ≠ 226 ∧ n ≠ 227).

Lemma skip_solid c s : is_solid c = true → skip_whitespace (String c s) = None.
Proof.
  unfold is_solid. intros H%bool_decide_eq_true. unfold skip_whitespace.
  rewrite (bool_decide_false (9 ≤ _ ∧ _)), (bool_decide_false (byte_of c = 32)) by lia. simpl.
  destruct s as [|c2 s]; [done|]. rewrite bool_decide_false by lia. destruct s as [|c3 s]; [done|].
  by rewrite bool_decide_false by lia.
Qed.

Lemma trim_start_solid fuel c s : is_solid c = true → trim_start fuel (String c s) = String c s.
Proof. intros Hc. destruct fuel as [|fuel]; [done|]. cbn [trim_start]. by rewrite skip_solid. Qed.

Lemma trim_end_solid fuel s rest kept :
  str_forallb is_solid s = true → String.length s ≤ fuel →
  trim_end fuel kept "" (s +:+ rest) = trim_end (fuel - String.length s) (kept +:+ s) "" rest.
Proof.
  revert fuel kept. induction s as [|c s IH]; intros fuel kept.
  { rewrite str_app_nil_l, str_app_nil_r. simpl. by rewrite Nat.sub_0_r. }
  cbn [str_forallb]. intros [Hc Hs]%andb_prop Hf. destruct fuel as [|fuel]; [simpl in Hf; lia|].
  rewrite str_app_cons. cbn [trim_end]. rewrite skip_solid by done. rewrite IH by (try done; simpl in Hf; lia).
  by rewrite str_app_nil_l, str_app_assoc.
Qed.

Lemma trim_end_empty fuel kept spaces : trim_end fuel kept spaces "" = kept.
Proof. by destruct fuel. Qed.

Lemma str_trim_solid s : str_forallb is_solid s = true → str_trim s = s.
Proof.
  intros Hs. unfold str_trim. destruct s as [|c s]; [done|]. pose proof Hs as Hs'. cbn [str_forallb] in Hs.
  apply andb_prop in Hs as [Hc _]. rewrite trim_start_solid by done.
  rewrite <-(str_app_nil_r (String c s)) at 2. rewrite trim_end_solid by (try done; lia). by rewrite trim_end_empty.
Qed.

(** A blank in front goes. *)
Lemma str_trim_blank s : str_forallb is_solid s = true → str_trim (String " " s) = s.
Proof.
  intros Hs. unfold str_trim. change (String.length (String " " s)) with (S (String.length s)).
  assert (trim_start (S (String.length s)) (String " " s) = trim_start (String.length s) s) as -> by done.
  destruct s as [|c s]; [done|]. pose proof Hs as Hs'. cbn [str_forallb] in Hs. apply andb_prop in Hs as [Hc _].
  rewrite trim_start_solid by done. rewrite <-(str_app_nil_r (String c s)) at 2.
  rewrite trim_end_solid by (try done; lia). by rewrite trim_end_empty.
Qed.

(** A blank in between stays. *)
Lemma str_trim_between a b :
  str_forallb is_solid a = true → a ≠ "" → str_forallb is_solid b = true → b ≠ "" →
  str_trim (a +:+ String " " b) = a +:+ String " " b.
Proof.
  intros Ha Hna Hb Hnb. unfold str_trim. destruct a as [|ca a]; [done|]. pose proof Ha as Ha'. cbn [str_forallb] in Ha'.
  apply andb_prop in Ha' as [Hca _].
  assert (∀ fuel r, trim_start fuel (String ca a +:+ r) = String ca a +:+ r) as ->
    by (intros fuel r; by apply trim_start_solid).
  rewrite trim_end_solid by (try done; rewrite str_length_app; lia).
  rewrite str_length_app, str_app_nil_l. simpl String.length.
  replace (S (String.length a) + S (String.length b) - S (String.length a)) with (S (String.length b)) by lia.
  destruct b as [|cb b]; [done|]. pose proof Hb as Hb'. cbn [str_forallb] in Hb'. apply andb_prop in Hb' as [Hcb Hb'].
  cbn [trim_end]. change (skip_whitespace (String " " (String cb b))) with (Some (String cb b)). cbv iota beta.
  cbn [String.length trim_end]. rewrite skip_solid by done.
  replace (S (S (String.length b)) - S (String.length b)) with 1 by lia. cbn [String.substring].
  rewrite <-(str_app_nil_r b) at 2. rewrite trim_end_solid by (try done; lia). rewrite trim_end_empty.
  rewrite str_app_nil_l. by rewrite !str_app_assoc.
Qed.

Lemma strip_prefix_app p s : strip_prefix p (p +:+ s) = Some s.
Proof.
  unfold strip_prefix. assert (String.prefix p (p +:+ s) = true) as ->.
  { induction p as [|c p IH]; [by destruct s|]. rewrite str_app_cons. simpl. by destruct (Ascii.ascii_dec c c). }
  f_equal. rewrite str_length_app. replace (_ + _ - _) with (String.length s) by lia.
  induction p as [|c p IH]; [|by rewrite str_app_cons]. simpl. rewrite str_app_nil_l.
  induction s as [|c s IHs]; simpl; [done|by rewrite IHs].
Qed.

(** ** Pieces and bytes *)

Lemma str_forallb_impl (f g : Ascii.ascii → bool) s :
  (∀ c, f c = true → g c = true) → str_forallb f s = true → str_forallb g s = true.
Proof. intros Hfg. induction s as [|c s IH]; simpl; [done|]. intros [? ?]%andb_prop. by rewrite Hfg, IH. Qed.

(** Splitting finds the pieces that were joined. *)
Lemma str_split_of_join sep l :
  l ≠ [] → Forall (λ s, str_forallb (λ c, negb (Ascii.eqb c sep)) s = true) l →
  str_split sep (str_join (String sep "") l) = l.
Proof.
  intros Hl H. induction H as [|x l Hx Hf IH]; [done|]. destruct l as [|y l].
  { simpl. by apply str_split_whole. }
  change (str_join (String sep "") (x :: y :: l)) with (x +:+ String sep "" +:+ str_join (String sep "") (y :: l)).
  unfold str_split in *. rewrite str_split_skip by done. rewrite str_app_nil_l, str_app_cons, str_app_nil_l. simpl.
  rewrite Ascii.eqb_refl. f_equal. by apply IH.
Qed.

Lemma str_app_cancel_l a b c : a +:+ b = a +:+ c → b = c.
Proof. induction a as [|x a IH]; [done|]. rewrite !str_app_cons. intros [= ?]. by apply IH. Qed.

(** A search skips a text without the first byte of what is searched. *)
Lemma str_index_past (c : Ascii.ascii) p a b :
  str_forallb (λ d, negb (Ascii.eqb d c)) a = true →
  String.index 0 (String c p) (a +:+ b) = Nat.add (String.length a) <$> String.index 0 (String c p) b.
Proof.
  induction a as [|x a IH].
  - intros _. rewrite str_app_nil_l. by destruct (String.index _ _ _).
  - cbn [str_forallb]. intros [Hx Ha]%andb_prop. rewrite str_app_cons. cbn [String.index String.prefix].
    destruct (Ascii.ascii_dec c x) as [->|]; [by rewrite Ascii.eqb_refl in Hx|]. rewrite IH by done.
    by destruct (String.index 0 (String c p) b).
Qed.

Lemma str_index_here p b : String.index 0 p (p +:+ b) = Some 0.
Proof.
  assert (String.prefix p (p +:+ b) = true) as Hp.
  { induction p as [|y p IH]; [by destruct b|]. rewrite str_app_cons. simpl. by destruct (Ascii.ascii_dec y y). }
  destruct p as [|y p]; [by rewrite str_app_nil_l; destruct b|]. rewrite str_app_cons in *. cbn [String.index].
  by rewrite Hp.
Qed.

Lemma str_index_skip (c : Ascii.ascii) p a b :
  str_forallb (λ d, negb (Ascii.eqb d c)) a = true →
  String.index 0 (String c p) (a +:+ String c p +:+ b) = Some (String.length a).
Proof. intros Ha. rewrite str_index_past, str_index_here by done. simpl. f_equal. lia. Qed.
