(* ===== verification/Float32.v ===== *)
(** Single-precision floats.  Rust's [f32] arithmetic is IEEE 754 binary32 with
    rounding to nearest even: the Standard Library's [SpecFloat] at precision 24
    and maximal exponent 128 (NaN payloads are not distinguished).  The file
    gives the operations the program uses ([f32::min], [f32::clamp],
    [partial_cmp], integer conversion) and shows that comparison is a total
    preorder away from NaN. *)
From Stdlib Require Import SpecFloat.
From S2P Require Import Prelude.

Abbreviation f32 := spec_float.
Abbreviation f64 := spec_float.

Definition f32_add : f32 → f32 → f32 := SFadd 24 128.
Definition f32_mul : f32 → f32 → f32 := SFmul 24 128.
Definition f32_div : f32 → f32 → f32 := SFdiv 24 128.

(** [n as f32] for an unsigned integer. *)
Definition f32_of_Z (n : Z) : f32 := binary_normalize 24 128 n 0 false.

(** Binary64, the [f64] of Rust. *)
Definition f64_of_Z (n : Z) : f64 := binary_normalize 53 1024 n 0 false.
Definition f64_add : f64 → f64 → f64 := SFadd 53 1024.
Definition f64_mul : f64 → f64 → f64 := SFmul 53 1024.
Definition f64_div : f64 → f64 → f64 := SFdiv 53 1024.

(** The decimal literal [n / d], correctly rounded. *)
Definition f32_lit (n d : Z) : f32 := f32_div (f32_of_Z n) (f32_of_Z d).
Definition f32_zero : f32 := S754_zero false.
Definition f32_one : f32 := f32_of_Z 1.

Definition is_nan (x : f32) : bool := match x with S754_nan => true | _ => false end.

(** [f32::min]: the other operand when one of them is NaN. *)
Definition f32_min (x y : f32) : f32 :=
  if is_nan x then y else if is_nan y then x else if SFltb y x then y else x.

(** [f32::clamp]: NaN is kept. *)
Definition f32_clamp (x lo hi : f32) : f32 :=
  if SFltb x lo then lo else if SFltb hi x then hi else x.

(** [a.partial_cmp(&b).unwrap_or(Ordering::Equal)] is not [Greater]. *)
Definition f32_cmp_leb (x y : f32) : bool :=
  match SFcompare x y with Some Gt => false | _ => true end.

(** ** Comparison as a lexicographic order *)

(** A sort key: sign class, then exponent, then mantissa. *)
Definition f32_key (x : f32) : Z * Z * Z :=
  match x with
  | S754_infinity true => (-2, 0, 0)%Z
  | S754_finite true m e => (-1, - e, Zneg m)%Z
  | S754_zero _ => (0, 0, 0)%Z
  | S754_finite false m e => (1, e, Zpos m)%Z
  | S754_infinity false => (2, 0, 0)%Z
  | S754_nan => (3, 0, 0)%Z
  end.

Definition key_le (a b : Z * Z * Z) : Prop :=
  let '(a1, a2, a3) := a in let '(b1, b2, b3) := b in
  (a1 < b1 ∨ a1 = b1 ∧ (a2 < b2 ∨ a2 = b2 ∧ a3 <= b3))%Z.

Lemma f32_cmp_key x y :
  is_nan x = false → is_nan y = false →
  f32_cmp_leb x y = true ↔ key_le (f32_key x) (f32_key y).
Proof.
  unfold f32_cmp_leb, key_le.
  destruct x as [sx|sx| |sx mx ex], y as [sy|sy| |sy my ey]; simpl; try done;
    intros _ _; try destruct sx; try destruct sy; simpl;
    try (split; [intros _; lia|done]); try (split; [done|lia]);
    change (Pos.compare_cont Eq mx my) with (Pos.compare mx my);
    destruct (Z.compare_spec ex ey), (Pos.compare_spec mx my); simpl;
    (split; [intros H'; first [done | lia]|intros H'; first [done | lia]]).
Qed.

Lemma f32_cmp_total x y :
  is_nan x = false → is_nan y = false →
  f32_cmp_leb x y = true ∨ f32_cmp_leb y x = true.
Proof.
  intros Hx Hy. rewrite !f32_cmp_key by done. unfold key_le.
  destruct (f32_key x) as [[??]?], (f32_key y) as [[??]?]. lia.
Qed.

Lemma f32_cmp_trans x y z :
  is_nan x = false → is_nan y = false → is_nan z = false →
  f32_cmp_leb x y = true → f32_cmp_leb y z = true → f32_cmp_leb x z = true.
Proof.
  intros Hx Hy Hz. rewrite !f32_cmp_key by done. unfold key_le.
  destruct (f32_key x) as [[??]?], (f32_key y) as [[??]?], (f32_key z) as [[??]?]. lia.
Qed.

Lemma f32_ltb_leb x y :
  is_nan x = false → is_nan y = false → SFltb x y = negb (f32_cmp_leb y x).
Proof.
  intros Hx Hy. unfold SFltb, f32_cmp_leb.
  destruct x as [sx|sx| |sx mx ex], y as [sy|sy| |sy my ey]; simpl in *; try done;
    try destruct sx; try destruct sy; try done; simpl.
  all: rewrite (Z.compare_antisym ex ey); destruct (Z.compare ex ey); simpl; try done.
  all: change (Pos.compare_cont Eq mx my) with (Pos.compare mx my);
       change (Pos.compare_cont Eq my mx) with (Pos.compare my mx);
       rewrite (Pos.compare_antisym mx my); by destruct (Pos.compare mx my).
Qed.

(** Away from NaN the comparison is the order of the floats. *)
Lemma f32_leb_cmp x y : is_nan x = false → is_nan y = false → SFleb x y = f32_cmp_leb x y.
Proof.
  unfold SFleb, f32_cmp_leb. intros Hx Hy.
  destruct x as [sx|sx| |sx mx ex], y as [sy|sy| |sy my ey]; simpl in *; try done;
    try destruct sx; try destruct sy; try done; simpl.
  all: by destruct (Z.compare ex ey), (Pos.compare_cont Eq mx my).
Qed.

(** The minimum with a number is a number, and below it. *)
Lemma f32_min_not_nan x y : is_nan y = false → is_nan (f32_min x y) = false.
Proof. unfold f32_min. intros. by repeat case_goal. Qed.

Lemma f32_min_le_r x y : is_nan y = false → f32_cmp_leb (f32_min x y) y = true.
Proof.
  intros Hy. unfold f32_min. destruct (is_nan x) eqn:Hx.
  - by destruct (f32_cmp_total y y).
  - rewrite Hy, f32_ltb_leb by done. destruct (f32_cmp_leb x y) eqn:E; simpl; [done|].
    by destruct (f32_cmp_total y y).
Qed.

Lemma f32_clamp_range x lo hi :
  is_nan x = false → is_nan lo = false → is_nan hi = false →
  f32_cmp_leb lo hi = true →
  f32_cmp_leb lo (f32_clamp x lo hi) = true ∧ f32_cmp_leb (f32_clamp x lo hi) hi = true.
Proof.
  intros Hx Hl Hh Hlh. unfold f32_clamp. rewrite !f32_ltb_leb by done.
  destruct (f32_cmp_leb lo x) eqn:E1; simpl.
  - destruct (f32_cmp_leb x hi) eqn:E2; simpl; [done|].
    split; [done|]. by destruct (f32_cmp_total hi hi).
  - split; [|done]. by destruct (f32_cmp_total lo lo).
Qed.

#[export] Hint Resolve f32_min_not_nan f32_min_le_r : uhorse.
