(* ===== verification/Json.v ===== *)
(** The interface of [serde_json::Value], the JSON values the program stores and
    compares but whose representation belongs to the [serde_json] crate.  Only
    the operations the program calls are part of the interface; a small concrete
    instance makes the examples executable. *)
From S2P Require Import Prelude.

Class JsonValue := {
  Value : Type;
  #[global] value_eq_dec :: EqDecision Value;
  (** [Value::as_object], as the entries in the iteration order of the object. *)
  as_object : Value → option (list (string * Value));
  (** [Value::get] with a string key. *)
  get : Value → string → option Value;
  (** A value built by [json!] from an object literal with distinct keys. *)
  json_object : list (string * Value) → Value;
  json_string : string → Value;
  get_json_object : ∀ l k, NoDup l.*1 → get (json_object l) k = (list_to_map l : gmap string Value) !! k;
  get_as_object : ∀ v l k x, as_object v = Some l → (k, x) ∈ l → get v k = Some x
}.

(** ** A concrete instance: JSON trees over strings *)

(** A leaf is a string; a node [0] is an object, whose children are nodes [1]
    made of a key and a value. *)
Abbreviation json_tree := (gen_tree string).

Definition tree_entry (t : json_tree) : option (string * json_tree) :=
  match t with GenNode 1 [GenLeaf k; v] => Some (k, v) | _ => None end.

Definition tree_members (t : json_tree) : option (gmap string json_tree) :=
  match t with GenNode 0 l => Some (list_to_map (omap tree_entry l)) | _ => None end.

Definition tree_object (l : list (string * json_tree)) : json_tree :=
  GenNode 0 ((λ kv : string * json_tree, GenNode 1 [GenLeaf kv.1; kv.2]) <$> l).

Lemma tree_members_object l : tree_members (tree_object l) = Some (list_to_map l).
Proof.
  assert (omap tree_entry ((λ kv : string * json_tree, GenNode 1 [GenLeaf kv.1; kv.2]) <$> l) = l) as E.
  { induction l as [|[k v] l IH]; [done|]. csimpl. by rewrite IH. }
  unfold tree_members, tree_object. by rewrite E.
Qed.

Definition json_trees : JsonValue.
Proof.
  refine {| Value := json_tree;
            as_object := λ v, map_to_list <$> tree_members v;
            get := λ v k, tree_members v ≫= lookup k;
            json_object := tree_object;
            json_string := GenLeaf |}.
  - intros l k _. by rewrite tree_members_object.
  - intros v l k x. destruct (tree_members v) as [m|]; simpl; [|done].
    intros [= <-]. by rewrite elem_of_map_to_list.
Defined.
