(* ===== verification/ProtocolTypes.v ===== *)
(** The core types of the Hub-Node protocol ([crates/uhorse-protocol/src/types.rs]):
    identifiers, versions, priorities, task states, node capabilities and load,
    task contexts.  The theorems are the round trip of version strings, the
    preorder of capabilities and the range of the load score. *)
From Stdlib Require Import SpecFloat.
From S2P Require Import Prelude Float32.

(** ** Identifiers: newtypes over [String] *)

Record NodeId := MkNodeId { node_id_str : string }.
Record TaskId := MkTaskId { task_id_str : string }.
Record UserId := MkUserId { user_id_str : string }.
Record SessionId := MkSessionId { session_id_str : string }.
Record SkillId := MkSkillId { skill_id_str : string }.

#[export] Instance NodeId_eq_dec : EqDecision NodeId.
Proof. solve_decision. Defined.
#[export] Instance TaskId_eq_dec : EqDecision TaskId.
Proof. solve_decision. Defined.
#[export] Instance UserId_eq_dec : EqDecision UserId.
Proof. solve_decision. Defined.
#[export] Instance SessionId_eq_dec : EqDecision SessionId.
Proof. solve_decision. Defined.
#[export] Instance SkillId_eq_dec : EqDecision SkillId.
Proof. solve_decision. Defined.

#[export] Instance NodeId_countable : Countable NodeId.
Proof. refine (inj_countable' node_id_str MkNodeId _). by intros []. Defined.
#[export] Instance TaskId_countable : Countable TaskId.
Proof. refine (inj_countable' task_id_str MkTaskId _). by intros []. Defined.
#[export] Instance SessionId_countable : Countable SessionId.
Proof. refine (inj_countable' session_id_str MkSessionId _). by intros []. Defined.

(** ** Versions *)

Record SkillVersion := MkSkillVersion { major : Z; minor : Z; patch : Z }.

Definition digit_value (c : Ascii.ascii) : option Z :=
  let n := Z.of_nat (Ascii.nat_of_ascii c) in
  if decide (48 ≤ n ≤ 57)%Z then Some (n - 48)%Z else None.

(** The digit loop of [u32::from_str]: overflow is checked at every digit. *)
Fixpoint parse_u32_digits (acc : Z) (s : string) : option Z :=
  match s with
  | EmptyString => Some acc
  | String c s' =>
      d ← digit_value c;
      let acc' := (acc * 10 + d)%Z in
      if decide (acc' ≤ u32_max)%Z then parse_u32_digits acc' s' else None
  end.

(** [str::parse::<u32>]: an optional plus sign, then at least one digit. *)
Definition parse_u32 (s : string) : option Z :=
  match s with
  | EmptyString => None
  | String "+"%char s' => match s' with EmptyString => None | _ => parse_u32_digits 0 s' end
  | _ => parse_u32_digits 0 s
  end.

(** [Display] of an unsigned integer. *)
Definition display_u (n : Z) : string := pretty (Z.to_N n).

Definition SkillVersion_default : SkillVersion := MkSkillVersion 1 0 0.

Definition SkillVersion_parse (s : string) : option SkillVersion :=
  match str_split "." s with
  | [a; b; c] =>
      ma ← parse_u32 a; mi ← parse_u32 b; pa ← parse_u32 c;
      Some (MkSkillVersion ma mi pa)
  | _ => None
  end.

Definition SkillVersion_display (v : SkillVersion) : string :=
  display_u (major v) +:+ "." +:+ display_u (minor v) +:+ "." +:+ display_u (patch v).

(** ** Priorities and task states *)

Inductive Priority := Background | Low | Normal | High | Urgent | Critical.

#[export] Instance Priority_eq_dec : EqDecision Priority.
Proof. solve_decision. Defined.

Definition priority_index (p : Priority) : nat :=
  match p with
  | Background => 0 | Low => 1 | Normal => 2 | High => 3 | Urgent => 4 | Critical => 5
  end.
Definition priority_of_index (n : nat) : option Priority :=
  [Background; Low; Normal; High; Urgent; Critical] !! n.
#[export] Instance Priority_countable : Countable Priority.
Proof. refine (inj_countable priority_index priority_of_index _). by intros []. Defined.

Definition Priority_display (p : Priority) : string :=
  match p with
  | Background => "background" | Low => "low" | Normal => "normal"
  | High => "high" | Urgent => "urgent" | Critical => "critical"
  end.

Definition Priority_default : Priority := Normal.

Inductive TaskStatus :=
| StatusCreated | StatusQueued | StatusAssigned | StatusRunning
| StatusCompleted | StatusFailed | StatusCancelled | StatusTimeout.

#[export] Instance TaskStatus_eq_dec : EqDecision TaskStatus.
Proof. solve_decision. Defined.

Definition TaskStatus_display (s : TaskStatus) : string :=
  match s with
  | StatusCreated => "created" | StatusQueued => "queued" | StatusAssigned => "assigned"
  | StatusRunning => "running" | StatusCompleted => "completed" | StatusFailed => "failed"
  | StatusCancelled => "cancelled" | StatusTimeout => "timeout"
  end.

(** ** Node capabilities *)

Inductive CommandType := TFile | TShell | TCode | TDatabase | TApi | TBrowser | TSkill.

#[export] Instance CommandType_eq_dec : EqDecision CommandType.
Proof. solve_decision. Defined.

(** [format!("{:?}", t)]. *)
Definition CommandType_debug (t : CommandType) : string :=
  match t with
  | TFile => "File" | TShell => "Shell" | TCode => "Code" | TDatabase => "Database"
  | TApi => "Api" | TBrowser => "Browser" | TSkill => "Skill"
  end.

Record NodeCapabilities := MkNodeCapabilities {
  supported_commands : list CommandType;
  cap_tags : list string;
  max_concurrent_tasks : Z;
  available_tools : list string
}.

Definition NodeCapabilities_default : NodeCapabilities :=
  MkNodeCapabilities [TFile; TShell; TCode] ["default"] 5 [].

(** The two early-return loops of [meets] are universal quantifications. *)
Definition meets (self required : NodeCapabilities) : bool :=
  if bool_decide (max_concurrent_tasks self < max_concurrent_tasks required)%Z then false
  else if negb (forallb (λ cmd, bool_decide (cmd ∈ supported_commands self))
                        (supported_commands required)) then false
  else if negb (forallb (λ tool, bool_decide (tool ∈ available_tools self))
                        (available_tools required)) then false
  else true.

(** ** Workspaces, status and load *)

Record WorkspaceInfo := MkWorkspaceInfo {
  ws_workspace_id : option string;
  ws_name : string;
  ws_path : string;
  ws_read_only : bool;
  ws_allowed_patterns : list string;
  ws_denied_patterns : list string
}.

Record NodeStatus := MkNodeStatus {
  st_node_id : NodeId;
  st_online : bool;
  st_current_tasks : Z;
  st_max_tasks : Z;
  st_cpu_percent : f32;
  st_memory_mb : Z;
  st_disk_gb : f64;
  st_network_latency_ms : option Z;
  st_last_heartbeat : timestamp
}.

Record LoadInfo := MkLoadInfo {
  cpu_usage : f32;
  memory_usage : f32;
  task_count : Z;
  latency_ms : option Z
}.

Definition LoadInfo_default : LoadInfo := MkLoadInfo f32_zero f32_zero 0 None.

Definition score (l : LoadInfo) : f32 :=
  let cpu_score := f32_mul (cpu_usage l) (f32_lit 4 10) in
  let mem_score := f32_mul (memory_usage l) (f32_lit 3 10) in
  let task_score :=
    f32_mul (f32_min (f32_div (f32_of_Z (task_count l)) (f32_lit 10 1)) f32_one) (f32_lit 2 10) in
  let latency_score :=
    match latency_ms l with
    | Some ms => f32_min (f32_div (f32_of_Z ms) (f32_lit 1000 1)) (f32_lit 1 10)
    | None => f32_zero
    end in
  f32_min (f32_add (f32_add (f32_add cpu_score mem_score) task_score) latency_score) f32_one.

Definition combined_load (l : LoadInfo) : f32 := score l.

(** ** Task contexts and metrics *)

Record TaskContext := MkTaskContext {
  tc_user_id : UserId;
  tc_session_id : SessionId;
  tc_channel : string;
  tc_execution_workspace_id : option string;
  tc_collaboration_workspace_id : option string;
  tc_intent : option string;
  tc_env : gmap string string;
  tc_created_at : timestamp
}.

Definition TaskContext_new (user : UserId) (session : SessionId) (channel : string)
    (now : timestamp) : TaskContext :=
  MkTaskContext user session channel None None None ∅ now.

Definition with_execution_workspace_id (c : TaskContext) (w : string) : TaskContext :=
  MkTaskContext (tc_user_id c) (tc_session_id c) (tc_channel c) (Some w)
    (tc_collaboration_workspace_id c) (tc_intent c) (tc_env c) (tc_created_at c).
Definition with_collaboration_workspace_id (c : TaskContext) (w : string) : TaskContext :=
  MkTaskContext (tc_user_id c) (tc_session_id c) (tc_channel c) (tc_execution_workspace_id c)
    (Some w) (tc_intent c) (tc_env c) (tc_created_at c).
Definition with_intent (c : TaskContext) (i : string) : TaskContext :=
  MkTaskContext (tc_user_id c) (tc_session_id c) (tc_channel c) (tc_execution_workspace_id c)
    (tc_collaboration_workspace_id c) (Some i) (tc_env c) (tc_created_at c).
Definition with_env (c : TaskContext) (k v : string) : TaskContext :=
  MkTaskContext (tc_user_id c) (tc_session_id c) (tc_channel c) (tc_execution_workspace_id c)
    (tc_collaboration_workspace_id c) (tc_intent c) (<[k := v]> (tc_env c)) (tc_created_at c).

Record ExecutionMetrics := MkExecutionMetrics {
  em_duration_ms : Z;
  em_cpu_time_ms : Z;
  em_peak_memory_mb : Z;
  em_bytes_read : Z;
  em_bytes_written : Z;
  em_network_requests : Z
}.

(** ** Version strings *)

Definition u32_version (v : SkillVersion) : Prop :=
  (0 ≤ major v ≤ u32_max ∧ 0 ≤ minor v ≤ u32_max ∧ 0 ≤ patch v ≤ u32_max)%Z.

Lemma digit_value_pretty d :
  (d < 10)%N → digit_value (pretty_N_char d) = Some (Z.of_N d).
Proof.
  intros Hd. assert (d = 0 ∨ d = 1 ∨ d = 2 ∨ d = 3 ∨ d = 4 ∨ d = 5 ∨ d = 6 ∨ d = 7
    ∨ d = 8 ∨ d = 9)%N as E by lia. naive_solver.
Qed.

Lemma parse_u32_digits_pretty x s :
  (Z.of_N x ≤ u32_max)%Z →
  parse_u32_digits 0 (pretty_N_go x s) = parse_u32_digits (Z.of_N x) s.
Proof.
  revert s. induction (N.lt_wf_0 x) as [x _ IH]; intros s Hx.
  destruct (decide (x = 0)%N) as [->|Hnz]; [by rewrite pretty_N_go_0|].
  rewrite pretty_N_go_step by lia.
  assert (x `div` 10 < x)%N by (apply N.div_lt; lia).
  rewrite IH by (done || lia). simpl.
  rewrite digit_value_pretty by (apply N.mod_lt; lia). simpl.
  replace (Z.of_N (x `div` 10) * 10 + Z.of_N (x `mod` 10))%Z with (Z.of_N x)
    by (rewrite (N.div_mod x 10) at 1 by done; lia).
  by rewrite decide_True by lia.
Qed.

(** The digits of a number: no sign and no dot among them. *)
Definition is_digit (c : Ascii.ascii) : bool := bool_decide (is_Some (digit_value c)).

Lemma pretty_N_go_digits x s :
  str_forallb is_digit s = true → str_forallb is_digit (pretty_N_go x s) = true.
Proof.
  revert s. induction (N.lt_wf_0 x) as [x _ IH]; intros s Hs.
  destruct (decide (x = 0)%N) as [->|Hnz]; [by rewrite pretty_N_go_0|].
  rewrite pretty_N_go_step by lia. apply IH; [apply N.div_lt; lia|]. simpl.
  unfold is_digit at 1. rewrite digit_value_pretty by (apply N.mod_lt; lia).
  by rewrite bool_decide_true by eauto.
Qed.

Lemma display_u_digits n : str_forallb is_digit (display_u n) = true.
Proof.
  unfold display_u, pretty, pretty_N. case_decide; [done|]. by apply pretty_N_go_digits.
Qed.

Lemma display_u_nonempty n : display_u n ≠ "".
Proof.
  unfold display_u, pretty, pretty_N. case_decide; [done|].
  assert (∀ x s, (String.length s ≤ String.length (pretty_N_go x s))%nat) as Hlen.
  { intros x. induction (N.lt_wf_0 x) as [x _ IH]; intros s.
    destruct (decide (x = 0)%N) as [->|Hnz]; [by rewrite pretty_N_go_0|].
    rewrite pretty_N_go_step by lia.
    etrans; [|apply IH, N.div_lt; lia]. simpl. lia. }
  rewrite pretty_N_go_step by lia. intros E.
  pose proof (Hlen (Z.to_N n `div` 10)%N (String (pretty_N_char (Z.to_N n `mod` 10)) "")) as H'.
  rewrite E in H'. simpl in H'. lia.
Qed.

Lemma parse_u32_digit_string s :
  s ≠ "" → str_forallb is_digit s = true → parse_u32 s = parse_u32_digits 0 s.
Proof.
  destruct s as [|c s]; [done|]. intros _ Hd. simpl in Hd. bool_prop.
  destruct c as [[] [] [] [] [] [] [] []]; try done; compute in H; congruence.
Qed.

Lemma parse_display_u n : (0 ≤ n ≤ u32_max)%Z → parse_u32 (display_u n) = Some n.
Proof.
  intros Hn. rewrite parse_u32_digit_string
    by (apply display_u_nonempty || apply display_u_digits).
  unfold display_u, pretty, pretty_N. case_decide as E.
  - by replace n with 0%Z by lia.
  - rewrite parse_u32_digits_pretty by lia. simpl. f_equal. lia.
Qed.

Lemma is_digit_not_dot c : is_digit c = true → Ascii.eqb c "." = false.
Proof. intros H. destruct c as [[] [] [] [] [] [] [] []]; try done; by compute in H. Qed.

Lemma str_split_digits cur s rest :
  str_forallb is_digit s = true →
  str_split_aux "." cur (s +:+ rest) = str_split_aux "." (cur +:+ s) rest.
Proof.
  revert cur. induction s as [|c s IH]; intros cur Hs.
  - by rewrite str_app_nil_r.
  - simpl in Hs. bool_prop. rewrite str_app_cons. simpl.
    match goal with H : is_digit c = true |- _ => rewrite (is_digit_not_dot c H) end.
    rewrite IH by done. by rewrite str_app_assoc.
Qed.

(** Round trip of version strings: parsing the display form of a version
    whose numbers fit [u32] gives the version back. *)
Theorem SkillVersion_roundtrip v :
  u32_version v → SkillVersion_parse (SkillVersion_display v) = Some v.
Proof.
  intros (Hma & Hmi & Hpa). unfold SkillVersion_parse, SkillVersion_display, str_split.
  rewrite str_split_digits, str_app_cons, !str_app_nil_l by apply display_u_digits; simpl.
  rewrite str_split_digits, str_app_cons, !str_app_nil_l by apply display_u_digits; simpl.
  rewrite <-(str_app_nil_r (display_u (patch v))).
  rewrite str_split_digits, str_app_nil_l by apply display_u_digits. simpl.
  rewrite !parse_display_u by done. by destruct v.
Qed.

Lemma SkillVersion_roundtrip_witness :
  SkillVersion_parse (SkillVersion_display (MkSkillVersion 4 6 4294967295))
  = Some (MkSkillVersion 4 6 4294967295).
Proof. apply SkillVersion_roundtrip. unfold u32_version; simpl; unfold u32_max; lia. Defined.

(** ** Capabilities *)

Lemma meets_spec c r :
  meets c r = true ↔
  (max_concurrent_tasks r ≤ max_concurrent_tasks c)%Z ∧
  supported_commands r ⊆ supported_commands c ∧
  available_tools r ⊆ available_tools c.
Proof.
  unfold meets.
  pose proof (forallb_elem_of (supported_commands r) (supported_commands c)) as H1.
  pose proof (forallb_elem_of (available_tools r) (available_tools c)) as H2.
  case_bool_decide; [split; [done|intros (?&?&?); lia]|].
  destruct (forallb _ (supported_commands r)), (forallb _ (available_tools r)); simpl;
    (split; [intros ?; split_and!; first [done|lia|tauto]|intros (?&?&?); tauto]).
Qed.

(** [meets] is a preorder on capabilities, so a node that meets a stronger
    requirement meets every weaker one; and every node meets itself. *)
Theorem meets_preorder :
  (∀ c, meets c c = true) ∧
  (∀ a b c, meets a b = true → meets b c = true → meets a c = true).
Proof.
  split.
  - intros c. rewrite meets_spec. split_and!; [lia|done|done].
  - intros a b c. rewrite !meets_spec. intros (?&?&?) (?&?&?).
    split_and!; [lia|by etrans|by etrans].
Qed.

(** ** The load score *)

Lemma score_not_nan l : is_nan (score l) = false.
Proof. unfold score. by apply f32_min_not_nan. Qed.

(** The load score is always a number and never exceeds one, whatever the
    node reports (NaN, infinite or negative usages included), and comparing
    scores is a total preorder on load reports. *)
Theorem score_bounded_total :
  (∀ l, is_nan (score l) = false ∧ f32_cmp_leb (score l) f32_one = true) ∧
  (∀ a b, f32_cmp_leb (score a) (score b) = true ∨ f32_cmp_leb (score b) (score a) = true) ∧
  (∀ a b c, f32_cmp_leb (score a) (score b) = true →
            f32_cmp_leb (score b) (score c) = true →
            f32_cmp_leb (score a) (score c) = true).
Proof.
  split_and!.
  - intros l. split; [apply score_not_nan|]. by apply f32_min_le_r.
  - intros a b. apply f32_cmp_total; apply score_not_nan.
  - intros a b c. apply f32_cmp_trans; apply score_not_nan.
Qed.
