(* ===== verification/ProtocolCommand.v ===== *)
(** The commands a Hub sends to a Node ([crates/uhorse-protocol/src/command.rs]):
    one constructor or record per command, their target paths, estimated
    durations, required permissions and the wire form of durations. *)
From S2P Require Import Prelude Json ProtocolTypes.

(** ** File commands *)

Inductive FileCommand :=
| FRead (path : string) (limit offset : option Z)
| FWrite (path content : string) (overwrite : bool)
| FAppend (path content : string)
| FDelete (path : string) (recursive : bool)
| FList (path : string) (recursive : bool) (pattern : option string)
| FSearch (pattern path : string) (recursive : bool) (content_pattern : option string)
| FCopy (from to : string) (overwrite : bool)
| FMove (from to : string) (overwrite : bool)
| FInfo (path : string)
| FCreateDir (path : string) (recursive : bool)
| FExists (path : string).

Definition target_path (c : FileCommand) : string :=
  match c with
  | FRead path _ _ => path
  | FWrite path _ _ => path
  | FAppend path _ => path
  | FDelete path _ => path
  | FList path _ _ => path
  | FSearch _ path _ _ => path
  | FCopy from _ _ => from
  | FMove from _ _ => from
  | FInfo path => path
  | FCreateDir path _ => path
  | FExists path => path
  end.

Definition FileCommand_estimated_duration (c : FileCommand) : duration :=
  match c with
  | FRead _ _ _ => millis 100
  | FWrite _ _ _ => millis 100
  | FAppend _ _ => millis 50
  | FDelete _ _ => millis 200
  | FList _ recursive _ => if recursive then seconds 5 else millis 500
  | FSearch _ _ _ _ => seconds 10
  | FCopy _ _ _ => seconds 2
  | FMove _ _ _ => millis 500
  | FInfo _ => millis 50
  | FCreateDir _ _ => millis 50
  | FExists _ => millis 20
  end.

Definition FileCommand_required_permissions (c : FileCommand) : list string :=
  match c with
  | FRead _ _ _ => ["file:read"]
  | FWrite _ _ _ => ["file:write"]
  | FAppend _ _ => ["file:write"]
  | FDelete _ _ => ["file:delete"]
  | FList _ _ _ => ["file:read"]
  | FSearch _ _ _ _ => ["file:read"]
  | FCopy _ _ _ => ["file:read"; "file:write"]
  | FMove _ _ _ => ["file:read"; "file:write"; "file:delete"]
  | FInfo _ => ["file:read"]
  | FCreateDir _ _ => ["file:write"]
  | FExists _ => ["file:read"]
  end.

(** ** Shell commands *)

Record ShellCommand := MkShellCommand {
  sh_command : string;
  sh_args : list string;
  sh_cwd : option string;
  sh_env : gmap string string;
  sh_timeout : duration;
  sh_capture_stderr : bool
}.

Definition default_shell_timeout : duration := seconds 60.
Definition default_capture_stderr : bool := true.

Definition ShellCommand_new (command : string) : ShellCommand :=
  MkShellCommand command [] None ∅ default_shell_timeout default_capture_stderr.

Definition with_arg (s : ShellCommand) (arg : string) : ShellCommand :=
  MkShellCommand (sh_command s) (sh_args s ++ [arg]) (sh_cwd s) (sh_env s) (sh_timeout s)
    (sh_capture_stderr s).
Definition with_args (s : ShellCommand) (args : list string) : ShellCommand :=
  MkShellCommand (sh_command s) (sh_args s ++ args) (sh_cwd s) (sh_env s) (sh_timeout s)
    (sh_capture_stderr s).
Definition with_cwd (s : ShellCommand) (cwd : string) : ShellCommand :=
  MkShellCommand (sh_command s) (sh_args s) (Some cwd) (sh_env s) (sh_timeout s)
    (sh_capture_stderr s).
Definition ShellCommand_with_env (s : ShellCommand) (k v : string) : ShellCommand :=
  MkShellCommand (sh_command s) (sh_args s) (sh_cwd s) (<[k := v]> (sh_env s)) (sh_timeout s)
    (sh_capture_stderr s).
Definition ShellCommand_with_timeout (s : ShellCommand) (t : duration) : ShellCommand :=
  MkShellCommand (sh_command s) (sh_args s) (sh_cwd s) (sh_env s) t (sh_capture_stderr s).

Definition ShellCommand_estimated_duration (s : ShellCommand) : duration := sh_timeout s.
Definition ShellCommand_required_permissions (s : ShellCommand) : list string :=
  ["shell:execute"].

(** ** Code commands *)

Inductive CodeLanguage :=
| Python | JavaScript | TypeScript | RustLang | GoLang | ShellLang | SqlLang.

Record CodeCommand := MkCodeCommand {
  cc_language : CodeLanguage;
  cc_code : string;
  cc_entry_file : option string;
  cc_dependencies : list string;
  cc_timeout : duration;
  cc_env : gmap string string;
  cc_workdir : option string
}.

Definition CodeCommand_new (language : CodeLanguage) (code : string) : CodeCommand :=
  MkCodeCommand language code None [] (seconds 60) ∅ None.

Definition with_entry (c : CodeCommand) (entry : string) : CodeCommand :=
  MkCodeCommand (cc_language c) (cc_code c) (Some entry) (cc_dependencies c) (cc_timeout c)
    (cc_env c) (cc_workdir c).
Definition with_dependency (c : CodeCommand) (dep : string) : CodeCommand :=
  MkCodeCommand (cc_language c) (cc_code c) (cc_entry_file c) (cc_dependencies c ++ [dep])
    (cc_timeout c) (cc_env c) (cc_workdir c).
Definition CodeCommand_with_timeout (c : CodeCommand) (t : duration) : CodeCommand :=
  MkCodeCommand (cc_language c) (cc_code c) (cc_entry_file c) (cc_dependencies c) t
    (cc_env c) (cc_workdir c).

(** ** Database, API, browser and skill commands *)

Inductive DatabaseType := Postgres | Mysql | Sqlite | Mongodb | Redis.
Inductive HttpMethod := HttpGet | HttpPost | HttpPut | HttpDelete | HttpPatch | HttpHead.

Inductive BrowserCommand :=
| BOpenSystem (url : string)
| BNavigate (url : string)
| BScreenshot (selector : option string) (full_page : bool)
| BClick (selector : string)
| BType (selector text : string)
| BWaitFor (selector : string) (timeout_secs : Z)
| BGetText (selector : string)
| BEvaluate (script : string)
| BClose.

Definition BrowserCommand_timeout (c : BrowserCommand) : duration :=
  match c with
  | BOpenSystem _ => seconds 10
  | BNavigate _ => seconds 30
  | BScreenshot _ _ => seconds 10
  | BClick _ => seconds 5
  | BType _ _ => seconds 5
  | BWaitFor _ timeout_secs => seconds timeout_secs
  | BGetText _ => seconds 5
  | BEvaluate _ => seconds 10
  | BClose => seconds 5
  end.

Section JsonCommands.
Context `{JsonValue}.

Record DatabaseCommand := MkDatabaseCommand {
  db_type : DatabaseType;
  db_connection_name : option string;
  db_connection_string : option string;
  db_query : string;
  db_params : list Value;
  db_timeout : duration;
  db_limit : option Z
}.

Definition DatabaseCommand_new (ty : DatabaseType) (query : string) : DatabaseCommand :=
  MkDatabaseCommand ty None None query [] (seconds 30) (Some 1000%Z).

Definition with_connection (c : DatabaseCommand) (name : string) : DatabaseCommand :=
  MkDatabaseCommand (db_type c) (Some name) (db_connection_string c) (db_query c)
    (db_params c) (db_timeout c) (db_limit c).
Definition with_connection_string (c : DatabaseCommand) (conn : string) : DatabaseCommand :=
  MkDatabaseCommand (db_type c) (db_connection_name c) (Some conn) (db_query c)
    (db_params c) (db_timeout c) (db_limit c).
Definition with_param (c : DatabaseCommand) (param : Value) : DatabaseCommand :=
  MkDatabaseCommand (db_type c) (db_connection_name c) (db_connection_string c) (db_query c)
    (db_params c ++ [param]) (db_timeout c) (db_limit c).
Definition DatabaseCommand_with_timeout (c : DatabaseCommand) (t : duration) : DatabaseCommand :=
  MkDatabaseCommand (db_type c) (db_connection_name c) (db_connection_string c) (db_query c)
    (db_params c) t (db_limit c).
Definition with_limit (c : DatabaseCommand) (limit : Z) : DatabaseCommand :=
  MkDatabaseCommand (db_type c) (db_connection_name c) (db_connection_string c) (db_query c)
    (db_params c) (db_timeout c) (Some limit).

Record ApiCommand := MkApiCommand {
  api_method : HttpMethod;
  api_url : string;
  api_headers : gmap string string;
  api_query : gmap string string;
  api_body : option Value;
  api_timeout : duration;
  api_verify_ssl : bool
}.

Definition ApiCommand_new (method : HttpMethod) (url : string) : ApiCommand :=
  MkApiCommand method url ∅ ∅ None (seconds 30) true.
Definition ApiCommand_get (url : string) : ApiCommand := ApiCommand_new HttpGet url.
Definition ApiCommand_post (url : string) : ApiCommand := ApiCommand_new HttpPost url.
Definition with_header (c : ApiCommand) (k v : string) : ApiCommand :=
  MkApiCommand (api_method c) (api_url c) (<[k := v]> (api_headers c)) (api_query c)
    (api_body c) (api_timeout c) (api_verify_ssl c).
Definition with_query (c : ApiCommand) (k v : string) : ApiCommand :=
  MkApiCommand (api_method c) (api_url c) (api_headers c) (<[k := v]> (api_query c))
    (api_body c) (api_timeout c) (api_verify_ssl c).
Definition with_body (c : ApiCommand) (body : Value) : ApiCommand :=
  MkApiCommand (api_method c) (api_url c) (api_headers c) (api_query c)
    (Some body) (api_timeout c) (api_verify_ssl c).
Definition ApiCommand_with_timeout (c : ApiCommand) (t : duration) : ApiCommand :=
  MkApiCommand (api_method c) (api_url c) (api_headers c) (api_query c)
    (api_body c) t (api_verify_ssl c).

Record SkillCommand := MkSkillCommand {
  sk_skill_name : string;
  sk_version : option string;
  sk_input : Value;
  sk_timeout : duration;
  sk_options : gmap string Value
}.

Definition SkillCommand_new (name : string) (input : Value) : SkillCommand :=
  MkSkillCommand name None input (seconds 60) ∅.
Definition SkillCommand_with_version (c : SkillCommand) (v : string) : SkillCommand :=
  MkSkillCommand (sk_skill_name c) (Some v) (sk_input c) (sk_timeout c) (sk_options c).
Definition SkillCommand_with_timeout (c : SkillCommand) (t : duration) : SkillCommand :=
  MkSkillCommand (sk_skill_name c) (sk_version c) (sk_input c) t (sk_options c).
Definition with_option (c : SkillCommand) (k : string) (v : Value) : SkillCommand :=
  MkSkillCommand (sk_skill_name c) (sk_version c) (sk_input c) (sk_timeout c)
    (<[k := v]> (sk_options c)).

(** ** The command type *)

Inductive Command :=
| CFile (c : FileCommand)
| CShell (c : ShellCommand)
| CCode (c : CodeCommand)
| CDatabase (c : DatabaseCommand)
| CApi (c : ApiCommand)
| CBrowser (c : BrowserCommand)
| CSkill (c : SkillCommand).

Definition command_type (c : Command) : CommandType :=
  match c with
  | CFile _ => TFile | CShell _ => TShell | CCode _ => TCode | CDatabase _ => TDatabase
  | CApi _ => TApi | CBrowser _ => TBrowser | CSkill _ => TSkill
  end.

Definition estimated_duration (c : Command) : duration :=
  match c with
  | CFile cmd => FileCommand_estimated_duration cmd
  | CShell cmd => ShellCommand_estimated_duration cmd
  | CCode cmd => cc_timeout cmd
  | CDatabase cmd => db_timeout cmd
  | CApi cmd => api_timeout cmd
  | CBrowser cmd => BrowserCommand_timeout cmd
  | CSkill cmd => sk_timeout cmd
  end.

Definition required_permissions (c : Command) : list string :=
  match c with
  | CFile cmd => FileCommand_required_permissions cmd
  | CShell cmd => ShellCommand_required_permissions cmd
  | CCode _ => ["code:execute"]
  | CDatabase _ => ["database:query"]
  | CApi _ => ["api:call"]
  | CBrowser _ => ["browser:operate"]
  | CSkill cmd => ["skill:execute:" +:+ sk_skill_name cmd]
  end.
End JsonCommands.

(** ** The wire form of durations *)

(** [Duration::as_secs] and [Duration::from_secs], the two halves of [duration_ser]. *)
Definition duration_serialize (d : duration) : Z := (d / nanos_per_sec)%Z.
Definition duration_deserialize (secs : Z) : duration := seconds secs.

(** Encoding a duration for the wire and decoding it drops the sub-second
    part: the decoded duration is never longer, is less than a second shorter,
    and is the original exactly when the original is a whole number of seconds.
    Encoding a decoded value is always exact. *)
Theorem duration_wire_roundtrip :
  (∀ d, (0 ≤ d)%Z →
     (duration_deserialize (duration_serialize d) ≤ d)%Z ∧
     (d - duration_deserialize (duration_serialize d) < nanos_per_sec)%Z ∧
     (duration_deserialize (duration_serialize d) = d ↔ (nanos_per_sec | d)%Z)) ∧
  (∀ s, duration_serialize (duration_deserialize s) = s).
Proof.
  unfold duration_serialize, duration_deserialize, seconds, nanos_per_sec. split.
  - intros d Hd. pose proof (Z.div_mod d 1000000000 ltac:(lia)) as E.
    pose proof (Z.mod_pos_bound d 1000000000 ltac:(lia)).
    split_and!; [lia|lia|]. split.
    + intros <-. by exists (d / 1000000000)%Z.
    + intros [k ->]. rewrite Z.div_mul by lia. lia.
  - intros s. apply Z.div_mul. lia.
Qed.
