(* ===== verification/ProtocolResult.v ===== *)
(** Execution results ([crates/uhorse-protocol/src/result.rs]): outputs, errors,
    progress updates and batch counters. *)
From Stdlib Require Import SpecFloat.
From S2P Require Import Prelude Float32 Json ProtocolTypes.

Inductive ErrorSource :=
| SrcParser | SrcPermission | SrcValidation | SrcExecutor
| SrcTimeout | SrcResource | SrcExternal | SrcInternal.

Record ResourceUsage := MkResourceUsage {
  ru_cpu_percent : f32;
  ru_memory_mb : Z;
  ru_peak_memory_mb : Z;
  ru_disk_read_kb : Z;
  ru_disk_write_kb : Z;
  ru_network_sent_kb : Z;
  ru_network_recv_kb : Z
}.

Definition ResourceUsage_default : ResourceUsage := MkResourceUsage f32_zero 0 0 0 0 0 0.

Section JsonResults.
Context `{JsonValue}.

(** ** Errors *)

Record ExecutionError := MkExecutionError {
  ee_code : string;
  ee_message : string;
  ee_details : option Value;
  ee_source : ErrorSource;
  ee_retryable : bool;
  ee_retry_after_ms : option Z
}.

Definition ExecutionError_new (code message : string) (source : ErrorSource) : ExecutionError :=
  MkExecutionError code message None source false None.
Definition ExecutionError_with_details (e : ExecutionError) (d : Value) : ExecutionError :=
  MkExecutionError (ee_code e) (ee_message e) (Some d) (ee_source e) (ee_retryable e)
    (ee_retry_after_ms e).
Definition ExecutionError_with_retryable (e : ExecutionError) (ms : Z) : ExecutionError :=
  MkExecutionError (ee_code e) (ee_message e) (ee_details e) (ee_source e) true (Some ms).
Definition permission_denied (m : string) : ExecutionError :=
  ExecutionError_new "PERMISSION_DENIED" m SrcPermission.
Definition timeout_error (m : string) : ExecutionError :=
  ExecutionError_with_retryable (ExecutionError_new "TIMEOUT" m SrcTimeout) 1000.
Definition resource_exhausted (m : string) : ExecutionError :=
  ExecutionError_new "RESOURCE_EXHAUSTED" m SrcResource.
Definition execution_failed (m : string) : ExecutionError :=
  ExecutionError_new "EXECUTION_FAILED" m SrcExecutor.
Definition validation_failed (m : string) : ExecutionError :=
  ExecutionError_new "VALIDATION_FAILED" m SrcValidation.
Definition ExecutionError_display (e : ExecutionError) : string :=
  "[" +:+ ee_code e +:+ "] " +:+ ee_message e.

(** ** Outputs *)

Record FileInfo := MkFileInfo {
  fi_path : string;
  fi_name : string;
  fi_is_dir : bool;
  fi_size : Z;
  fi_modified : option timestamp;
  fi_created : option timestamp;
  fi_mode : option Z;
  fi_mime_type : option string;
  fi_extra : gmap string Value
}.

Definition FileInfo_new (path name : string) : FileInfo :=
  MkFileInfo path name false 0 None None None None ∅.

Inductive BrowserResult :=
| BROpenSystem (url : string)
| BRNavigate (final_url : string) (title : option string)
| BRScreenshot (format data : string) (width height : Z)
| BRGetText (text : string)
| BREvaluate (value : Value)
| BROk
| BRError (message : string).

Inductive CommandOutput :=
| OText (content : string)
| OJson (content : Value)
| OBinary (mime_type : string) (size : Z) (storage_ref : string)
| OFileList (files : list FileInfo)
| ODatabase (columns : list string) (rows : list (list Value)) (total_rows : option Z)
| OApiResponse (status : Z) (headers : gmap string string) (body : option Value)
| OBrowser (result : BrowserResult)
| OSkill (skill_name : string) (output : Value)
| ONone.

Definition output_database (columns : list string) (rows : list (list Value)) : CommandOutput :=
  ODatabase columns rows (Some (zlen rows)).
Definition output_is_empty (o : CommandOutput) : bool :=
  match o with ONone => true | _ => false end.
Definition as_text (o : CommandOutput) : option string :=
  match o with OText content => Some content | _ => None end.
Definition as_json (o : CommandOutput) : option Value :=
  match o with OJson content => Some content | _ => None end.

(** ** Command results *)

Record CommandResult := MkCommandResult {
  cr_success : bool;
  cr_output : CommandOutput;
  cr_exit_code : option Z;
  cr_duration_ms : Z;
  cr_resources : ResourceUsage;
  cr_error : option ExecutionError;
  cr_warnings : list string;
  cr_metadata : gmap string Value
}.

Definition result_success (output : CommandOutput) : CommandResult :=
  MkCommandResult true output (Some 0%Z) 0 ResourceUsage_default None [] ∅.
Definition result_failure (error : ExecutionError) : CommandResult :=
  MkCommandResult false ONone (Some 1%Z) 0 ResourceUsage_default (Some error) [] ∅.
Definition with_duration (r : CommandResult) (ms : Z) : CommandResult :=
  MkCommandResult (cr_success r) (cr_output r) (cr_exit_code r) ms (cr_resources r)
    (cr_error r) (cr_warnings r) (cr_metadata r).
Definition with_resources (r : CommandResult) (u : ResourceUsage) : CommandResult :=
  MkCommandResult (cr_success r) (cr_output r) (cr_exit_code r) (cr_duration_ms r) u
    (cr_error r) (cr_warnings r) (cr_metadata r).
Definition with_warning (r : CommandResult) (w : string) : CommandResult :=
  MkCommandResult (cr_success r) (cr_output r) (cr_exit_code r) (cr_duration_ms r)
    (cr_resources r) (cr_error r) (cr_warnings r ++ [w]) (cr_metadata r).
Definition with_metadata (r : CommandResult) (k : string) (v : Value) : CommandResult :=
  MkCommandResult (cr_success r) (cr_output r) (cr_exit_code r) (cr_duration_ms r)
    (cr_resources r) (cr_error r) (cr_warnings r) (<[k := v]> (cr_metadata r)).
End JsonResults.

(** ** Progress and batches *)

Record ProgressUpdate := MkProgressUpdate {
  pu_progress : f32;
  pu_message : string;
  pu_current_step : option string;
  pu_total_steps : option Z;
  pu_current_step_index : option Z;
  pu_eta_seconds : option Z;
  pu_timestamp : timestamp
}.

Definition ProgressUpdate_new (progress : f32) (message : string) (now : timestamp) : ProgressUpdate :=
  MkProgressUpdate (f32_clamp progress f32_zero f32_one) message None None None None now.
Definition with_step (p : ProgressUpdate) (step : string) (index total : Z) : ProgressUpdate :=
  MkProgressUpdate (pu_progress p) (pu_message p) (Some step) (Some total) (Some index)
    (pu_eta_seconds p) (pu_timestamp p).
Definition with_eta (p : ProgressUpdate) (secs : Z) : ProgressUpdate :=
  MkProgressUpdate (pu_progress p) (pu_message p) (pu_current_step p) (pu_total_steps p)
    (pu_current_step_index p) (Some secs) (pu_timestamp p).

Record BatchItemResult := MkBatchItemResult {
  bi_item : string;
  bi_success : bool;
  bi_error : option string
}.

Record BatchResult := MkBatchResult {
  total : Z;
  succeeded : Z;
  failed : Z;
  skipped : Z;
  results : list BatchItemResult
}.

Definition BatchResult_new : BatchResult := MkBatchResult 0 0 0 0 [].
Definition add_success (b : BatchResult) (item : string) : BatchResult :=
  MkBatchResult (total b + 1) (succeeded b + 1) (failed b) (skipped b)
    (results b ++ [MkBatchItemResult item true None]).
Definition add_failure (b : BatchResult) (item error : string) : BatchResult :=
  MkBatchResult (total b + 1) (succeeded b) (failed b + 1) (skipped b)
    (results b ++ [MkBatchItemResult item false (Some error)]).
Definition add_skipped (b : BatchResult) (item reason : string) : BatchResult :=
  MkBatchResult (total b + 1) (succeeded b) (failed b) (skipped b + 1)
    (results b ++ [MkBatchItemResult item true (Some ("Skipped: " +:+ reason))]).
Definition success_rate (b : BatchResult) : f32 :=
  if decide (total b = 0)%Z then f32_zero
  else f32_div (f32_of_Z (succeeded b)) (f32_of_Z (total b)).

(** ** Batch counters *)

Inductive BatchOp := AddSuccess (item : string) | AddFailure (item error : string)
                   | AddSkipped (item reason : string).

Definition batch_step (b : BatchResult) (op : BatchOp) : BatchResult :=
  match op with
  | AddSuccess i => add_success b i
  | AddFailure i e => add_failure b i e
  | AddSkipped i r => add_skipped b i r
  end.

Definition batch_wf (b : BatchResult) : Prop :=
  total b = (succeeded b + failed b + skipped b)%Z ∧
  total b = zlen (results b) ∧
  failed b = zlen (List.filter (λ r, negb (bi_success r)) (results b)) ∧
  (0 ≤ succeeded b ∧ 0 ≤ failed b ∧ 0 ≤ skipped b)%Z.

Lemma batch_step_wf b op : batch_wf b → batch_wf (batch_step b op).
Proof.
  unfold batch_wf, zlen. intros (H1 & H2 & H3 & H4).
  destruct op; simpl; rewrite List.filter_app, !length_app; simpl; lia.
Qed.

(** However items are added, the batch counters agree with the items: the
    total is the sum of the three counters and the number of items, and the
    failure counter is the number of items recorded as failed. *)
Theorem batch_counters_agree ops :
  batch_wf (foldl batch_step BatchResult_new ops).
Proof.
  assert (batch_wf BatchResult_new) as Hwf by (unfold batch_wf, zlen; simpl; lia).
  revert Hwf. generalize BatchResult_new. induction ops as [|op ops IH]; intros b Hb; simpl.
  - done.
  - by apply IH, batch_step_wf.
Qed.
