(* ===== verification/ProtocolMessage.v ===== *)
(** The messages exchanged by Hub and Nodes
    ([crates/uhorse-protocol/src/message.rs]). *)
From Stdlib Require Import SpecFloat.
From S2P Require Import Prelude Float32 Json ProtocolTypes ProtocolCommand ProtocolResult.

Record MessageId := MkMessageId { message_id_str : string }.

Inductive NotificationEventKind := KTest | KInfo | KWarn | KError.

Record NotificationEvent := MkNotificationEvent {
  ne_event_id : string;
  ne_kind : NotificationEventKind;
  ne_title : string;
  ne_body : string;
  ne_details_included : bool;
  ne_timestamp : timestamp;
  ne_dedupe_key : option string
}.

Definition NotificationEvent_new (uuid : string) (now : timestamp)
    (kind : NotificationEventKind) (title body : string) (details_included : bool)
    : NotificationEvent :=
  MkNotificationEvent uuid kind title body details_included now None.

(** ** Permission rules on the wire *)

Inductive WireResourcePattern :=
| WExact (path : string) | WGlob (pattern : string) | WRegex (pattern : string)
| WPrefix (prefix : string).

Inductive WireAction := WRead | WWrite | WDelete | WExecute | WList | WAdmin.

Inductive WireCondition :=
| WTimeRange (start stop : string)
| WIpWhitelist (ips : list string)
| WUserRestriction (allowed_users : list string)
| WSizeLimit (max_bytes : Z).

Record WirePermissionRule := MkWirePermissionRule {
  wr_id : string;
  wr_name : string;
  wr_resource : WireResourcePattern;
  wr_actions : list WireAction;
  wr_conditions : list WireCondition;
  wr_require_approval : bool;
  wr_enabled : bool
}.

Inductive SkillStatus := SkillActive | SkillDisabled | SkillError (message : string).

Record InstalledSkill := MkInstalledSkill {
  is_name : string;
  is_version : string;
  is_installed_at : timestamp;
  is_status : SkillStatus
}.

Definition default_max_retries : Z := 3.

Section Messages.
Context `{JsonValue}.

Record NodeErrorMsg := MkNodeErrorMsg {
  nerr_code : string;
  nerr_message : string;
  nerr_details : option Value;
  nerr_retryable : bool;
  nerr_stack_trace : option string
}.

Definition NodeErrorMsg_new (code message : string) : NodeErrorMsg :=
  MkNodeErrorMsg code message None false None.
Definition NodeErrorMsg_display (e : NodeErrorMsg) : string :=
  "[" +:+ nerr_code e +:+ "] " +:+ nerr_message e.

(** ** Hub to Node *)

Inductive HubToNode :=
| TaskAssignment (message_id : MessageId) (task_id : TaskId) (command : Command)
    (priority : Priority) (deadline : option timestamp) (context : TaskContext)
    (retry_count max_retries : Z)
| TaskCancellation (message_id : MessageId) (task_id : TaskId) (reason : string)
| HeartbeatRequest (message_id : MessageId) (ts : timestamp)
| ConfigUpdate (message_id : MessageId) (config : Value)
| PermissionUpdate (message_id : MessageId) (rules : list WirePermissionRule)
| SkillDeploy (message_id : MessageId) (skill_name version skill_definition : string)
    (code : option (list Z))
| SkillRemove (message_id : MessageId) (skill_name : string)
| ApprovalResponse (message_id : MessageId) (request_id : string) (approved : bool)
    (responder : string) (reason : option string) (responded_at : timestamp)
| Disconnect (message_id : MessageId) (reason : string) (reconnectable : bool).

Definition HubToNode_message_id (m : HubToNode) : MessageId :=
  match m with
  | TaskAssignment mid _ _ _ _ _ _ _ => mid
  | TaskCancellation mid _ _ => mid
  | HeartbeatRequest mid _ => mid
  | ConfigUpdate mid _ => mid
  | PermissionUpdate mid _ => mid
  | SkillDeploy mid _ _ _ _ => mid
  | SkillRemove mid _ => mid
  | ApprovalResponse mid _ _ _ _ _ => mid
  | Disconnect mid _ _ => mid
  end.

Definition HubToNode_message_type (m : HubToNode) : string :=
  match m with
  | TaskAssignment _ _ _ _ _ _ _ _ => "task_assignment"
  | TaskCancellation _ _ _ => "task_cancellation"
  | HeartbeatRequest _ _ => "heartbeat_request"
  | ConfigUpdate _ _ => "config_update"
  | PermissionUpdate _ _ => "permission_update"
  | SkillDeploy _ _ _ _ _ => "skill_deploy"
  | SkillRemove _ _ => "skill_remove"
  | ApprovalResponse _ _ _ _ _ _ => "approval_response"
  | Disconnect _ _ _ => "disconnect"
  end.

(** ** Node to Hub *)

Inductive NodeToHub :=
| NRegister (message_id : MessageId) (node_id : NodeId) (name : string)
    (capabilities : NodeCapabilities) (workspace : WorkspaceInfo) (auth_token : string)
    (ts : timestamp)
| NHeartbeat (message_id : MessageId) (node_id : NodeId) (status : NodeStatus)
    (load : LoadInfo) (ts : timestamp)
| NTaskResult (message_id : MessageId) (task_id : TaskId) (result : CommandResult)
    (metrics : ExecutionMetrics)
| NTaskProgress (message_id : MessageId) (task_id : TaskId) (progress : f32)
    (message : string) (ts : timestamp)
| NError (message_id : MessageId) (task_id : option TaskId) (error : NodeErrorMsg)
    (ts : timestamp)
| NApprovalRequest (message_id : MessageId) (request_id : string) (task_id : TaskId)
    (command : Command) (context : TaskContext) (reason : string)
    (ts expires_at : timestamp)
| NUnregister (message_id : MessageId) (node_id : NodeId) (reason : string)
| NSkillReport (message_id : MessageId) (node_id : NodeId)
    (installed_skills : list InstalledSkill)
| NNotificationEvent (message_id : MessageId) (node_id : NodeId) (event : NotificationEvent).

Definition NodeToHub_message_id (m : NodeToHub) : MessageId :=
  match m with
  | NRegister mid _ _ _ _ _ _ => mid
  | NHeartbeat mid _ _ _ _ => mid
  | NTaskResult mid _ _ _ => mid
  | NTaskProgress mid _ _ _ _ => mid
  | NError mid _ _ _ => mid
  | NApprovalRequest mid _ _ _ _ _ _ _ => mid
  | NUnregister mid _ _ => mid
  | NSkillReport mid _ _ => mid
  | NNotificationEvent mid _ _ => mid
  end.

Definition NodeToHub_message_type (m : NodeToHub) : string :=
  match m with
  | NRegister _ _ _ _ _ _ _ => "register"
  | NHeartbeat _ _ _ _ _ => "heartbeat"
  | NTaskResult _ _ _ _ => "task_result"
  | NTaskProgress _ _ _ _ _ => "task_progress"
  | NError _ _ _ _ => "error"
  | NApprovalRequest _ _ _ _ _ _ _ _ => "approval_request"
  | NUnregister _ _ _ => "unregister"
  | NSkillReport _ _ _ => "skill_report"
  | NNotificationEvent _ _ _ => "notification_event"
  end.

Definition NodeToHub_node_id (m : NodeToHub) : option NodeId :=
  match m with
  | NRegister _ nid _ _ _ _ _ => Some nid
  | NHeartbeat _ nid _ _ _ => Some nid
  | NUnregister _ nid _ => Some nid
  | NSkillReport _ nid _ => Some nid
  | NNotificationEvent _ nid _ => Some nid
  | _ => None
  end.
End Messages.
