(* ===== verification/Paths.v ===== *)
(** Unix paths as [std::path] sees them (component lists), the file system the
    program queries, and the resolution of a path whose tail need not exist,
    which the Hub ([canonicalize_existing_aware] of node_manager.rs) and the Node
    ([normalize_existing_aware] of workspace.rs) both use. *)
From S2P Require Import Prelude.

(** ** Components *)

Inductive component := RootDir | CurDir | ParentDir | CNormal (name : string).

#[export] Instance component_eq_dec : EqDecision component.
Proof. solve_decision. Defined.

Abbreviation path := (list component).

Definition seg_components (s : string) : path :=
  if decide (s = "") then []
  else if decide (s = ".") then []
  else if decide (s = "..") then [ParentDir]
  else [CNormal s].

(** [Path::components]: repeated separators and inner [.] segments vanish, a
    leading [.] is kept, [..] is kept. *)
Definition path_of_string (s : string) : path :=
  match str_split "/" s with
  | [] => []
  | seg :: segs =>
      let rest := segs ≫= seg_components in
      if decide (seg = "") then (if decide (s = "") then [] else RootDir :: rest)
      else if decide (seg = ".") then CurDir :: rest
      else seg_components seg ++ rest
  end.

Definition component_string (c : component) : string :=
  match c with RootDir => "/" | CurDir => "." | ParentDir => ".." | CNormal s => s end.

Definition path_to_string (p : path) : string :=
  match p with
  | RootDir :: p' => "/" +:+ str_join "/" (component_string <$> p')
  | _ => str_join "/" (component_string <$> p)
  end.

Definition is_absolute (p : path) : bool :=
  match p with RootDir :: _ => true | _ => false end.

(** [Path::parent]. *)
Definition path_parent (p : path) : option path :=
  match reverse p with
  | [] => None
  | RootDir :: _ => None
  | _ :: q => Some (reverse q)
  end.

(** [PathBuf::pop]: nothing when there is no parent. *)
Definition path_pop (p : path) : path := default p (path_parent p).

(** [PathBuf::push] of a path: an absolute one replaces the buffer. *)
Definition path_push (p q : path) : path := if is_absolute q then q else p ++ q.

(** [Path::join] is [push] on a copy. *)
Definition path_join : path → path → path := path_push.

Definition path_starts_with (p base : path) : bool := bool_decide (base `prefix_of` p).

(** [Path::strip_prefix]. *)
Fixpoint path_strip_prefix (base p : path) : option path :=
  match base, p with
  | [], _ => Some p
  | b :: base', c :: p' => if decide (b = c) then path_strip_prefix base' p' else None
  | _ :: _, [] => None
  end.

(** ** The file system *)

(** A snapshot of the file system, as the calls of one operation see it. *)
Class FileSystem := {
  fs_exists : path → bool;
  fs_is_dir : path → bool;
  (** [Path::canonicalize]: the absolute path with every link resolved. *)
  fs_canonicalize : path → option path
}.

Section Resolve.
Context `{FileSystem}.

(** The loop that walks up to the closest existing ancestor: it ends because each
    turn drops a component; the fuel is the number of components plus one. *)
Fixpoint existing_ancestor (fuel : nat) (cur : option path) : option path :=
  match fuel, cur with
  | _, None => None
  | O, Some _ => None
  | S fuel', Some candidate =>
      if fs_exists candidate then Some candidate
      else existing_ancestor fuel' (path_parent candidate)
  end.

Definition closest_existing (p : path) : option path :=
  existing_ancestor (S (length p)) (Some p).

(** Replay of the components below the ancestor. *)
Definition replay_component (acc : path) (c : component) : path :=
  match c with
  | CurDir => acc
  | CNormal part => acc ++ [CNormal part]
  | ParentDir => path_pop acc
  | RootDir => acc
  end.

Definition replay (acc rest : path) : path := foldl replay_component acc rest.

Definition canonicalize_existing_aware (p : path) : option path :=
  ancestor ← closest_existing p;
  normalized ← fs_canonicalize ancestor;
  remainder ← path_strip_prefix ancestor p;
  Some (replay normalized remainder).
End Resolve.

(** ** Lemmas *)

Lemma path_strip_prefix_app base rest : path_strip_prefix base (base ++ rest) = Some rest.
Proof. induction base as [|b base IH]; simpl; [done|]. by rewrite decide_True by done. Qed.

Lemma path_strip_prefix_Some base p rest :
  path_strip_prefix base p = Some rest ↔ p = base ++ rest.
Proof.
  split; [|intros ->; apply path_strip_prefix_app].
  revert p. induction base as [|b base IH]; intros [|c p]; simpl; intros E; simplify_eq; try done.
  case_decide; simplify_eq. f_equal. by apply IH.
Qed.

Lemma path_parent_Some p q :
  path_parent p = Some q → ∃ c, c ≠ RootDir ∧ p = q ++ [c].
Proof.
  unfold path_parent. destruct (reverse p) as [|c r] eqn:E; [done|].
  assert (p = reverse r ++ [c]) as ->.
  { rewrite <-(reverse_involutive p), E. by rewrite reverse_cons. }
  destruct c; intros ?; simplify_eq; (eexists; split; [|reflexivity]; done).
Qed.

Lemma path_parent_app p c :
  c ≠ RootDir → path_parent (p ++ [c]) = Some p.
Proof.
  intros Hc. unfold path_parent. rewrite reverse_snoc, reverse_involutive. by destruct c.
Qed.

Lemma path_starts_with_spec p base :
  path_starts_with p base = true ↔ ∃ rest, p = base ++ rest.
Proof. unfold path_starts_with. by rewrite bool_decide_eq_true. Qed.

Section ResolveFacts.
Context `{FileSystem}.

(** The ancestor found exists, is a prefix of the path, and every longer prefix
    is missing. *)
Lemma existing_ancestor_spec fuel p a :
  existing_ancestor fuel (Some p) = Some a →
  fs_exists a = true ∧ ∃ rest, p = a ++ rest ∧
  ∀ mid c, (mid ++ [c]) `prefix_of` rest → fs_exists (a ++ mid ++ [c]) = false.
Proof.
  revert p. induction fuel as [|fuel IH]; intros p; simpl; [done|].
  destruct (fs_exists p) eqn:Ex.
  - intros ?; simplify_eq. split; [done|]. exists []. split; [by rewrite app_nil_r|].
    intros mid c Hpre. apply prefix_nil_inv in Hpre. by destruct mid.
  - destruct (path_parent p) as [q|] eqn:Ep; [|by destruct fuel].
    apply path_parent_Some in Ep as (c & Hc & ->). intros Ha.
    apply IH in Ha as (Hex & rest & -> & Hmiss). split; [done|].
    exists (rest ++ [c]). split; [by rewrite app_assoc|].
    intros mid c' [suf E]. destruct (decide (suf = [])) as [->|Hs].
    + rewrite app_nil_r in E. apply app_inj_tail in E as [-> ->].
      by rewrite app_assoc.
    + destruct suf as [|x suf _] using rev_ind; [done|]. clear Hs.
      rewrite app_assoc in E. apply app_inj_tail in E as [-> _].
      apply Hmiss. by exists suf.
Qed.

(** The fuel is enough: with it, [None] means that no ancestor exists at all. *)
Lemma existing_ancestor_None fuel p a rest :
  length p < fuel → existing_ancestor fuel (Some p) = None →
  p = a ++ rest → RootDir ∉ rest → fs_exists a = false.
Proof.
  revert p rest. induction fuel as [|fuel IH]; intros p rest Hlen Hn Hp Hr; [lia|]. simpl in Hn.
  destruct (fs_exists p) eqn:Ex; [done|].
  destruct rest as [|c rest _] using rev_ind; [by rewrite app_nil_r in Hp; subst|].
  rewrite app_assoc in Hp. subst p. rewrite path_parent_app in Hn by set_solver.
  eapply (IH (a ++ rest) rest); [|done|done|set_solver]. rewrite length_app in Hlen. simpl in Hlen. lia.
Qed.

Lemma existing_ancestor_missing fuel p rest :
  length rest < fuel → RootDir ∉ rest → fs_exists p = true →
  (∀ mid c suf, rest = mid ++ c :: suf → fs_exists (p ++ mid ++ [c]) = false) →
  existing_ancestor fuel (Some (p ++ rest)) = Some p.
Proof.
  revert rest. induction fuel as [|fuel IH]; intros rest Hlen Hr Hex Hm; [lia|].
  destruct rest as [|c rest _] using rev_ind.
  - rewrite app_nil_r. simpl. by rewrite Hex.
  - rewrite length_app in Hlen. simpl in Hlen. cbn [existing_ancestor].
    rewrite (Hm rest c []) by done. rewrite app_assoc, path_parent_app by set_solver.
    apply IH; [lia|set_solver|done|]. intros mid c' suf ->.
    apply (Hm mid c' (suf ++ [c])). by rewrite <-app_assoc.
Qed.

(** The closest existing ancestor of [a ++ rest] when nothing below [a] exists. *)
Lemma closest_existing_missing a rest :
  RootDir ∉ rest → fs_exists a = true →
  (∀ mid c suf, rest = mid ++ c :: suf → fs_exists (a ++ mid ++ [c]) = false) →
  closest_existing (a ++ rest) = Some a.
Proof.
  intros. apply existing_ancestor_missing; [|done..]. rewrite length_app. lia.
Qed.

Lemma replay_normals acc names :
  replay acc (CNormal <$> names) = acc ++ (CNormal <$> names).
Proof.
  unfold replay. revert acc. induction names as [|n names IH]; intros acc; simpl.
  - by rewrite app_nil_r.
  - rewrite IH. by rewrite <-app_assoc.
Qed.

(** A path that exists is resolved to its canonical form. *)
Lemma canonicalize_existing p :
  fs_exists p = true → canonicalize_existing_aware p = fs_canonicalize p.
Proof.
  intros Hex. unfold canonicalize_existing_aware, closest_existing. simpl. rewrite Hex. simpl.
  destruct (fs_canonicalize p) as [q|]; simpl; [|done].
  rewrite <-(app_nil_r p) at 2. by rewrite path_strip_prefix_app.
Qed.

Lemma canonicalize_existing_aware_inv p r :
  canonicalize_existing_aware p = Some r →
  ∃ a c rest, closest_existing p = Some a ∧ fs_exists a = true ∧ p = a ++ rest ∧
    fs_canonicalize a = Some c ∧ r = replay c rest.
Proof.
  unfold canonicalize_existing_aware.
  destruct (closest_existing p) as [a|] eqn:Ea; simpl; [|done].
  destruct (fs_canonicalize a) as [c|] eqn:Ec; simpl; [|done].
  destruct (path_strip_prefix a p) as [rest|] eqn:Es; simpl; [|done].
  intros ?; simplify_eq. apply path_strip_prefix_Some in Es.
  pose proof (existing_ancestor_spec _ _ _ Ea) as [? _]. by exists a, c, rest.
Qed.

(** *** Canonical paths *)

(** An absolute path without [.] and [..]. *)
Definition clean_path (p : path) : Prop := ∃ names, p = RootDir :: (CNormal <$> names).

Lemma replay_clean acc rest : clean_path acc → clean_path (replay acc rest).
Proof.
  revert acc. induction rest as [|c rest IH]; intros acc Hacc; [done|].
  apply IH. destruct Hacc as [names ->]. destruct c; simpl; try by exists names.
  - unfold path_pop, path_parent. destruct names as [|n names _] using rev_ind; [by exists []|].
    rewrite fmap_app. change (CNormal <$> [n]) with [CNormal n].
    rewrite app_comm_cons, reverse_snoc. exists names. simpl. by rewrite reverse_involutive.
  - exists (names ++ [name]). rewrite fmap_app. done.
Qed.

(** What the program relies on in the file system: canonical paths are clean and
    canonicalise to themselves, a directory and its canonical form have the same
    entries, and nothing exists below a missing path. *)
Class FileSystemLaws := {
  canon_clean : ∀ p c, fs_canonicalize p = Some c → clean_path c;
  canon_idempotent : ∀ p c, fs_canonicalize p = Some c → fs_canonicalize c = Some c ∧ fs_exists c = true;
  canon_entries : ∀ p c n, fs_canonicalize p = Some c →
    fs_exists (p ++ [CNormal n]) = fs_exists (c ++ [CNormal n]);
  exists_prefix : ∀ p q, p ≠ [] → fs_exists (p ++ q) = true → fs_exists p = true;
  exists_empty : fs_exists [] = false
}.

Context `{!FileSystemLaws}.

Lemma canonicalize_existing_clean p r : canonicalize_existing_aware p = Some r → clean_path r.
Proof.
  intros (a & c & rest & _ & _ & _ & Hc & ->)%canonicalize_existing_aware_inv.
  apply replay_clean. by eapply canon_clean.
Qed.

(** Resolving a clean path once is enough: the result resolves to itself, so no
    link is left in it. *)
Lemma canonicalize_clean_stable p r :
  clean_path p → canonicalize_existing_aware p = Some r → canonicalize_existing_aware r = Some r.
Proof.
  intros [names Hp] (a & c & rest & Ha & Hex & Hsplit & Hc & ->)%canonicalize_existing_aware_inv.
  pose proof (existing_ancestor_spec _ _ _ Ha) as (_ & rest' & Hsplit' & Hmiss).
  rewrite Hsplit in Hsplit'. apply app_inv_head in Hsplit' as <-.
  destruct (canon_idempotent a c Hc) as [Hcc Hcex].
  assert (∃ ns, rest = CNormal <$> ns) as [ns ->].
  { destruct a as [|x a]; [by rewrite exists_empty in Hex|].
    rewrite Hp in Hsplit. injection Hsplit as _ Hsplit.
    apply fmap_app_inv in Hsplit as (l1 & l2 & _ & -> & _). by exists l2. }
  rewrite replay_normals.
  assert (closest_existing (c ++ (CNormal <$> ns)) = Some c) as Hclose.
  { apply closest_existing_missing; [|done|].
    - intros (? & ? & _)%list_elem_of_fmap. done.
    - intros mid x suf E. destruct ns as [|n ns]; [by destruct mid|].
      assert (fs_exists (c ++ [CNormal n]) = false) as Hn.
      { rewrite <-(canon_entries a c n Hc). apply (Hmiss []). simpl. by exists (CNormal <$> ns). }
      apply not_true_is_false. intros Ht.
      assert (∃ suf', c ++ mid ++ [x] = (c ++ [CNormal n]) ++ suf') as [suf' E'].
      { destruct mid as [|y mid]; simpl in E; injection E as <- _.
        - exists []. by rewrite app_nil_r.
        - exists (mid ++ [x]). by rewrite <-app_assoc. }
      rewrite E' in Ht. apply exists_prefix in Ht; [congruence|]. by destruct c. }
  unfold canonicalize_existing_aware. rewrite Hclose. simpl. rewrite Hcc. simpl.
  rewrite path_strip_prefix_app. simpl. by rewrite replay_normals.
Qed.
End ResolveFacts.

#[export] Hint Rewrite path_strip_prefix_app : uhorse.

(** ** A small executable file system with symbolic links *)

Inductive fs_entry := EDir | EFile | ELink (target : list string).

Section TreeFs.
Context (tree : list (list string * fs_entry)).

Definition tree_lookup (names : list string) : option fs_entry :=
  match list_find (λ e : list string * fs_entry, e.1 = names) tree with
  | Some (_, (_, e)) => Some e
  | None => None
  end.

(** Resolution of an absolute path, link by link; the fuel bounds the number of
    steps as [ELOOP] does. *)
Fixpoint tree_resolve (fuel : nat) (cur : list string) (todo : path) : option (list string) :=
  match fuel, todo with
  | _, [] => Some cur
  | O, _ => None
  | S fuel', c :: rest =>
      match c with
      | RootDir => tree_resolve fuel' [] rest
      | CurDir => tree_resolve fuel' cur rest
      | ParentDir => tree_resolve fuel' (removelast cur) rest
      | CNormal n =>
          match tree_lookup (cur ++ [n]) with
          | None => None
          | Some EDir => tree_resolve fuel' (cur ++ [n]) rest
          | Some EFile => match rest with [] => Some (cur ++ [n]) | _ => None end
          | Some (ELink target) => tree_resolve fuel' [] ((CNormal <$> target) ++ rest)
          end
      end
  end.

(** Where a path is opened for creation: like the resolution, but the last component
    need not be there. *)
Fixpoint tree_open (fuel : nat) (cur : list string) (todo : path) : option (list string) :=
  match fuel, todo with
  | _, [] => Some cur
  | O, _ => None
  | S fuel', c :: rest =>
      match c with
      | RootDir => tree_open fuel' [] rest
      | CurDir => tree_open fuel' cur rest
      | ParentDir => tree_open fuel' (removelast cur) rest
      | CNormal n =>
          match tree_lookup (cur ++ [n]), rest with
          | Some EDir, _ => tree_open fuel' (cur ++ [n]) rest
          | Some (ELink target), _ => tree_open fuel' [] ((CNormal <$> target) ++ rest)
          | _, [] => Some (cur ++ [n])
          | _, _ => None
          end
      end
  end.

Definition tree_fs : FileSystem :=
  {| fs_exists p := is_absolute p && bool_decide (is_Some (tree_resolve 64 [] p));
     fs_is_dir p :=
       match tree_resolve 64 [] p with
       | Some names => match tree_lookup names with Some EDir => true | _ => bool_decide (names = []) end
       | None => false
       end;
     fs_canonicalize p :=
       if is_absolute p then (λ names, RootDir :: (CNormal <$> names)) <$> tree_resolve 64 [] p
       else None |}.
End TreeFs.
