(* ===== verification/Channel.v ===== *)
(** Message channels.  The senders the Hub stores are handles on tokio mpsc
    channels shared by every clone, so a handle is an index into a store of
    channels; a channel records whether its receiver is alive and what was sent.
    A bounded channel delays its sender when full; the model shows the send when
    it completes, so capacities do not appear. *)
From S2P Require Import Prelude ProtocolTypes.

Abbreviation chan_id := nat.

Record chan (M : Type) := MkChan { ch_open : bool; ch_msgs : list M }.
Arguments MkChan {M}.
Arguments ch_open {M}.
Arguments ch_msgs {M}.

Abbreviation chan_store M := (gmap chan_id (chan M)).

(** [Sender::send]: [None] is the [SendError] of a channel whose receiver is gone. *)
Definition chan_send {M} (s : chan_store M) (c : chan_id) (m : M) : option (chan_store M) :=
  match s !! c with
  | Some ch => if ch_open ch then Some (<[c := MkChan true (ch_msgs ch ++ [m])]> s) else None
  | None => None
  end.

(** The text tokio gives a [SendError]. *)
Class SendErrorText := send_error_display : string.

Section ChannelFacts.
Context {M : Type}.
Implicit Types s : chan_store M.

Lemma chan_send_Some s c m s' :
  chan_send s c m = Some s' ↔
  ∃ msgs, s !! c = Some (MkChan true msgs) ∧ s' = <[c := MkChan true (msgs ++ [m])]> s.
Proof.
  unfold chan_send. destruct (s !! c) as [[[] msgs]|]; naive_solver.
Qed.

Lemma chan_send_lookup s c m s' c' :
  chan_send s c m = Some s' →
  s' !! c' = if decide (c = c') then (λ ch, MkChan true (ch_msgs ch ++ [m])) <$> s !! c'
             else s !! c'.
Proof.
  intros (msgs & Hc & ->)%chan_send_Some. rewrite lookup_insert. case_decide; [|done].
  subst. by rewrite Hc.
Qed.
End ChannelFacts.

(** ** The errors of the Hub ([crates/uhorse-hub/src/error.rs]) *)

Inductive HubError :=
| NodeNotFound (id : NodeId)
| NodeLimitReached
| ENode (m : string)
| ETask (m : string)
| ESchedule (m : string)
| ECommunication (m : string)
| ETimeout (m : string)
| EPermission (m : string)
| EConfig (m : string)
| ESerialization (m : string)
| EIo (m : string)
| EInternal (m : string)
| ENotImplemented (m : string).

Abbreviation HubResult T := (Result T HubError).
