(* ===== verification/NodeManager.v ===== *)
(** The registry of connected nodes ([crates/uhorse-hub/src/node_manager.rs]):
    registration, the index from execution workspaces to nodes, heartbeats,
    node selection and timeouts.  Each method is atomic (it holds the write locks
    it needs from start to end). *)
From Stdlib Require Import SpecFloat.
From S2P Require Import Prelude Float32 Json ProtocolTypes ProtocolCommand ProtocolResult.
From S2P Require Import ProtocolMessage Channel Paths.

(** ** State *)

Inductive NodeState := Online | Offline | Busy | Maintenance.
#[export] Instance NodeState_eq_dec : EqDecision NodeState.
Proof. solve_decision. Defined.

Record NodeInfo := MkNodeInfo {
  ni_node_id : NodeId;
  ni_name : string;
  ni_state : NodeState;
  ni_capabilities : NodeCapabilities;
  ni_workspace : WorkspaceInfo;
  ni_tags : list string;
  ni_last_heartbeat : timestamp;
  ni_load : LoadInfo;
  ni_registered_at : timestamp;
  ni_current_tasks : Z;
  ni_completed_tasks : Z;
  ni_failed_tasks : Z
}.

Record NodeManagerStats := MkNodeManagerStats {
  total_nodes : Z;
  online_nodes : Z;
  offline_nodes : Z;
  busy_nodes : Z
}.

Record NodeManager := MkNodeManager {
  nodes : gmap NodeId NodeInfo;
  workspace_index : gmap string NodeId;
  heartbeat_timeout_secs : Z;
  max_nodes : Z
}.

Definition NodeManager_new (max_nodes heartbeat_timeout_secs : Z) : NodeManager :=
  MkNodeManager ∅ ∅ heartbeat_timeout_secs max_nodes.

(** ** Workspace hints and identifiers *)

Section Hints.
Context `{FileSystem}.

(** The purely lexical fallback of [normalize_workspace_hint_path]. *)
Definition push_hint_component (acc : path) (c : component) : path :=
  match c with
  | CurDir => acc
  | CNormal part => path_push acc [CNormal part]
  | RootDir => path_push acc [RootDir]
  | ParentDir => path_push acc [ParentDir]
  end.

Definition lexical_hint_path (candidate : path) : path :=
  let normalized := foldl push_hint_component [] candidate in
  if decide (normalized = []) then [CurDir] else normalized.

Definition normalize_workspace_hint_path (p : string) : path :=
  let candidate := path_of_string p in
  if is_absolute candidate then
    match canonicalize_existing_aware candidate with
    | Some normalized => normalized
    | None => lexical_hint_path candidate
    end
  else lexical_hint_path candidate.

Definition workspace_matches_hint (workspace_path hint : string) : bool :=
  let workspace := normalize_workspace_hint_path workspace_path in
  let hint := normalize_workspace_hint_path hint in
  bool_decide (workspace = hint) || path_starts_with workspace hint.
End Hints.

Definition derive_workspace_id (id : NodeId) (workspace_name : string) : string :=
  "exec:" +:+ node_id_str id +:+ ":" +:+ workspace_name.

(** [workspace.workspace_id = Some(w)]. *)
Definition set_workspace_id (w : WorkspaceInfo) (id : string) : WorkspaceInfo :=
  MkWorkspaceInfo (Some id) (ws_name w) (ws_path w) (ws_read_only w)
    (ws_allowed_patterns w) (ws_denied_patterns w).

(** ** Operations *)

Definition register_node (m : NodeManager) (now : timestamp) (id : NodeId) (name : string)
    (caps : NodeCapabilities) (workspace : WorkspaceInfo) (tags : list string)
    : HubResult NodeManager :=
  if bool_decide (max_nodes m ≤ Z.of_nat (size (nodes m)))%Z
     && bool_decide (nodes m !! id = None)
  then Err NodeLimitReached
  else
    let workspace :=
      match ws_workspace_id workspace with
      | None => set_workspace_id workspace (derive_workspace_id id (ws_name workspace))
      | Some _ => workspace
      end in
    let index1 :=
      match nodes m !! id with
      | Some previous =>
          match ws_workspace_id (ni_workspace previous) with
          | Some previous_workspace_id => delete previous_workspace_id (workspace_index m)
          | None => workspace_index m
          end
      | None => workspace_index m
      end in
    let info := MkNodeInfo id name Online caps workspace tags now LoadInfo_default now 0 0 0 in
    let index2 :=
      match ws_workspace_id (ni_workspace info) with
      | Some workspace_id => <[workspace_id := id]> index1
      | None => index1
      end in
    Ok (MkNodeManager (<[id := info]> (nodes m)) index2 (heartbeat_timeout_secs m) (max_nodes m)).

Definition unregister_node (m : NodeManager) (id : NodeId) : HubResult NodeManager :=
  match nodes m !! id with
  | Some node =>
      let index :=
        match ws_workspace_id (ni_workspace node) with
        | Some workspace_id => delete workspace_id (workspace_index m)
        | None => workspace_index m
        end in
      Ok (MkNodeManager (delete id (nodes m)) index (heartbeat_timeout_secs m) (max_nodes m))
  | None => Err (NodeNotFound id)
  end.

Definition heartbeat_info (now : timestamp) (status : NodeStatus) (load : LoadInfo)
    (info : NodeInfo) : NodeInfo :=
  MkNodeInfo (ni_node_id info) (ni_name info)
    (if bool_decide (max_concurrent_tasks (ni_capabilities info) ≤ st_current_tasks status)%Z
     then Busy else Online)
    (ni_capabilities info) (ni_workspace info) (ni_tags info) now load
    (ni_registered_at info) (st_current_tasks status)
    (ni_completed_tasks info) (ni_failed_tasks info).

Definition set_nodes (m : NodeManager) (ns : gmap NodeId NodeInfo) : NodeManager :=
  MkNodeManager ns (workspace_index m) (heartbeat_timeout_secs m) (max_nodes m).

Definition update_heartbeat (m : NodeManager) (now : timestamp) (id : NodeId)
    (status : NodeStatus) (load : LoadInfo) : HubResult NodeManager :=
  match nodes m !! id with
  | Some info => Ok (set_nodes m (<[id := heartbeat_info now status load info]> (nodes m)))
  | None => Err (NodeNotFound id)
  end.

Definition get_node (m : NodeManager) (id : NodeId) : option NodeInfo := nodes m !! id.

Definition get_node_by_workspace_id (m : NodeManager) (w : string) : option NodeInfo :=
  id ← workspace_index m !! w; get_node m id.

Definition is_stale (m : NodeManager) (now : timestamp) (info : NodeInfo) : bool :=
  bool_decide (seconds (as_i64 (heartbeat_timeout_secs m)) < now - ni_last_heartbeat info)%Z.

Definition set_offline (info : NodeInfo) : NodeInfo :=
  MkNodeInfo (ni_node_id info) (ni_name info) Offline (ni_capabilities info)
    (ni_workspace info) (ni_tags info) (ni_last_heartbeat info) (ni_load info)
    (ni_registered_at info) (ni_current_tasks info) (ni_completed_tasks info)
    (ni_failed_tasks info).

(** [a.load.score().partial_cmp(&b.load.score()).unwrap_or(Equal)]. *)
Definition load_leb (a b : NodeInfo) : bool :=
  f32_cmp_leb (score (ni_load a)) (score (ni_load b)).

Section HashedOps.
Context `{HashOrder}.

Definition get_online_nodes (m : NodeManager) : list NodeInfo :=
  List.filter (λ n, bool_decide (ni_state n = Online)) (hash_values (nodes m)).

Definition get_all_nodes (m : NodeManager) : list NodeInfo := hash_values (nodes m).

Definition NodeManager_check_timeouts (m : NodeManager) (now : timestamp)
    : NodeManager * list NodeId :=
  (set_nodes m ((λ info, if is_stale m now info then set_offline info else info) <$> nodes m),
   (List.filter (λ kv : NodeId * NodeInfo, is_stale m now kv.2) (hash_order (nodes m))).*1).

Definition count_state (s : NodeState) (m : NodeManager) : Z :=
  zlen (List.filter (λ n, bool_decide (ni_state n = s)) (hash_values (nodes m))).

Definition NodeManager_get_stats (m : NodeManager) : NodeManagerStats :=
  MkNodeManagerStats (Z.of_nat (size (nodes m))) (count_state Online m)
    (count_state Offline m) (count_state Busy m).

Context `{FileSystem}.

Definition select_eligible (required : option NodeCapabilities) (tags : list string)
    (workspace_hint : option string) (n : NodeInfo) : bool :=
  if negb (bool_decide (ni_state n = Online)) then false
  else if negb (match required with Some r => meets (ni_capabilities n) r | None => true end)
  then false
  else if negb (bool_decide (tags = []))
          && negb (existsb (λ t, bool_decide (t ∈ ni_tags n)) tags)
  then false
  else match workspace_hint with
       | Some hint => workspace_matches_hint (ws_path (ni_workspace n)) hint
       | None => true
       end.

Definition select_node (m : NodeManager) (required : option NodeCapabilities)
    (tags : list string) (workspace_hint : option string) : option NodeInfo :=
  head (sort_by load_leb
    (List.filter (select_eligible required tags workspace_hint) (hash_values (nodes m)))).
End HashedOps.

Section Sending.
Context `{JsonValue, SendErrorText}.

(** [NodeManager::send_to_node]; the channel store is the one shared by every handle. *)
Definition send_to_node (chans : chan_store HubToNode) (id : NodeId) (message : HubToNode)
    (sender : chan_id) : HubResult (chan_store HubToNode) :=
  match chan_send chans sender message with
  | Some chans' => Ok chans'
  | None =>
      Err (ECommunication ("Failed to send message to " +:+ node_id_str id +:+ ": "
                           +:+ send_error_display))
  end.
End Sending.

(** ** The registry as a transition system *)

Inductive NmOp :=
| OpRegister (now : timestamp) (id : NodeId) (name : string) (caps : NodeCapabilities)
    (workspace : WorkspaceInfo) (tags : list string)
| OpUnregister (id : NodeId)
| OpHeartbeat (now : timestamp) (id : NodeId) (status : NodeStatus) (load : LoadInfo)
| OpCheckTimeouts (now : timestamp).

(** An operation that returns an error leaves the registry as it was. *)
Definition nm_apply `{HashOrder} (m : NodeManager) (op : NmOp) : NodeManager :=
  match op with
  | OpRegister now id name caps ws tags => unwrap_or (register_node m now id name caps ws tags) m
  | OpUnregister id => unwrap_or (unregister_node m id) m
  | OpHeartbeat now id status load => unwrap_or (update_heartbeat m now id status load) m
  | OpCheckTimeouts now => (NodeManager_check_timeouts m now).1
  end.

Definition nm_run `{HashOrder} : NodeManager → list NmOp → NodeManager := foldl nm_apply.

(** ** Invariant *)

(** Nodes are filed under their own identifier and have a workspace identifier;
    every index entry leads to a registered node that owns the workspace; the
    number of nodes respects the limit. *)
Record nm_wf (m : NodeManager) : Prop := {
  wf_node_key : ∀ id info, nodes m !! id = Some info → ni_node_id info = id;
  wf_node_ws : ∀ id info, nodes m !! id = Some info →
    is_Some (ws_workspace_id (ni_workspace info));
  wf_index : ∀ w id, workspace_index m !! w = Some id →
    ∃ info, nodes m !! id = Some info ∧ ws_workspace_id (ni_workspace info) = Some w;
  wf_limit : (Z.of_nat (size (nodes m)) ≤ Z.max 0 (max_nodes m))%Z
}.

(** The workspace identifier [register_node] stores. *)
Definition effective_workspace_id (id : NodeId) (w : WorkspaceInfo) : string :=
  default (derive_workspace_id id (ws_name w)) (ws_workspace_id w).

(** What a successful registration does, in terms of lookups. *)
Lemma register_node_ok m now id name caps ws tags m' :
  register_node m now id name caps ws tags = Ok m' →
  ((Z.of_nat (size (nodes m)) < max_nodes m)%Z ∨ is_Some (nodes m !! id)) ∧
  heartbeat_timeout_secs m' = heartbeat_timeout_secs m ∧ max_nodes m' = max_nodes m ∧
  (∃ info, nodes m' = <[id := info]> (nodes m) ∧ ni_node_id info = id ∧ ni_state info = Online ∧
     ni_capabilities info = caps ∧ ni_tags info = tags ∧ ni_last_heartbeat info = now ∧
     ws_path (ni_workspace info) = ws_path ws ∧
     ws_workspace_id (ni_workspace info) = Some (effective_workspace_id id ws)) ∧
  workspace_index m' =
    <[effective_workspace_id id ws := id]>
      (match nodes m !! id ≫= λ p, ws_workspace_id (ni_workspace p) with
       | Some w => delete w (workspace_index m) | None => workspace_index m end).
Proof.
  unfold register_node, effective_workspace_id.
  destruct (bool_decide _ && bool_decide _) eqn:E; [done|]. intros [= <-]. simpl.
  split.
  { apply andb_false_iff in E as [E|E]; apply bool_decide_eq_false in E; [left; lia|right].
    by apply not_eq_None_Some. }
  split; [done|]. split; [done|]. split.
  - eexists. split; [reflexivity|]. simpl. by destruct (ws_workspace_id ws) eqn:Ew.
  - destruct (ws_workspace_id ws) eqn:Ew; simpl; rewrite ?Ew;
      destruct (nodes m !! id) as [p|]; simpl; by destruct (ws_workspace_id (ni_workspace p)) || done.
Qed.

Lemma register_node_wf m now id name caps ws tags m' :
  nm_wf m → register_node m now id name caps ws tags = Ok m' → nm_wf m'.
Proof.
  intros [Hk Hw Hi Hl] (Hlim & _ & Emax & (info & En & Eid & _ & _ & _ & _ & _ & Ews) & Eix)%register_node_ok.
  split.
  - intros id' info'. rewrite En, lookup_insert. case_decide; naive_solver.
  - intros id' info'. rewrite En, lookup_insert. case_decide; [|naive_solver].
    intros [= <-]. rewrite Ews. eauto.
  - intros w id'. rewrite Eix, En, lookup_insert. case_decide as Ew.
    + intros [= <-]. exists info. by rewrite lookup_insert_eq, Ews, Ew.
    + intros Hold. assert (workspace_index m !! w = Some id') as Hold'.
      { revert Hold. case_match; [|done]. by rewrite lookup_delete_Some; intros []. }
      destruct (Hi _ _ Hold') as (info' & Hn & Hws').
      rewrite lookup_insert. case_decide as Eid'; [|eauto]. subst id'.
      rewrite Hn in Hold. simpl in Hold. rewrite Hws', lookup_delete_eq in Hold. done.
  - rewrite En, Emax. destruct (nodes m !! id) as [p|] eqn:Ep.
    + rewrite map_size_insert_Some by eauto. done.
    + rewrite map_size_insert_None by done. destruct Hlim as [?|[? ?]]; [lia|done].
Qed.

Lemma unregister_node_wf m id m' :
  nm_wf m → unregister_node m id = Ok m' → nm_wf m'.
Proof.
  intros [Hk Hw Hi Hl]. unfold unregister_node.
  destruct (nodes m !! id) as [node|] eqn:En; [|done]. intros [= <-]. split; simpl.
  - intros ?? (_ & ?)%lookup_delete_Some. eauto.
  - intros ?? (_ & ?)%lookup_delete_Some. eauto.
  - destruct (Hw _ _ En) as [w Ew]. rewrite Ew.
    intros w' id' (Hne & Hix)%lookup_delete_Some.
    destruct (Hi _ _ Hix) as (info & Hn & Hws). exists info. split; [|done].
    apply lookup_delete_Some. split; [|done]. intros ->. naive_solver.
  - rewrite map_size_delete_Some by eauto. lia.
Qed.

(** Replacing entries by ones with the same key and workspace keeps the invariant. *)
Lemma set_nodes_wf m ns :
  nm_wf m →
  (∀ id, (λ i, (ni_node_id i, ni_workspace i)) <$> ns !! id
         = (λ i, (ni_node_id i, ni_workspace i)) <$> nodes m !! id) →
  size ns = size (nodes m) →
  nm_wf (set_nodes m ns).
Proof.
  intros [Hk Hw Hi Hl] Heq Hs. split; simpl.
  - intros id info E. specialize (Heq id). rewrite E in Heq. simpl in Heq.
    destruct (nodes m !! id) eqn:En; simplify_eq/=. rewrite H. eauto.
  - intros id info E. specialize (Heq id). rewrite E in Heq. simpl in Heq.
    destruct (nodes m !! id) eqn:En; simplify_eq/=. rewrite H0. eauto.
  - intros w id E. destruct (Hi _ _ E) as (info & En & Ews). specialize (Heq id).
    rewrite En in Heq. destruct (ns !! id) as [info'|]; simplify_eq/=.
    exists info'. split; [done|]. by rewrite H0.
  - by rewrite Hs.
Qed.

Lemma update_heartbeat_wf m now id status load m' :
  nm_wf m → update_heartbeat m now id status load = Ok m' → nm_wf m'.
Proof.
  intros Hwf. unfold update_heartbeat. destruct (nodes m !! id) as [info|] eqn:E; [|done].
  intros [= <-]. apply set_nodes_wf; [done| |by rewrite map_size_insert_Some by eauto].
  intros id'. rewrite lookup_insert. case_decide; [|done]. subst. by rewrite E.
Qed.

Lemma NodeManager_check_timeouts_wf `{HashOrder} m now :
  nm_wf m → nm_wf (NodeManager_check_timeouts m now).1.
Proof.
  intros Hwf. apply set_nodes_wf; [done| |by rewrite map_size_fmap].
  intros id. rewrite lookup_fmap, <-option_fmap_compose. apply option_fmap_ext.
  intros info. simpl. by destruct (is_stale m now info).
Qed.

Lemma nm_apply_wf `{HashOrder} m op : nm_wf m → nm_wf (nm_apply m op).
Proof.
  intros Hwf. destruct op; simpl.
  - destruct (register_node _ _ _ _ _ _ _) eqn:E; simpl; [|done]. eauto using register_node_wf.
  - destruct (unregister_node _ _) eqn:E; simpl; [|done]. eauto using unregister_node_wf.
  - destruct (update_heartbeat _ _ _ _ _) eqn:E; simpl; [|done]. eauto using update_heartbeat_wf.
  - by apply NodeManager_check_timeouts_wf.
Qed.

#[export] Hint Resolve nm_apply_wf register_node_wf unregister_node_wf
  update_heartbeat_wf NodeManager_check_timeouts_wf : uhorse.

Lemma NodeManager_new_wf mx hb : nm_wf (NodeManager_new mx hb).
Proof. split; simpl; [done..|]. rewrite map_size_empty. lia. Qed.

(** C20. In every state reachable from a fresh registry by registrations,
    unregistrations, heartbeats and timeout sweeps, nodes are filed under their
    own identifier, every workspace-index entry leads to a registered node that
    owns that workspace, and the number of nodes never exceeds [max_nodes]. *)
Theorem node_manager_invariant `{HashOrder} mx hb ops :
  nm_wf (nm_run (NodeManager_new mx hb) ops).
Proof.
  unfold nm_run. generalize (NodeManager_new_wf mx hb). generalize (NodeManager_new mx hb).
  induction ops as [|op ops IH]; intros m Hm; simpl; auto with uhorse.
Qed.

(** A node that registers is found through its workspace, is online, and a
    registration that would exceed the limit is the only one refused. *)
Theorem register_then_lookup m now id name caps ws tags :
  (nodes m !! id = None ∧ (max_nodes m ≤ Z.of_nat (size (nodes m)))%Z ∧
   register_node m now id name caps ws tags = Err NodeLimitReached) ∨
  (∃ m' info, register_node m now id name caps ws tags = Ok m' ∧
     get_node_by_workspace_id m' (effective_workspace_id id ws) = Some info ∧
     ni_node_id info = id ∧ ni_state info = Online ∧
     ∀ id', id' ≠ id → get_node m' id' = get_node m id').
Proof.
  destruct (register_node m now id name caps ws tags) as [m'|e] eqn:E.
  - right. exists m'. pose proof E as
      (_ & _ & _ & (info & En & Eid & Est & _ & _ & _ & _ & _) & Eix)%register_node_ok.
    exists info. split; [done|].
    unfold get_node_by_workspace_id, get_node. rewrite Eix, lookup_insert_eq. simpl.
    rewrite En, lookup_insert_eq. split_and!; [done..|].
    intros id' Hne. by rewrite lookup_insert_ne.
  - left. unfold register_node in E.
    destruct (bool_decide _ && bool_decide _) eqn:Eb; simplify_eq. bool_prop. done.
Qed.

(** ** Selection *)

Lemma load_leb_total a b : load_leb a b = true ∨ load_leb b a = true.
Proof. apply f32_cmp_total; apply score_not_nan. Qed.
Lemma load_leb_trans a b c : load_leb a b = true → load_leb b c = true → load_leb a c = true.
Proof. apply f32_cmp_trans; apply score_not_nan. Qed.
#[export] Hint Resolve load_leb_total load_leb_trans : uhorse.

(** A registered node that may get the task: it is online, allows as many tasks at
    once and has every command and tool that is required, carries one of the tags if
    there are any, and its workspace is the hinted one or lies below it. *)
Definition may_serve `{FileSystem} m (required : option NodeCapabilities) (tags : list string) (hint : option string)
    (n : NodeInfo) : Prop :=
  (∃ id, nodes m !! id = Some n) ∧ ni_state n = Online ∧
  (∀ r, required = Some r →
     (max_concurrent_tasks r ≤ max_concurrent_tasks (ni_capabilities n))%Z ∧
     (∀ c, c ∈ supported_commands r → c ∈ supported_commands (ni_capabilities n)) ∧
     (∀ t, t ∈ available_tools r → t ∈ available_tools (ni_capabilities n))) ∧
  (tags ≠ [] → ∃ t, t ∈ tags ∧ t ∈ ni_tags n) ∧
  (∀ h, hint = Some h → ∃ rest,
     normalize_workspace_hint_path (ws_path (ni_workspace n)) = normalize_workspace_hint_path h ++ rest).

Lemma workspace_matches_hint_iff `{FileSystem} w h :
  workspace_matches_hint w h = true ↔ ∃ rest, normalize_workspace_hint_path w = normalize_workspace_hint_path h ++ rest.
Proof.
  unfold workspace_matches_hint. rewrite orb_true_iff, bool_decide_eq_true, path_starts_with_spec. split; [|by right].
  intros [->|Hw]; [exists []; by rewrite app_nil_r|done].
Qed.

Lemma select_eligible_iff `{FileSystem} required tags hint n :
  select_eligible required tags hint n = true ↔
  ni_state n = Online ∧
  (∀ r, required = Some r →
     (max_concurrent_tasks r ≤ max_concurrent_tasks (ni_capabilities n))%Z ∧
     (∀ c, c ∈ supported_commands r → c ∈ supported_commands (ni_capabilities n)) ∧
     (∀ t, t ∈ available_tools r → t ∈ available_tools (ni_capabilities n))) ∧
  (tags ≠ [] → ∃ t, t ∈ tags ∧ t ∈ ni_tags n) ∧
  (∀ h, hint = Some h → ∃ rest,
     normalize_workspace_hint_path (ws_path (ni_workspace n)) = normalize_workspace_hint_path h ++ rest).
Proof.
  assert (match required with Some r => meets (ni_capabilities n) r | None => true end = true ↔
    ∀ r, required = Some r →
     (max_concurrent_tasks r ≤ max_concurrent_tasks (ni_capabilities n))%Z ∧
     (∀ c, c ∈ supported_commands r → c ∈ supported_commands (ni_capabilities n)) ∧
     (∀ t, t ∈ available_tools r → t ∈ available_tools (ni_capabilities n))) as Hreq.
  { destruct required as [r|]; [|naive_solver]. rewrite meets_spec. split; [by intros ? ? [= <-]|by intros Hr; apply Hr]. }
  assert (negb (bool_decide (tags = [])) && negb (existsb (λ t, bool_decide (t ∈ ni_tags n)) tags) = false ↔
    (tags ≠ [] → ∃ t, t ∈ tags ∧ t ∈ ni_tags n)) as Htag.
  { rewrite andb_false_iff, !negb_false_iff, bool_decide_eq_true, existsb_exists. setoid_rewrite bool_decide_eq_true.
    setoid_rewrite <-list_elem_of_In. destruct (decide (tags = [])); naive_solver. }
  assert (match hint with Some h => workspace_matches_hint (ws_path (ni_workspace n)) h | None => true end = true ↔
    ∀ h, hint = Some h → ∃ rest,
     normalize_workspace_hint_path (ws_path (ni_workspace n)) = normalize_workspace_hint_path h ++ rest) as Hhint.
  { destruct hint as [h|]; [|naive_solver]. rewrite workspace_matches_hint_iff. naive_solver. }
  unfold select_eligible. rewrite <-Hreq, <-Htag, <-Hhint.
  destruct (bool_decide (ni_state n = Online)) eqn:E; bool_prop; simpl; [|naive_solver].
  destruct (match required with Some _ => _ | None => _ end); simpl; [|naive_solver].
  destruct (negb (bool_decide (tags = [])) && _); naive_solver.
Qed.

(** C21. [select_node] finds a node exactly when one that may serve the task is
    registered, and the node it returns may and has the least load score among those
    that may, whatever the iteration order of the map. *)
Theorem select_node_least_loaded `{HashOrder, FileSystem} m required tags hint :
  match select_node m required tags hint with
  | Some n => may_serve m required tags hint n ∧
      ∀ n', may_serve m required tags hint n' → SFleb (score (ni_load n)) (score (ni_load n')) = true
  | None => ∀ n, ¬ may_serve m required tags hint n
  end.
Proof.
  assert (∀ n, may_serve m required tags hint n ↔
    n ∈ List.filter (select_eligible required tags hint) (hash_values (nodes m))) as Hel.
  { intros n. unfold may_serve. rewrite elem_of_filter_bool, elem_of_hash_values, select_eligible_iff. tauto. }
  unfold select_node.
  destruct (sort_by _ _) as [|n rest] eqn:E; simpl.
  - intros n Hn. apply Hel in Hn. rewrite <-(sort_by_elem_of load_leb), E in Hn. set_solver.
  - apply sort_by_head_min in E as [Hin Hmin]; [|auto with uhorse|eauto with uhorse].
    split; [by apply Hel|]. intros n' Hn'. rewrite f32_leb_cmp by apply score_not_nan. by apply Hmin, Hel.
Qed.

(** A timeout sweep turns exactly the nodes whose last heartbeat is older
    than the timeout offline, reports exactly those, and changes nothing else. *)
Theorem check_timeouts_exact `{HashOrder} m now :
  let '(m', timed_out) := NodeManager_check_timeouts m now in
  workspace_index m' = workspace_index m ∧ NoDup timed_out ∧
  (∀ id, id ∈ timed_out ↔ ∃ info, nodes m !! id = Some info ∧
     (seconds (as_i64 (heartbeat_timeout_secs m)) < now - ni_last_heartbeat info)%Z) ∧
  (∀ id info, nodes m !! id = Some info →
     nodes m' !! id = Some (if decide (id ∈ timed_out) then set_offline info else info)).
Proof.
  unfold NodeManager_check_timeouts.
  set (timed_out := (List.filter _ (hash_order (nodes m))).*1).
  destruct (filter_keys_spec (is_stale m now) (nodes m)) as [Hnd Hin]. fold timed_out in Hnd, Hin.
  split; [done|]. split; [done|].
  split.
  - intros id. rewrite Hin. unfold is_stale. by setoid_rewrite bool_decide_eq_true.
  - intros id info Hn. simpl. rewrite lookup_fmap, Hn. simpl. f_equal.
    case_decide as Hd; rewrite Hin in Hd.
    + destruct Hd as (info' & Hn' & Hs). simplify_eq. by rewrite Hs.
    + destruct (is_stale m now info) eqn:Es; [|done]. destruct Hd. eauto.
Qed.

(** ** Ownership of workspaces *)

(** The index is complete: every workspace owned by a node is found. *)
Definition index_complete (m : NodeManager) : Prop :=
  ∀ id info w, nodes m !! id = Some info →
    ws_workspace_id (ni_workspace info) = Some w → workspace_index m !! w = Some id.

(** The operation does not register a workspace another node owns. *)
Definition exclusive_op (m : NodeManager) (op : NmOp) : Prop :=
  match op with
  | OpRegister _ id _ _ ws _ =>
      ∀ id' info, nodes m !! id' = Some info → id' ≠ id →
        ws_workspace_id (ni_workspace info) ≠ Some (effective_workspace_id id ws)
  | _ => True
  end.

Definition exclusive_step `{HashOrder} (m m' : NodeManager) : Prop :=
  ∃ op, exclusive_op m op ∧ m' = nm_apply m op.

Lemma set_nodes_complete m ns :
  index_complete m →
  (∀ id, ni_workspace <$> ns !! id = ni_workspace <$> nodes m !! id) →
  index_complete (set_nodes m ns).
Proof.
  intros Hc Heq id info w Hn Hw. simpl in *. specialize (Heq id). rewrite Hn in Heq.
  destruct (nodes m !! id) as [i|] eqn:E; simplify_eq/=.
  apply (Hc _ _ _ E). congruence.
Qed.

Lemma exclusive_step_complete `{HashOrder} m m' :
  nm_wf m → index_complete m → exclusive_step m m' → index_complete m'.
Proof.
  intros Hwf Hc (op & Hex & ->). destruct op as [now id name caps ws tags|id|now id st ld|now]; simpl.
  - destruct (register_node m now id name caps ws tags) as [m'|] eqn:E; simpl; [|done].
    pose proof E as (_ & _ & _ & (info & En & _ & _ & _ & _ & _ & _ & Ews) & Eix)%register_node_ok.
    intros id' info' w. rewrite En, Eix, !lookup_insert. case_decide as Hid.
    + intros [= <-] Hw. assert (w = effective_workspace_id id ws) as -> by congruence.
      by rewrite decide_True, Hid.
    + intros Hn Hw. assert (effective_workspace_id id ws ≠ w) as Hne.
      { intros <-. by apply (Hex _ _ Hn). }
      rewrite decide_False by done.
      destruct (nodes m !! id) as [p|] eqn:Ep; simpl; [|by eapply Hc].
      destruct (ws_workspace_id (ni_workspace p)) as [wp|] eqn:Ewp; [|by eapply Hc].
      rewrite lookup_delete_ne; [by eapply Hc|]. intros ->.
      pose proof (Hc _ _ _ Hn Hw). pose proof (Hc _ _ _ Ep Ewp). congruence.
  - unfold unregister_node. destruct (nodes m !! id) as [p|] eqn:Ep; simpl; [|done].
    intros id' info' w Hn Hw. simpl in *. apply lookup_delete_Some in Hn as [Hne Hn].
    destruct (ws_workspace_id (ni_workspace p)) as [wp|] eqn:Ewp; [|by eapply Hc].
    rewrite lookup_delete_ne; [by eapply Hc|]. intros ->.
    pose proof (Hc _ _ _ Hn Hw). pose proof (Hc _ _ _ Ep Ewp). congruence.
  - unfold update_heartbeat. destruct (nodes m !! id) as [p|] eqn:Ep; simpl; [|done].
    apply set_nodes_complete; [done|]. intros id'. rewrite lookup_insert.
    case_decide; [|done]. subst. by rewrite Ep.
  - apply set_nodes_complete; [done|]. intros id.
    rewrite lookup_fmap, <-option_fmap_compose. apply option_fmap_ext.
    intros info. simpl. by destruct (is_stale m now info).
Qed.

(** As long as no registration claims a workspace another node owns, the
    index and the ownership of workspaces are the same relation: a workspace
    leads to a node exactly when that node is registered and owns it. *)
Theorem exclusive_workspaces_indexed `{HashOrder} mx hb m w info :
  rtc exclusive_step (NodeManager_new mx hb) m →
  get_node_by_workspace_id m w = Some info ↔
  nodes m !! ni_node_id info = Some info ∧ ws_workspace_id (ni_workspace info) = Some w.
Proof.
  intros Hrun. assert (nm_wf m ∧ index_complete m) as [Hwf Hc].
  { revert Hrun. apply (rtc_ind_r (λ m, nm_wf m ∧ index_complete m)).
    - split; [apply NodeManager_new_wf|]. intros id i x. simpl. by rewrite lookup_empty.
    - intros m1 m2 _ Hstep [Hwf Hc]. split.
      + destruct Hstep as (op & _ & ->). auto with uhorse.
      + by eapply exclusive_step_complete. }
  unfold get_node_by_workspace_id, get_node. split.
  - destruct (workspace_index m !! w) as [id|] eqn:E; simpl; [|done]. intros Hn.
    destruct (wf_index _ Hwf _ _ E) as (i & Hi & Hw). simplify_eq.
    by rewrite (wf_node_key _ Hwf _ _ Hn).
  - intros [Hn Hw]. by rewrite (Hc _ _ _ Hn Hw).
Qed.

(** Examples run at a concrete iteration order. *)
Definition demo_ws (w : string) : WorkspaceInfo := MkWorkspaceInfo (Some w) "ws" "/ws" false [] [].
Definition demo_register (id w : string) : NmOp :=
  OpRegister 0 (MkNodeId id) id NodeCapabilities_default (demo_ws w) [].

Lemma exclusive_workspaces_indexed_witness :
  let H := canonical_order in
  let m := nm_apply (NodeManager_new 10 30) (demo_register "n1" "w1") in
  ∃ info, get_node_by_workspace_id m "w1" = Some info ∧
    nodes m !! ni_node_id info = Some info ∧ ws_workspace_id (ni_workspace info) = Some "w1".
Proof.
  intros H m. destruct (get_node_by_workspace_id m "w1") as [info|] eqn:E; [|discriminate E].
  exists info. split; [reflexivity|].
  apply (exclusive_workspaces_indexed (H := H) 10 30 m "w1" info); [|exact E].
  apply rtc_once. exists (demo_register "n1" "w1"). split; [|reflexivity].
  intros id' info' Hn. simpl in Hn. rewrite lookup_empty in Hn. discriminate.
Defined.

(** Two nodes that declare the same workspace identifier break the index:
    when the node registered first leaves, the entry of the second goes with it,
    so a node that is online and owns the workspace can no longer be found by it. *)
Theorem workspace_collision_orphans_node m now now' a b na nb ca cb wa wb ta tb w m1 m2 :
  a ≠ b → ws_workspace_id wa = Some w → ws_workspace_id wb = Some w →
  register_node m now a na ca wa ta = Ok m1 →
  register_node m1 now' b nb cb wb tb = Ok m2 →
  ∃ m3 info, unregister_node m2 a = Ok m3 ∧ get_node m3 b = Some info ∧
    ni_state info = Online ∧ ws_workspace_id (ni_workspace info) = Some w ∧
    get_node_by_workspace_id m3 w = None.
Proof.
  intros Hne Hwa Hwb
    (_ & _ & _ & (ia & Ena & _ & _ & _ & _ & _ & _ & Ewa) & Eixa)%register_node_ok
    (_ & _ & _ & (ib & Enb & _ & Eon & _ & _ & _ & _ & Ewb) & Eixb)%register_node_ok.
  unfold effective_workspace_id in *. rewrite Hwa in *. rewrite Hwb in *. simpl in *.
  assert (nodes m2 !! a = Some ia) as Ea.
  { by rewrite Enb, lookup_insert_ne, Ena, lookup_insert_eq. }
  unfold unregister_node. rewrite Ea, Ewa. eexists _, ib. split; [reflexivity|].
  unfold get_node, get_node_by_workspace_id. simpl.
  rewrite lookup_delete_ne, Enb, lookup_insert_eq by done.
  by rewrite lookup_delete_eq.
Qed.

Lemma workspace_collision_orphans_node_witness :
  ∃ m1 m2 m3 info,
    unregister_node m2 (MkNodeId "a") = Ok m3 ∧ get_node m3 (MkNodeId "b") = Some info ∧
    ni_state info = Online ∧ ws_workspace_id (ni_workspace info) = Some "w" ∧
    get_node_by_workspace_id m3 "w" = None ∧
    register_node (NodeManager_new 10 30) 0 (MkNodeId "a") "a" NodeCapabilities_default
      (demo_ws "w") [] = Ok m1.
Proof.
  eexists _, _.
  destruct (workspace_collision_orphans_node (NodeManager_new 10 30) 0 1 (MkNodeId "a")
    (MkNodeId "b") "a" "b" NodeCapabilities_default NodeCapabilities_default (demo_ws "w")
    (demo_ws "w") [] [] "w" _ _ ltac:(discriminate) eq_refl eq_refl eq_refl eq_refl)
    as (m3 & info & H).
  exists m3, info. split_and!; try apply H. reflexivity.
Defined.
