(* ===== verification/TaskScheduler.v ===== *)
(** The task scheduler of the Hub ([crates/uhorse-hub/src/task_scheduler.rs]):
    priority queues of submitted tasks, tasks running on nodes, finished tasks,
    and the operations between them.  This file treats each method as one step;
    SchedulerInterleaving.v splits them at their lock acquisitions. *)
From S2P Require Import Prelude Float32 Json ProtocolTypes ProtocolCommand ProtocolResult.
From S2P Require Import ProtocolMessage Channel Paths NodeManager.

(** ** Data *)

Section SchedulerData.
Context `{JsonValue}.

Record QueuedTask := MkQueuedTask {
  qt_task_id : TaskId;
  qt_command : Command;
  qt_context : TaskContext;
  qt_priority : Priority;
  qt_created_at : timestamp;
  qt_retry_count : Z;
  qt_max_retries : Z;
  qt_required_capabilities : option NodeCapabilities;
  qt_required_tags : list string;
  qt_workspace_hint : option string
}.

Record RunningTask := MkRunningTask {
  rt_task_id : TaskId;
  rt_command : Command;
  rt_context : TaskContext;
  rt_priority : Priority;
  rt_node_id : NodeId;
  rt_started_at : timestamp;
  rt_timeout_at : timestamp;
  rt_retry_count : Z
}.

Record CompletedTask := MkCompletedTask {
  ct_task_id : TaskId;
  ct_command : Command;
  ct_context : TaskContext;
  ct_priority : Priority;
  ct_node_id : NodeId;
  ct_started_at : timestamp;
  ct_completed_at : timestamp;
  ct_status : TaskStatus;
  ct_result : CommandResult
}.

Record TaskResult := MkTaskResult {
  tr_task_id : TaskId;
  tr_node_id : NodeId;
  tr_result : CommandResult
}.

Record TaskStatusInfo := MkTaskStatusInfo {
  tsi_task_id : TaskId;
  tsi_status : TaskStatus;
  tsi_command_type : option CommandType;
  tsi_priority : option Priority;
  tsi_node_id : option NodeId;
  tsi_started_at : option timestamp;
  tsi_completed_at : option timestamp;
  tsi_error : option string
}.

(** The scheduler; [result_tx] is the channel of result notifications and the
    node manager, shared with the rest of the Hub, is passed to the operations. *)
Record TaskScheduler := MkTaskScheduler {
  pending_tasks : gmap Priority (list QueuedTask);
  running_tasks : gmap TaskId RunningTask;
  completed_tasks : gmap TaskId CompletedTask;
  task_counter : Z;
  ts_max_retries : Z;
  task_timeout_secs : Z;
  result_tx : chan TaskResult
}.
End SchedulerData.

Record ScheduledTask := MkScheduledTask {
  sd_task_id : TaskId;
  sd_node_id : NodeId;
  sd_scheduled_at : timestamp
}.

Record SchedulerStats := MkSchedulerStats {
  ss_pending_tasks : Z;
  ss_running_tasks : Z;
  ss_completed_tasks : Z;
  ss_failed_tasks : Z
}.

(** The six queues, most urgent first: the order [schedule_next] scans. *)
Definition priorities : list Priority := [Critical; Urgent; High; Normal; Low; Background].

Definition task_id_of_counter (id : Z) : TaskId := MkTaskId ("task-" +:+ display_u id).
Definition pending_cancelled : NodeId := MkNodeId "pending-cancelled".

Section SchedulerOps.
Context `{JsonValue}.

Definition TaskScheduler_new (max_retries timeout_secs : Z) : TaskScheduler :=
  MkTaskScheduler (foldr (λ p m, <[p := []]> m) ∅ priorities) ∅ ∅ 0 max_retries timeout_secs
    (MkChan true []).

Definition set_pending (s : TaskScheduler) (p : gmap Priority (list QueuedTask)) : TaskScheduler :=
  MkTaskScheduler p (running_tasks s) (completed_tasks s) (task_counter s)
    (ts_max_retries s) (task_timeout_secs s) (result_tx s).
Definition set_running (s : TaskScheduler) (r : gmap TaskId RunningTask) : TaskScheduler :=
  MkTaskScheduler (pending_tasks s) r (completed_tasks s) (task_counter s)
    (ts_max_retries s) (task_timeout_secs s) (result_tx s).
Definition set_completed (s : TaskScheduler) (c : gmap TaskId CompletedTask) : TaskScheduler :=
  MkTaskScheduler (pending_tasks s) (running_tasks s) c (task_counter s)
    (ts_max_retries s) (task_timeout_secs s) (result_tx s).
Definition set_counter (s : TaskScheduler) (n : Z) : TaskScheduler :=
  MkTaskScheduler (pending_tasks s) (running_tasks s) (completed_tasks s) n
    (ts_max_retries s) (task_timeout_secs s) (result_tx s).
Definition set_result_tx (s : TaskScheduler) (ch : chan TaskResult) : TaskScheduler :=
  MkTaskScheduler (pending_tasks s) (running_tasks s) (completed_tasks s) (task_counter s)
    (ts_max_retries s) (task_timeout_secs s) ch.

(** [result_tx.send(..)]: a failure is only logged. *)
Definition notify (s : TaskScheduler) (r : TaskResult) : TaskScheduler :=
  if ch_open (result_tx s)
  then set_result_tx s (MkChan true (ch_msgs (result_tx s) ++ [r]))
  else s.

(** [fetch_add] on the 64-bit counter wraps around. *)
Definition generate_task_id (s : TaskScheduler) : TaskScheduler * TaskId :=
  (set_counter s (wrap 64 (task_counter s + 1)), task_id_of_counter (task_counter s)).

Definition terminal_status_from_result (r : CommandResult) : TaskStatus :=
  if cr_success r then StatusCompleted else StatusFailed.

Definition submit_task (s : TaskScheduler) (now : timestamp) (command : Command)
    (context : TaskContext) (priority : Priority) (required : option NodeCapabilities)
    (tags : list string) (hint : option string) : TaskScheduler * TaskId :=
  let '(s1, id) := generate_task_id s in
  let task := MkQueuedTask id command context priority now 0 (ts_max_retries s) required tags hint in
  (set_pending s1 (map_update (λ queue, queue ++ [task]) priority (pending_tasks s1)), id).

(** The queue of a priority. *)
Definition queue_of (s : TaskScheduler) (p : Priority) : list QueuedTask :=
  default [] (pending_tasks s !! p).

(** *** Completed tasks: at most 500 are kept, the oldest 250 go first *)

Definition completed_leb (a b : TaskId * CompletedTask) : bool :=
  bool_decide (ct_completed_at a.2 ≤ ct_completed_at b.2)%Z.

Context `{HashOrder}.

Definition store_completed_task (s : TaskScheduler) (completed : CompletedTask) : TaskScheduler :=
  let m := <[ct_task_id completed := completed]> (completed_tasks s) in
  if decide (500 < size m) then
    let ids_to_remove := (take 250 (sort_by completed_leb (hash_order m))).*1 in
    set_completed s (foldl (λ m id, delete id m) m ids_to_remove)
  else set_completed s m.

(** *** Results *)

Definition completed_of_running (id : TaskId) (running : RunningTask) (at_ : timestamp)
    (status : TaskStatus) (result : CommandResult) : CompletedTask :=
  MkCompletedTask id (rt_command running) (rt_context running) (rt_priority running)
    (rt_node_id running) (rt_started_at running) at_ status result.

Definition complete_task (s : TaskScheduler) (now : timestamp) (id : TaskId) (node : NodeId)
    (result : CommandResult) : TaskScheduler :=
  match running_tasks s !! id with
  | Some running =>
      let s1 := set_running s (delete id (running_tasks s)) in
      let s2 := store_completed_task s1
        (completed_of_running id running now (terminal_status_from_result result) result) in
      notify s2 (MkTaskResult id node result)
  | None => s
  end.

(** *** Cancellation *)

Definition cancelled_result : CommandResult := result_failure (execution_failed "Task cancelled").

(** The first queue, in map order, that holds the task, and its position there. *)
Definition find_pending (s : TaskScheduler) (id : TaskId) : option (Priority * nat * QueuedTask) :=
  '(_, (p, queue)) ← list_find (λ pq : Priority * list QueuedTask,
      is_Some (list_find (λ t, qt_task_id t = id) pq.2)) (hash_order (pending_tasks s));
  '(pos, t) ← list_find (λ t, qt_task_id t = id) queue;
  Some (p, pos, t).

Definition completed_of_queued (queued : QueuedTask) (now : timestamp) : CompletedTask :=
  MkCompletedTask (qt_task_id queued) (qt_command queued) (qt_context queued)
    (qt_priority queued) pending_cancelled (qt_created_at queued) now StatusCancelled
    cancelled_result.

Definition TaskScheduler_cancel_task (s : TaskScheduler) (now : timestamp) (id : TaskId)
    : HubResult TaskScheduler :=
  match find_pending s id with
  | Some (p, pos, queued) =>
      let s1 := set_pending s (map_update (delete pos) p (pending_tasks s)) in
      let s2 := store_completed_task s1 (completed_of_queued queued now) in
      Ok (notify s2 (MkTaskResult id pending_cancelled cancelled_result))
  | None =>
      match running_tasks s !! id with
      | Some running =>
          let s1 := set_running s (delete id (running_tasks s)) in
          let s2 := store_completed_task s1
            (completed_of_running id running now StatusCancelled cancelled_result) in
          Ok (notify s2 (MkTaskResult id (rt_node_id running) cancelled_result))
      | None => Err (ETask ("Task not found: " +:+ task_id_str id))
      end
  end.

(** *** Timeouts *)

Definition timeout_result : CommandResult := result_failure (timeout_error "Task timed out").

Definition is_timed_out (now : timestamp) (r : RunningTask) : bool :=
  bool_decide (rt_timeout_at r < now)%Z.

Definition time_out_one (now : timestamp) (s : TaskScheduler) (id : TaskId) : TaskScheduler :=
  match running_tasks s !! id with
  | Some running =>
      let s1 := set_running s (delete id (running_tasks s)) in
      let s2 := store_completed_task s1
        (completed_of_running id running now StatusTimeout timeout_result) in
      notify s2 (MkTaskResult id (rt_node_id running) timeout_result)
  | None => s
  end.

Definition check_timeouts (s : TaskScheduler) (now : timestamp) : TaskScheduler * list TaskId :=
  let timed_out :=
    (List.filter (λ kv : TaskId * RunningTask, is_timed_out now kv.2)
       (hash_order (running_tasks s))).*1 in
  (foldl (time_out_one now) s timed_out, timed_out).

(** *** Queries *)

Definition get_task_status (s : TaskScheduler) (id : TaskId) : option TaskStatusInfo :=
  match running_tasks s !! id with
  | Some r =>
      Some (MkTaskStatusInfo id StatusRunning (Some (command_type (rt_command r)))
        (Some (rt_priority r)) (Some (rt_node_id r)) (Some (rt_started_at r)) None None)
  | None =>
  match completed_tasks s !! id with
  | Some c =>
      Some (MkTaskStatusInfo id (ct_status c) (Some (command_type (ct_command c)))
        (Some (ct_priority c)) (Some (ct_node_id c)) (Some (ct_started_at c))
        (Some (ct_completed_at c)) (ee_message <$> cr_error (ct_result c)))
  | None =>
  match find_pending s id with
  | Some (_, _, t) =>
      Some (MkTaskStatusInfo id StatusQueued (Some (command_type (qt_command t)))
        (Some (qt_priority t)) None None None None)
  | None => None
  end end end.

Definition get_task_context (s : TaskScheduler) (id : TaskId) : option TaskContext :=
  match running_tasks s !! id with
  | Some r => Some (rt_context r)
  | None =>
  match completed_tasks s !! id with
  | Some c => Some (ct_context c)
  | None =>
  match find_pending s id with
  | Some (_, _, t) => Some (qt_context t)
  | None => None
  end end end.

Definition get_completed_task (s : TaskScheduler) (id : TaskId) : option CompletedTask :=
  completed_tasks s !! id.

Definition is_failed_status (st : TaskStatus) : bool :=
  match st with StatusFailed | StatusCancelled | StatusTimeout => true | _ => false end.

Definition TaskScheduler_get_stats (s : TaskScheduler) : SchedulerStats :=
  MkSchedulerStats
    (foldl (λ n queue, n + zlen queue)%Z 0%Z (hash_values (pending_tasks s)))
    (Z.of_nat (size (running_tasks s)))
    (zlen (List.filter (λ c, bool_decide (ct_status c = StatusCompleted))
             (hash_values (completed_tasks s))))
    (zlen (List.filter (λ c, is_failed_status (ct_status c)) (hash_values (completed_tasks s)))).

(** *** Scheduling *)

Context `{FileSystem, SendErrorText}.

(** The [retain] filter on candidate nodes. *)
Definition schedule_eligible (senders : gmap NodeId chan_id) (task : QueuedTask) (n : NodeInfo)
    : bool :=
  if negb (bool_decide (is_Some (senders !! ni_node_id n))) then false
  else if negb (bool_decide (ni_state n = Online)) then false
  else if negb (match qt_required_capabilities task with
                | Some required => meets (ni_capabilities n) required | None => true end) then false
  else if negb (bool_decide (qt_required_tags task = []))
          && negb (existsb (λ tag, bool_decide (tag ∈ ni_tags n)) (qt_required_tags task)) then false
  else match tc_execution_workspace_id (qt_context task) with
       | Some workspace_id => bool_decide (ws_workspace_id (ni_workspace n) = Some workspace_id)
       | None =>
           match qt_workspace_hint task with
           | Some hint => workspace_matches_hint (ws_path (ni_workspace n)) hint
           | None => true
           end
       end.

Definition schedule_candidates (nm : NodeManager) (senders : gmap NodeId chan_id)
    (task : QueuedTask) : list NodeInfo :=
  let base :=
    match tc_execution_workspace_id (qt_context task) with
    | Some workspace_id => option_list (get_node_by_workspace_id nm workspace_id)
    | None => get_online_nodes nm
    end in
  sort_by load_leb (List.filter (schedule_eligible senders task) base).

(** The environment of a call: successive readings of the clock and successive
    fresh message identifiers. *)
Record call_env := MkCallEnv { clock : nat → timestamp; fresh_mid : nat → MessageId }.

Definition deadline_from (s : TaskScheduler) (now : timestamp) : timestamp :=
  (now + seconds (as_i64 (task_timeout_secs s)))%Z.

Definition assignment_for (s : TaskScheduler) (env : call_env) (k : nat) (task : QueuedTask)
    : HubToNode :=
  TaskAssignment (fresh_mid env k) (qt_task_id task) (qt_command task) (qt_priority task)
    (Some (deadline_from s (clock env k))) (qt_context task)
    (qt_retry_count task) (qt_max_retries task).

(** The candidate loop: the first node that accepts the assignment. [TPanic] is
    the [expect] on the sender of a candidate. [k] counts the clock readings. *)
Inductive try_outcome :=
| TPanic
| TNone (k : nat)
| TSent (node : NodeInfo) (chans : chan_store HubToNode) (k : nat).

Fixpoint try_candidates (s : TaskScheduler) (senders : gmap NodeId chan_id) (env : call_env)
    (chans : chan_store HubToNode) (k : nat) (task : QueuedTask) (candidates : list NodeInfo)
    : try_outcome :=
  match candidates with
  | [] => TNone k
  | node :: rest =>
      match senders !! ni_node_id node with
      | None => TPanic
      | Some sender =>
          match send_to_node chans (ni_node_id node) (assignment_for s env k task) sender with
          | Err _ => try_candidates s senders env chans (S k) task rest
          | Ok chans' => TSent node chans' (S k)
          end
      end
  end.

Definition running_of (s : TaskScheduler) (task : QueuedTask) (node : NodeId)
    (started now : timestamp) : RunningTask :=
  MkRunningTask (qt_task_id task) (qt_command task) (qt_context task) (qt_priority task)
    node started (deadline_from s now) (qt_retry_count task).

(** The bookkeeping of a task that found no node. *)
Definition bump_retry (senders : gmap NodeId chan_id) (task : QueuedTask) : QueuedTask :=
  if bool_decide (qt_retry_count task < qt_max_retries task)%Z
     && negb (bool_decide (senders = ∅)) then
    MkQueuedTask (qt_task_id task) (qt_command task) (qt_context task) (qt_priority task)
      (qt_created_at task) (qt_retry_count task + 1) (qt_max_retries task)
      (qt_required_capabilities task) (qt_required_tags task) (qt_workspace_hint task)
  else task.

(** The scan over the priorities; [None] is a panic. *)
Fixpoint schedule_loop (nm : NodeManager) (senders : gmap NodeId chan_id) (env : call_env)
    (ps : list Priority) (k : nat) (s : TaskScheduler) (chans : chan_store HubToNode)
    : option (TaskScheduler * chan_store HubToNode * option ScheduledTask) :=
  match ps with
  | [] => Some (s, chans, None)
  | p :: ps' =>
      match pending_tasks s !! p with
      | Some (task :: queue) =>
          let s1 := set_pending s (<[p := queue]> (pending_tasks s)) in
          match try_candidates s1 senders env chans k task (schedule_candidates nm senders task) with
          | TPanic => None
          | TSent node chans' k' =>
              let running := running_of s1 task (ni_node_id node) (clock env k') (clock env (k' + 1)) in
              let s2 := set_running s1 (<[qt_task_id task := running]> (running_tasks s1)) in
              Some (s2, chans', Some (MkScheduledTask (qt_task_id task) (ni_node_id node)
                                        (clock env (k' + 2))))
          | TNone k' =>
              let s2 := set_pending s1
                (map_update (λ queue, bump_retry senders task :: queue) p (pending_tasks s1)) in
              schedule_loop nm senders env ps' k' s2 chans
          end
      | _ => schedule_loop nm senders env ps' k s chans
      end
  end.

Definition schedule_next (nm : NodeManager) (senders : gmap NodeId chan_id) (env : call_env)
    (s : TaskScheduler) (chans : chan_store HubToNode)
    : option (TaskScheduler * chan_store HubToNode * option ScheduledTask) :=
  schedule_loop nm senders env priorities 0 s chans.
End SchedulerOps.
