(* ===== verification/SchedulerFacts.v ===== *)
(** Correctness of the scheduler methods: the invariant of its three stores, the
    refinement of a per-task life cycle, the selection rule of [schedule_next],
    the bound on finished tasks and the uniqueness of task identifiers. *)
From S2P Require Import Prelude Float32 Json ProtocolTypes ProtocolCommand ProtocolResult.
From S2P Require Import ProtocolMessage Channel Paths NodeManager TaskScheduler.

(** ** Specification: the life cycle of a task *)

Inductive Phase :=
| PUnknown
| PQueued
| PRunning (node : NodeId)
| PTerminal (status : TaskStatus)
| PForgotten.

Definition is_terminal (st : TaskStatus) : Prop :=
  st = StatusCompleted ∨ st = StatusFailed ∨ st = StatusCancelled ∨ st = StatusTimeout.

Inductive phase_step : Phase → Phase → Prop :=
| ph_submit : phase_step PUnknown PQueued
| ph_assign n : phase_step PQueued (PRunning n)
| ph_withdraw : phase_step PQueued (PTerminal StatusCancelled)
| ph_finish n st : is_terminal st → phase_step (PRunning n) (PTerminal st)
| ph_evict st : phase_step (PTerminal st) PForgotten.

(** A finished task never changes its outcome: it can only be forgotten. *)
Lemma phase_terminal_stable st ph :
  rtc phase_step (PTerminal st) ph → ph = PTerminal st ∨ ph = PForgotten.
Proof.
  intros Hs. inversion Hs as [|? y ? Hstep Hrest]; simplify_eq; [by left|right].
  inversion Hstep; simplify_eq. inversion Hrest as [|? z ? Hstep' _]; simplify_eq; [done|].
  inversion Hstep'.
Qed.

Section SchedulerFacts.
Context `{JsonValue}.

(** ** Invariant *)

Definition issued (s : TaskScheduler) (id : TaskId) : Prop :=
  ∃ n, (0 ≤ n < task_counter s)%Z ∧ id = task_id_of_counter n.

Definition is_pending (s : TaskScheduler) (id : TaskId) : Prop :=
  ∃ p t, t ∈ queue_of s p ∧ qt_task_id t = id.

Record sched_wf (s : TaskScheduler) : Prop := {
  sw_dom : ∀ p, is_Some (pending_tasks s !! p);
  sw_prio : ∀ p t, t ∈ queue_of s p → qt_priority t = p;
  sw_retry : ∀ p t, t ∈ queue_of s p →
    (0 ≤ qt_retry_count t ≤ qt_max_retries t)%Z ∧ qt_max_retries t = ts_max_retries s;
  sw_nodup : ∀ p, NoDup (qt_task_id <$> queue_of s p);
  sw_disj : ∀ p p' t t', t ∈ queue_of s p → t' ∈ queue_of s p' →
    qt_task_id t = qt_task_id t' → p = p';
  sw_run_key : ∀ id r, running_tasks s !! id = Some r → rt_task_id r = id;
  sw_comp_key : ∀ id c, completed_tasks s !! id = Some c →
    ct_task_id c = id ∧ is_terminal (ct_status c);
  sw_pend_run : ∀ id, is_pending s id → running_tasks s !! id = None;
  sw_pend_comp : ∀ id, is_pending s id → completed_tasks s !! id = None;
  sw_run_comp : ∀ id, is_Some (running_tasks s !! id) → completed_tasks s !! id = None;
  sw_issued : ∀ id, is_pending s id ∨ is_Some (running_tasks s !! id) ∨
    is_Some (completed_tasks s !! id) → issued s id;
  sw_counter : (0 ≤ task_counter s ≤ u64_max)%Z;
  sw_bound : size (completed_tasks s) ≤ 500;
  sw_max : (0 ≤ ts_max_retries s)%Z
}.

(** The phase of a task identifier in a state. *)
Inductive has_phase (s : TaskScheduler) (id : TaskId) : Phase → Prop :=
| hp_unknown : ¬ issued s id → has_phase s id PUnknown
| hp_queued : is_pending s id → has_phase s id PQueued
| hp_running r : running_tasks s !! id = Some r → has_phase s id (PRunning (rt_node_id r))
| hp_terminal c : completed_tasks s !! id = Some c → has_phase s id (PTerminal (ct_status c))
| hp_forgotten : issued s id → ¬ is_pending s id → running_tasks s !! id = None →
    completed_tasks s !! id = None → has_phase s id PForgotten.

Lemma has_phase_det s id ph1 ph2 :
  sched_wf s → has_phase s id ph1 → has_phase s id ph2 → ph1 = ph2.
Proof.
  intros Hwf H1 H2.
  pose proof (sw_pend_run s Hwf id). pose proof (sw_pend_comp s Hwf id).
  pose proof (sw_run_comp s Hwf id). pose proof (sw_issued s Hwf id).
  destruct H1, H2; try done; naive_solver.
Qed.

(** One transition of the specification: every task moves along its life cycle,
    and a task is forgotten only when the store of finished tasks is full. *)
Definition tstep (s s' : TaskScheduler) : Prop :=
  sched_wf s' ∧ ∀ id ph, has_phase s id ph → ∃ ph', has_phase s' id ph' ∧
    rtc phase_step ph ph' ∧
    (ph' = PForgotten → ph = PForgotten ∨ size (completed_tasks s) = 500).

(** An operation refines the specification when it is a sequence of transitions. *)
Definition refines : TaskScheduler → TaskScheduler → Prop := rtc tstep.

Lemma refines_wf s s' : sched_wf s → refines s s' → sched_wf s'.
Proof. intros Hwf Hr. revert Hwf. induction Hr as [|??? [??] ? IH]; auto. Qed.

Lemma refines_phase s s' id ph :
  refines s s' → has_phase s id ph → ∃ ph', has_phase s' id ph' ∧ rtc phase_step ph ph'.
Proof.
  intros Hr. revert ph. induction Hr as [|s1 s2 s3 [_ H12] _ IH]; intros ph Hph; [by exists ph|].
  destruct (H12 _ _ Hph) as (ph2 & Hph2 & ? & _). destruct (IH _ Hph2) as (ph3 & ? & ?).
  exists ph3. split; [done|]. by etrans.
Qed.

(** The identifier is in none of the three stores. *)
Definition gone (s : TaskScheduler) (id : TaskId) : Prop :=
  ¬ is_pending s id ∧ running_tasks s !! id = None ∧ completed_tasks s !! id = None.

Lemma tstep_intro s s' :
  sched_wf s → sched_wf s' →
  (∀ id, issued s id → issued s' id) →
  (∀ id, ¬ issued s id → ¬ issued s' id ∨ is_pending s' id) →
  (∀ id, is_pending s id → is_pending s' id ∨ is_Some (running_tasks s' !! id) ∨
    (∃ c, completed_tasks s' !! id = Some c ∧ ct_status c = StatusCancelled) ∨
    (gone s' id ∧ size (completed_tasks s) = 500)) →
  (∀ id r, running_tasks s !! id = Some r → running_tasks s' !! id = Some r ∨
    is_Some (completed_tasks s' !! id) ∨ (gone s' id ∧ size (completed_tasks s) = 500)) →
  (∀ id c, completed_tasks s !! id = Some c → completed_tasks s' !! id = Some c ∨
    (gone s' id ∧ size (completed_tasks s) = 500)) →
  (∀ id, issued s id → gone s id → gone s' id) →
  tstep s s'.
Proof.
  intros Hwf Hwf' Hi Hi' Hq Hr Hc Hg. split; [done|]. intros id ph Hph.
  assert (issued s' id → gone s' id → has_phase s' id PForgotten) as Hf.
  { intros ? (? & ? & ?). by constructor. }
  pose proof (sw_issued s Hwf id) as His.
  assert (∀ st, phase_step (PTerminal st) PForgotten) as Hev by constructor.
  destruct Hph as [Hn|Hp|r Hr'|c Hc'|Hiss Hnp Hnr Hnc].
  - destruct (Hi' id Hn) as [?|Hp].
    + exists PUnknown. split; [by constructor|done].
    + exists PQueued. split_and!; [by constructor| |done]. apply rtc_once. constructor.
  - destruct (Hq id Hp) as [?|[[r ?]|[(c & ? & Hst)|[? ?]]]].
    + exists PQueued. split; [by constructor|done].
    + exists (PRunning (rt_node_id r)). split_and!; [by constructor| |done].
      apply rtc_once. constructor.
    + exists (PTerminal (ct_status c)). split_and!; [by constructor| |done].
      rewrite Hst. apply rtc_once. constructor.
    + exists PForgotten. split_and!; [by auto| |by right].
      eapply rtc_l; [apply ph_withdraw|]. by apply rtc_once.
  - destruct (Hr id r Hr') as [?|[[c Hcc]|[? ?]]].
    + exists (PRunning (rt_node_id r)). split; [by constructor|done].
    + exists (PTerminal (ct_status c)). split_and!; [by constructor| |done].
      apply rtc_once. constructor. by apply (sw_comp_key s' Hwf') in Hcc as [_ ?].
    + exists PForgotten. split_and!; [apply Hf; [apply Hi, His; rewrite ?Hr', ?Hc'; eauto|done]| |by right].
      eapply rtc_l; [apply (ph_finish _ StatusCompleted); by left|]. by apply rtc_once.
  - destruct (Hc id c Hc') as [?|[? ?]].
    + exists (PTerminal (ct_status c)). split; [by constructor|done].
    + exists PForgotten. split_and!; [apply Hf; [apply Hi, His; rewrite ?Hr', ?Hc'; eauto|done]|by apply rtc_once|by right].
  - exists PForgotten. split_and!; [|done|by left]. apply Hf; [auto|]. by apply Hg.
Qed.

(** ** Queues *)

Definition retry_ok (s : TaskScheduler) (t : QueuedTask) : Prop :=
  (0 ≤ qt_retry_count t ≤ qt_max_retries t)%Z ∧ qt_max_retries t = ts_max_retries s.

Definition set_queue (s : TaskScheduler) (p : Priority) (q : list QueuedTask) : TaskScheduler :=
  set_pending s (<[p := q]> (pending_tasks s)).

Lemma map_update_queue f s p :
  sched_wf s → set_pending s (map_update f p (pending_tasks s)) = set_queue s p (f (queue_of s p)).
Proof.
  intros Hwf. destruct (sw_dom s Hwf p) as [q Hq].
  unfold set_queue, map_update, queue_of. by rewrite Hq.
Qed.

Lemma queue_of_set s p q p' :
  queue_of (set_queue s p q) p' = if decide (p = p') then q else queue_of s p'.
Proof. unfold queue_of. simpl. rewrite lookup_insert. by case_decide. Qed.

Lemma is_pending_queue s id p : id ∈ qt_task_id <$> queue_of s p → is_pending s id.
Proof. intros (t & -> & Ht)%list_elem_of_fmap. by exists p, t. Qed.

Lemma is_pending_set s p q id :
  sched_wf s → is_pending (set_queue s p q) id ↔
  id ∈ qt_task_id <$> q ∨ (is_pending s id ∧ id ∉ qt_task_id <$> queue_of s p).
Proof.
  intros Hwf. split.
  - intros (p' & t & Ht & <-). rewrite queue_of_set in Ht. case_decide.
    + left. by apply list_elem_of_fmap_2.
    + right. split; [by exists p', t|]. intros (t' & ? & ?)%list_elem_of_fmap.
      by assert (p = p') by (eapply (sw_disj s Hwf); eauto).
  - intros [(t & -> & Ht)%list_elem_of_fmap|[(p' & t & Ht & <-) Hni]].
    + exists p, t. rewrite queue_of_set. by case_decide.
    + exists p', t. rewrite queue_of_set. case_decide; [|done]. subst.
      by destruct Hni; apply list_elem_of_fmap_2.
Qed.

Lemma set_queue_wf s p q :
  sched_wf s → NoDup (qt_task_id <$> q) →
  (∀ t, t ∈ q → qt_priority t = p ∧ retry_ok s t ∧
    (qt_task_id t ∈ qt_task_id <$> queue_of s p ∨ issued s (qt_task_id t) ∧ gone s (qt_task_id t))) →
  sched_wf (set_queue s p q).
Proof.
  intros Hwf Hnd Hq.
  assert (∀ id, is_pending (set_queue s p q) id → is_pending s id ∨ issued s id ∧ gone s id) as Hp.
  { intros id. rewrite is_pending_set by done.
    intros [(t & -> & Ht)%list_elem_of_fmap|[? _]]; [|by left].
    destruct (Hq t Ht) as (_ & _ & [?|?]); [left|by right]. by eapply is_pending_queue. }
  assert (∀ p' t t', p ≠ p' → t ∈ q → t' ∈ queue_of s p' → qt_task_id t ≠ qt_task_id t') as Hne.
  { intros p' t t' Hpp Ht Ht' Heq. destruct (Hq t Ht) as (_ & _ & [(t2 & ? & ?)%list_elem_of_fmap|[_ [Hg _]]]).
    - destruct Hpp. apply (sw_disj s Hwf p p' t2 t'); congruence.
    - destruct Hg. by exists p', t'. }
  split; simpl.
  - intros p'. rewrite lookup_insert. case_decide; [done|]. by apply (sw_dom s Hwf).
  - intros p' t. rewrite queue_of_set. case_decide; [subst; by apply Hq|by apply (sw_prio s Hwf)].
  - intros p' t. rewrite queue_of_set. case_decide; [subst; by apply Hq|by apply (sw_retry s Hwf p')].
  - intros p'. rewrite queue_of_set. case_decide; [done|]. by apply (sw_nodup s Hwf).
  - intros p1 p2 t t'. rewrite !queue_of_set. repeat case_decide; intros; subst; [done| | |].
    + by destruct (Hne p2 t t').
    + by destruct (Hne p1 t' t).
    + by eapply (sw_disj s Hwf).
  - apply (sw_run_key s Hwf).
  - apply (sw_comp_key s Hwf).
  - intros id [?|[_ (_ & ? & _)]]%Hp; [by apply (sw_pend_run s Hwf)|done].
  - intros id [?|[_ (_ & _ & ?)]]%Hp; [by apply (sw_pend_comp s Hwf)|done].
  - apply (sw_run_comp s Hwf).
  - intros id [[?|[? _]]%Hp|?]; [|done|]; apply (sw_issued s Hwf); auto.
  - apply (sw_counter s Hwf).
  - apply (sw_bound s Hwf).
  - apply (sw_max s Hwf).
Qed.

(** *** The running tasks *)

Lemma delete_running_wf s id : sched_wf s → sched_wf (set_running s (delete id (running_tasks s))).
Proof.
  intros Hwf. split; simpl; try apply Hwf.
  - intros id' r. rewrite lookup_delete_Some. intros [_ ?]. by apply (sw_run_key s Hwf).
  - intros id' ?. rewrite lookup_delete_None. right. by apply (sw_pend_run s Hwf).
  - intros id' [r Hr]. apply lookup_delete_Some in Hr as [_ ?]. apply (sw_run_comp s Hwf). eauto.
  - intros id' [?|[[r Hr]|?]]; apply (sw_issued s Hwf); [by left| |by auto].
    apply lookup_delete_Some in Hr as [_ ?]. eauto.
Qed.

Lemma insert_running_wf s r :
  sched_wf s → issued s (rt_task_id r) → gone s (rt_task_id r) →
  sched_wf (set_running s (<[rt_task_id r := r]> (running_tasks s))).
Proof.
  intros Hwf Hi (Hnp & Hnr & Hnc). split; simpl; try apply Hwf.
  - intros id' r'. rewrite lookup_insert. case_decide; [naive_solver|]. by apply (sw_run_key s Hwf).
  - intros id' Hp. rewrite lookup_insert. case_decide; [by subst|]. by apply (sw_pend_run s Hwf).
  - intros id'. rewrite lookup_insert. case_decide; [by subst|]. apply (sw_run_comp s Hwf).
  - intros id' Hd. change (issued s id'). rewrite lookup_insert in Hd. case_decide; [by subst|].
    by apply (sw_issued s Hwf).
Qed.

Lemma is_pending_ext s s' id :
  pending_tasks s = pending_tasks s' → is_pending s id ↔ is_pending s' id.
Proof. unfold is_pending, queue_of. by intros ->. Qed.

Lemma nodup_queue_unique s p t t' :
  sched_wf s → t ∈ queue_of s p → t' ∈ queue_of s p → qt_task_id t = qt_task_id t' → t = t'.
Proof.
  intros Hwf [i Hi]%list_elem_of_lookup [j Hj]%list_elem_of_lookup Heq.
  assert (i = j); [|congruence].
  eapply (NoDup_lookup (qt_task_id <$> queue_of s p)); [by apply sw_nodup| |];
    rewrite list_lookup_fmap; [by rewrite Hi|by rewrite Hj, Heq].
Qed.

(** ** Finished tasks *)

Context `{HashOrder}.

Lemma foldl_delete_lookup {V} (m : gmap TaskId V) ids k :
  foldl (λ m id, delete id m) m ids !! k = if decide (k ∈ ids) then None else m !! k.
Proof.
  revert m. induction ids as [|id ids IH]; intros m; cbn [foldl].
  - case_decide as Hd; [by apply elem_of_nil in Hd|done].
  - rewrite IH, lookup_delete. repeat case_decide; set_solver.
Qed.

Lemma foldl_delete_size {V} (m : gmap TaskId V) ids :
  NoDup ids → (∀ k, k ∈ ids → is_Some (m !! k)) →
  size (foldl (λ m id, delete id m) m ids) = size m - length ids.
Proof.
  revert m. induction ids as [|id ids IH]; intros m Hnd Hin; simpl; [lia|].
  apply NoDup_cons in Hnd as [Hni Hnd]. rewrite IH; [|done|].
  - rewrite map_size_delete_Some by (apply Hin; set_solver). lia.
  - intros k Hk. rewrite lookup_delete_ne by set_solver. apply Hin. set_solver.
Qed.

(** The evicted identifiers. *)
Definition evicted (m : gmap TaskId CompletedTask) : list TaskId :=
  if decide (500 < size m) then (take 250 (sort_by completed_leb (hash_order m))).*1 else [].

Lemma store_completed_eq s c :
  store_completed_task s c =
  set_completed s (foldl (λ m id, delete id m) (<[ct_task_id c := c]> (completed_tasks s))
                    (evicted (<[ct_task_id c := c]> (completed_tasks s)))).
Proof. unfold store_completed_task, evicted. by case_decide. Qed.

Lemma evicted_NoDup m : NoDup (evicted m).
Proof.
  unfold evicted. case_decide; [|constructor].
  assert (NoDup ((sort_by completed_leb (hash_order m)).*1)) as Hnd.
  { rewrite sort_by_perm. apply NoDup_hash_keys. }
  rewrite <-(take_drop 250 (sort_by completed_leb (hash_order m))), fmap_app in Hnd.
  by apply NoDup_app in Hnd as [? _].
Qed.

Lemma evicted_in m k : k ∈ evicted m → is_Some (m !! k).
Proof.
  unfold evicted. case_decide; [|by intros ?%elem_of_nil]. intros Hk.
  apply list_elem_of_fmap in Hk as ([k' c] & -> & Hk). apply elem_of_take in Hk as (i & Hk & _).
  apply list_elem_of_lookup_2 in Hk. rewrite sort_by_elem_of, elem_of_hash_order in Hk.
  simpl. eauto.
Qed.

Lemma evicted_length m : length (evicted m) = if decide (500 < size m) then 250 else 0.
Proof.
  unfold evicted. case_decide; [|done].
  rewrite length_fmap, length_take, sort_by_length, hash_order_length. lia.
Qed.

Lemma store_completed_lookup s c k :
  completed_tasks (store_completed_task s c) !! k =
    if decide (k ∈ evicted (<[ct_task_id c := c]> (completed_tasks s))) then None
    else <[ct_task_id c := c]> (completed_tasks s) !! k.
Proof. rewrite store_completed_eq. simpl. apply foldl_delete_lookup. Qed.

Lemma store_completed_size s c :
  size (completed_tasks s) ≤ 500 → size (completed_tasks (store_completed_task s c)) ≤ 500.
Proof.
  intros Hs. rewrite store_completed_eq. simpl.
  rewrite foldl_delete_size by (apply evicted_NoDup || apply evicted_in).
  rewrite evicted_length, map_size_insert. destruct (_ !! _); case_decide; simpl in *; lia.
Qed.

Lemma store_completed_lookup_Some s c k c' :
  completed_tasks (store_completed_task s c) !! k = Some c' →
  (k = ct_task_id c ∧ c' = c) ∨ completed_tasks s !! k = Some c'.
Proof.
  rewrite store_completed_lookup. case_decide; [done|]. rewrite lookup_insert.
  case_decide; naive_solver.
Qed.

Lemma store_completed_fields s c :
  pending_tasks (store_completed_task s c) = pending_tasks s ∧
  running_tasks (store_completed_task s c) = running_tasks s ∧
  task_counter (store_completed_task s c) = task_counter s ∧
  ts_max_retries (store_completed_task s c) = ts_max_retries s ∧
  task_timeout_secs (store_completed_task s c) = task_timeout_secs s ∧
  result_tx (store_completed_task s c) = result_tx s.
Proof. by rewrite store_completed_eq. Qed.

Lemma store_completed_wf s c :
  sched_wf s → issued s (ct_task_id c) → ¬ is_pending s (ct_task_id c) →
  running_tasks s !! ct_task_id c = None → is_terminal (ct_status c) →
  sched_wf (store_completed_task s c).
Proof.
  intros Hwf Hi Hnp Hnr Ht.
  pose proof (store_completed_size s c (sw_bound s Hwf)) as Hb.
  pose proof (store_completed_lookup_Some s c) as Hl.
  assert (∀ k, k ≠ ct_task_id c → completed_tasks s !! k = None →
    completed_tasks (store_completed_task s c) !! k = None) as Hn.
  { intros k Hne Hk. apply eq_None_not_Some. intros [c' [[??]|?]%Hl]; congruence. }
  rewrite store_completed_eq in *. split; simpl in *; try apply Hwf.
  - intros id c' [[-> ->]|?]%Hl; [done|]. by apply (sw_comp_key s Hwf).
  - intros id Hp. apply Hn; [by intros ->|]. by apply (sw_pend_comp s Hwf).
  - intros id [r Hr]. apply Hn; [congruence|]. apply (sw_run_comp s Hwf). eauto.
  - intros id Hd. change (issued s id).
    destruct Hd as [?|[?|[c' [[-> ->]|?]%Hl]]]; [..|done|]; apply (sw_issued s Hwf); eauto.
  - done.
Qed.

(** Among the tasks of a full store, those evicted finished no later than those kept. *)
Lemma evicted_oldest m k k' c c' :
  k ∈ evicted m → m !! k = Some c → m !! k' = Some c' → k' ∉ evicted m →
  (ct_completed_at c ≤ ct_completed_at c')%Z.
Proof.
  unfold evicted. case_decide; [|by intros ?%elem_of_nil].
  set (l := sort_by completed_leb (hash_order m)). intros Hk Hc Hc' Hk'.
  assert (StronglySorted (λ x y, completed_leb x y = true) l) as Hs.
  { apply sort_by_sorted; unfold completed_leb.
    - intros x y. rewrite !bool_decide_eq_true. lia.
    - intros x y z. rewrite !bool_decide_eq_true. lia. }
  assert (∀ k c, (k, c) ∈ l ↔ m !! k = Some c) as Hl.
  { intros. unfold l. by rewrite sort_by_elem_of, elem_of_hash_order. }
  apply list_elem_of_fmap in Hk as ([k1 c1] & -> & Hk1). simpl in *.
  assert (c1 = c) as ->.
  { apply elem_of_take in Hk1 as (i & Hk1 & _). apply list_elem_of_lookup_2, Hl in Hk1. congruence. }
  assert ((k', c') ∈ drop 250 l) as Hd.
  { apply Hl in Hc'. rewrite <-(take_drop 250 l), elem_of_app in Hc'.
    destruct Hc' as [Hc'|?]; [|done]. destruct Hk'. by apply (list_elem_of_fmap_2 fst) in Hc'. }
  rewrite <-(take_drop 250 l) in Hs.
  enough (completed_leb (k1, c) (k', c') = true) as Hle
    by (unfold completed_leb in Hle; by apply bool_decide_eq_true in Hle).
  revert Hs Hk1 Hd. generalize (take 250 l) (drop 250 l). intros l1 l2.
  induction l1 as [|x l1 IH]; simpl; intros Hs Hk1 Hd; [by apply elem_of_nil in Hk1|].
  inversion_clear Hs as [|?? Hs' Hx]. apply elem_of_cons in Hk1 as [<-|Hk1]; [|auto].
  rewrite Forall_forall in Hx. apply Hx. set_solver.
Qed.

Lemma store_completed_fate s c k c' :
  sched_wf s → ¬ is_pending s (ct_task_id c) → running_tasks s !! ct_task_id c = None →
  <[ct_task_id c := c]> (completed_tasks s) !! k = Some c' →
  completed_tasks (store_completed_task s c) !! k = Some c' ∨
  (gone (store_completed_task s c) k ∧ size (completed_tasks s) = 500).
Proof.
  intros Hwf Hnp Hnr Hk.
  destruct (decide (k ∈ evicted (<[ct_task_id c := c]> (completed_tasks s)))) as [He|He].
  - right. split.
    + unfold gone. rewrite store_completed_lookup, decide_True by done.
      rewrite store_completed_eq. simpl.
      change (is_pending (set_completed s _) k) with (is_pending s k).
      apply lookup_insert_Some in Hk as [[<- _]|[_ Hk]]; [done|].
      split_and!; [| |done].
      * intros Hp. apply (sw_pend_comp s Hwf) in Hp. congruence.
      * destruct (running_tasks s !! k) eqn:E; [|done].
        assert (completed_tasks s !! k = None) by (apply (sw_run_comp s Hwf); eauto). congruence.
    + pose proof (evicted_length (<[ct_task_id c := c]> (completed_tasks s))) as Hl.
      rewrite map_size_insert in Hl. pose proof (sw_bound s Hwf).
      case_decide as Hd; [|by apply nil_length_inv in Hl; rewrite Hl in He; apply elem_of_nil in He].
      destruct (completed_tasks s !! ct_task_id c); simpl in Hd; lia.
  - left. by rewrite store_completed_lookup, decide_False.
Qed.

(** ** Operations as transitions *)

(** A running task ends. *)
Lemma finish_running_tstep s id r c :
  sched_wf s → running_tasks s !! id = Some r → ct_task_id c = id → is_terminal (ct_status c) →
  tstep s (store_completed_task (set_running s (delete id (running_tasks s))) c).
Proof.
  intros Hwf Hr <- Ht. set (s1 := set_running s _).
  pose proof (delete_running_wf s (ct_task_id c) Hwf) as Hwf1. fold s1 in Hwf1.
  assert (¬ is_pending s1 (ct_task_id c)) as Hnp.
  { intros Hp. apply (sw_pend_run s Hwf) in Hp. congruence. }
  assert (running_tasks s1 !! ct_task_id c = None) as Hnr by apply lookup_delete_eq.
  assert (completed_tasks s !! ct_task_id c = None) as Hnc by (apply (sw_run_comp s Hwf); eauto).
  pose proof (λ k c', store_completed_fate s1 c k c' Hwf1 Hnp Hnr) as Hf.
  pose proof (store_completed_fields s1 c) as (Ep & Er & Ec & _).
  apply tstep_intro; [done| | | | | | |].
  - apply store_completed_wf; try done. apply (sw_issued s Hwf). eauto.
  - unfold issued. by rewrite Ec.
  - unfold issued. rewrite Ec. by left.
  - intros id. rewrite (is_pending_ext _ s1 id Ep). by left.
  - intros id r' Hr'. rewrite Er. simpl. rewrite lookup_delete. case_decide; [|by left].
    subst. right. destruct (Hf (ct_task_id c) c) as [?|?]; [apply lookup_insert_eq| |]; eauto.
  - intros id c' Hc'. apply Hf. rewrite lookup_insert_ne by congruence. done.
  - intros id _ (Hp & Hr' & Hc'). split_and!.
    + by rewrite (is_pending_ext _ s1 id Ep).
    + rewrite Er. simpl. rewrite lookup_delete. by case_decide.
    + apply eq_None_not_Some. intros [c' [[-> _]|?]%store_completed_lookup_Some]; simpl in *; congruence.
Qed.

Lemma queue_delete s p pos t :
  sched_wf s → queue_of s p !! pos = Some t →
  sched_wf (set_queue s p (delete pos (queue_of s p))) ∧
  (∀ id, is_pending s id ↔
     id = qt_task_id t ∨ is_pending (set_queue s p (delete pos (queue_of s p))) id) ∧
  ¬ is_pending (set_queue s p (delete pos (queue_of s p))) (qt_task_id t).
Proof.
  intros Hwf Hpos. pose proof (list_delete_fmap_perm qt_task_id _ _ _ Hpos) as Hperm.
  pose proof (sw_nodup s Hwf p) as Hnd. rewrite Hperm in Hnd. apply NoDup_cons in Hnd as [Hni Hnd].
  split_and!.
  - apply set_queue_wf; [done|done|]. intros t' Ht'.
    assert (t' ∈ queue_of s p) by (rewrite (delete_Permutation _ _ _ Hpos); set_solver).
    split_and!; [by apply (sw_prio s Hwf)|by apply (sw_retry s Hwf p)|].
    left. by apply list_elem_of_fmap_2.
  - intros id. rewrite is_pending_set, Hperm, not_elem_of_cons by done.
    destruct (decide (id = qt_task_id t)) as [->|?]; [|destruct (decide (id ∈ qt_task_id <$> delete pos (queue_of s p)))].
    + split; [by left|]. intros _. exists p, t. split; [by eapply list_elem_of_lookup_2|done].
    + split; [naive_solver|]. intros _. apply (is_pending_queue s id p). rewrite Hperm. set_solver.
    + naive_solver.
  - rewrite is_pending_set, Hperm by done. intros [?|[_ ?]]; set_solver.
Qed.

(** A queued task is withdrawn. *)
Lemma finish_queued_tstep s p pos t c :
  sched_wf s → queue_of s p !! pos = Some t → ct_task_id c = qt_task_id t →
  ct_status c = StatusCancelled →
  tstep s (store_completed_task (set_queue s p (delete pos (queue_of s p))) c).
Proof.
  intros Hwf Hpos Hid Hst. destruct (queue_delete s p pos t Hwf Hpos) as (Hwf1 & Hpend & Hnp).
  set (s1 := set_queue s p _) in *. rewrite <-Hid in *.
  assert (is_pending s (ct_task_id c)) as Hp by (apply Hpend; by left).
  pose proof (sw_pend_run s Hwf _ Hp) as Hnr. pose proof (sw_pend_comp s Hwf _ Hp) as Hnc.
  pose proof (λ k c', store_completed_fate s1 c k c' Hwf1 Hnp Hnr) as Hf.
  pose proof (store_completed_fields s1 c) as (Ep & Er & Ec & _).
  apply tstep_intro; [done| | | | | | |].
  - apply store_completed_wf; try done; [apply (sw_issued s Hwf); eauto|].
    rewrite Hst. unfold is_terminal. auto.
  - unfold issued. by rewrite Ec.
  - unfold issued. rewrite Ec. by left.
  - intros id. rewrite (is_pending_ext _ s1 id Ep), Hpend. intros [->|?]; [|by left].
    right; right. destruct (Hf (ct_task_id c) c) as [?|?]; [apply lookup_insert_eq| |]; eauto.
  - intros id r Hr. left. by rewrite Er.
  - intros id c' Hc'. apply Hf. rewrite lookup_insert_ne by (simpl; congruence). done.
  - intros id _ (Hp' & Hr' & Hc'). rewrite Hpend in Hp'. split_and!.
    + rewrite (is_pending_ext _ s1 id Ep). naive_solver.
    + by rewrite Er.
    + apply eq_None_not_Some. intros [c' [[-> _]|?]%store_completed_lookup_Some]; simpl in *; naive_solver.
Qed.

(** The result channel is not part of the life cycle. *)
Lemma set_result_tx_tstep s ch : sched_wf s → tstep s (set_result_tx s ch).
Proof.
  intros Hwf. assert (sched_wf (set_result_tx s ch)) by (destruct Hwf; by split).
  apply tstep_intro; try done; eauto.
Qed.

Lemma notify_refines s r : sched_wf s → refines s (notify s r).
Proof.
  intros Hwf. unfold notify. case_match; [|constructor].
  by apply rtc_once, set_result_tx_tstep.
Qed.

(** The head of a queue starts running. *)
Lemma assign_tstep s p t q r :
  sched_wf s → queue_of s p = t :: q → rt_task_id r = qt_task_id t →
  tstep s (set_running (set_queue s p q) (<[qt_task_id t := r]> (running_tasks s))).
Proof.
  intros Hwf Hq Hid. destruct (queue_delete s p 0 t Hwf) as (Hwf1 & Hpend & Hnp); [by rewrite Hq|].
  rewrite Hq in *. simpl in *. set (s1 := set_queue s p q) in *. rewrite <-Hid in *.
  assert (is_pending s (rt_task_id r)) as Hp by (apply Hpend; by left).
  pose proof (sw_pend_run s Hwf _ Hp) as Hnr. pose proof (sw_pend_comp s Hwf _ Hp) as Hnc.
  assert (issued s (rt_task_id r)) by (apply (sw_issued s Hwf); eauto).
  change (running_tasks s) with (running_tasks s1).
  apply tstep_intro; [done|by apply insert_running_wf| | | | | |].
  - done.
  - by left.
  - intros id [->|?]%Hpend; [|by left]. right; left. simpl. by rewrite lookup_insert_eq.
  - intros id r' Hr. left. simpl. rewrite lookup_insert_ne by congruence. done.
  - intros id c' Hc'. by left.
  - intros id _ (Hp' & Hr' & Hc'). rewrite Hpend in Hp'. split_and!; [naive_solver| |done].
    simpl. rewrite lookup_insert_ne by naive_solver. done.
Qed.

Lemma bump_retry_fields senders t :
  qt_task_id (bump_retry senders t) = qt_task_id t ∧
  qt_priority (bump_retry senders t) = qt_priority t ∧
  qt_max_retries (bump_retry senders t) = qt_max_retries t ∧
  (qt_retry_count t ≤ qt_retry_count (bump_retry senders t) ≤
   Z.max (qt_retry_count t) (qt_max_retries t))%Z.
Proof. unfold bump_retry. case_match; bool_prop; simpl; split_and!; (done || lia). Qed.

(** The head of a queue is put back with its retry count bumped. *)
Lemma put_back_tstep s p t q senders :
  sched_wf s → queue_of s p = t :: q → tstep s (set_queue s p (bump_retry senders t :: q)).
Proof.
  intros Hwf Hq. pose proof (bump_retry_fields senders t) as (Eid & Epr & Emx & Ert).
  assert (qt_task_id <$> bump_retry senders t :: q = qt_task_id <$> queue_of s p) as Eids.
  { rewrite Hq. simpl. by rewrite Eid. }
  assert (sched_wf (set_queue s p (bump_retry senders t :: q))) as Hwf'.
  { apply set_queue_wf; [done|rewrite Eids; by apply (sw_nodup s Hwf)|].
    assert (t ∈ queue_of s p) as Ht by (rewrite Hq; set_solver).
    intros t' Ht'. apply elem_of_cons in Ht' as [->|Ht'].
    - pose proof (sw_retry s Hwf p t Ht). rewrite Eid, Epr. split_and!.
      + by apply (sw_prio s Hwf).
      + split; [lia|]. rewrite Emx. tauto.
      + left. by apply list_elem_of_fmap_2.
    - assert (t' ∈ queue_of s p) by (rewrite Hq; set_solver). split_and!.
      + by apply (sw_prio s Hwf).
      + by apply (sw_retry s Hwf p).
      + left. by apply list_elem_of_fmap_2. }
  assert (∀ id, is_pending (set_queue s p (bump_retry senders t :: q)) id ↔ is_pending s id) as Hp.
  { intros id. rewrite is_pending_set, Eids by done. split; [|destruct (decide (id ∈ qt_task_id <$> queue_of s p)); auto].
    intros [?|[? _]]; [|done]. by eapply is_pending_queue. }
  apply tstep_intro; try done; eauto.
  - intros id. rewrite Hp. eauto.
  - intros id _ (? & ? & ?). split_and!; [|done..]. by rewrite Hp.
Qed.

(** A new task enters the queue of its priority. *)
Lemma task_id_of_counter_inj n m :
  (0 ≤ n)%Z → (0 ≤ m)%Z → task_id_of_counter n = task_id_of_counter m → n = m.
Proof.
  unfold task_id_of_counter, display_u. intros ?? [= E]. apply pretty_N_inj in E. lia.
Qed.

Lemma issued_bump s id :
  (0 ≤ task_counter s)%Z →
  issued (set_counter s (task_counter s + 1)) id ↔
  issued s id ∨ id = task_id_of_counter (task_counter s).
Proof.
  intros Hc. split.
  - intros (n & Hn & ->). simpl in Hn. destruct (decide (n = task_counter s)) as [->|?]; [by right|].
    left. exists n. split; [lia|done].
  - intros [(n & Hn & ->)|Hid]; [|subst id]; eexists; (split; [|reflexivity]); simpl; lia.
Qed.

(** The next identifier was never issued, so no store holds it. *)
Lemma next_id_fresh s : sched_wf s → ¬ issued s (task_id_of_counter (task_counter s)).
Proof.
  intros Hwf (n & Hn & E). pose proof (sw_counter s Hwf). apply task_id_of_counter_inj in E; lia.
Qed.

Lemma next_id_gone s : sched_wf s → gone s (task_id_of_counter (task_counter s)).
Proof.
  intros Hwf. pose proof (next_id_fresh s Hwf) as Hf. split_and!; [intros Hp|..];
    try (apply eq_None_not_Some; intros Hp); destruct Hf; apply (sw_issued s Hwf); auto.
Qed.

Lemma bump_wf s :
  sched_wf s → (task_counter s < u64_max)%Z → sched_wf (set_counter s (task_counter s + 1)).
Proof.
  intros Hwf Hmax. pose proof (sw_counter s Hwf) as Hc. destruct Hwf. split; simpl; try done; [|lia].
  intros id ?. apply issued_bump; [lia|]. auto.
Qed.

(** A task that is in no store is appended to its queue. *)
Lemma enqueue_wf s t :
  sched_wf s → retry_ok s t → issued s (qt_task_id t) → gone s (qt_task_id t) →
  sched_wf (set_queue s (qt_priority t) (queue_of s (qt_priority t) ++ [t])).
Proof.
  intros Hwf Hr Hi Hg. apply set_queue_wf; [done| |].
  - apply NoDup_fmap_app. split_and!; [by apply (sw_nodup s Hwf)| |by apply NoDup_singleton].
    intros id Hin ->%list_elem_of_singleton. destruct Hg as [Hg _]. by apply Hg; eapply is_pending_queue.
  - intros t' [Ht| ->%list_elem_of_singleton]%elem_of_app; [|by auto].
    split_and!; [by apply (sw_prio s Hwf)|by apply (sw_retry s Hwf (qt_priority t))|].
    left. by apply list_elem_of_fmap_2.
Qed.

Lemma enqueue_pending s p t id :
  sched_wf s →
  is_pending (set_queue s p (queue_of s p ++ [t])) id ↔ is_pending s id ∨ id = qt_task_id t.
Proof.
  intros Hwf. rewrite is_pending_set, fmap_app, elem_of_app by done.
  change (qt_task_id <$> [t]) with [qt_task_id t]. rewrite list_elem_of_singleton.
  pose proof (is_pending_queue s id p).
  destruct (decide (id ∈ qt_task_id <$> queue_of s p)); naive_solver.
Qed.

Lemma submit_tstep s now cmd ctx p caps tags hint :
  sched_wf s → (task_counter s < u64_max)%Z →
  tstep s (submit_task s now cmd ctx p caps tags hint).1.
Proof.
  intros Hwf Hmax. pose proof (sw_counter s Hwf) as Hc. unfold submit_task. simpl.
  rewrite wrap_small by (unfold u64_max in *; lia).
  set (id := task_id_of_counter (task_counter s)). set (s1 := set_counter s (task_counter s + 1)).
  assert (∀ id', issued s1 id' ↔ issued s id' ∨ id' = id) as Hiss by (intros; apply issued_bump; lia).
  pose proof (bump_wf s Hwf Hmax) as Hwf1. fold s1 in Hwf1.
  set (t := MkQueuedTask id cmd ctx p now 0 (ts_max_retries s) caps tags hint).
  change (pending_tasks s) with (pending_tasks s1).
  rewrite (map_update_queue (λ queue, queue ++ [t]) s1 p Hwf1).
  assert (sched_wf (set_queue s1 p (queue_of s1 p ++ [t]))) as Hwf2.
  { pose proof (sw_max s Hwf). apply (enqueue_wf s1 t); [done|by repeat split|apply Hiss; by right|].
    exact (next_id_gone s Hwf). }
  pose proof (λ id', enqueue_pending s1 p t id' Hwf1) as Hp.
  change (is_pending s1) with (is_pending s) in Hp.
  apply tstep_intro; [done|done| | | | | |].
  - intros id' ?. apply Hiss. by left.
  - intros id' Hni. destruct (decide (id' = id)) as [->|?]; [right; apply Hp; by right|left].
    intros Hi. apply Hiss in Hi. naive_solver.
  - intros id' ?. left. apply Hp. by left.
  - by left.
  - by left.
  - intros id' Hi (? & ? & ?). split_and!; [|done..]. rewrite Hp.
    intros [?| ->]; [done|]. by apply (next_id_fresh s Hwf).
Qed.
End SchedulerFacts.
