(* ===== verification/SchedulerTheorems.v ===== *)
(** The properties of the task scheduler: every run of its operations keeps the
    invariant and refines the life cycle of SchedulerFacts.v; what each operation
    does on each branch; the choice [schedule_next] makes; the uniqueness of task
    identifiers; the bound on finished tasks. *)
From S2P Require Import Prelude Float32 Json ProtocolTypes ProtocolCommand ProtocolResult.
From S2P Require Import ProtocolMessage Channel Paths NodeManager TaskScheduler.
From S2P Require Import SchedulerFacts.

Section SchedulerRuns.
Context `{JsonValue, HashOrder, FileSystem, SendErrorText}.

(** ** Searching the queues *)

Lemma find_pending_Some s id p pos t :
  find_pending s id = Some (p, pos, t) → queue_of s p !! pos = Some t ∧ qt_task_id t = id.
Proof.
  unfold find_pending. intros ([i [p' q]] & Hf & Hr)%bind_Some.
  apply bind_Some in Hr as ([pos' t'] & Hg & [= -> -> ->]).
  apply list_find_Some in Hf as (Hi & _ & _). apply list_find_Some in Hg as (Hp & Ht & _).
  apply list_elem_of_lookup_2, elem_of_hash_order in Hi.
  unfold queue_of. by rewrite Hi.
Qed.

Lemma find_pending_None s id : find_pending s id = None ↔ ¬ is_pending s id.
Proof.
  unfold find_pending, is_pending, queue_of. split.
  - intros Hn (p & t & Ht & Hid). destruct (pending_tasks s !! p) as [q|] eqn:Hq; [|set_solver].
    simpl in Ht. destruct (list_find _ (hash_order _)) as [[i [p' q']]|] eqn:Hf; simpl in Hn.
    + apply list_find_Some in Hf as (_ & [[pos t'] Hg] & _). simpl in Hg. by rewrite Hg in Hn.
    + apply list_find_None in Hf. rewrite Forall_forall in Hf.
      destruct (Hf (p, q)); [by apply elem_of_hash_order|].
      simpl. destruct (list_find _ q) eqn:Hg; [done|]. apply list_find_None in Hg.
      rewrite Forall_forall in Hg. by destruct (Hg t).
  - intros Hn. destruct (list_find _ (hash_order _)) as [[i [p q]]|] eqn:Hf; [|done]. simpl.
    destruct (list_find _ q) as [[pos t]|] eqn:Hg; [|done]. destruct Hn.
    apply list_find_Some in Hf as (Hi & _ & _). apply list_find_Some in Hg as (Hp & Ht & _).
    apply list_elem_of_lookup_2, elem_of_hash_order in Hi. exists p, t. rewrite Hi. simpl.
    split; [by eapply list_elem_of_lookup_2|done].
Qed.

(** ** Every operation refines the life cycle *)

Lemma complete_task_refines s now id node result :
  sched_wf s → refines s (complete_task s now id node result).
Proof.
  intros Hwf. unfold complete_task. destruct (running_tasks s !! id) as [r|] eqn:Hr; [|constructor].
  set (c := completed_of_running _ _ _ _ _).
  assert (tstep s (store_completed_task (set_running s (delete id (running_tasks s))) c)) as Ht.
  { apply (finish_running_tstep s id r c); [done..|]. simpl. unfold terminal_status_from_result, is_terminal.
    destruct (cr_success result); auto. }
  etrans; [by apply rtc_once|]. apply notify_refines. apply Ht.
Qed.

Lemma cancel_task_refines s now id s' :
  sched_wf s → TaskScheduler_cancel_task s now id = Ok s' → refines s s'.
Proof.
  intros Hwf. unfold TaskScheduler_cancel_task.
  destruct (find_pending s id) as [[[p pos] t]|] eqn:Hf.
  - apply find_pending_Some in Hf as [Hpos <-]. intros [= <-].
    rewrite map_update_queue by done.
    assert (tstep s (store_completed_task (set_queue s p (delete pos (queue_of s p)))
      (completed_of_queued t now))) as Ht by by apply (finish_queued_tstep s p pos t).
    etrans; [by apply rtc_once|]. apply notify_refines. apply Ht.
  - destruct (running_tasks s !! id) as [r|] eqn:Hr; [|done]. intros [= <-].
    set (c := completed_of_running _ _ _ _ _).
    assert (tstep s (store_completed_task (set_running s (delete id (running_tasks s))) c)) as Ht.
    { apply (finish_running_tstep s id r c); [done..|]. unfold is_terminal. simpl. auto. }
    etrans; [by apply rtc_once|]. apply notify_refines. apply Ht.
Qed.

Lemma time_out_one_refines now s id : sched_wf s → refines s (time_out_one now s id).
Proof.
  intros Hwf. unfold time_out_one. destruct (running_tasks s !! id) as [r|] eqn:Hr; [|constructor].
  set (c := completed_of_running _ _ _ _ _).
  assert (tstep s (store_completed_task (set_running s (delete id (running_tasks s))) c)) as Ht.
  { apply (finish_running_tstep s id r c); [done..|]. unfold is_terminal. simpl. auto. }
  etrans; [by apply rtc_once|]. apply notify_refines. apply Ht.
Qed.

Lemma time_out_all_refines now ids s :
  sched_wf s → refines s (foldl (time_out_one now) s ids).
Proof.
  revert s. induction ids as [|id ids IH]; intros s Hwf; simpl; [constructor|].
  pose proof (time_out_one_refines now s id Hwf) as Hr.
  etrans; [exact Hr|]. apply IH. by eapply refines_wf.
Qed.

Lemma queue_of_cons s p t q : queue_of s p = t :: q ↔ pending_tasks s !! p = Some (t :: q).
Proof. unfold queue_of. destruct (pending_tasks s !! p); simpl; naive_solver. Qed.

(** Taking the head off a queue and pushing a task in front again. *)
Lemma put_back_queue s p q f :
  set_pending (set_queue s p q) (map_update f p (<[p:=q]> (pending_tasks s))) = set_queue s p (f q).
Proof. unfold set_queue, map_update. by rewrite lookup_insert_eq, insert_insert_eq. Qed.

Lemma schedule_loop_refines nm senders env ps k s chans s' chans' r :
  sched_wf s → schedule_loop nm senders env ps k s chans = Some (s', chans', r) → refines s s'.
Proof.
  revert k s chans. induction ps as [|p ps IH]; intros k s chans Hwf; simpl.
  { intros [= <- _ _]. constructor. }
  destruct (pending_tasks s !! p) as [[|t q]|] eqn:Hq; [by apply IH| |by apply IH].
  change (set_pending s (<[p:=q]> (pending_tasks s))) with (set_queue s p q).
  destruct (try_candidates _ _ _ _ _ _ _) as [|k'|node ch k'] eqn:Ht; [done| |].
  - rewrite (put_back_queue s p q). intros Hr.
    assert (tstep s (set_queue s p (bump_retry senders t :: q))) as Hst.
    { apply put_back_tstep; [done|]. by apply queue_of_cons. }
    etrans; [by apply rtc_once|]. eapply IH; [|exact Hr]. apply Hst.
  - intros [= <- _ _]. apply rtc_once. apply (assign_tstep s p t q); [done| |done].
    by apply queue_of_cons.
Qed.

(** ** Runs *)

Inductive SchedOp :=
| SoSubmit (now : timestamp) (command : Command) (context : TaskContext) (priority : Priority)
    (required : option NodeCapabilities) (tags : list string) (hint : option string)
| SoComplete (now : timestamp) (id : TaskId) (node : NodeId) (result : CommandResult)
| SoCancel (now : timestamp) (id : TaskId)
| SoCheckTimeouts (now : timestamp)
| SoSchedule (nm : NodeManager) (senders : gmap NodeId chan_id) (env : call_env)
    (chans : chan_store HubToNode).

(** The scheduler after one operation, and the identifier a submission returned. *)
Definition sched_apply (s : TaskScheduler) (op : SchedOp) : TaskScheduler * option TaskId :=
  match op with
  | SoSubmit now command context priority required tags hint =>
      let '(s', id) := submit_task s now command context priority required tags hint in (s', Some id)
  | SoComplete now id node result => (complete_task s now id node result, None)
  | SoCancel now id => (unwrap_or (TaskScheduler_cancel_task s now id) s, None)
  | SoCheckTimeouts now => ((check_timeouts s now).1, None)
  | SoSchedule nm senders env chans =>
      (match schedule_next nm senders env s chans with Some (s', _, _) => s' | None => s end, None)
  end.

Definition sched_run (s : TaskScheduler) (ops : list SchedOp) : TaskScheduler :=
  foldl (λ s op, (sched_apply s op).1) s ops.

Fixpoint submitted_ids (s : TaskScheduler) (ops : list SchedOp) : list TaskId :=
  match ops with
  | [] => []
  | op :: ops' =>
      let '(s', id) := sched_apply s op in option_list id ++ submitted_ids s' ops'
  end.

Lemma sched_apply_refines s op :
  sched_wf s → (task_counter s < u64_max)%Z → refines s (sched_apply s op).1.
Proof.
  intros Hwf Hc. destruct op as [now cmd ctx p caps tags hint|now id node result|now id|now|nm senders env chans];
    simpl.
  - apply rtc_once. by apply (submit_tstep s now cmd ctx p caps tags hint).
  - by apply complete_task_refines.
  - destruct (TaskScheduler_cancel_task s now id) eqn:E; simpl; [|constructor].
    by eapply cancel_task_refines.
  - by apply time_out_all_refines.
  - destruct (schedule_next nm senders env s chans) as [[[s' ?] ?]|] eqn:E; [|constructor].
    by eapply schedule_loop_refines.
Qed.

Lemma notify_counter s r : task_counter (notify s r) = task_counter s.
Proof. unfold notify. by case_match. Qed.

Lemma store_counter s c : task_counter (store_completed_task s c) = task_counter s.
Proof. apply store_completed_fields. Qed.

Lemma time_out_counter now ids s : task_counter (foldl (time_out_one now) s ids) = task_counter s.
Proof.
  revert s. induction ids as [|id ids IH]; intros s; simpl; [done|]. rewrite IH.
  unfold time_out_one. case_match; [|done]. by rewrite notify_counter, store_counter.
Qed.

Lemma schedule_loop_counter nm senders env ps k s chans s' chans' r :
  schedule_loop nm senders env ps k s chans = Some (s', chans', r) → task_counter s' = task_counter s.
Proof.
  revert k s chans. induction ps as [|p ps IH]; intros k s chans; simpl; [naive_solver|].
  destruct (pending_tasks s !! p) as [[|t q]|]; [by apply IH| |by apply IH].
  destruct (try_candidates _ _ _ _ _ _ _); [done|by intros ->%IH|by intros [= <- _ _]].
Qed.

Lemma sched_apply_counter s op :
  task_counter (sched_apply s op).1 = task_counter s ∨
  task_counter (sched_apply s op).1 = wrap 64 (task_counter s + 1).
Proof.
  destruct op; simpl; [by right|left..].
  - unfold complete_task. case_match; [|done]. by rewrite notify_counter, store_counter.
  - unfold TaskScheduler_cancel_task. repeat case_match; simpl; try done;
      by rewrite notify_counter, store_counter.
  - apply time_out_counter.
  - destruct (schedule_next _ _ _ _ _) as [[[s' ?] ?]|] eqn:E; [|done].
    by eapply schedule_loop_counter.
Qed.

Lemma sched_run_refines s ops :
  sched_wf s → (task_counter s + zlen ops ≤ u64_max)%Z → refines s (sched_run s ops).
Proof.
  revert s. induction ops as [|op ops IH]; intros s Hwf Hc; simpl; [constructor|].
  unfold zlen in Hc. simpl in Hc. pose proof (sw_counter s Hwf).
  assert (refines s (sched_apply s op).1) as Hr by (apply sched_apply_refines; [done|lia]).
  etrans; [exact Hr|]. apply IH; [by eapply refines_wf|].
  unfold zlen. destruct (sched_apply_counter s op) as [->| ->]; [lia|].
  rewrite wrap_small by (unfold u64_max in *; lia). lia.
Qed.

Lemma TaskScheduler_new_wf mr to : (0 ≤ mr)%Z → sched_wf (TaskScheduler_new mr to).
Proof.
  intros Hmr.
  assert (∀ p, queue_of (TaskScheduler_new mr to) p = []) as Hq by by intros [].
  assert (∀ id, ¬ is_pending (TaskScheduler_new mr to) id) as Hp.
  { intros id (p & t & Ht & _). rewrite Hq in Ht. set_solver. }
  split; simpl; try done.
  - intros []; eexists; reflexivity.
  - intros p t. rewrite Hq. set_solver.
  - intros p t. rewrite Hq. set_solver.
  - intros p. rewrite Hq. constructor.
  - intros p p' t t'. rewrite Hq. set_solver.
  - intros id [?%Hp|[[? ?]|[? ?]]]; done.
  - rewrite map_size_empty. lia.
Qed.

Definition reach (mr to : Z) (ops : list SchedOp) : TaskScheduler :=
  sched_run (TaskScheduler_new mr to) ops.

Lemma reach_wf mr to ops : (0 ≤ mr)%Z → (zlen ops ≤ u64_max)%Z → sched_wf (reach mr to ops).
Proof.
  intros ??. pose proof (TaskScheduler_new_wf mr to). eapply refines_wf; [auto|].
  apply sched_run_refines; auto.
Qed.

(** ** The choice of [schedule_next] *)

(** The node has a sender whose channel still has a receiver. *)
Definition node_accepts (senders : gmap NodeId chan_id) (chans : chan_store HubToNode)
    (n : NodeInfo) : bool :=
  match senders !! ni_node_id n with
  | Some c => match chans !! c with Some ch => ch_open ch | None => false end
  | None => false
  end.

(** No candidate for the head of the queue accepts it. *)
Definition blocked (nm : NodeManager) (senders : gmap NodeId chan_id)
    (chans : chan_store HubToNode) (q : list QueuedTask) : Prop :=
  ∀ t, head q = Some t → ∀ n, n ∈ schedule_candidates nm senders t →
    node_accepts senders chans n = false.

Definition put_back (senders : gmap NodeId chan_id) (q : list QueuedTask) : list QueuedTask :=
  match q with [] => [] | t :: q' => bump_retry senders t :: q' end.

Inductive schedule_spec (nm : NodeManager) (senders : gmap NodeId chan_id) (env : call_env)
    (s : TaskScheduler) (chans : chan_store HubToNode) :
    list Priority → TaskScheduler → chan_store HubToNode → option ScheduledTask → Prop :=
| spec_nothing ps s' :
    (∀ p, p ∈ ps → blocked nm senders chans (queue_of s p)) →
    (∀ p, queue_of s' p = if decide (p ∈ ps) then put_back senders (queue_of s p) else queue_of s p) →
    running_tasks s' = running_tasks s → completed_tasks s' = completed_tasks s →
    schedule_spec nm senders env s chans ps s' chans None
| spec_scheduled before p after t q node c msgs k s' :
    (∀ p', p' ∈ before → blocked nm senders chans (queue_of s p')) →
    queue_of s p = t :: q →
    node ∈ schedule_candidates nm senders t →
    (∀ n, n ∈ schedule_candidates nm senders t → node_accepts senders chans n = true →
       load_leb node n = true) →
    senders !! ni_node_id node = Some c → chans !! c = Some (MkChan true msgs) →
    (∀ p', queue_of s' p' =
       if decide (p' = p) then q
       else if decide (p' ∈ before) then put_back senders (queue_of s p') else queue_of s p') →
    running_tasks s' =
      <[qt_task_id t := running_of s t (ni_node_id node) (clock env (S k)) (clock env (S k + 1))]>
        (running_tasks s) →
    completed_tasks s' = completed_tasks s →
    schedule_spec nm senders env s chans (before ++ p :: after) s'
      (<[c := MkChan true (msgs ++ [assignment_for s env k t])]> chans)
      (Some (MkScheduledTask (qt_task_id t) (ni_node_id node) (clock env (S k + 2)))).

Lemma try_candidates_spec s senders env chans k t cands :
  (∀ n, n ∈ cands → is_Some (senders !! ni_node_id n)) →
  (∃ k', try_candidates s senders env chans k t cands = TNone k' ∧
     ∀ n, n ∈ cands → node_accepts senders chans n = false) ∨
  (∃ l1 node l2 c msgs k', cands = l1 ++ node :: l2 ∧
     (∀ n, n ∈ l1 → node_accepts senders chans n = false) ∧
     senders !! ni_node_id node = Some c ∧ chans !! c = Some (MkChan true msgs) ∧
     try_candidates s senders env chans k t cands =
       TSent node (<[c := MkChan true (msgs ++ [assignment_for s env k' t])]> chans) (S k')).
Proof.
  revert k. induction cands as [|n cands IH]; intros k Hs; simpl.
  { left. exists k. split; [done|]. intros ? ?%elem_of_nil. done. }
  destruct (Hs n) as [c Hc]; [set_solver|]. rewrite Hc. unfold send_to_node.
  destruct (chan_send chans c (assignment_for s env k t)) as [chans'|] eqn:E.
  - apply chan_send_Some in E as (msgs & Hch & ->). right.
    exists [], n, cands, c, msgs, k. split_and!; try done. intros ? ?%elem_of_nil. done.
  - assert (node_accepts senders chans n = false) as Hn.
    { unfold node_accepts. rewrite Hc. unfold chan_send in E. by destruct (chans !! c) as [[[] ?]|]. }
    destruct (IH (S k)) as [(k' & -> & Hl)|(l1 & node & l2 & c' & msgs & k' & -> & Hl & ? & ? & ->)].
    + set_solver.
    + left. exists k'. split; [done|]. set_solver.
    + right. exists (n :: l1), node, l2, c', msgs, k'. split_and!; try done. set_solver.
Qed.

Lemma candidates_have_sender nm senders t n :
  n ∈ schedule_candidates nm senders t → is_Some (senders !! ni_node_id n).
Proof.
  unfold schedule_candidates. rewrite sort_by_elem_of, elem_of_filter_bool. intros [He _].
  unfold schedule_eligible in He. destruct (bool_decide (is_Some _)) eqn:E; [|done].
  by apply bool_decide_eq_true in E.
Qed.

(** The first accepting candidate has the least load of the accepting ones. *)
Lemma first_accepting_min nm senders chans t l1 node l2 :
  schedule_candidates nm senders t = l1 ++ node :: l2 →
  (∀ n, n ∈ l1 → node_accepts senders chans n = false) →
  ∀ n, n ∈ schedule_candidates nm senders t → node_accepts senders chans n = true →
    load_leb node n = true.
Proof.
  intros E Hl1 n Hn Ha. rewrite E, elem_of_app in Hn.
  assert (StronglySorted (λ x y, load_leb x y = true) (schedule_candidates nm senders t)) as Hs.
  { apply sort_by_sorted; [apply load_leb_total|apply load_leb_trans]. }
  rewrite E in Hs. destruct Hn as [Hn|[->|Hn]%elem_of_cons].
  - by rewrite (Hl1 n Hn) in Ha.
  - by destruct (load_leb_total node node).
  - clear E Hl1. induction l1 as [|x l1 IH]; simpl in Hs; inversion_clear Hs as [|?? Hs' Hx]; [|auto].
    rewrite Forall_forall in Hx. by apply Hx.
Qed.

(** One priority whose head could not be placed is passed over. *)
Lemma schedule_spec_skip nm senders env s s1 chans p ps s' chans' r :
  p ∉ ps → blocked nm senders chans (queue_of s p) →
  s1 = set_queue s p (put_back senders (queue_of s p)) ∨ (s1 = s ∧ queue_of s p = []) →
  schedule_spec nm senders env s1 chans ps s' chans' r →
  schedule_spec nm senders env s chans (p :: ps) s' chans' r.
Proof.
  intros Hni Hb Hs1 Hspec.
  assert (∀ p', queue_of s1 p' =
    if decide (p' = p) then put_back senders (queue_of s p) else queue_of s p') as Hq.
  { intros p'. destruct Hs1 as [->|[-> E]].
    - rewrite queue_of_set. repeat case_decide; congruence.
    - case_decide; [|done]. subst. by rewrite E. }
  assert (running_tasks s1 = running_tasks s ∧ completed_tasks s1 = completed_tasks s ∧
    task_timeout_secs s1 = task_timeout_secs s) as (Er & Ec & Et).
  { destruct Hs1 as [->|[-> _]]; done. }
  destruct Hspec as [ps s' Hbl Hqs Hr Hc|before p0 after t q node c msgs k s' Hbl Hq0 Hin Hmin Hse Hch Hqs Hr Hc].
  - constructor.
    + intros p' [->|Hp']%elem_of_cons; [done|]. specialize (Hbl p' Hp'). rewrite Hq in Hbl.
      case_decide; [congruence|done].
    + intros p'. rewrite Hqs, Hq. repeat case_decide; subst; set_solver.
    + congruence.
    + congruence.
  - assert (assignment_for s env k t = assignment_for s1 env k t) as Ea.
    { unfold assignment_for, deadline_from. by rewrite Et. }
    rewrite <-Ea. rewrite app_comm_cons.
    apply (spec_scheduled nm senders env s chans (p :: before) p0 after t q node c msgs k); try done.
    + intros p' [->|Hp']%elem_of_cons; [done|]. specialize (Hbl p' Hp'). rewrite Hq in Hbl.
      case_decide; [set_solver|done].
    + rewrite Hq in Hq0. case_decide; [set_solver|done].
    + intros p'. rewrite Hqs, Hq. repeat case_decide; subst; set_solver.
    + rewrite Hr, Er. unfold running_of, deadline_from. by rewrite Et.
    + congruence.
Qed.

Lemma schedule_loop_spec nm senders env ps k s chans :
  NoDup ps →
  ∃ s' chans' r, schedule_loop nm senders env ps k s chans = Some (s', chans', r) ∧
    schedule_spec nm senders env s chans ps s' chans' r.
Proof.
  revert k s. induction ps as [|p ps IH]; intros k s Hnd; simpl.
  { exists s, chans, None. split; [done|]. constructor; set_solver. }
  apply NoDup_cons in Hnd as [Hni Hnd].
  destruct (pending_tasks s !! p) as [[|t q]|] eqn:Hq.
  1, 3: assert (queue_of s p = []) as Hq' by (unfold queue_of; by rewrite Hq);
    destruct (IH k s Hnd) as (s' & chans' & r & -> & Hs); exists s', chans', r; split; [done|];
    apply (schedule_spec_skip nm senders env s s chans p ps s' chans' r);
    [done|rewrite Hq'; by intros ?|by right|done].
  assert (queue_of s p = t :: q) as Hq' by (unfold queue_of; by rewrite Hq).
  change (set_pending s (<[p:=q]> (pending_tasks s))) with (set_queue s p q).
  destruct (try_candidates_spec (set_queue s p q) senders env chans k t
    (schedule_candidates nm senders t)) as [(k' & -> & Hl)|(l1 & node & l2 & c & msgs & k' & Ecands & Hl & Hse & Hch & ->)].
  - apply candidates_have_sender.
  - rewrite (put_back_queue s p q). destruct (IH k' (set_queue s p (bump_retry senders t :: q)) Hnd)
      as (s' & chans' & r & -> & Hs). exists s', chans', r. split; [done|].
    eapply schedule_spec_skip; [done| |left; by rewrite Hq'|exact Hs].
    rewrite Hq'. by intros ? [= <-].
  - eexists _, _, _. split; [done|].
    apply (spec_scheduled nm senders env s chans [] p ps t q node c msgs k'); try done.
    + intros ? ?%elem_of_nil. done.
    + rewrite Ecands. set_solver.
    + by apply (first_accepting_min _ _ chans t l1 node l2).
    + intros p'. change (queue_of (set_queue s p q) p' = if decide (p' = p) then q else queue_of s p').
      rewrite queue_of_set. repeat case_decide; congruence.
Qed.

Lemma sched_run_counter s ops :
  (0 ≤ task_counter s)%Z → (task_counter s + zlen ops ≤ u64_max)%Z →
  (0 ≤ task_counter (sched_run s ops) ≤ task_counter s + zlen ops)%Z.
Proof.
  revert s. induction ops as [|op ops IH]; intros s Hpos Hc; unfold zlen in *; simpl in *; [lia|].
  destruct (sched_apply_counter s op) as [E|E];
    rewrite ?wrap_small in E by (unfold u64_max in *; lia);
    specialize (IH (sched_apply s op).1); lia.
Qed.

Lemma run_phase mr to ops ops' id ph :
  (0 ≤ mr)%Z → (zlen (ops ++ ops') ≤ u64_max)%Z →
  has_phase (reach mr to ops) id ph →
  ∃ ph', has_phase (reach mr to (ops ++ ops')) id ph' ∧ rtc phase_step ph ph'.
Proof.
  intros Hmr Hlen Hph. unfold zlen in Hlen. rewrite length_app in Hlen.
  assert (task_counter (reach mr to ops) ≤ zlen ops)%Z as Hc.
  { pose proof (sched_run_counter (TaskScheduler_new mr to) ops ltac:(done)) as Hc.
    simpl in Hc. unfold zlen in *. unfold reach. lia. }
  unfold reach, sched_run. rewrite foldl_app.
  eapply refines_phase; [|exact Hph]. apply sched_run_refines.
  - apply reach_wf; [done|]. unfold zlen. lia.
  - unfold reach, sched_run, zlen in *. rewrite ?length_app in *. lia.
Qed.

(** What [get_task_status] reports of a phase. *)
Definition phase_status (ph : Phase) : option TaskStatus :=
  match ph with
  | PQueued => Some StatusQueued
  | PRunning _ => Some StatusRunning
  | PTerminal st => Some st
  | PUnknown | PForgotten => None
  end.

Lemma status_phase s id info :
  get_task_status s id = Some info →
  ∃ ph, has_phase s id ph ∧ phase_status ph = Some (tsi_status info).
Proof.
  unfold get_task_status. destruct (running_tasks s !! id) as [r|] eqn:Hr.
  { intros [= <-]. eexists. split; [by apply hp_running|done]. }
  destruct (completed_tasks s !! id) as [c|] eqn:Hc.
  { intros [= <-]. eexists. split; [by apply hp_terminal|done]. }
  destruct (find_pending s id) as [[[p pos] t]|] eqn:Hp; [|done].
  intros [= <-]. eexists. split; [apply hp_queued|done].
  apply find_pending_Some in Hp as [Hq <-]. exists p, t. split; [by eapply list_elem_of_lookup_2|done].
Qed.

(** ** Properties *)

(** C1. After any sequence of submissions, results, cancellations, timeout
    sweeps and scheduling rounds from a fresh scheduler, the three stores are
    consistent: a task is in one of them at most, and once in its queue; a queued
    task sits in the queue of its priority with a retry count between zero and
    its maximum; every identifier in a store was issued; finished tasks have a
    final status and are at most 500. *)
Theorem scheduler_invariant mr to ops :
  (0 ≤ mr)%Z → (zlen ops ≤ u64_max)%Z → sched_wf (reach mr to ops).
Proof. apply reach_wf. Qed.

(** C2. Along any run every task moves only along the life cycle: submitted,
    running on a node, finished or cancelled, eventually forgotten; it never
    returns to an earlier phase and never changes its outcome. *)
Theorem scheduler_refines_lifecycle mr to ops ops' id ph :
  (0 ≤ mr)%Z → (zlen (ops ++ ops') ≤ u64_max)%Z →
  has_phase (reach mr to ops) id ph →
  ∃ ph', has_phase (reach mr to (ops ++ ops')) id ph' ∧ rtc phase_step ph ph'.
Proof. apply run_phase. Qed.

(** C9. Once [get_task_status] reports a task as completed, failed, cancelled
    or timed out, no later operation makes it report anything else: it gives the
    same status or, when the task was evicted, nothing. *)
Theorem final_status_stable mr to ops ops' id info info' :
  (0 ≤ mr)%Z → (zlen (ops ++ ops') ≤ u64_max)%Z →
  get_task_status (reach mr to ops) id = Some info → is_terminal (tsi_status info) →
  get_task_status (reach mr to (ops ++ ops')) id = Some info' →
  tsi_status info' = tsi_status info.
Proof.
  intros Hmr Hlen Hs Ht Hs'.
  assert (zlen ops ≤ u64_max)%Z as Hlen1 by (unfold zlen in *; rewrite length_app in Hlen; lia).
  destruct (status_phase _ _ _ Hs) as (ph & Hph & Est).
  destruct (status_phase _ _ _ Hs') as (ph' & Hph' & Est').
  assert (ph = PTerminal (tsi_status info)) as ->.
  { unfold is_terminal in Ht. destruct ph; simpl in Est; intuition congruence. }
  destruct (run_phase mr to ops ops' id _ Hmr Hlen Hph) as (ph2 & Hph2 & Hsteps).
  assert (ph2 = ph') as -> 
    by (eapply (has_phase_det (reach mr to (ops ++ ops'))); [by apply reach_wf|done..]).
  destruct (phase_terminal_stable _ _ Hsteps) as [->| ->]; simpl in *; congruence.
Qed.

Lemma submitted_ids_range s ops :
  (0 ≤ task_counter s)%Z → (task_counter s + zlen ops ≤ u64_max)%Z →
  NoDup (submitted_ids s ops) ∧
  ∀ id, id ∈ submitted_ids s ops → ∃ n, (task_counter s ≤ n)%Z ∧ id = task_id_of_counter n.
Proof.
  revert s. induction ops as [|op ops IH]; intros s Hpos Hc.
  { split; [constructor|]. by intros ? ?%elem_of_nil. }
  unfold zlen in *. simpl in Hc. cbn [submitted_ids].
  destruct (sched_apply s op) as [s' o] eqn:E.
  pose proof (sched_apply_counter s op) as Hs. rewrite E in Hs. simpl in Hs.
  rewrite wrap_small in Hs by (unfold u64_max in *; lia).
  destruct (IH s') as [Hnd Hin]; [lia..|].
  assert (o = None ∨ (o = Some (task_id_of_counter (task_counter s)) ∧
    task_counter s' = task_counter s + 1)%Z) as [->|[-> Ec]].
  { destruct op; simpl in E; simplify_eq/=; auto. right. split; [done|].
    rewrite wrap_small by (unfold u64_max in *; lia). done. }
  - split; [done|]. intros id (n & ? & ->)%Hin. exists n. split; [lia|done].
  - simpl. split.
    + apply NoDup_cons. split; [|done]. intros (n & ? & E')%Hin.
      apply task_id_of_counter_inj in E'; lia.
    + intros id [->|(n & ? & ->)%Hin]%elem_of_cons; eexists; (split; [|reflexivity]); lia.
Qed.

(** No two submissions of a run are given the same task identifier, as long
    as the 64-bit counter has not wrapped around. *)
Theorem submitted_ids_unique mr to ops :
  (zlen ops ≤ u64_max)%Z → NoDup (submitted_ids (TaskScheduler_new mr to) ops).
Proof. intros Hlen. by apply (submitted_ids_range (TaskScheduler_new mr to) ops). Qed.

(** C3. [schedule_next] never panics, and does what its specification says: it
    hands the head of the most urgent queue that some eligible node accepts to
    the least loaded such node, sends that node exactly the assignment, records
    the task as running there, puts every more urgent head back with its retry
    count bumped, and leaves less urgent queues alone; it returns nothing
    exactly when no head can be placed. *)
Theorem schedule_next_spec nm senders env s chans :
  ∃ s' chans' r, schedule_next nm senders env s chans = Some (s', chans', r) ∧
    schedule_spec nm senders env s chans priorities s' chans' r.
Proof.
  apply schedule_loop_spec. apply (bool_decide_unpack (NoDup priorities)). by vm_compute.
Qed.

(** *** Completion, cancellation, timeouts *)

(** The notification of a result: one message when the receiver is alive. *)
Definition notified (s s' : TaskScheduler) (rs : list TaskResult) : Prop :=
  result_tx s' = if ch_open (result_tx s) then MkChan true (ch_msgs (result_tx s) ++ rs)
                 else result_tx s.

(** The task is recorded as finished unless the store was full. *)
Definition recorded (s s' : TaskScheduler) (c : CompletedTask) : Prop :=
  size (completed_tasks s) < 500 → completed_tasks s' = <[ct_task_id c := c]> (completed_tasks s).

Lemma notify_fields s r :
  pending_tasks (notify s r) = pending_tasks s ∧ running_tasks (notify s r) = running_tasks s ∧
  completed_tasks (notify s r) = completed_tasks s.
Proof. unfold notify. by case_match. Qed.

Lemma notify_notified s r : notified s (notify s r) [r].
Proof. unfold notified, notify. by destruct (ch_open (result_tx s)) eqn:E. Qed.

Lemma store_completed_recorded s c : recorded s (store_completed_task s c) c.
Proof.
  intros Hs. unfold store_completed_task. case_decide as Hd; [|done].
  rewrite map_size_insert in Hd. destruct (_ !! _); simpl in Hd; lia.
Qed.

Lemma finish_fields s c r :
  let s' := notify (store_completed_task s c) r in
  pending_tasks s' = pending_tasks s ∧ running_tasks s' = running_tasks s ∧
  recorded s s' c ∧ notified s s' [r].
Proof.
  intros s'. destruct (notify_fields (store_completed_task s c) r) as (Hp & Hr & Hc).
  destruct (store_completed_fields s c) as (Hp' & Hr' & _ & _ & _ & Ht). unfold s'. split_and!.
  - by rewrite Hp.
  - by rewrite Hr.
  - intros Hs. rewrite Hc. by apply store_completed_recorded.
  - pose proof (notify_notified (store_completed_task s c) r) as Hn.
    unfold notified in *. by rewrite Ht in Hn.
Qed.

(** C10. A result for a running task ends it as completed or failed according to
    the result, keeps its command, context, node and start, and notifies once; a
    result for any other identifier changes nothing. *)
Theorem complete_task_branches s now id node result :
  let s' := complete_task s now id node result in
  match running_tasks s !! id with
  | None => s' = s
  | Some r =>
      pending_tasks s' = pending_tasks s ∧ running_tasks s' = delete id (running_tasks s) ∧
      recorded s s' (MkCompletedTask id (rt_command r) (rt_context r) (rt_priority r) (rt_node_id r)
        (rt_started_at r) now (if cr_success result then StatusCompleted else StatusFailed) result) ∧
      notified s s' [MkTaskResult id node result]
  end.
Proof.
  unfold complete_task. destruct (running_tasks s !! id) as [r|]; [|done].
  by destruct (finish_fields (set_running s (delete id (running_tasks s)))
    (completed_of_running id r now (terminal_status_from_result result) result)
    (MkTaskResult id node result)) as (? & ? & ? & ?).
Qed.

(** What is kept of the finished tasks [m] when they are stored: all, up to 500;
    beyond, all but the 250 that finished first. *)
Definition kept_of (m m' : gmap TaskId CompletedTask) : Prop :=
  size m' ≤ 500 ∧ m' ⊆ m ∧ (size m ≤ 500 → m' = m) ∧
  (500 < size m → size m' = 251 ∧
     ∀ k k' x x', m !! k = Some x → m' !! k = None → m' !! k' = Some x' →
       (ct_completed_at x ≤ ct_completed_at x')%Z).

Lemma store_completed_kept s c :
  size (completed_tasks s) ≤ 500 →
  kept_of (<[ct_task_id c := c]> (completed_tasks s)) (completed_tasks (store_completed_task s c)).
Proof.
  intros Hs. set (m := <[ct_task_id c := c]> (completed_tasks s)). set (m' := completed_tasks (store_completed_task s c)).
  split; [by apply store_completed_size|].
  assert (∀ k, m' !! k = if decide (k ∈ evicted m) then None else m !! k) as Hl
    by apply store_completed_lookup.
  split; [|split].
  - apply map_subseteq_spec. intros k x. rewrite Hl. by case_decide.
  - intros Hm. apply map_eq. intros k. rewrite Hl. case_decide as Hd; [|done].
    unfold evicted in Hd. rewrite decide_False in Hd by lia. by apply elem_of_nil in Hd.
  - intros Hm. split.
    + unfold m'. rewrite store_completed_eq. simpl. fold m.
      rewrite foldl_delete_size by (apply evicted_NoDup || apply evicted_in).
      rewrite evicted_length, decide_True by done. unfold m in *. rewrite map_size_insert in *.
      destruct (_ !! _); simpl in *; lia.
    + intros k k' x x' Hk Hk' Hx'. rewrite Hl in Hk', Hx'. repeat case_decide; try done; [|congruence].
      by apply (evicted_oldest m k k').
Qed.

Lemma finish_kept s c r :
  size (completed_tasks s) ≤ 500 →
  let s' := notify (store_completed_task s c) r in
  pending_tasks s' = pending_tasks s ∧ running_tasks s' = running_tasks s ∧ task_counter s' = task_counter s ∧
  kept_of (<[ct_task_id c := c]> (completed_tasks s)) (completed_tasks s') ∧ notified s s' [r].
Proof.
  intros Hs s'. destruct (finish_fields s c r) as (Hp & Hr & _ & Hn).
  destruct (notify_fields (store_completed_task s c) r) as (_ & _ & Hc).
  destruct (store_completed_fields s c) as (_ & _ & Ht & _). unfold s'. split_and!; try done.
  - unfold notify. by case_match.
  - rewrite Hc. by apply store_completed_kept.
Qed.

(** C11. Cancelling, exactly.  A queued task leaves its queue, a running one the
    table, and nothing else of either changes; it is stored as cancelled now, with
    its command, context and priority (under the node it ran on, or none), and
    noticed once.  Of the other finished tasks all stay, unless this is the 501st:
    then the 250 that finished first are dropped.  An identifier that is neither
    queued nor running is an error. *)
Theorem cancel_task_branches s now id :
  sched_wf s →
  let cancelled := result_failure (execution_failed "Task cancelled") in
  match TaskScheduler_cancel_task s now id with
  | Ok s' => task_counter s' = task_counter s ∧
      ((∃ p pos t, queue_of s p !! pos = Some t ∧ qt_task_id t = id ∧
          queue_of s' p = delete pos (queue_of s p) ∧ (∀ q, q ≠ p → queue_of s' q = queue_of s q) ∧
          running_tasks s' = running_tasks s ∧
          kept_of (<[id := MkCompletedTask id (qt_command t) (qt_context t) (qt_priority t) (MkNodeId "pending-cancelled")
                             (qt_created_at t) now StatusCancelled cancelled]> (completed_tasks s)) (completed_tasks s') ∧
          notified s s' [MkTaskResult id (MkNodeId "pending-cancelled") cancelled]) ∨
       (∃ r, running_tasks s !! id = Some r ∧ ¬ is_pending s id ∧
          pending_tasks s' = pending_tasks s ∧ running_tasks s' = delete id (running_tasks s) ∧
          kept_of (<[id := MkCompletedTask id (rt_command r) (rt_context r) (rt_priority r) (rt_node_id r)
                             (rt_started_at r) now StatusCancelled cancelled]> (completed_tasks s)) (completed_tasks s') ∧
          notified s s' [MkTaskResult id (rt_node_id r) cancelled]))
  | Err e => e = ETask ("Task not found: " +:+ task_id_str id) ∧
      ¬ is_pending s id ∧ running_tasks s !! id = None
  end.
Proof.
  intros Hwf cancelled. unfold TaskScheduler_cancel_task. pose proof (sw_bound s Hwf) as Hb.
  destruct (find_pending s id) as [[[p pos] t]|] eqn:Hf.
  - apply find_pending_Some in Hf as [Hpos <-]. rewrite map_update_queue by done.
    set (s1 := set_queue s p _).
    destruct (finish_kept s1 (completed_of_queued t now) (MkTaskResult (qt_task_id t) pending_cancelled cancelled_result) Hb)
      as (Ep & Er & Ec & Hk & Hn).
    split; [exact Ec|]. left. exists p, pos, t. split; [done|]. split; [done|].
    assert (∀ q, queue_of (notify (store_completed_task s1 (completed_of_queued t now))
      (MkTaskResult (qt_task_id t) pending_cancelled cancelled_result)) q = queue_of s1 q) as Eq.
    { intros q. unfold queue_of. by rewrite Ep. }
    unfold s1 in Eq. setoid_rewrite queue_of_set in Eq.
    split; [by rewrite Eq, decide_True|]. split; [intros q Hq; by rewrite Eq, decide_False|].
    split; [by rewrite Er|]. split; [exact Hk|exact Hn].
  - apply find_pending_None in Hf. destruct (running_tasks s !! id) as [r|] eqn:Hr; [|done].
    set (s1 := set_running s _). set (c := completed_of_running _ _ _ _ _).
    destruct (finish_kept s1 c (MkTaskResult id (rt_node_id r) cancelled_result) Hb) as (Ep & Er & Ec & Hk & Hn).
    split; [exact Ec|]. right. exists r. split_and!; try done.
Qed.

Lemma time_out_fold now ids s :
  NoDup ids → (∀ id, id ∈ ids → is_Some (running_tasks s !! id)) →
  let s' := foldl (time_out_one now) s ids in
  pending_tasks s' = pending_tasks s ∧
  (∀ id, running_tasks s' !! id = if decide (id ∈ ids) then None else running_tasks s !! id) ∧
  ∃ rs, tr_task_id <$> rs = ids ∧ Forall (λ r, tr_result r = timeout_result) rs ∧ notified s s' rs.
Proof.
  revert s. induction ids as [|id ids IH]; intros s Hnd Hin; cbn [foldl].
  { split; [done|]. split; [intros id; case_decide as Hd; [by apply elem_of_nil in Hd|done]|].
    exists []. split_and!; [done|constructor|]. unfold notified. rewrite app_nil_r.
    by destruct (result_tx s) as [[] ?]. }
  apply NoDup_cons in Hnd as [Hni Hnd]. destruct (Hin id) as [r Hr]; [set_solver|].
  unfold time_out_one at 2 4 6. rewrite Hr.
  set (s1 := set_running s _). set (c := completed_of_running _ _ _ _ _).
  destruct (finish_fields s1 c (MkTaskResult id (rt_node_id r) timeout_result)) as (Ep & Er & _ & Hnot).
  set (s2 := notify (store_completed_task s1 c) _) in *.
  destruct (IH s2 Hnd) as (Hp & Hrun & rs & Hids & Hall & Hn).
  { intros id' Hid'. rewrite Er. simpl. rewrite lookup_delete_ne by set_solver. apply Hin. set_solver. }
  split_and!.
  - by rewrite Hp.
  - intros id'. rewrite Hrun, Er. simpl. rewrite lookup_delete. repeat case_decide; set_solver.
  - exists (MkTaskResult id (rt_node_id r) timeout_result :: rs). split_and!.
    + by rewrite fmap_cons, Hids.
    + by constructor.
    + unfold notified in *. rewrite Hn, Hnot. simpl. destruct (result_tx s) as [[] ms]; simpl; [|done].
      by rewrite <-app_assoc.
Qed.

(** C12. A timeout sweep ends exactly the running tasks whose deadline has passed,
    each with one notification of a timeout error; it touches nothing else. *)
Theorem scheduler_check_timeouts_exact s now :
  let '(s', ids) := check_timeouts s now in
  NoDup ids ∧
  (∀ id, id ∈ ids ↔ ∃ r, running_tasks s !! id = Some r ∧ (rt_timeout_at r < now)%Z) ∧
  pending_tasks s' = pending_tasks s ∧
  (∀ id, running_tasks s' !! id = if decide (id ∈ ids) then None else running_tasks s !! id) ∧
  ∃ rs, tr_task_id <$> rs = ids ∧ Forall (λ r, tr_result r = timeout_result) rs ∧ notified s s' rs.
Proof.
  unfold check_timeouts.
  pose proof (filter_keys_spec (λ r, is_timed_out now r) (running_tasks s)) as [Hnd Hin].
  set (ids := (List.filter _ _).*1) in *. split; [done|]. split.
  - intros id. rewrite Hin. unfold is_timed_out. by setoid_rewrite bool_decide_eq_true.
  - apply time_out_fold; [done|]. intros id (r & Hr & _)%Hin. eauto.
Qed.

(** C13. Recording a finished task keeps everything while at most 500 are stored;
    beyond that exactly the 250 tasks that finished first are dropped, so the
    store never holds more than 500. *)
Theorem store_completed_task_bounded s c :
  size (completed_tasks s) ≤ 500 →
  let m := <[ct_task_id c := c]> (completed_tasks s) in
  let m' := completed_tasks (store_completed_task s c) in
  size m' ≤ 500 ∧ m' ⊆ m ∧ (size m ≤ 500 → m' = m) ∧
  (500 < size m → size m' = 251 ∧
     ∀ k k' x x', m !! k = Some x → m' !! k = None → m' !! k' = Some x' →
       (ct_completed_at x ≤ ct_completed_at x')%Z).
Proof. intros Hs. by apply store_completed_kept. Qed.
End SchedulerRuns.

(** ** Runs at concrete inputs *)

Section SchedulerExamples.
#[local] Existing Instance json_trees.
#[local] Existing Instance canonical_order.
#[local] Instance demo_files : FileSystem := tree_fs [].
#[local] Instance demo_text : SendErrorText := "channel closed".

Definition demo_context : TaskContext :=
  TaskContext_new (MkUserId "u") (MkSessionId "s") "cli" 0.
Definition demo_command : Command := CFile (FExists "/ws/a").
Definition demo_env : call_env := MkCallEnv Z.of_nat (λ n, MkMessageId (display_u (Z.of_nat n))).
Definition demo_nodes : NodeManager := nm_apply (NodeManager_new 10 30) (demo_register "n1" "w1").
Definition demo_submit (p : Priority) : SchedOp :=
  SoSubmit 5 demo_command demo_context p None [] None.
Definition demo_schedule : SchedOp :=
  SoSchedule demo_nodes {[MkNodeId "n1" := 0]} demo_env {[0 := MkChan true []]}.
Definition demo_ok : CommandResult := result_success ONone.
Definition demo_complete (n : Z) : SchedOp :=
  SoComplete 9 (task_id_of_counter n) (MkNodeId "n1") demo_ok.
Definition demo_ops : list SchedOp :=
  [demo_submit Low; demo_submit Urgent; demo_schedule; demo_complete 1].

(** The urgent task runs first although it was submitted second. *)
Example demo_status :
  tsi_status <$> get_task_status (reach 3 60 demo_ops) (task_id_of_counter 1) = Some StatusCompleted
  ∧ tsi_status <$> get_task_status (reach 3 60 demo_ops) (task_id_of_counter 0) = Some StatusQueued.
Proof. by vm_compute. Qed.

Lemma scheduler_invariant_witness : sched_wf (reach 3 60 demo_ops).
Proof. apply (scheduler_invariant 3 60 demo_ops); [lia|by vm_compute]. Defined.

Lemma scheduler_refines_lifecycle_witness :
  ∃ ph', has_phase (reach 3 60 (demo_ops ++ [SoCancel 10 (task_id_of_counter 0)])) (task_id_of_counter 1) ph' ∧
    rtc phase_step (PTerminal StatusCompleted) ph'.
Proof.
  apply (scheduler_refines_lifecycle 3 60 demo_ops [SoCancel 10 (task_id_of_counter 0)]
    (task_id_of_counter 1) (PTerminal StatusCompleted)); [lia|by vm_compute|].
  assert (ct_status <$> completed_tasks (reach 3 60 demo_ops) !! task_id_of_counter 1
    = Some StatusCompleted) as Es by (vm_compute; reflexivity).
  apply fmap_Some in Es as (c & E & ->). exact (hp_terminal _ _ c E).
Defined.

Lemma final_status_stable_witness :
  let late := demo_ops ++ [SoCancel 10 (task_id_of_counter 1); demo_complete 1; SoCheckTimeouts 99] in
  tsi_status <$> get_task_status (reach 3 60 late) (task_id_of_counter 1) = Some StatusCompleted.
Proof.
  intros late. subst late.
  assert (tsi_status <$> get_task_status (reach 3 60 demo_ops) (task_id_of_counter 1)
    = Some StatusCompleted) as Es by (vm_compute; reflexivity).
  apply fmap_Some in Es as (i & E & Ei).
  set (late := [SoCancel 10 (task_id_of_counter 1); demo_complete 1; SoCheckTimeouts 99]).
  assert (is_Some (get_task_status (reach 3 60 (demo_ops ++ late)) (task_id_of_counter 1))) as [i' E'].
  { apply (bool_decide_unpack (is_Some _)). vm_compute. exact I. }
  rewrite E'. simpl. f_equal. rewrite Ei.
  apply (final_status_stable 3 60 demo_ops late (task_id_of_counter 1) i i');
    [lia|by vm_compute|exact E|rewrite <-Ei; by left|exact E'].
Defined.

Lemma submitted_ids_unique_witness :
  NoDup (submitted_ids (TaskScheduler_new 3 60) [demo_submit Low; demo_schedule; demo_submit Low]).
Proof. apply (submitted_ids_unique 3 60 [demo_submit Low; demo_schedule; demo_submit Low]). by vm_compute. Defined.

Lemma cancel_task_branches_witness :
  match TaskScheduler_cancel_task (reach 3 60 demo_ops) 10 (task_id_of_counter 0) with
  | Ok s' => completed_tasks s' !! task_id_of_counter 0 ≠ None
  | Err _ => False
  end.
Proof.
  pose proof (cancel_task_branches (reach 3 60 demo_ops) 10 (task_id_of_counter 0)
    (reach_wf 3 60 demo_ops ltac:(lia) ltac:(by vm_compute))) as Hc. cbv zeta in Hc.
  assert (size (completed_tasks (reach 3 60 demo_ops)) = 1) as Hsize by (vm_compute; reflexivity).
  destruct (TaskScheduler_cancel_task (reach 3 60 demo_ops) 10 (task_id_of_counter 0)) as [s'|e] eqn:E.
  - destruct Hc as [_ [(p & pos & t & _ & _ & _ & _ & _ & (_ & _ & Hk & _) & _)|(r & _ & _ & _ & _ & (_ & _ & Hk & _) & _)]];
      (rewrite Hk; [by rewrite lookup_insert_eq|]); rewrite map_size_insert; destruct (_ !! _); simpl; lia.
  - assert (is_ok (TaskScheduler_cancel_task (reach 3 60 demo_ops) 10 (task_id_of_counter 0)) = true)
      as Eo by (vm_compute; reflexivity).
    rewrite E in Eo. discriminate.
Defined.

Lemma store_completed_task_bounded_witness :
  let s := reach 3 60 demo_ops in
  let c := MkCompletedTask (MkTaskId "x") demo_command demo_context Low (MkNodeId "n1") 1 2 StatusFailed demo_ok in
  size (completed_tasks (store_completed_task s c)) ≤ 500.
Proof.
  intros s c. assert (size (completed_tasks s) = 1) as Hs by (vm_compute; reflexivity).
  destruct (store_completed_task_bounded s c) as [Hb _]; [rewrite Hs; lia|exact Hb].
Defined.
End SchedulerExamples.
