(* ===== verification/SchedulerInterleaving.v ===== *)
(** [schedule_next] at the granularity of its lock acquisitions.  The method
    takes the head of a queue under one lock, sends the assignment without a
    lock, and records the running task under another; results, cancellations and
    timeout sweeps of other tasks of the program run in between. *)
From S2P Require Import Prelude Float32 Json ProtocolTypes ProtocolCommand ProtocolResult.
From S2P Require Import ProtocolMessage Channel Paths NodeManager TaskScheduler.
From S2P Require Import SchedulerFacts SchedulerTheorems.

Section Interleaving.
Context `{JsonValue, HashOrder, FileSystem, SendErrorText}.

(** The position of the one call of [schedule_next] that is followed. *)
Inductive schedule_pc :=
| ScIdle
| ScPopped (p : Priority) (t : QueuedTask)
| ScSent (t : QueuedTask) (n : NodeInfo).

Record sched_world := MkWorld {
  w_sched : TaskScheduler;
  w_chans : chan_store HubToNode;
  w_pc : schedule_pc
}.

Inductive micro_step (nm : NodeManager) (senders : gmap NodeId chan_id) :
    sched_world → sched_world → Prop :=
| ms_pop s chans p t q :
    queue_of s p = t :: q →
    micro_step nm senders (MkWorld s chans ScIdle) (MkWorld (set_queue s p q) chans (ScPopped p t))
| ms_send s chans p t n c msgs env k :
    n ∈ schedule_candidates nm senders t → senders !! ni_node_id n = Some c →
    chans !! c = Some (MkChan true msgs) →
    micro_step nm senders (MkWorld s chans (ScPopped p t))
      (MkWorld s (<[c := MkChan true (msgs ++ [assignment_for s env k t])]> chans) (ScSent t n))
| ms_record s chans t n started now :
    micro_step nm senders (MkWorld s chans (ScSent t n))
      (MkWorld (set_running s (<[qt_task_id t := running_of s t (ni_node_id n) started now]>
                                 (running_tasks s))) chans ScIdle)
| ms_put_back s chans p t :
    micro_step nm senders (MkWorld s chans (ScPopped p t))
      (MkWorld (set_pending s (map_update (λ queue, bump_retry senders t :: queue) p
                                 (pending_tasks s))) chans ScIdle)
| ms_other s chans pc op :
    (* a result, a cancellation or a timeout sweep *)
    match op with SoComplete _ _ _ _ | SoCancel _ _ | SoCheckTimeouts _ => True | _ => False end →
    micro_step nm senders (MkWorld s chans pc) (MkWorld (sched_apply s op).1 chans pc).

(** A task taken from its queue and not yet recorded is in none of the stores. *)
Lemma popped_invisible s p t q :
  sched_wf s → queue_of s p = t :: q → gone (set_queue s p q) (qt_task_id t).
Proof.
  intros Hwf Hq. destruct (queue_delete s p 0 t Hwf) as (_ & Hp & Hnp); [by rewrite Hq|].
  rewrite Hq in *. assert (is_pending s (qt_task_id t)) as Hpt by (apply Hp; by left).
  split_and!; [done|by apply (sw_pend_run s Hwf)|by apply (sw_pend_comp s Hwf)].
Qed.

Lemma gone_status s id : gone s id → get_task_status s id = None.
Proof.
  intros (Hp & Hr & Hc). unfold get_task_status. rewrite Hr, Hc.
  by apply find_pending_None in Hp as ->.
Qed.

Lemma gone_cancel s now id :
  gone s id → TaskScheduler_cancel_task s now id = Err (ETask ("Task not found: " +:+ task_id_str id)).
Proof.
  intros (Hp & Hr & _). unfold TaskScheduler_cancel_task. apply find_pending_None in Hp as ->.
  by rewrite Hr.
Qed.

Lemma gone_complete s now id node result : gone s id → complete_task s now id node result = s.
Proof. intros (_ & Hr & _). unfold complete_task. by rewrite Hr. Qed.

(** The timeout sweep records an overdue task when the store is empty and it is
    the only one running. *)
Lemma lone_timeout s id r now :
  running_tasks s = {[id := r]} → completed_tasks s = ∅ → (rt_timeout_at r < now)%Z →
  running_tasks (check_timeouts s now).1 !! id = None ∧
  ∃ c, completed_tasks (check_timeouts s now).1 !! id = Some c ∧ ct_status c = StatusTimeout.
Proof.
  intros Hr Hc Hlate. unfold check_timeouts.
  assert (hash_order (running_tasks s) = [(id, r)]) as ->.
  { apply Permutation_singleton_r. rewrite hash_order_perm, Hr. by rewrite map_to_list_singleton. }
  simpl. unfold is_timed_out. simpl. rewrite bool_decide_true by done. simpl.
  unfold time_out_one. rewrite Hr, lookup_singleton_eq.
  set (s1 := set_running s _). set (c := completed_of_running _ _ _ _ _).
  destruct (finish_fields s1 c (MkTaskResult id (rt_node_id r) timeout_result)) as (_ & Er & Hrec & _).
  rewrite Er. split; [simpl; by rewrite lookup_delete_eq|].
  exists c. rewrite Hrec; [|simpl; rewrite Hc, map_size_empty; lia]. simpl. by rewrite lookup_insert_eq.
Qed.

(** C15. A node can answer before the Hub has recorded that the task runs: the
    assignment is sent first and the running task is stored afterwards.  In that
    window the successful result is ignored, the task has no status and cannot
    be cancelled; afterwards it runs until its deadline and ends as timed out. *)
Theorem early_result_is_lost nm senders chans s p t n c msgs env k now_r result now late :
  sched_wf s → queue_of s p = [t] → running_tasks s = ∅ → completed_tasks s = ∅ →
  n ∈ schedule_candidates nm senders t → senders !! ni_node_id n = Some c →
  chans !! c = Some (MkChan true msgs) → cr_success result = true →
  (deadline_from s now < late)%Z →
  ∃ w_window w_end,
    rtc (micro_step nm senders) (MkWorld s chans ScIdle) w_window ∧
    w_chans w_window !! c = Some (MkChan true (msgs ++ [assignment_for s env k t])) ∧
    get_task_status (w_sched w_window) (qt_task_id t) = None ∧
    is_ok (TaskScheduler_cancel_task (w_sched w_window) now_r (qt_task_id t)) = false ∧
    complete_task (w_sched w_window) now_r (qt_task_id t) (ni_node_id n) result = w_sched w_window ∧
    rtc (micro_step nm senders) w_window w_end ∧
    tsi_status <$> get_task_status (w_sched w_end) (qt_task_id t) = Some StatusTimeout.
Proof.
  intros Hwf Hq Hr Hc Hn Hse Hch Hres Hlate.
  set (s1 := set_queue s p []). pose proof (popped_invisible s p t [] Hwf Hq) as Hgone. fold s1 in Hgone.
  set (chans1 := <[c := MkChan true (msgs ++ [assignment_for s1 env k t])]> chans).
  set (s2 := set_running s1 (<[qt_task_id t := running_of s1 t (ni_node_id n) now now]> (running_tasks s1))).
  assert (running_tasks s2 = {[qt_task_id t := running_of s1 t (ni_node_id n) now now]}) as Hr2
    by (simpl; by rewrite Hr).
  destruct (lone_timeout s2 (qt_task_id t) _ late Hr2 Hc Hlate) as (Hr3 & comp & Hcomp & Hst).
  exists (MkWorld s1 chans1 (ScSent t n)), (MkWorld (check_timeouts s2 late).1 chans1 ScIdle).
  cbn [w_sched w_chans].
  split_and!.
  - eapply rtc_l; [by apply ms_pop|]. by apply rtc_once, (ms_send nm senders s1 chans p t n c msgs env k).
  - unfold chans1. by rewrite lookup_insert_eq.
  - by apply gone_status.
  - by rewrite gone_cancel.
  - by apply gone_complete.
  - eapply rtc_l; [by apply (ms_record nm senders s1 chans1 t n now now)|]. fold s2.
    apply rtc_once. by apply (ms_other nm senders s2 chans1 ScIdle (SoCheckTimeouts late)).
  - unfold get_task_status. rewrite Hr3, Hcomp. simpl. by rewrite Hst.
Qed.
End Interleaving.

(** ** A concrete run *)

#[local] Existing Instance json_trees.
#[local] Existing Instance canonical_order.
#[local] Existing Instance demo_files.
#[local] Existing Instance demo_text.

Definition demo_task : QueuedTask :=
  MkQueuedTask (task_id_of_counter 0) demo_command demo_context Low 5 0 3 None [] None.
Definition demo_senders : gmap NodeId chan_id := {[MkNodeId "n1" := 0]}.

Lemma demo_candidate :
  ∃ n, n ∈ schedule_candidates demo_nodes demo_senders demo_task ∧ ni_node_id n = MkNodeId "n1".
Proof.
  assert (ni_node_id <$> schedule_candidates demo_nodes demo_senders demo_task = [MkNodeId "n1"]) as E
    by (vm_compute; reflexivity).
  destruct (schedule_candidates demo_nodes demo_senders demo_task) as [|n [|]]; try discriminate.
  exists n. split; [apply list_elem_of_singleton; reflexivity|]. by injection E.
Qed.

Lemma early_result_is_lost_witness :
  ∃ w, rtc (micro_step demo_nodes demo_senders)
    (MkWorld (reach 3 60 [demo_submit Low]) {[0 := MkChan true []]} ScIdle) w ∧
    tsi_status <$> get_task_status (w_sched w) (task_id_of_counter 0) = Some StatusTimeout.
Proof.
  destruct demo_candidate as (n & Hn & Hid).
  destruct (early_result_is_lost demo_nodes demo_senders {[0 := MkChan true []]}
    (reach 3 60 [demo_submit Low]) Low demo_task n 0 [] demo_env 0 8 demo_ok 7 (seconds 100)
    (reach_wf 3 60 [demo_submit Low] ltac:(lia) ltac:(by vm_compute))
    eq_refl eq_refl eq_refl Hn ltac:(rewrite Hid; reflexivity) eq_refl eq_refl ltac:(by vm_compute))
    as (w1 & w2 & Hs1 & _ & _ & _ & _ & Hs2 & Hst).
  exists w2. split; [by etrans|exact Hst].
Defined.
