(* ===== verification/SessionRuntime.v ===== *)
(** The session runtime of the Hub ([crates/uhorse-hub/src/session_runtime.rs]):
    the current turn of each session, its transcript, the bindings of tasks to
    turns and the lanes that serialise the work of a session.  Each method is one
    step; clock readings and fresh identifiers are arguments. *)
From S2P Require Import Prelude ProtocolTypes.

(** ** Data *)

Inductive TranscriptEventKind :=
| UserMessage | AssistantStep | ToolCallPlanned | ToolCallDispatched | ApprovalRequested
| ToolResultObserved | ApprovalApproved | ApprovalRejected | TurnResumed | PlannerRetry
| AssistantFinal | TurnFailed | TurnCancelled | TurnCompacted.

#[export] Instance TranscriptEventKind_eq_dec : EqDecision TranscriptEventKind.
Proof. solve_decision. Defined.

Record TranscriptEvent := MkTranscriptEvent {
  te_seq : Z;
  te_created_at : timestamp;
  te_kind : TranscriptEventKind;
  te_content : string
}.

Record SessionTranscript := MkSessionTranscript {
  st_turn_id : string;
  st_events : list TranscriptEvent
}.

Inductive TurnStatus :=
| TPlanning | TDispatching | TWaitingForTool | TWaitingForApproval | TWaitingForUser
| TResuming | TCompleted | TCancelled | TFailed.

Inductive ToolCallStatus := TcRunning | TcCompleted | TcFailed.

#[export] Instance TurnStatus_eq_dec : EqDecision TurnStatus.
Proof. solve_decision. Defined.
#[export] Instance ToolCallStatus_eq_dec : EqDecision ToolCallStatus.
Proof. solve_decision. Defined.

Record ToolCallState := MkToolCallState {
  tcs_tool_call_id : string;
  tcs_tool_name : string;
  tcs_task_id : option TaskId;
  tcs_status : ToolCallStatus
}.

Record SessionTurnState := MkSessionTurnState {
  tu_turn_id : string;
  tu_user_message : string;
  tu_status : TurnStatus;
  tu_step_count : Z;
  tu_max_steps : Z;
  tu_cancel_requested : bool;
  tu_planner_retry_count : Z;
  tu_max_planner_retries : Z;
  tu_compacted_summary : option string;
  tu_pruned_event_count : Z;
  tu_tool_call : option ToolCallState
}.

Record DingTalkReplyRoute := MkDingTalkReplyRoute {
  dr_conversation_id : string;
  dr_source_message_id : option string;
  dr_conversation_type : option string;
  dr_sender_user_id : option string;
  dr_sender_staff_id : option string;
  dr_session_webhook : option string;
  dr_session_webhook_expired_time : option Z;
  dr_robot_code : option string
}.

Record TaskContinuationBinding := MkTaskContinuationBinding {
  tb_session_key : string;
  tb_turn_id : string;
  tb_tool_call_id : string;
  tb_agent_id : string;
  tb_route : DingTalkReplyRoute
}.

(** A lane is the mutex of a session; a mutex is named by a number. *)
Record SessionRuntimeManager := MkSessionRuntimeManager {
  lanes : gmap string nat;
  turns : gmap string SessionTurnState;
  transcripts : gmap string SessionTranscript;
  task_bindings : gmap TaskId TaskContinuationBinding
}.

Record SessionMailboxSnapshot := MkSessionMailboxSnapshot {
  mb_session_key : string;
  mb_has_lane : bool;
  mb_active_task_binding_count : nat;
  mb_transcript_event_count : nat;
  mb_turn : option SessionTurnState
}.

Definition SessionRuntimeManager_new : SessionRuntimeManager := MkSessionRuntimeManager ∅ ∅ ∅ ∅.

Definition set_lanes (s : SessionRuntimeManager) l : SessionRuntimeManager :=
  MkSessionRuntimeManager l (turns s) (transcripts s) (task_bindings s).
Definition set_turns (s : SessionRuntimeManager) t : SessionRuntimeManager :=
  MkSessionRuntimeManager (lanes s) t (transcripts s) (task_bindings s).
Definition set_transcripts (s : SessionRuntimeManager) t : SessionRuntimeManager :=
  MkSessionRuntimeManager (lanes s) (turns s) t (task_bindings s).
Definition set_bindings (s : SessionRuntimeManager) b : SessionRuntimeManager :=
  MkSessionRuntimeManager (lanes s) (turns s) (transcripts s) b.

(** ** Updates of a turn *)

Definition set_turn_status (t : SessionTurnState) (st : TurnStatus) : SessionTurnState :=
  MkSessionTurnState (tu_turn_id t) (tu_user_message t) st (tu_step_count t) (tu_max_steps t)
    (tu_cancel_requested t) (tu_planner_retry_count t) (tu_max_planner_retries t)
    (tu_compacted_summary t) (tu_pruned_event_count t) (tu_tool_call t).
Definition set_tool_call (t : SessionTurnState) (c : option ToolCallState) : SessionTurnState :=
  MkSessionTurnState (tu_turn_id t) (tu_user_message t) (tu_status t) (tu_step_count t) (tu_max_steps t)
    (tu_cancel_requested t) (tu_planner_retry_count t) (tu_max_planner_retries t)
    (tu_compacted_summary t) (tu_pruned_event_count t) c.
Definition set_step_count (t : SessionTurnState) (n : Z) : SessionTurnState :=
  MkSessionTurnState (tu_turn_id t) (tu_user_message t) (tu_status t) n (tu_max_steps t)
    (tu_cancel_requested t) (tu_planner_retry_count t) (tu_max_planner_retries t)
    (tu_compacted_summary t) (tu_pruned_event_count t) (tu_tool_call t).
Definition set_cancel_requested (t : SessionTurnState) (b : bool) : SessionTurnState :=
  MkSessionTurnState (tu_turn_id t) (tu_user_message t) (tu_status t) (tu_step_count t) (tu_max_steps t)
    b (tu_planner_retry_count t) (tu_max_planner_retries t)
    (tu_compacted_summary t) (tu_pruned_event_count t) (tu_tool_call t).
Definition set_planner_retry (t : SessionTurnState) (n : Z) : SessionTurnState :=
  MkSessionTurnState (tu_turn_id t) (tu_user_message t) (tu_status t) (tu_step_count t) (tu_max_steps t)
    (tu_cancel_requested t) n (tu_max_planner_retries t)
    (tu_compacted_summary t) (tu_pruned_event_count t) (tu_tool_call t).
Definition set_compaction (t : SessionTurnState) (summary : string) (n : Z) : SessionTurnState :=
  MkSessionTurnState (tu_turn_id t) (tu_user_message t) (tu_status t) (tu_step_count t) (tu_max_steps t)
    (tu_cancel_requested t) (tu_planner_retry_count t) (tu_max_planner_retries t)
    (Some summary) n (tu_tool_call t).

Definition set_call_status (c : ToolCallState) (st : ToolCallStatus) : ToolCallState :=
  MkToolCallState (tcs_tool_call_id c) (tcs_tool_name c) (tcs_task_id c) st.

(** The tool call takes a status when no task is named or its own task is. *)
Definition settle_call (task : option TaskId) (st : ToolCallStatus) (t : SessionTurnState)
    : SessionTurnState :=
  set_tool_call t ((λ c, if bool_decide (task = None) || bool_decide (tcs_task_id c = task)
                         then set_call_status c st else c) <$> tu_tool_call t).

Definition update_turn (s : SessionRuntimeManager) (key : string)
    (f : SessionTurnState → SessionTurnState) : SessionRuntimeManager :=
  set_turns s (map_update f key (turns s)).

(** The operations that return the updated turn, [None] without one. *)
Definition update_turn_get (s : SessionRuntimeManager) (key : string)
    (f : SessionTurnState → SessionTurnState) : SessionRuntimeManager * option SessionTurnState :=
  (update_turn s key f, f <$> turns s !! key).

(** ** Operations *)

Definition lane_for (s : SessionRuntimeManager) (key : string) : SessionRuntimeManager * nat :=
  match lanes s !! key with
  | Some lane => (s, lane)
  | None => let lane := size (lanes s) in (set_lanes s (<[key := lane]> (lanes s)), lane)
  end.

Definition start_turn (s : SessionRuntimeManager) (now : timestamp) (turn_id key user_message : string)
    : SessionRuntimeManager * string :=
  let s1 := (lane_for s key).1 in
  let turn := MkSessionTurnState turn_id user_message TPlanning 0 4 false 0 1 None 0 None in
  let s2 := set_turns s1 (<[key := turn]> (turns s1)) in
  let transcript := MkSessionTranscript turn_id [MkTranscriptEvent 1 now UserMessage user_message] in
  (set_transcripts s2 (<[key := transcript]> (transcripts s2)), turn_id).

Definition begin_tool_call (s : SessionRuntimeManager) (tool_call_id key tool_name : string)
    : SessionRuntimeManager * option string :=
  match turns s !! key with
  | None => (s, None)
  | Some turn =>
      let turn' := set_tool_call (set_turn_status turn TDispatching)
        (Some (MkToolCallState tool_call_id tool_name None TcRunning)) in
      (set_turns s (<[key := turn']> (turns s)), Some tool_call_id)
  end.

Definition append_transcript_event (s : SessionRuntimeManager) (now : timestamp) (key : string)
    (kind : TranscriptEventKind) (content : string) : SessionRuntimeManager :=
  let transcript := default (MkSessionTranscript "" []) (transcripts s !! key) in
  let event := MkTranscriptEvent (zlen (st_events transcript) + 1) now kind content in
  set_transcripts s (<[key := MkSessionTranscript (st_turn_id transcript)
                                (st_events transcript ++ [event])]> (transcripts s)).

Definition transcript (s : SessionRuntimeManager) (key : string) : option SessionTranscript :=
  transcripts s !! key.

Definition bind_call (tool_call_id : string) (task : TaskId) (c : ToolCallState) : ToolCallState :=
  if decide (tcs_tool_call_id c = tool_call_id)
  then MkToolCallState (tcs_tool_call_id c) (tcs_tool_name c) (Some task) (tcs_status c)
  else c.

Definition bind_task_to_turn (s : SessionRuntimeManager) (now : timestamp) (task : TaskId)
    (binding : TaskContinuationBinding) : SessionRuntimeManager :=
  let key := tb_session_key binding in
  let call := tb_tool_call_id binding in
  let s1 := set_bindings s (<[task := binding]> (task_bindings s)) in
  let s2 := update_turn s1 key (λ t, let t' := set_turn_status t TWaitingForTool in
                                     set_tool_call t' (bind_call call task <$> tu_tool_call t')) in
  append_transcript_event s2 now key ToolCallDispatched (call +:+ ":" +:+ task_id_str task).

Definition task_binding (s : SessionRuntimeManager) (task : TaskId) : option TaskContinuationBinding :=
  task_bindings s !! task.
Definition find_task_binding : SessionRuntimeManager → TaskId → option TaskContinuationBinding :=
  task_binding.

Definition take_task_binding (s : SessionRuntimeManager) (task : TaskId)
    : SessionRuntimeManager * option TaskContinuationBinding :=
  (set_bindings s (delete task (task_bindings s)), task_bindings s !! task).

(** The removal of the binding of a named task. *)
Definition drop_binding (task : option TaskId) (s : SessionRuntimeManager) : SessionRuntimeManager :=
  match task with Some t => set_bindings s (delete t (task_bindings s)) | None => s end.

Definition complete_turn (s : SessionRuntimeManager) (key : string) (task : option TaskId)
    : SessionRuntimeManager :=
  drop_binding task
    (update_turn s key (λ t, settle_call task TcCompleted (set_turn_status t TCompleted))).

Definition fail_turn (s : SessionRuntimeManager) (key : string) (task : option TaskId)
    : SessionRuntimeManager :=
  drop_binding task
    (update_turn s key (λ t, settle_call task TcFailed (set_turn_status t TFailed))).

Definition cancel_turn (s : SessionRuntimeManager) (now : timestamp) (key : string)
    : SessionRuntimeManager :=
  let s1 := update_turn s key (λ t,
    settle_call None TcFailed (set_turn_status (set_cancel_requested t true) TCancelled)) in
  append_transcript_event s1 now key TurnCancelled "cancelled".

(** [+= 1] on a [u32] wraps in a release build. *)
Definition increment_step_count (s : SessionRuntimeManager) (key : string) :=
  update_turn_get s key (λ t, set_step_count t (wrap 32 (tu_step_count t + 1))).
Definition increment_planner_retry (s : SessionRuntimeManager) (key : string) :=
  update_turn_get s key (λ t, set_planner_retry t (wrap 32 (tu_planner_retry_count t + 1))).
Definition reset_planner_retry (s : SessionRuntimeManager) (key : string) : SessionRuntimeManager :=
  update_turn s key (λ t, set_planner_retry t 0).

Definition turn_state (s : SessionRuntimeManager) (key : string) : option SessionTurnState :=
  turns s !! key.

Definition mark_turn_resuming (s : SessionRuntimeManager) (key : string) (task : option TaskId) :=
  update_turn_get s key (λ t, set_turn_status (settle_call task TcCompleted t) TResuming).
Definition mark_waiting_for_approval (s : SessionRuntimeManager) (key : string) :=
  update_turn_get s key (λ t, set_turn_status t TWaitingForApproval).
Definition mark_waiting_for_user (s : SessionRuntimeManager) (key : string) :=
  update_turn_get s key (λ t, set_turn_status t TWaitingForUser).

Definition record_compaction (s : SessionRuntimeManager) (key summary : string) (pruned : Z)
    : SessionRuntimeManager :=
  update_turn s key (λ t, set_compaction t summary pruned).

(** *** Pruning *)

Definition is_key_event (k : TranscriptEventKind) : bool :=
  match k with
  | UserMessage | AssistantFinal | TurnCompacted | TurnCancelled | TurnFailed => true
  | _ => false
  end.

Definition set_seq (e : TranscriptEvent) (n : Z) : TranscriptEvent :=
  MkTranscriptEvent n (te_created_at e) (te_kind e) (te_content e).

(** The loop over the events with their index. *)
Fixpoint retain_events (tail_start index : nat) (es : list TranscriptEvent) : list TranscriptEvent :=
  match es with
  | [] => []
  | e :: es' =>
      if is_key_event (te_kind e) || (tail_start <=? index)%nat
      then e :: retain_events tail_start (S index) es'
      else retain_events tail_start (S index) es'
  end.

Definition renumber (es : list TranscriptEvent) : list TranscriptEvent :=
  imap (λ i e, set_seq e (Z.of_nat i + 1)) es.

Definition prune_events (tail_len : nat) (es : list TranscriptEvent) : list TranscriptEvent :=
  if decide (length es ≤ tail_len) then es
  else renumber (retain_events (saturating_sub (length es) tail_len) 0 es).

Definition prune_completed_turn_transcript (s : SessionRuntimeManager) (key : string) (tail_len : nat)
    : SessionRuntimeManager :=
  set_transcripts s (map_update (λ t, MkSessionTranscript (st_turn_id t)
    (prune_events tail_len (st_events t))) key (transcripts s)).

(** *** Snapshots *)

Section Snapshots.
Context `{HashOrder}.

Definition bindings_of (s : SessionRuntimeManager) (key : string) : nat :=
  length (List.filter (λ b, bool_decide (tb_session_key b = key)) (hash_values (task_bindings s))).

Definition mailbox_snapshot (s : SessionRuntimeManager) (key : string) : SessionMailboxSnapshot :=
  MkSessionMailboxSnapshot key (bool_decide (is_Some (lanes s !! key))) (bindings_of s key)
    (match transcripts s !! key with Some t => length (st_events t) | None => 0 end)
    (turns s !! key).

Definition session_keys (s : SessionRuntimeManager) : list string :=
  dedup (sort_by str_leb (hash_keys (turns s) ++ hash_keys (transcripts s) ++ hash_keys (lanes s))).

Definition mailbox_snapshots (s : SessionRuntimeManager) : list SessionMailboxSnapshot :=
  mailbox_snapshot s <$> session_keys s.
End Snapshots.
