(* ===== verification/SessionRuntimeFacts.v ===== *)
(** Correctness of the session runtime: consecutive event numbers, what pruning
    keeps, one lane per session, the snapshots, and the bindings of tasks. *)
From S2P Require Import Prelude ProtocolTypes SessionRuntime.

(** ** Event numbers *)

Definition numbered (es : list TranscriptEvent) : Prop :=
  ∀ i e, es !! i = Some e → te_seq e = (Z.of_nat i + 1)%Z.

(** An event without its number. *)
Definition strip (e : TranscriptEvent) : timestamp * TranscriptEventKind * string :=
  (te_created_at e, te_kind e, te_content e).

Lemma strip_seq_inj e1 e2 : strip e1 = strip e2 → te_seq e1 = te_seq e2 → e1 = e2.
Proof. destruct e1, e2. unfold strip. simpl. intros [= -> -> ->] ->. done. Qed.

(** Numbered lists are determined by their events without numbers. *)
Lemma numbered_strip_eq es1 es2 :
  numbered es1 → numbered es2 → strip <$> es1 = strip <$> es2 → es1 = es2.
Proof.
  intros H1 H2 Hs. apply list_eq. intros i.
  assert ((strip <$> es1) !! i = (strip <$> es2) !! i) as Hi by by rewrite Hs.
  rewrite !list_lookup_fmap in Hi.
  destruct (es1 !! i) as [e1|] eqn:E1, (es2 !! i) as [e2|] eqn:E2; simpl in Hi; try done.
  injection Hi as Hi. f_equal. apply strip_seq_inj; [by unfold strip; congruence|].
  by rewrite (H1 _ _ E1), (H2 _ _ E2).
Qed.

Lemma renumber_numbered es : numbered (renumber es).
Proof.
  intros i e. unfold renumber. rewrite list_lookup_imap.
  destruct (es !! i); simpl; [|done]. by intros [= <-].
Qed.

Lemma strip_renumber es : strip <$> renumber es = strip <$> es.
Proof.
  apply list_eq. intros i. rewrite !list_lookup_fmap. unfold renumber. rewrite list_lookup_imap.
  by destruct (es !! i).
Qed.

Lemma numbered_snoc es now kind content :
  numbered es → numbered (es ++ [MkTranscriptEvent (zlen es + 1) now kind content]).
Proof.
  intros Hn i e. rewrite lookup_app. destruct (es !! i) as [e'|] eqn:E; [naive_solver|].
  apply lookup_ge_None in E. intros Hi. apply list_lookup_singleton_Some in Hi as [Hi <-].
  simpl. unfold zlen. lia.
Qed.

(** ** Pruning *)

Definition is_key (e : TranscriptEvent) : bool := is_key_event (te_kind e).

Lemma retain_events_spec tail_start index es :
  retain_events tail_start index es =
  List.filter is_key (take (tail_start - index) es) ++ drop (tail_start - index) es.
Proof.
  revert index. induction es as [|e es IH]; intros index; simpl; [by rewrite take_nil, drop_nil|].
  rewrite IH. destruct (tail_start <=? index) eqn:E.
  - apply Nat.leb_le in E. rewrite orb_true_r.
    replace (tail_start - index) with 0 by lia. replace (tail_start - S index) with 0 by lia. done.
  - apply Nat.leb_gt in E. rewrite orb_false_r.
    replace (tail_start - index) with (S (tail_start - S index)) by lia. simpl.
    change (is_key_event (te_kind e)) with (is_key e). by destruct (is_key e).
Qed.

(** What is kept: the key events before the tail, and the tail. *)
Definition kept (tail_len : nat) (es : list TranscriptEvent) : list TranscriptEvent :=
  List.filter is_key (take (length es - tail_len) es) ++ drop (length es - tail_len) es.

Lemma prune_events_kept n es :
  prune_events n es = if decide (length es ≤ n) then es else renumber (kept n es).
Proof.
  unfold prune_events. case_decide; [done|]. f_equal. rewrite retain_events_spec.
  unfold kept, saturating_sub. by rewrite Nat.sub_0_r.
Qed.

Lemma strip_prune n es : strip <$> prune_events n es = strip <$> kept n es.
Proof.
  rewrite prune_events_kept. case_decide; [|apply strip_renumber].
  unfold kept. replace (length es - n) with 0 by lia. done.
Qed.

Lemma prune_numbered n es : numbered es → numbered (prune_events n es).
Proof. rewrite prune_events_kept. case_decide; [done|]. intros _. apply renumber_numbered. Qed.

Lemma filter_strip es1 es2 :
  strip <$> es1 = strip <$> es2 →
  strip <$> List.filter is_key es1 = strip <$> List.filter is_key es2.
Proof.
  revert es2. induction es1 as [|e1 es1 IH]; intros [|e2 es2]; simpl; try done.
  intros Hs. injection Hs as Hc Hk Ht Hs. apply IH in Hs.
  assert (is_key e1 = is_key e2) as -> by (unfold is_key; by rewrite Hk).
  destruct (is_key e2); [|done]. rewrite !fmap_cons, Hs. unfold strip. congruence.
Qed.

Lemma kept_strip n es1 es2 :
  strip <$> es1 = strip <$> es2 → strip <$> kept n es1 = strip <$> kept n es2.
Proof.
  intros Hs. assert (length es1 = length es2) as Hl.
  { apply (f_equal length) in Hs. by rewrite !length_fmap in Hs. }
  unfold kept. rewrite !fmap_app, Hl. f_equal.
  - apply filter_strip. by rewrite !fmap_take, Hs.
  - by rewrite !fmap_drop, Hs.
Qed.

Lemma filter_id es : Forall (λ e, is_key e = true) es → List.filter is_key es = es.
Proof. induction 1 as [|e es He _ IH]; simpl; [done|]. by rewrite He, IH. Qed.

Lemma kept_kept n es : n ≤ length es → kept n (kept n es) = kept n es.
Proof.
  intros Hn. unfold kept at 1 3.
  set (keys := List.filter is_key (take (length es - n) es)). set (tail := drop (length es - n) es).
  assert (length tail = n) as Ht by (unfold tail; rewrite length_drop; lia).
  assert (kept n es = keys ++ tail) as Hk by done. rewrite Hk, length_app, Ht.
  replace (length keys + n - n) with (length keys) by lia.
  rewrite take_app_length, drop_app_length. f_equal. apply filter_id.
  apply Forall_forall. intros e He. unfold keys in He. by apply elem_of_filter_bool in He as [? _].
Qed.

(** ** Runs of the runtime *)

Inductive srt_op :=
| RoLane (key : string)
| RoStart (now : timestamp) (turn_id key msg : string)
| RoBegin (call key tool : string)
| RoAppend (now : timestamp) (key : string) (kind : TranscriptEventKind) (content : string)
| RoBind (now : timestamp) (task : TaskId) (b : TaskContinuationBinding)
| RoTake (task : TaskId)
| RoComplete (key : string) (task : option TaskId)
| RoFail (key : string) (task : option TaskId)
| RoCancel (now : timestamp) (key : string)
| RoStep (key : string)
| RoResume (key : string) (task : option TaskId)
| RoWaitApproval (key : string)
| RoWaitUser (key : string)
| RoRetry (key : string)
| RoResetRetry (key : string)
| RoCompact (key summary : string) (n : Z)
| RoPrune (key : string) (tail_len : nat).

Definition srt_apply (s : SessionRuntimeManager) (op : srt_op) : SessionRuntimeManager :=
  match op with
  | RoLane key => (lane_for s key).1
  | RoStart now turn_id key msg => (start_turn s now turn_id key msg).1
  | RoBegin call key tool => (begin_tool_call s call key tool).1
  | RoAppend now key kind content => append_transcript_event s now key kind content
  | RoBind now task b => bind_task_to_turn s now task b
  | RoTake task => (take_task_binding s task).1
  | RoComplete key task => complete_turn s key task
  | RoFail key task => fail_turn s key task
  | RoCancel now key => cancel_turn s now key
  | RoStep key => (increment_step_count s key).1
  | RoResume key task => (mark_turn_resuming s key task).1
  | RoWaitApproval key => (mark_waiting_for_approval s key).1
  | RoWaitUser key => (mark_waiting_for_user s key).1
  | RoRetry key => (increment_planner_retry s key).1
  | RoResetRetry key => reset_planner_retry s key
  | RoCompact key summary n => record_compaction s key summary n
  | RoPrune key tail_len => prune_completed_turn_transcript s key tail_len
  end.

Definition srt_run : SessionRuntimeManager → list srt_op → SessionRuntimeManager := foldl srt_apply.

Record srt_wf (s : SessionRuntimeManager) : Prop := {
  rw_numbered : ∀ key t, transcripts s !! key = Some t → numbered (st_events t);
  rw_lane_bound : ∀ key l, lanes s !! key = Some l → l < size (lanes s);
  rw_lane_inj : ∀ k1 k2 l, lanes s !! k1 = Some l → lanes s !! k2 = Some l → k1 = k2
}.

(** An operation that changes neither transcripts nor lanes. *)
Lemma srt_wf_frame s s' :
  transcripts s' = transcripts s → lanes s' = lanes s → srt_wf s → srt_wf s'.
Proof. intros Et El [Hn Hb Hi]. split; rewrite ?Et, ?El; done. Qed.

Lemma lane_for_wf s key : srt_wf s → srt_wf (lane_for s key).1.
Proof.
  intros [Hn Hb Hi]. unfold lane_for. destruct (lanes s !! key) eqn:E; simpl; [by split|].
  split; simpl; [done| |].
  - intros k l. rewrite lookup_insert, map_size_insert_None by done. case_decide; [naive_solver|].
    intros Hl. apply Hb in Hl. lia.
  - intros k1 k2 l. rewrite !lookup_insert. repeat case_decide; subst; try done; [| |by apply Hi].
    + intros [= <-] Hl. apply Hb in Hl. lia.
    + intros Hl [= <-]. apply Hb in Hl. lia.
Qed.

Lemma append_wf s now key kind content : srt_wf s → srt_wf (append_transcript_event s now key kind content).
Proof.
  intros [Hn Hb Hi]. split; simpl; [|done..]. intros k t. rewrite lookup_insert.
  case_decide; [|by apply Hn]. intros [= <-]. simpl. subst. apply numbered_snoc.
  destruct (transcripts s !! k) eqn:E; simpl; [by eapply Hn|]. by intros i e.
Qed.

Lemma srt_apply_wf s op : srt_wf s → srt_wf (srt_apply s op).
Proof.
  intros Hwf. destruct op; simpl.
  all: try (apply (srt_wf_frame s); [done|done|done]).
  - by apply lane_for_wf.
  - pose proof (lane_for_wf s key Hwf) as [Hn Hb Hi]. split; simpl; [|done..].
    intros k t. rewrite lookup_insert. case_decide; [|by apply Hn]. intros [= <-] i e. simpl.
    intros Hi'. by apply list_lookup_singleton_Some in Hi' as [-> <-].
  - unfold begin_tool_call. destruct (turns s !! key); [|done]. by apply (srt_wf_frame s).
  - by apply append_wf.
  - apply append_wf. by apply (srt_wf_frame s).
  - unfold complete_turn, drop_binding. destruct task; by apply (srt_wf_frame s).
  - unfold fail_turn, drop_binding. destruct task; by apply (srt_wf_frame s).
  - apply append_wf. by apply (srt_wf_frame s).
  - destruct Hwf as [Hn Hb Hi]. split; simpl; [|done..].
    intros k t. rewrite map_update_lookup. case_decide; [|by apply Hn]. subst.
    destruct (transcripts s !! k) as [t0|] eqn:E; simpl; [|done]. intros [= <-].
    apply prune_numbered. by eapply Hn.
Qed.

Lemma srt_run_wf s ops : srt_wf s → srt_wf (srt_run s ops).
Proof. revert s. induction ops as [|op ops IH]; intros s Hwf; [done|]. apply IH. by apply srt_apply_wf. Qed.

Lemma SessionRuntimeManager_new_wf : srt_wf SessionRuntimeManager_new.
Proof. split; simpl; intros *; rewrite ?lookup_empty; done. Qed.

Lemma lane_kept s op key l : lanes s !! key = Some l → lanes (srt_apply s op) !! key = Some l.
Proof.
  intros Hl. assert (∀ k, lanes (lane_for s k).1 !! key = Some l) as Hlane.
  { intros k. unfold lane_for. destruct (lanes s !! k) eqn:E; simpl; [done|].
    rewrite lookup_insert_ne by congruence. done. }
  destruct op; simpl; try done; try by apply Hlane.
  - unfold begin_tool_call. by case_match.
  - unfold complete_turn, drop_binding. by case_match.
  - unfold fail_turn, drop_binding. by case_match.
Qed.

Lemma lane_kept_run s ops key l : lanes s !! key = Some l → lanes (srt_run s ops) !! key = Some l.
Proof.
  revert s. induction ops as [|op ops IH]; intros s Hl; [done|]. apply IH. by apply lane_kept.
Qed.

Lemma lane_for_lookup s key : lanes (lane_for s key).1 !! key = Some (lane_for s key).2.
Proof.
  unfold lane_for. destruct (lanes s !! key) eqn:E; simpl; [done|]. by rewrite lookup_insert_eq.
Qed.

(** ** Properties *)

(** In every reachable state the events of every transcript are numbered
    1, 2, 3, ... in order, whatever was appended, pruned or restarted. *)
Theorem transcripts_numbered ops key t :
  transcript (srt_run SessionRuntimeManager_new ops) key = Some t →
  te_seq <$> st_events t = (λ i, Z.of_nat i + 1)%Z <$> seq 0 (length (st_events t)).
Proof.
  intros Ht. pose proof (rw_numbered _ (srt_run_wf _ ops SessionRuntimeManager_new_wf) key t Ht) as Hn.
  apply list_eq. intros i. rewrite !list_lookup_fmap.
  destruct (st_events t !! i) as [e|] eqn:E; simpl.
  - rewrite lookup_seq_lt by (by eapply lookup_lt_Some). simpl. f_equal. by apply Hn.
  - apply lookup_ge_None in E. by rewrite lookup_seq_ge.
Qed.

(** Pruning keeps, in their order, the key events before the tail and the
    whole tail of the given length, renumbers them, never lengthens a
    transcript, and pruning again changes nothing. *)
Theorem prune_spec n es :
  strip <$> prune_events n es =
    strip <$> List.filter is_key (take (length es - n) es) ++ drop (length es - n) es ∧
  (numbered es → numbered (prune_events n es)) ∧
  length (prune_events n es) ≤ length es ∧
  prune_events n (prune_events n es) = prune_events n es.
Proof.
  split_and!; [apply strip_prune|apply prune_numbered| |].
  - pose proof (f_equal length (strip_prune n es)) as Hl. rewrite !length_fmap in Hl. rewrite Hl.
    unfold kept. rewrite length_app, length_drop.
    pose proof (filter_length_le is_key (take (length es - n) es)) as Hf. rewrite length_take in Hf. lia.
  - rewrite (prune_events_kept n es). case_decide; [by apply decide_True|].
    rewrite prune_events_kept. case_decide; [done|].
    apply numbered_strip_eq; [apply renumber_numbered..|].
    rewrite !strip_renumber, (kept_strip n (renumber (kept n es)) (kept n es)) by apply strip_renumber.
    by rewrite kept_kept by lia.
Qed.

(** Work of one session is always serialised by the same mutex and work of
    different sessions never shares one: the lane handed out for a key now and
    the lane handed out for another key after any operations are equal exactly
    when the keys are. *)
Theorem one_lane_per_session ops k1 ops' k2 :
  let s := srt_run SessionRuntimeManager_new ops in
  let '(s1, l1) := lane_for s k1 in
  (lane_for (srt_run s1 ops') k2).2 = l1 ↔ k1 = k2.
Proof.
  intros s. pose proof (srt_run_wf _ ops SessionRuntimeManager_new_wf) as Hwf. fold s in Hwf.
  pose proof (lane_for_wf s k1 Hwf) as Hwf1. pose proof (lane_for_lookup s k1) as Hl1.
  destruct (lane_for s k1) as [s1 l1]. simpl in *.
  apply (lane_kept_run s1 ops') in Hl1.
  pose proof (srt_run_wf s1 ops' Hwf1) as Hwf2. set (s2 := srt_run s1 ops') in *.
  split.
  - intros E. pose proof (lane_for_lookup s2 k2) as Hl2. rewrite E in Hl2.
    apply (rw_lane_inj _ (lane_for_wf s2 k2 Hwf2) k1 k2 l1); [|done].
    by apply (lane_kept s2 (RoLane k2)).
  - intros <-. unfold lane_for. by rewrite Hl1.
Qed.

(** ** Snapshots *)

(** The snapshots list every session that has a turn, a transcript or a
    lane exactly once, in the order of their keys, and each is the snapshot of
    its session. *)
Theorem mailbox_snapshots_complete `{HashOrder} s :
  StronglySorted (λ x y, str_leb x y = true ∧ x ≠ y) (mb_session_key <$> mailbox_snapshots s) ∧
  (∀ key, key ∈ mb_session_key <$> mailbox_snapshots s ↔
     is_Some (turns s !! key) ∨ is_Some (transcripts s !! key) ∨ is_Some (lanes s !! key)) ∧
  (∀ m, m ∈ mailbox_snapshots s → m = mailbox_snapshot s (mb_session_key m)).
Proof.
  assert (mb_session_key <$> mailbox_snapshots s = session_keys s) as Hk.
  { unfold mailbox_snapshots. induction (session_keys s) as [|k ks IH]; csimpl; [done|by rewrite IH]. }
  rewrite Hk. split_and!.
  - apply dedup_strict, sort_by_sorted; [apply str_leb_total|apply str_leb_trans].
  - intros key. unfold session_keys. rewrite dedup_elem_of, sort_by_elem_of, !elem_of_app.
    by rewrite !elem_of_hash_keys.
  - intros m (key & -> & _)%list_elem_of_fmap. done.
Qed.

(** ** Bindings of tasks *)

(** A binding is found from the moment the task is bound, is handed out
    once, and settling a turn for one task drops the binding of that task only. *)
Theorem task_binding_lifecycle s now task b key other :
  task_binding (bind_task_to_turn s now task b) task = Some b ∧
  (let '(s', r) := take_task_binding s task in
   r = task_binding s task ∧ task_binding s' task = None ∧
   (take_task_binding s' task).2 = None) ∧
  task_binding (complete_turn s key (Some task)) task = None ∧
  task_binding (fail_turn s key (Some task)) task = None ∧
  (other ≠ task →
     task_binding (complete_turn s key (Some task)) other = task_binding s other ∧
     task_binding (fail_turn s key (Some task)) other = task_binding s other ∧
     task_binding (bind_task_to_turn s now task b) other = task_binding s other).
Proof.
  unfold task_binding. simpl. split_and!.
  - by rewrite lookup_insert_eq.
  - done.
  - by rewrite lookup_delete_eq.
  - by rewrite lookup_delete_eq.
  - by rewrite lookup_delete_eq.
  - by rewrite lookup_delete_eq.
  - intros Hne. by rewrite !lookup_delete_ne, lookup_insert_ne by done.
Qed.

Lemma complete_turn_lookup s key task :
  turns (complete_turn s key (Some task)) !! key =
  (λ t, settle_call (Some task) TcCompleted (set_turn_status t TCompleted)) <$> turns s !! key.
Proof. unfold complete_turn. simpl. by rewrite map_update_lookup, decide_True. Qed.

(** The turn of a binding is not compared with the current turn: when a new
    turn has started, the late result of a task bound to the previous turn marks
    the new turn, which is still planning, as resuming and then as completed. *)
Theorem late_result_completes_new_turn s now task b now' turn2 msg :
  let key := tb_session_key b in
  let s1 := bind_task_to_turn s now task b in
  let s2 := (start_turn s1 now' turn2 key msg).1 in
  turn2 ≠ tb_turn_id b →
  task_binding s2 task = Some b ∧
  tu_status <$> turn_state s2 key = Some TPlanning ∧
  tu_status <$> (mark_turn_resuming s2 key (Some task)).2 = Some TResuming ∧
  let s3 := complete_turn s2 key (Some task) in
  tu_turn_id <$> turn_state s3 key = Some turn2 ∧ tu_status <$> turn_state s3 key = Some TCompleted.
Proof.
  intros key s1 s2 Hne.
  assert (task_bindings s2 = <[task := b]> (task_bindings s)) as Eb.
  { unfold s2, start_turn, lane_for. simpl. by case_match. }
  assert (turns s2 !! key = Some (MkSessionTurnState turn2 msg TPlanning 0 4 false 0 1 None 0 None)) as Et.
  { unfold s2, start_turn. simpl. by rewrite lookup_insert_eq. }
  unfold task_binding, turn_state. split_and!.
  - by rewrite Eb, lookup_insert_eq.
  - by rewrite Et.
  - unfold mark_turn_resuming, update_turn_get, snd. by rewrite Et.
  - by rewrite complete_turn_lookup, Et.
  - by rewrite complete_turn_lookup, Et.
Qed.

(** ** Concrete inputs *)

Definition demo_route : DingTalkReplyRoute := MkDingTalkReplyRoute "c" None None None None None None None.
Definition demo_binding : TaskContinuationBinding :=
  MkTaskContinuationBinding "session" "turn-1" "call-1" "main" demo_route.
Definition demo_session_ops : list srt_op :=
  [RoStart 1 "turn-1" "session" "hello"; RoBegin "call-1" "session" "shell";
   RoBind 2 (MkTaskId "t1") demo_binding; RoAppend 3 "session" AssistantFinal "done"; RoPrune "session" 1].

Lemma transcripts_numbered_witness :
  ∃ t, transcript (srt_run SessionRuntimeManager_new demo_session_ops) "session" = Some t ∧
    te_seq <$> st_events t = [1; 2]%Z.
Proof.
  destruct (transcript (srt_run SessionRuntimeManager_new demo_session_ops) "session") as [t|] eqn:E.
  - exists t. split; [reflexivity|]. rewrite (transcripts_numbered demo_session_ops "session" t E).
    vm_compute in E. injection E as <-. reflexivity.
  - vm_compute in E. discriminate.
Defined.

Lemma late_result_completes_new_turn_witness :
  let s := srt_run SessionRuntimeManager_new demo_session_ops in
  let s2 := (start_turn (bind_task_to_turn s 4 (MkTaskId "t1") demo_binding) 5 "turn-2" "session" "next").1 in
  task_binding s2 (MkTaskId "t1") = Some demo_binding.
Proof.
  intros s s2.
  exact (proj1 (late_result_completes_new_turn s 4 (MkTaskId "t1") demo_binding 5 "turn-2" "next"
    ltac:(discriminate))).
Defined.
