(* ===== verification/Approval.v ===== *)
(** Approval requests and idempotency records of the security crate
    ([crates/uhorse-security/src/approval.rs], [idempotency.rs]).  Clock readings
    ([now], in seconds) and fresh identifiers are arguments of the operations. *)
From S2P Require Import Prelude Json.

(** ** Idempotency cache *)

Section Idempotency.
Context `{JsonValue}.

Record IdempotencyRecord := MkIdempotencyRecord {
  ir_response : Value;
  ir_expires_at : Z
}.

Abbreviation IdempotencyCache := (gmap string IdempotencyRecord).

Definition drop_expired (now : Z) : IdempotencyCache → IdempotencyCache :=
  map_retain (λ _ r, bool_decide (now < ir_expires_at r)%Z).

Definition check_or_record (now : Z) (records : IdempotencyCache) (key : string)
    : IdempotencyCache * option Value :=
  let records := drop_expired now records in
  (records, ir_response <$> records !! key).

(** The sum of two 64-bit readings is taken without wrap-around: the clock is
    far below [u64::MAX] and an overflow panics in debug builds. *)
Definition store_response (now : Z) (records : IdempotencyCache) (key : string)
    (response : Value) (ttl_seconds : Z) : IdempotencyCache :=
  <[key := MkIdempotencyRecord response (now + ttl_seconds)]> records.

Definition Idempotency_cleanup_expired (now : Z) (records : IdempotencyCache)
    : IdempotencyCache * nat :=
  let kept := drop_expired now records in (kept, size records - size kept).
End Idempotency.

(** ** Approval requests *)

Inductive ApprovalStatus := APending | AApproved | ARejected | ACancelled | ATimedOut.

#[export] Instance ApprovalStatus_eq_dec : EqDecision ApprovalStatus.
Proof. solve_decision. Defined.

Section ApprovalData.
Context `{JsonValue}.

Record ApprovalCondition := MkApprovalCondition {
  ac_condition_type : string;
  ac_threshold : Value;
  ac_required_approvers : list string
}.

Inductive ApprovalLevel :=
| Single
| Sequential (levels : list string)
| Parallel (required : Z)
| Conditional (conditions : list ApprovalCondition).

Record Approver := MkApprover { av_user_id : string; av_name : string; av_role : string }.

Record ApprovalDecision := MkApprovalDecision {
  de_approver_id : string;
  de_approved : bool;
  de_comment : option string;
  de_decided_at : Z
}.

Record ApprovalRequest := MkApprovalRequest {
  rq_id : string;
  rq_action : string;
  rq_requested_by : string;
  rq_level : ApprovalLevel;
  rq_status : ApprovalStatus;
  rq_created_at : Z;
  rq_expires_at : Z;
  rq_decisions : list ApprovalDecision;
  rq_required_approvers : list Approver;
  rq_approved_count : Z;
  rq_rejected_count : Z;
  rq_metadata : Value
}.

Definition ApprovalRequest_new (id : string) (now : Z) (action requested_by : string)
    (level : ApprovalLevel) (required_approvers : list Approver) : ApprovalRequest :=
  MkApprovalRequest id action requested_by level APending now (now + 86400) []
    required_approvers 0 0 (json_object []).

Definition set_status (r : ApprovalRequest) (st : ApprovalStatus) : ApprovalRequest :=
  MkApprovalRequest (rq_id r) (rq_action r) (rq_requested_by r) (rq_level r) st (rq_created_at r)
    (rq_expires_at r) (rq_decisions r) (rq_required_approvers r) (rq_approved_count r)
    (rq_rejected_count r) (rq_metadata r).
Definition set_counts (r : ApprovalRequest) (approved rejected : Z) : ApprovalRequest :=
  MkApprovalRequest (rq_id r) (rq_action r) (rq_requested_by r) (rq_level r) (rq_status r)
    (rq_created_at r) (rq_expires_at r) (rq_decisions r) (rq_required_approvers r) approved
    rejected (rq_metadata r).
Definition set_metadata (r : ApprovalRequest) (m : Value) : ApprovalRequest :=
  MkApprovalRequest (rq_id r) (rq_action r) (rq_requested_by r) (rq_level r) (rq_status r)
    (rq_created_at r) (rq_expires_at r) (rq_decisions r) (rq_required_approvers r)
    (rq_approved_count r) (rq_rejected_count r) m.

Definition is_expired (now : Z) (r : ApprovalRequest) : bool := bool_decide (rq_expires_at r < now)%Z.

(** The errors of the manager are all [UHorseError::InternalError]. *)
Abbreviation ApprovalResult T := (Result T string).

Definition add_decision (r : ApprovalRequest) (d : ApprovalDecision) : ApprovalResult ApprovalRequest :=
  if existsb (λ d', bool_decide (de_approver_id d' = de_approver_id d)) (rq_decisions r) then
    Err "Approver has already decided"
  else
    Ok (MkApprovalRequest (rq_id r) (rq_action r) (rq_requested_by r) (rq_level r) (rq_status r)
      (rq_created_at r) (rq_expires_at r) (rq_decisions r ++ [d]) (rq_required_approvers r)
      (if de_approved d then rq_approved_count r + 1 else rq_approved_count r)
      (if de_approved d then rq_rejected_count r else rq_rejected_count r + 1)
      (rq_metadata r)).

Definition can_approve (r : ApprovalRequest) : bool :=
  match rq_level r with
  | Single => bool_decide (rq_approved_count r = 0)%Z
  | Sequential _ => true
  | Parallel required => bool_decide (rq_approved_count r < required)%Z
  | Conditional _ => true
  end.

Definition is_completed (r : ApprovalRequest) : bool :=
  match rq_level r with
  | Single => bool_decide (1 ≤ rq_approved_count r)%Z || bool_decide (1 ≤ rq_rejected_count r)%Z
  | Sequential levels =>
      bool_decide (zlen levels ≤ rq_approved_count r)%Z || bool_decide (1 ≤ rq_rejected_count r)%Z
  | Parallel required =>
      bool_decide (required ≤ rq_approved_count r)%Z || bool_decide (1 ≤ rq_rejected_count r)%Z
  | Conditional conditions =>
      bool_decide (1 ≤ rq_rejected_count r)%Z || bool_decide (zlen conditions ≤ rq_approved_count r)%Z
  end.

Definition update_status (now : Z) (r : ApprovalRequest) : ApprovalRequest :=
  if is_expired now r then set_status r ATimedOut
  else if bool_decide (0 < rq_rejected_count r)%Z then set_status r ARejected
  else if is_completed r then set_status r AApproved
  else r.

(** *** Rules *)

Record ApprovalRule := MkApprovalRule { ru_rule_name : string; ru_condition : Value; ru_action : string }.

Record ApprovalRuleEngine := MkApprovalRuleEngine {
  auto_approve_rules : list ApprovalRule;
  auto_reject_rules : list ApprovalRule
}.

Definition ApprovalRuleEngine_new : ApprovalRuleEngine := MkApprovalRuleEngine [] [].
Definition add_auto_approve_rule (e : ApprovalRuleEngine) (r : ApprovalRule) : ApprovalRuleEngine :=
  MkApprovalRuleEngine (auto_approve_rules e ++ [r]) (auto_reject_rules e).
Definition add_auto_reject_rule (e : ApprovalRuleEngine) (r : ApprovalRule) : ApprovalRuleEngine :=
  MkApprovalRuleEngine (auto_approve_rules e) (auto_reject_rules e ++ [r]).

Definition matches_condition (condition metadata : Value) : bool :=
  match as_object condition with
  | Some obj => forallb (λ kv : string * Value, bool_decide (get metadata kv.1 = Some kv.2)) obj
  | None => false
  end.

Definition evaluate_auto_approve (e : ApprovalRuleEngine) (metadata : Value) : bool :=
  existsb (λ r, matches_condition (ru_condition r) metadata) (auto_approve_rules e).
Definition evaluate_auto_reject (e : ApprovalRuleEngine) (metadata : Value) : bool :=
  existsb (λ r, matches_condition (ru_condition r) metadata) (auto_reject_rules e).

(** ** The manager *)

Record ApprovalManager := MkApprovalManager {
  am_pending : gmap string ApprovalRequest;
  am_history : gmap string ApprovalRequest;
  rule_engine : ApprovalRuleEngine;
  user_requests : gmap string (list string)
}.

Definition ApprovalManager_new : ApprovalManager := MkApprovalManager ∅ ∅ ApprovalRuleEngine_new ∅.
Definition with_rule_engine (m : ApprovalManager) (e : ApprovalRuleEngine) : ApprovalManager :=
  MkApprovalManager (am_pending m) (am_history m) e (user_requests m).

(** [entry(approver).or_insert_with(Vec::new).push(id)] for every approver in turn. *)
Definition push_request (id : string) (users : gmap string (list string)) (approver : string)
    : gmap string (list string) :=
  <[approver := default [] (users !! approver) ++ [id]]> users.

Definition create_request (m : ApprovalManager) (id : string) (now : Z) (action requested_by : string)
    (level : ApprovalLevel) (required_approvers : list Approver) (metadata : Value)
    : ApprovalManager * ApprovalRequest :=
  let base := ApprovalRequest_new id now action requested_by level required_approvers in
  if evaluate_auto_approve (rule_engine m) metadata then (m, set_counts (set_status base AApproved) 1 0)
  else if evaluate_auto_reject (rule_engine m) metadata then
    (m, set_counts (set_status base ARejected) 0 1)
  else
    let request := set_metadata base metadata in
    (MkApprovalManager (<[id := request]> (am_pending m)) (am_history m) (rule_engine m)
       (foldl (push_request id) (user_requests m) (av_user_id <$> required_approvers)), request).

(** The clean-up of the users' lists: every list loses the identifier. *)
Definition forget_request (id : string) : gmap string (list string) → gmap string (list string) :=
  fmap (List.filter (λ i, negb (bool_decide (i = id)))).

Definition finish_request (m : ApprovalManager) (id : string) (r : ApprovalRequest) : ApprovalManager :=
  MkApprovalManager (delete id (am_pending m)) (<[id := r]> (am_history m)) (rule_engine m)
    (forget_request id (user_requests m)).

Definition approve_request (m : ApprovalManager) (now : Z) (id approver : string)
    (comment : option string) : ApprovalManager * ApprovalResult ApprovalRequest :=
  match am_pending m !! id with
  | None => (m, Err "Request not found")
  | Some request =>
      if negb (can_approve request) then (m, Err "Cannot approve at this stage")
      else
        match add_decision request (MkApprovalDecision approver true comment now) with
        | Err e => (m, Err e)
        | Ok decided =>
            let updated := update_status now decided in
            let m' := if is_completed updated then finish_request m id updated
                      else MkApprovalManager (<[id := updated]> (am_pending m)) (am_history m)
                             (rule_engine m) (user_requests m) in
            (m', Ok updated)
        end
  end.

Definition reject_request (m : ApprovalManager) (now : Z) (id approver : string)
    (comment : option string) : ApprovalManager * ApprovalResult ApprovalRequest :=
  match am_pending m !! id with
  | None => (m, Err "Request not found")
  | Some request =>
      match add_decision request (MkApprovalDecision approver false comment now) with
      | Err e => (m, Err e)
      | Ok decided =>
          let updated := update_status now decided in
          (finish_request m id updated, Ok updated)
      end
  end.

(** Moves a pending request to the history with a final status; the users' lists
    keep its identifier. *)
Definition archive (m : ApprovalManager) (id : string) (st : ApprovalStatus) : ApprovalManager :=
  match am_pending m !! id with
  | Some request =>
      MkApprovalManager (delete id (am_pending m)) (<[id := set_status request st]> (am_history m))
        (rule_engine m) (user_requests m)
  | None => m
  end.

Definition cancel_request (m : ApprovalManager) (id : string) : ApprovalManager * bool :=
  (archive m id ACancelled, bool_decide (is_Some (am_pending m !! id))).

Definition get_user_pending_requests (m : ApprovalManager) (user : string) : list ApprovalRequest :=
  omap (λ id, am_pending m !! id) (default [] (user_requests m !! user)).

Definition get_request (m : ApprovalManager) (id : string) : option ApprovalRequest :=
  match am_pending m !! id with Some r => Some r | None => am_history m !! id end.

Context `{HashOrder}.

Definition list_pending (m : ApprovalManager) : list ApprovalRequest := hash_values (am_pending m).

Definition cleanup_expired (m : ApprovalManager) (now : Z) : ApprovalManager * nat :=
  let expired := (List.filter (λ kv : string * ApprovalRequest, is_expired now kv.2)
                    (hash_order (am_pending m))).*1 in
  (foldl (λ m id, archive m id ATimedOut) m expired, length expired).
End ApprovalData.
