(* ===== verification/ApprovalFacts.v ===== *)
(** Correctness of the approval manager and of the idempotency cache: the
    invariant of the pending and finished requests, what a final approval
    guarantees, the users' work lists, and the lock discipline of the task that
    expires a request. *)
From S2P Require Import Prelude Json Approval.

Section ApprovalFacts.
Context `{JsonValue, HashOrder}.

(** ** Requests *)

Definition approvals (ds : list ApprovalDecision) : Z := zlen (List.filter de_approved ds).
Definition rejections (ds : list ApprovalDecision) : Z :=
  zlen (List.filter (λ d, negb (de_approved d)) ds).

(** The counters agree with the decisions, and nobody decides twice. *)
Record req_wf (r : ApprovalRequest) : Prop := {
  rw_approved : rq_approved_count r = approvals (rq_decisions r);
  rw_rejected : rq_rejected_count r = rejections (rq_decisions r);
  rw_once : NoDup (de_approver_id <$> rq_decisions r)
}.

(** The number of approvals a level asks for. *)
Definition approvals_needed (l : ApprovalLevel) : Z :=
  match l with
  | Single => 1
  | Sequential levels => zlen levels
  | Parallel required => required
  | Conditional conditions => zlen conditions
  end.

Lemma is_completed_spec r :
  is_completed r = true ↔
  (approvals_needed (rq_level r) ≤ rq_approved_count r)%Z ∨ (1 ≤ rq_rejected_count r)%Z.
Proof.
  unfold is_completed, approvals_needed.
  destruct (rq_level r); rewrite orb_true_iff, !bool_decide_eq_true; lia.
Qed.

Lemma approvals_app ds d : approvals (ds ++ [d]) = (approvals ds + if de_approved d then 1 else 0)%Z.
Proof. unfold approvals, zlen. rewrite List.filter_app, length_app. simpl. destruct (de_approved d); simpl; lia. Qed.
Lemma rejections_app ds d : rejections (ds ++ [d]) = (rejections ds + if de_approved d then 0 else 1)%Z.
Proof. unfold rejections, zlen. rewrite List.filter_app, length_app. simpl. destruct (de_approved d); simpl; lia. Qed.

Lemma decisions_split ds : (approvals ds + rejections ds = zlen ds)%Z.
Proof.
  unfold approvals, rejections, zlen.
  induction ds as [|d ds IH]; simpl; [done|]. destruct (de_approved d); simpl; lia.
Qed.

Lemma add_decision_ok r d r' :
  add_decision r d = Ok r' ↔
  de_approver_id d ∉ de_approver_id <$> rq_decisions r ∧
  r' = MkApprovalRequest (rq_id r) (rq_action r) (rq_requested_by r) (rq_level r) (rq_status r)
      (rq_created_at r) (rq_expires_at r) (rq_decisions r ++ [d]) (rq_required_approvers r)
      (rq_approved_count r + if de_approved d then 1 else 0)
      (rq_rejected_count r + if de_approved d then 0 else 1) (rq_metadata r).
Proof.
  unfold add_decision.
  assert (existsb (λ d', bool_decide (de_approver_id d' = de_approver_id d)) (rq_decisions r) = true
    ↔ de_approver_id d ∈ de_approver_id <$> rq_decisions r) as Hex.
  { rewrite existsb_exists, list_elem_of_fmap. split.
    - intros (d' & Hin & Heq). apply bool_decide_eq_true in Heq. exists d'.
      split; [done|]. by apply list_elem_of_In.
    - intros (d' & Heq & Hin). exists d'. rewrite bool_decide_eq_true. split; [|done].
      by apply list_elem_of_In. }
  destruct (existsb _ _) eqn:E.
  - split; [done|]. intros [Hn _]. by destruct Hn; apply Hex.
  - split.
    + intros [= <-]. split; [by rewrite <-Hex|].
      destruct (de_approved d); by rewrite ?Z.add_0_r.
    + intros [_ ->]. destruct (de_approved d); by rewrite ?Z.add_0_r.
Qed.

Lemma add_decision_wf r d r' : req_wf r → add_decision r d = Ok r' → req_wf r'.
Proof.
  intros [Ha Hr Ho] [Hn ->]%add_decision_ok. split; simpl.
  - by rewrite approvals_app, Ha.
  - by rewrite rejections_app, Hr.
  - apply NoDup_fmap_app. split_and!; [done| |apply NoDup_singleton].
    intros x Hx. intros ->%list_elem_of_singleton. done.
Qed.

Lemma set_status_wf r st : req_wf r → req_wf (set_status r st).
Proof. intros []. by split. Qed.

Lemma update_status_cases now r :
  ∃ st, update_status now r = set_status r st ∧
  (is_expired now r = true ∧ st = ATimedOut ∨
   is_expired now r = false ∧ (0 < rq_rejected_count r)%Z ∧ st = ARejected ∨
   is_expired now r = false ∧ (rq_rejected_count r ≤ 0)%Z ∧ is_completed r = true ∧ st = AApproved ∨
   is_expired now r = false ∧ (rq_rejected_count r ≤ 0)%Z ∧ is_completed r = false ∧ st = rq_status r).
Proof.
  unfold update_status. destruct (is_expired now r) eqn:E1; [eexists; split; [done|tauto]|].
  destruct (bool_decide _) eqn:E2; bool_prop; [eexists; split; [done|tauto]|].
  destruct (is_completed r) eqn:E3; [eexists; split; [done|]; right; right; left; split_and!; (done || lia)|].
  exists (rq_status r). split; [by destruct r|]. right; right; right. split_and!; (done || lia).
Qed.

(** ** The manager *)

Record mgr_wf (m : ApprovalManager) : Prop := {
  mw_pending : ∀ id r, am_pending m !! id = Some r →
    rq_id r = id ∧ req_wf r ∧ rq_rejected_count r = 0%Z ∧
    (rq_status r = APending ∨ rq_status r = ATimedOut);
  mw_history : ∀ id r, am_history m !! id = Some r →
    rq_id r = id ∧ req_wf r ∧ rq_status r ≠ APending ∧
    (rq_status r = AApproved → rq_rejected_count r = 0%Z ∧ (1 ≤ rq_approved_count r)%Z ∧
       (approvals_needed (rq_level r) ≤ rq_approved_count r)%Z ∧
       ∃ d, last (rq_decisions r) = Some d ∧ (de_decided_at d ≤ rq_expires_at r)%Z);
  mw_disjoint : ∀ id, is_Some (am_pending m !! id) → am_history m !! id = None;
  mw_users : ∀ id r u, am_pending m !! id = Some r →
    u ∈ av_user_id <$> rq_required_approvers r ↔ id ∈ default [] (user_requests m !! u)
}.

Inductive appr_op :=
| AoCreate (id : string) (now : Z) (action requested_by : string) (level : ApprovalLevel)
    (required_approvers : list Approver) (metadata : Value)
| AoApprove (now : Z) (id approver : string) (comment : option string)
| AoReject (now : Z) (id approver : string) (comment : option string)
| AoCancel (id : string)
| AoCleanup (now : Z).

Definition appr_apply (m : ApprovalManager) (op : appr_op) : ApprovalManager :=
  match op with
  | AoCreate id now action by_ level approvers metadata =>
      (create_request m id now action by_ level approvers metadata).1
  | AoApprove now id approver comment => (approve_request m now id approver comment).1
  | AoReject now id approver comment => (reject_request m now id approver comment).1
  | AoCancel id => (cancel_request m id).1
  | AoCleanup now => (cleanup_expired m now).1
  end.

(** The identifier generated for a new request is in no map of the manager. *)
Definition fresh_id (m : ApprovalManager) (id : string) : Prop :=
  am_pending m !! id = None ∧ am_history m !! id = None ∧
  ∀ u, id ∉ default [] (user_requests m !! u).

Definition appr_step (m m' : ApprovalManager) : Prop :=
  ∃ op, match op with AoCreate id _ _ _ _ _ _ => fresh_id m id | _ => True end ∧ m' = appr_apply m op.

Lemma push_requests_spec id l users u i :
  i ∈ default [] (foldl (push_request id) users l !! u) ↔
  i ∈ default [] (users !! u) ∨ (i = id ∧ u ∈ l).
Proof.
  revert users. induction l as [|a l IH]; intros users; simpl; [set_solver|].
  rewrite IH. unfold push_request. rewrite lookup_insert. case_decide; subst; simpl; set_solver.
Qed.

Lemma create_request_wf m id now action by_ level approvers metadata :
  mgr_wf m → fresh_id m id →
  mgr_wf (create_request m id now action by_ level approvers metadata).1.
Proof.
  intros Hwf (Hp & Hh & Hu). unfold create_request. repeat case_match; simpl; [done..|].
  split; simpl.
  - intros id' r. rewrite lookup_insert. case_decide; [|by apply (mw_pending m Hwf)].
    intros [= <-]. subst. split_and!; [done| |done|by left]. split; simpl; [done..|constructor].
  - apply (mw_history m Hwf).
  - intros id'. rewrite lookup_insert. case_decide; [by subst|]. apply (mw_disjoint m Hwf).
  - intros id' r u. rewrite push_requests_spec, lookup_insert. case_decide as Hd.
    + subst. intros [= <-]. simpl. specialize (Hu u). naive_solver.
    + intros Hr. rewrite (mw_users m Hwf _ _ u Hr). naive_solver.
Qed.

Lemma forget_request_spec id users u i :
  i ∈ default [] (forget_request id users !! u) ↔ i ∈ default [] (users !! u) ∧ i ≠ id.
Proof.
  unfold forget_request. rewrite lookup_fmap. destruct (users !! u); simpl; [|set_solver].
  rewrite elem_of_filter_bool, negb_true_iff, bool_decide_eq_false. tauto.
Qed.

(** What a request must satisfy to enter the history. *)
Definition final_wf (r : ApprovalRequest) : Prop :=
  req_wf r ∧ rq_status r ≠ APending ∧
  (rq_status r = AApproved → rq_rejected_count r = 0%Z ∧ (1 ≤ rq_approved_count r)%Z ∧
     (approvals_needed (rq_level r) ≤ rq_approved_count r)%Z ∧
     ∃ d, last (rq_decisions r) = Some d ∧ (de_decided_at d ≤ rq_expires_at r)%Z).

Lemma finish_request_wf m id r0 r :
  mgr_wf m → am_pending m !! id = Some r0 → rq_id r = id → final_wf r →
  mgr_wf (finish_request m id r).
Proof.
  intros Hwf Hr0 Hid (Hrw & Hst & Hap). split; simpl.
  - intros id' r' [_ Hr']%lookup_delete_Some. by apply (mw_pending m Hwf).
  - intros id' r'. rewrite lookup_insert. case_decide; [|by apply (mw_history m Hwf)].
    intros [= <-]. subst. done.
  - intros id' [r' [Hne Hr']%lookup_delete_Some]. rewrite lookup_insert_ne by done.
    apply (mw_disjoint m Hwf). eauto.
  - intros id' r' u [Hne Hr']%lookup_delete_Some. rewrite forget_request_spec.
    rewrite (mw_users m Hwf _ _ u Hr'). naive_solver.
Qed.

Lemma archive_wf m id st :
  mgr_wf m → st ≠ APending → st ≠ AApproved → mgr_wf (archive m id st).
Proof.
  intros Hwf Hst Hst'. unfold archive. destruct (am_pending m !! id) as [r|] eqn:Hr; [|done].
  destruct (mw_pending m Hwf _ _ Hr) as (Hid & Hrw & _ & _). split; simpl.
  - intros id' r' [_ Hr']%lookup_delete_Some. by apply (mw_pending m Hwf).
  - intros id' r'. rewrite lookup_insert. case_decide; [|by apply (mw_history m Hwf)].
    intros [= <-]. subst. split_and!; [done|by apply set_status_wf|done|done].
  - intros id' [r' [Hne Hr']%lookup_delete_Some]. rewrite lookup_insert_ne by done.
    apply (mw_disjoint m Hwf). eauto.
  - intros id' r' u [Hne Hr']%lookup_delete_Some. by apply (mw_users m Hwf).
Qed.

Lemma is_completed_set_status r st : is_completed (set_status r st) = is_completed r.
Proof. done. Qed.

(** A request that takes one more decision and whose status is recomputed. *)
Lemma decided_final now r d r' :
  req_wf r → rq_rejected_count r = 0%Z → de_decided_at d = now →
  add_decision r d = Ok r' → is_completed r' = true → final_wf (update_status now r').
Proof.
  intros Hrw Hrej Hnow Hadd Hc. pose proof (add_decision_wf _ _ _ Hrw Hadd) as Hrw'.
  pose proof Hadd as [_ ->]%add_decision_ok. set (r' := MkApprovalRequest _ _ _ _ _ _ _ _ _ _ _ _) in *.
  destruct (update_status_cases now r') as (st & -> & Hst).
  split; [by apply set_status_wf|]. simpl.
  destruct Hst as [[_ ->]|[(_ & _ & ->)|[(He & Hr & _ & ->)|(_ & _ & Hc' & _)]]];
    [done..| |congruence].
  split; [done|]. intros _. apply is_completed_spec in Hc. simpl in Hr, Hc.
  destruct (de_approved d) eqn:Ed; [|lia]. simpl in *. rewrite Hrej in *.
  assert (0 ≤ rq_approved_count r)%Z by (rewrite (rw_approved r Hrw); unfold approvals, zlen; lia).
  split_and!; [done|lia|lia|]. exists d. rewrite last_snoc. split; [done|].
  unfold is_expired in He. bool_prop. simpl in He. lia.
Qed.

Lemma approve_request_wf m now id approver comment :
  mgr_wf m → mgr_wf (approve_request m now id approver comment).1.
Proof.
  intros Hwf. unfold approve_request. destruct (am_pending m !! id) as [r|] eqn:Hr; [|done].
  destruct (negb (can_approve r)); [done|].
  destruct (add_decision r _) as [r'|e] eqn:Hadd; [|done]. simpl.
  destruct (mw_pending m Hwf _ _ Hr) as (Hid & Hrw & Hrej & Hst).
  pose proof (add_decision_wf _ _ _ Hrw Hadd) as Hrw'.
  pose proof Hadd as [_ Er]%add_decision_ok.
  destruct (update_status_cases now r') as (st & Eu & Hcases).
  destruct (is_completed (update_status now r')) eqn:Hc.
  - apply (finish_request_wf m id r); [done|done| |].
    + rewrite Eu, Er. done.
    + eapply (decided_final now r); [done|done| |exact Hadd|]; [done|]. by rewrite Eu in Hc.
  - rewrite Eu in *. rewrite is_completed_set_status in Hc. split; simpl.
    + intros id' r2. rewrite lookup_insert. case_decide; [|by apply (mw_pending m Hwf)].
      intros [= <-]. subst id'. rewrite Er in *. simpl in *. split_and!; [done| |lia|].
      * by apply set_status_wf.
      * destruct Hcases as [[_ ->]|[(_ & ? & ->)|[(_ & _ & Hc' & _)|(_ & _ & _ & ->)]]];
          [by right|lia|congruence|done].
    + apply (mw_history m Hwf).
    + intros id'. rewrite lookup_insert. case_decide; [|apply (mw_disjoint m Hwf)].
      subst. intros _. apply (mw_disjoint m Hwf). eauto.
    + intros id' r2 u. rewrite lookup_insert. case_decide; [|by apply (mw_users m Hwf)].
      intros [= <-]. subst id'. rewrite Er. simpl. by apply (mw_users m Hwf).
Qed.

Lemma reject_request_wf m now id approver comment :
  mgr_wf m → mgr_wf (reject_request m now id approver comment).1.
Proof.
  intros Hwf. unfold reject_request. destruct (am_pending m !! id) as [r|] eqn:Hr; [|done].
  destruct (add_decision r _) as [r'|e] eqn:Hadd; [|done]. simpl.
  destruct (mw_pending m Hwf _ _ Hr) as (Hid & Hrw & Hrej & Hst).
  pose proof Hadd as [_ Er]%add_decision_ok. simpl in Er.
  apply (finish_request_wf m id r); [done|done| |].
  - destruct (update_status_cases now r') as (st & -> & _). by rewrite Er.
  - eapply (decided_final now r); [done|done| |exact Hadd|]; [done|].
    rewrite Er. apply is_completed_spec. simpl. lia.
Qed.

Lemma archive_all_wf m ids :
  mgr_wf m → mgr_wf (foldl (λ m id, archive m id ATimedOut) m ids).
Proof.
  revert m. induction ids as [|id ids IH]; intros m Hwf; simpl; [done|].
  apply IH. by apply archive_wf.
Qed.

Lemma appr_step_wf m m' : mgr_wf m → appr_step m m' → mgr_wf m'.
Proof.
  intros Hwf (op & Hop & ->). destruct op; simpl.
  - by apply create_request_wf.
  - by apply approve_request_wf.
  - by apply reject_request_wf.
  - by apply archive_wf.
  - by apply archive_all_wf.
Qed.

Lemma ApprovalManager_new_wf e : mgr_wf (with_rule_engine ApprovalManager_new e).
Proof. split; simpl; intros *; rewrite ?lookup_empty; done. Qed.

Lemma appr_reach_wf e m : rtc appr_step (with_rule_engine ApprovalManager_new e) m → mgr_wf m.
Proof.
  apply (rtc_ind_r (λ m, mgr_wf m)); [apply ApprovalManager_new_wf|].
  intros m1 m2 _ Hstep Hwf. by eapply appr_step_wf.
Qed.

(** The history only grows. *)
Lemma appr_step_history m m' id r :
  mgr_wf m → appr_step m m' → am_history m !! id = Some r → am_history m' !! id = Some r.
Proof.
  intros Hwf (op & Hop & ->) Hh.
  assert (am_pending m !! id = None) as Hp.
  { apply eq_None_not_Some. intros Hp%(mw_disjoint m Hwf). congruence. }
  assert (∀ m st i, am_history m !! id = Some r → am_pending m !! id = None →
    am_history (archive m i st) !! id = Some r ∧ am_pending (archive m i st) !! id = None) as Har.
  { intros m0 st i H0h H0p. unfold archive. destruct (am_pending m0 !! i) eqn:E; [|done]. simpl.
    split; [rewrite lookup_insert_ne by congruence; done|].
    apply lookup_delete_None. by right. }
  destruct op as [i|now i approver c|now i approver c|i|now]; simpl.
  - unfold create_request. by repeat case_match.
  - unfold approve_request. destruct (am_pending m !! i) eqn:E; [|done].
    repeat case_match; simpl; try done. rewrite lookup_insert_ne by congruence. done.
  - unfold reject_request. destruct (am_pending m !! i) eqn:E; [|done].
    repeat case_match; simpl; try done. rewrite lookup_insert_ne by congruence. done.
  - by apply Har.
  - unfold cleanup_expired. simpl. generalize (List.filter (λ kv : string * ApprovalRequest,
      is_expired now kv.2) (hash_order (am_pending m))).*1. intros ids.
    clear Hwf Hop. revert m Hh Hp. induction ids as [|i ids IH]; intros m Hh Hp; simpl; [done|].
    destruct (Har m ATimedOut i Hh Hp) as [??]. by apply IH.
Qed.

Lemma appr_run_history m m' id r :
  mgr_wf m → rtc appr_step m m' → am_history m !! id = Some r → am_history m' !! id = Some r.
Proof.
  intros Hwf Hr. revert Hwf. induction Hr as [|m1 m2 m3 Hs _ IH]; intros Hwf Hh; [done|].
  apply IH; [by eapply appr_step_wf|by eapply appr_step_history].
Qed.

(** ** Properties *)

(** C23. In every state of the manager the counters of a request equal its
    decisions, nobody decided twice, no request is both pending and finished,
    pending requests carry no rejection, and the approvers' lists hold exactly
    the pending requests addressed to them. *)
Theorem approval_invariant e m :
  rtc appr_step (with_rule_engine ApprovalManager_new e) m → mgr_wf m.
Proof.
  intros Hr. apply appr_reach_wf in Hr as [Hp Hh Hd Hu]. by split.
Qed.

(** C24. A request recorded as approved has as many approvals as its level asks
    for and at least one, all from different people, without any rejection, and
    the last one was given before the request expired. *)
Theorem approved_request_sound e m id r :
  rtc appr_step (with_rule_engine ApprovalManager_new e) m →
  am_history m !! id = Some r → rq_status r = AApproved →
  NoDup (de_approver_id <$> rq_decisions r) ∧
  Forall (λ d, de_approved d = true) (rq_decisions r) ∧
  (Z.max 1 (approvals_needed (rq_level r)) ≤ zlen (rq_decisions r))%Z ∧
  ∃ d, last (rq_decisions r) = Some d ∧ (de_decided_at d ≤ rq_expires_at r)%Z.
Proof.
  intros Hr Hh Hst. destruct (mw_history m (appr_reach_wf e m Hr) id r Hh) as (_ & [Ha Hj Ho] & _ & Hap).
  destruct (Hap Hst) as (Hj0 & Ha1 & Hneed & Hlast).
  pose proof (decisions_split (rq_decisions r)) as Hsum.
  split; [done|]. split; [|split; [lia|done]].
  assert (rejections (rq_decisions r) = 0)%Z as Hz by congruence.
  revert Hz. clear. unfold rejections, zlen.
  induction (rq_decisions r) as [|d ds IH]; simpl; [constructor|].
  destruct (de_approved d) eqn:E; simpl; [|lia]. intros Hz. constructor; [done|auto].
Qed.

(** A decision is final: a request in the history keeps its status, counts
    and decisions whatever happens afterwards. *)
Theorem approval_history_final e m m' id r :
  rtc appr_step (with_rule_engine ApprovalManager_new e) m → rtc appr_step m m' →
  am_history m !! id = Some r → am_history m' !! id = Some r.
Proof. intros Hr. apply appr_run_history. by eapply appr_reach_wf. Qed.

(** The work list of a user holds exactly the pending requests that name
    the user as an approver, also after cancellations and expiries, which leave
    stale identifiers in the user's list. *)
Theorem user_pending_requests_exact e m u r :
  rtc appr_step (with_rule_engine ApprovalManager_new e) m →
  r ∈ get_user_pending_requests m u ↔
  am_pending m !! rq_id r = Some r ∧ u ∈ av_user_id <$> rq_required_approvers r.
Proof.
  intros Hr. apply appr_reach_wf in Hr as Hwf. unfold get_user_pending_requests.
  rewrite list_elem_of_omap. split.
  - intros (id & Hid & Hp). destruct (mw_pending m Hwf _ _ Hp) as (<- & _).
    split; [done|]. by apply (mw_users m Hwf (rq_id r) r u).
  - intros [Hp Hu]. exists (rq_id r). split; [|done]. by apply (mw_users m Hwf _ r u).
Qed.

(** Who approves is not checked: any identifier that has not decided yet,
    the requester's own included, completes a single-level request whose
    required approvers are other people. *)
Theorem single_approval_by_anyone m now id r approver comment :
  am_pending m !! id = Some r → rq_level r = Single → req_wf r →
  rq_approved_count r = 0%Z → rq_rejected_count r = 0%Z → (now ≤ rq_expires_at r)%Z →
  ∃ r', (approve_request m now id approver comment).2 = Ok r' ∧ rq_status r' = AApproved ∧
    get_request (approve_request m now id approver comment).1 id = Some r'.
Proof.
  intros Hp Hl [Ha Hj Ho] Hz Hr0 Hexp. unfold approve_request. rewrite Hp.
  unfold can_approve. rewrite Hl, Hz. simpl.
  assert (rq_decisions r = []) as Hds.
  { pose proof (decisions_split (rq_decisions r)). destruct (rq_decisions r); [done|].
    unfold zlen in *. simpl in *. lia. }
  unfold add_decision. rewrite Hds. simpl.
  set (r' := MkApprovalRequest _ _ _ _ _ _ _ _ _ _ _ _).
  assert (update_status now r' = set_status r' AApproved) as ->.
  { unfold update_status, is_expired. simpl. rewrite bool_decide_false by lia.
    rewrite bool_decide_false by lia. unfold is_completed. simpl. rewrite Hl, Hz. done. }
  exists (set_status r' AApproved). rewrite is_completed_set_status.
  assert (is_completed r' = true) as ->.
  { unfold is_completed. simpl. rewrite Hl, Hz. done. }
  split_and!; [done|done|]. unfold get_request. simpl. rewrite lookup_delete_eq, lookup_insert_eq. done.
Qed.

(** A parallel request that asks for no approval can never be approved:
    every attempt is refused, whatever was decided before. *)
Theorem parallel_zero_never_approved m now id r approver comment :
  am_pending m !! id = Some r → rq_level r = Parallel 0 → req_wf r →
  approve_request m now id approver comment = (m, Err "Cannot approve at this stage") ∧
  is_completed r = true.
Proof.
  intros Hp Hl [Ha _ _]. unfold approve_request, is_completed, can_approve. rewrite Hp, Hl.
  assert (0 ≤ rq_approved_count r)%Z by (rewrite Ha; unfold approvals, zlen; lia).
  rewrite bool_decide_false by lia. simpl. by rewrite bool_decide_true.
Qed.

(** ** Idempotency records *)

(** A stored response is given back for the same key exactly until its
    time to live has passed, and no other key is affected by storing it. *)
Theorem idempotency_window now records key response ttl later key' :
  let records' := store_response now records key response ttl in
  (check_or_record later records' key).2 =
    (if bool_decide (later < now + ttl)%Z then Some response else None) ∧
  (key' ≠ key → (check_or_record later records' key').2 = (check_or_record later records key').2).
Proof.
  intros records'. unfold check_or_record, records', store_response, drop_expired, map_retain. simpl. split.
  - case_bool_decide.
    + rewrite (map_lookup_filter_Some_2 _ _ _ (MkIdempotencyRecord response (now + ttl))); [done| |].
      * by rewrite lookup_insert_eq.
      * simpl. by apply Is_true_true, bool_decide_eq_true.
    + rewrite map_lookup_filter_None_2; [done|]. right. intros x. rewrite lookup_insert_eq.
      intros [= <-]. simpl. rewrite Is_true_true, bool_decide_eq_true. done.
  - intros Hne. f_equal. apply option_eq. intros x. rewrite !map_lookup_filter_Some.
    by rewrite lookup_insert_ne.
Qed.
End ApprovalFacts.

(** ** The expiry of a request

    The task [create_request] spawns to expire a request, at the granularity of
    its lock acquisitions.  The guard of [pending.write()] in the scrutinee of
    [if let] lives to the end of the [if let] (edition 2021), so the second
    [pending.write()] inside waits for a lock its own task holds. *)

Section Expiry.
Context `{JsonValue, HashOrder}.

Inductive expiry_pc :=
| Sleeping           (* before the [if let] *)
| WantsSecondLock    (* inside, at the second [pending.write()] *)
| Finished.

(** The manager, whether the lock of [pending] is free, and the position of the
    expiry task of one request. *)
Record lock_state := MkLockState {
  lk_free : bool;
  lk_manager : ApprovalManager;
  lk_task : expiry_pc
}.

Definition set_pending_status (m : ApprovalManager) (id : string) (st : ApprovalStatus)
    : ApprovalManager :=
  MkApprovalManager (map_update (λ r, set_status r st) id (am_pending m)) (am_history m)
    (rule_engine m) (user_requests m).

(** [archive] with the status already set: the rest of the task's body. *)
Definition expire_rest (m : ApprovalManager) (id : string) : ApprovalManager :=
  archive m id ATimedOut.

Inductive lock_step (id : string) : lock_state → lock_state → Prop :=
(* an operation of the manager takes the lock, runs and releases it *)
| ls_operation m pc op :
    lock_step id (MkLockState true m pc) (MkLockState true (appr_apply m op) pc)
(* the expiry task wakes up and finds nothing to expire *)
| ls_nothing m :
    (∀ r, am_pending m !! id = Some r → rq_status r ≠ APending) →
    lock_step id (MkLockState true m Sleeping) (MkLockState true m Finished)
(* ... or a pending request: it marks it and keeps the guard *)
| ls_mark m r :
    am_pending m !! id = Some r → rq_status r = APending →
    lock_step id (MkLockState true m Sleeping)
      (MkLockState false (set_pending_status m id ATimedOut) WantsSecondLock)
(* the second acquisition needs the lock free *)
| ls_move m :
    lock_step id (MkLockState true m WantsSecondLock)
      (MkLockState true (expire_rest m id) Finished).

(** C27. When a request is still pending at its expiry, the expiry task blocks
    itself: it marks the request, then waits for the lock it holds.  From that
    point on no operation of the manager can run, and the request never reaches
    the history. *)
Theorem expiry_task_deadlocks id m r :
  am_pending m !! id = Some r → rq_status r = APending →
  ∃ st, lock_step id (MkLockState true m Sleeping) st ∧
    lk_free st = false ∧ lk_task st = WantsSecondLock ∧
    (∀ st', ¬ lock_step id st st') ∧
    rq_status <$> am_pending (lk_manager st) !! id = Some ATimedOut ∧
    am_history (lk_manager st) = am_history m.
Proof.
  intros Hp Hst. eexists. split; [by eapply ls_mark|]. simpl. split_and!; [done..| | |done].
  - intros st' Hs. inversion Hs.
  - rewrite map_update_lookup, decide_True, Hp by done. done.
Qed.
End Expiry.

(** ** Concrete inputs *)

#[local] Existing Instance json_trees.
#[local] Existing Instance canonical_order.

Definition demo_approver : Approver := MkApprover "hub-admin" "Hub Administrator" "admin".
Definition demo_manager : ApprovalManager :=
  (create_request (with_rule_engine ApprovalManager_new ApprovalRuleEngine_new) "r1" 100
    "file_delete" "node-1" Single [demo_approver] (json_object [])).1.
Definition demo_request : ApprovalRequest :=
  set_metadata (ApprovalRequest_new "r1" 100 "file_delete" "node-1" Single [demo_approver])
    (json_object []).
Definition demo_approved : ApprovalManager := (approve_request demo_manager 200 "r1" "hub-admin" None).1.

Lemma demo_manager_reachable :
  rtc appr_step (with_rule_engine ApprovalManager_new ApprovalRuleEngine_new) demo_manager.
Proof.
  apply rtc_once. exists (AoCreate "r1" 100 "file_delete" "node-1" Single [demo_approver] (json_object [])).
  split; [|done]. split; [done|split; [done|]]. intros u. simpl. rewrite lookup_empty. by apply not_elem_of_nil.
Qed.

Lemma demo_approved_reachable :
  rtc appr_step (with_rule_engine ApprovalManager_new ApprovalRuleEngine_new) demo_approved.
Proof.
  eapply rtc_r; [apply demo_manager_reachable|]. by exists (AoApprove 200 "r1" "hub-admin" None).
Qed.

Lemma demo_pending : am_pending demo_manager !! "r1" = Some demo_request.
Proof. apply lookup_insert_eq. Qed.

Lemma demo_approved_history :
  ∃ r, am_history demo_approved !! "r1" = Some r ∧ rq_status r = AApproved.
Proof.
  assert (rq_status <$> am_history demo_approved !! "r1" = Some AApproved) as E
    by (vm_compute; reflexivity).
  apply fmap_Some in E as (r & Hr & Hst). by exists r.
Qed.

Lemma approval_invariant_witness : mgr_wf demo_approved.
Proof. exact (approval_invariant ApprovalRuleEngine_new demo_approved demo_approved_reachable). Defined.

Lemma approved_request_sound_witness :
  ∃ r, am_history demo_approved !! "r1" = Some r ∧ rq_status r = AApproved ∧
    (1 ≤ zlen (rq_decisions r))%Z.
Proof.
  destruct demo_approved_history as (r & Hr & Hst).
  exists r. split; [exact Hr|]. split; [exact Hst|].
  destruct (approved_request_sound ApprovalRuleEngine_new demo_approved "r1" r
    demo_approved_reachable Hr Hst) as (_ & _ & Hn & _). lia.
Defined.

Lemma approval_history_final_witness :
  let m' := appr_apply demo_approved (AoReject 300 "r1" "someone" None) in
  rq_status <$> am_history m' !! "r1" = Some AApproved.
Proof.
  intros m'. destruct demo_approved_history as (r & Hr & Hst).
  assert (rtc appr_step demo_approved m') as Hs
    by (apply rtc_once; by exists (AoReject 300 "r1" "someone" None)).
  rewrite (approval_history_final ApprovalRuleEngine_new demo_approved m' "r1" r
    demo_approved_reachable Hs Hr). simpl. by rewrite Hst.
Defined.

Lemma user_pending_requests_exact_witness :
  demo_request ∈ get_user_pending_requests demo_manager "hub-admin".
Proof.
  apply (user_pending_requests_exact ApprovalRuleEngine_new demo_manager "hub-admin" demo_request
    demo_manager_reachable).
  split; [exact demo_pending|]. apply list_elem_of_singleton. reflexivity.
Defined.

Lemma single_approval_by_anyone_witness :
  ∃ r', (approve_request demo_manager 200 "r1" "node-1" None).2 = Ok r' ∧ rq_status r' = AApproved ∧
    get_request (approve_request demo_manager 200 "r1" "node-1" None).1 "r1" = Some r'.
Proof.
  apply (single_approval_by_anyone demo_manager 200 "r1" demo_request "node-1" None);
    [exact demo_pending|reflexivity|split; [reflexivity..|constructor]|reflexivity|reflexivity|].
  simpl. lia.
Defined.

Lemma parallel_zero_never_approved_witness :
  let m := (create_request ApprovalManager_new "r2" 100 "x" "n" (Parallel 0) [] (json_object [])).1 in
  (approve_request m 200 "r2" "a" None).2 = Err "Cannot approve at this stage".
Proof.
  intros m. rewrite (proj1 (parallel_zero_never_approved m 200 "r2"
    (set_metadata (ApprovalRequest_new "r2" 100 "x" "n" (Parallel 0) []) (json_object [])) "a" None
    (lookup_insert_eq _ _ _) eq_refl ltac:(split; [reflexivity..|constructor]))).
  reflexivity.
Defined.

Lemma expiry_task_deadlocks_witness :
  ∃ st, lock_step "r1" (MkLockState true demo_manager Sleeping) st ∧ ∀ st', ¬ lock_step "r1" st st'.
Proof.
  destruct (expiry_task_deadlocks "r1" demo_manager demo_request demo_pending eq_refl)
    as (st & Hs & _ & _ & Hno & _).
  exists st. split; [exact Hs|exact Hno].
Defined.
