(* ===== verification/Workspace.v ===== *)
(** The workspace of a node ([crates/uhorse-node-runtime/src/workspace.rs]): the
    resolution of paths, the access check, and the two checks of the executor
    ([executor.rs], [resolve_file_path] and [resolve_execution_dir]).  The glob
    matcher (crate [glob_match]) and the texts of I/O errors are parameters; the
    file index and the directory listings are not modelled. *)
From S2P Require Import Prelude Paths ProtocolTypes.

(** An error of another crate ([ProtocolError], [std::io::Error],
    [serde_json::Error]) is kept as its text. *)
Inductive NodeError :=
| NWorkspace (m : string)
| NPermission (m : string)
| NExecution (m : string)
| NConnection (m : string)
| NConfig (m : string)
| NProtocol (text : string)
| NIo (text : string)
| NSerialization (text : string)
| NTimeout (m : string)
| NInternal (m : string).

Definition NodeError_display (e : NodeError) : string :=
  match e with
  | NWorkspace m => "Workspace error: " +:+ m
  | NPermission m => "Permission denied: " +:+ m
  | NExecution m => "Execution error: " +:+ m
  | NConnection m => "Connection error: " +:+ m
  | NConfig m => "Configuration error: " +:+ m
  | NProtocol text => "Protocol error: " +:+ text
  | NIo text => "IO error: " +:+ text
  | NSerialization text => "Serialization error: " +:+ text
  | NTimeout m => "Timeout: " +:+ m
  | NInternal m => "Internal error: " +:+ m
  end.

Abbreviation NodeResult T := (Result T NodeError).

Class GlobMatch := glob_match : string → string → bool.

(** The texts the standard library gives: the debug form of a path, and the
    error of a failed canonicalisation. *)
Class PathTexts := {
  path_debug : path → string;
  io_error_display : path → string
}.

Record WorkspaceConfig := MkWorkspaceConfig {
  wc_name : string;
  wc_root_path : path;
  wc_read_only : bool;
  wc_allowed_patterns : list string;
  wc_denied_patterns : list string;
  wc_max_file_size : Z;
  wc_allow_symlinks : bool;
  wc_allow_execution : bool
}.

Definition default_max_file_size : Z := 100 * 1024 * 1024.

Definition WorkspaceConfig_default : WorkspaceConfig :=
  MkWorkspaceConfig "default" [CurDir] false ["**/*"] [] default_max_file_size false false.

(** The file index is a cache no access decision reads. *)
Record Workspace := MkWorkspace { ws_config : WorkspaceConfig }.

Section WorkspaceOps.
Context `{FileSystem, GlobMatch, PathTexts}.

Definition canonicalize_root (p : path) : NodeResult path :=
  if negb (fs_exists p) then Err (NWorkspace ("Path does not exist: " +:+ path_debug p))
  else if negb (fs_is_dir p) then Err (NWorkspace ("Path is not a directory: " +:+ path_debug p))
  else match fs_canonicalize p with
       | Some c => Ok c
       | None => Err (NWorkspace ("Failed to canonicalize path: " +:+ io_error_display p))
       end.

Definition set_root (c : WorkspaceConfig) (root : path) : WorkspaceConfig :=
  MkWorkspaceConfig (wc_name c) root (wc_read_only c) (wc_allowed_patterns c)
    (wc_denied_patterns c) (wc_max_file_size c) (wc_allow_symlinks c) (wc_allow_execution c).

(** [Path::file_name]. *)
Definition file_name (p : path) : option string :=
  match last p with Some (CNormal n) => Some n | _ => None end.

Definition Workspace_new (p : path) : NodeResult Workspace :=
  let? canonical := canonicalize_root p in
  let d := WorkspaceConfig_default in
  Ok (MkWorkspace (MkWorkspaceConfig (default "workspace" (file_name canonical)) canonical
    (wc_read_only d) (wc_allowed_patterns d) (wc_denied_patterns d) (wc_max_file_size d)
    (wc_allow_symlinks d) (wc_allow_execution d))).

Definition Workspace_with_config (config : WorkspaceConfig) : NodeResult Workspace :=
  let? root := canonicalize_root (wc_root_path config) in
  Ok (MkWorkspace (set_root config root)).

Definition update_config (w : Workspace) (config : WorkspaceConfig) : NodeResult Workspace :=
  Workspace_with_config config.

Definition root (w : Workspace) : path := wc_root_path (ws_config w).

Definition normalize_existing_aware (p : path) : NodeResult path :=
  match closest_existing p with
  | None => Err (NWorkspace ("Failed to resolve path: " +:+ path_debug p))
  | Some ancestor =>
      match fs_canonicalize ancestor with
      | None => Err (NWorkspace ("Failed to canonicalize ancestor " +:+ path_debug ancestor +:+ ": "
                                 +:+ io_error_display ancestor))
      | Some normalized =>
          match path_strip_prefix ancestor p with
          | None => Err (NWorkspace ("Failed to resolve relative path for " +:+ path_debug p))
          | Some remainder => Ok (replay normalized remainder)
          end
      end
  end.

Definition resolve_path (w : Workspace) (p : path) : NodeResult path :=
  let candidate := if is_absolute p then p else path_join (root w) p in
  normalize_existing_aware candidate.

Definition internal_path (w : Workspace) (p : path) : path := path_join (root w) p.

Definition contains (w : Workspace) (p : path) : bool :=
  match resolve_path w p with
  | Ok resolved => path_starts_with resolved (root w)
  | Err _ => false
  end.

(** [replace] of backslashes by slashes. *)
Definition unix_slashes : string → string :=
  str_map (λ c, if Ascii.eqb c (Ascii.ascii_of_nat 92) then "/"%char else c).

Definition relative_string (w : Workspace) (resolved : path) : string :=
  match default [] (path_strip_prefix (root w) resolved) with
  | [] => "."
  | relative => unix_slashes (path_to_string relative)
  end.

(** The decision on a resolved path. *)
Definition access_decision (w : Workspace) (resolved : path) (write : bool) : bool :=
  if negb (path_starts_with resolved (root w)) then false
  else if write && wc_read_only (ws_config w) then false
  else
    let relative_str := relative_string w resolved in
    if existsb (λ pattern, glob_match pattern relative_str) (wc_denied_patterns (ws_config w)) then false
    else if bool_decide (relative_str = ".") then true
    else existsb (λ pattern, glob_match pattern relative_str) (wc_allowed_patterns (ws_config w)).

Definition can_access (w : Workspace) (p : path) (write : bool) : NodeResult bool :=
  let? resolved := resolve_path w p in
  Ok (access_decision w resolved write).

Definition can_execute (w : Workspace) (p : path) : bool :=
  if negb (wc_allow_execution (ws_config w)) then false
  else unwrap_or (can_access w p false) false.

Definition to_protocol (w : Workspace) : WorkspaceInfo :=
  MkWorkspaceInfo None (wc_name (ws_config w)) (path_to_string (root w)) (wc_read_only (ws_config w))
    (wc_allowed_patterns (ws_config w)) (wc_denied_patterns (ws_config w)).

(** *** The checks of the executor *)

Definition resolve_file_path (w : Workspace) (p : string) (write : bool) : NodeResult path :=
  let? resolved := resolve_path w (path_of_string p) in
  let? ok := can_access w resolved write in
  if ok then Ok resolved
  else Err (NPermission ("Cannot access path: " +:+ path_debug resolved)).

Definition resolve_execution_dir (w : Workspace) (dir : option string) : NodeResult path :=
  let? resolved := match dir with
                   | Some dir => resolve_path w (path_of_string dir)
                   | None => Ok (root w)
                   end in
  let? ok := can_access w resolved false in
  if ok then Ok resolved
  else Err (NPermission ("Working directory outside workspace: " +:+ path_debug resolved)).
End WorkspaceOps.

(** ** Facts *)

Section WorkspaceFacts.
Context `{FileSystem, GlobMatch, PathTexts}.

Lemma normalize_existing_aware_ok p r :
  normalize_existing_aware p = Ok r ↔ canonicalize_existing_aware p = Some r.
Proof.
  unfold normalize_existing_aware, canonicalize_existing_aware.
  destruct (closest_existing p) as [a|]; simpl; [|done].
  destruct (fs_canonicalize a) as [c|]; simpl; [|done].
  destruct (path_strip_prefix a p); simpl; naive_solver.
Qed.

(** The path actually resolved. *)
Definition candidate (w : Workspace) (p : path) : path :=
  if is_absolute p then p else path_join (root w) p.

Lemma resolve_path_ok w p r :
  resolve_path w p = Ok r ↔ canonicalize_existing_aware (candidate w p) = Some r.
Proof. apply normalize_existing_aware_ok. Qed.

Lemma access_decision_true w r write :
  access_decision w r write = true →
  (∃ rest, r = root w ++ rest) ∧ (write = true → wc_read_only (ws_config w) = false) ∧
  (∀ pat, pat ∈ wc_denied_patterns (ws_config w) → glob_match pat (relative_string w r) = false) ∧
  (relative_string w r = "." ∨
   ∃ pat, pat ∈ wc_allowed_patterns (ws_config w) ∧ glob_match pat (relative_string w r) = true).
Proof.
  unfold access_decision. destruct (path_starts_with r (root w)) eqn:Es; [|done]. simpl.
  destruct (write && wc_read_only (ws_config w)) eqn:Ew; [done|].
  destruct (existsb _ (wc_denied_patterns (ws_config w))) eqn:Ed; [done|]. intros Ha.
  split; [by apply path_starts_with_spec|]. split; [by intros ->|]. split.
  - intros pat Hp. destruct (glob_match pat (relative_string w r)) eqn:E; [|done].
    assert (existsb (λ p, glob_match p (relative_string w r)) (wc_denied_patterns (ws_config w)) = true);
      [|congruence].
    apply existsb_exists. exists pat. split; [by apply list_elem_of_In|done].
  - destruct (bool_decide (relative_string w r = ".")) eqn:E; bool_prop; [by left|right].
    apply existsb_exists in Ha as (pat & Hp & Hm). exists pat. split; [by apply list_elem_of_In|done].
Qed.

Context `{!FileSystemLaws}.

Lemma candidate_clean w p : clean_path p → candidate w p = p.
Proof. intros [names ->]. done. Qed.

(** *** Where the system opens a file *)

(** What opening a path for creation does, which the program never asks: the place of
    the file that is opened or made, if any, and whether the path is itself a link to
    something that is not there. *)
Class FileLocation := {
  fs_location : path → option path;
  fs_dangling : path → bool
}.
(** An existing path is opened at its canonical place; another is made in the
    directory above it, which must exist, unless a link stands in its place. *)
Class FileLocationLaws `{!FileLocation} := {
  location_existing : ∀ p, fs_exists p = true → fs_location p = fs_canonicalize p;
  location_created : ∀ q n l, fs_exists (q ++ [CNormal n]) = false → fs_dangling (q ++ [CNormal n]) = false →
    fs_location (q ++ [CNormal n]) = Some l → ∃ c, fs_exists q = true ∧ fs_canonicalize q = Some c ∧ l = c ++ [CNormal n]
}.

Context `{!FileLocation, !FileLocationLaws}.

Lemma location_resolved r real l :
  clean_path r → canonicalize_existing_aware r = Some real → fs_dangling r = false → fs_location r = Some l → l = real.
Proof.
  intros [names ->] Hreal Hd Hl. destruct (fs_exists (RootDir :: (CNormal <$> names))) eqn:Ex.
  - rewrite canonicalize_existing in Hreal by done. rewrite location_existing in Hl by done. congruence.
  - destruct names as [|n names _] using rev_ind.
    { unfold canonicalize_existing_aware, closest_existing in Hreal. simpl in *. by rewrite Ex in Hreal. }
    rewrite fmap_app in *. change (CNormal <$> [n]) with [CNormal n] in *. rewrite app_comm_cons in *.
    set (q := RootDir :: (CNormal <$> names)) in *.
    destruct (location_created q n l Ex Hd Hl) as (c & Hq & Hc & ->).
    unfold canonicalize_existing_aware in Hreal.
    rewrite (closest_existing_missing q [CNormal n]) in Hreal; [|set_solver|done|].
    + simpl in Hreal. rewrite Hc in Hreal. simpl in Hreal. rewrite path_strip_prefix_app in Hreal. simpl in Hreal. congruence.
    + intros [|? [|]] ? ? [= <- <-]; done.
Qed.

(** The text of a place below the root that the patterns are matched with. *)
Definition shown_below (rest : path) : string :=
  match rest with [] => "." | _ => unix_slashes (path_to_string rest) end.

Lemma relative_string_below w rest : relative_string w (root w ++ rest) = shown_below rest.
Proof. unfold relative_string. rewrite path_strip_prefix_app. by destruct rest. Qed.

(** C7. The executor confines every file it opens: when it hands out a path, which is
    not itself a link to something that is not there, the place at which the system
    then opens or makes the file lies inside the workspace root, is allowed and not
    denied, and is not written when the workspace is read-only. *)
Theorem executor_confined w p write r l :
  resolve_file_path w p write = Ok r → fs_dangling r = false → fs_location r = Some l →
  ∃ rest, l = root w ++ rest ∧
    (write = true → wc_read_only (ws_config w) = false) ∧
    (∀ pat, pat ∈ wc_denied_patterns (ws_config w) → glob_match pat (shown_below rest) = false) ∧
    (shown_below rest = "." ∨
     ∃ pat, pat ∈ wc_allowed_patterns (ws_config w) ∧ glob_match pat (shown_below rest) = true).
Proof.
  unfold resolve_file_path. intros (r' & Hr & Ha)%result_bind_ok Hd Hl.
  apply resolve_path_ok, canonicalize_existing_clean in Hr as Hclean.
  unfold can_access in Ha. apply result_bind_ok in Ha as (ok & Hc & Hok).
  destruct ok; [|done]. injection Hok as <-.
  apply result_bind_ok in Hc as (real & Hreal & Hdec). injection Hdec as Hdec.
  apply resolve_path_ok in Hreal. rewrite candidate_clean in Hreal by done.
  apply access_decision_true in Hdec as ((rest & ->) & Hro & Hden & Hall). rewrite relative_string_below in *.
  exists rest. split; [by eapply location_resolved|]. split; [done|]. by split.
Qed.

(** Resolving a path twice reaches a fixed point whatever the path
    contains: no [..], no link and no missing directory can make the result of
    the second resolution resolve elsewhere. *)
Theorem double_resolution_stable w p r1 r2 :
  resolve_path w p = Ok r1 → resolve_path w r1 = Ok r2 → resolve_path w r2 = Ok r2.
Proof.
  rewrite !resolve_path_ok. intros H1' H2'.
  assert (clean_path r1) as Hc by by eapply canonicalize_existing_clean.
  assert (clean_path r2) as Hc2 by by eapply canonicalize_existing_clean.
  rewrite candidate_clean in H2' by done. rewrite candidate_clean by done.
  by apply (canonicalize_clean_stable r1).
Qed.
End WorkspaceFacts.

(** ** Concrete file systems *)

Definition demo_texts : PathTexts :=
  {| path_debug := path_to_string; io_error_display := λ _, "io error" |}.
(** Any pattern of the examples matches every path. *)
Definition demo_glob : GlobMatch := λ pattern _, bool_decide (pattern = "**/*").
Definition demo_config : WorkspaceConfig :=
  MkWorkspaceConfig "ws" [RootDir; CNormal "ws"] false ["**/*"] [] default_max_file_size false false.
Definition demo_workspace : Workspace := MkWorkspace demo_config.

(** A file system without links: the root, [/ws] and [/ws/src]. *)
Definition demo_dirs : list path :=
  [[RootDir]; [RootDir; CNormal "ws"]; [RootDir; CNormal "ws"; CNormal "src"]].
Definition flat_fs : FileSystem :=
  {| fs_exists := λ p, bool_decide (p ∈ demo_dirs);
     fs_is_dir := λ p, bool_decide (p ∈ demo_dirs);
     fs_canonicalize := λ p, if decide (p ∈ demo_dirs) then Some p else None |}.

Lemma flat_fs_laws : @FileSystemLaws flat_fs.
Proof.
  assert (∀ p, p ∈ demo_dirs ↔ p = [RootDir] ∨ p = [RootDir; CNormal "ws"] ∨
    p = [RootDir; CNormal "ws"; CNormal "src"]) as Hd.
  { intros p. unfold demo_dirs. set_solver. }
  split; simpl.
  - intros p c. case_decide as Hp; [|done]. intros [= <-]. rewrite Hd in Hp.
    destruct Hp as [->|[->| ->]]; [by exists []|by exists ["ws"]|by exists ["ws"; "src"]].
  - intros p c. case_decide; [|done]. intros [= <-]. by rewrite decide_True, bool_decide_true.
  - intros p c n. case_decide; [|done]. by intros [= <-].
  - intros p q Hne. rewrite !bool_decide_eq_true, !Hd.
    destruct p as [|x [|y [|z [|? ?]]]]; simpl; naive_solver.
  - done.
Qed.

(** Files are made right below the directories that are there. *)
Definition flat_location : @FileLocation :=
  {| fs_location := λ p, if decide (p ∈ demo_dirs) then Some p
       else match path_parent p with Some q => if decide (q ∈ demo_dirs) then Some p else None | None => None end;
     fs_dangling := λ _, false |}.

Lemma flat_location_laws : @FileLocationLaws flat_fs flat_location.
Proof.
  split; simpl.
  - intros p Hp. apply bool_decide_eq_true in Hp. by rewrite !decide_True by exact Hp.
  - intros q n l Hp _. apply bool_decide_eq_false in Hp. rewrite (path_parent_app q (CNormal n)) by done.
    rewrite decide_False by exact Hp. case_decide as Hq; [|done]. intros [= <-]. exists q. by rewrite bool_decide_eq_true.
Qed.

Lemma executor_confined_witness :
  let _ := flat_fs in let _ := demo_glob in let _ := demo_texts in
  ∃ rest, [RootDir; CNormal "ws"; CNormal "src"; CNormal "new"] = root demo_workspace ++ rest.
Proof.
  intros F G T.
  destruct (executor_confined (H := F) (H0 := G) (H1 := T) (H2 := flat_fs_laws)
    (H3 := flat_location) (H4 := flat_location_laws)
    demo_workspace "src/a/../new" true [RootDir; CNormal "ws"; CNormal "src"; CNormal "new"]
    [RootDir; CNormal "ws"; CNormal "src"; CNormal "new"]
    ltac:(vm_compute; reflexivity) eq_refl ltac:(vm_compute; reflexivity)) as (rest & Hr & _).
  exists rest. exact Hr.
Defined.

Lemma double_resolution_stable_witness :
  let _ := flat_fs in let _ := demo_texts in
  resolve_path demo_workspace [RootDir; CNormal "ws"; CNormal "new"]
  = Ok [RootDir; CNormal "ws"; CNormal "new"].
Proof.
  intros F T. apply (double_resolution_stable (H := F) (H1 := T) (H2 := flat_fs_laws)
    demo_workspace (path_of_string "src/../a/../new") [RootDir; CNormal "ws"; CNormal "new"]);
    vm_compute; reflexivity.
Defined.

(** A file system with a link out of the workspace. *)
Definition link_tree : list (list string * fs_entry) :=
  [(["ws"], EDir); (["ws"; "link"], ELink ["etc"]); (["etc"], EDir); (["etc"; "secret"], EFile)].

(** One access check is not enough, and the second is needed: the check
    accepts [missing/../link/secret], whose resolved form leads through a link to
    a file outside the workspace; the executor, which checks the resolved form
    again, refuses it. *)
Theorem single_check_follows_links :
  let _ := tree_fs link_tree in let _ := demo_glob in let _ := demo_texts in
  let p := "missing/../link/secret" in
  let resolved := [RootDir; CNormal "ws"; CNormal "link"; CNormal "secret"] in
  can_access demo_workspace (path_of_string p) false = Ok true ∧
  resolve_path demo_workspace (path_of_string p) = Ok resolved ∧
  fs_canonicalize resolved = Some [RootDir; CNormal "etc"; CNormal "secret"] ∧
  resolve_file_path demo_workspace p false
  = Err (NPermission "Cannot access path: /ws/link/secret").
Proof. by vm_compute. Qed.

(** Both checks are not enough for a link to something that is not there: to the
    executor [/ws/out] is a missing file of the workspace, and the system makes
    [/etc/new]. *)
Theorem dangling_link_escapes :
  let tree := (["ws"; "out"], ELink ["etc"; "new"]) :: link_tree in
  let _ := tree_fs tree in let _ := demo_glob in let _ := demo_texts in
  resolve_file_path demo_workspace "out" true = Ok [RootDir; CNormal "ws"; CNormal "out"] ∧
  tree_open tree 64 [] [RootDir; CNormal "ws"; CNormal "out"] = Some ["etc"; "new"].
Proof. by vm_compute. Qed.
