(* ===== verification/Permission.v ===== *)
(** Permissions of a node ([crates/uhorse-node-runtime/src/permission.rs]): rules,
    the check of a command, and approval requests kept on the node.  The clock
    reading of a call is an argument: the time of day and the weekday the
    conditions look at, and the timestamp.  [str::to_lowercase] is a parameter
    whose only law is what it does on ASCII. *)
From S2P Require Import Prelude Float32 Json ProtocolTypes ProtocolCommand Paths Workspace.

Class ToLowercase := {
  to_lowercase : string → string;
  to_lowercase_ascii : ∀ s, is_ascii_str s = true → to_lowercase s = ascii_lower s
}.

(** ** Rules *)

Inductive Action := Read | Write | Delete | Execute | Admin.

#[export] Instance Action_eq_dec : EqDecision Action.
Proof. solve_decision. Defined.

Inductive ResourcePattern :=
| AllowAll
| ExactPath (path : string)
| PathPrefix (prefix : string)
| Glob (pattern : string)
| Regex (pattern : string)
| RCommandType (types : list string)
| All (patterns : list ResourcePattern)
| Any (patterns : list ResourcePattern).

Inductive Condition :=
| TimeRange (start end_ : string)
| UserRestriction (allowed_users : list string)
| SizeLimit (max_bytes : Z)
| WeekdayRestriction (allowed_days : list Z)
| IpWhitelist (allowed_ips : list string).

Record PermissionRule := MkPermissionRule {
  pr_id : string;
  pr_name : string;
  pr_description : option string;
  pr_resource : ResourcePattern;
  pr_actions : list Action;
  pr_conditions : list Condition;
  pr_require_approval : bool;
  pr_priority : Z;
  pr_enabled : bool;
  pr_created_at : timestamp;
  pr_updated_at : timestamp
}.

Definition PermissionRule_new (now : timestamp) (id name : string) : PermissionRule :=
  MkPermissionRule id name None AllowAll [Read] [] false 0 true now now.
Definition with_resource (r : PermissionRule) (res : ResourcePattern) : PermissionRule :=
  MkPermissionRule (pr_id r) (pr_name r) (pr_description r) res (pr_actions r) (pr_conditions r)
    (pr_require_approval r) (pr_priority r) (pr_enabled r) (pr_created_at r) (pr_updated_at r).
Definition with_actions (r : PermissionRule) (a : list Action) : PermissionRule :=
  MkPermissionRule (pr_id r) (pr_name r) (pr_description r) (pr_resource r) a (pr_conditions r)
    (pr_require_approval r) (pr_priority r) (pr_enabled r) (pr_created_at r) (pr_updated_at r).
Definition require_approval (r : PermissionRule) (b : bool) : PermissionRule :=
  MkPermissionRule (pr_id r) (pr_name r) (pr_description r) (pr_resource r) (pr_actions r)
    (pr_conditions r) b (pr_priority r) (pr_enabled r) (pr_created_at r) (pr_updated_at r).
Definition with_priority (r : PermissionRule) (p : Z) : PermissionRule :=
  MkPermissionRule (pr_id r) (pr_name r) (pr_description r) (pr_resource r) (pr_actions r)
    (pr_conditions r) (pr_require_approval r) p (pr_enabled r) (pr_created_at r) (pr_updated_at r).

(** The clock reading of a call: the timestamp, [HH:MM] and days from Sunday. *)
Record clock_reading := MkClock { ck_now : timestamp; ck_hhmm : string; ck_weekday : Z }.

Definition evaluate (ck : clock_reading) (c : Condition) (context : TaskContext) : bool :=
  match c with
  | TimeRange start end_ => str_leb start (ck_hhmm ck) && str_leb (ck_hhmm ck) end_
  | UserRestriction allowed_users => bool_decide (user_id_str (tc_user_id context) ∈ allowed_users)
  | SizeLimit _ => true
  | WeekdayRestriction allowed_days => bool_decide (ck_weekday ck ∈ allowed_days)
  | IpWhitelist _ => true
  end.

Section PermissionOps.
Context `{JsonValue, GlobMatch, ToLowercase}.

(** The path the resource patterns look at. *)
Definition command_involves_path (command : Command) (target : string) : bool :=
  match command with
  | CFile c => bool_decide (target_path c = target)
  | CShell c => match sh_cwd c with Some p => bool_decide (p = target) | None => false end
  | CCode c => match cc_workdir c with Some p => bool_decide (p = target) | None => false end
  | _ => false
  end.

Definition command_path_starts_with (command : Command) (prefix : string) : bool :=
  match command with
  | CFile c => String.prefix prefix (target_path c)
  | CShell c => match sh_cwd c with Some p => String.prefix prefix p | None => false end
  | CCode c => match cc_workdir c with Some p => String.prefix prefix p | None => false end
  | _ => false
  end.

Definition command_path_matches_glob (command : Command) (pattern : string) : bool :=
  match command with CFile c => glob_match pattern (target_path c) | _ => false end.

Definition command_path_contains (command : Command) (substr : string) : bool :=
  match command with CFile c => str_contains substr (target_path c) | _ => false end.

Fixpoint resource_matches (r : ResourcePattern) (command : Command) : bool :=
  match r with
  | AllowAll => true
  | ExactPath path => command_involves_path command path
  | PathPrefix prefix => command_path_starts_with command prefix
  | Glob pattern => command_path_matches_glob command pattern
  | Regex pattern => command_path_contains command pattern
  | RCommandType types =>
      let cmd_type := to_lowercase (CommandType_debug (command_type command)) in
      existsb (λ t, bool_decide (to_lowercase t = cmd_type)) types
  | All patterns => forallb (λ p, resource_matches p command) patterns
  | Any patterns => existsb (λ p, resource_matches p command) patterns
  end.

Definition get_required_actions (command : Command) : list Action :=
  match command with
  | CFile c =>
      match c with
      | FRead _ _ _ | FList _ _ _ | FSearch _ _ _ _ | FInfo _ | FExists _ => [Read]
      | FWrite _ _ _ | FAppend _ _ => [Write]
      | FDelete _ _ => [Delete]
      | FCopy _ _ _ => [Read; Write]
      | FMove _ _ _ => [Read; Write; Delete]
      | FCreateDir _ _ => [Write]
      end
  | _ => [Execute]
  end.

Definition rule_matches (ck : clock_reading) (r : PermissionRule) (command : Command)
    (context : TaskContext) : bool :=
  if negb (pr_enabled r) then false
  else if negb (resource_matches (pr_resource r) command) then false
  else if negb (forallb (λ a, bool_decide (a ∈ pr_actions r)) (get_required_actions command)) then false
  else forallb (λ c, evaluate ck c context) (pr_conditions r).

(** ** The manager *)

Inductive NodeApprovalStatus :=
| NaPending
| NaApproved (approver : string) (approved_at : timestamp)
| NaRejected (rejector : string) (rejected_at : timestamp) (reason : string)
| NaExpired.

Record NodeApprovalRequest := MkNodeApprovalRequest {
  na_id : string;
  na_task_id : string;
  na_command : Command;
  na_context : TaskContext;
  na_reason : string;
  na_requested_at : timestamp;
  na_expires_at : timestamp;
  na_status : NodeApprovalStatus
}.

Definition set_na_status (r : NodeApprovalRequest) (st : NodeApprovalStatus) : NodeApprovalRequest :=
  MkNodeApprovalRequest (na_id r) (na_task_id r) (na_command r) (na_context r) (na_reason r)
    (na_requested_at r) (na_expires_at r) st.

Inductive ApprovalResolution :=
| ResApproved (request : NodeApprovalRequest) (task_id : TaskId)
| ResRejected (request : NodeApprovalRequest) (task_id : TaskId).

Record PermissionManager := MkPermissionManager {
  pm_rules : list PermissionRule;
  pm_workspace : Workspace;
  git_protection_enabled : bool;
  pending_approvals : gmap string NodeApprovalRequest;
  approval_timeout_secs : Z
}.

Definition PermissionManager_new (w : Workspace) (git : bool) : PermissionManager :=
  MkPermissionManager [] w git ∅ 300.

Definition set_rules (m : PermissionManager) (rs : list PermissionRule) : PermissionManager :=
  MkPermissionManager rs (pm_workspace m) (git_protection_enabled m) (pending_approvals m)
    (approval_timeout_secs m).
Definition set_pending_approvals (m : PermissionManager) (p : gmap string NodeApprovalRequest)
    : PermissionManager :=
  MkPermissionManager (pm_rules m) (pm_workspace m) (git_protection_enabled m) p
    (approval_timeout_secs m).

(** [b.priority.cmp(&a.priority)]: higher priorities first. *)
Definition priority_leb (a b : PermissionRule) : bool := bool_decide (pr_priority b ≤ pr_priority a)%Z.

Definition add_rule (m : PermissionManager) (r : PermissionRule) : PermissionManager :=
  set_rules m (sort_by priority_leb (pm_rules m ++ [r])).
Definition remove_rule (m : PermissionManager) (id : string) : PermissionManager * bool :=
  let kept := List.filter (λ r, negb (bool_decide (pr_id r = id))) (pm_rules m) in
  (set_rules m kept, bool_decide (length kept < length (pm_rules m))).
Definition replace_rules (m : PermissionManager) (rs : list PermissionRule) : PermissionManager :=
  set_rules m (sort_by priority_leb rs).

Definition load_default_rules (m : PermissionManager) (now : timestamp) : PermissionManager :=
  let rule id name action p :=
    with_priority (require_approval (with_actions (with_resource (PermissionRule_new now id name)
      AllowAll) [action]) false) p in
  add_rule (add_rule (add_rule (add_rule m
    (rule "default-read" "Allow reading files in workspace" Read 1%Z))
    (rule "default-write" "Allow writing files in workspace" Write 2%Z))
    (rule "default-delete" "Allow deleting files in workspace" Delete 3%Z))
    (rule "default-execute" "Allow execution in workspace" Execute 4%Z).

(** ** The check of a command *)

Inductive PermissionResult :=
| Allowed
| Denied (reason : string)
| RequiresApproval (request_id reason : string).

Definition DANGEROUS_GIT_PATTERNS : list string :=
  ["git reset --hard"; "git clean -fd"; "git clean -f -d"; "git checkout --";
   "git restore --source"; "git push --force"; "git push -f"].

Definition check_git_safety (m : PermissionManager) (command : Command) : option string :=
  if negb (git_protection_enabled m) then None
  else
    match command with
    | CShell c =>
        let normalized := to_lowercase (str_join " " (sh_command c :: sh_args c)) in
        (λ p, "Dangerous git command is denied: " +:+ p) <$>
          head (List.filter (λ pattern, str_contains pattern normalized) DANGEROUS_GIT_PATTERNS)
    | _ => None
    end.

Context `{FileSystem, PathTexts}.

Definition validate (m : PermissionManager) (path : string) (write : bool) (prefix : string)
    : option string :=
  match can_access (pm_workspace m) (path_of_string path) write with
  | Ok true => None
  | Ok false => Some (prefix +:+ path)
  | Err error => Some (NodeError_display error)
  end.

Definition validate_file_path (m : PermissionManager) (path : string) (write : bool) : option string :=
  validate m path write "Operation outside workspace: ".

Definition workspace_root_string (m : PermissionManager) : string :=
  path_to_string (root (pm_workspace m)).

Definition validate_shell_workspace (m : PermissionManager) (c : ShellCommand) : option string :=
  validate m (default (workspace_root_string m) (sh_cwd c)) false
    "Shell working directory outside workspace: ".

Definition validate_code_workspace (m : PermissionManager) (c : CodeCommand) : option string :=
  validate m (default (workspace_root_string m) (cc_workdir c)) false
    "Code working directory outside workspace: ".

Definition check_workspace (m : PermissionManager) (command : Command) : option string :=
  match command with
  | CFile c =>
      match c with
      | FRead path _ _ | FList path _ _ | FInfo path | FExists path
      | FSearch _ path _ _ => validate_file_path m path false
      | FWrite path _ _ | FAppend path _ | FDelete path _
      | FCreateDir path _ => validate_file_path m path true
      | FCopy from to _ => or_else (validate_file_path m from false) (validate_file_path m to true)
      | FMove from to _ => or_else (validate_file_path m from true) (validate_file_path m to true)
      end
  | CShell c => validate_shell_workspace m c
  | CCode c => validate_code_workspace m c
  | _ => None
  end.

Fixpoint check_rules (ck : clock_reading) (request_id : string) (rules : list PermissionRule)
    (command : Command) (context : TaskContext) : PermissionResult :=
  match rules with
  | [] => Denied "No matching permission rule"
  | rule :: rest =>
      if rule_matches ck rule command context then
        if pr_require_approval rule
        then RequiresApproval request_id ("Rule '" +:+ pr_name rule +:+ "' requires approval")
        else Allowed
      else check_rules ck request_id rest command context
  end.

Definition check (m : PermissionManager) (ck : clock_reading) (request_id : string)
    (command : Command) (context : TaskContext) : PermissionResult :=
  match check_workspace m command with
  | Some reason => Denied reason
  | None =>
      match check_git_safety m command with
      | Some reason => Denied reason
      | None => check_rules ck request_id (pm_rules m) command context
      end
  end.

(** ** Approvals kept on the node *)

Definition create_approval_request (m : PermissionManager) (now : timestamp) (id task_id : string)
    (command : Command) (context : TaskContext) (reason : string)
    : PermissionManager * NodeApprovalRequest :=
  let request := MkNodeApprovalRequest id task_id command context reason now
    (now + seconds (as_i64 (approval_timeout_secs m)))%Z NaPending in
  (set_pending_approvals m (<[id := request]> (pending_approvals m)), request).

Definition handle_approval_response (m : PermissionManager) (now : timestamp) (request_id : string)
    (approved : bool) (responder : string) (reason : option string)
    : PermissionManager * NodeResult ApprovalResolution :=
  match pending_approvals m !! request_id with
  | Some request =>
      let m' := set_pending_approvals m (delete request_id (pending_approvals m)) in
      if bool_decide (na_expires_at request < now)%Z then
        (m', Err (NPermission "Approval request expired"))
      else
        let task_id := MkTaskId (na_task_id request) in
        (m', Ok (if approved
                 then ResApproved (set_na_status request (NaApproved responder now)) task_id
                 else ResRejected (set_na_status request (NaRejected responder now
                        (default "No reason provided" reason))) task_id))
  | None => (m, Err (NPermission ("Approval request not found: " +:+ request_id)))
  end.

Definition is_pending_approval (r : NodeApprovalRequest) : bool :=
  match na_status r with NaPending => true | _ => false end.

Definition Permission_cleanup_expired (m : PermissionManager) (now : timestamp) : PermissionManager :=
  set_pending_approvals m
    (map_retain (λ _ r, negb (is_pending_approval r && bool_decide (na_expires_at r < now)%Z))
       (pending_approvals m)).

Context `{HashOrder}.

Definition get_pending_approvals (m : PermissionManager) : list NodeApprovalRequest :=
  List.filter is_pending_approval (hash_values (pending_approvals m)).
End PermissionOps.
