(* ===== verification/PermissionFacts.v ===== *)
(** Correctness of the permission manager: the decision of [check], the
    confinement of allowed commands, the git protection and its limits, the
    default rules, and the life of an approval request on the node. *)
From S2P Require Import Prelude Float32 Json ProtocolTypes ProtocolCommand Paths Workspace Permission.

Section PermissionFacts.
Context `{JsonValue, GlobMatch, ToLowercase, FileSystem, PathTexts, HashOrder}.

(** ** The order of the rules *)

Lemma priority_leb_total a b : priority_leb a b = true ∨ priority_leb b a = true.
Proof. unfold priority_leb. rewrite !bool_decide_eq_true. lia. Qed.
Lemma priority_leb_trans a b c :
  priority_leb a b = true → priority_leb b c = true → priority_leb a c = true.
Proof. unfold priority_leb. rewrite !bool_decide_eq_true. lia. Qed.

Definition rules_sorted (rs : list PermissionRule) : Prop :=
  StronglySorted (λ a b, priority_leb a b = true) rs.

Lemma sort_rules_sorted rs : rules_sorted (sort_by priority_leb rs).
Proof. apply sort_by_sorted; [apply priority_leb_total|apply priority_leb_trans]. Qed.

Lemma filter_sorted f rs : rules_sorted rs → rules_sorted (List.filter f rs).
Proof.
  induction 1 as [|r rs Hs IH Hr]; simpl; [constructor|]. destruct (f r); [|done].
  constructor; [done|]. rewrite Forall_forall in Hr |- *. intros x [_ Hx]%elem_of_filter_bool. auto.
Qed.

Inductive perm_op :=
| PoAddRule (r : PermissionRule)
| PoRemoveRule (id : string)
| PoReplaceRules (rs : list PermissionRule)
| PoLoadDefaults (now : timestamp)
| PoCreateApproval (now : timestamp) (id task : string) (c : Command) (ctx : TaskContext) (reason : string)
| PoRespond (now : timestamp) (id : string) (approved : bool) (responder : string) (reason : option string)
| PoCleanup (now : timestamp).

Definition perm_apply (m : PermissionManager) (op : perm_op) : PermissionManager :=
  match op with
  | PoAddRule r => add_rule m r
  | PoRemoveRule id => (remove_rule m id).1
  | PoReplaceRules rs => replace_rules m rs
  | PoLoadDefaults now => load_default_rules m now
  | PoCreateApproval now id task c ctx reason => (create_approval_request m now id task c ctx reason).1
  | PoRespond now id approved responder reason =>
      (handle_approval_response m now id approved responder reason).1
  | PoCleanup now => Permission_cleanup_expired m now
  end.

Definition perm_run : PermissionManager → list perm_op → PermissionManager := foldl perm_apply.

Lemma perm_apply_sorted m op : rules_sorted (pm_rules m) → rules_sorted (pm_rules (perm_apply m op)).
Proof.
  intros Hs. destruct op; simpl; try (apply sort_rules_sorted || done).
  - by apply filter_sorted.
  - unfold handle_approval_response. by repeat case_match.
Qed.

Lemma perm_run_sorted m ops : rules_sorted (pm_rules m) → rules_sorted (pm_rules (perm_run m ops)).
Proof.
  revert m. induction ops as [|op ops IH]; intros m Hs; [done|]. apply IH. by apply perm_apply_sorted.
Qed.

Lemma perm_run_workspace m ops :
  pm_workspace (perm_run m ops) = pm_workspace m ∧
  git_protection_enabled (perm_run m ops) = git_protection_enabled m.
Proof.
  revert m. induction ops as [|op ops IH]; intros m; [done|].
  destruct (IH (perm_apply m op)) as [E1 E2]. change (perm_run m (op :: ops)) with
    (perm_run (perm_apply m op) ops). rewrite E1, E2. destruct op; try done.
  simpl. unfold handle_approval_response. by repeat case_match.
Qed.

(** ** The decision *)

(** The most urgent matching rule: no matching rule has a higher priority. *)
Definition deciding_rule (ck : clock_reading) (rs : list PermissionRule) (command : Command)
    (context : TaskContext) (r : PermissionRule) : Prop :=
  r ∈ rs ∧ rule_matches ck r command context = true ∧
  ∀ r', r' ∈ rs → rule_matches ck r' command context = true → (pr_priority r' ≤ pr_priority r)%Z.

Lemma check_rules_spec ck rid rs command context :
  rules_sorted rs →
  match check_rules ck rid rs command context with
  | Allowed => ∃ r, deciding_rule ck rs command context r ∧ pr_require_approval r = false
  | RequiresApproval id reason => id = rid ∧
      ∃ r, deciding_rule ck rs command context r ∧ pr_require_approval r = true ∧
        reason = "Rule '" +:+ pr_name r +:+ "' requires approval"
  | Denied reason => reason = "No matching permission rule" ∧
      ∀ r, r ∈ rs → rule_matches ck r command context = false
  end.
Proof.
  induction 1 as [|r rs Hs IH Hr]; cbn [check_rules].
  { split; [done|]. intros r Hr. by apply elem_of_nil in Hr. }
  rewrite Forall_forall in Hr. destruct (rule_matches ck r command context) eqn:Em.
  - assert (deciding_rule ck (r :: rs) command context r) as Hd.
    { split_and!; [set_solver|done|]. intros r' [->|Hin]%elem_of_cons _; [done|].
      apply Hr in Hin. unfold priority_leb in Hin. by bool_prop. }
    destruct (pr_require_approval r) eqn:Ea; [split; [done|]|]; by exists r.
  - assert (∀ r', deciding_rule ck rs command context r' →
      deciding_rule ck (r :: rs) command context r') as Hext.
    { intros r' (Hin & Hm & Hmax). split_and!; [set_solver|done|].
      intros r2 [->|Hin2]%elem_of_cons Hm2; [congruence|auto]. }
    destruct (check_rules ck rid rs command context).
    + destruct IH as (r' & Hd & Ha). exists r'. auto.
    + destruct IH as [-> Hno]. split; [done|]. intros r' [->|Hin]%elem_of_cons; [done|auto].
    + destruct IH as (-> & r' & Hd & Ha & ->). split; [done|]. exists r'. auto.
Qed.

(** The decision of [check] after any sequence of operations: a command is
    denied by the workspace first, then by the git protection, then when no rule
    matches; otherwise the matching rule of the highest priority decides between
    allowing it and asking for approval. *)
Theorem check_decision w git ops ck rid command context :
  let m := perm_run (PermissionManager_new w git) ops in
  match check m ck rid command context with
  | Allowed =>
      check_workspace m command = None ∧ check_git_safety m command = None ∧
      ∃ r, deciding_rule ck (pm_rules m) command context r ∧ pr_require_approval r = false
  | RequiresApproval id reason =>
      check_workspace m command = None ∧ check_git_safety m command = None ∧ id = rid ∧
      ∃ r, deciding_rule ck (pm_rules m) command context r ∧ pr_require_approval r = true ∧
        reason = "Rule '" +:+ pr_name r +:+ "' requires approval"
  | Denied reason =>
      check_workspace m command = Some reason ∨
      (check_workspace m command = None ∧ check_git_safety m command = Some reason) ∨
      (check_workspace m command = None ∧ check_git_safety m command = None ∧
       reason = "No matching permission rule" ∧
       ∀ r, r ∈ pm_rules m → rule_matches ck r command context = false)
  end.
Proof.
  intros m. assert (rules_sorted (pm_rules m)) as Hs by (apply perm_run_sorted; constructor).
  unfold check. destruct (check_workspace m command) eqn:Ew; [by left|].
  destruct (check_git_safety m command) eqn:Eg; [by auto|].
  pose proof (check_rules_spec ck rid (pm_rules m) command context Hs) as Hc.
  destruct (check_rules ck rid (pm_rules m) command context); naive_solver.
Qed.

(** ** Confinement *)

(** The paths a file command names, and whether it changes what is there; and the
    directory the process of a shell or code command starts in. *)
Inductive names_path (w : Workspace) : Command → string → bool → Prop :=
| np_read p limit offset : names_path w (CFile (FRead p limit offset)) p false
| np_list p recursive pattern : names_path w (CFile (FList p recursive pattern)) p false
| np_search pattern p recursive content : names_path w (CFile (FSearch pattern p recursive content)) p false
| np_info p : names_path w (CFile (FInfo p)) p false
| np_exists p : names_path w (CFile (FExists p)) p false
| np_write p content overwrite : names_path w (CFile (FWrite p content overwrite)) p true
| np_append p content : names_path w (CFile (FAppend p content)) p true
| np_delete p recursive : names_path w (CFile (FDelete p recursive)) p true
| np_create p recursive : names_path w (CFile (FCreateDir p recursive)) p true
| np_copy_from a b overwrite : names_path w (CFile (FCopy a b overwrite)) a false
| np_copy_to a b overwrite : names_path w (CFile (FCopy a b overwrite)) b true
| np_move_from a b overwrite : names_path w (CFile (FMove a b overwrite)) a true
| np_move_to a b overwrite : names_path w (CFile (FMove a b overwrite)) b true
| np_shell c dir : sh_cwd c = Some dir → names_path w (CShell c) dir false
| np_shell_root c : sh_cwd c = None → names_path w (CShell c) (path_to_string (root w)) false
| np_code c dir : cc_workdir c = Some dir → names_path w (CCode c) dir false
| np_code_root c : cc_workdir c = None → names_path w (CCode c) (path_to_string (root w)) false.

Lemma validate_None m path write prefix :
  validate m path write prefix = None → can_access (pm_workspace m) (path_of_string path) write = Ok true.
Proof. unfold validate. by destruct (can_access _ _ _) as [[]|]. Qed.

Lemma or_else_None {A} (o alt : option A) : or_else o alt = None → o = None ∧ alt = None.
Proof. by destruct o. Qed.

Lemma check_workspace_names m command p write :
  check_workspace m command = None → names_path (pm_workspace m) command p write →
  can_access (pm_workspace m) (path_of_string p) write = Ok true.
Proof.
  intros Hc Hn.
  assert (∃ prefix, validate m p write prefix = None) as [prefix Hv]; [|by eapply validate_None].
  destruct Hn as [| | | | | | | | | | | | |c dir E|c E|c dir E|c E]; simpl in Hc;
    try (apply or_else_None in Hc as [? ?]); try (by eexists).
  - unfold validate_shell_workspace in Hc. rewrite E in Hc. by eexists.
  - unfold validate_shell_workspace in Hc. rewrite E in Hc. by eexists.
  - unfold validate_code_workspace in Hc. rewrite E in Hc. by eexists.
  - unfold validate_code_workspace in Hc. rewrite E in Hc. by eexists.
Qed.

(** C29. Whatever the rules, each path an allowed file command names resolves inside
    the workspace root, matches no denied pattern and (below the root) an allowed
    one, and is one to write only when the workspace is not read-only.  The same
    holds, for reading, of the directory an allowed shell or code command starts in;
    what its process then touches is not checked. *)
Theorem allowed_command_confined m ck rid command context p write :
  check m ck rid command context = Allowed → names_path (pm_workspace m) command p write →
  ∃ rest, resolve_path (pm_workspace m) (path_of_string p) = Ok (root (pm_workspace m) ++ rest) ∧
    (write = true → wc_read_only (ws_config (pm_workspace m)) = false) ∧
    (∀ pat, pat ∈ wc_denied_patterns (ws_config (pm_workspace m)) → glob_match pat (shown_below rest) = false) ∧
    (shown_below rest = "." ∨
     ∃ pat, pat ∈ wc_allowed_patterns (ws_config (pm_workspace m)) ∧ glob_match pat (shown_below rest) = true).
Proof.
  unfold check. intros Hc Hn. destruct (check_workspace m command) eqn:Ew; [done|].
  pose proof (check_workspace_names m command p write Ew Hn) as Ha.
  apply result_bind_ok in Ha as (r & Hr & Hd). injection Hd as Hd.
  apply access_decision_true in Hd as ((rest & ->) & Hro & Hden & Hall). rewrite relative_string_below in *.
  by exists rest.
Qed.

(** ** Git protection *)

(** With the protection on, a shell command whose words joined by single
    spaces contain one of the dangerous patterns, in any letter case, is denied
    whatever the rules say. *)
Theorem dangerous_git_denied m ck rid c context pattern :
  git_protection_enabled m = true → pattern ∈ DANGEROUS_GIT_PATTERNS →
  is_ascii_str (str_join " " (sh_command c :: sh_args c)) = true →
  str_contains pattern (ascii_lower (str_join " " (sh_command c :: sh_args c))) = true →
  ∃ reason, check m ck rid (CShell c) context = Denied reason.
Proof.
  intros Hg Hp Hascii Hc. unfold check. destruct (check_workspace m (CShell c)); [by eexists|].
  unfold check_git_safety. rewrite Hg, to_lowercase_ascii by done. cbn [negb].
  destruct (List.filter _ DANGEROUS_GIT_PATTERNS) as [|p ps] eqn:E; [|by eexists].
  assert (pattern ∈ List.filter (λ p, str_contains p
    (ascii_lower (str_join " " (sh_command c :: sh_args c)))) DANGEROUS_GIT_PATTERNS) as Hin
    by by apply elem_of_filter_bool.
  rewrite E in Hin. by apply elem_of_nil in Hin.
Qed.

(** The protection only sees contiguous text: naming the remote before the
    flag, as in [git push origin main --force], passes it. *)
Theorem force_push_with_remote_passes m :
  let c := with_args (ShellCommand_new "git") ["push"; "origin"; "main"; "--force"] in
  let plain := with_args (ShellCommand_new "git") ["push"; "--force"] in
  git_protection_enabled m = true →
  check_git_safety m (CShell c) = None ∧
  check_git_safety m (CShell plain) = Some "Dangerous git command is denied: git push --force".
Proof.
  intros c plain Hg. unfold check_git_safety. rewrite Hg. split.
  - rewrite to_lowercase_ascii by done. reflexivity.
  - rewrite to_lowercase_ascii by done. reflexivity.
Qed.

(** ** Default rules *)

Definition is_copy_or_move (c : FileCommand) : bool :=
  match c with FCopy _ _ _ | FMove _ _ _ => true | _ => false end.

(** Under the default rules a file command inside the workspace is allowed,
    except copying and moving: they need two permissions at once and every
    default rule grants one, so they are always denied. *)
Theorem default_rules_deny_copy_move w git now ck rid c context :
  let m := load_default_rules (PermissionManager_new w git) now in
  check_workspace m (CFile c) = None →
  check m ck rid (CFile c) context =
    if is_copy_or_move c then Denied "No matching permission rule" else Allowed.
Proof.
  intros m Hw. unfold check. rewrite Hw.
  assert (check_git_safety m (CFile c) = None) as ->.
  { unfold check_git_safety. by destruct (negb _). }
  by destruct c.
Qed.

(** ** The same permissions on both sides of the protocol *)

Definition action_permission (a : Action) : string :=
  match a with
  | Read => "file:read" | Write => "file:write" | Delete => "file:delete"
  | Execute => "file:execute" | Admin => "file:admin"
  end.

(** The actions the node's rules require for a file command are the
    permissions the protocol declares for it, in the same order. *)
Theorem required_actions_agree c :
  action_permission <$> get_required_actions (CFile c) = FileCommand_required_permissions c.
Proof. by destruct c. Qed.

(** ** Approval requests on the node *)

(** A response settles a request once: it leaves the pending requests
    whatever the outcome, an answer after the deadline is refused, an answer in
    time carries the decision and the task, and a second answer finds nothing;
    other requests are untouched. *)
Theorem approval_response_once m now id approved responder reason :
  let '(m', res) := handle_approval_response m now id approved responder reason in
  pending_approvals m' = delete id (pending_approvals m) ∧
  match pending_approvals m !! id with
  | None => res = Err (NPermission ("Approval request not found: " +:+ id))
  | Some r =>
      if bool_decide (na_expires_at r < now)%Z
      then res = Err (NPermission "Approval request expired")
      else match res with
           | Ok (ResApproved r' task) => approved = true ∧ task = MkTaskId (na_task_id r) ∧
               r' = set_na_status r (NaApproved responder now)
           | Ok (ResRejected r' task) => approved = false ∧ task = MkTaskId (na_task_id r) ∧
               r' = set_na_status r (NaRejected responder now (default "No reason provided" reason))
           | Err _ => False
           end
  end ∧
  ∀ now' approved' responder' reason',
    handle_approval_response m' now' id approved' responder' reason'
    = (m', Err (NPermission ("Approval request not found: " +:+ id))).
Proof.
  unfold handle_approval_response.
  destruct (pending_approvals m !! id) as [r|] eqn:Hr.
  - case_bool_decide; simpl.
    + split_and!; [done..|]. intros. by rewrite lookup_delete_eq.
    + split_and!; [done|by destruct approved|]. intros. by rewrite lookup_delete_eq.
  - split_and!; [by rewrite delete_id|done|]. intros. by rewrite Hr.
Qed.
End PermissionFacts.

(** ** Concrete inputs *)

#[local] Existing Instance json_trees.
#[local] Existing Instance flat_fs.
#[local] Existing Instance demo_glob.
#[local] Existing Instance demo_texts.
#[local] Instance demo_lowercase : ToLowercase :=
  {| to_lowercase := ascii_lower; to_lowercase_ascii := λ s _, eq_refl |}.

Definition demo_permissions : PermissionManager :=
  load_default_rules (PermissionManager_new demo_workspace true) 0.
Definition demo_clock : clock_reading := MkClock 0 "12:00" 3.
Definition demo_user : TaskContext := TaskContext_new (MkUserId "u") (MkSessionId "s") "cli" 0.

Lemma allowed_command_confined_witness :
  ∃ rest, resolve_path demo_workspace (path_of_string "src/a") = Ok (root demo_workspace ++ rest).
Proof.
  assert (check demo_permissions demo_clock "r" (CFile (FWrite "src/a" "x" true)) demo_user = Allowed)
    as Ha by (vm_compute; reflexivity).
  destruct (allowed_command_confined demo_permissions demo_clock "r" (CFile (FWrite "src/a" "x" true))
    demo_user "src/a" true Ha (np_write _ _ _ _)) as (rest & Hr & _).
  exists rest. exact Hr.
Defined.

Lemma dangerous_git_denied_witness :
  ∃ reason, check demo_permissions demo_clock "r"
    (CShell (with_args (ShellCommand_new "GIT") ["Push"; "-F"])) demo_user = Denied reason.
Proof.
  apply (dangerous_git_denied demo_permissions demo_clock "r"
    (with_args (ShellCommand_new "GIT") ["Push"; "-F"]) demo_user "git push -f");
    [reflexivity| |reflexivity|reflexivity].
  apply (bool_decide_unpack ("git push -f" ∈ DANGEROUS_GIT_PATTERNS)). vm_compute. exact I.
Defined.

Lemma force_push_with_remote_passes_witness :
  check_git_safety demo_permissions
    (CShell (with_args (ShellCommand_new "git") ["push"; "origin"; "main"; "--force"])) = None.
Proof. exact (proj1 (force_push_with_remote_passes demo_permissions eq_refl)). Defined.

Lemma default_rules_deny_copy_move_witness :
  check demo_permissions demo_clock "r" (CFile (FCopy "src/a" "src/b" true)) demo_user
  = Denied "No matching permission rule".
Proof.
  apply (default_rules_deny_copy_move demo_workspace true 0 demo_clock "r" (FCopy "src/a" "src/b" true)
    demo_user). vm_compute. reflexivity.
Defined.
