(* ===== verification/Notifications.v ===== *)
(** Notification channels and their bindings: channel types and capability flags
    ([crates/uhorse-core/src/types.rs]), the channel registry
    ([crates/uhorse-channel/src/registry.rs]), the bindings of nodes to recipients
    ([crates/uhorse-hub/src/notification_binding.rs]) and the forwarding of node
    events ([message_router.rs]).  What a channel does with a message it is given
    is a parameter; the messages handed to channels are recorded in an outbox. *)
From S2P Require Import Prelude Float32 Json ProtocolTypes ProtocolCommand ProtocolResult.
From S2P Require Import ProtocolMessage Channel.

Inductive ChannelType := Telegram | Slack | Discord | WhatsApp | DingTalk | Feishu | WeWork.

#[export] Instance ChannelType_eq_dec : EqDecision ChannelType.
Proof. solve_decision. Defined.

Definition ChannelType_index (c : ChannelType) : nat :=
  match c with
  | Telegram => 0 | Slack => 1 | Discord => 2 | WhatsApp => 3 | DingTalk => 4 | Feishu => 5 | WeWork => 6
  end.
Definition ChannelType_of_index (n : nat) : ChannelType :=
  match n with
  | 0 => Telegram | 1 => Slack | 2 => Discord | 3 => WhatsApp | 4 => DingTalk | 5 => Feishu | _ => WeWork
  end.

#[export] Instance ChannelType_countable : Countable ChannelType.
Proof. refine (inj_countable' ChannelType_index ChannelType_of_index _). by intros []. Defined.

(** [Display] of a channel type, derived by the [strum] crate. *)
Class ChannelTypeText := channel_type_display : ChannelType → string.

(** ** Capability flags: an 8-bit set *)

Definition CAP_NONE : Z := 0.
Definition CAP_SEND_TO_RECIPIENT : Z := Z.shiftl 1 0.
Definition CAP_INBOUND_WEBHOOK : Z := Z.shiftl 1 1.
Definition CAP_REPLY_CONTEXT : Z := Z.shiftl 1 2.

Definition flags_contains (self other : Z) : bool := bool_decide (Z.land self other = other).
Definition flags_union (self other : Z) : Z := Z.lor self other.

Definition flags_as_strs (f : Z) : list string :=
  (if flags_contains f CAP_SEND_TO_RECIPIENT then ["send_to_recipient"] else []) ++
  (if flags_contains f CAP_INBOUND_WEBHOOK then ["inbound_webhook"] else []) ++
  (if flags_contains f CAP_REPLY_CONTEXT then ["reply_context"] else []).

Record ChannelRecipient := MkChannelRecipient { cr_channel_type : ChannelType; cr_recipient : string }.

(** A registered channel: its capabilities and what sending returns. *)
Record ChannelObj := MkChannelObj {
  co_flags : Z;
  co_send : ChannelRecipient → string → Result unit string
}.

Abbreviation ChannelRegistry := (gmap ChannelType ChannelObj).

(** ** Bindings *)

Record NotificationBinding := MkNotificationBinding {
  nb_channel_type : ChannelType;
  nb_recipient : string
}.

Definition as_recipient (b : NotificationBinding) : ChannelRecipient :=
  MkChannelRecipient (nb_channel_type b) (nb_recipient b).

Record DingTalkNotificationBinding := MkDingTalkNotificationBinding {
  dn_node_id : string;
  dn_user_id : string
}.

Record NotificationBindingManager := MkNotificationBindingManager {
  seed_bindings : gmap string NotificationBinding;
  runtime_bindings : gmap string (option NotificationBinding)
}.

(** [collect] into a map: a later entry replaces an earlier one. *)
Definition NotificationBindingManager_new (seeds : list DingTalkNotificationBinding)
    : NotificationBindingManager :=
  MkNotificationBindingManager
    (foldl (λ m b, <[dn_node_id b := MkNotificationBinding DingTalk (dn_user_id b)]> m) ∅ seeds) ∅.

Definition set_runtime (m : NotificationBindingManager) r : NotificationBindingManager :=
  MkNotificationBindingManager (seed_bindings m) r.

Definition get_binding (m : NotificationBindingManager) (node : string) : option NotificationBinding :=
  match runtime_bindings m !! node with
  | Some binding => binding
  | None => seed_bindings m !! node
  end.

Definition get_user_id (m : NotificationBindingManager) (node : string) : option string :=
  match get_binding m node with
  | Some b => if decide (nb_channel_type b = DingTalk) then Some (nb_recipient b) else None
  | None => None
  end.

Definition set_channel_binding (m : NotificationBindingManager) (node : string) (c : ChannelType)
    (recipient : string) : NotificationBindingManager :=
  set_runtime m (<[node := Some (MkNotificationBinding c recipient)]> (runtime_bindings m)).
Definition set_binding (m : NotificationBindingManager) (node user : string) : NotificationBindingManager :=
  set_channel_binding m node DingTalk user.
Definition clear_runtime_binding (m : NotificationBindingManager) (node : string) : NotificationBindingManager :=
  set_runtime m (delete node (runtime_bindings m)).
Definition unbind (m : NotificationBindingManager) (node : string) : NotificationBindingManager :=
  set_runtime m (<[node := None]> (runtime_bindings m)).
Definition seed_count (m : NotificationBindingManager) : nat := size (seed_bindings m).

(** ** Forwarding *)

Definition notification_kind_name (k : NotificationEventKind) : string :=
  match k with KTest => "test" | KInfo => "info" | KWarn => "warn" | KError => "error" end.

Definition line_feed : string := String (Ascii.ascii_of_nat 10) "".

Definition render_notification_message (node : NodeId) (event : NotificationEvent) : string :=
  let kind := match ne_kind event with
              | KTest => "测试" | KInfo => "信息" | KWarn => "警告" | KError => "错误" end in
  "[uHorse 节点通知]" +:+ line_feed +:+ "类型：" +:+ kind +:+ line_feed +:+ "节点：" +:+ node_id_str node
  +:+ line_feed +:+ "标题：" +:+ ne_title event +:+ line_feed +:+ "内容：" +:+ ne_body event.

Abbreviation outbox := (list (ChannelRecipient * string)).

Definition forward_notification_to_binding `{ChannelTypeText} (bindings : NotificationBindingManager)
    (registry : ChannelRegistry) (sent : outbox) (node : NodeId) (event : NotificationEvent)
    : outbox * HubResult () :=
  match get_binding bindings (node_id_str node) with
  | None => (sent, Ok tt)
  | Some binding =>
      let recipient := as_recipient binding in
      match registry !! cr_channel_type recipient with
      | None => (sent, Ok tt)
      | Some channel =>
          if negb (flags_contains (co_flags channel) CAP_SEND_TO_RECIPIENT) then (sent, Ok tt)
          else
            let text := render_notification_message node event in
            (sent ++ [(recipient, text)],
             match co_send channel recipient text with
             | Ok _ => Ok tt
             | Err error => Err (ECommunication ("Failed to send channel notification via " +:+
                              channel_type_display (cr_channel_type recipient) +:+ ": " +:+ error))
             end)
      end
  end.

(** ** Facts *)

(** Runtime bindings override the seeds: after any of the three operations
    on a node its effective binding is the one just set, none when unbound, or
    the seed when the override is cleared; other nodes keep theirs. *)
Theorem binding_override m node other c r :
  get_binding (set_channel_binding m node c r) node = Some (MkNotificationBinding c r) ∧
  get_binding (unbind m node) node = None ∧
  get_binding (clear_runtime_binding m node) node = seed_bindings m !! node ∧
  (other ≠ node →
     get_binding (set_channel_binding m node c r) other = get_binding m other ∧
     get_binding (unbind m node) other = get_binding m other ∧
     get_binding (clear_runtime_binding m node) other = get_binding m other).
Proof.
  unfold get_binding. simpl. split_and!.
  - by rewrite lookup_insert_eq.
  - by rewrite lookup_insert_eq.
  - by rewrite lookup_delete_eq.
  - intros Hne. by rewrite !lookup_insert_ne, lookup_delete_ne by done.
Qed.

Lemma flags_contains_bit f i :
  (0 ≤ i)%Z → flags_contains f (Z.shiftl 1 i) = Z.testbit f i.
Proof.
  intros Hi. unfold flags_contains. rewrite Z.shiftl_1_l.
  destruct (Z.testbit f i) eqn:E.
  - apply bool_decide_eq_true. apply Z.bits_inj'. intros n Hn. rewrite Z.land_spec, Z.pow2_bits_eqb by lia.
    destruct (Z.eqb_spec i n) as [->|]; [by rewrite E|by rewrite andb_false_r].
  - apply bool_decide_eq_false. intros Hl. apply (f_equal (λ z, Z.testbit z i)) in Hl.
    rewrite Z.land_spec, E, Z.pow2_bits_true in Hl by lia. done.
Qed.

(** An event of a node reaches exactly the recipient bound to the node,
    once, and only through a registered channel whose capability bit for
    sending is set; in every other case nothing is sent and nothing fails. *)
Theorem forward_notification_spec `{ChannelTypeText} bindings registry sent node event :
  let '(sent', res) := forward_notification_to_binding bindings registry sent node event in
  (∃ b ch, get_binding bindings (node_id_str node) = Some b ∧
     registry !! nb_channel_type b = Some ch ∧ Z.testbit (co_flags ch) 0 = true ∧
     sent' = sent ++ [(as_recipient b, render_notification_message node event)]) ∨
  (sent' = sent ∧ res = Ok tt ∧
   ∀ b ch, get_binding bindings (node_id_str node) = Some b →
     registry !! nb_channel_type b = Some ch → Z.testbit (co_flags ch) 0 = false).
Proof.
  unfold forward_notification_to_binding.
  destruct (get_binding bindings (node_id_str node)) as [b|]; [|right; naive_solver].
  simpl. destruct (registry !! nb_channel_type b) as [ch|] eqn:Er; [|right; naive_solver].
  pose proof (flags_contains_bit (co_flags ch) 0 ltac:(lia)) as Hb.
  unfold CAP_SEND_TO_RECIPIENT. rewrite Hb. destruct (Z.testbit (co_flags ch) 0) eqn:Et; simpl.
  - left. exists b, ch. done.
  - right. split_and!; [done|done|]. naive_solver.
Qed.
