(* ===== verification/Hub.v ===== *)
(** The Hub and its message router ([crates/uhorse-hub/src/hub.rs],
    [message_router.rs], and the approver of [security_integration.rs]): the parts
    of the other files put together, the handling of node messages, submission,
    dispatch and cancellation.  Metrics, logs and audit events are left out; the
    JSON of commands and contexts is a parameter. *)
From S2P Require Import Prelude Float32 Json ProtocolTypes ProtocolCommand ProtocolResult.
From S2P Require Import ProtocolMessage Channel Paths NodeManager TaskScheduler.
From S2P Require Import SessionRuntime Approval Notifications Permission.

(** The values the approval metadata is built from. *)
Class WireJson `{JsonValue} := {
  command_json : Command → Value;
  context_json : TaskContext → Value;
  time_json : timestamp → Value
}.

Record HubConfig := MkHubConfig {
  hc_hub_id : string;
  hc_bind_address : string;
  hc_port : Z;
  hc_max_nodes : Z;
  hc_heartbeat_timeout_secs : Z;
  hc_task_timeout_secs : Z;
  hc_max_retries : Z
}.

Definition HubConfig_default : HubConfig :=
  MkHubConfig "default-hub" "0.0.0.0" 8765 100 30 300 3.

Record HubStats := MkHubStats {
  hst_hub_id : string;
  hst_uptime_secs : Z;
  hst_nodes : NodeManagerStats;
  hst_scheduler : SchedulerStats;
  hst_updated_at : timestamp
}.

Section Hub.
Context `{JsonValue}.

(** [SensitiveOperationApprover]. *)
Record OperationApprover := MkOperationApprover {
  oa_manager : ApprovalManager;
  oa_idempotency : gmap string IdempotencyRecord
}.

Record Hub := MkHub {
  hub_config : HubConfig;
  hub_started_at : timestamp;
  node_manager : NodeManager;
  task_scheduler : TaskScheduler;
  channel_registry : ChannelRegistry;
  node_senders : gmap NodeId chan_id;
  node_chans : chan_store HubToNode;
  notification_bindings : NotificationBindingManager;
  session_runtime : SessionRuntimeManager;
  security : option OperationApprover;
  sent_notifications : outbox
}.

Definition Hub_new_with_components (config : HubConfig) (now : timestamp)
    (security : option OperationApprover) (registry : ChannelRegistry)
    (bindings : NotificationBindingManager) : Hub :=
  MkHub config now
    (NodeManager_new (hc_max_nodes config) (hc_heartbeat_timeout_secs config))
    (TaskScheduler_new (hc_max_retries config) (hc_task_timeout_secs config))
    registry ∅ ∅ bindings SessionRuntimeManager_new security [].

Definition Hub_new (config : HubConfig) (now : timestamp) : Hub :=
  Hub_new_with_components config now None ∅ (NotificationBindingManager_new []).

Definition set_node_manager (h : Hub) m : Hub :=
  MkHub (hub_config h) (hub_started_at h) m (task_scheduler h) (channel_registry h) (node_senders h)
    (node_chans h) (notification_bindings h) (session_runtime h) (security h) (sent_notifications h).
Definition set_task_scheduler (h : Hub) s : Hub :=
  MkHub (hub_config h) (hub_started_at h) (node_manager h) s (channel_registry h) (node_senders h)
    (node_chans h) (notification_bindings h) (session_runtime h) (security h) (sent_notifications h).
Definition set_senders (h : Hub) s : Hub :=
  MkHub (hub_config h) (hub_started_at h) (node_manager h) (task_scheduler h) (channel_registry h) s
    (node_chans h) (notification_bindings h) (session_runtime h) (security h) (sent_notifications h).
Definition set_chans (h : Hub) c : Hub :=
  MkHub (hub_config h) (hub_started_at h) (node_manager h) (task_scheduler h) (channel_registry h)
    (node_senders h) c (notification_bindings h) (session_runtime h) (security h) (sent_notifications h).
Definition set_session_runtime (h : Hub) s : Hub :=
  MkHub (hub_config h) (hub_started_at h) (node_manager h) (task_scheduler h) (channel_registry h)
    (node_senders h) (node_chans h) (notification_bindings h) s (security h) (sent_notifications h).
Definition set_security (h : Hub) s : Hub :=
  MkHub (hub_config h) (hub_started_at h) (node_manager h) (task_scheduler h) (channel_registry h)
    (node_senders h) (node_chans h) (notification_bindings h) (session_runtime h) s (sent_notifications h).
Definition set_sent (h : Hub) o : Hub :=
  MkHub (hub_config h) (hub_started_at h) (node_manager h) (task_scheduler h) (channel_registry h)
    (node_senders h) (node_chans h) (notification_bindings h) (session_runtime h) (security h) o.

(** ** Router: connections *)

Definition register_node_sender (h : Hub) (id : NodeId) (sender : chan_id) : Hub :=
  set_senders h (<[id := sender]> (node_senders h)).
Definition unregister_node_sender (h : Hub) (id : NodeId) : Hub :=
  set_senders h (delete id (node_senders h)).

(** ** Approval requests of nodes *)

Definition approval_operation_for_command (c : Command) : string :=
  match command_type c with
  | TFile => "file_delete"
  | TShell => "system_command"
  | TApi | TBrowser | TDatabase => "network_access"
  | TCode | TSkill => "config_change"
  end.

(** [to_std] fails on a negative duration; whole seconds, at least one. *)
Definition approval_request_ttl_seconds (requested_at expires_at : timestamp) : Z :=
  let d := (expires_at - requested_at)%Z in
  if bool_decide (d < 0)%Z then 1 else Z.max (d / nanos_per_sec) 1.

Definition requires_approval (operation : string) : bool :=
  bool_decide (operation ∈ ["file_delete"; "system_command"; "network_access"; "credential_access";
                            "config_change"]).

Definition hub_admin : Approver := MkApprover "hub-admin" "Hub Administrator" "admin".

(** [check_idempotency]: whether the operation was already answered. *)
Definition check_idempotency (secs : Z) (a : OperationApprover) (operation_id : string)
    : OperationApprover * bool :=
  let '(records, r) := check_or_record secs (oa_idempotency a) operation_id in
  (MkOperationApprover (oa_manager a) records, bool_decide (is_Some r)).

Definition request_approval (a : OperationApprover) (uuid : string) (secs : Z) (node : NodeId)
    (operation : string) (level : ApprovalLevel) (context : Value) : OperationApprover * string :=
  let '(m, request) := create_request (oa_manager a) uuid secs operation (node_id_str node) level
                         [hub_admin] context in
  (MkOperationApprover m (oa_idempotency a), rq_id request).

Definition store_idempotency_response (secs : Z) (a : OperationApprover) (operation_id : string)
    (response : Value) (ttl : Z) : OperationApprover :=
  MkOperationApprover (oa_manager a) (store_response secs (oa_idempotency a) operation_id response ttl).

(** The display of [UHorseError::InternalError]. *)
Definition internal_error_display (m : string) : string := "Internal error: " +:+ m.

Definition oa_approve (secs : Z) (a : OperationApprover) (request_id approver : string)
    (comment : option string) : OperationApprover * HubResult () :=
  let '(m, r) := approve_request (oa_manager a) secs request_id approver comment in
  (MkOperationApprover m (oa_idempotency a),
   match r with
   | Ok _ => Ok tt
   | Err e => Err (EPermission ("Failed to approve: " +:+ internal_error_display e))
   end).

Definition oa_reject (secs : Z) (a : OperationApprover) (request_id rejecter : string)
    (comment : option string) : OperationApprover * HubResult () :=
  let '(m, r) := reject_request (oa_manager a) secs request_id rejecter comment in
  (MkOperationApprover m (oa_idempotency a),
   match r with
   | Ok _ => Ok tt
   | Err e => Err (EPermission ("Failed to reject: " +:+ internal_error_display e))
   end).

Definition get_approval_status (a : OperationApprover) (request_id : string)
    : HubResult ApprovalStatus :=
  match get_request (oa_manager a) request_id with
  | Some r => Ok (rq_status r)
  | None => Err (EPermission ("Approval request " +:+ request_id +:+ " not found"))
  end.

(** The environment of a call: the clock, the clock in whole seconds, a fresh
    identifier for an approval, and the readings of the scheduling rounds. *)
Record hub_env := MkHubEnv {
  he_now : timestamp;
  he_secs : Z;
  he_uuid : string;
  he_round : nat → call_env
}.

Context `{HashOrder, ToLowercase, !WireJson}.

Definition approval_metadata (request_id : string) (task : TaskId) (node : NodeId) (command : Command)
    (context : TaskContext) (reason : string) (ts expires_at : timestamp) : Value :=
  json_object
    [("request_id", json_string request_id); ("task_id", json_string (task_id_str task));
     ("node_id", json_string (node_id_str node));
     ("command_type", json_string (to_lowercase (CommandType_debug (command_type command))));
     ("command", command_json command); ("context", context_json context);
     ("reason", json_string reason); ("requested_at", time_json ts); ("expires_at", time_json expires_at)].

(** The session of the task waits for the approval. *)
Definition note_approval_wait (s : SessionRuntimeManager) (now : timestamp) (request_id : string)
    (task : TaskId) (reason : string) : SessionRuntimeManager :=
  match task_binding s task with
  | Some binding =>
      append_transcript_event (mark_waiting_for_approval s (tb_session_key binding)).1 now
        (tb_session_key binding) ApprovalRequested
        ("request_id=" +:+ request_id +:+ "; reason=" +:+ reason)
  | None => s
  end.

(** What follows a negative idempotency check. *)
Definition record_approval (env : hub_env) (h : Hub) (a : OperationApprover) (node : NodeId)
    (request_id : string) (task : TaskId) (command : Command) (context : TaskContext)
    (reason : string) (ts expires_at : timestamp) : Hub :=
  let ttl := approval_request_ttl_seconds ts expires_at in
  let h1 := set_session_runtime h (note_approval_wait (session_runtime h) (he_now env) request_id task reason) in
  let metadata := approval_metadata request_id task node command context reason ts expires_at in
  let '(a1, approval_id) := request_approval a (he_uuid env) (he_secs env) node
      (approval_operation_for_command command) Single metadata in
  let a2 := store_idempotency_response (he_secs env) a1 request_id
      (json_object [("approval_id", json_string approval_id)]) ttl in
  set_security h1 (Some a2).

Definition handle_approval_request (env : hub_env) (h : Hub) (node : NodeId) (request_id : string)
    (task : TaskId) (command : Command) (context : TaskContext) (reason : string)
    (ts expires_at : timestamp) : Hub * HubResult () :=
  match security h with
  | None => (h, Err (EPermission "Approval request requires security manager"))
  | Some a =>
      let '(a1, processed) := check_idempotency (he_secs env) a request_id in
      let h1 := set_security h (Some a1) in
      if processed then (h1, Ok tt)
      else (record_approval env h1 a1 node request_id task command context reason ts expires_at, Ok tt)
  end.

Context `{ChannelTypeText}.

(** ** [route_node_message] *)

Definition route_node_message (env : hub_env) (h : Hub) (node : NodeId) (message : NodeToHub)
    : Hub * HubResult () :=
  match message with
  | NHeartbeat _ _ status load _ =>
      match update_heartbeat (node_manager h) (he_now env) node status load with
      | Ok m => (set_node_manager h m, Ok tt)
      | Err e => (h, Err e)
      end
  | NTaskProgress _ _ _ _ _ => (h, Ok tt)
  | NTaskResult _ task result _ =>
      (set_task_scheduler h (complete_task (task_scheduler h) (he_now env) task node result), Ok tt)
  | NError _ (Some task) error _ =>
      let result := result_failure (ExecutionError_new (nerr_code error) (nerr_message error) SrcExecutor) in
      (set_task_scheduler h (complete_task (task_scheduler h) (he_now env) task node result), Ok tt)
  | NError _ None _ _ => (h, Ok tt)
  | NApprovalRequest _ request_id task command context reason ts expires_at =>
      handle_approval_request env h node request_id task command context reason ts expires_at
  | NNotificationEvent _ _ event =>
      let '(sent, _) := forward_notification_to_binding (notification_bindings h) (channel_registry h)
                          (sent_notifications h) node event in
      (set_sent h sent, Ok tt)
  | NUnregister _ unregister_node_id _ =>
      match unregister_node (node_manager h) unregister_node_id with
      | Ok m => (set_node_manager h m, Ok tt)
      | Err e => (h, Err e)
      end
  | NRegister _ _ _ _ _ _ _ | NSkillReport _ _ _ => (h, Ok tt)
  end.

Context `{FileSystem, SendErrorText}.

(** ** Dispatch *)

(** The loop of [dispatch_pending_tasks]; the fuel bounds its rounds, [None] is
    running out of it or a panic of the scheduler. *)
Fixpoint dispatch_loop (fuel : nat) (round : nat → call_env) (h : Hub) : option Hub :=
  match fuel with
  | O => None
  | S fuel' =>
      let senders := node_senders h in
      if decide (senders = ∅) then Some h
      else
        match schedule_next (node_manager h) senders (round 0) (task_scheduler h) (node_chans h) with
        | None => None
        | Some (s', chans', None) => Some (set_chans (set_task_scheduler h s') chans')
        | Some (s', chans', Some _) =>
            dispatch_loop fuel' (λ n, round (S n)) (set_chans (set_task_scheduler h s') chans')
        end
  end.

(** The number of queued tasks. *)
Definition pending_count (s : TaskScheduler) : nat :=
  sum_list ((λ p, length (queue_of s p)) <$> priorities).

Definition dispatch_pending_tasks (env : hub_env) (h : Hub) : option Hub :=
  dispatch_loop (S (pending_count (task_scheduler h))) (he_round env) h.

(** ** The operations of the Hub; [None] is a panic *)

Definition should_dispatch (message : NodeToHub) : bool :=
  match message with
  | NTaskResult _ _ _ _ | NHeartbeat _ _ _ _ _ | NError _ (Some _) _ _ => true
  | _ => false
  end.

Definition handle_node_message (env : hub_env) (h : Hub) (node : NodeId) (message : NodeToHub)
    : option (Hub * HubResult ()) :=
  let '(h1, r) := route_node_message env h node message in
  match r with
  | Err e => Some (h1, Err e)
  | Ok _ =>
      if should_dispatch message then (λ h2, (h2, Ok tt)) <$> dispatch_pending_tasks env h1
      else Some (h1, Ok tt)
  end.

Definition handle_node_connection (env : hub_env) (h : Hub) (id : NodeId) (name : string)
    (caps : NodeCapabilities) (workspace : WorkspaceInfo) (tags : list string)
    : option (Hub * HubResult ()) :=
  match register_node (node_manager h) (he_now env) id name caps workspace tags with
  | Err e => Some (h, Err e)
  | Ok m => (λ h2, (h2, Ok tt)) <$> dispatch_pending_tasks env (set_node_manager h m)
  end.

Definition handle_node_disconnect (h : Hub) (id : NodeId) : Hub * HubResult () :=
  match unregister_node (node_manager h) id with
  | Err e => (h, Err e)
  | Ok m => (set_node_manager h m, Ok tt)
  end.

Definition Hub_submit_task (env : hub_env) (h : Hub) (command : Command) (context : TaskContext)
    (priority : Priority) (required : option NodeCapabilities) (tags : list string)
    (hint : option string) : option (Hub * TaskId) :=
  let '(s, id) := submit_task (task_scheduler h) (he_now env) command context priority required tags hint in
  (λ h2, (h2, id)) <$> dispatch_pending_tasks env (set_task_scheduler h s).

(** One turn of the background task: nodes first, then tasks. *)
Definition background_tick (now : timestamp) (h : Hub) : Hub :=
  let h1 := set_node_manager h (NodeManager_check_timeouts (node_manager h) now).1 in
  set_task_scheduler h1 (check_timeouts (task_scheduler h1) now).1.

(** [broadcast]: every online node with a sender, in turn; the count of sends. *)
Definition broadcast_one (senders : gmap NodeId chan_id) (message : HubToNode)
    (st : chan_store HubToNode * nat) (n : NodeInfo) : chan_store HubToNode * nat :=
  match senders !! ni_node_id n with
  | Some sender =>
      match chan_send st.1 sender message with
      | Some chans => (chans, S st.2)
      | None => st
      end
  | None => st
  end.

Definition broadcast (h : Hub) (message : HubToNode) : Hub * nat :=
  let '(chans, n) := foldl (broadcast_one (node_senders h) message) (node_chans h, 0)
                       (get_online_nodes (node_manager h)) in
  (set_chans h chans, n).

(** [cancel_task]: the node is told first, then the scheduler. *)
Definition Hub_cancel_task (env : hub_env) (h : Hub) (task : TaskId) (reason : string)
    : Hub * HubResult () :=
  let told : Hub + HubError :=
    match get_task_status (task_scheduler h) task ≫= tsi_node_id with
    | Some node =>
        match node_senders h !! node with
        | Some sender =>
            match chan_send (node_chans h) sender
                    (TaskCancellation (fresh_mid (he_round env 0) 0) task reason) with
            | Some chans => inl (set_chans h chans)
            | None => inr (ECommunication ("Failed to send cancellation: " +:+ send_error_display))
            end
        | None => inl h
        end
    | None => inl h
    end in
  match told with
  | inr e => (h, Err e)
  | inl h1 =>
      match TaskScheduler_cancel_task (task_scheduler h1) (he_now env) task with
      | Ok s => (set_task_scheduler h1 s, Ok tt)
      | Err e => (h1, Err e)
      end
  end.

(** [num_seconds() as u64]. *)
Definition Hub_get_stats (now : timestamp) (h : Hub) : HubStats :=
  MkHubStats (hc_hub_id (hub_config h)) (wrap 64 (Z.quot (now - hub_started_at h) nanos_per_sec))
    (NodeManager_get_stats (node_manager h)) (TaskScheduler_get_stats (task_scheduler h)) now.
End Hub.
