(* ===== verification/HubFacts.v ===== *)
(** Correctness of the Hub: dispatch ends and leaves nothing that could be
    placed, submission, the effect of node messages, the approval requests of
    nodes and cancellation. *)
From S2P Require Import Prelude Float32 Json ProtocolTypes ProtocolCommand ProtocolResult.
From S2P Require Import ProtocolMessage Channel Paths NodeManager TaskScheduler.
From S2P Require Import SchedulerFacts SchedulerTheorems SessionRuntime Approval Notifications.
From S2P Require Import Permission Hub.

Section HubFacts.
Context `{JsonValue, HashOrder, ToLowercase, !WireJson, ChannelTypeText, FileSystem, SendErrorText}.

(** ** Counting queued tasks *)

Lemma sum_list_same {A} (f g : A → nat) l :
  (∀ x, x ∈ l → f x = g x) → sum_list (f <$> l) = sum_list (g <$> l).
Proof.
  intros Hfg. f_equal. apply list_fmap_ext. intros i x Hx. apply Hfg. by eapply list_elem_of_lookup_2.
Qed.

Lemma sum_list_drop {A} (f g : A → nat) l1 x l2 :
  NoDup (l1 ++ x :: l2) → g x = S (f x) →
  (∀ y, y ≠ x → f y = g y) →
  sum_list (g <$> l1 ++ x :: l2) = S (sum_list (f <$> l1 ++ x :: l2)).
Proof.
  intros Hnd Hx Hne. rewrite !fmap_app, !fmap_cons, !sum_list_with_app. simpl.
  apply NoDup_app in Hnd as (_ & Hd & [Hni _]%NoDup_cons).
  assert (sum_list (g <$> l1) = sum_list (f <$> l1)) as E1.
  { apply sum_list_same. intros y Hy. symmetry. apply Hne. intros ->. apply (Hd x); set_solver. }
  assert (sum_list (g <$> l2) = sum_list (f <$> l2)) as E2.
  { apply sum_list_same. intros y Hy. symmetry. apply Hne. intros ->. done. }
  unfold sum_list in *. lia.
Qed.

Lemma put_back_length senders q : length (put_back senders q) = length q.
Proof. by destruct q. Qed.

Lemma NoDup_priorities : NoDup priorities.
Proof. apply (bool_decide_unpack (NoDup priorities)). by vm_compute. Qed.

Lemma schedule_pending_count nm senders env s chans s' chans' r :
  schedule_spec nm senders env s chans priorities s' chans' r →
  pending_count s = match r with Some _ => S (pending_count s') | None => pending_count s' end.
Proof.
  intros Hs. pose proof NoDup_priorities as Hnd. unfold pending_count.
  remember priorities as ps eqn:Eps. destruct Hs as [ps s' _ Hq _ _|before p after t q node c msgs k s' _ Ht _ _ _ _ Hq _ _].
  - apply sum_list_same. intros p _. rewrite Hq. case_decide; [|done]. by rewrite put_back_length.
  - apply sum_list_drop; [done| |].
    + rewrite Hq, decide_True, Ht by done. done.
    + intros p' Hne. rewrite Hq, decide_False by done. case_decide; [|done]. by rewrite put_back_length.
Qed.

(** ** Dispatch *)

(** A task is queued or running. *)
Definition live (s : TaskScheduler) (id : TaskId) : Prop :=
  is_pending s id ∨ is_Some (running_tasks s !! id).

Lemma put_back_ids senders q : qt_task_id <$> put_back senders q = qt_task_id <$> q.
Proof.
  destruct q as [|t q]; [done|]. cbn [put_back]. rewrite !fmap_cons.
  by destruct (bump_retry_fields senders t) as (-> & _).
Qed.

Lemma is_pending_ids s id : is_pending s id ↔ ∃ p, id ∈ qt_task_id <$> queue_of s p.
Proof.
  split.
  - intros (p & t & Ht & <-). exists p. by apply list_elem_of_fmap_2.
  - intros [p (t & -> & Ht)%list_elem_of_fmap]. by exists p, t.
Qed.

Lemma schedule_live nm senders env s chans ps s' chans' r id :
  schedule_spec nm senders env s chans ps s' chans' r → live s id → live s' id.
Proof.
  intros Hs Hl. unfold live in *. rewrite is_pending_ids in *.
  destruct Hs as [ps s' _ Hq Hr _|before p after t q node c msgs k s' _ Ht _ _ _ _ Hq Hr _].
  - rewrite Hr. destruct Hl as [[p Hp]|?]; [left|by right]. exists p. rewrite Hq.
    case_decide; [|done]. by rewrite put_back_ids.
  - rewrite Hr. destruct (decide (id = qt_task_id t)) as [->|Hne].
    { right. rewrite lookup_insert_eq. eauto. }
    destruct Hl as [[p' Hp]|?]; [left|right; rewrite lookup_insert_ne by done; done].
    exists p'. rewrite Hq. case_decide; [subst; rewrite Ht in Hp; set_solver|].
    case_decide; [|done]. by rewrite put_back_ids.
Qed.

Lemma schedule_completed nm senders env s chans ps s' chans' r :
  schedule_spec nm senders env s chans ps s' chans' r → completed_tasks s' = completed_tasks s.
Proof. by intros []. Qed.

Lemma candidates_bump nm senders senders' t :
  schedule_candidates nm senders (bump_retry senders' t) = schedule_candidates nm senders t.
Proof. unfold bump_retry. by case_match. Qed.

Lemma blocked_put_back nm senders chans q :
  blocked nm senders chans q → blocked nm senders chans (put_back senders q).
Proof.
  destruct q as [|t q]; [done|]. intros Hb t' [= <-] n Hn. rewrite candidates_bump in Hn.
  by apply (Hb t).
Qed.

Lemma elem_of_priorities p : p ∈ priorities.
Proof. destruct p; apply (bool_decide_unpack _); by vm_compute. Qed.

(** What dispatch leaves behind. *)
Record dispatched (h h' : Hub) : Prop := {
  di_nodes : node_manager h' = node_manager h;
  di_senders : node_senders h' = node_senders h;
  di_sessions : session_runtime h' = session_runtime h;
  di_security : security h' = security h;
  di_blocked : node_senders h ≠ ∅ → ∀ p,
    blocked (node_manager h) (node_senders h) (node_chans h') (queue_of (task_scheduler h') p);
  di_live : ∀ id, live (task_scheduler h) id → live (task_scheduler h') id;
  di_completed : completed_tasks (task_scheduler h') = completed_tasks (task_scheduler h)
}.

Lemma dispatch_loop_spec fuel round h :
  pending_count (task_scheduler h) < fuel → ∃ h', dispatch_loop fuel round h = Some h' ∧ dispatched h h'.
Proof.
  revert round h. induction fuel as [|fuel IH]; intros round h Hf; [lia|]. cbn [dispatch_loop].
  case_decide as Hs; [exists h; split; [done|]; by split|].
  destruct (schedule_loop_spec (node_manager h) (node_senders h) (round 0) priorities 0
    (task_scheduler h) (node_chans h) NoDup_priorities) as (s' & chans' & r & Hr & Hspec).
  unfold schedule_next. rewrite Hr.
  pose proof (schedule_pending_count _ _ _ _ _ _ _ _ Hspec) as Hc.
  pose proof (schedule_completed _ _ _ _ _ _ _ _ _ Hspec) as Hcomp.
  pose proof (λ id, schedule_live _ _ _ _ _ _ _ _ _ id Hspec) as Hlive.
  set (h1 := set_chans (set_task_scheduler h s') chans').
  destruct r as [sd|].
  - destruct (IH (λ n, round (S n)) h1) as (h' & Hh' & []); [simpl; lia|].
    exists h'. split; [done|]. split; try done.
    + intros id Hid. by apply di_live0, Hlive.
    + by rewrite di_completed0.
  - exists h1. split; [done|]. split; try done. simpl. intros _ p.
    inversion Hspec as [ps s1 Hbl Hq _ _|]; subst. rewrite Hq, decide_True by apply elem_of_priorities.
    apply blocked_put_back, Hbl, elem_of_priorities.
Qed.

Lemma dispatch_spec env h : ∃ h', dispatch_pending_tasks env h = Some h' ∧ dispatched h h'.
Proof. apply dispatch_loop_spec. lia. Qed.

(** C8. Dispatch always ends, within one round more than there are queued
    tasks, and without a panic; when a node is connected, no queue is left with
    a head that some eligible node would accept, no queued or running task is
    lost, and no finished task changes. *)
Theorem dispatch_terminates env h :
  ∃ h', dispatch_pending_tasks env h = Some h' ∧
    (node_senders h = ∅ → h' = h) ∧
    (node_senders h ≠ ∅ → ∀ p, blocked (node_manager h) (node_senders h) (node_chans h')
       (queue_of (task_scheduler h') p)) ∧
    (∀ id, live (task_scheduler h) id → live (task_scheduler h') id) ∧
    completed_tasks (task_scheduler h') = completed_tasks (task_scheduler h).
Proof.
  destruct (dispatch_spec env h) as (h' & Hh & []). exists h'. split_and!; try done.
  intros Hs. unfold dispatch_pending_tasks in Hh. cbn [dispatch_loop] in Hh.
  rewrite decide_True in Hh by done. by injection Hh.
Qed.

(** ** Submission *)

Lemma submit_live s now command context p required tags hint s' id :
  submit_task s now command context p required tags hint = (s', id) →
  is_Some (pending_tasks s !! p) →
  is_pending s' id ∧ (∀ id', live s id' → live s' id') ∧ completed_tasks s' = completed_tasks s.
Proof.
  unfold submit_task. simpl. intros [= <- <-] [q Hq].
  set (s1 := set_counter s _). set (t := MkQueuedTask _ _ _ _ _ _ _ _ _ _).
  assert (∀ p', queue_of (set_pending s1 (map_update (λ queue, queue ++ [t]) p (pending_tasks s))) p'
    = if decide (p = p') then queue_of s p' ++ [t] else queue_of s p') as Hqs.
  { intros p'. unfold queue_of. simpl. rewrite map_update_lookup. case_decide; [|done].
    subst. by rewrite Hq. }
  split_and!; [| |done].
  - exists p, t. rewrite Hqs, decide_True by done. split; [set_solver|done].
  - intros id' [(p' & t' & Ht' & <-)|?]; [left|by right]. exists p', t'. rewrite Hqs.
    case_decide; set_solver.
Qed.

(** A submitted task is accepted at once: the call returns an identifier
    never given before, and the task is then queued or running, and no other
    queued or running task is lost. *)
Theorem hub_submit_accepts env h command context p required tags hint :
  sched_wf (task_scheduler h) → (task_counter (task_scheduler h) < u64_max)%Z →
  ∃ h' id, Hub_submit_task env h command context p required tags hint = Some (h', id) ∧
    ¬ issued (task_scheduler h) id ∧ live (task_scheduler h') id ∧
    (∀ id', live (task_scheduler h) id' → live (task_scheduler h') id').
Proof.
  intros Hwf Hc. unfold Hub_submit_task.
  destruct (submit_task (task_scheduler h) (he_now env) command context p required tags hint)
    as [s id] eqn:E.
  destruct (submit_live _ _ _ _ _ _ _ _ _ _ E (sw_dom _ Hwf p)) as (Hp & Hlive & _).
  destruct (dispatch_spec env (set_task_scheduler h s)) as (h' & -> & []). simpl in *.
  exists h', id. split_and!; [done| |by apply di_live0; left|auto].
  unfold submit_task in E. simpl in E. injection E as _ <-. by apply next_id_fresh.
Qed.

(** ** Node messages *)

(** A node message always ends in a result, whatever it is: handling never
    panics, and a message that reports neither a result nor a heartbeat nor an
    error of a task leaves the scheduler exactly as it was. *)
Theorem handle_node_message_total env h node message :
  ∃ h' r, handle_node_message env h node message = Some (h', r) ∧
    (should_dispatch message = false → task_scheduler h' = task_scheduler h).
Proof.
  unfold handle_node_message. destruct (route_node_message env h node message) as [h1 r] eqn:E.
  assert (should_dispatch message = false → task_scheduler h1 = task_scheduler h) as Hsame.
  { intros Hd. destruct message as [| | | |? [|]| | | |]; simpl in Hd, E; try done; simplify_eq; try done.
    - unfold handle_approval_request in E. destruct (security h); [|by simplify_eq].
      destruct (check_idempotency _ _ _) as [a1 []]; simplify_eq; [done|].
      unfold record_approval. by destruct (request_approval _ _ _ _ _ _ _).
    - by destruct (unregister_node _ _); simplify_eq.
    - by destruct (forward_notification_to_binding _ _ _ _ _); simplify_eq. }
  destruct r as [u|e]; [|by exists h1, (Err e)].
  destruct (should_dispatch message) eqn:Ed; [|by exists h1, (Ok tt)].
  destruct (dispatch_spec env h1) as (h2 & -> & _). by exists h2, (Ok tt).
Qed.

(** The Hub does not compare the sender of a result with the node the task
    runs on: any node that names a running task ends it, with the outcome it
    claims, and the record still names the node the task was given to. *)
Theorem result_accepted_from_any_node env h other task r result metrics mid :
  running_tasks (task_scheduler h) !! task = Some r → other ≠ rt_node_id r →
  size (completed_tasks (task_scheduler h)) < 500 →
  let '(h', res) := route_node_message env h other (NTaskResult mid task result metrics) in
  res = Ok tt ∧ running_tasks (task_scheduler h') !! task = None ∧
  ∃ c, completed_tasks (task_scheduler h') !! task = Some c ∧ ct_result c = result ∧
    ct_node_id c = rt_node_id r ∧
    ct_status c = if cr_success result then StatusCompleted else StatusFailed.
Proof.
  intros Hr Hne Hs. cbn [route_node_message]. split; [done|].
  unfold complete_task. rewrite Hr.
  set (c := completed_of_running _ _ _ _ _).
  destruct (finish_fields (set_running (task_scheduler h) (delete task (running_tasks (task_scheduler h)))) c
    (MkTaskResult task other result)) as (_ & Er & Hrec & _).
  cbn [task_scheduler set_task_scheduler]. rewrite Er. split; [apply lookup_delete_eq|].
  exists c. rewrite Hrec by done. simpl. by rewrite lookup_insert_eq.
Qed.

(** A node may unregister another one: the identifier in the message is
    taken, not the sender's. *)
Theorem unregister_names_any_node env h sender victim info reason mid :
  nodes (node_manager h) !! victim = Some info → sender ≠ victim →
  let '(h', res) := route_node_message env h sender (NUnregister mid victim reason) in
  res = Ok tt ∧ get_node (node_manager h') victim = None ∧
  get_node (node_manager h') sender = get_node (node_manager h) sender.
Proof.
  intros Hv Hne. cbn [route_node_message]. unfold unregister_node. rewrite Hv.
  split; [done|]. unfold get_node. simpl.
  by rewrite lookup_delete_eq, lookup_delete_ne.
Qed.

(** ** Approval requests *)

Lemma drop_expired_lookup now (records : gmap string IdempotencyRecord) key r :
  drop_expired now records !! key = Some r ↔ records !! key = Some r ∧ (now < ir_expires_at r)%Z.
Proof. unfold drop_expired. by rewrite map_retain_lookup, bool_decide_eq_true. Qed.

Lemma check_idempotency_miss secs a rid :
  oa_idempotency a !! rid = None →
  ∃ a', check_idempotency secs a rid = (a', false) ∧ oa_manager a' = oa_manager a ∧
    oa_idempotency a' !! rid = None.
Proof.
  intros Hnone. assert (drop_expired secs (oa_idempotency a) !! rid = None) as E.
  { apply eq_None_not_Some. intros [x Hx]. apply drop_expired_lookup in Hx as [Hx _]. congruence. }
  unfold check_idempotency, check_or_record. rewrite E. eexists. split; [reflexivity|]. done.
Qed.

Lemma check_idempotency_hit secs a rid x :
  oa_idempotency a !! rid = Some x → (secs < ir_expires_at x)%Z →
  ∃ a', check_idempotency secs a rid = (a', true) ∧ oa_manager a' = oa_manager a.
Proof.
  intros Hx Hlt. assert (drop_expired secs (oa_idempotency a) !! rid = Some x) as E
    by by apply drop_expired_lookup.
  unfold check_idempotency, check_or_record. rewrite E. eexists. split; [reflexivity|]. done.
Qed.

Lemma record_approval_records env h a node rid task command context reason ts expires_at :
  ∃ a' response, security (record_approval env h a node rid task command context reason ts expires_at) = Some a' ∧
    oa_idempotency a' !! rid = Some (MkIdempotencyRecord response
      (he_secs env + approval_request_ttl_seconds ts expires_at)).
Proof.
  unfold record_approval. destruct (request_approval _ _ _ _ _ _ _) as [a1 aid].
  eexists _, _. split; [reflexivity|]. simpl. unfold store_response. by rewrite lookup_insert_eq.
Qed.

(** Without automatic rules a recorded request is pending. *)
Lemma record_approval_pending env h a node rid task command context reason ts expires_at :
  rule_engine (oa_manager a) = ApprovalRuleEngine_new →
  ∃ a' r, security (record_approval env h a node rid task command context reason ts expires_at) = Some a' ∧
    am_pending (oa_manager a') = <[he_uuid env := r]> (am_pending (oa_manager a)) ∧
    rule_engine (oa_manager a') = ApprovalRuleEngine_new.
Proof.
  intros Hrules. unfold record_approval, request_approval, create_request, evaluate_auto_approve,
    evaluate_auto_reject. rewrite Hrules. simpl. eexists _, _. split; [reflexivity|]. done.
Qed.

(** A node may repeat an approval request: within the lifetime of the
    request its identifier is recognised and the Hub creates no second approval. *)
Theorem approval_request_deduplicated env1 env2 h node rid task command context reason ts expires_at a :
  security h = Some a → oa_idempotency a !! rid = None →
  (he_secs env2 < he_secs env1 + approval_request_ttl_seconds ts expires_at)%Z →
  let '(h1, r1) := handle_approval_request env1 h node rid task command context reason ts expires_at in
  let '(h2, r2) := handle_approval_request env2 h1 node rid task command context reason ts expires_at in
  r1 = Ok tt ∧ r2 = Ok tt ∧ oa_manager <$> security h2 = oa_manager <$> security h1 ∧
  session_runtime h2 = session_runtime h1.
Proof.
  intros Ha Hnone Hlt. unfold handle_approval_request at 1. rewrite Ha.
  destruct (check_idempotency_miss (he_secs env1) a rid Hnone) as (a1 & -> & _ & _).
  set (h1 := record_approval _ _ _ _ _ _ _ _ _ _ _).
  destruct (record_approval_records env1 (set_security h (Some a1)) a1 node rid task command context
    reason ts expires_at) as (a2 & response & Hs & Hrec). fold h1 in Hs.
  unfold handle_approval_request. rewrite Hs.
  destruct (check_idempotency_hit (he_secs env2) a2 rid _ Hrec Hlt) as (a3 & -> & Hm).
  simpl. by rewrite Hm.
Qed.

(** The check and the record of an approval request are two separate steps:
    when two copies of a request are both checked before either is recorded, the
    Hub creates two approvals for it. *)
Theorem approval_check_then_record_race env1 env2 h node rid task command context reason ts expires_at a :
  security h = Some a → oa_idempotency a !! rid = None →
  rule_engine (oa_manager a) = ApprovalRuleEngine_new → he_uuid env1 ≠ he_uuid env2 →
  let '(a1, p1) := check_idempotency (he_secs env1) a rid in
  let '(a2, p2) := check_idempotency (he_secs env2) a1 rid in
  let h1 := record_approval env1 h a2 node rid task command context reason ts expires_at in
  ∃ a3, security h1 = Some a3 ∧
  let h2 := record_approval env2 h1 a3 node rid task command context reason ts expires_at in
  p1 = false ∧ p2 = false ∧
  ∃ a4, security h2 = Some a4 ∧ is_Some (am_pending (oa_manager a4) !! he_uuid env1) ∧
    is_Some (am_pending (oa_manager a4) !! he_uuid env2).
Proof.
  intros Ha Hnone Hrules Hne.
  destruct (check_idempotency_miss (he_secs env1) a rid Hnone) as (a1 & -> & Hm1 & Hnone1).
  destruct (check_idempotency_miss (he_secs env2) a1 rid Hnone1) as (a2 & -> & Hm2 & _).
  destruct (record_approval_pending env1 h a2 node rid task command context reason ts expires_at)
    as (a3 & r3 & Hs3 & Hp3 & Hr3); [congruence|].
  exists a3. split; [done|].
  destruct (record_approval_pending env2 (record_approval env1 h a2 node rid task command context reason
    ts expires_at) a3 node rid task command context reason ts expires_at Hr3) as (a4 & r4 & Hs4 & Hp4 & _).
  split; [done|]. split; [done|]. exists a4. split; [done|].
  rewrite Hp4, Hp3, lookup_insert_eq, lookup_insert_ne, lookup_insert_eq by done. eauto.
Qed.

(** The lifetime of a recorded request is at least one second, and is the
    whole number of seconds between the two times when that is larger. *)
Theorem approval_ttl_bounds requested expires :
  (1 ≤ approval_request_ttl_seconds requested expires)%Z ∧
  (requested + seconds 1 ≤ expires →
   seconds (approval_request_ttl_seconds requested expires) ≤ expires - requested
     < seconds (approval_request_ttl_seconds requested expires + 1))%Z.
Proof.
  unfold approval_request_ttl_seconds, seconds, nanos_per_sec. split.
  - case_bool_decide; lia.
  - intros Hle. rewrite bool_decide_false by lia.
    pose proof (Z.div_mod (expires - requested) 1000000000 ltac:(lia)) as Hdm.
    pose proof (Z.mod_pos_bound (expires - requested) 1000000000 ltac:(lia)) as Hmb.
    assert (1 ≤ (expires - requested) / 1000000000)%Z by lia.
    rewrite Z.max_l by lia. lia.
Qed.

(** ** Cancellation *)

Lemma running_status s id r :
  running_tasks s !! id = Some r → get_task_status s id ≫= tsi_node_id = Some (rt_node_id r).
Proof. unfold get_task_status. by intros ->. Qed.

(** Cancelling a running task tells its node first.  When the node's
    channel takes the message, exactly one cancellation is added to it and the
    task ends as cancelled; when the channel is closed, the call fails and the
    task stays running, although the Hub could still have ended it. *)
Theorem hub_cancel_running env h task r c reason :
  running_tasks (task_scheduler h) !! task = Some r → ¬ is_pending (task_scheduler h) task →
  node_senders h !! rt_node_id r = Some c →
  let '(h', res) := Hub_cancel_task env h task reason in
  match node_chans h !! c with
  | Some (MkChan true msgs) =>
      res = Ok tt ∧ running_tasks (task_scheduler h') = delete task (running_tasks (task_scheduler h)) ∧
      node_chans h' !! c = Some (MkChan true (msgs ++
        [TaskCancellation (fresh_mid (he_round env 0) 0) task reason]))
  | _ => h' = h ∧ is_ok res = false ∧ running_tasks (task_scheduler h') !! task = Some r
  end.
Proof.
  intros Hr Hnp Hc. unfold Hub_cancel_task. rewrite (running_status _ _ _ Hr), Hc.
  unfold chan_send. destruct (node_chans h !! c) as [[[] msgs]|]; simpl; [|done..].
  unfold TaskScheduler_cancel_task. apply find_pending_None in Hnp. rewrite Hnp, Hr.
  set (s1 := set_running _ _). set (comp := completed_of_running _ _ _ _ _).
  destruct (finish_fields s1 comp (MkTaskResult task (rt_node_id r) cancelled_result)) as (_ & Er & _ & _).
  simpl. rewrite Er. split_and!; [done|done|]. by rewrite lookup_insert_eq.
Qed.
End HubFacts.

(** ** Concrete inputs *)

#[local] Existing Instance json_trees.
#[local] Existing Instance canonical_order.
#[local] Existing Instance demo_files.
#[local] Existing Instance demo_text.
#[local] Instance demo_wire : WireJson :=
  {| command_json := λ c, GenLeaf (CommandType_debug (command_type c));
     context_json := λ c, GenLeaf (tc_channel c); time_json := λ t, GenLeaf (display_u t) |}.
#[local] Instance demo_lower : ToLowercase :=
  {| to_lowercase := ascii_lower; to_lowercase_ascii := λ s _, eq_refl |}.
#[local] Instance demo_channels : ChannelTypeText := λ _, "DingTalk".

Definition demo_approver_state : OperationApprover := MkOperationApprover ApprovalManager_new ∅.
Definition demo_hub (s : TaskScheduler) : Hub :=
  MkHub HubConfig_default 0 demo_nodes s ∅ {[MkNodeId "n1" := 0]} {[0 := MkChan true []]}
    (NotificationBindingManager_new []) SessionRuntimeManager_new (Some demo_approver_state) [].
Definition demo_hub_env (uuid : string) : hub_env := MkHubEnv 50 50 uuid (λ _, demo_env).
(** One task, running on the node ["n1"]. *)
Definition demo_running : TaskScheduler := reach 3 60 [demo_submit Low; demo_schedule].

Lemma demo_running_task :
  ∃ r, running_tasks demo_running !! task_id_of_counter 0 = Some r ∧ rt_node_id r = MkNodeId "n1".
Proof.
  assert (rt_node_id <$> running_tasks demo_running !! task_id_of_counter 0 = Some (MkNodeId "n1")) as E
    by (vm_compute; reflexivity).
  apply fmap_Some in E as (r & Hr & Hn). by exists r.
Qed.

Lemma hub_submit_accepts_witness :
  ∃ h' id, Hub_submit_task (demo_hub_env "u") (demo_hub demo_running) demo_command demo_context Low
    None [] None = Some (h', id) ∧ live (task_scheduler h') id.
Proof.
  destruct (hub_submit_accepts (demo_hub_env "u") (demo_hub demo_running) demo_command demo_context Low
    None [] None (reach_wf 3 60 [demo_submit Low; demo_schedule] ltac:(lia) ltac:(by vm_compute))
    ltac:(by vm_compute)) as (h' & id & Hs & _ & Hl & _).
  exists h', id. split; [exact Hs|exact Hl].
Defined.

Lemma result_accepted_from_any_node_witness :
  let '(h', res) := route_node_message (demo_hub_env "u") (demo_hub demo_running) (MkNodeId "intruder")
    (NTaskResult (MkMessageId "m") (task_id_of_counter 0) demo_ok (MkExecutionMetrics 0 0 0 0 0 0)) in
  running_tasks (task_scheduler h') !! task_id_of_counter 0 = None.
Proof.
  destruct demo_running_task as (r & Hr & Hn).
  assert (size (completed_tasks demo_running) < 500) as Hs
    by (assert (size (completed_tasks demo_running) = 0) as -> by (vm_compute; reflexivity); lia).
  pose proof (result_accepted_from_any_node (demo_hub_env "u") (demo_hub demo_running)
    (MkNodeId "intruder") (task_id_of_counter 0) r demo_ok (MkExecutionMetrics 0 0 0 0 0 0) (MkMessageId "m")
    Hr ltac:(rewrite Hn; discriminate) Hs) as Ha.
  destruct (route_node_message _ _ _ _) as [h' res]. exact (proj1 (proj2 Ha)).
Defined.

Lemma approval_request_deduplicated_witness :
  let h := demo_hub demo_running in
  let handle h := handle_approval_request (demo_hub_env "u") h (MkNodeId "n1") "request-1" (MkTaskId "t")
    demo_command demo_context "why" 0 (seconds 60) in
  (handle (handle h).1).2 = Ok tt.
Proof.
  intros h handle.
  pose proof (approval_request_deduplicated (demo_hub_env "u") (demo_hub_env "u") h (MkNodeId "n1")
    "request-1" (MkTaskId "t") demo_command demo_context "why" 0 (seconds 60) demo_approver_state
    eq_refl eq_refl ltac:(by vm_compute)) as Hd.
  unfold handle. destruct (handle_approval_request _ h _ _ _ _ _ _ _ _) as [h1 r1]. cbn [fst].
  destruct (handle_approval_request _ h1 _ _ _ _ _ _ _ _) as [h2 r2]. exact (proj1 (proj2 Hd)).
Defined.

Lemma approval_check_then_record_race_witness :
  let h := demo_hub demo_running in
  let record uuid h a := record_approval (demo_hub_env uuid) h a (MkNodeId "n1") "request-1" (MkTaskId "t")
    demo_command demo_context "why" 0 (seconds 60) in
  let a2 := (check_idempotency 50 (check_idempotency 50 demo_approver_state "request-1").1 "request-1").1 in
  ∃ a3 a4, security (record "u1" h a2) = Some a3 ∧ security (record "u2" (record "u1" h a2) a3) = Some a4 ∧
    is_Some (am_pending (oa_manager a4) !! "u1") ∧ is_Some (am_pending (oa_manager a4) !! "u2").
Proof.
  intros h record a2.
  destruct (approval_check_then_record_race (demo_hub_env "u1") (demo_hub_env "u2") h (MkNodeId "n1")
    "request-1" (MkTaskId "t") demo_command demo_context "why" 0 (seconds 60) demo_approver_state
    eq_refl eq_refl eq_refl ltac:(discriminate)) as (a3 & H3 & _ & _ & a4 & H4 & Hu1 & Hu2).
  exists a3, a4. split_and!; [exact H3|exact H4|exact Hu1|exact Hu2].
Defined.

Lemma hub_cancel_running_witness :
  running_tasks (task_scheduler (Hub_cancel_task (demo_hub_env "u") (demo_hub demo_running)
    (task_id_of_counter 0) "stop").1) !! task_id_of_counter 0 = None.
Proof.
  destruct demo_running_task as (r & Hr & Hn).
  assert (¬ is_pending demo_running (task_id_of_counter 0)) as Hp.
  { apply find_pending_None, (fmap_None (λ x, x.1.2)). vm_compute. reflexivity. }
  pose proof (hub_cancel_running (demo_hub_env "u") (demo_hub demo_running) (task_id_of_counter 0) r 0 "stop"
    Hr Hp ltac:(rewrite Hn; reflexivity)) as Hc.
  destruct (Hub_cancel_task _ _ _ _) as [h' res]. destruct Hc as (_ & Hrun & _).
  cbn [fst]. rewrite Hrun. apply lookup_delete_eq.
Defined.

Lemma unregister_names_any_node_witness :
  get_node (node_manager (route_node_message (demo_hub_env "u") (demo_hub demo_running)
    (MkNodeId "intruder") (NUnregister (MkMessageId "m") (MkNodeId "n1") "bye")).1) (MkNodeId "n1") = None.
Proof.
  assert (is_Some (nodes demo_nodes !! MkNodeId "n1")) as [info Hi]
    by (apply (bool_decide_unpack (is_Some _)); vm_compute; exact I).
  pose proof (unregister_names_any_node (demo_hub_env "u") (demo_hub demo_running) (MkNodeId "intruder")
    (MkNodeId "n1") info "bye" (MkMessageId "m") Hi ltac:(discriminate)) as Hu.
  destruct (route_node_message _ _ _ _) as [h' res]. exact (proj1 (proj2 Hu)).
Defined.
