(* ===== verification/Executor.v ===== *)
(** The command executor of a node
    ([crates/uhorse-node-runtime/src/executor.rs] and the default build of
    [browser.rs]).  Every effect is a call to the operating system, a value of
    [syscall]; what a call answers and how it changes the world is the parameter
    [Os].  A computation records the calls it makes with the world each was made
    in, so that the theorems can speak of every file the executor touches. *)
From Stdlib Require Import SpecFloat.
From S2P Require Import Prelude Text Float32 Json ProtocolTypes ProtocolCommand ProtocolResult Paths.
From S2P Require Import Workspace Permission.

(** ** Slices by characters *)

Definition skip_offset (content : string) (offset : option Z) : string :=
  match offset with
  | Some o => slice_from (default (String.length content) (char_indices 0 content !! Z.to_nat o)) content
  | None => content
  end.
Definition keep_limit (content : string) (limit : option Z) : string :=
  match limit with
  | Some l => slice_to (default (String.length content) (char_indices 0 content !! Z.to_nat l)) content
  | None => content
  end.

(** ** The system calls *)

Record entry_metadata := MkEntryMetadata { md_is_dir : bool; md_len : Z }.

(** The full [metadata] that [get_file_info] reads. *)
Record file_metadata := MkFileMetadata {
  fm_is_dir : bool;
  fm_len : Z;
  fm_modified : option timestamp;
  fm_created : option timestamp
}.

Record process := MkProcess {
  p_program : string;
  p_args : list string;
  p_cwd : path;
  p_env : gmap string string
}.

(** The outcome of [timeout(d, command.output())]; the two outputs as
    [from_utf8_lossy] decodes them. *)
Inductive process_outcome :=
| PTimeout
| PSpawnError (text : string)
| PExited (code : option Z) (stdout stderr : string).

Section Executor.
Context `{JsonValue, GlobMatch, PathTexts, ToLowercase}.

Inductive http_outcome :=
| HBuildError (text : string)
| HSendError (text : string)
| HResponse (status : Z) (headers : gmap string string) (body : option Value).

Abbreviation io T := (Result T string).

Inductive syscall : Type → Type :=
| ReadToString (p : path) : syscall (io string)
| CreateDirAll (p : path) : syscall (io unit)
| CreateDir (p : path) : syscall (io unit)
| WriteFile (p : path) (content : string) : syscall (io unit)
| OpenAppend (p : path) : syscall (io unit)
| AppendAll (p : path) (content : string) : syscall (io unit)
| RemoveDirAll (p : path) : syscall (io unit)
| RemoveDir (p : path) : syscall (io unit)
| RemoveFile (p : path) : syscall (io unit)
| ReadDir (p : path) : syscall (io (list (io path)))
| EntryMetadata (p : path) : syscall (option entry_metadata)
| Metadata (p : path) : syscall (io file_metadata)
| IsFile (p : path) : syscall bool
| TryExists (p : path) : syscall (io bool)
| CopyFile (from to : path) : syscall (io Z)
| RenameFile (from to : path) : syscall (io unit)
| RunProcess (p : process) (timeout : duration) : syscall process_outcome
| HttpSend (c : ApiCommand) : syscall http_outcome
| OpenUrl (url : string) : syscall (io unit).

(** The operating system: what the path methods of the standard library see of
    a world, and what a call does to it. *)
Class Os (W : Type) := {
  os_view : W → FileSystem;
  os_step : ∀ R, syscall R → W → W * R
}.

(** Texts of the standard library and JSON values of the outputs. *)
Class ExecTexts := {
  duration_debug : duration → string;
  json_number : Z → Value;
  json_bool : bool → Value;
  json_array : list Value → Value;
  json_opt_time : option timestamp → Value;
  json_null : Value
}.

Context {W : Type} `{!Os W, !ExecTexts}.

(** ** Computations *)

Inductive outcome (A : Type) :=
| Done (r : NodeResult A)
| Panicked
| OutOfFuel.
#[global] Arguments Done {A} r.
#[global] Arguments Panicked {A}.
#[global] Arguments OutOfFuel {A}.

Record exec_state := MkExec { xw : W; xlog : list (W * sigT syscall) }.

Definition Exec (A : Type) : Type := exec_state → exec_state * outcome A.

Definition exec_ret {A} (r : NodeResult A) : Exec A := λ s, (s, Done r).
Definition exec_bind {A B} (c : Exec A) (k : A → Exec B) : Exec B := λ s,
  match c s with
  | (s', Done (Ok a)) => k a s'
  | (s', Done (Err e)) => (s', Done (Err e))
  | (s', Panicked) => (s', Panicked)
  | (s', OutOfFuel) => (s', OutOfFuel)
  end.
(** A system call; its answer is a value, not yet an error of the executor. *)
Definition sys {R} (c : syscall R) : Exec R := λ s,
  let '(w', r) := os_step R c (xw s) in
  (MkExec w' (xlog s ++ [(xw s, existT R c)]), Done (Ok r)).
(** A reading of the file system through the methods of [Path]. *)
Definition view {A} (f : FileSystem → NodeResult A) : Exec A := λ s, (s, Done (f (os_view (xw s)))).
(** A call whose I/O error becomes an [Execution] error. *)
Definition try_sys {T} (prefix : string) (c : syscall (io T)) : Exec T :=
  exec_bind (sys c) (λ r, exec_ret
    match r with Ok v => Ok v | Err e => Err (NExecution (prefix +:+ e)) end).

#[local] Notation "'let!' x := c 'in' k" := (exec_bind c (λ x, k))
  (at level 10, x binder, c at level 100, k at level 200).

(** ** The executor *)

Record CommandExecutor := MkCommandExecutor {
  ce_workspace : Workspace;
  ce_internal_work_dir : string;
  ce_default_timeout : duration;
  ce_max_output_size : Z
}.

Definition CommandExecutor_new (w : Workspace) (internal_work_dir : string) : CommandExecutor :=
  MkCommandExecutor w internal_work_dir (seconds 60) (10 * 1024 * 1024).

Implicit Types ex : CommandExecutor.

Definition resolve_file ex (p : string) (write : bool) : Exec path :=
  view (λ fs, resolve_file_path (H := fs) (ce_workspace ex) p write).
Definition resolve_dir ex (dir : option string) : Exec path :=
  view (λ fs, resolve_execution_dir (H := fs) (ce_workspace ex) dir).
Definition accessible ex (p : path) (write : bool) : Exec bool :=
  view (λ fs, can_access (H := fs) (ce_workspace ex) p write).
Definition path_exists (p : path) : Exec bool := view (λ fs, Ok (@fs_exists fs p)).
Definition path_is_dir (p : path) : Exec bool := view (λ fs, Ok (@fs_is_dir fs p)).

(** The object of a file operation. *)
Definition file_operation (action : string) (p : path) (more : list (string * Value)) : CommandOutput :=
  OJson (json_object ([("kind", json_string "file_operation"); ("action", json_string action);
                       ("path", json_string (path_to_string p))] ++ more)).

Definition create_parent (p : path) : Exec unit :=
  match path_parent p with
  | Some parent => try_sys ("Failed to create parent directory " +:+ path_debug parent +:+ ": ")
                     (CreateDirAll parent)
  | None => exec_ret (Ok tt)
  end.

Definition file_read ex (p : string) (limit offset : option Z) : Exec CommandOutput :=
  let! path := resolve_file ex p false in
  let! content := try_sys ("Failed to read file " +:+ path_debug path +:+ ": ") (ReadToString path) in
  exec_ret (Ok (OText (keep_limit (skip_offset content offset) limit))).

Definition file_write ex (p content : string) (overwrite : bool) : Exec CommandOutput :=
  let! path := resolve_file ex p true in
  let! exists_ := path_exists path in
  if exists_ && negb overwrite
  then exec_ret (Err (NExecution ("File already exists: " +:+ path_debug path)))
  else
    let! _ := create_parent path in
    let! _ := try_sys ("Failed to write file " +:+ path_debug path +:+ ": ") (WriteFile path content) in
    exec_ret (Ok (file_operation "write" path
      [("bytes_written", json_number (Z.of_nat (String.length content)))])).

Definition file_append ex (p content : string) : Exec CommandOutput :=
  let! path := resolve_file ex p true in
  let! _ := create_parent path in
  let! _ := try_sys ("Failed to open file " +:+ path_debug path +:+ ": ") (OpenAppend path) in
  let! _ := try_sys ("Failed to append to file " +:+ path_debug path +:+ ": ") (AppendAll path content) in
  exec_ret (Ok (file_operation "append" path
    [("bytes_appended", json_number (Z.of_nat (String.length content)))])).

Definition file_delete ex (p : string) (recursive : bool) : Exec CommandOutput :=
  let! path := resolve_file ex p true in
  let! dir := path_is_dir path in
  let! _ :=
    if dir then
      try_sys ("Failed to delete directory " +:+ path_debug path +:+ ": ")
        (if recursive then RemoveDirAll path else RemoveDir path)
    else try_sys ("Failed to delete file " +:+ path_debug path +:+ ": ") (RemoveFile path) in
  exec_ret (Ok (OText "Deleted successfully")).

(** *** Listing and searching *)

Definition entry_name (p : path) : string := default "" (file_name p).

Definition push_entry (p : path) : Exec Value :=
  let! metadata := sys (EntryMetadata p) in
  exec_ret (Ok (json_object
    [("name", json_string (entry_name p)); ("path", json_string (path_to_string p));
     ("is_dir", json_bool (from_option md_is_dir false metadata));
     ("size", json_number (from_option md_len 0%Z metadata))])).

Definition read_entry (e : io path) : Exec path :=
  exec_ret match e with Ok p => Ok p | Err t => Err (NExecution ("Failed to read entry: " +:+ t)) end.

Definition read_directory (p : path) : Exec (list (io path)) :=
  try_sys ("Failed to read directory " +:+ path_debug p +:+ ": ") (ReadDir p).

(** The loop over the entries of a directory: entries that are not accessible
    are skipped, [body] gives what an accessible one adds. *)
Fixpoint for_entries ex (body : path → Exec (list Value)) (entries : list (io path)) : Exec (list Value) :=
  match entries with
  | [] => exec_ret (Ok [])
  | e :: rest =>
      let! p := read_entry e in
      let! ok := accessible ex p false in
      let! here := if ok then body p else exec_ret (Ok []) in
      let! later := for_entries ex body rest in
      exec_ret (Ok (here ++ later))
  end.

Definition name_matches (pattern : option string) (p : path) : bool :=
  match pattern with Some pat => glob_match pat (entry_name p) | None => true end.

Definition list_here (pattern : option string) (p : path) : Exec (list Value) :=
  if name_matches pattern p then let! v := push_entry p in exec_ret (Ok [v])
  else exec_ret (Ok []).

Fixpoint list_recursive (fuel : nat) ex (pattern : option string) (dir : path) : Exec (list Value) :=
  match fuel with
  | O => λ s, (s, OutOfFuel)
  | S fuel' =>
      let! entries := read_directory dir in
      for_entries ex (λ p,
        let! here := list_here pattern p in
        let! is_dir := path_is_dir p in
        let! below := if is_dir then list_recursive fuel' ex pattern p else exec_ret (Ok []) in
        exec_ret (Ok (here ++ below))) entries
  end.

Definition file_list (fuel : nat) ex (p : string) (recursive : bool) (pattern : option string)
    : Exec CommandOutput :=
  let! path := resolve_file ex p false in
  let! entries :=
    if recursive then list_recursive fuel ex pattern path
    else let! dir := read_directory path in for_entries ex (list_here pattern) dir in
  exec_ret (Ok (OJson (json_object [("entries", json_array entries)]))).

Definition search_hit (p : path) (more : list (string * Value)) : Value :=
  json_object ([("path", json_string (path_to_string p)); ("name", json_string (entry_name p))] ++ more).

Definition search_here (pattern : string) (content_pattern : option string) (p : path) : Exec (list Value) :=
  if glob_match pattern (entry_name p) then
    match content_pattern with
    | None => exec_ret (Ok [search_hit p []])
    | Some cp =>
        let! file := sys (IsFile p) in
        if file then
          let! content := sys (ReadToString p) in
          exec_ret (Ok match content with
                       | Ok text => if str_contains cp text
                                    then [search_hit p [("matched_content", json_bool true)]] else []
                       | Err _ => []
                       end)
        else exec_ret (Ok [])
    end
  else exec_ret (Ok []).

Fixpoint search_recursive (fuel : nat) ex (pattern : string) (content_pattern : option string)
    (dir : path) : Exec (list Value) :=
  match fuel with
  | O => λ s, (s, OutOfFuel)
  | S fuel' =>
      let! entries := read_directory dir in
      for_entries ex (λ p,
        let! here := search_here pattern content_pattern p in
        let! is_dir := path_is_dir p in
        let! below := if is_dir then search_recursive fuel' ex pattern content_pattern p
                      else exec_ret (Ok []) in
        exec_ret (Ok (here ++ below))) entries
  end.

Definition search_single_dir ex (pattern : string) (content_pattern : option string) (dir : path)
    : Exec (list Value) :=
  let! entries := read_directory dir in
  for_entries ex (search_here pattern content_pattern) entries.

Definition file_search (fuel : nat) ex (pattern p : string) (recursive : bool)
    (content_pattern : option string) : Exec CommandOutput :=
  let! path := resolve_file ex p false in
  let! results := if recursive then search_recursive fuel ex pattern content_pattern path
                  else search_single_dir ex pattern content_pattern path in
  exec_ret (Ok (OJson (json_object [("results", json_array results)]))).

(** *** Copying, moving, information *)

Definition destination_free (to : path) (overwrite : bool) : Exec unit :=
  let! exists_ := path_exists to in
  if exists_ && negb overwrite
  then exec_ret (Err (NExecution ("Destination already exists: " +:+ path_debug to)))
  else create_parent to.

Definition file_copy ex (from to : string) (overwrite : bool) : Exec CommandOutput :=
  let! from := resolve_file ex from false in
  let! to := resolve_file ex to true in
  let! _ := destination_free to overwrite in
  let! copied := try_sys "Failed to copy: " (CopyFile from to) in
  exec_ret (Ok (file_operation "copy" to
    [("source_path", json_string (path_to_string from));
     ("destination_path", json_string (path_to_string to)); ("bytes_copied", json_number copied)])).

Definition file_move ex (from to : string) (overwrite : bool) : Exec CommandOutput :=
  let! from := resolve_file ex from true in
  let! to := resolve_file ex to true in
  let! _ := destination_free to overwrite in
  let! _ := try_sys "Failed to move: " (RenameFile from to) in
  exec_ret (Ok (file_operation "move" to
    [("source_path", json_string (path_to_string from));
     ("destination_path", json_string (path_to_string to))])).

(** [Workspace::get_file_info]: the error of [metadata] is a [Workspace] error. *)
Definition get_file_info ex (p : string) : Exec (path * file_metadata) :=
  let! path := resolve_file ex p false in
  let! r := sys (Metadata path) in
  exec_ret match r with
           | Ok m => Ok (path, m)
           | Err e => Err (NWorkspace ("Failed to get metadata: " +:+ e))
           end.

Definition file_info ex (p : string) : Exec CommandOutput :=
  let! '(path, m) := get_file_info ex p in
  exec_ret (Ok (OJson (json_object
    [("path", json_string (path_to_string path));
     ("name", json_string (default "unknown" (file_name path)));
     ("is_dir", json_bool (fm_is_dir m)); ("size", json_number (fm_len m));
     ("modified", json_opt_time (fm_modified m)); ("created", json_opt_time (fm_created m));
     ("mode", json_null)]))).

Definition file_create_dir ex (p : string) (recursive : bool) : Exec CommandOutput :=
  let! path := resolve_file ex p true in
  let! _ := try_sys ("Failed to create directory " +:+ path_debug path +:+ ": ")
              (if recursive then CreateDirAll path else CreateDir path) in
  exec_ret (Ok (file_operation "create_dir" path [("recursive", json_bool recursive)])).

Definition file_exists ex (p : string) : Exec CommandOutput :=
  let! path := resolve_file ex p false in
  let! exists_ := try_sys ("Failed to check file " +:+ path_debug path +:+ ": ") (TryExists path) in
  exec_ret (Ok (OJson (json_object [("exists", json_bool exists_)]))).

Definition execute_file (fuel : nat) ex (c : FileCommand) : Exec CommandOutput :=
  match c with
  | FRead path limit offset => file_read ex path limit offset
  | FWrite path content overwrite => file_write ex path content overwrite
  | FAppend path content => file_append ex path content
  | FDelete path recursive => file_delete ex path recursive
  | FList path recursive pattern => file_list fuel ex path recursive pattern
  | FSearch pattern path recursive content_pattern =>
      file_search fuel ex pattern path recursive content_pattern
  | FCopy from to overwrite => file_copy ex from to overwrite
  | FMove from to overwrite => file_move ex from to overwrite
  | FInfo path => file_info ex path
  | FCreateDir path recursive => file_create_dir ex path recursive
  | FExists path => file_exists ex path
  end.

(** *** Processes *)

(** [&output[..max]] panics inside a character; [None] is the panic. *)
Definition limit_output ex (output : string) : option string :=
  if bool_decide (Z.of_nat (String.length output) ≤ ce_max_output_size ex)%Z then Some output
  else
    let k := Z.to_nat (ce_max_output_size ex) in
    if is_char_boundary output k
    then Some (slice_to k output +:+ String (ascii_of_nat 10) "... output truncated ...")
    else None.

(** [{:?}] of an exit code. *)
Definition exit_code_debug (code : option Z) : string :=
  match code with Some c => "Some(" +:+ pretty c +:+ ")" | None => "None" end.

Definition process_text (stdout stderr : string) : string :=
  if bool_decide (stderr = "") then stdout
  else stdout +:+ (if bool_decide (stdout = "") then "" else String (ascii_of_nat 10) "") +:+ stderr.

Definition process_result (code : option Z) (stdout stderr : string) : NodeResult CommandOutput :=
  if bool_decide (code = Some 0%Z) then Ok (OText (process_text stdout stderr))
  else Err (NExecution ("Command failed with exit code " +:+ exit_code_debug code +:+
              (if bool_decide (stderr = "") then "" else ": " +:+ stderr))).

Definition run_process ex (p : process) (timeout : duration) : Exec CommandOutput :=
  let timeout := if bool_decide (timeout = 0)%Z then ce_default_timeout ex else timeout in
  let! r := sys (RunProcess p timeout) in
  match r with
  | PTimeout => exec_ret (Err (NTimeout ("Command timed out after " +:+ duration_debug timeout)))
  | PSpawnError e => exec_ret (Err (NExecution ("Failed to execute command: " +:+ e)))
  | PExited code stdout stderr =>
      match limit_output ex stdout, limit_output ex stderr with
      | Some out, Some err => exec_ret (process_result code out err)
      | _, _ => λ s, (s, Panicked)
      end
  end.

Definition looks_like_shell_script (command : string) : bool :=
  existsb (λ c, str_contains c command) [" "; "|"; "&"; ";"; ">"; "<"].

Definition execute_shell ex (c : ShellCommand) : Exec CommandOutput :=
  let! cwd := resolve_dir ex (sh_cwd c) in
  let use_shell_wrapper := bool_decide (sh_args c = []) && looks_like_shell_script (sh_command c) in
  run_process ex
    (if use_shell_wrapper then MkProcess "sh" ["-c"; sh_command c] cwd (sh_env c)
     else MkProcess (sh_command c) (sh_args c) cwd (sh_env c)) (sh_timeout c).

Definition ensure_internal_work_dir ex : Exec path :=
  let internal_dir := internal_path (ce_workspace ex) (path_of_string (ce_internal_work_dir ex)) in
  let! ok := accessible ex internal_dir true in
  if negb ok
  then exec_ret (Err (NPermission ("Internal work directory outside workspace: " +:+ path_debug internal_dir)))
  else
    let! _ := try_sys ("Failed to create internal work directory " +:+ path_debug internal_dir +:+ ": ")
                (CreateDirAll internal_dir) in
    exec_ret (Ok internal_dir).

(** The extensions passed have no leading dot to trim. *)
Definition create_temp_code_file ex (uuid extension content : string) : Exec path :=
  let! internal_dir := ensure_internal_work_dir ex in
  let file_path := path_join internal_dir (path_of_string ("code-" +:+ uuid +:+ "." +:+ extension)) in
  let! _ := try_sys ("Failed to write temp file " +:+ path_debug file_path +:+ ": ")
              (WriteFile file_path content) in
  exec_ret (Ok file_path).

(** The process ends, then the file is removed whatever the result. *)
Definition run_and_remove ex (temp : path) (p : process) (timeout : duration) : Exec CommandOutput := λ s,
  match run_process ex p timeout s with
  | (s', Done r) =>
      match sys (RemoveFile temp) s' with (s'', _) => (s'', Done r) end
  | other => other
  end.

Definition execute_python ex (uuid : string) (c : CodeCommand) : Exec CommandOutput :=
  let! workdir := resolve_dir ex (cc_workdir c) in
  let! temp := create_temp_code_file ex uuid "py" (cc_code c) in
  run_and_remove ex temp (MkProcess "python3" [path_to_string temp] workdir (cc_env c)) (cc_timeout c).

Definition execute_javascript ex (uuid : string) (c : CodeCommand) : Exec CommandOutput :=
  let ts := match cc_language c with TypeScript => true | _ => false end in
  let! workdir := resolve_dir ex (cc_workdir c) in
  let! temp := create_temp_code_file ex uuid (if ts then "ts" else "js") (cc_code c) in
  run_and_remove ex temp
    (MkProcess (if ts then "ts-node" else "node") [path_to_string temp] workdir (cc_env c)) (cc_timeout c).

Definition execute_code ex (uuid : string) (c : CodeCommand) : Exec CommandOutput :=
  match cc_language c with
  | Python => execute_python ex uuid c
  | JavaScript | TypeScript => execute_javascript ex uuid c
  | ShellLang =>
      execute_shell ex (MkShellCommand "sh" ["-c"; cc_code c] (cc_workdir c) (cc_env c) (cc_timeout c) true)
  | SqlLang => exec_ret (Err (NExecution "SQL should be executed via Database command"))
  | RustLang => exec_ret (Err (NExecution "Rust execution not yet supported"))
  | GoLang => exec_ret (Err (NExecution "Go execution not yet supported"))
  end.

(** *** The other commands *)

Definition execute_database : Exec CommandOutput :=
  exec_ret (Err (NExecution "Database execution not yet implemented")).
Definition execute_skill : Exec CommandOutput :=
  exec_ret (Err (NExecution "Skill execution not yet implemented")).

Definition execute_api (c : ApiCommand) : Exec CommandOutput :=
  let! r := sys (HttpSend c) in
  exec_ret match r with
           | HBuildError e => Err (NExecution ("Failed to create HTTP client: " +:+ e))
           | HSendError e => Err (NExecution ("API request failed: " +:+ e))
           | HResponse status headers body => Ok (OApiResponse status headers body)
           end.

Definition open_system (url : string) : Exec CommandOutput :=
  let! _ := try_sys "Failed to open system browser: " (OpenUrl url) in
  exec_ret (Ok (OBrowser (BROpenSystem url))).

(** [BrowserExecutor::execute] without the [browser] feature, the default. *)
Definition execute_browser (c : BrowserCommand) : Exec CommandOutput :=
  match c with
  | BOpenSystem url => open_system url
  | _ => exec_ret (Err (NExecution "Browser support not enabled. Compile with 'browser' feature"))
  end.

(** *** [execute_unchecked] and [execute] *)

Record ExecutorStats := MkExecutorStats {
  es_total_executions : Z;
  es_successful_executions : Z;
  es_failed_executions : Z;
  es_timeout_count : Z;
  es_avg_duration_ms : f64;
  es_total_duration_ms : Z
}.

Definition ExecutorStats_default : ExecutorStats := MkExecutorStats 0 0 0 0 (S754_zero false) 0.

(** The counters, as 64-bit integers of a release build. *)
Definition update_stats (st : ExecutorStats) (ms : Z) (r : NodeResult CommandOutput) : ExecutorStats :=
  let total := wrap 64 (es_total_executions st + 1) in
  let total_ms := wrap 64 (es_total_duration_ms st + ms) in
  let ok := match r with Ok _ => true | Err _ => false end in
  let timed_out := match r with Err (NTimeout _) => true | _ => false end in
  let bump (b : bool) n := if b then wrap 64 (n + 1) else n in
  MkExecutorStats total (bump ok (es_successful_executions st)) (bump (negb ok) (es_failed_executions st))
    (bump timed_out (es_timeout_count st)) (f64_div (f64_of_Z total_ms) (f64_of_Z total)) total_ms.

Definition execute_inner (fuel : nat) ex (uuid : string) (c : Command) : Exec CommandOutput :=
  match c with
  | CFile c => execute_file fuel ex c
  | CShell c => execute_shell ex c
  | CCode c => execute_code ex uuid c
  | CDatabase _ => execute_database
  | CApi c => execute_api c
  | CBrowser c => execute_browser c
  | CSkill _ => execute_skill
  end.

(** What a call sees from outside: the identifier of a temporary file, the
    elapsed milliseconds and the depth of the directory walks. *)
Record exec_env := MkExecEnv { xe_uuid : string; xe_elapsed_ms : Z; xe_fuel : nat }.

(** The statistics are written unless the command panicked. *)
Definition execute_unchecked (env : exec_env) ex (c : Command) (st : ExecutorStats)
    : exec_state → exec_state * ExecutorStats * outcome CommandResult := λ s,
  let ms := wrap 64 (xe_elapsed_ms env) in
  match execute_inner (xe_fuel env) ex (xe_uuid env) c s with
  | (s', Done r) =>
      (s', update_stats st ms r,
       Done match r with Ok output => Ok (with_duration (result_success output) ms) | Err e => Err e end)
  | (s', Panicked) => (s', st, Panicked)
  | (s', OutOfFuel) => (s', st, OutOfFuel)
  end.

Definition execute (env : exec_env) ex (m : PermissionManager) (ck : clock_reading) (request_id : string)
    (c : Command) (context : TaskContext) (st : ExecutorStats)
    : exec_state → exec_state * ExecutorStats * outcome CommandResult := λ s,
  match check (H2 := os_view (xw s)) m ck request_id c context with
  | Allowed => execute_unchecked env ex c st s
  | Denied reason => (s, st, Done (Ok (result_failure (permission_denied reason))))
  | RequiresApproval id reason =>
      let error := ExecutionError_with_retryable (permission_denied
        ("Operation requires approval. Request ID: " +:+ id +:+ ", Reason: " +:+ reason)) 1000 in
      (s, st, Done (Ok (result_failure error)))
  end.
End Executor.
