(* ===== verification/ExecutorFacts.v ===== *)
(** What the executor of a node guarantees: every system call it makes touches a
    path the workspace granted during that very command, walks end, slices are
    slices of characters, and the only panic is the truncation of an output. *)
From S2P Require Import Prelude Text Float32 Json ProtocolTypes ProtocolCommand ProtocolResult Paths.
From S2P Require Import Workspace Permission Executor.

Section Facts.
Context `{JsonValue, GlobMatch, PathTexts, ToLowercase} {W : Type} `{!Os W, !ExecTexts}.
Implicit Types (s : exec_state (W := W)) (ex : CommandExecutor) (p : path).

(** ** Computations *)

Lemma exec_bind_ok {A B} (c : Exec (W := W) A) (k : A → Exec B) s a s' :
  c s = (s', Done (Ok a)) → exec_bind c k s = k a s'.
Proof. unfold exec_bind. by intros ->. Qed.

Lemma exec_bind_assoc {A B C} (c : Exec (W := W) A) (f : A → Exec B) (k : B → Exec C) s :
  exec_bind (exec_bind c f) k s = exec_bind c (λ a, exec_bind (f a) k) s.
Proof. unfold exec_bind. by destruct (c s) as [s' [[a|e]| |]]. Qed.

Lemma exec_bind_ext {A B} (c : Exec (W := W) A) (k k' : A → Exec B) s :
  (∀ a s', k a s' = k' a s') → exec_bind c k s = exec_bind c k' s.
Proof. intros Hk. unfold exec_bind. destruct (c s) as [s' [[a|e]| |]]; auto. Qed.

(** ** Confinement *)

(** The paths a call touches, with whether it may change what is there. *)
Definition touches {R} (c : syscall R) : list (path * bool) :=
  match c with
  | ReadToString p | ReadDir p | EntryMetadata p | Metadata p | IsFile p | TryExists p => [(p, false)]
  | CreateDirAll p | CreateDir p | WriteFile p _ | OpenAppend p | AppendAll p _
  | RemoveDirAll p | RemoveDir p | RemoveFile p => [(p, true)]
  | CopyFile from to => [(from, false); (to, true)]
  | RenameFile from to => [(from, true); (to, true)]
  | RunProcess q _ => [(p_cwd q, false)]
  | HttpSend _ | OpenUrl _ => []
  end.

Definition creates_directories {R} (c : syscall R) : bool :=
  match c with CreateDirAll _ => true | _ => false end.

(** In the world [w] the path resolves to a place inside the root of the workspace
    that the patterns allow, and the workspace may be written if the call writes. *)
Definition granted ex (w : W) p (write : bool) : Prop :=
  ∃ rest, canonicalize_existing_aware (H := os_view w) (candidate (ce_workspace ex) p) = Some (root (ce_workspace ex) ++ rest) ∧
    (write = true → wc_read_only (ws_config (ce_workspace ex)) = false) ∧
    (∀ pat, pat ∈ wc_denied_patterns (ws_config (ce_workspace ex)) → glob_match pat (shown_below rest) = false) ∧
    (shown_below rest = "." ∨
     ∃ pat, pat ∈ wc_allowed_patterns (ws_config (ce_workspace ex)) ∧ glob_match pat (shown_below rest) = true).

Lemma access_granted ex w p write :
  can_access (H := os_view w) (ce_workspace ex) p write = Ok true → granted ex w p write.
Proof.
  unfold can_access. intros (real & Hr & Hd)%result_bind_ok. injection Hd as Hd. apply resolve_path_ok in Hr.
  apply access_decision_true in Hd as ((rest & ->) & Hro & Hden & Hall). rewrite relative_string_below in *.
  by exists rest.
Qed.

(** The path was granted in one of the worlds. *)
Definition known ex (ws : list W) (t : path * bool) : Prop := ∃ w, w ∈ ws ∧ granted ex w t.1 t.2.

(** The directory code files are put in. *)
Definition internal_dir ex : path :=
  internal_path (ce_workspace ex) (path_of_string (ce_internal_work_dir ex)).

(** A touch is justified by a grant of the path itself; by a grant, for writing, of a
    path right below the directory that is to be created if it is missing; or, for a
    code file right inside the internal directory, by a grant of that directory. *)
Definition justified_touch ex (ws : list W) (creates : bool) (t : path * bool) : Prop :=
  known ex ws t ∨
  (creates = true ∧ ∃ q, path_parent q = Some t.1 ∧ known ex ws (q, true)) ∨
  (∃ name, t.1 = internal_dir ex ++ [CNormal name] ∧ String.prefix "code-" name = true ∧
     known ex ws (internal_dir ex, true)).

Definition justified_call ex (ws : list W) (c : sigT syscall) : Prop :=
  Forall (justified_touch ex ws (creates_directories (projT2 c))) (touches (projT2 c)).

(** Every call of a trace is justified by the worlds up to its own. *)
Definition justified ex (l : list (W * sigT syscall)) : Prop :=
  ∀ l1 w c l2, l = l1 ++ (w, c) :: l2 → justified_call ex (l1.*1 ++ [w]) c.

Definition worlds s : list W := (xlog s).*1 ++ [xw s].

Lemma known_mono ex ws ws' t : ws ⊆ ws' → known ex ws t → known ex ws' t.
Proof. intros Hs (w & Hw & Hg). exists w. split; [by apply Hs|done]. Qed.

Lemma justified_snoc ex l w c :
  justified ex l → justified_call ex (l.*1 ++ [w]) c → justified ex (l ++ [(w, c)]).
Proof.
  intros Hl Hc l1 w' c' l2 E. destruct l2 as [|x l2 _] using rev_ind.
  - apply app_inj_tail in E as [-> [= -> ->]]. done.
  - rewrite app_comm_cons, app_assoc in E. apply app_inj_tail in E as [-> _]. by eapply Hl.
Qed.

(** [safe known_before c known_after]: from a justified trace with the grants of
    [known_before], [c] leaves a justified trace, forgets no grant and, when it
    answers [a], has those of [known_after a]. *)
Definition safe {A} ex (pre : list (path * bool)) (c : Exec A) (post : A → list (path * bool)) : Prop :=
  ∀ s, justified ex (xlog s) → Forall (known ex (worlds s)) pre →
  justified ex (xlog (c s).1) ∧ worlds s ⊆ worlds (c s).1 ∧
  ∀ a, (c s).2 = Done (Ok a) → Forall (known ex (worlds (c s).1)) (post a).

Lemma safe_ret {A} ex pre (r : NodeResult A) post :
  (∀ a, r = Ok a → ∀ t, t ∈ post a → t ∈ pre) → safe ex pre (exec_ret (W := W) r) post.
Proof.
  intros Hr s Hj Hk. split_and!; [done|done|]. intros a [= Ha]. apply Forall_forall. intros t Ht.
  rewrite Forall_forall in Hk. apply Hk. by eapply Hr.
Qed.

Lemma safe_bind {A B} ex pre (c : Exec A) (k : A → Exec B) mid post :
  safe ex pre c mid → (∀ a, safe ex (mid a ++ pre) (k a) post) → safe ex pre (exec_bind c k) post.
Proof.
  intros Hc Hk s Hj Hp. destruct (Hc s Hj Hp) as (Hj1 & Hw1 & Ha1).
  unfold exec_bind. destruct (c s) as [s1 o]; simpl in *.
  destruct o as [[a|e]| |]; [|done..].
  destruct (Hk a s1 Hj1) as (Hj2 & Hw2 & Ha2).
  { apply Forall_app. split; [by apply Ha1|]. eapply Forall_impl; [exact Hp|].
    intros t. by apply known_mono. }
  split_and!; [done|by etrans|done].
Qed.

Lemma safe_weaken {A} ex pre pre' (c : Exec A) post post' :
  (∀ t, t ∈ pre → t ∈ pre') → (∀ a t, t ∈ post' a → t ∈ post a) → safe ex pre c post → safe ex pre' c post'.
Proof.
  intros Hpre Hpost Hc s Hj Hp. rewrite Forall_forall in Hp.
  destruct (Hc s Hj) as (Hj1 & Hw & Ha); [apply Forall_forall; eauto|].
  split_and!; [done|done|]. intros a E. specialize (Ha a E). rewrite Forall_forall in *. eauto.
Qed.

(** A call is safe when the grants known justify what it touches. *)
Lemma safe_sys {R} ex pre (c : syscall R) post :
  (∀ ws, Forall (known ex ws) pre → justified_call ex ws (existT R c)) →
  (∀ a t, t ∈ post a → t ∈ pre) → safe ex pre (sys (W := W) c) post.
Proof.
  intros Hc Hpost s Hj Hp. unfold sys. destruct (os_step R c (xw s)) as [w' r]; simpl.
  assert (worlds s ⊆ worlds (MkExec w' (xlog s ++ [(xw s, existT R c)]))) as Hw.
  { unfold worlds. simpl. rewrite fmap_app. simpl. intros w Hin. apply elem_of_app. by left. }
  split_and!; [|done|].
  - apply justified_snoc; [done|]. by apply Hc.
  - intros a [= <-]. apply Forall_forall. intros t Ht. eapply known_mono; [exact Hw|].
    rewrite Forall_forall in Hp. apply Hp. eauto.
Qed.

(** A reading grants what its check accepts. *)
Lemma safe_view {A} ex pre (f : FileSystem → NodeResult A) post :
  (∀ w a t, f (os_view w) = Ok a → t ∈ post a → granted ex w t.1 t.2 ∨ t ∈ pre) →
  safe ex pre (view (W := W) f) post.
Proof.
  intros Hf s Hj Hp. split_and!; [done|done|]. intros a [= Ha]. apply Forall_forall. intros t Ht.
  destruct (Hf _ a t Ha Ht) as [Hg|Hin]; [|rewrite Forall_forall in Hp; by apply Hp].
  exists (xw s). split; [|done]. unfold worlds. apply elem_of_app. right. by apply list_elem_of_singleton.
Qed.

Lemma safe_ret_nil {A} ex pre (r : NodeResult A) : safe ex pre (exec_ret (W := W) r) (λ _, []).
Proof. apply safe_ret. set_solver. Qed.

(** *** The operations, one after the other *)

Lemma justified_known {R} ex ws (c : syscall R) :
  (∀ t, t ∈ touches c → known ex ws t) → justified_call ex ws (existT R c).
Proof. intros Hk. apply Forall_forall. intros t Ht. left. by apply Hk. Qed.

Lemma safe_try {T} ex pre prefix (c : syscall (Result T string)) post :
  safe ex pre (sys (W := W) c) (λ _, []) → (∀ a t, t ∈ post a → t ∈ pre) → safe ex pre (try_sys prefix c) post.
Proof.
  intros Hc Hpost. eapply safe_bind; [exact Hc|]. intros r. simpl. apply safe_ret. eauto.
Qed.

(** A call on known paths only, and an answer that grants nothing. *)
Lemma safe_sys_known {R} ex pre (c : syscall R) :
  (∀ t, t ∈ touches c → t ∈ pre) → safe ex pre (sys (W := W) c) (λ _, []).
Proof.
  intros Ht. apply safe_sys; [|set_solver]. intros ws Hk. apply justified_known. intros t Hin.
  rewrite Forall_forall in Hk. by apply Hk, Ht.
Qed.

Lemma safe_try_known {T} ex pre prefix (c : syscall (Result T string)) :
  (∀ t, t ∈ touches c → t ∈ pre) → safe ex pre (try_sys (W := W) prefix c) (λ _, []).
Proof. intros Ht. apply safe_try; [by apply safe_sys_known|set_solver]. Qed.

Lemma resolve_file_granted ex w (p : string) write r :
  resolve_file_path (H := os_view w) (ce_workspace ex) p write = Ok r → granted ex w r write.
Proof.
  unfold resolve_file_path. intros (r' & _ & (ok & Hc & Hok)%result_bind_ok)%result_bind_ok.
  destruct ok; [|done]. injection Hok as <-. by apply access_granted.
Qed.

Lemma safe_resolve_file ex pre (p : string) write :
  safe ex pre (resolve_file (W := W) ex p write) (λ r, [(r, write)]).
Proof.
  apply safe_view. intros w r t Hr ->%list_elem_of_singleton. left. by eapply resolve_file_granted.
Qed.

Lemma safe_resolve_dir ex pre (d : option string) :
  safe ex pre (resolve_dir (W := W) ex d) (λ r, [(r, false)]).
Proof.
  apply safe_view. intros w r t Hr ->%list_elem_of_singleton. left.
  unfold resolve_execution_dir in Hr. apply result_bind_ok in Hr as (r' & _ & Hr).
  apply result_bind_ok in Hr as (ok & Hc & Hok). destruct ok; [|done]. injection Hok as <-.
  by apply access_granted.
Qed.

(** What an access check grants when it answers [true]. *)
Definition if_true (t : path * bool) (ok : bool) : list (path * bool) := if ok then [t] else [].

Lemma safe_accessible ex pre p write :
  safe ex pre (accessible (W := W) ex p write) (if_true (p, write)).
Proof.
  apply safe_view. intros w [] t Hr; simpl; [|set_solver]. intros ->%list_elem_of_singleton. left.
  by apply access_granted.
Qed.

Lemma safe_look {A} ex pre (f : FileSystem → A) :
  safe ex pre (view (W := W) (λ fs, Ok (f fs))) (λ _, []).
Proof. apply safe_view. set_solver. Qed.

Lemma safe_create_parent ex pre p :
  (p, true) ∈ pre → safe ex pre (create_parent (W := W) p) (λ _, []).
Proof.
  intros Hp. unfold create_parent. destruct (path_parent p) as [q|] eqn:E; [|apply safe_ret; set_solver].
  apply safe_try; [|set_solver]. apply safe_sys; [|set_solver]. intros ws Hk. apply Forall_forall.
  intros t ->%list_elem_of_singleton. right. left. split; [done|]. exists p. split; [done|].
  rewrite Forall_forall in Hk. by apply Hk.
Qed.
End Facts.

Ltac known_path := simpl; set_solver.

(** One step of a proof of [safe] along the text of an operation. *)
Ltac safe_step :=
  match goal with
  | |- safe _ _ (exec_bind _ _) _ => eapply safe_bind
  | |- safe _ _ (exec_ret _) _ => apply safe_ret_nil
  | |- safe _ _ (resolve_file _ _ _) _ => apply safe_resolve_file
  | |- safe _ _ (resolve_dir _ _) _ => apply safe_resolve_dir
  | |- safe _ _ (accessible _ _ _) _ => apply safe_accessible
  | |- safe _ _ (path_exists _) _ => apply safe_look
  | |- safe _ _ (path_is_dir _) _ => apply safe_look
  | |- safe _ _ (create_parent _) _ => apply safe_create_parent; known_path
  | |- safe _ _ (try_sys _ _) _ => apply safe_try_known; known_path
  | |- safe _ _ (sys _) _ => apply safe_sys_known; known_path
  | |- safe _ _ (if ?b then _ else _) _ => destruct b
  | |- safe _ _ (match ?x with _ => _ end) _ => destruct x
  | |- ∀ _, _ => intros ?
  end.
Ltac safe_steps := repeat safe_step.

Section Operations.
Context `{JsonValue, GlobMatch, PathTexts, ToLowercase} {W : Type} `{!Os W, !ExecTexts}.
Implicit Types (ex : CommandExecutor) (p : path).

Lemma safe_for_entries ex pre body entries :
  (∀ p, safe ex ((p, false) :: pre) (body p) (λ _, [])) →
  safe ex pre (for_entries (W := W) ex body entries) (λ _, []).
Proof.
  intros Hb. revert pre Hb. induction entries as [|e rest IH]; intros pre Hb; simpl; [safe_steps|].
  eapply (safe_bind _ _ _ _ (λ _, [])); [unfold read_entry; apply safe_ret; set_solver|]. intros p.
  eapply safe_bind; [apply safe_accessible|]. intros ok.
  eapply (safe_bind _ _ _ _ (λ _, [])).
  { destruct ok; simpl; [apply Hb|safe_steps]. }
  intros here. simpl. eapply (safe_bind _ _ _ _ (λ _, [])); [|intros later; safe_steps].
  apply IH. intros q. eapply safe_weaken; [| |apply Hb]; set_solver.
Qed.

Lemma safe_list_here ex pre pattern p :
  (p, false) ∈ pre → safe ex pre (list_here (W := W) pattern p) (λ _, []).
Proof.
  intros Hp. unfold list_here, push_entry. destruct (name_matches pattern p); [|safe_steps].
  eapply (safe_bind _ _ _ _ (λ _, [])); [|safe_steps].
  eapply (safe_bind _ _ _ _ (λ _, [])); safe_steps.
Qed.

Lemma safe_search_here ex pre pattern content p :
  (p, false) ∈ pre → safe ex pre (search_here (W := W) pattern content p) (λ _, []).
Proof.
  intros Hp. unfold search_here. destruct (glob_match pattern (entry_name p)); [|safe_steps].
  destruct content as [cp|]; [|safe_steps].
  eapply (safe_bind _ _ _ _ (λ _, [])); [safe_steps|]. intros [|]; [|safe_steps].
  eapply (safe_bind _ _ _ _ (λ _, [])); safe_steps.
Qed.

Lemma safe_read_directory ex pre p :
  (p, false) ∈ pre → safe ex pre (read_directory (W := W) p) (λ _, []).
Proof. intros Hp. unfold read_directory. safe_steps. Qed.

(** Both walks have this shape. *)
Lemma safe_walk ex pre (here below : path → Exec (list Value)) dir :
  (dir, false) ∈ pre →
  (∀ pre p, (p, false) ∈ pre → safe ex pre (here p) (λ _, [])) →
  (∀ pre p, (p, false) ∈ pre → safe ex pre (below p) (λ _, [])) →
  safe ex pre (exec_bind (W := W) (read_directory dir) (λ entries,
    for_entries ex (λ p, exec_bind (here p) (λ h, exec_bind (path_is_dir p) (λ is_dir,
      exec_bind (if is_dir then below p else exec_ret (Ok [])) (λ b, exec_ret (Ok (h ++ b)))))) entries))
    (λ _, []).
Proof.
  intros Hdir Hh Hb. eapply safe_bind; [by apply safe_read_directory|]. intros entries.
  apply safe_for_entries. intros p.
  eapply (safe_bind _ _ _ _ (λ _, [])); [apply Hh; known_path|]. intros h.
  eapply (safe_bind _ _ _ _ (λ _, [])); [safe_steps|]. intros b.
  eapply (safe_bind _ _ _ _ (λ _, [])); [|safe_steps].
  destruct b; [apply Hb; known_path|safe_steps].
Qed.

Lemma safe_out_of_fuel {A} ex pre (post : A → _) : safe ex pre (λ s : exec_state (W := W), (s, OutOfFuel)) post.
Proof. by intros s Hj Hp. Qed.

Lemma safe_panic {A} ex pre (post : A → _) : safe ex pre (λ s : exec_state (W := W), (s, Panicked)) post.
Proof. by intros s Hj Hp. Qed.

Lemma safe_list_recursive fuel ex pre pattern dir :
  (dir, false) ∈ pre → safe ex pre (list_recursive (W := W) fuel ex pattern dir) (λ _, []).
Proof.
  revert pre dir. induction fuel as [|fuel IH]; intros pre dir Hd; simpl; [apply safe_out_of_fuel|].
  apply safe_walk; [done| |done]. intros. by apply safe_list_here.
Qed.

Lemma safe_search_recursive fuel ex pre pattern content dir :
  (dir, false) ∈ pre → safe ex pre (search_recursive (W := W) fuel ex pattern content dir) (λ _, []).
Proof.
  revert pre dir. induction fuel as [|fuel IH]; intros pre dir Hd; simpl; [apply safe_out_of_fuel|].
  apply safe_walk; [done| |done]. intros. by apply safe_search_here.
Qed.

Lemma safe_file_list fuel ex pre (p : string) recursive pattern :
  safe ex pre (file_list (W := W) fuel ex p recursive pattern) (λ _, []).
Proof.
  unfold file_list. eapply safe_bind; [apply safe_resolve_file|]. intros path.
  eapply (safe_bind _ _ _ _ (λ _, [])); [|safe_steps].
  destruct recursive; [apply safe_list_recursive; known_path|].
  eapply safe_bind; [apply safe_read_directory; known_path|]. intros entries.
  apply safe_for_entries. intros q. apply safe_list_here. known_path.
Qed.

Lemma safe_file_search fuel ex pre pattern (p : string) recursive content :
  safe ex pre (file_search (W := W) fuel ex pattern p recursive content) (λ _, []).
Proof.
  unfold file_search. eapply safe_bind; [apply safe_resolve_file|]. intros path.
  eapply (safe_bind _ _ _ _ (λ _, [])); [|safe_steps].
  destruct recursive; [apply safe_search_recursive; known_path|].
  eapply safe_bind; [apply safe_read_directory; known_path|]. intros entries.
  apply safe_for_entries. intros q. apply safe_search_here. known_path.
Qed.

Lemma safe_execute_file fuel ex pre c : safe ex pre (execute_file (W := W) fuel ex c) (λ _, []).
Proof.
  destruct c as [| | |? []| | | | | |? []|]; simpl; try apply safe_file_list; try apply safe_file_search;
    unfold file_read, file_write, file_append, file_delete, file_copy, file_move, destination_free,
      file_info, get_file_info, file_create_dir, file_exists; safe_steps.
Qed.

Lemma safe_run_process ex pre q timeout :
  (p_cwd q, false) ∈ pre → safe ex pre (run_process (W := W) ex q timeout) (λ _, []).
Proof.
  intros Hq. unfold run_process. eapply (safe_bind _ _ _ _ (λ _, [])); [safe_steps|].
  intros [|e|code out err]; simpl; [safe_steps..|].
  destruct (limit_output ex out); [destruct (limit_output ex err)|]; [safe_steps|apply safe_panic..].
Qed.

Lemma safe_execute_shell ex pre c : safe ex pre (execute_shell (W := W) ex c) (λ _, []).
Proof.
  unfold execute_shell. eapply safe_bind; [apply safe_resolve_dir|]. intros cwd.
  apply safe_run_process. destruct (_ && _); known_path.
Qed.

(** *** Code files *)

(** A name that is one component of a path. *)
Definition one_component (uuid : string) : Prop := str_forallb (λ c, negb (Ascii.eqb c "/")) uuid = true.

Definition code_file_name (uuid extension : string) : string := "code-" +:+ uuid +:+ "." +:+ extension.

Lemma code_file_path uuid extension :
  one_component uuid → one_component extension →
  path_of_string (code_file_name uuid extension) = [CNormal (code_file_name uuid extension)].
Proof.
  intros Hu He. unfold path_of_string.
  assert (∃ rest, code_file_name uuid extension = String "c" (String "o" (String "d" rest))) as [rest E].
  { unfold code_file_name. rewrite !str_app_cons. eauto. }
  rewrite str_split_whole.
  - rewrite E. reflexivity.
  - unfold code_file_name. rewrite !str_forallb_app. unfold one_component in *. by rewrite Hu, He.
Qed.

Lemma code_file_prefix uuid extension : String.prefix "code-" (code_file_name uuid extension) = true.
Proof. unfold code_file_name. rewrite !str_app_cons, str_app_nil_l. simpl. by destruct (uuid +:+ _). Qed.

(** The path of the code file, below the internal directory. *)
Definition code_path ex (uuid extension : string) : path :=
  internal_path (ce_workspace ex) (path_of_string (ce_internal_work_dir ex)) ++
  [CNormal (code_file_name uuid extension)].

(** A call on the code file, once the internal directory is granted. *)
Lemma safe_sys_code {R} ex pre (c : syscall R) uuid extension :
  (internal_dir ex, true) ∈ pre → touches c = [(code_path ex uuid extension, true)] →
  safe ex pre (sys (W := W) c) (λ _, []).
Proof.
  intros Hd Ht. apply safe_sys; [|set_solver]. intros ws Hk. unfold justified_call. rewrite Forall_forall.
  intros t. simpl. rewrite Ht. intros ->%list_elem_of_singleton. right. right.
  exists (code_file_name uuid extension). split_and!; [done|apply code_file_prefix|].
  rewrite Forall_forall in Hk. by apply Hk.
Qed.

Lemma safe_ext {A} ex pre (c c' : Exec (W := W) A) post :
  (∀ s, c s = c' s) → safe ex pre c' post → safe ex pre c post.
Proof. intros E Hc s. rewrite E. apply Hc. Qed.

(** Running code: the check of the internal directory, its creation, the code
    file, the process and the removal of the file. *)
Lemma temp_file_bind {B} ex uuid extension content (k : path → Exec B) s :
  one_component uuid → one_component extension →
  exec_bind (create_temp_code_file (W := W) ex uuid extension content) k s =
  exec_bind (accessible ex (internal_dir ex) true) (λ ok,
    if negb ok
    then exec_ret (Err (NPermission ("Internal work directory outside workspace: "
                                     +:+ path_debug (internal_dir ex))))
    else
      exec_bind (try_sys ("Failed to create internal work directory " +:+ path_debug (internal_dir ex) +:+ ": ")
                   (CreateDirAll (internal_dir ex))) (λ _,
      exec_bind (try_sys ("Failed to write temp file " +:+ path_debug (code_path ex uuid extension) +:+ ": ")
                   (WriteFile (code_path ex uuid extension) content)) (λ _,
      k (code_path ex uuid extension)))) s.
Proof.
  intros Hu He.
  assert (path_join (internal_dir ex) (path_of_string ("code-" +:+ uuid +:+ "." +:+ extension))
    = code_path ex uuid extension) as Hpath.
  { change ("code-" +:+ uuid +:+ "." +:+ extension) with (code_file_name uuid extension).
    by rewrite code_file_path by done. }
  unfold create_temp_code_file, ensure_internal_work_dir. fold (internal_dir ex).
  rewrite !exec_bind_assoc. apply exec_bind_ext. intros [|] s1; simpl; [|done].
  rewrite !exec_bind_assoc. apply exec_bind_ext. intros _ s2.
  unfold exec_bind at 1, exec_ret. rewrite Hpath. apply exec_bind_assoc.
Qed.

Lemma safe_run_and_remove ex pre uuid extension q timeout :
  (internal_dir ex, true) ∈ pre → (p_cwd q, false) ∈ pre →
  safe ex pre (run_and_remove (W := W) ex (code_path ex uuid extension) q timeout) (λ _, []).
Proof.
  intros Hd Hq s Hj Hp. destruct (safe_run_process ex pre q timeout Hq s Hj Hp) as (Hj1 & Hw1 & _).
  unfold run_and_remove. destruct (run_process ex q timeout s) as [s1 [r| |]]; simpl in *; [|done..].
  destruct (safe_sys_code ex pre (RemoveFile (code_path ex uuid extension)) uuid extension Hd eq_refl s1 Hj1)
    as (Hj2 & Hw2 & _).
  { eapply Forall_impl; [exact Hp|]. intros t. by apply known_mono. }
  destruct (sys _ s1) as [s2 o2]; simpl in *. split_and!; [done|by etrans|done].
Qed.

Lemma safe_run_code ex pre uuid extension content (workdir : option string) (q : path → path → process) timeout :
  one_component uuid → one_component extension → (∀ d t, p_cwd (q d t) = d) →
  safe ex pre (exec_bind (resolve_dir (W := W) ex workdir) (λ d,
    exec_bind (create_temp_code_file ex uuid extension content) (λ t,
      run_and_remove ex t (q d t) timeout))) (λ _, []).
Proof.
  intros Hu He Hq. eapply safe_bind; [apply safe_resolve_dir|]. intros d.
  eapply safe_ext; [intros s; by apply temp_file_bind|].
  eapply safe_bind; [apply safe_accessible|]. intros [|]; simpl; [|apply safe_ret_nil].
  eapply (safe_bind _ _ _ _ (λ _, [])); [safe_steps|]. intros _.
  eapply (safe_bind _ _ _ _ (λ _, [])).
  { apply safe_try; [|set_solver]. by eapply safe_sys_code; [known_path|]. }
  intros _. apply safe_run_and_remove; [known_path|]. rewrite Hq. known_path.
Qed.

Lemma safe_execute_code ex pre uuid c :
  one_component uuid → safe ex pre (execute_code (W := W) ex uuid c) (λ _, []).
Proof.
  intros Hu. unfold execute_code, execute_python, execute_javascript.
  destruct (cc_language c); try apply safe_ret_nil; try apply safe_execute_shell;
    (apply (safe_run_code _ _ _ _ _ _ (λ d t, MkProcess _ [path_to_string t] d (cc_env c))); done).
Qed.

Lemma safe_execute_inner fuel ex uuid pre c :
  one_component uuid → safe ex pre (execute_inner (W := W) fuel ex uuid c) (λ _, []).
Proof.
  intros Hu. destruct c as [c|c|c|c|c|c|c]; simpl.
  - apply safe_execute_file.
  - apply safe_execute_shell.
  - by apply safe_execute_code.
  - apply safe_ret_nil.
  - unfold execute_api. eapply (safe_bind _ _ _ _ (λ _, [])); safe_steps.
  - unfold execute_browser, open_system. destruct c; try apply safe_ret_nil.
    eapply (safe_bind _ _ _ _ (λ _, [])); safe_steps.
  - apply safe_ret_nil.
Qed.
End Operations.

(** ** Slices *)

(** An optional count of characters. *)
Definition count_or {A} (f : nat → list A → list A) (n : option Z) (l : list A) : list A :=
  match n with Some n => f (Z.to_nat n) l | None => l end.

(** Reading with an offset and a limit gives whole characters: the limit
    many that follow the first offset many, whatever their encodings. *)
Theorem read_slice_characters cs limit offset :
  Forall is_char cs →
  keep_limit (skip_offset (str_concat cs) offset) limit
  = str_concat (count_or take limit (count_or drop offset cs)).
Proof.
  intros Hcs.
  assert (skip_offset (str_concat cs) offset = str_concat (count_or drop offset cs)) as ->.
  { destruct offset as [o|]; simpl; [|done]. rewrite nth_char_start by done.
    rewrite <-(take_drop (Z.to_nat o) cs) at 2. rewrite str_concat_app. apply slice_from_app. }
  assert (Forall is_char (count_or drop offset cs)) as Hd.
  { destruct offset as [o|]; simpl; [by apply Forall_drop|done]. }
  destruct limit as [l|]; simpl; [|done]. rewrite nth_char_start by done.
  rewrite <-(take_drop (Z.to_nat l) (count_or drop offset cs)) at 2. rewrite str_concat_app.
  apply slice_to_app.
Qed.

Lemma read_slice_characters_witness :
  let euro := String (ascii_of_nat 226) (String (ascii_of_nat 130) (String (ascii_of_nat 172) "")) in
  keep_limit (skip_offset (str_concat ["a"; euro; "b"; "c"]) (Some 1%Z)) (Some 2%Z) = euro +:+ "b".
Proof.
  intros euro. apply (read_slice_characters ["a"; euro; "b"; "c"]).
  repeat apply Forall_cons_2; [..|done]; eexists _, _; split_and!; vm_compute; reflexivity.
Defined.

(** ** How an execution can fail to answer *)

Inductive failure := ByPanic | ByFuel.

Definition fails {A} (k : failure) (o : outcome A) : bool :=
  match k, o with ByPanic, Panicked | ByFuel, OutOfFuel => true | _, _ => false end.

Section Endings.
Context `{JsonValue, GlobMatch, PathTexts, ToLowercase} {W : Type} `{!Os W, !ExecTexts}.
Implicit Types (ex : CommandExecutor) (p : path) (s : exec_state (W := W)).

Definition avoids {A} (k : failure) (c : Exec (W := W) A) : Prop := ∀ s, fails k (c s).2 = false.

Lemma avoids_ret {A} k (r : NodeResult A) : avoids k (exec_ret r).
Proof. by destruct k. Qed.
Lemma avoids_view {A} k (f : FileSystem → NodeResult A) : avoids k (view f).
Proof. by destruct k. Qed.
Lemma avoids_sys {R} k (c : syscall R) : avoids k (sys c).
Proof. intros s. unfold sys. destruct (os_step R c (xw s)). by destruct k. Qed.

(** The continuation only has to be looked at on the answers there are. *)
Lemma avoids_bind_on {A B} k (c : Exec A) (f : A → Exec B) (P : A → Prop) :
  avoids k c → (∀ s s' a, c s = (s', Done (Ok a)) → P a) → (∀ a, P a → avoids k (f a)) →
  avoids k (exec_bind c f).
Proof.
  intros Hc HP Hf s. specialize (Hc s). unfold exec_bind. destruct (c s) as [s' o] eqn:E.
  simpl in Hc. destruct o as [[a|e]| |]; simpl in *.
  - by eapply Hf, HP.
  - by destruct k.
  - by destruct k.
  - by destruct k.
Qed.

Lemma avoids_bind {A B} k (c : Exec A) (f : A → Exec B) :
  avoids k c → (∀ a, avoids k (f a)) → avoids k (exec_bind c f).
Proof. intros Hc Hf. apply (avoids_bind_on k c f (λ _, True)); eauto. Qed.

Lemma avoids_try {T} k prefix (c : syscall (Result T string)) : avoids k (try_sys prefix c).
Proof. apply avoids_bind; [apply avoids_sys|]. intros a. apply avoids_ret. Qed.

Lemma avoids_create_parent k p : avoids k (create_parent p).
Proof. unfold create_parent. destruct (path_parent p); [apply avoids_try|apply avoids_ret]. Qed.

Lemma avoids_for_entries k ex body entries :
  (∀ p, Ok p ∈ entries → avoids k (body p)) → avoids k (for_entries ex body entries).
Proof.
  intros Hb. induction entries as [|e rest IH]; simpl; [apply avoids_ret|].
  apply (avoids_bind_on k _ _ (λ p, e = Ok p)); [apply avoids_ret| |].
  { intros s s' p. unfold read_entry, exec_ret. destruct e; by intros [= _ ->]. }
  intros p ->. apply avoids_bind; [apply avoids_view|]. intros ok.
  apply avoids_bind; [destruct ok; [apply Hb; set_solver|apply avoids_ret]|]. intros here.
  apply avoids_bind; [apply IH; set_solver|]. intros later. apply avoids_ret.
Qed.
End Endings.

Ltac avoids_step :=
  match goal with
  | |- avoids _ (exec_bind _ _) => apply avoids_bind
  | |- avoids _ (exec_ret _) => apply avoids_ret
  | |- avoids _ (try_sys _ _) => apply avoids_try
  | |- avoids _ (sys _) => apply avoids_sys
  | |- avoids _ (create_parent _) => apply avoids_create_parent
  | |- avoids _ (resolve_file _ _ _) => apply avoids_view
  | |- avoids _ (resolve_dir _ _) => apply avoids_view
  | |- avoids _ (accessible _ _ _) => apply avoids_view
  | |- avoids _ (path_exists _) => apply avoids_view
  | |- avoids _ (path_is_dir _) => apply avoids_view
  | |- avoids _ (read_directory _) => apply avoids_try
  | |- avoids _ (for_entries _ _ _) => apply avoids_for_entries
  | |- avoids _ (if ?b then _ else _) => destruct b
  | |- avoids _ (match ?x with _ => _ end) => destruct x
  | |- ∀ _, _ => intros ?
  end.
Ltac avoids_steps := repeat avoids_step.

Section Walks.
Context `{JsonValue, GlobMatch, PathTexts, ToLowercase} {W : Type} `{!Os W, !ExecTexts}.
Implicit Types (ex : CommandExecutor) (p : path) (s : exec_state (W := W)).

Lemma avoids_list_here k pattern p : avoids (W := W) k (list_here pattern p).
Proof. unfold list_here, push_entry. avoids_steps. Qed.
Lemma avoids_search_here k pattern content p : avoids (W := W) k (search_here pattern content p).
Proof. unfold search_here. avoids_steps. Qed.

(** Paths have a bounded number of components, so that no directory is seen
    beyond [depth]; a directory lists its own children. *)
Class BoundedPaths (depth : nat) := {
  no_dir_beyond : ∀ (w : W) p, depth ≤ length p → @fs_is_dir (os_view w) p = false;
  children : ∀ (w : W) p entries q,
    (os_step _ (ReadDir p) w).2 = Ok entries → Ok q ∈ entries → ∃ name, q = p ++ [CNormal name]
}.

Lemma read_directory_children depth `{!BoundedPaths depth} s s' p entries q :
  read_directory p s = (s', Done (Ok entries)) → Ok q ∈ entries → length q = S (length p).
Proof.
  unfold read_directory, try_sys, exec_bind, sys. intros E Hq.
  destruct (os_step _ (ReadDir p) (xw s)) as [w' r] eqn:Er. destruct r as [l|]; [|done].
  injection E as <- <-. destruct (children (xw s) p l q) as [name ->]; [by rewrite Er|done|].
  rewrite length_app. simpl. lia.
Qed.

Definition bounded_for depth (fuel : nat) p : Prop := depth - length p < fuel.

(** Both walks: below a directory the fuel that is left is enough. *)
Lemma avoids_walk depth `{!BoundedPaths depth} fuel ex (here below : path → Exec (list Value)) dir :
  bounded_for depth (S fuel) dir →
  (∀ k p, avoids k (here p)) → (∀ p, bounded_for depth fuel p → avoids ByFuel (below p)) →
  avoids (W := W) ByFuel (exec_bind (read_directory dir) (λ entries,
    for_entries ex (λ p, exec_bind (here p) (λ h, exec_bind (path_is_dir p) (λ is_dir,
      exec_bind (if is_dir then below p else exec_ret (Ok [])) (λ b, exec_ret (Ok (h ++ b)))))) entries)).
Proof.
  intros Hf Hh Hb.
  apply (avoids_bind_on _ _ _ (λ entries, ∀ q, Ok q ∈ entries → length q = S (length dir)));
    [apply avoids_try|intros; by eapply read_directory_children|].
  intros entries Hlen. apply avoids_for_entries. intros p Hp. apply avoids_bind; [apply Hh|]. intros h.
  apply (avoids_bind_on _ _ _ (λ b, b = true → bounded_for depth fuel p)); [apply avoids_view| |].
  - intros s s' b [= _ Hd] ->. unfold bounded_for in *. rewrite (Hlen p) by done.
    destruct (decide (depth ≤ S (length dir))) as [Hle|]; [|lia].
    rewrite (no_dir_beyond _ p) in Hd; [done|]. by rewrite (Hlen p).
  - intros b Hb'. apply avoids_bind; [|intros; apply avoids_ret].
    destruct b; [by apply Hb, Hb'|apply avoids_ret].
Qed.

Lemma list_recursive_ends depth `{!BoundedPaths depth} fuel ex pattern dir :
  bounded_for depth fuel dir → avoids (W := W) ByFuel (list_recursive fuel ex pattern dir).
Proof.
  revert dir. induction fuel as [|fuel IH]; intros dir Hf; [unfold bounded_for in Hf; lia|].
  apply (avoids_walk depth fuel); [done|intros; apply avoids_list_here|done].
Qed.

Lemma search_recursive_ends depth `{!BoundedPaths depth} fuel ex pattern content dir :
  bounded_for depth fuel dir → avoids (W := W) ByFuel (search_recursive fuel ex pattern content dir).
Proof.
  revert dir. induction fuel as [|fuel IH]; intros dir Hf; [unfold bounded_for in Hf; lia|].
  apply (avoids_walk depth fuel); [done|intros; apply avoids_search_here|done].
Qed.

Lemma execute_file_ends depth `{!BoundedPaths depth} fuel ex c :
  depth < fuel → avoids (W := W) ByFuel (execute_file fuel ex c).
Proof.
  intros Hf. destruct c; simpl;
    unfold file_read, file_write, file_append, file_delete, file_list, file_search, search_single_dir, file_copy, file_move,
      destination_free, file_info, get_file_info, file_create_dir, file_exists; avoids_steps;
    solve [apply (list_recursive_ends depth); unfold bounded_for; lia
          |apply (search_recursive_ends depth); unfold bounded_for; lia
          |apply avoids_list_here|apply avoids_search_here].
Qed.

Lemma run_process_ends ex q timeout : avoids (W := W) ByFuel (run_process ex q timeout).
Proof. unfold run_process. by avoids_steps. Qed.

Lemma run_and_remove_ends ex t q timeout : avoids (W := W) ByFuel (run_and_remove ex t q timeout).
Proof.
  intros s. unfold run_and_remove. pose proof (run_process_ends ex q timeout s) as Hr.
  destruct (run_process ex q timeout s) as [s' [r| |]]; simpl in *; try done.
  unfold sys. by destruct (os_step _ _ _).
Qed.

Lemma create_temp_ends k ex uuid ext content : avoids (W := W) k (create_temp_code_file ex uuid ext content).
Proof. unfold create_temp_code_file, ensure_internal_work_dir. avoids_steps. Qed.

(** The walks of a command end, and so does the command, with fuel for the
    depth of the file system. *)
Lemma execute_inner_ends depth `{!BoundedPaths depth} fuel ex uuid c :
  depth < fuel → avoids (W := W) ByFuel (execute_inner fuel ex uuid c).
Proof.
  intros Hf. destruct c as [c|c|c|c|c|c|c]; simpl.
  - by eapply execute_file_ends.
  - unfold execute_shell. avoids_steps. apply run_process_ends.
  - unfold execute_code, execute_python, execute_javascript, execute_shell. avoids_steps;
      solve [apply run_process_ends|apply run_and_remove_ends|apply create_temp_ends].
  - apply avoids_ret.
  - unfold execute_api. avoids_steps.
  - unfold execute_browser, open_system. avoids_steps.
  - apply avoids_ret.
Qed.
End Walks.

Section Panics.
Context `{JsonValue, GlobMatch, PathTexts, ToLowercase} {W : Type} `{!Os W, !ExecTexts}.
Implicit Types (ex : CommandExecutor) (p : path) (s : exec_state (W := W)).

(** An output the executor cannot cut: too long, with a character across the limit. *)
Definition uncuttable ex (o : string) : Prop :=
  (ce_max_output_size ex < Z.of_nat (String.length o))%Z ∧
  is_char_boundary o (Z.to_nat (ce_max_output_size ex)) = false.

Lemma limit_output_None ex o : limit_output ex o = None ↔ uncuttable ex o.
Proof.
  unfold limit_output, uncuttable. case_bool_decide; [split; [done|lia]|].
  destruct (is_char_boundary _ _); naive_solver lia.
Qed.

(** The last call of the trace is a process whose output cannot be cut. *)
Definition cut_failed ex s : Prop :=
  ∃ w q t code out err, last (xlog s) = Some (w, existT _ (RunProcess q t)) ∧
    (os_step _ (RunProcess q t) w).2 = PExited code out err ∧ (uncuttable ex out ∨ uncuttable ex err).

Definition panics_cutting {A} ex (c : Exec (W := W) A) : Prop :=
  ∀ s s', c s = (s', Panicked) → cut_failed ex s'.

Lemma panics_avoids {A} ex (c : Exec A) : avoids ByPanic c → panics_cutting ex c.
Proof. intros Hc s s' E. specialize (Hc s). by rewrite E in Hc. Qed.

Lemma panics_bind {A B} ex (c : Exec A) (f : A → Exec B) :
  panics_cutting ex c → (∀ a, panics_cutting ex (f a)) → panics_cutting ex (exec_bind c f).
Proof.
  intros Hc Hf s s'. unfold exec_bind. destruct (c s) as [s1 [[a|e]| |]] eqn:E; try done.
  - apply Hf.
  - intros [= <-]. by apply (Hc s).
Qed.

Lemma panics_run_process ex q timeout : panics_cutting ex (run_process (W := W) ex q timeout).
Proof.
  intros s s'. unfold run_process, exec_bind, sys.
  set (t := if bool_decide _ then _ else _).
  destruct (os_step _ (RunProcess q t) (xw s)) as [w' r] eqn:Er. destruct r as [|e|code out err]; [done..|].
  intros E. exists (xw s), q, t, code, out, err.
  assert (s' = MkExec w' (xlog s ++ [(xw s, existT _ (RunProcess q t))]) ∧
    (limit_output ex out = None ∨ limit_output ex err = None)) as [-> Ho].
  { destruct (limit_output ex out); [destruct (limit_output ex err)|]; try done;
      injection E as <-; auto. }
  split_and!; [simpl; by rewrite last_snoc|by rewrite Er|]. by rewrite !limit_output_None in Ho.
Qed.

Lemma panics_run_and_remove ex temp q timeout : panics_cutting ex (run_and_remove (W := W) ex temp q timeout).
Proof.
  intros s s'. unfold run_and_remove. destruct (run_process ex q timeout s) as [s1 [r| |]] eqn:E; try done.
  - by destruct (sys (RemoveFile temp) s1).
  - intros [= <-]. by apply (panics_run_process ex q timeout s).
Qed.

Lemma list_recursive_no_panic fuel ex pattern dir : avoids (W := W) ByPanic (list_recursive fuel ex pattern dir).
Proof.
  revert dir. induction fuel as [|fuel IH]; intros dir; simpl; [done|]. avoids_steps;
    [apply avoids_list_here|apply IH].
Qed.

Lemma search_recursive_no_panic fuel ex pattern content dir :
  avoids (W := W) ByPanic (search_recursive fuel ex pattern content dir).
Proof.
  revert dir. induction fuel as [|fuel IH]; intros dir; simpl; [done|]. avoids_steps;
    [apply avoids_search_here|apply IH].
Qed.

Lemma execute_file_no_panic fuel ex c : avoids (W := W) ByPanic (execute_file fuel ex c).
Proof.
  destruct c; simpl;
    unfold file_read, file_write, file_append, file_delete, file_list, file_search, search_single_dir,
      file_copy, file_move, destination_free, file_info, get_file_info, file_create_dir, file_exists;
    avoids_steps; solve [apply list_recursive_no_panic|apply search_recursive_no_panic
                        |apply avoids_list_here|apply avoids_search_here].
Qed.

Lemma panics_execute_inner fuel ex uuid c : panics_cutting ex (execute_inner (W := W) fuel ex uuid c).
Proof.
  destruct c as [c|c|c|c|c|c|c]; simpl.
  - apply panics_avoids, execute_file_no_panic.
  - apply panics_bind; [apply panics_avoids, avoids_view|intros; apply panics_run_process].
  - unfold execute_code, execute_python, execute_javascript.
    destruct (cc_language c); try apply panics_avoids, avoids_ret;
      (apply panics_bind; [apply panics_avoids, avoids_view|intros a]);
      try apply panics_run_process;
      (apply panics_bind; [apply panics_avoids, create_temp_ends|intros; apply panics_run_and_remove]).
  - apply panics_avoids, avoids_ret.
  - apply panics_avoids. unfold execute_api. avoids_steps.
  - apply panics_avoids. unfold execute_browser, open_system. avoids_steps.
  - apply panics_avoids, avoids_ret.
Qed.
End Panics.

(** ** The theorems *)

Section Theorems.
Context `{JsonValue, GlobMatch, PathTexts, ToLowercase} {W : Type} `{!Os W, !ExecTexts}.
Implicit Types (ex : CommandExecutor) (p : path) (s : exec_state (W := W)).

(** The trace of a command executed in the world [w]. *)
Definition command_trace env ex c st (w : W) : list (W * sigT syscall) :=
  xlog (execute_unchecked env ex c st (MkExec w [])).1.1.

(** The executor never reaches outside the workspace: every path a system call of a
    command touches was resolved during that command to a place inside the root that
    the patterns allow, and that may be written when the call writes; the exceptions
    are the directory created above a path granted for writing and the code file put
    right inside the granted internal directory. *)
Theorem executor_trace_confined env ex c st w :
  one_component (xe_uuid env) → justified ex (command_trace env ex c st w).
Proof.
  intros Hu. unfold command_trace, execute_unchecked.
  destruct (safe_execute_inner (xe_fuel env) ex (xe_uuid env) [] c Hu (MkExec w [])) as (Hj & _ & _);
    [by intros [|] ? ? ? ?|done|].
  by destruct (execute_inner _ _ _ _ _) as [s' [r| |]].
Qed.

(** Every command comes to an answer, and the only way not to is the panic of
    an output cut inside a character: with bounded paths and fuel for their depth
    a command either is done or has just run a process whose output is longer
    than the limit and has a character across it. *)
Theorem execution_answers depth `{!BoundedPaths (W := W) depth} env ex c st s :
  depth < xe_fuel env →
  (∃ s' st' r, execute_unchecked env ex c st s = (s', st', Done r)) ∨
  (∃ s', execute_unchecked env ex c st s = (s', st, Panicked) ∧ cut_failed ex s').
Proof.
  intros Hf. pose proof (execute_inner_ends depth (xe_fuel env) ex (xe_uuid env) c Hf s) as He.
  pose proof (panics_execute_inner (xe_fuel env) ex (xe_uuid env) c s) as Hp.
  unfold execute_unchecked. destruct (execute_inner _ _ _ _ s) as [s' [r| |]]; simpl in *; [eauto|eauto|done].
Qed.

(** A command the permission check does not allow makes no system call and
    leaves the statistics alone; its result is a failure that says so. *)
Theorem refused_command_inert env ex m ck id c context st s :
  check (H2 := os_view (xw s)) m ck id c context ≠ Allowed →
  ∃ error, execute env ex m ck id c context st s = (s, st, Done (Ok (result_failure error))) ∧
    ee_code error = "PERMISSION_DENIED".
Proof.
  unfold execute. destruct (check _ _ _ _ _) as [|reason|rid reason]; [done|eauto..].
Qed.

(** The statistics add up: executions are successes plus failures, in 64 bits. *)
Definition stats_consistent (st : ExecutorStats) : Prop :=
  wrap 64 (es_total_executions st) = wrap 64 (es_successful_executions st + es_failed_executions st).

Lemma execute_unchecked_stats env ex c st s :
  stats_consistent st → stats_consistent (execute_unchecked env ex c st s).1.2.
Proof.
  intros Hst. unfold execute_unchecked. destruct (execute_inner _ _ _ _ s) as [s' [r| |]]; [|done..].
  unfold stats_consistent, update_stats in *. unfold wrap in *. simpl.
  destruct r; simpl; rewrite Zmod_mod, <-Zplus_mod_idemp_l, Hst, Zplus_mod_idemp_l.
  - rewrite Zplus_mod_idemp_l. f_equal. lia.
  - rewrite Zplus_mod_idemp_r. f_equal. lia.
Qed.
End Theorems.

(** ** A concrete world: the directories of [flat_fs] and a fixed answer to
    every call; a process prints three ASCII characters and one of two bytes. *)

#[local] Instance exec_json : JsonValue := json_trees.
#[local] Instance exec_lower : ToLowercase := {| to_lowercase := ascii_lower; to_lowercase_ascii _ _ := eq_refl |}.
#[local] Instance exec_glob : GlobMatch := demo_glob.
#[local] Instance exec_paths : PathTexts := demo_texts.
#[local] Instance exec_texts : ExecTexts :=
  {| duration_debug := λ _, "60s"; json_number := λ n, GenLeaf (pretty n);
     json_bool := λ b, GenLeaf (if b then "true" else "false");
     json_array := λ l, GenNode 2 l; json_opt_time := λ _, GenLeaf "null"; json_null := GenLeaf "null" |}.

Definition demo_output : string :=
  "abc" +:+ String (ascii_of_nat 195) (String (ascii_of_nat 169) EmptyString).

Definition demo_answer {R} (c : syscall R) : R :=
  match c in syscall R return R with
  | ReadToString _ => Ok "abc"
  | ReadDir _ => Ok []
  | EntryMetadata _ => None
  | Metadata _ => Err "not found"
  | IsFile _ => false
  | TryExists _ => Ok true
  | CopyFile _ _ => Ok 3%Z
  | RunProcess _ _ => PExited (Some 0%Z) demo_output ""
  | HttpSend _ => HSendError "unreachable"
  | CreateDirAll _ | CreateDir _ | WriteFile _ _ | OpenAppend _ | AppendAll _ _ | RemoveDirAll _
  | RemoveDir _ | RemoveFile _ | RenameFile _ _ | OpenUrl _ => Ok tt
  end.

#[local] Instance demo_os : Os unit := {| os_view _ := flat_fs; os_step _ c w := (w, demo_answer c) |}.

#[local] Instance demo_bounded : BoundedPaths (W := unit) 4.
Proof.
  split.
  - intros w p Hp. simpl. apply bool_decide_eq_false. intros Hin.
    assert (Forall (λ q : path, length q ≤ 3) demo_dirs) as F by (repeat constructor; simpl; lia).
    rewrite Forall_forall in F. specialize (F p Hin). lia.
  - intros w p entries q. simpl. intros [= <-]. set_solver.
Qed.

Definition demo_executor (max : Z) : CommandExecutor :=
  MkCommandExecutor demo_workspace ".uhorse" (seconds 60) max.
Definition demo_exec_env : exec_env := MkExecEnv "1f" 12 5.

Definition demo_python : Command := CCode (CodeCommand_new Python "print('abc')").
Definition demo_echo : Command := CShell (ShellCommand_new "echo").

Lemma executor_trace_confined_witness :
  length (command_trace (W := unit) demo_exec_env (demo_executor 100) demo_python ExecutorStats_default ()) = 4 ∧
  justified (demo_executor 100)
    (command_trace (W := unit) demo_exec_env (demo_executor 100) demo_python ExecutorStats_default ()).
Proof.
  split; [vm_compute; reflexivity|]. apply executor_trace_confined. vm_compute; reflexivity.
Defined.

(** The output of [echo] is one byte too long for a limit of four bytes, and the
    fourth byte is inside a character: the executor panics. *)
Lemma execution_answers_witness :
  (execute_unchecked (W := unit) demo_exec_env (demo_executor 4) demo_echo ExecutorStats_default (MkExec () [])).2
  = Panicked ∧
  ((∃ s' st' r, execute_unchecked (W := unit) demo_exec_env (demo_executor 4) demo_echo ExecutorStats_default
      (MkExec () []) = (s', st', Done r)) ∨
   (∃ s', execute_unchecked (W := unit) demo_exec_env (demo_executor 4) demo_echo ExecutorStats_default
      (MkExec () []) = (s', ExecutorStats_default, Panicked) ∧ cut_failed (demo_executor 4) s')).
Proof.
  split; [vm_compute; reflexivity|]. apply (execution_answers 4). simpl. lia.
Defined.

Lemma refused_command_inert_witness :
  ∃ error, execute (W := unit) demo_exec_env (demo_executor 4) (PermissionManager_new demo_workspace true)
      (MkClock 0 "10:00" 1) "r1" demo_echo (TaskContext_new (MkUserId "u") (MkSessionId "s") "c" 0)
      ExecutorStats_default (MkExec () [])
    = (MkExec () [], ExecutorStats_default, Done (Ok (result_failure error))) ∧
    ee_code error = "PERMISSION_DENIED".
Proof. apply refused_command_inert. vm_compute. discriminate. Defined.
