(* ===== verification/NodeConnection.v ===== *)
(** The connection of a node to the Hub
    ([crates/uhorse-node-runtime/src/connection.rs]).  The socket, the channels
    and the other tasks appear as the events the loops wait for: an event carries
    what arrived and whether the reply to it could be sent.  [stop] is called by
    another task while the loop waits, so it is an event too. *)
From S2P Require Import Prelude Float32 Json ProtocolTypes ProtocolCommand ProtocolResult ProtocolMessage Paths Workspace.

Record ConnectionConfig := MkConnectionConfig {
  cn_hub_url : string;
  cn_reconnect_interval_secs : Z;
  cn_heartbeat_interval_secs : Z;
  cn_connect_timeout_secs : Z;
  cn_max_reconnect_attempts : Z;
  cn_auth_token : option string
}.

Definition ConnectionConfig_default : ConnectionConfig :=
  MkConnectionConfig "ws://localhost:8765/ws" 5 30 10 10 None.

Inductive ConnectionState :=
| CDisconnected
| CConnecting
| CConnected (connected_at : timestamp)
| CAuthenticating
| CAuthenticated (authenticated_at : timestamp)
| CReconnecting (attempt : Z)
| CFailed (error : string).

#[export] Instance ConnectionState_eq_dec : EqDecision ConnectionState.
Proof. solve_decision. Defined.

Definition ConnectionState_display (s : ConnectionState) : string :=
  match s with
  | CDisconnected => "disconnected"
  | CConnecting => "connecting"
  | CConnected _ => "connected"
  | CAuthenticating => "authenticating"
  | CAuthenticated _ => "authenticated"
  | CReconnecting attempt => "reconnecting(attempt=" +:+ display_u attempt +:+ ")"
  | CFailed error => "failed(" +:+ error +:+ ")"
  end.

Definition is_connected (s : ConnectionState) : bool :=
  match s with CConnected _ | CAuthenticating | CAuthenticated _ => true | _ => false end.

Record HeartbeatSnapshot := MkHeartbeatSnapshot { hs_status : NodeStatus; hs_load : LoadInfo }.

Section Connection.
Context `{JsonValue}.

(** What identifies the node on the wire. *)
Record node_identity := MkNodeIdentity {
  id_node : NodeId;
  id_name : string;
  id_workspace_path : string;
  id_capabilities : NodeCapabilities
}.

(** The shared cells of a connection: the state and the [running] flag, and what
    was written to the socket, delivered to the message handler, and waited. *)
Record conn := MkConn {
  c_state : ConnectionState;
  c_running : bool;
  c_written : list NodeToHub;
  c_inbound : list HubToNode;
  c_history : list ConnectionState;
  c_waits : list duration
}.

Definition conn_new : conn := MkConn CDisconnected false [] [] [] [].

Definition conn_set_state (c : conn) (s : ConnectionState) : conn :=
  MkConn s (c_running c) (c_written c) (c_inbound c) (c_history c ++ [s]) (c_waits c).
Definition conn_set_running (c : conn) (b : bool) : conn :=
  MkConn (c_state c) b (c_written c) (c_inbound c) (c_history c) (c_waits c).
Definition add_written (c : conn) (m : NodeToHub) : conn :=
  MkConn (c_state c) (c_running c) (c_written c ++ [m]) (c_inbound c) (c_history c) (c_waits c).
Definition add_inbound (c : conn) (m : HubToNode) : conn :=
  MkConn (c_state c) (c_running c) (c_written c) (c_inbound c ++ [m]) (c_history c) (c_waits c).
Definition add_wait (c : conn) (d : duration) : conn :=
  MkConn (c_state c) (c_running c) (c_written c) (c_inbound c) (c_history c) (c_waits c ++ [d]).

(** [start]: the connection task is spawned, or there is one already. *)
Definition conn_start (c : conn) : conn * NodeResult unit :=
  if c_running c then (c, Err (NConnection "Connection already running"))
  else (conn_set_state (conn_set_running c true) CConnecting, Ok tt).

Definition conn_stop (c : conn) : conn := conn_set_state (conn_set_running c false) CDisconnected.

(** The events of the receive loop; [sent] tells whether the send it makes succeeds. *)
Inductive conn_event :=
| EvBinary (message : option HubToNode) (forwarded : bool) (now : timestamp)
| EvPing (sent : bool)
| EvClose (reason : option string)
| EvIgnored
| EvError
| EvEnd
| EvOutbound (message : option NodeToHub) (sent : bool)
| EvTick (snapshot : option HeartbeatSnapshot) (mid : MessageId) (now : timestamp) (sent : bool)
| EvStop.

Definition register_message (config : ConnectionConfig) (n : node_identity) (mid : MessageId)
    (now : timestamp) : NodeToHub :=
  let workspace_name := default "workspace" (file_name (path_of_string (id_workspace_path n))) in
  NRegister mid (id_node n) (id_name n) (id_capabilities n)
    (MkWorkspaceInfo None workspace_name (id_workspace_path n) false ["**/*"] [])
    (default "" (cn_auth_token config)) now.

(** How the loop ends on an event: it goes on, [break]s, or returns an error. *)
Inductive flow := Continue | Break | Return (e : NodeError).

Definition close_reason (reason : option string) : string :=
  match reason with
  | Some r => if bool_decide (str_trim r = "") then "Hub rejected node registration before confirmation" else r
  | None => "Hub rejected node registration before confirmation"
  end.

(** One turn of [select!]: the connection, whether the Hub confirmed, and the flow. *)
Definition on_event (n : node_identity) (confirmed : bool) (c : conn) (e : conn_event)
    : conn * bool * flow :=
  match e with
  | EvBinary (Some m) forwarded now =>
      let c1 := if confirmed then c else conn_set_state c (CAuthenticated now) in
      if forwarded then (add_inbound c1 m, true, Continue) else (c1, true, Break)
  | EvBinary None _ _ => (c, confirmed, Continue)
  | EvPing sent => (c, confirmed, if sent then Continue else Break)
  | EvClose reason =>
      if confirmed then (c, confirmed, Break)
      else (c, confirmed, Return (NConnection (close_reason reason)))
  | EvIgnored => (c, confirmed, Continue)
  | EvError => (c, confirmed, Break)
  | EvEnd =>
      if confirmed then (c, confirmed, Break)
      else (c, confirmed, Return (NConnection "Hub closed connection before registration confirmation"))
  | EvOutbound (Some m) sent => if sent then (add_written c m, confirmed, Continue) else (c, confirmed, Break)
  | EvOutbound None _ => (c, confirmed, Break)
  | EvTick (Some snap) mid now sent =>
      let heartbeat := NHeartbeat mid (id_node n) (hs_status snap) (hs_load snap) now in
      if sent then (add_written c heartbeat, confirmed, Continue) else (c, confirmed, Break)
  | EvTick None _ _ _ => (c, confirmed, Continue)
  | EvStop => (conn_stop c, confirmed, Continue)
  end.

Definition is_stop (e : conn_event) : bool := match e with EvStop => true | _ => false end.

(** The loop waiting for its next event: [None] is still waiting.  The flag is
    read between turns only, so [stop] takes effect after the event awaited. *)
Fixpoint receive_loop (n : node_identity) (confirmed : bool) (c : conn) (events : list conn_event)
    : conn * option (NodeResult unit) :=
  match events with
  | [] => (c, None)
  | e :: rest =>
      let '(c', confirmed', f) := on_event n confirmed c e in
      match f with
      | Continue =>
          if is_stop e || c_running c' then receive_loop n confirmed' c' rest else (c', Some (Ok tt))
      | Break => (c', Some (Ok tt))
      | Return err => (c', Some (Err err))
      end
  end.

(** What happens to one attempt to connect. *)
Inductive attempt :=
| ConnectTimeout
| ConnectError (text : string)
| Established (at_ : timestamp) (mid : MessageId) (register_error : option string)
    (events : list conn_event).

Definition connect_and_run (config : ConnectionConfig) (n : node_identity) (c : conn) (a : attempt)
    : conn * option (NodeResult unit) :=
  match a with
  | ConnectTimeout => (c, Some (Err (NTimeout "Connection timeout")))
  | ConnectError text => (c, Some (Err (NConnection ("Failed to connect: " +:+ text))))
  | Established now mid register_error events =>
      let c1 := conn_set_state (conn_set_state c (CConnected now)) CAuthenticating in
      match register_error with
      | Some text => (c1, Some (Err (NConnection ("Failed to send register message: " +:+ text))))
      | None =>
          let c2 := add_written c1 (register_message config n mid now) in
          if c_running c2 then receive_loop n false c2 events else (c2, Some (Ok tt))
      end
  end.

(** What [connection_loop] goes through: an attempt, during whose connecting
    [stop] may be called, or a call to [stop] while it waits to reconnect. *)
Inductive loop_event :=
| Attempt (stopped : bool) (a : attempt)
| StopWaiting.

(** [connection_loop]; the flag of the result tells that it stopped, the number
    is its counter of reconnections. *)
Fixpoint connection_loop (config : ConnectionConfig) (n : node_identity) (reconnects : Z) (c : conn)
    (events : list loop_event) : conn * Z * bool :=
  match events with
  | StopWaiting :: rest => connection_loop config n reconnects (conn_stop c) rest
  | [] => if c_running c then (c, reconnects, false) else (conn_set_state c CDisconnected, reconnects, true)
  | Attempt stopped a :: rest =>
      if negb (c_running c) then (conn_set_state c CDisconnected, reconnects, true)
      else
        match connect_and_run config n (if stopped then conn_stop c else c) a with
        | (c', None) => (c', reconnects, false)
        | (c', Some (Ok _)) => connection_loop config n 0 c' rest
        | (c', Some (Err e)) =>
            let reconnects' := wrap 32 (reconnects + 1) in
            if bool_decide (cn_max_reconnect_attempts config < reconnects')%Z
            then (conn_set_state (conn_set_state c' (CFailed (NodeError_display e))) CDisconnected, reconnects', true)
            else connection_loop config n reconnects'
                   (add_wait (conn_set_state c' (CReconnecting reconnects'))
                      (seconds (cn_reconnect_interval_secs config))) rest
        end
  end.

(** [select!] with its timer: the sleep of the heartbeat starts anew with every
    turn of the loop, so of the arrivals (absolute times, in order) and the timer
    the one that is due first is taken.  The result is the sequence of turns until
    [stop_at]: the arrivals and the ticks. *)
Fixpoint timed_turns (fuel : nat) (interval : Z) (turn_start stop_at : Z) (arrivals : list (Z * conn_event))
    (tick : Z → conn_event) : list conn_event :=
  match fuel with
  | O => []
  | S fuel' =>
      let due := (turn_start + interval)%Z in
      match arrivals with
      | (t, e) :: rest =>
          if bool_decide (t < due)%Z then e :: timed_turns fuel' interval t stop_at rest tick
          else if bool_decide (due ≤ stop_at)%Z then tick due :: timed_turns fuel' interval due stop_at arrivals tick
          else []
      | [] =>
          if bool_decide (due ≤ stop_at)%Z then tick due :: timed_turns fuel' interval due stop_at [] tick
          else []
      end
  end.
End Connection.

(** * Theorems

   What the connection of a node does over time: how its loop ends, when it
    waits, and when heartbeats are sent. *)

Section Facts.
Context `{JsonValue}.
Implicit Types (c : conn) (n : node_identity) (config : ConnectionConfig).

(** ** Without a call to [stop] *)

Definition stop_free_attempt (a : attempt) : bool :=
  match a with Established _ _ _ events => forallb (λ e, negb (is_stop e)) events | _ => true end.
Definition stop_free (e : loop_event) : bool :=
  match e with Attempt stopped a => negb stopped && stop_free_attempt a | StopWaiting => false end.

Lemma on_event_running n confirmed c e :
  is_stop e = false → c_running (on_event n confirmed c e).1.1 = c_running c.
Proof.
  destruct e as [[m|] []|[]|r| | | |[m|] []|[s|] mid now []|]; simpl; try done; by destruct confirmed.
Qed.

Lemma receive_loop_running n confirmed c events :
  forallb (λ e, negb (is_stop e)) events = true →
  c_running (receive_loop n confirmed c events).1 = c_running c.
Proof.
  revert confirmed c. induction events as [|e events IH]; intros confirmed c Hs; [done|].
  simpl in Hs. apply andb_true_iff in Hs as [He%negb_true_iff Hs]. simpl.
  pose proof (on_event_running n confirmed c e He) as Hr.
  destruct (on_event n confirmed c e) as [[c' confirmed'] f]; simpl in *. rewrite He. simpl.
  destruct f; [|done..]. destruct (c_running c') eqn:E; simpl; [|congruence].
  rewrite IH by done. congruence.
Qed.

Lemma connect_running config n c a :
  stop_free_attempt a = true → c_running (connect_and_run config n c a).1 = c_running c.
Proof.
  intros Ha. destruct a as [| |now mid [text|] events]; [done..|]. simpl.
  destruct (c_running c) eqn:E; [|done]. by rewrite receive_loop_running.
Qed.

Lemma connection_loop_running config n k c events :
  forallb stop_free events = true → c_running (connection_loop config n k c events).1.1 = c_running c.
Proof.
  revert k c. induction events as [|[stopped a|] events IH]; intros k c Hs; simpl in *;
    [by destruct (c_running c) eqn:E|..|done].
  apply andb_true_iff in Hs as [[Hst%negb_true_iff Ha]%andb_true_iff Hs].
  destruct (c_running c) eqn:E; simpl; [|done]. rewrite Hst.
  pose proof (connect_running config n c a Ha) as Hr.
  destruct (connect_and_run config n c a) as [c' [[[]|e]|]]; simpl in *.
  - rewrite IH by done. congruence.
  - case_bool_decide; simpl; [congruence|]. rewrite IH by done. simpl. congruence.
  - congruence.
Qed.

(** ** The end of the loop *)

Lemma connection_loop_end config n k c events c' k' :
  connection_loop config n k c events = (c', k', true) → c_state c' = CDisconnected.
Proof.
  revert k c. induction events as [|[stopped a|] events IH]; intros k c; simpl.
  - destruct (c_running c); by intros [= <- _].
  - destruct (c_running c); simpl; [|by intros [= <- _]].
    destruct (connect_and_run _ _ _ _) as [c1 [[[]|e]|]]; [apply IH| |done].
    case_bool_decide; [by intros [= <- _]|apply IH].
  - apply IH.
Qed.

(** A connection that gives up cannot be told from one never started, and cannot
    be started: when the loop of a running connection ends although nobody called
    [stop], it ran out of attempts, yet the state it leaves is [Disconnected], the
    [Failed] it wrote just before being lost, and the flag still says running, so
    that [start] refuses. *)
Theorem failed_connection_stays_down config n k c events c' k' :
  c_running c = true → forallb stop_free events = true →
  connection_loop config n k c events = (c', k', true) →
  c_state c' = CDisconnected ∧ (cn_max_reconnect_attempts config < k')%Z ∧
  (∃ before error, c_history c' = before ++ [CFailed error; CDisconnected]) ∧
  conn_start c' = (c', Err (NConnection "Connection already running")).
Proof.
  intros Hrun Hs Hl. split; [by eapply connection_loop_end|].
  assert (c_running c' = true) as Hrun'.
  { pose proof (connection_loop_running config n k c events Hs) as Hr. rewrite Hl in Hr. simpl in Hr. congruence. }
  assert ((cn_max_reconnect_attempts config < k')%Z ∧
    ∃ before error, c_history c' = before ++ [CFailed error; CDisconnected]) as [Hk Hh];
    [|split_and!; try done; unfold conn_start; by rewrite Hrun'].
  revert k c Hrun Hl. induction events as [|[stopped a|] events IH]; intros k c Hrun Hl; simpl in *;
    [by rewrite Hrun in Hl| |done].
  apply andb_true_iff in Hs as [[Hst%negb_true_iff Ha]%andb_true_iff Hs].
  rewrite Hrun, Hst in Hl. simpl in Hl. pose proof (connect_running config n c a Ha) as Hr.
  destruct (connect_and_run config n c a) as [c1 [[[]|e]|]]; simpl in *; [|case_bool_decide as Hm|done].
  - eapply IH; [done| |exact Hl]. congruence.
  - injection Hl as <- <-. split; [done|]. simpl. eexists _, _. by rewrite <-app_assoc.
  - eapply IH; [done| |exact Hl]. simpl. congruence.
Qed.

(** ** Waiting *)

(** An attempt the Hub accepts and whose socket then fails. *)
Definition accepted_then_error (e : loop_event) : bool :=
  match e with Attempt false (Established _ _ None [EvError]) => true | _ => false end.

(** Reconnecting without end or pause: a socket that fails right after the
    registration, before the Hub confirms it, counts as a connection closed
    normally, so whatever the maximum of attempts the loop goes on, and it never
    waits between two of them. *)
Theorem early_socket_errors_retried_at_once config n k c events :
  c_running c = true → forallb accepted_then_error events = true → events ≠ [] →
  (connection_loop config n k c events).2 = false ∧
  (connection_loop config n k c events).1.2 = 0%Z ∧
  c_waits (connection_loop config n k c events).1.1 = c_waits c ∧
  length (c_written (connection_loop config n k c events).1.1) = length (c_written c) + length events.
Proof.
  intros Hrun He Hne.
  assert (∀ k c, c_running c = true →
    let r := connection_loop config n k c events in
    r.2 = false ∧ c_waits r.1.1 = c_waits c ∧ r.1.2 = (if decide (events = []) then k else 0)%Z ∧
    length (c_written r.1.1) = length (c_written c) + length events) as Hgen.
  { clear Hne Hrun k c. induction events as [|e events IH]; intros k c Hrun; simpl.
    { rewrite Hrun. simpl. split_and!; simpl; first [done|lia]. }
    simpl in He. apply andb_true_iff in He as [H1 H2].
    destruct e as [[] [| |now mid [|] [|[] [|? ?]]]|]; simpl in *; try done.
    rewrite Hrun. simpl.
    match goal with |- context [connection_loop config n 0 ?c1 events] =>
      destruct (IH H2 0%Z c1 Hrun) as (Ha & Hb & Hc & Hd) end.
    rewrite Ha, Hb, Hc, Hd.
    split_and!; [done|done|by case_decide|]. simpl. rewrite length_app. simpl. lia. }
  destruct (Hgen k c Hrun) as (Ha & Hb & Hc & Hd). rewrite decide_False in Hc by done. done.
Qed.

(** When every attempt fails the loop gives up after one more than the maximum,
    and has waited the interval before each of the others. *)
Definition failing (e : loop_event) : bool :=
  match e with Attempt false (ConnectTimeout | ConnectError _) => true | _ => false end.

Theorem gives_up_after_maximum config n c events :
  (0 ≤ cn_max_reconnect_attempts config < u32_max)%Z →
  c_running c = true → forallb failing events = true →
  (cn_max_reconnect_attempts config < zlen events)%Z →
  ∃ c', connection_loop config n 0 c events = (c', cn_max_reconnect_attempts config + 1, true)%Z ∧
    c_waits c' = c_waits c ++
      replicate (Z.to_nat (cn_max_reconnect_attempts config)) (seconds (cn_reconnect_interval_secs config)).
Proof.
  intros Hmax Hrun Hf Hlen.
  assert (∀ k c, c_running c = true → (0 ≤ k ≤ cn_max_reconnect_attempts config)%Z →
    (cn_max_reconnect_attempts config - k < zlen events)%Z →
    ∃ c', connection_loop config n k c events = (c', cn_max_reconnect_attempts config + 1, true)%Z ∧
      c_waits c' = c_waits c ++ replicate (Z.to_nat (cn_max_reconnect_attempts config - k))
        (seconds (cn_reconnect_interval_secs config))) as Hgen.
  { clear c Hrun Hlen. induction events as [|e events IH]; intros k c Hrun Hk Hlen.
    { unfold zlen in Hlen. simpl in Hlen. lia. }
    simpl in Hf. apply andb_true_iff in Hf as [He Hf].
    assert (wrap 32 (k + 1) = (k + 1)%Z) as Hw by (unfold wrap, u32_max in *; apply Z.mod_small; lia).
    assert (∃ err, connect_and_run config n c
      match e with Attempt _ a => a | StopWaiting => ConnectTimeout end = (c, Some (Err err))) as [err Herr].
    { destruct e as [[] [| |]|]; simpl in *; try done; eauto. }
    destruct e as [[] a|]; simpl in He; [done| |done]. cbn [connection_loop]. rewrite Hrun. cbn [negb].
    rewrite Herr, Hw. case_bool_decide as Hm.
    - assert (k = cn_max_reconnect_attempts config) as -> by lia. eexists. split; [done|].
      simpl. rewrite Z.sub_diag. simpl. by rewrite app_nil_r.
    - destruct (IH Hf (k + 1)%Z (add_wait (conn_set_state c (CReconnecting (k + 1)))
        (seconds (cn_reconnect_interval_secs config)))) as (c' & Hc' & Hwaits);
        [done|lia|unfold zlen in *; simpl in Hlen; lia|].
      exists c'. split; [done|]. rewrite Hwaits. simpl. rewrite <-app_assoc. f_equal.
      replace (Z.to_nat (cn_max_reconnect_attempts config - k))
        with (S (Z.to_nat (cn_max_reconnect_attempts config - (k + 1)))) by lia. done. }
  destruct (Hgen 0%Z c Hrun) as (c' & Hc & Hw); [lia|by rewrite Z.sub_0_r|].
  exists c'. rewrite Z.sub_0_r in Hw. done.
Qed.

(** ** Heartbeats *)

Definition is_heartbeat (m : NodeToHub) : bool := match m with NHeartbeat _ _ _ _ _ => true | _ => false end.

(** An arrival that is not the timer, nor a heartbeat of someone else. *)
Definition business (e : conn_event) : bool :=
  match e with EvTick _ _ _ _ => false | EvOutbound (Some m) _ => negb (is_heartbeat m) | _ => true end.

(** Every arrival comes less than the interval after the one before, and the
    observation ends before the timer started by the last is due. *)
Fixpoint dense (interval start stop_at : Z) (arrivals : list (Z * conn_event)) : bool :=
  match arrivals with
  | [] => bool_decide (stop_at < start + interval)%Z
  | (t, _) :: rest => bool_decide (t < start + interval)%Z && dense interval t stop_at rest
  end.

Lemma timed_turns_dense fuel interval start stop_at arrivals tick :
  dense interval start stop_at arrivals = true → length arrivals < fuel →
  timed_turns fuel interval start stop_at arrivals tick = arrivals.*2.
Proof.
  revert start arrivals. induction fuel as [|fuel IH]; intros start arrivals Hd Hf; [lia|].
  destruct arrivals as [|[t e] rest]; simpl in *.
  - apply bool_decide_eq_true in Hd. by rewrite bool_decide_false by lia.
  - apply andb_true_iff in Hd as [Ht Hd]. rewrite Ht. f_equal. apply IH; [done|lia].
Qed.

Lemma on_event_heartbeats n confirmed c e :
  business e = true →
  List.filter is_heartbeat (c_written (on_event n confirmed c e).1.1) = List.filter is_heartbeat (c_written c).
Proof.
  destruct e as [[m|] []|[]|r| | | |[m|] []|[s|] mid now []|]; simpl; try done; try (by destruct confirmed).
  intros Hm%negb_true_iff. rewrite List.filter_app. simpl. by rewrite Hm, app_nil_r.
Qed.

Lemma receive_loop_heartbeats n confirmed c events :
  forallb business events = true →
  List.filter is_heartbeat (c_written (receive_loop n confirmed c events).1)
  = List.filter is_heartbeat (c_written c).
Proof.
  revert confirmed c. induction events as [|e events IH]; intros confirmed c He; [done|].
  simpl in He. apply andb_true_iff in He as [Hb He]. simpl.
  pose proof (on_event_heartbeats n confirmed c e Hb) as Hh.
  destruct (on_event n confirmed c e) as [[c' confirmed'] f]; simpl in *.
  destruct f; [|done..]. destruct (is_stop e || c_running c'); [|done]. by rewrite IH.
Qed.

(** A busy connection is silent about its health: the timer of the heartbeat
    starts anew with every turn of the loop, so while messages come or go more
    often than the interval, for however long, no heartbeat is sent. *)
Theorem busy_connection_sends_no_heartbeat n confirmed c interval start stop_at arrivals tick fuel :
  dense interval start stop_at arrivals = true → forallb business arrivals.*2 = true →
  length arrivals < fuel →
  List.filter is_heartbeat
    (c_written (receive_loop n confirmed c (timed_turns fuel interval start stop_at arrivals tick)).1)
  = List.filter is_heartbeat (c_written c).
Proof. intros Hd Hb Hf. rewrite timed_turns_dense by done. by apply receive_loop_heartbeats. Qed.
End Facts.

(** ** Concrete runs *)

#[local] Instance conn_json : JsonValue := json_trees.

Definition demo_identity : node_identity :=
  MkNodeIdentity (MkNodeId "n1") "node" "/ws" NodeCapabilities_default.
Definition running_conn : conn := (conn_start conn_new).1.
Definition one_attempt : ConnectionConfig := MkConnectionConfig "ws://hub" 5 30 10 1 None.

Lemma failed_connection_stays_down_witness :
  let c' := (connection_loop one_attempt demo_identity 0 running_conn
               [Attempt false ConnectTimeout; Attempt false (ConnectError "refused")]).1.1 in
  c_state c' = CDisconnected ∧ (1 < 2)%Z ∧
  (∃ before error, c_history c' = before ++ [CFailed error; CDisconnected]) ∧
  conn_start c' = (c', Err (NConnection "Connection already running")).
Proof.
  apply (failed_connection_stays_down one_attempt demo_identity 0 running_conn
    [Attempt false ConnectTimeout; Attempt false (ConnectError "refused")]); vm_compute; reflexivity.
Defined.

Lemma early_socket_errors_retried_at_once_witness :
  let events := [Attempt false (Established 1 (MkMessageId "m1") None [EvError]);
                 Attempt false (Established 2 (MkMessageId "m2") None [EvError]);
                 Attempt false (Established 3 (MkMessageId "m3") None [EvError])] in
  let r := connection_loop one_attempt demo_identity 0 running_conn events in
  r.2 = false ∧ r.1.2 = 0%Z ∧ c_waits r.1.1 = [] ∧ length (c_written r.1.1) = 3.
Proof.
  apply (early_socket_errors_retried_at_once one_attempt demo_identity 0 running_conn); [done|done|discriminate].
Defined.

Lemma gives_up_after_maximum_witness :
  ∃ c', connection_loop one_attempt demo_identity 0 running_conn
      [Attempt false ConnectTimeout; Attempt false ConnectTimeout] = (c', 2%Z, true) ∧
    c_waits c' = [seconds 5].
Proof.
  apply (gives_up_after_maximum one_attempt demo_identity running_conn); vm_compute; try done; by split.
Defined.

(** Three messages twenty time units apart, a timer of thirty. *)
Lemma busy_connection_sends_no_heartbeat_witness :
  let arrivals := [(20, EvIgnored); (40, EvPing true); (60, EvIgnored)]%Z in
  let tick := λ t, EvTick (Some (MkHeartbeatSnapshot
    (MkNodeStatus (MkNodeId "n1") true 0 1 f32_zero 0 f32_zero None 0) LoadInfo_default)) (MkMessageId "hb") t true in
  List.filter is_heartbeat
    (c_written (receive_loop demo_identity true running_conn (timed_turns 9 30 0 80 arrivals tick)).1) = [].
Proof.
  intros arrivals tick. apply (busy_connection_sends_no_heartbeat demo_identity true running_conn 30 0 80 arrivals tick 9);
    [reflexivity|reflexivity|simpl; lia].
Defined.
