(* ===== verification/NodeProcess.v ===== *)
(** The node ([crates/uhorse-node-runtime/src/node.rs] and [status.rs]): its
    configuration and life cycle, the handling of the Hub's messages with the
    permission manager and the executor, the metrics, the status reports and the
    watcher that stages new files.  The result of [is_git_repo], the readings of
    the system and the answers of git and of the file watcher are arguments. *)
From Stdlib Require Import SpecFloat.
From S2P Require Import Prelude Float32 Json ProtocolTypes ProtocolCommand ProtocolResult.
From S2P Require Import ProtocolMessage Channel Paths Workspace Permission Executor NodeConnection.

(** ** Configuration *)

Inductive PermissionResourceConfig :=
| RcAllowAll
| RcExactPath (path : string)
| RcPathPrefix (prefix : string)
| RcGlob (pattern : string)
| RcRegex (pattern : string)
| RcCommandType (types : list string)
| RcAll (patterns : list PermissionResourceConfig)
| RcAny (patterns : list PermissionResourceConfig).

Record PermissionRuleConfig := MkPermissionRuleConfig {
  rc_id : string;
  rc_name : string;
  rc_description : option string;
  rc_resource : PermissionResourceConfig;
  rc_actions : list Action;
  rc_require_approval : bool;
  rc_priority : Z;
  rc_enabled : bool
}.

Fixpoint resource_into_runtime (r : PermissionResourceConfig) : ResourcePattern :=
  match r with
  | RcAllowAll => AllowAll
  | RcExactPath path => ExactPath path
  | RcPathPrefix prefix => PathPrefix prefix
  | RcGlob pattern => Glob pattern
  | RcRegex pattern => Regex pattern
  | RcCommandType types => RCommandType types
  | RcAll patterns => All (map resource_into_runtime patterns)
  | RcAny patterns => Any (map resource_into_runtime patterns)
  end.

Definition set_description_enabled (r : PermissionRule) (d : option string) (enabled : bool) : PermissionRule :=
  MkPermissionRule (pr_id r) (pr_name r) d (pr_resource r) (pr_actions r) (pr_conditions r)
    (pr_require_approval r) (pr_priority r) enabled (pr_created_at r) (pr_updated_at r).

Definition rule_into_runtime (now : timestamp) (c : PermissionRuleConfig) : PermissionRule :=
  let rule := with_priority (require_approval (with_actions (with_resource
    (PermissionRule_new now (rc_id c) (rc_name c)) (resource_into_runtime (rc_resource c)))
    (rc_actions c)) (rc_require_approval c)) (rc_priority c) in
  set_description_enabled rule (rc_description c) (rc_enabled c).

Record NodeConfig := MkNodeConfig {
  nc_node_id : option NodeId;
  nc_name : string;
  nc_connection : ConnectionConfig;
  nc_workspace_path : string;
  nc_heartbeat_interval_secs : Z;
  nc_status_interval_secs : Z;
  nc_max_concurrent_tasks : Z;
  nc_capabilities : NodeCapabilities;
  nc_tags : list string;
  nc_git_protection_enabled : bool;
  nc_watch_workspace : bool;
  nc_auto_git_add_new_files : bool;
  nc_require_git_repo : bool;
  nc_internal_work_dir : string;
  nc_permission_rules : list PermissionRuleConfig
}.

Definition NodeConfig_default : NodeConfig :=
  MkNodeConfig None "uHorse-Node" ConnectionConfig_default "." 30 60 5 NodeCapabilities_default
    ["default"] true true true true ".uhorse" [].

(** *** Rules sent by the Hub *)

Definition convert_protocol_action (a : WireAction) : option Action :=
  match a with
  | WRead => Some Read | WWrite => Some Write | WDelete => Some Delete
  | WExecute => Some Execute | WAdmin => Some Admin | WList => None
  end.

Definition convert_protocol_resource_pattern (p : WireResourcePattern) : ResourcePattern :=
  match p with
  | WExact path => ExactPath path
  | WGlob pattern => Glob pattern
  | WRegex pattern => Regex pattern
  | WPrefix prefix => PathPrefix prefix
  end.

Definition convert_protocol_permission_rule (now : timestamp) (r : WirePermissionRule) : PermissionRule :=
  let rule := require_approval (with_actions (with_resource
    (PermissionRule_new now (wr_id r) (wr_name r)) (convert_protocol_resource_pattern (wr_resource r)))
    (omap convert_protocol_action (wr_actions r))) (wr_require_approval r) in
  set_description_enabled rule (pr_description rule) (wr_enabled r).

(** ** Metrics ([status.rs]) *)

Record Metrics := MkMetrics {
  mt_total_executions : Z;
  mt_successful_executions : Z;
  mt_failed_executions : Z;
  mt_total_duration_ms : Z;
  mt_avg_duration_ms : f64;
  mt_total_cpu_time_ms : Z;
  mt_total_memory_mb : Z;
  mt_total_disk_read_kb : Z;
  mt_total_disk_write_kb : Z;
  mt_total_network_sent_kb : Z;
  mt_total_network_recv_kb : Z
}.

Definition Metrics_default : Metrics := MkMetrics 0 0 0 0 (S754_zero false) 0 0 0 0 0 0.

Definition record_execution (m : Metrics) (success : bool) (duration_ms : Z) : Metrics :=
  let total := wrap 64 (mt_total_executions m + 1) in
  let total_ms := wrap 64 (mt_total_duration_ms m + duration_ms) in
  MkMetrics total
    (if success then wrap 64 (mt_successful_executions m + 1) else mt_successful_executions m)
    (if success then mt_failed_executions m else wrap 64 (mt_failed_executions m + 1))
    total_ms (f64_div (f64_of_Z total_ms) (f64_of_Z total))
    (mt_total_cpu_time_ms m) (mt_total_memory_mb m) (mt_total_disk_read_kb m)
    (mt_total_disk_write_kb m) (mt_total_network_sent_kb m) (mt_total_network_recv_kb m).

Definition record_resources (m : Metrics) (cpu memory read write sent recv : Z) : Metrics :=
  MkMetrics (mt_total_executions m) (mt_successful_executions m) (mt_failed_executions m)
    (mt_total_duration_ms m) (mt_avg_duration_ms m)
    (wrap 64 (mt_total_cpu_time_ms m + cpu)) (wrap 64 (mt_total_memory_mb m + memory))
    (wrap 64 (mt_total_disk_read_kb m + read)) (wrap 64 (mt_total_disk_write_kb m + write))
    (wrap 64 (mt_total_network_sent_kb m + sent)) (wrap 64 (mt_total_network_recv_kb m + recv)).

Definition Metrics_success_rate (m : Metrics) : f32 :=
  if bool_decide (mt_total_executions m = 0)%Z then f32_zero
  else f32_div (f32_of_Z (mt_successful_executions m)) (f32_of_Z (mt_total_executions m)).

(** *** Status reports: what the system information gives *)

Record sys_reading := MkSysReading {
  sr_cpu_percent : f32;
  sr_total_memory : Z;
  sr_used_memory : Z;
  sr_disk_gb : f64;
  sr_now : timestamp
}.

Definition collect_snapshot (id : NodeId) (r : sys_reading) (current_tasks max_tasks : Z)
    (latency : option Z) : HeartbeatSnapshot :=
  let memory_usage :=
    if SFltb f32_zero (f32_of_Z (sr_total_memory r))
    then f32_div (f32_of_Z (sr_used_memory r)) (f32_of_Z (sr_total_memory r)) else f32_zero in
  MkHeartbeatSnapshot
    (MkNodeStatus id true current_tasks max_tasks (sr_cpu_percent r)
       (sr_used_memory r / (1024 * 1024)) (sr_disk_gb r) latency (sr_now r))
    (MkLoadInfo (f32_div (sr_cpu_percent r) (f32_of_Z 100)) memory_usage current_tasks latency).

Definition get_load_info (id : NodeId) (r : sys_reading) (task_count : Z) (latency : option Z) : LoadInfo :=
  hs_load (collect_snapshot id r task_count task_count latency).

(** ** The watcher *)

Section Watcher.
Context `{FileSystem}.

(** [components().next()] as text. *)
Definition first_component (relative : path) : option string := component_string <$> head relative.

Definition should_skip_watched_path (root : path) (internal_work_dir : string) (p : path) : bool :=
  match path_strip_prefix root p with
  | None => true
  | Some relative =>
      match first_component relative with
      | None => true
      | Some first => bool_decide (first = ".git") || bool_decide (first = internal_work_dir)
      end
  end.

(** What [git add] answers for a path relative to the root. *)
Context (git_add : path → NodeResult unit).

Definition git_add_path (root p : path) : NodeResult unit :=
  match path_strip_prefix root p with
  | None => Err (NExecution "Failed to derive relative path for watched file")
  | Some relative => git_add relative
  end.

(** The paths given to git, in order, and the result. *)
Fixpoint stage_paths (root : path) (internal_work_dir : string) (paths : list path)
    : list path * NodeResult unit :=
  match paths with
  | [] => ([], Ok tt)
  | p :: rest =>
      if should_skip_watched_path root internal_work_dir p || fs_is_dir p
      then stage_paths root internal_work_dir rest
      else
        match git_add_path root p with
        | Err e => ([p], Err e)
        | Ok _ => let '(staged, r) := stage_paths root internal_work_dir rest in (p :: staged, r)
        end
  end.

Definition handle_workspace_event (root : path) (internal_work_dir : string) (auto_git_add is_create : bool)
    (paths : list path) : list path * NodeResult unit :=
  if negb auto_git_add || negb is_create then ([], Ok tt)
  else stage_paths root internal_work_dir paths.
End Watcher.

(** ** The messages of the Hub *)

Section Node.
Context `{JsonValue, GlobMatch, PathTexts, ToLowercase, SendErrorText} {W : Type} `{!Os W, !ExecTexts}.

(** The shared cells of the message handler.  A running task is its identifier:
    the receiver of its cancellation signal is dropped when the handler of the
    assignment returns, and nothing reads it before. *)
Record NodeShared := MkNodeShared {
  nd_permission : PermissionManager;
  nd_stats : ExecutorStats;
  nd_metrics : Metrics;
  nd_running_tasks : gset TaskId;
  nd_os : exec_state (W := W);
  nd_outbound : chan NodeToHub
}.

Definition set_nd_permission (st : NodeShared) p : NodeShared :=
  MkNodeShared p (nd_stats st) (nd_metrics st) (nd_running_tasks st) (nd_os st) (nd_outbound st).
Definition set_nd_metrics (st : NodeShared) m : NodeShared :=
  MkNodeShared (nd_permission st) (nd_stats st) m (nd_running_tasks st) (nd_os st) (nd_outbound st).
Definition set_nd_running (st : NodeShared) r : NodeShared :=
  MkNodeShared (nd_permission st) (nd_stats st) (nd_metrics st) r (nd_os st) (nd_outbound st).
Definition set_nd_outbound (st : NodeShared) o : NodeShared :=
  MkNodeShared (nd_permission st) (nd_stats st) (nd_metrics st) (nd_running_tasks st) (nd_os st) o.
Definition set_nd_execution (st : NodeShared) os stats : NodeShared :=
  MkNodeShared (nd_permission st) stats (nd_metrics st) (nd_running_tasks st) os (nd_outbound st).

(** What handling one message reads from outside. *)
Record node_env := MkNodeEnv {
  nv_clock : clock_reading;
  nv_request_id : string;
  nv_approval_id : string;
  nv_now : timestamp;
  nv_message_id : MessageId;
  nv_exec : exec_env;
  nv_duration_ms : Z
}.

Definition command_result_from_node_error (e : NodeError) (duration_ms : Z) : CommandResult :=
  let execution_error :=
    match e with
    | NPermission m => permission_denied m
    | NTimeout m => timeout_error m
    | NExecution m => execution_failed m
    | NWorkspace m | NConfig m => validation_failed m
    | NConnection m => ExecutionError_new "CONNECTION_FAILED" m SrcExternal
    | NProtocol text => ExecutionError_new "PROTOCOL_ERROR" text SrcInternal
    | NIo text => ExecutionError_new "IO_ERROR" text SrcExecutor
    | NSerialization text => ExecutionError_new "SERIALIZATION_ERROR" text SrcInternal
    | NInternal m => ExecutionError_new "INTERNAL_ERROR" m SrcInternal
    end in
  with_duration (result_failure execution_error) duration_ms.

(** [outbound_tx.send(..).map_err(..)]. *)
Definition send_outbound (st : NodeShared) (what : string) (m : NodeToHub) : NodeShared * outcome unit :=
  if ch_open (nd_outbound st)
  then (set_nd_outbound st (MkChan true (ch_msgs (nd_outbound st) ++ [m])), Done (Ok tt))
  else (st, Done (Err (NConnection ("Failed to send " +:+ what +:+ ": " +:+ send_error_display)))).

Definition execution_metrics (duration_ms : Z) : ExecutionMetrics := MkExecutionMetrics duration_ms 0 0 0 0 0.

(** Metrics, removal from the running tasks, and the result sent to the Hub. *)
Definition report_result (env : node_env) (st : NodeShared) (task_id : TaskId) (result : CommandResult)
    (success : bool) (metrics_ms : Z) (metrics : ExecutionMetrics) : NodeShared * outcome unit :=
  let st1 := set_nd_metrics st (record_execution (nd_metrics st) success metrics_ms) in
  let st2 := set_nd_running st1 (nd_running_tasks st1 ∖ {[task_id]}) in
  send_outbound st2 "task result" (NTaskResult (nv_message_id env) task_id result metrics).

(** The command runs and its result goes to the Hub; a panic unwinds from here. *)
Definition run_task (env : node_env) (ex : CommandExecutor) (st : NodeShared) (task_id : TaskId)
    (command : Command) : NodeShared * outcome unit :=
  match execute_unchecked (nv_exec env) ex command (nd_stats st) (nd_os st) with
  | (os', stats', Panicked) => (set_nd_execution st os' stats', Panicked)
  | (os', stats', OutOfFuel) => (set_nd_execution st os' stats', OutOfFuel)
  | (os', stats', Done execution) =>
      let ms := wrap 64 (nv_duration_ms env) in
      let result := match execution with
                    | Ok r => r
                    | Err e => command_result_from_node_error e ms
                    end in
      report_result env (set_nd_execution st os' stats') task_id result (cr_success result) ms
        (execution_metrics ms)
  end.

Definition handle_assignment (env : node_env) (ex : CommandExecutor) (st : NodeShared) (task_id : TaskId)
    (command : Command) (context : TaskContext) : NodeShared * outcome unit :=
  let st1 := set_nd_running st (nd_running_tasks st ∪ {[task_id]}) in
  match check (H2 := os_view (xw (nd_os st1))) (nd_permission st1) (nv_clock env) (nv_request_id env)
          command context with
  | Allowed => run_task env ex st1 task_id command
  | Denied reason =>
      let ms := wrap 64 (nv_duration_ms env) in
      report_result env st1 task_id (with_duration (result_failure (permission_denied reason)) ms) false ms
        (execution_metrics ms)
  | RequiresApproval _ reason =>
      let '(pm, approval) := create_approval_request (nd_permission st1) (nv_now env) (nv_approval_id env)
                               (task_id_str task_id) command context reason in
      send_outbound (set_nd_permission st1 pm) "approval request"
        (NApprovalRequest (nv_message_id env) (na_id approval) task_id command context
           (na_reason approval) (na_requested_at approval) (na_expires_at approval))
  end.

Definition handle_response (env : node_env) (ex : CommandExecutor) (st : NodeShared) (request_id : string)
    (approved : bool) (responder : string) (reason : option string) : NodeShared * outcome unit :=
  let '(pm, resolution) := handle_approval_response (nd_permission st) (nv_now env) request_id approved
                             responder reason in
  let st1 := set_nd_permission st pm in
  match resolution with
  | Err e => (st1, Done (Err e))
  | Ok (ResApproved request task_id) =>
      run_task env ex (set_nd_running st1 (nd_running_tasks st1 ∪ {[task_id]})) task_id (na_command request)
  | Ok (ResRejected _ task_id) =>
      let result := result_failure (permission_denied (default "Approval rejected" reason)) in
      report_result env st1 task_id result false 0 (execution_metrics 0)
  end.

Definition handle_hub_message (env : node_env) (ex : CommandExecutor) (st : NodeShared) (m : HubToNode)
    : NodeShared * outcome unit :=
  match m with
  | TaskAssignment _ task_id command _ _ context _ _ => handle_assignment env ex st task_id command context
  | TaskCancellation _ task_id _ =>
      (set_nd_running st (nd_running_tasks st ∖ {[task_id]}), Done (Ok tt))
  | PermissionUpdate _ rules =>
      (set_nd_permission st (replace_rules (nd_permission st)
         (convert_protocol_permission_rule (nv_now env) <$> rules)), Done (Ok tt))
  | ApprovalResponse _ request_id approved responder reason _ =>
      handle_response env ex st request_id approved responder reason
  | HeartbeatRequest _ _ | ConfigUpdate _ _ | SkillDeploy _ _ _ _ _ | SkillRemove _ _
  | Disconnect _ _ _ => (st, Done (Ok tt))
  end.

(** The task of [start_message_handler]: one message at a time, errors are only
    logged, a panic ends it; the flag tells whether it is still there. *)
Fixpoint handle_messages (ex : CommandExecutor) (st : NodeShared) (msgs : list (node_env * HubToNode))
    : NodeShared * bool :=
  match msgs with
  | [] => (st, true)
  | (env, m) :: rest =>
      match handle_hub_message env ex st m with
      | (st', Done _) => handle_messages ex st' rest
      | (st', _) => (st', false)
      end
  end.

(** ** The life cycle *)

Record Node := MkNode {
  n_config : NodeConfig;
  n_node_id : NodeId;
  n_workspace : Workspace;
  n_connection : conn;
  n_executor : CommandExecutor;
  n_state : NodeShared;
  n_running : bool;
  n_snapshot : option HeartbeatSnapshot;
  n_status_sent : list NodeStatus;
  n_watching : bool;
  n_has_outbound : bool
}.

(** [Node::new]; [fresh] is the identifier generated when none is configured. *)
Definition Node_new (config : NodeConfig) (fresh : NodeId) (is_git_repo : Workspace → bool) (os : W)
    : NodeResult Node :=
  let? workspace := Workspace_new (H := os_view os) (path_of_string (nc_workspace_path config)) in
  if nc_require_git_repo config && negb (is_git_repo workspace)
  then Err (NConfig ("Workspace must be a git repository when require_git_repo is enabled: "
                     +:+ path_to_string (root workspace)))
  else
    Ok (MkNode config (default fresh (nc_node_id config)) workspace conn_new
          (CommandExecutor_new workspace (nc_internal_work_dir config))
          (MkNodeShared (PermissionManager_new workspace (nc_git_protection_enabled config))
             ExecutorStats_default Metrics_default ∅ (MkExec os []) (MkChan false []))
          false None [] false false).

Definition set_lifecycle (n : Node) (c : conn) (st : NodeShared) (running watching outbound : bool) : Node :=
  MkNode (n_config n) (n_node_id n) (n_workspace n) c (n_executor n) st running (n_snapshot n)
    (n_status_sent n) watching outbound.

(** The default rules, then the configured ones. *)
Definition load_rules (m : PermissionManager) (now : timestamp) (rules : list PermissionRuleConfig)
    : PermissionManager :=
  foldl (λ m r, add_rule m (rule_into_runtime now r)) (load_default_rules m now) rules.

(** [Node::start]; [watch_error] is the failure to create the watcher, if any. *)
Definition Node_start (now : timestamp) (watch_error : option string) (n : Node) : Node * NodeResult unit :=
  if n_running n then (n, Err (NInternal "Node already running"))
  else
    let st := set_nd_permission (n_state n)
                (load_rules (nd_permission (n_state n)) now (nc_permission_rules (n_config n))) in
    match conn_start (n_connection n) with
    | (c, Err e) => (set_lifecycle n c st true (n_watching n) (n_has_outbound n), Err e)
    | (c, Ok _) =>
        match nc_watch_workspace (n_config n), watch_error with
        | true, Some text =>
            (set_lifecycle n (conn_stop c) st false (n_watching n) (n_has_outbound n), Err (NExecution text))
        | watch, _ =>
            (* the sender handed to the handler is that of a new channel *)
            (set_lifecycle n c (set_nd_outbound st (MkChan true [])) true (n_watching n || watch) true, Ok tt)
        end
    end.

Definition Node_stop (n : Node) : Node :=
  if n_running n
  then set_lifecycle n (conn_stop (n_connection n)) (n_state n) false false false
  else n.

(** One tick of the status task. *)
Definition status_tick (r : sys_reading) (n : Node) : Node :=
  if n_running n then
    let snapshot := collect_snapshot (n_node_id n) r (Z.of_nat (size (nd_running_tasks (n_state n))))
                      (nc_max_concurrent_tasks (n_config n)) None in
    MkNode (n_config n) (n_node_id n) (n_workspace n) (n_connection n) (n_executor n) (n_state n) true
      (Some snapshot) (n_status_sent n ++ [hs_status snapshot]) (n_watching n) (n_has_outbound n)
  else n.

(** [report_notification_nowait]; [refused] is the error of [try_send], if any. *)
Definition report_notification_nowait (refused : option string) (mid : MessageId) (event : NotificationEvent)
    (n : Node) : Node * NodeResult unit :=
  if negb (n_running n) then (n, Err (NConnection "Node is not running"))
  else if negb (n_has_outbound n) then (n, Err (NConnection "Outbound channel is not available"))
  else
    match refused with
    | Some text => (n, Err (NConnection ("Failed to send notification event: " +:+ text)))
    | None =>
        let st := n_state n in
        let o := nd_outbound st in
        (set_lifecycle n (n_connection n)
           (set_nd_outbound st (MkChan (ch_open o) (ch_msgs o ++ [NNotificationEvent mid (n_node_id n) event])))
           (n_running n) (n_watching n) (n_has_outbound n), Ok tt)
    end.

Definition pending_approvals_count `{HashOrder} (n : Node) : nat :=
  length (get_pending_approvals (nd_permission (n_state n))).
Definition running_tasks_count (n : Node) : nat := size (nd_running_tasks (n_state n)).
End Node.
