(* ===== verification/NodeProcessFacts.v ===== *)
(** What a node guarantees about the commands of the Hub: nothing runs that was
    not allowed or approved, nothing reaches outside the workspace whatever is
    sent, every assignment is answered, and where cancellation, conditions of
    rules, restarts and panics do not do what their names say. *)
From S2P Require Import Prelude Float32 Json ProtocolTypes ProtocolCommand ProtocolResult.
From S2P Require Import ProtocolMessage Channel Paths Workspace Permission.
From S2P Require Import Executor ExecutorFacts NodeConnection NodeProcess.

Section Facts.
Context `{JsonValue, GlobMatch, PathTexts, ToLowercase, SendErrorText} {W : Type} `{!Os W, !ExecTexts}.
Implicit Types (st : NodeShared (W := W)) (ex : CommandExecutor) (env : node_env).

(** ** Reading off the handlers *)

Lemma send_outbound_os st what m : nd_os (send_outbound st what m).1 = nd_os st.
Proof. unfold send_outbound. by destruct (ch_open (nd_outbound st)). Qed.
Lemma send_outbound_metrics st what m : nd_metrics (send_outbound st what m).1 = nd_metrics st.
Proof. unfold send_outbound. by destruct (ch_open (nd_outbound st)). Qed.

Lemma report_result_os env st id r b ms mt : nd_os (report_result env st id r b ms mt).1 = nd_os st.
Proof. unfold report_result. by rewrite send_outbound_os. Qed.
Lemma report_result_metrics env st id r b ms mt :
  nd_metrics (report_result env st id r b ms mt).1 = record_execution (nd_metrics st) b ms.
Proof. unfold report_result. by rewrite send_outbound_metrics. Qed.

(** The operating system after [run_task] is that after the command. *)
Lemma run_task_os env ex st id command :
  nd_os (run_task env ex st id command).1
  = (execute_unchecked (nv_exec env) ex command (nd_stats st) (nd_os st)).1.1.
Proof.
  unfold run_task. destruct (execute_unchecked _ _ _ _ _) as [[os' stats'] [r| |]]; [|done..].
  by rewrite report_result_os.
Qed.

(** ** Authorisation *)

(** The command a message lets the node run. *)
Definition authorised env st (m : HubToNode) (command : Command) : Prop :=
  match m with
  | TaskAssignment _ _ c _ _ context _ _ =>
      command = c ∧
      check (H2 := os_view (xw (nd_os st))) (nd_permission st) (nv_clock env) (nv_request_id env) c context
      = Allowed
  | ApprovalResponse _ request_id approved _ _ _ =>
      approved = true ∧
      ∃ r, pending_approvals (nd_permission st) !! request_id = Some r ∧
        command = na_command r ∧ (nv_now env ≤ na_expires_at r)%Z
  | _ => False
  end.

Lemma handle_response_inv (pm : PermissionManager) now id approved responder reason pm' res :
  handle_approval_response pm now id approved responder reason = (pm', Ok res) →
  ∃ r, pending_approvals pm !! id = Some r ∧ (now ≤ na_expires_at r)%Z ∧
    match res with
    | ResApproved q t => approved = true ∧ na_command q = na_command r ∧ t = MkTaskId (na_task_id r)
    | ResRejected q t => approved = false ∧ t = MkTaskId (na_task_id r)
    end.
Proof.
  unfold handle_approval_response. destruct (pending_approvals pm !! id) as [r|]; [|done].
  case_bool_decide; [done|]. intros [= _ <-]. exists r. split_and!; [done|lia|]. by destruct approved.
Qed.

(** C5. Nothing runs without permission: when handling a message changes the
    operating system, the message is an assignment whose command the permission
    check allows, or the approval, in time, of a request that is pending; and the
    change is that of running exactly that command. *)
Theorem node_runs_only_authorised env ex st m :
  nd_os (handle_hub_message env ex st m).1 ≠ nd_os st →
  ∃ command, authorised env st m command ∧
    nd_os (handle_hub_message env ex st m).1
    = (execute_unchecked (nv_exec env) ex command (nd_stats st) (nd_os st)).1.1.
Proof.
  destruct m as [mid id command p d context rc mr|? ? ?|? ?|? ?|? ?|? ? ? ? ?|? ?
                |mid rid approved responder reason ts|? ? ?]; simpl; try done.
  - unfold handle_assignment. simpl. destruct (check _ _ _ _ _) as [|reason|rid reason] eqn:Ec.
    + intros _. exists command. split; [done|]. by rewrite run_task_os.
    + by rewrite report_result_os.
    + by rewrite send_outbound_os.
  - unfold handle_response.
    destruct (handle_approval_response _ _ _ _ _ _) as [pm [res|e]] eqn:Er; [|done].
    apply handle_response_inv in Er as (r & Hr & Hexp & Hres). destruct res as [q t|q t].
    + destruct Hres as (-> & Hq & ->). intros _. exists (na_command r). split; [eauto|].
      rewrite run_task_os, Hq. done.
    + by rewrite report_result_os.
Qed.

(** ** Confinement, over any conversation *)

Lemma execute_unchecked_justified (xenv : exec_env) ex c stats s :
  one_component (xe_uuid xenv) → justified ex (xlog s) →
  justified ex (xlog (execute_unchecked (W := W) xenv ex c stats s).1.1).
Proof.
  intros Hu Hj. destruct (safe_execute_inner (xe_fuel xenv) ex (xe_uuid xenv) [] c Hu s Hj) as (Hj' & _); [done|].
  unfold execute_unchecked. by destruct (execute_inner _ _ _ _ s) as [s' [r| |]].
Qed.

Lemma handle_hub_message_justified env ex st m :
  one_component (xe_uuid (nv_exec env)) → justified ex (xlog (nd_os st)) →
  justified ex (xlog (nd_os (handle_hub_message env ex st m).1)).
Proof.
  intros Hu Hj.
  assert (∀ (st' : NodeShared) id c, nd_os st' = nd_os st →
    justified ex (xlog (nd_os (run_task env ex st' id c).1))) as Hrun.
  { intros st' id c E. rewrite run_task_os. apply execute_unchecked_justified; [done|by rewrite E]. }
  destruct m; simpl; try done.
  - unfold handle_assignment. simpl. destruct (check _ _ _ _ _); [by apply Hrun| |].
    + by rewrite report_result_os.
    + by rewrite send_outbound_os.
  - unfold handle_response. destruct (handle_approval_response _ _ _ _ _ _) as [pm [[|]|]]; [by apply Hrun| |done].
    by rewrite report_result_os.
Qed.

(** C4. A node stays in its workspace, whatever the Hub says: over any sequence of
    messages, assignments, rule updates and approvals included, every path a system
    call touches was resolved during the conversation to a place inside the root of
    the workspace that the patterns allow, and that may be written when the call
    writes.  Two kinds of paths are not resolved themselves: the directory above a
    path that was granted for writing, which is created if it is missing, and the
    code file put right inside the internal directory, which was granted for writing.
    A process counts by the directory it starts in, and a link to something that is
    not there as the file it stands for (see [dangling_link_escapes]). *)
Theorem node_confined ex st msgs :
  Forall (λ em, one_component (xe_uuid (nv_exec em.1))) msgs → xlog (nd_os st) = [] →
  justified ex (xlog (nd_os (handle_messages ex st msgs).1)).
Proof.
  intros Hu Hempty.
  assert (justified ex (xlog (nd_os st))) as Hj by (rewrite Hempty; by intros [|] ????).
  clear Hempty. revert st Hj. induction Hu as [|[env m] msgs Hm _ IH]; intros st Hj; simpl; [done|].
  pose proof (handle_hub_message_justified env ex st m Hm Hj) as Hj'.
  destruct (handle_hub_message env ex st m) as [st' [r| |]]; simpl in *; auto.
Qed.

(** ** Answers *)

(** What the node answers to an assignment. *)
Definition answers_task (task : TaskId) (m : NodeToHub) : bool :=
  match m with
  | NTaskResult _ t _ _ => bool_decide (t = task)
  | NApprovalRequest _ _ t _ _ _ _ _ => bool_decide (t = task)
  | _ => false
  end.

Definition answered st st' (task : TaskId) : Prop :=
  ∃ m, ch_msgs (nd_outbound st') = ch_msgs (nd_outbound st) ++ [m] ∧ answers_task task m = true.

Lemma send_outbound_open st what m :
  ch_open (nd_outbound st) = true →
  send_outbound st what m = (set_nd_outbound st (MkChan true (ch_msgs (nd_outbound st) ++ [m])), Done (Ok tt)).
Proof. unfold send_outbound. by intros ->. Qed.

Lemma report_result_open env st id r b ms mt :
  ch_open (nd_outbound st) = true →
  (report_result env st id r b ms mt).2 = Done (Ok tt) ∧
  ch_msgs (nd_outbound (report_result env st id r b ms mt).1)
  = ch_msgs (nd_outbound st) ++ [NTaskResult (nv_message_id env) id r mt] ∧
  nd_running_tasks (report_result env st id r b ms mt).1 = nd_running_tasks st ∖ {[id]}.
Proof. intros Ho. unfold report_result. by rewrite send_outbound_open. Qed.

(** C16. Every assignment is answered once: while the channel to the Hub is open and
    the file system is of bounded depth, handling an assignment sends exactly one
    message, the result of the task or the request to approve it, and in the first
    case the task is no longer running; the only exception is the panic of an
    output that cannot be cut, which sends nothing. *)
Theorem assignment_answered depth `{!BoundedPaths (W := W) depth} env ex st mid id command p d context rc mr :
  depth < xe_fuel (nv_exec env) → ch_open (nd_outbound st) = true →
  let r := handle_hub_message env ex st (TaskAssignment mid id command p d context rc mr) in
  (r.2 = Done (Ok tt) ∧ answered st r.1 id ∧
   (id ∈ nd_running_tasks r.1 →
      ∃ reason rid, check (H2 := os_view (xw (nd_os st))) (nd_permission st) (nv_clock env)
        (nv_request_id env) command context = RequiresApproval rid reason)) ∨
  (r.2 = Panicked ∧ ch_msgs (nd_outbound r.1) = ch_msgs (nd_outbound st) ∧ cut_failed ex (nd_os r.1)).
Proof.
  intros Hf Ho. simpl. unfold handle_assignment. simpl.
  destruct (check _ _ _ _ _) as [|reason|rid reason] eqn:Ec.
  - unfold run_task. simpl.
    destruct (execution_answers depth (nv_exec env) ex command (nd_stats st) (nd_os st) Hf)
      as [(os' & stats' & r & ->)|(os' & -> & Hcut)]; [left|by right].
    edestruct report_result_open as (-> & Hm & Hr); [|split_and!; [done| |]].
    + done.
    + eexists. rewrite Hm. split; [done|]. simpl. by rewrite bool_decide_true.
    + rewrite Hr. set_solver.
  - left. edestruct report_result_open as (-> & Hm & Hr); [|split_and!; [done| |]].
    + done.
    + eexists. rewrite Hm. split; [done|]. simpl. by rewrite bool_decide_true.
    + rewrite Hr. set_solver.
  - left. unfold create_approval_request. rewrite send_outbound_open by done.
    split_and!; [done| |eauto]. eexists. split; [done|]. simpl. by rewrite bool_decide_true.
Qed.
End Facts.

(** ** Cancellation, expiry, rules *)

Section Behaviours.
Context `{JsonValue, GlobMatch, PathTexts, ToLowercase, SendErrorText} {W : Type} `{!Os W, !ExecTexts}.
Implicit Types (st : NodeShared (W := W)) (ex : CommandExecutor) (env : node_env).

(** Only the running tasks of a state are changed. *)
Lemma run_task_running env ex st id c r :
  run_task env ex (set_nd_running st (r ∪ {[id]})) id c
  = run_task env ex (set_nd_running st ((r ∖ {[id]}) ∪ {[id]})) id c.
Proof. by rewrite difference_union_L. Qed.

(** A cancelled task still runs when it is approved: for a task that waits for
    an approval, the message that cancels it changes nothing about what the
    approval does, which starts the command and sends its result exactly as if the
    task had never been cancelled. *)
Theorem cancellation_spares_approvals env1 env2 ex st mid1 mid2 reason rid responder note ts r :
  pending_approvals (nd_permission st) !! rid = Some r → (nv_now env2 ≤ na_expires_at r)%Z →
  let cancelled := (handle_hub_message env1 ex st (TaskCancellation mid1 (MkTaskId (na_task_id r)) reason)).1 in
  handle_hub_message env2 ex cancelled (ApprovalResponse mid2 rid true responder note ts)
  = handle_hub_message env2 ex st (ApprovalResponse mid2 rid true responder note ts) ∧
  nd_os (handle_hub_message env2 ex cancelled (ApprovalResponse mid2 rid true responder note ts)).1
  = (execute_unchecked (nv_exec env2) ex (na_command r) (nd_stats st) (nd_os st)).1.1.
Proof.
  intros Hr Hexp. simpl. unfold handle_response. simpl. unfold handle_approval_response. rewrite Hr.
  rewrite bool_decide_false by lia. simpl. split; [|by rewrite run_task_os].
  set (pm := set_pending_approvals _ _).
  change (set_nd_running (set_nd_permission ?s pm) ?x) with (set_nd_running (set_nd_permission st pm) x).
  symmetry. apply (run_task_running env2 ex (set_nd_permission st pm)).
Qed.

(** The conditions of a rule do not reach the node: updates that differ only in
    the conditions of their rules leave the same state, so that a rule for some
    users, hours or addresses applies to all of them. *)
Definition drop_conditions (r : WirePermissionRule) : WirePermissionRule :=
  MkWirePermissionRule (wr_id r) (wr_name r) (wr_resource r) (wr_actions r) [] (wr_require_approval r) (wr_enabled r).

Theorem update_ignores_conditions env ex st mid rules :
  handle_hub_message env ex st (PermissionUpdate mid rules)
  = handle_hub_message env ex st (PermissionUpdate mid (drop_conditions <$> rules)).
Proof. simpl. by rewrite <-list_fmap_compose. Qed.

(** What an update installs: every rule of the Hub, unconditional, at priority
    0, in the order given. *)
Theorem update_installs env ex st mid rules :
  let st' := (handle_hub_message env ex st (PermissionUpdate mid rules)).1 in
  pm_rules (nd_permission st') = (convert_protocol_permission_rule (nv_now env) <$> rules) ∧
  Forall (λ r, pr_conditions r = [] ∧ pr_priority r = 0%Z) (pm_rules (nd_permission st')) ∧
  pending_approvals (nd_permission st') = pending_approvals (nd_permission st).
Proof.
  simpl. set (l := convert_protocol_permission_rule _ <$> rules).
  assert (Forall (λ r, pr_conditions r = [] ∧ pr_priority r = 0%Z) l) as Hl.
  { apply Forall_fmap, Forall_forall. intros r _. done. }
  assert (sort_by priority_leb l = l) as Hs.
  { clear -Hl. induction Hl as [|x l [_ Hx] Hl IH]; [done|]. change (sort_by priority_leb (x :: l))
      with (insert_by priority_leb x (sort_by priority_leb l)). rewrite IH.
    destruct Hl as [|y l [_ Hy] Hl]; [done|]. simpl. unfold priority_leb. rewrite Hx, Hy.
    by rewrite bool_decide_true. }
  by rewrite Hs.
Qed.

(** ** An approval that comes too late *)

(** A late approval strands its task: the response is an error, no message is
    sent, the request is forgotten so that every further response to it is an
    error too, and the task stays among the running ones. *)
Theorem late_approval_strands_task env ex st mid rid approved responder note ts r :
  pending_approvals (nd_permission st) !! rid = Some r → (na_expires_at r < nv_now env)%Z →
  let st' := (handle_hub_message env ex st (ApprovalResponse mid rid approved responder note ts)).1 in
  (handle_hub_message env ex st (ApprovalResponse mid rid approved responder note ts)).2
  = Done (Err (NPermission "Approval request expired")) ∧
  nd_running_tasks st' = nd_running_tasks st ∧ nd_outbound st' = nd_outbound st ∧
  pending_approvals (nd_permission st') = delete rid (pending_approvals (nd_permission st)).
Proof.
  intros Hr Hexp. simpl. unfold handle_response, handle_approval_response. rewrite Hr.
  by rewrite bool_decide_true.
Qed.

(** ** Metrics *)

Definition metrics_consistent (m : Metrics) : Prop :=
  wrap 64 (mt_total_executions m) = wrap 64 (mt_successful_executions m + mt_failed_executions m).

Lemma record_execution_consistent m b ms :
  metrics_consistent m → metrics_consistent (record_execution m b ms).
Proof.
  unfold metrics_consistent, record_execution, wrap. simpl. intros Hm.
  destruct b; rewrite Zmod_mod, <-Zplus_mod_idemp_l, Hm, Zplus_mod_idemp_l.
  - rewrite Zplus_mod_idemp_l. f_equal. lia.
  - rewrite Zplus_mod_idemp_r. f_equal. lia.
Qed.

Lemma run_task_metrics env ex st id c :
  metrics_consistent (nd_metrics st) → metrics_consistent (nd_metrics (run_task env ex st id c).1).
Proof.
  intros Hm. unfold run_task. destruct (execute_unchecked _ _ _ _ _) as [[os' stats'] [r| |]]; [|done..].
  rewrite report_result_metrics. by apply record_execution_consistent.
Qed.

(** Every result is counted once as a success or a failure. *)
Theorem node_metrics_consistent ex st msgs :
  metrics_consistent (nd_metrics st) → metrics_consistent (nd_metrics (handle_messages ex st msgs).1).
Proof.
  revert st. induction msgs as [|[env m] msgs IH]; intros st Hm; [done|]. cbn [handle_messages].
  assert (metrics_consistent (nd_metrics (handle_hub_message env ex st m).1)) as Hm'.
  { destruct m; simpl; try done.
    - unfold handle_assignment. simpl. destruct (check _ _ _ _ _); [by apply run_task_metrics| |].
      + rewrite report_result_metrics. by apply record_execution_consistent.
      + by rewrite send_outbound_metrics.
    - unfold handle_response. destruct (handle_approval_response _ _ _ _ _ _) as [pm [[|]|]]; [| |done].
      + by apply run_task_metrics.
      + rewrite report_result_metrics. by apply record_execution_consistent. }
  destruct (handle_hub_message env ex st m) as [st' [r| |]]; simpl in *; auto.
Qed.

(** ** A panic ends the handler *)

(** Once a command panics the node answers nothing any more: the messages after
    it are never handled, whatever they are. *)
Theorem panic_silences_node env ex st m rest :
  (handle_hub_message env ex st m).2 = Panicked →
  handle_messages ex st ((env, m) :: rest) = ((handle_hub_message env ex st m).1, false).
Proof. intros Hp. cbn [handle_messages]. destruct (handle_hub_message env ex st m) as [st' o]. by simpl in Hp; subst o. Qed.

(** ** Restarting *)

Lemma add_rule_length m r : length (pm_rules (add_rule m r)) = S (length (pm_rules m)).
Proof. unfold add_rule. simpl. rewrite sort_by_length, length_app. simpl. lia. Qed.

Lemma load_rules_length m now rules :
  length (pm_rules (load_rules m now rules)) = length (pm_rules m) + 4 + length rules.
Proof.
  unfold load_rules.
  assert (length (pm_rules (load_default_rules m now)) = length (pm_rules m) + 4) as E.
  { unfold load_default_rules. rewrite !add_rule_length. lia. }
  rewrite <-E. generalize (load_default_rules m now). clear E.
  induction rules as [|r rules IH]; intros m'; simpl; [lia|]. rewrite IH, add_rule_length. lia.
Qed.

(** A successful start adds the four default rules and the configured ones to
    those already there. *)
Lemma Node_start_rules now w n n' :
  Node_start (W := W) now w n = (n', Ok tt) →
  length (pm_rules (nd_permission (n_state n')))
  = length (pm_rules (nd_permission (n_state n))) + 4 + length (nc_permission_rules (n_config n)) ∧
  n_config n' = n_config n ∧ n_running n' = true.
Proof.
  unfold Node_start. destruct (n_running n); [done|].
  destruct (conn_start (n_connection n)) as [c [[]|e]]; [|done].
  destruct (nc_watch_workspace (n_config n)); [destruct w; [done|]|]; intros [= <-];
    (split_and!; [apply load_rules_length|done|done]).
Qed.

(** Stopping and starting again doubles the rules: nothing removes them, so the
    rules, the default and the configured ones, are there once per start. *)
Theorem restart_duplicates_rules now1 now2 w1 w2 n n1 n2 :
  Node_start (W := W) now1 w1 n = (n1, Ok tt) → Node_start now2 w2 (Node_stop n1) = (n2, Ok tt) →
  length (pm_rules (nd_permission (n_state n2)))
  = length (pm_rules (nd_permission (n_state n))) + 2 * (4 + length (nc_permission_rules (n_config n))).
Proof.
  intros H1' H2'. apply Node_start_rules in H1' as (Hl1 & Hc1 & Hr1). apply Node_start_rules in H2' as (Hl2 & _ & _).
  rewrite Hl2. unfold Node_stop. rewrite Hr1. simpl. rewrite Hl1, Hc1. lia.
Qed.
End Behaviours.

(** ** The watcher *)

Section Watching.
Context `{FileSystem}.

(** A new file of the node's own is never staged: what is given to git lies below
    the root, is not a directory, and its first component is neither [.git] nor
    the internal directory; with automatic staging off, or for another kind of
    event, nothing is. *)
Theorem staged_files_are_the_users git_add root internal auto create paths :
  Forall (λ p, ∃ c rest, p = root ++ c :: rest ∧ fs_is_dir p = false ∧ component_string c ≠ ".git" ∧
      component_string c ≠ internal)
    (handle_workspace_event git_add root internal auto create paths).1 ∧
  ((handle_workspace_event git_add root internal auto create paths).1 ≠ [] → auto = true ∧ create = true).
Proof.
  unfold handle_workspace_event. destruct auto, create; simpl; try by split.
  split; [|done]. induction paths as [|p paths IH]; simpl; [done|].
  destruct (should_skip_watched_path root internal p || fs_is_dir p) eqn:Es; [done|].
  apply orb_false_iff in Es as [Es Ed].
  assert (∃ c rest, p = root ++ c :: rest ∧ fs_is_dir p = false ∧ component_string c ≠ ".git" ∧
      component_string c ≠ internal) as Hp.
  { unfold should_skip_watched_path in Es. destruct (path_strip_prefix root p) as [rel|] eqn:E; [|done].
    apply path_strip_prefix_Some in E as ->. destruct rel as [|c rest]; [done|]. simpl in Es.
    apply orb_false_iff in Es as [?%bool_decide_eq_false ?%bool_decide_eq_false]. eauto 10. }
  destruct (git_add_path git_add root p); [|by apply Forall_singleton].
  destruct (stage_paths git_add root internal paths). by constructor.
Qed.
End Watching.

(** ** A concrete node: its workspace is [/ws] of [flat_fs], every system call
    has the answer of [demo_answer], and shell commands need an approval. *)

#[local] Existing Instance exec_json.
#[local] Existing Instance exec_lower.
#[local] Existing Instance exec_glob.
#[local] Existing Instance exec_paths.
#[local] Existing Instance exec_texts.
#[local] Existing Instance demo_os.
#[local] Existing Instance demo_bounded.
#[local] Instance node_send_error : SendErrorText := "channel closed".

Definition shell_rule : PermissionRuleConfig :=
  MkPermissionRuleConfig "shell" "shell" None (RcCommandType ["shell"]) [Execute] true 10 true.

Definition demo_node_state : NodeShared (W := unit) :=
  MkNodeShared (load_rules (PermissionManager_new demo_workspace true) 0 [shell_rule])
    ExecutorStats_default Metrics_default ∅ (MkExec () []) (MkChan true []).

Definition demo_node_env (now : timestamp) : node_env :=
  MkNodeEnv (MkClock now "12:00" 3) "check-1" "approval-1" now (MkMessageId "m") demo_exec_env 7.

Definition demo_node_context : TaskContext := TaskContext_new (MkUserId "u") (MkSessionId "s") "cli" 0.
Definition assign (id : string) (c : Command) : HubToNode :=
  TaskAssignment (MkMessageId "a") (MkTaskId id) c Normal None demo_node_context 0 3.
Definition approve_it : HubToNode := ApprovalResponse (MkMessageId "b") "approval-1" true "admin" None 0.

(** The node after the assignment of a shell command: it waits for an approval. *)
Definition waiting_node : NodeShared (W := unit) :=
  (handle_hub_message (demo_node_env 0) (demo_executor 100) demo_node_state (assign "t1" demo_echo)).1.

Lemma waiting_request :
  ∃ r, pending_approvals (nd_permission waiting_node) !! "approval-1" = Some r ∧
    na_task_id r = "t1" ∧ na_command r = demo_echo ∧ na_expires_at r = seconds 300.
Proof. eexists. split; [apply lookup_insert_eq|]. done. Qed.

Lemma node_runs_only_authorised_witness :
  ∃ command, authorised (demo_node_env 0) demo_node_state (assign "t2" demo_python) command ∧
    nd_os (handle_hub_message (demo_node_env 0) (demo_executor 100) demo_node_state (assign "t2" demo_python)).1
    = (execute_unchecked demo_exec_env (demo_executor 100) command ExecutorStats_default (MkExec () [])).1.1.
Proof.
  apply (node_runs_only_authorised (demo_node_env 0) (demo_executor 100) demo_node_state (assign "t2" demo_python)).
  intros E. apply (f_equal (λ s, length (xlog s))) in E. vm_compute in E. discriminate.
Defined.

Lemma node_confined_witness :
  length (xlog (nd_os (handle_messages (demo_executor 100) demo_node_state
     [(demo_node_env 0, assign "t1" demo_echo); (demo_node_env 1, approve_it);
      (demo_node_env 2, assign "t2" demo_python)]).1)) = 5 ∧
  justified (demo_executor 100) (xlog (nd_os (handle_messages (demo_executor 100) demo_node_state
     [(demo_node_env 0, assign "t1" demo_echo); (demo_node_env 1, approve_it);
      (demo_node_env 2, assign "t2" demo_python)]).1)).
Proof.
  split; [vm_compute; reflexivity|]. apply node_confined; [|reflexivity].
  repeat apply Forall_cons_2; [..|done]; vm_compute; reflexivity.
Defined.

Lemma assignment_answered_witness :
  let r := handle_hub_message (demo_node_env 0) (demo_executor 100) demo_node_state (assign "t2" demo_python) in
  (r.2 = Done (Ok tt) ∧ answered demo_node_state r.1 (MkTaskId "t2")) ∨ r.2 = Panicked.
Proof.
  destruct (assignment_answered 4 (demo_node_env 0) (demo_executor 100) demo_node_state (MkMessageId "a")
    (MkTaskId "t2") demo_python Normal None demo_node_context 0 3 ltac:(simpl; lia) eq_refl)
    as [(Hr & Ha & _)|(Hr & _)]; [left|right]; [split; [exact Hr|exact Ha]|exact Hr].
Defined.

Lemma cancellation_spares_approvals_witness :
  let cancelled := (handle_hub_message (demo_node_env 1) (demo_executor 100) waiting_node
    (TaskCancellation (MkMessageId "c") (MkTaskId "t1") "no longer needed")).1 in
  nd_running_tasks cancelled = ∅ ∧
  handle_hub_message (demo_node_env 2) (demo_executor 100) cancelled approve_it
  = handle_hub_message (demo_node_env 2) (demo_executor 100) waiting_node approve_it.
Proof.
  destruct waiting_request as (r & Hr & Ht & _ & He).
  split; [apply (bool_decide_eq_true_1 _); vm_compute; reflexivity|].
  rewrite <-Ht.
  destruct (cancellation_spares_approvals (demo_node_env 1) (demo_node_env 2) (demo_executor 100) waiting_node
    (MkMessageId "c") (MkMessageId "b") "no longer needed" "approval-1" "admin" None 0 r Hr
    ltac:(rewrite He; vm_compute; discriminate)) as [E _].
  exact E.
Defined.

Lemma late_approval_strands_task_witness :
  let st' := (handle_hub_message (demo_node_env (seconds 301)) (demo_executor 100) waiting_node approve_it).1 in
  nd_running_tasks st' = nd_running_tasks waiting_node ∧ nd_outbound st' = nd_outbound waiting_node.
Proof.
  destruct waiting_request as (r & Hr & _ & _ & He).
  destruct (late_approval_strands_task (demo_node_env (seconds 301)) (demo_executor 100) waiting_node
    (MkMessageId "b") "approval-1" true "admin" None 0 r Hr ltac:(rewrite He; vm_compute; reflexivity))
    as (_ & Hr1 & Hr2 & _).
  split; [exact Hr1|exact Hr2].
Defined.

Lemma node_metrics_consistent_witness :
  metrics_consistent (nd_metrics (handle_messages (demo_executor 100) demo_node_state
     [(demo_node_env 0, assign "t2" demo_python)]).1).
Proof. apply node_metrics_consistent. reflexivity. Defined.

(** A limit of four bytes: the approval of the shell command panics the node. *)
Lemma panic_silences_node_witness :
  handle_messages (demo_executor 4) waiting_node
    [(demo_node_env 1, approve_it); (demo_node_env 2, assign "t2" demo_python)]
  = ((handle_hub_message (demo_node_env 1) (demo_executor 4) waiting_node approve_it).1, false).
Proof. apply panic_silences_node. vm_compute. reflexivity. Defined.

Definition demo_node : Node (W := unit) :=
  MkNode NodeConfig_default (MkNodeId "n1") demo_workspace conn_new (demo_executor 100) demo_node_state
    false None [] false false.

Lemma restart_duplicates_rules_witness :
  length (pm_rules (nd_permission (n_state
    (Node_start 2 None (Node_stop (Node_start 1 None demo_node).1)).1))) = 5 + 2 * 4.
Proof.
  apply (restart_duplicates_rules 1 2 None None demo_node (Node_start 1 None demo_node).1); reflexivity.
Defined.
