(* ===== verification/NodeHub.v ===== *)
(** A node and the Hub together: what the messages a node sends for a task do to
    the Hub's record of that task. *)
From S2P Require Import Prelude Float32 Json ProtocolTypes ProtocolCommand ProtocolResult.
From S2P Require Import ProtocolMessage Channel Paths Workspace NodeManager TaskScheduler SchedulerFacts.
From S2P Require Import SchedulerTheorems SessionRuntime Approval Notifications Permission Hub.
From S2P Require Import Executor ExecutorFacts NodeConnection NodeProcess NodeProcessFacts.

Section Together.
Context `{JsonValue, GlobMatch, PathTexts, ToLowercase, SendErrorText} {W : Type} `{!Os W, !ExecTexts}.
Context `{HashOrder, !WireJson, ChannelTypeText}.
Implicit Types (st : NodeShared (W := W)) (ex : CommandExecutor) (env : node_env) (h : Hub).

(** The messages a node sent between two of its states, routed by the Hub. *)
Definition sent_between st st' : list NodeToHub :=
  drop (length (ch_msgs (nd_outbound st))) (ch_msgs (nd_outbound st')).

Definition deliver (henv : hub_env) (nid : NodeId) (h : Hub) (msgs : list NodeToHub) : Hub :=
  foldl (λ h m, (route_node_message henv h nid m).1) h msgs.

Lemma sent_between_one st st' m :
  ch_msgs (nd_outbound st') = ch_msgs (nd_outbound st) ++ [m] → sent_between st st' = [m].
Proof. unfold sent_between. intros ->. by rewrite drop_app_length. Qed.

(** The Hub's record of a task after its result. *)
Definition settled (henv : hub_env) (h h' : Hub) (id : TaskId) (r : RunningTask) (result : CommandResult) : Prop :=
  running_tasks (task_scheduler h') = delete id (running_tasks (task_scheduler h)) ∧
  pending_tasks (task_scheduler h') = pending_tasks (task_scheduler h) ∧
  recorded (task_scheduler h) (task_scheduler h')
    (MkCompletedTask id (rt_command r) (rt_context r) (rt_priority r) (rt_node_id r) (rt_started_at r)
       (he_now henv) (if cr_success result then StatusCompleted else StatusFailed) result).

Lemma result_settles henv h nid mid id r result mt :
  running_tasks (task_scheduler h) !! id = Some r →
  settled henv h (deliver henv nid h [NTaskResult mid id result mt]) id r result.
Proof.
  intros Hr. unfold deliver, settled. simpl. unfold complete_task. rewrite Hr.
  by destruct (finish_fields (TaskScheduler.set_running (task_scheduler h) (delete id (running_tasks (task_scheduler h))))
    (completed_of_running id r (he_now henv) (terminal_status_from_result result) result)
    (MkTaskResult id nid result)) as (? & ? & ? & ?).
Qed.

Lemma approval_request_keeps_tasks henv h nid mid rid id command context reason ts exp :
  task_scheduler (deliver henv nid h [NApprovalRequest mid rid id command context reason ts exp]) = task_scheduler h.
Proof.
  unfold deliver. simpl. unfold handle_approval_request. destruct (security h) as [a|]; [|done].
  destruct (check_idempotency _ a rid) as [a1 [|]]; simpl; [done|]. unfold record_approval.
  by destruct (request_approval _ _ _ _ _ _ _) as [a2 approval_id].
Qed.

(** The result a node reports for a command that ran. *)
Definition reported env ex st command (result : CommandResult) : Prop :=
  ∃ os' stats' execution,
    execute_unchecked (nv_exec env) ex command (nd_stats st) (nd_os st) = (os', stats', Done execution) ∧
    result = match execution with
             | Ok r => r
             | Err e => command_result_from_node_error e (wrap 64 (nv_duration_ms env))
             end.

(** The message of the report in the goal, as [Hm]. *)
Ltac read_report Ho :=
  match goal with |- context [report_result ?e ?s ?i ?r ?b ?m ?x] =>
    destruct (report_result_open e s i r b m x Ho) as (_ & Hm & _) end.

Lemma run_task_sent env ex st id command :
  ch_open (nd_outbound st) = true → (run_task env ex st id command).2 = Done (Ok tt) →
  ∃ result mt, reported env ex st command result ∧
    ch_msgs (nd_outbound (run_task env ex st id command).1)
    = ch_msgs (nd_outbound st) ++ [NTaskResult (nv_message_id env) id result mt].
Proof.
  intros Ho. unfold run_task. destruct (execute_unchecked _ _ _ _ _) as [[os' stats'] [execution| |]] eqn:E; [|done..].
  intros _. read_report Ho. rewrite Hm. simpl.
  eexists _, _. split; [|done]. by exists os', stats', execution.
Qed.

(** C6. A task from assignment to record: for a task the Hub has running, when the
    node has handled its assignment and the Hub the messages the node sent, either
    the command was allowed, and the Hub has the task finished, completed or failed
    as the executor reported; or it was denied, and the task failed with the reason;
    or it needs an approval, and the Hub still has it running. *)
Theorem assignment_reaches_record env ex st henv h nid id command p d context rc mr mid r :
  running_tasks (task_scheduler h) !! id = Some r → ch_open (nd_outbound st) = true →
  let handled := handle_hub_message env ex st (TaskAssignment mid id command p d context rc mr) in
  handled.2 = Done (Ok tt) →
  let h' := deliver henv nid h (sent_between st handled.1) in
  match check (H2 := os_view (xw (nd_os st))) (nd_permission st) (nv_clock env) (nv_request_id env) command context with
  | Allowed => ∃ result, reported env ex st command result ∧ settled henv h h' id r result
  | Denied reason => settled henv h h' id r
      (with_duration (result_failure (permission_denied reason)) (wrap 64 (nv_duration_ms env)))
  | RequiresApproval _ _ => task_scheduler h' = task_scheduler h
  end.
Proof.
  intros Hr Ho. simpl. unfold handle_assignment. simpl. destruct (check _ _ _ _ _) as [|reason|rid reason].
  - intros Hd. apply run_task_sent in Hd as (result & mt & Hrep & Hm); [|done].
    exists result. split; [exact Hrep|]. rewrite (sent_between_one st _ _ Hm). by apply result_settles.
  - intros _. read_report Ho. rewrite (sent_between_one st _ _ Hm).
    by apply result_settles.
  - unfold create_approval_request. rewrite send_outbound_open by done. intros _.
    erewrite (sent_between_one st); [|done]. apply approval_request_keeps_tasks.
Qed.

(** And when the approval comes in time, the task is finished as reported; when
    it is refused, as failed. *)
Theorem approval_reaches_record env ex st henv h nid mid rid approved responder note ts q r :
  pending_approvals (nd_permission st) !! rid = Some q → (nv_now env ≤ na_expires_at q)%Z →
  running_tasks (task_scheduler h) !! MkTaskId (na_task_id q) = Some r → ch_open (nd_outbound st) = true →
  let handled := handle_hub_message env ex st (ApprovalResponse mid rid approved responder note ts) in
  handled.2 = Done (Ok tt) →
  let h' := deliver henv nid h (sent_between st handled.1) in
  ∃ result, settled henv h h' (MkTaskId (na_task_id q)) r result ∧
    (if approved then reported env ex st (na_command q) result else cr_success result = false).
Proof.
  intros Hq Hexp Hr Ho. simpl. unfold handle_response, handle_approval_response. rewrite Hq.
  rewrite bool_decide_false by lia. destruct approved; simpl.
  - intros Hd. apply run_task_sent in Hd as (result & mt & Hrep & Hm); [|done].
    exists result. split; [|exact Hrep]. rewrite (sent_between_one st _ _ Hm). by apply result_settles.
  - intros _. read_report Ho. rewrite (sent_between_one st _ _ Hm).
    eexists. split; [by apply result_settles|done].
Qed.
End Together.

(** ** A concrete Hub and node *)

#[local] Existing Instance exec_json.
#[local] Existing Instance exec_lower.
#[local] Existing Instance exec_glob.
#[local] Existing Instance exec_paths.
#[local] Existing Instance exec_texts.
#[local] Existing Instance demo_os.
#[local] Existing Instance node_send_error.
#[local] Existing Instance canonical_order.
#[local] Instance hub_wire : WireJson :=
  {| command_json := λ c, GenLeaf (CommandType_debug (command_type c));
     context_json := λ c, GenLeaf (tc_channel c); time_json := λ t, GenLeaf (display_u t) |}.
#[local] Instance hub_channels : ChannelTypeText := λ _, "DingTalk".

Definition hub_env_at (now : Z) : hub_env :=
  MkHubEnv now now "uuid" (λ _, MkCallEnv (λ _, now) (λ _, MkMessageId "m")).
Definition hub_task (c : Command) (id : string) : RunningTask :=
  MkRunningTask (MkTaskId id) c demo_node_context Normal (MkNodeId "n1") 0 (seconds 60) 0.
(** A Hub with one task running on the node ["n1"]. *)
Definition hub_running (c : Command) (id : string) : Hub :=
  let h := Hub_new_with_components HubConfig_default 0 (Some (MkOperationApprover ApprovalManager_new ∅)) ∅
             (NotificationBindingManager_new []) in
  set_task_scheduler h (TaskScheduler.set_running (task_scheduler h) {[MkTaskId id := hub_task c id]}).

Lemma assignment_reaches_record_witness :
  let st' := (handle_hub_message (demo_node_env 0) (demo_executor 100) demo_node_state (assign "t2" demo_python)).1 in
  let h' := deliver (hub_env_at 9) (MkNodeId "n1") (hub_running demo_python "t2") (sent_between demo_node_state st') in
  ∃ result, reported (demo_node_env 0) (demo_executor 100) demo_node_state demo_python result ∧
    settled (hub_env_at 9) (hub_running demo_python "t2") h' (MkTaskId "t2") (hub_task demo_python "t2") result.
Proof.
  assert (check (H2 := flat_fs) (nd_permission demo_node_state) (nv_clock (demo_node_env 0)) "check-1" demo_python
    demo_node_context = Allowed) as Ha by (vm_compute; reflexivity).
  assert ((handle_hub_message (demo_node_env 0) (demo_executor 100) demo_node_state (assign "t2" demo_python)).2
    = Done (Ok tt)) as Hd by (vm_compute; reflexivity).
  assert (running_tasks (task_scheduler (hub_running demo_python "t2")) !! MkTaskId "t2"
    = Some (hub_task demo_python "t2")) as Hr by apply lookup_insert_eq.
  intros st' h'.
  pose proof (assignment_reaches_record (demo_node_env 0) (demo_executor 100) demo_node_state (hub_env_at 9)
    (hub_running demo_python "t2") (MkNodeId "n1") (MkTaskId "t2") demo_python Normal None demo_node_context 0 3
    (MkMessageId "a") (hub_task demo_python "t2") Hr eq_refl Hd) as Hm.
  cbv zeta in Hm. change (nv_request_id (demo_node_env 0)) with "check-1" in Hm.
  change (os_view (xw (nd_os demo_node_state))) with flat_fs in Hm. rewrite Ha in Hm. exact Hm.
Defined.

Lemma approval_reaches_record_witness :
  let st' := (handle_hub_message (demo_node_env 2) (demo_executor 100) waiting_node approve_it).1 in
  let h' := deliver (hub_env_at 9) (MkNodeId "n1") (hub_running demo_echo "t1") (sent_between waiting_node st') in
  ∃ result, settled (hub_env_at 9) (hub_running demo_echo "t1") h' (MkTaskId "t1") (hub_task demo_echo "t1") result.
Proof.
  destruct waiting_request as (q & Hq & Ht & _ & He).
  destruct (approval_reaches_record (demo_node_env 2) (demo_executor 100) waiting_node (hub_env_at 9)
    (hub_running demo_echo "t1") (MkNodeId "n1") (MkMessageId "b") "approval-1" true "admin" None 0 q
    (hub_task demo_echo "t1") Hq ltac:(rewrite He; vm_compute; discriminate)
    ltac:(rewrite Ht; apply lookup_insert_eq) eq_refl ltac:(vm_compute; reflexivity)) as (result & Hs & _).
  rewrite Ht in Hs. exists result. exact Hs.
Defined.
