(* ===== verification/Versioning.v ===== *)
(** Versions of a workspace ([crates/uhorse-node-runtime/src/versioning.rs]): the
    reading of git's status and log, checkpoints and restores.  The program [git]
    is a parameter: what it answers to a list of arguments and how it changes the
    repository.  Audit events are left out. *)
From S2P Require Import Prelude Text Workspace.

Inductive FileChangeKind :=
| Unmodified | Added | Modified | Deleted | Renamed | Copied | Untracked | Unmerged | UnknownChange.

#[export] Instance FileChangeKind_eq_dec : EqDecision FileChangeKind.
Proof. solve_decision. Defined.

(** [from_porcelain] on a character; status letters are one byte, any other
    character is unknown. *)
Definition from_porcelain (c : Ascii.ascii) : FileChangeKind :=
  if Ascii.eqb c " " then Unmodified
  else if Ascii.eqb c "A" then Added
  else if Ascii.eqb c "M" then Modified
  else if Ascii.eqb c "D" then Deleted
  else if Ascii.eqb c "R" then Renamed
  else if Ascii.eqb c "C" then Copied
  else if Ascii.eqb c "?" then Untracked
  else if Ascii.eqb c "U" then Unmerged
  else UnknownChange.

Record VersionStatusEntry := MkVersionStatusEntry {
  ve_path : string;
  ve_staged : FileChangeKind;
  ve_unstaged : FileChangeKind
}.

Record WorkspaceVersionStatus := MkWorkspaceVersionStatus {
  vs_branch : string;
  vs_dirty : bool;
  vs_entries : list VersionStatusEntry;
  vs_generated_at : timestamp
}.

Record CheckpointRecord := MkCheckpointRecord {
  cp_revision : string;
  cp_message : string;
  cp_created_at : timestamp
}.

Inductive DiffTarget :=
| DWorkingTree | DStaged | DRevisionRange (from to : string).

Record WorkspaceDiff := MkWorkspaceDiff {
  wd_target : DiffTarget;
  wd_patch : string;
  wd_generated_at : timestamp
}.

Record RestorePreview := MkRestorePreview {
  rp_revision : string;
  rp_patch : string;
  rp_status_before : WorkspaceVersionStatus;
  rp_generated_at : timestamp
}.

Record RestoreResult := MkRestoreResult {
  rr_revision : string;
  rr_restored_at : timestamp;
  rr_status_before : WorkspaceVersionStatus;
  rr_status_after : WorkspaceVersionStatus
}.

(** The first character of a text that starts at the byte [k]: its first byte
    stands for it, which is the character itself for the letters of a status. *)
Definition char_at (n : nat) (line : string) : Ascii.ascii :=
  match char_indices 0 line !! n with
  | Some k => default " "%char (String.get k line)
  | None => " "%char
  end.

Section Versioning.
(** The display of the root in messages. *)
Context (root_text : string).
(** [DateTime::parse_from_rfc3339]: the time or the text of the error. *)
Context (parse_from_rfc3339 : string → Result timestamp string).

(** [None] is the panic of [line[3..]] inside a character. *)
Definition from_porcelain_line (line : string) : option (NodeResult VersionStatusEntry) :=
  if bool_decide (String.length line < 4)
  then Some (Err (NExecution ("Invalid git status line in " +:+ root_text +:+ ": " +:+ line)))
  else if is_char_boundary line 3
  then Some (Ok (MkVersionStatusEntry (str_trim (slice_from 3 line))
                   (from_porcelain (char_at 0 line)) (from_porcelain (char_at 1 line))))
  else None.

(** The loop over the lines; the branch is that of the last branch line. *)
Fixpoint read_status_lines (branch : string) (entries : list VersionStatusEntry) (lines : list string)
    : option (NodeResult (string * list VersionStatusEntry)) :=
  match lines with
  | [] => Some (Ok (branch, entries))
  | line :: rest =>
      match strip_prefix "## " line with
      | Some b => read_status_lines (str_trim (before_first "..." b)) entries rest
      | None =>
          if bool_decide (str_trim line = "") then read_status_lines branch entries rest
          else
            match from_porcelain_line line with
            | None => None
            | Some (Err e) => Some (Err e)
            | Some (Ok entry) => read_status_lines branch (entries ++ [entry]) rest
            end
      end
  end.

Definition from_git_status (now : timestamp) (output : string) : option (NodeResult WorkspaceVersionStatus) :=
  match read_status_lines "HEAD" [] (str_lines output) with
  | None => None
  | Some (Err e) => Some (Err e)
  | Some (Ok (branch, entries)) =>
      Some (Ok (MkWorkspaceVersionStatus branch (negb (bool_decide (entries = []))) entries now))
  end.

(** The separator of the log format, [\u{001f}]. *)
Definition unit_separator : Ascii.ascii := ascii_of_nat 31.

Definition non_empty (o : option string) : option string :=
  match o with Some v => if bool_decide (v = "") then None else Some v | None => None end.

Definition from_log_line (line : string) : NodeResult CheckpointRecord :=
  let parts := str_split unit_separator line in
  let? revision := ok_or (non_empty (parts !! 0)) (NExecution "Missing checkpoint revision") in
  let? message := ok_or (non_empty (parts !! 1)) (NExecution "Missing checkpoint message") in
  let? created := ok_or (parts !! 2) (NExecution "Missing checkpoint timestamp") in
  match parse_from_rfc3339 created with
  | Ok t => Ok (MkCheckpointRecord revision message t)
  | Err e => Err (NExecution ("Invalid checkpoint timestamp: " +:+ e))
  end.

(** *** Calls of git *)

(** The repository, whether it is one, what [git] answers; an answer is the
    trimmed output, or the error with the arguments. *)
Context {G : Type} (is_git_repo : G → bool) (run_git : G → list string → G * NodeResult string).

(** A computation over the repository; the outer [None] is a panic. *)
Definition Git (A : Type) : Type := G → G * option (NodeResult A).

Definition git_ret {A} (r : NodeResult A) : Git A := λ g, (g, Some r).
Definition git_lift {A} (r : option (NodeResult A)) : Git A := λ g, (g, r).
Definition git_bind {A B} (c : Git A) (k : A → Git B) : Git B := λ g,
  match c g with
  | (g', Some (Ok a)) => k a g'
  | (g', Some (Err e)) => (g', Some (Err e))
  | (g', None) => (g', None)
  end.
#[local] Notation "'let!' x := c 'in' k" := (git_bind c (λ x, k))
  (at level 10, x binder, c at level 100, k at level 200).

Definition git (args : list string) : Git string := λ g, let '(g', r) := run_git g args in (g', Some r).

Definition ensure_git_repo : Git unit := λ g,
  (g, Some (if is_git_repo g then Ok tt else Err (NExecution ("Workspace is not a git repository: " +:+ root_text)))).

Definition version_status (now : timestamp) : Git WorkspaceVersionStatus :=
  let! _ := ensure_git_repo in
  let! output := git ["status"; "--short"; "--branch"] in
  git_lift (from_git_status now output).

Definition diff (now : timestamp) (target : DiffTarget) : Git WorkspaceDiff :=
  let! _ := ensure_git_repo in
  let! output := git match target with
                     | DWorkingTree => ["diff"; "--"]
                     | DStaged => ["diff"; "--cached"; "--"]
                     | DRevisionRange from to => ["diff"; from; to; "--"]
                     end in
  git_ret (Ok (MkWorkspaceDiff target output now)).

Definition log_format : string := "--pretty=format:%H%x1f%s%x1f%cI".

Definition current_checkpoint : Git CheckpointRecord :=
  let! _ := ensure_git_repo in
  let! output := git ["log"; "-1"; log_format] in
  git_ret (from_log_line output).

Definition create_checkpoint (message : string) (include_untracked : bool) : Git CheckpointRecord :=
  let! _ := ensure_git_repo in
  let! _ := git (if include_untracked then ["add"; "."] else ["add"; "-u"]) in
  let! status := git ["status"; "--short"] in
  if bool_decide (str_trim status = "")
  then git_ret (Err (NExecution "No workspace changes available for checkpoint"))
  else
    let! _ := git ["commit"; "-m"; message] in
    current_checkpoint.

(** [collect] into a [Result]: the first error, or all the values. *)
Fixpoint collect_results {A} (l : list (NodeResult A)) : NodeResult (list A) :=
  match l with
  | [] => Ok []
  | Ok a :: rest => let? r := collect_results rest in Ok (a :: r)
  | Err e :: _ => Err e
  end.

(** [limit] is a [usize]. *)
Definition list_checkpoints (limit : N) : Git (list CheckpointRecord) :=
  let! _ := ensure_git_repo in
  let! output := git ["log"; "-" +:+ pretty (N.max limit 1); log_format] in
  git_ret (collect_results (from_log_line <$>
    List.filter (λ line, negb (bool_decide (str_trim line = ""))) (str_lines output))).

Definition preview_restore (now : timestamp) (revision : string) : Git RestorePreview :=
  let! _ := ensure_git_repo in
  let! patch := git ["diff"; revision; "--"] in
  let! status_before := version_status now in
  git_ret (Ok (MkRestorePreview revision patch status_before now)).

Definition restore (now : timestamp) (revision : string) : Git RestoreResult :=
  let! _ := ensure_git_repo in
  let! before := version_status now in
  let! _ := git ["reset"; "--soft"; revision] in
  let! after := version_status now in
  git_ret (Ok (MkRestoreResult revision now before after)).
End Versioning.

(** * Theorems

   Reading what git prints: the status of a workspace is read back exactly, and
    a single commit without a subject hides the whole list of checkpoints. *)

Section Facts.
Context (root_text : string) (parse_from_rfc3339 : string → Result timestamp string).

(** ** The porcelain format *)

Definition kind_letter (k : FileChangeKind) : Ascii.ascii :=
  match k with
  | Unmodified => " " | Added => "A" | Modified => "M" | Deleted => "D" | Renamed => "R"
  | Copied => "C" | Untracked => "?" | Unmerged => "U" | UnknownChange => "T"
  end%char.

Lemma from_porcelain_letter k : from_porcelain (kind_letter k) = k.
Proof. by destruct k. Qed.

(** What [git status --short --branch] prints for an entry. *)
Definition entry_line (e : VersionStatusEntry) : string :=
  String (kind_letter (ve_staged e)) (String (kind_letter (ve_unstaged e)) (String " " (ve_path e))).

(** A path git prints: not empty, starting with a character, without white
    space around it. *)
Definition plain_path (p : string) : Prop :=
  p ≠ "" ∧ str_trim p = p ∧ match p with String c _ => is_continuation c = false | EmptyString => True end.

Lemma letter_not_continuation k : is_continuation (kind_letter k) = false.
Proof. by destruct k. Qed.

Lemma substring_whole s : String.substring 0 (String.length s) s = s.
Proof. induction s as [|c s IH]; simpl; [done|by rewrite IH]. Qed.

Lemma from_porcelain_line_entry e :
  plain_path (ve_path e) →
  from_porcelain_line root_text (entry_line e) = Some (Ok e).
Proof.
  intros (Hne & Htrim & Hc). unfold from_porcelain_line, entry_line.
  destruct e as [p a b]. simpl in *. destruct p as [|c p]; [done|]. rewrite bool_decide_false by (simpl; lia).
  simpl. rewrite Hc. simpl. unfold char_at. simpl. rewrite !letter_not_continuation. simpl.
  rewrite !from_porcelain_letter. do 3 f_equal. unfold slice_from. simpl. rewrite substring_whole. exact Htrim.
Qed.

(** An entry is no branch line. *)
Lemma entry_no_branch e : strip_prefix "## " (entry_line e) = None.
Proof. unfold strip_prefix, entry_line. by destruct (ve_staged e). Qed.

Lemma read_entries branch acc entries :
  Forall (λ e, plain_path (ve_path e) ∧ str_trim (entry_line e) ≠ "") entries →
  read_status_lines root_text branch acc (entry_line <$> entries) = Some (Ok (branch, acc ++ entries)).
Proof.
  intros He. revert acc. induction He as [|e entries [Hp Ht] _ IH]; intros acc; simpl; [by rewrite app_nil_r|].
  rewrite entry_no_branch, bool_decide_false, from_porcelain_line_entry by done.
  rewrite IH. by rewrite <-app_assoc.
Qed.

(** ** The list of checkpoints *)

(** A log line of a commit whose subject is empty. *)
Definition subjectless (line : string) : Prop :=
  ∃ revision rest, str_split unit_separator line = revision :: "" :: rest.

Lemma subjectless_error line : subjectless line → ∃ e, from_log_line parse_from_rfc3339 line = Err e.
Proof.
  intros (revision & rest & E). unfold from_log_line. rewrite E. simpl.
  destruct (bool_decide (revision = "")); simpl; eauto.
Qed.

Lemma collect_results_err {A} (l : list (NodeResult A)) :
  (∃ e, Err e ∈ l) → ∃ e, collect_results l = Err e.
Proof.
  intros (e & He). induction l as [|[a|e'] l IH]; simpl; [set_solver| |eauto].
  destruct IH as [e' ->]; [by inversion He|simpl; eauto].
Qed.

(** One commit without a subject hides the history: whatever the other commits,
    listing the checkpoints is an error. *)
Theorem empty_subject_hides_history {G} (is_repo : G → bool) run_git limit g g' output line :
  is_repo g = true →
  run_git g ["log"; "-" +:+ pretty (N.max limit 1); log_format] = (g', Ok output) →
  line ∈ str_lines output → str_trim line ≠ "" → subjectless line →
  ∃ e, list_checkpoints root_text parse_from_rfc3339 is_repo run_git limit g = (g', Some (Err e)).
Proof.
  intros Hr Hg Hline Hblank Hs. unfold list_checkpoints, git_bind, ensure_git_repo, git, git_ret. rewrite Hr. simpl.
  rewrite Hg.
  destruct (collect_results_err (from_log_line parse_from_rfc3339 <$>
    List.filter (λ line, negb (bool_decide (str_trim line = ""))) (str_lines output))) as [e ->]; [|eauto].
  destruct (subjectless_error line Hs) as [e He]. exists e. apply list_elem_of_fmap. exists line.
  split; [done|]. apply list_elem_of_In, filter_In. split; [by apply list_elem_of_In|].
  by rewrite bool_decide_false.
Qed.
End Facts.
