(* ===== verification/Cron.v ===== *)
(** Cron expressions ([crates/uhorse-scheduler/src/cron.rs]): the parser, the
    test of a time against a schedule, and the search for the next run.  The
    calendar belongs to the [chrono] crate: its fields are a class whose laws say
    what a UTC date and time is; a concrete calendar makes the examples run.
    Where the code panics the result is [None]. *)
From S2P Require Import Prelude ProtocolTypes.

(** ** Errors *)

(** The variants of [UHorseError] the scheduler crate builds. *)
Inductive SchedulerError :=
| ScheduleConflict (m : string)
| JobNotFound (id : string).

(** ** Fields *)

Record CronField := MkCronField {
  cf_values : gset Z;
  cf_is_wildcard : bool;
  cf_step : option Z
}.

Abbreviation CronResult T := (Result T SchedulerError).

(** [start..=end] and [(start..=end).step_by(step)]. *)
Definition range_inclusive (start end_ : Z) : list Z := seqZ start (end_ - start + 1).
Definition range_step_by (start end_ step : Z) : list Z :=
  (λ i, start + step * i)%Z <$> seqZ 0 ((end_ - start) / step + 1).

(** The values of a list that lie in the field. *)
Definition within (min max : Z) (l : list Z) : gset Z :=
  list_to_set (List.filter (λ i, (min <=? i)%Z && (i <=? max)%Z) l).

(** A range [a-b] given as the two texts around its dash. *)
Definition parse_range (ab : string * string) (whole what : string) : CronResult (Z * Z) :=
  match parse_u32 ab.1 with
  | None => Err (ScheduleConflict ("Invalid " +:+ what +:+ " start: " +:+ whole))
  | Some start =>
      match parse_u32 ab.2 with
      | None => Err (ScheduleConflict ("Invalid " +:+ what +:+ " end: " +:+ whole))
      | Some end_ => Ok (start, end_)
      end
  end.

Fixpoint parse_list (parts : list string) (min max : Z) (values : gset Z) : CronResult (gset Z) :=
  match parts with
  | [] => Ok values
  | part :: rest =>
      match split_at_char "-" part with
      | Some ab =>
          let? se := parse_range ab part "list range" in
          parse_list rest min max (values ∪ within min max (range_inclusive se.1 se.2))
      | None =>
          match parse_u32 part with
          | None => Err (ScheduleConflict ("Invalid value: " +:+ part))
          | Some val =>
              if (val <? min)%Z || (max <? val)%Z then
                Err (ScheduleConflict ("Value " +:+ display_u val +:+ " out of range (" +:+
                  display_u min +:+ "-" +:+ display_u max +:+ ")"))
              else parse_list rest min max ({[ val ]} ∪ values)
          end
      end
  end.

(** What follows the handling of a step: a range, or else a list. *)
Definition parse_unstepped (expr : string) (min max : Z) (step : option Z) : CronResult CronField :=
  match split_at_char "-" expr with
  | Some ab =>
      let? se := parse_range ab expr "range" in
      Ok (MkCronField (within min max (range_inclusive se.1 se.2)) false step)
  | None =>
      let? values := parse_list (str_split "," expr) min max ∅ in
      Ok (MkCronField values false step)
  end.

(** [step_by(0)] panics. *)
Definition parse_field (expr : string) (min max : Z) : option (CronResult CronField) :=
  if decide (expr = "*") then
    Some (Ok (MkCronField (list_to_set (range_inclusive min max)) true None))
  else
    match split_at_char "/" expr with
    | None => Some (parse_unstepped expr min max None)
    | Some (base, step_text) =>
        match parse_u32 step_text with
        | None => Some (Err (ScheduleConflict ("Invalid step value: " +:+ expr)))
        | Some step =>
            if decide (base = "*") then
              if decide (step = 0%Z) then None
              else Some (Ok (MkCronField (list_to_set (range_step_by min max step)) true (Some step)))
            else
              match split_at_char "-" base with
              | Some ab =>
                  match parse_range ab base "range" with
                  | Err e => Some (Err e)
                  | Ok se =>
                      if decide (step = 0%Z) then None
                      else Some (Ok (MkCronField (within min max (range_step_by se.1 se.2 step))
                                       false (Some step)))
                  end
              | None => Some (parse_unstepped expr min max (Some step))
              end
        end
    end.

(** ** Schedules *)

Record CronSchedule := MkCronSchedule {
  cs_expression : string;
  cs_include_seconds : bool;
  cs_seconds : option CronField;
  cs_minutes : CronField;
  cs_hours : CronField;
  cs_days_of_month : CronField;
  cs_months : CronField;
  cs_days_of_week : CronField
}.

(** Fields are parsed from left to right; the first error is returned. *)
Fixpoint parse_fields (l : list (string * (Z * Z))) : option (CronResult (list CronField)) :=
  match l with
  | [] => Some (Ok [])
  | (expr, (min, max)) :: rest =>
      match parse_field expr min max with
      | None => None
      | Some (Err e) => Some (Err e)
      | Some (Ok f) =>
          match parse_fields rest with
          | Some (Ok fs) => Some (Ok (f :: fs))
          | r => r
          end
      end
  end.

Definition field_bounds (include_seconds : bool) : list (Z * Z) :=
  (if include_seconds then [(0, 59)%Z] else [])
  ++ [(0, 59)%Z; (0, 23)%Z; (1, 31)%Z; (1, 12)%Z; (0, 6)%Z].

Definition CronParser_parse (include_seconds : bool) (expression : string)
    : option (CronResult CronSchedule) :=
  let parts := split_whitespace expression in
  let expected_len := if include_seconds then 6 else 5 in
  if negb (bool_decide (length parts = expected_len)) then
    Some (Err (ScheduleConflict ("Invalid cron expression: expected " +:+
      display_u (Z.of_nat expected_len) +:+ " fields, got " +:+ display_u (zlen parts))))
  else
    match parse_fields (zip parts (field_bounds include_seconds)) with
    | None => None
    | Some (Err e) => Some (Err e)
    | Some (Ok [s; m; h; dom; mon; dow]) =>
        Some (Ok (MkCronSchedule expression include_seconds (Some s) m h dom mon dow))
    | Some (Ok [m; h; dom; mon; dow]) =>
        Some (Ok (MkCronSchedule expression include_seconds None m h dom mon dow))
    | Some (Ok _) => None
    end.

Definition parse_cron (expression : string) : option (CronResult CronSchedule) :=
  CronParser_parse false expression.
Definition parse_cron_with_seconds (expression : string) : option (CronResult CronSchedule) :=
  CronParser_parse true expression.

(** ** The calendar *)

Definition minute_ns : Z := 60 * nanos_per_sec.
Definition hour_ns : Z := 60 * minute_ns.
Definition day_ns : Z := 24 * hour_ns.

(** [chrono::DateTime<Utc>]. *)
Class Calendar := {
  dt_second : timestamp → Z;
  dt_minute : timestamp → Z;
  dt_hour : timestamp → Z;
  dt_day : timestamp → Z;
  dt_month : timestamp → Z;
  num_days_from_monday : timestamp → Z;
  dt_second_spec : ∀ t, dt_second t = ((t / nanos_per_sec) `mod` 60)%Z;
  dt_minute_spec : ∀ t, dt_minute t = ((t / minute_ns) `mod` 60)%Z;
  dt_hour_spec : ∀ t, dt_hour t = ((t / hour_ns) `mod` 24)%Z;
  dt_date : ∀ t t', (t / day_ns = t' / day_ns)%Z → dt_day t = dt_day t' ∧ dt_month t = dt_month t';
  dt_day_range : ∀ t, (1 ≤ dt_day t ≤ 31)%Z;
  (* 1 January 1970 was a Thursday *)
  num_days_from_monday_spec : ∀ t, num_days_from_monday t = ((t / day_ns + 3) `mod` 7)%Z;
  from_timestamp : Z → option timestamp;
  from_timestamp_spec : ∀ s t, from_timestamp s = Some t → t = seconds s
}.

Section Schedule.
Context `{Calendar}.

Definition matches (s : CronSchedule) (dt : timestamp) : bool :=
  if negb (match cs_seconds s with
           | Some f => bool_decide (dt_second dt ∈ cf_values f) | None => true end) then false
  else if negb (bool_decide (dt_minute dt ∈ cf_values (cs_minutes s))) then false
  else if negb (bool_decide (dt_hour dt ∈ cf_values (cs_hours s))) then false
  else if negb (bool_decide (dt_month dt ∈ cf_values (cs_months s))) then false
  else
    let day_matches := bool_decide (dt_day dt ∈ cf_values (cs_days_of_month s)) in
    let weekday_matches := bool_decide (num_days_from_monday dt ∈ cf_values (cs_days_of_week s)) in
    let all_wildcard := cf_is_wildcard (cs_days_of_month s) && cf_is_wildcard (cs_days_of_week s) in
    negb (negb all_wildcard && negb day_matches && negb weekday_matches).

(** The loop of [next_after]: minute by minute, at most four years. *)
Fixpoint search_match (s : CronSchedule) (rounds : nat) (current : timestamp) : option timestamp :=
  match rounds with
  | O => None
  | S rounds' =>
      if matches s current then Some current
      else search_match s rounds' (current + seconds 60)%Z
  end.

Definition search_rounds : nat := Z.to_nat (365 * 4 * 24 * 60).

Definition next_after (s : CronSchedule) (after : timestamp) : timestamp :=
  match search_match s search_rounds (after + seconds 1)%Z with
  | Some t => t
  | None => (after + seconds (365 * 4 * 24 * 60 * 60))%Z
  end.
End Schedule.

(** * Theorems

   Correctness of cron schedules: the values of parsed fields, when parsing
    panics, what the search for the next run finds, and where schedules do not
    mean what their expressions say. *)

(** ** Parsed fields *)

Lemma elem_of_within min max l v : v ∈ within min max l ↔ v ∈ l ∧ (min ≤ v ≤ max)%Z.
Proof.
  unfold within. rewrite elem_of_list_to_set, elem_of_filter_bool, andb_true_iff, !Z.leb_le. tauto.
Qed.

Lemma elem_of_range_inclusive a b v : v ∈ range_inclusive a b ↔ (a ≤ v ≤ b)%Z.
Proof. unfold range_inclusive. rewrite elem_of_seqZ. lia. Qed.

Lemma elem_of_range_step_by a b k v :
  (0 < k)%Z → v ∈ range_step_by a b k ↔ (a ≤ v ≤ b)%Z ∧ (k | v - a)%Z.
Proof.
  intros Hk. unfold range_step_by. rewrite list_elem_of_fmap. split.
  - intros (i & -> & Hi). rewrite elem_of_seqZ in Hi.
    assert (k * ((b - a) / k) ≤ b - a)%Z by (apply Z.mul_div_le; lia).
    split; [nia|]. exists i. lia.
  - intros [Hv [i Hi]]. exists i. split; [lia|]. rewrite elem_of_seqZ.
    assert (i ≤ (b - a) / k)%Z by (apply Z.div_le_lower_bound; nia). nia.
Qed.

Lemma digit_value_nonneg c d : digit_value c = Some d → (0 ≤ d)%Z.
Proof. unfold digit_value. intros. repeat case_match; simplify_eq; lia. Qed.

Lemma parse_u32_digits_nonneg s acc n :
  (0 ≤ acc)%Z → parse_u32_digits acc s = Some n → (0 ≤ n)%Z.
Proof.
  revert acc. induction s as [|c s IH]; simpl; intros acc Hacc; [by intros [= <-]|].
  destruct (digit_value c) as [d|] eqn:E; simpl; [|done]. apply digit_value_nonneg in E.
  case_decide; [|done]. apply IH. lia.
Qed.

Lemma parse_u32_nonneg s n : parse_u32 s = Some n → (0 ≤ n)%Z.
Proof.
  unfold parse_u32. intros H. repeat case_match; try done; by eapply parse_u32_digits_nonneg in H.
Qed.

Definition field_within (min max : Z) (f : CronField) : Prop :=
  ∀ v, v ∈ cf_values f → (min ≤ v ≤ max)%Z.

Lemma parse_list_within parts min max values values' :
  (∀ v, v ∈ values → (min ≤ v ≤ max)%Z) →
  parse_list parts min max values = Ok values' → ∀ v, v ∈ values' → (min ≤ v ≤ max)%Z.
Proof.
  revert values. induction parts as [|part parts IH]; simpl; intros values Hv; [by intros [= <-]|].
  destruct (split_at_char _ _) as [ab|].
  - intros (se & _ & Hk)%result_bind_ok. revert Hk. apply IH.
    intros v [?|[_ ?]%elem_of_within]%elem_of_union; auto.
  - destruct (parse_u32 part) as [val|]; [|done].
    destruct ((val <? min)%Z || (max <? val)%Z) eqn:E; [done|]. apply orb_false_iff in E as [??].
    apply IH. intros v [->%elem_of_singleton|?]%elem_of_union; [lia|auto].
Qed.

Lemma parse_unstepped_within expr min max step f :
  parse_unstepped expr min max step = Ok f → field_within min max f.
Proof.
  unfold parse_unstepped. destruct (split_at_char _ _) as [ab|].
  - intros (se & _ & [= <-])%result_bind_ok v [_ ?]%elem_of_within. done.
  - intros (values & Hl & [= <-])%result_bind_ok v. simpl. eapply parse_list_within; [|done].
    intros v'. by rewrite elem_of_empty.
Qed.

Lemma parse_field_within expr min max f :
  parse_field expr min max = Some (Ok f) → field_within min max f.
Proof.
  unfold parse_field. case_decide.
  { intros [= <-] v. simpl. rewrite elem_of_list_to_set. apply elem_of_range_inclusive. }
  destruct (split_at_char _ _) as [[base st]|]; [|intros [= ?]; by eapply parse_unstepped_within].
  destruct (parse_u32 st) as [step|] eqn:Es; [|done]. apply parse_u32_nonneg in Es.
  repeat case_decide; try done.
  - intros [= <-] v. simpl. rewrite elem_of_list_to_set, elem_of_range_step_by by lia. tauto.
  - destruct (split_at_char _ _) as [ab|]; [|intros [= ?]; by eapply parse_unstepped_within].
    by destruct (parse_range _ _ _).
  - destruct (split_at_char _ _) as [ab|]; [|intros [= ?]; by eapply parse_unstepped_within].
    destruct (parse_range _ _ _); [|done]. intros [= <-] x [_ Hx]%elem_of_within. exact Hx.
Qed.

Lemma parse_fields_within l fs :
  parse_fields l = Some (Ok fs) → Forall2 (λ b f, field_within b.2.1 b.2.2 f) l fs.
Proof.
  revert fs. induction l as [|[e [min max]] l IH]; simpl; intros fs; [by intros [= <-]|].
  destruct (parse_field e min max) as [[f|]|] eqn:E; [|done|done].
  destruct (parse_fields l) as [[fs'|]|]; [|done|done]. intros [= <-].
  constructor; [by eapply parse_field_within|by apply IH].
Qed.

Lemma parse_field_star min max f :
  parse_field "*" min max = Some (Ok f) →
  f = MkCronField (list_to_set (range_inclusive min max)) true None.
Proof. by intros [= <-]. Qed.

(** A schedule whose fields hold values of their own kinds only. *)
Record schedule_wf (s : CronSchedule) : Prop := {
  sc_seconds : ∀ f, cs_seconds s = Some f → field_within 0 59 f;
  sc_minutes : field_within 0 59 (cs_minutes s);
  sc_hours : field_within 0 23 (cs_hours s);
  sc_days : field_within 1 31 (cs_days_of_month s);
  sc_months : field_within 1 12 (cs_months s);
  sc_weekdays : field_within 0 6 (cs_days_of_week s)
}.

(** C39. Whatever the expression, a parsed schedule only holds seconds, minutes,
    hours, days, months and weekdays that exist, it has seconds exactly when the
    parser asks for them, and it keeps the expression. *)
Theorem parsed_schedule_wf include_seconds expression s :
  CronParser_parse include_seconds expression = Some (Ok s) →
  schedule_wf s ∧ cs_expression s = expression ∧
  (is_Some (cs_seconds s) ↔ include_seconds = true).
Proof.
  unfold CronParser_parse. destruct (negb _) eqn:El; [done|]. bool_prop. intros Hp.
  destruct (parse_fields _) as [[fs|]|] eqn:Ef; [|done|done].
  apply parse_fields_within in Ef as Hw. clear Ef.
  destruct include_seconds;
    destruct (split_whitespace expression) as [|? [|? [|? [|? [|? [|? [|? ?]]]]]]]; try done;
    simpl in Hw; repeat match goal with H : Forall2 _ (_ :: _) _ |- _ => apply Forall2_cons_inv_l in H as (? & ? & ? & ? & ->) end;
    match goal with H : Forall2 _ [] _ |- _ => apply Forall2_nil_inv_l in H as -> end;
    simpl in *; simplify_eq; (split; [split; naive_solver|]); (split; [done|]); simpl;
    split; naive_solver.
Qed.

(** Parsing panics exactly when a step is zero: after a star, or after a
    well-formed range. *)
Theorem parse_field_panics expr min max :
  parse_field expr min max = None ↔
  ∃ base step_text, split_at_char "/" expr = Some (base, step_text) ∧ parse_u32 step_text = Some 0%Z ∧
    (base = "*" ∨ ∃ ab se, split_at_char "-" base = Some ab ∧ parse_range ab base "range" = Ok se).
Proof.
  unfold parse_field. split.
  - case_decide; [done|]. destruct (split_at_char "/" expr) as [[base st]|]; [|done].
    destruct (parse_u32 st) as [step|] eqn:Es; [|done]. intros Hn. exists base, st.
    case_decide; [case_decide; naive_solver|].
    destruct (split_at_char "-" base) as [ab|]; [|done].
    destruct (parse_range ab base "range") eqn:Er; [|done]. case_decide; naive_solver.
  - intros (base & st & Hs & Hp & Hb). rewrite decide_False by (intros ->; done). rewrite Hs, Hp.
    destruct Hb as [->|(ab & se & Ha & Hr)]; [done|].
    rewrite decide_False by (intros ->; done). by rewrite Ha, Hr.
Qed.

(** A list that contains a range after its first value is refused: a text with a
    dash is read as one range, before it is split at its commas. *)
Lemma list_with_range_refused :
  parse_field "1,3-5,7" 0 59 = Some (Err (ScheduleConflict "Invalid range start: 1,3-5,7")).
Proof. reflexivity. Qed.

Section NextAfter.
Context `{Calendar}.

(** ** The search *)

Lemma search_match_spec s n current :
  match search_match s n current with
  | Some t => ∃ k, k < n ∧ t = (current + seconds 60 * Z.of_nat k)%Z ∧ matches s t = true ∧
      ∀ j, j < k → matches s (current + seconds 60 * Z.of_nat j)%Z = false
  | None => ∀ j, j < n → matches s (current + seconds 60 * Z.of_nat j)%Z = false
  end.
Proof.
  revert current. induction n as [|n IH]; intros current; simpl; [lia|].
  destruct (matches s current) eqn:Em.
  - exists 0. rewrite Z.mul_0_r, Z.add_0_r. split_and!; [lia|done..|lia].
  - specialize (IH (current + seconds 60)%Z).
    assert (∀ j, current + seconds 60 + seconds 60 * Z.of_nat j = current + seconds 60 * Z.of_nat (S j))%Z
      as Hj by (intros; lia).
    assert (∀ j, (∀ i, i < j → matches s (current + seconds 60 + seconds 60 * Z.of_nat i)%Z = false) →
      ∀ i, i < S j → matches s (current + seconds 60 * Z.of_nat i)%Z = false) as Hstep.
    { intros j Hlt [|i] Hi; [by rewrite Z.mul_0_r, Z.add_0_r|]. rewrite <-Hj. apply Hlt. lia. }
    destruct (search_match s n _) as [t|]; [|by apply Hstep].
    destruct IH as (k & Hk & -> & Ht & Hlt). exists (S k). split_and!; [lia|by rewrite Hj|done|].
    by apply Hstep.
Qed.

Lemma same_minute_hour t t' : (t / minute_ns = t' / minute_ns → t / hour_ns = t' / hour_ns)%Z.
Proof.
  intros Hm. unfold hour_ns. rewrite (Z.mul_comm 60), <-!Z.div_div by done. by rewrite Hm.
Qed.
Lemma same_hour_day t t' : (t / hour_ns = t' / hour_ns → t / day_ns = t' / day_ns)%Z.
Proof.
  intros Hm. unfold day_ns. rewrite (Z.mul_comm 24), <-!Z.div_div by done. by rewrite Hm.
Qed.

(** Without seconds a schedule does not look below the minute. *)
Lemma matches_same_minute s t t' :
  cs_seconds s = None → (t / minute_ns = t' / minute_ns)%Z → matches s t = matches s t'.
Proof.
  intros Hs Hm. pose proof (same_minute_hour _ _ Hm) as Hh. pose proof (same_hour_day _ _ Hh) as Hd.
  destruct (dt_date _ _ Hd) as [Ed Emo]. unfold matches.
  by rewrite Hs, !dt_minute_spec, !dt_hour_spec, !num_days_from_monday_spec, Hm, Hh, Hd, Ed, Emo.
Qed.

(** The minute of a candidate of the search. *)
Lemma candidate_minute t k :
  ((t + seconds 60 * k) / minute_ns = t / minute_ns + k)%Z.
Proof. rewrite Z.mul_comm. apply Z.div_add. done. Qed.
Lemma candidate_second t k : dt_second (t + seconds 60 * k) = dt_second t.
Proof.
  rewrite !dt_second_spec. replace (seconds 60 * k)%Z with ((60 * k) * nanos_per_sec)%Z
    by (unfold seconds; lia).
  rewrite Z.div_add by done. rewrite (Z.mul_comm 60). by rewrite Z_mod_plus_full.
Qed.

Lemma search_rounds_Z : Z.of_nat search_rounds = 2102400%Z.
Proof. unfold search_rounds. by rewrite Z2Nat.id. Qed.

(** The next run of a schedule without seconds lies after the given time, and no
    matching minute of the next four years is skipped: when any time at least a
    second later matches, the next run matches and is in the same minute or in an
    earlier one. *)
Theorem next_after_first_minute s after :
  cs_seconds s = None →
  let next := next_after s after in
  (after < next)%Z ∧
  ∀ t, (after + seconds 1 ≤ t ≤ after + seconds 1 + seconds 60 * (365 * 4 * 24 * 60 - 1))%Z →
    matches s t = true → matches s next = true ∧ (next / minute_ns ≤ t / minute_ns)%Z.
Proof.
  intros Hs next. unfold next, next_after.
  set (c := (after + seconds 1)%Z). pose proof (search_match_spec s search_rounds c) as Hsp.
  split.
  - destruct (search_match _ _ _) as [t|]; [|unfold seconds, nanos_per_sec; lia].
    destruct Hsp as (k & _ & -> & _). unfold c, seconds, nanos_per_sec. lia.
  - intros t [Hlo Hhi] Hm.
    apply (Z.div_le_mono _ _ minute_ns eq_refl) in Hlo, Hhi. rewrite candidate_minute in Hhi.
    set (k := Z.to_nat (t / minute_ns - c / minute_ns)).
    pose proof search_rounds_Z. assert (k < search_rounds) as Hk by lia.
    assert (matches s (c + seconds 60 * Z.of_nat k)%Z = true) as Hck.
    { rewrite (matches_same_minute s _ t Hs), Hm; [done|]. rewrite candidate_minute. lia. }
    destruct (search_match s search_rounds c) as [t'|]; [|by rewrite (Hsp k Hk) in Hck].
    destruct Hsp as (k' & Hk' & -> & Ht' & Hlt). split; [done|]. rewrite candidate_minute.
    destruct (decide (k < k')) as [Hkk|]; [by rewrite (Hlt k Hkk) in Hck|lia].
Qed.

(** A schedule with seconds is searched only at the second that follows the
    given time: when the seconds field does not allow that one, the search fails
    whatever the other fields say, and the answer is four years later. *)
Theorem seconds_schedule_missed s f after :
  cs_seconds s = Some f → dt_second (after + seconds 1) ∉ cf_values f →
  next_after s after = (after + seconds (365 * 4 * 24 * 60 * 60))%Z.
Proof.
  intros Hs Hn. unfold next_after. pose proof (search_match_spec s search_rounds (after + seconds 1)) as Hsp.
  destruct (search_match _ _ _) as [t|]; [|done]. destruct Hsp as (k & _ & -> & Ht & _).
  unfold matches in Ht. rewrite Hs, candidate_second, bool_decide_false in Ht by done. done.
Qed.

Definition set_days_of_week (s : CronSchedule) (f : CronField) : CronSchedule :=
  MkCronSchedule (cs_expression s) (cs_include_seconds s) (cs_seconds s) (cs_minutes s) (cs_hours s)
    (cs_days_of_month s) (cs_months s) f.

(** A weekday restriction has no effect while the day of the month is a star:
    the two day fields are joined by [or], and the star allows every day, so the
    schedule runs as if any other weekday field had been given. *)
Theorem weekday_field_ignored s f t :
  parse_field "*" 1 31 = Some (Ok (cs_days_of_month s)) →
  matches (set_days_of_week s f) t = matches s t.
Proof.
  intros Hd%parse_field_star. assert (dt_day t ∈ cf_values (cs_days_of_month s)) as Hin.
  { rewrite Hd. unfold cf_values. apply elem_of_list_to_set, elem_of_range_inclusive, dt_day_range. }
  unfold matches, set_days_of_week. simpl. rewrite (bool_decide_true _ Hin).
  by rewrite !andb_false_r.
Qed.
End NextAfter.

(** ** A concrete calendar *)

(** The civil date of a day counted from 1 March of the year 0, inside its era of
    400 years. *)
Definition day_of_year (doe : Z) : Z :=
  let yoe := ((doe - doe / 1460 + doe / 36524 - doe / 146096) / 365)%Z in
  (doe - (365 * yoe + yoe / 4 - yoe / 100))%Z.
Definition civil_month_index (doe : Z) : Z := ((5 * day_of_year doe + 2) / 153)%Z.
(** The bounds never apply; they make the law of the class immediate. *)
Definition civil_day (doe : Z) : Z :=
  (Z.max 1 (Z.min 31 (day_of_year doe - (153 * civil_month_index doe + 2) / 5 + 1)))%Z.
Definition civil_month (doe : Z) : Z :=
  let mp := civil_month_index doe in if (mp <? 10)%Z then (mp + 3)%Z else (mp - 9)%Z.
Definition day_of_era (t : timestamp) : Z := ((t / day_ns + 719468) `mod` 146097)%Z.

Definition gregorian : Calendar.
Proof.
  refine {| dt_second := λ t, ((t / nanos_per_sec) `mod` 60)%Z;
            dt_minute := λ t, ((t / minute_ns) `mod` 60)%Z;
            dt_hour := λ t, ((t / hour_ns) `mod` 24)%Z;
            dt_day := λ t, civil_day (day_of_era t);
            dt_month := λ t, civil_month (day_of_era t);
            num_days_from_monday := λ t, ((t / day_ns + 3) `mod` 7)%Z;
            from_timestamp := λ s, Some (seconds s) |}; try done.
  - intros t t' E. unfold day_of_era. by rewrite E.
  - intros t. unfold civil_day. lia.
  - by intros s t [= <-].
Defined.

(** Monday 15 January 2024, 08:00:00 UTC, and 14:30:00 of the same day. *)
Definition demo_morning : timestamp := seconds 1705305600.
Definition demo_afternoon : timestamp := seconds 1705329000.

Definition demo_schedule_of (expression : string) : CronSchedule :=
  match parse_cron expression with
  | Some (Ok s) => s
  | _ => MkCronSchedule "" false None (MkCronField ∅ false None) (MkCronField ∅ false None)
           (MkCronField ∅ false None) (MkCronField ∅ false None) (MkCronField ∅ false None)
  end.

Lemma parsed_schedule_wf_witness : schedule_wf (demo_schedule_of "*/5 9-17 * * 1-5").
Proof.
  destruct (parsed_schedule_wf false "*/5 9-17 * * 1-5" (demo_schedule_of "*/5 9-17 * * 1-5")) as [Hw _];
    [vm_compute; reflexivity|exact Hw].
Defined.

Lemma next_after_first_minute_witness :
  let _ := gregorian in
  (next_after (demo_schedule_of "30 14 * * *") demo_morning / minute_ns ≤ demo_afternoon / minute_ns)%Z.
Proof.
  intros H. destruct (next_after_first_minute (H := H) (demo_schedule_of "30 14 * * *") demo_morning)
    as [_ Hn]; [vm_compute; reflexivity|].
  destruct (Hn demo_afternoon) as [_ Hle]; [vm_compute; split; discriminate|vm_compute; reflexivity|].
  exact Hle.
Defined.

(** The preset for Mondays at nine also runs on a Tuesday. *)
Lemma weekday_field_ignored_witness :
  let _ := gregorian in
  matches (demo_schedule_of "0 9 * * 1") (seconds (1705305600 + 25 * 3600)) = true.
Proof.
  intros H.
  assert (matches (demo_schedule_of "0 9 * * *") (seconds (1705305600 + 25 * 3600)) = true) as Hm
    by (vm_compute; reflexivity).
  rewrite <-(weekday_field_ignored (H := H) _ (cs_days_of_week (demo_schedule_of "0 9 * * 1"))) in Hm;
    [|vm_compute; reflexivity].
  exact Hm.
Defined.
