(* ===== verification/JobScheduler.v ===== *)
(** The job scheduler ([crates/uhorse-scheduler/src/scheduler.rs]; the job types
    are those of [crates/uhorse-core/src/types.rs]): registration and
    cancellation of jobs, and one round of the scheduling loop.  Executors are
    closures of the embedding program; the jobs handed to them are recorded in a
    log.  [None] is a panic, which an expression with a zero step causes. *)
From S2P Require Import Prelude Json ProtocolTypes Cron.

Inductive Schedule :=
| At (time : Z)
| Every (duration_secs : Z)
| ByCron (expression : string).

Section Jobs.
Context `{JsonValue}.

Inductive JobTarget :=
| JobTool (id : string) (params : Value)
| JobPlugin (name method : string) (params : Value).

Record ScheduledJob := MkScheduledJob {
  job_id : string;
  job_name : string;
  job_schedule : Schedule;
  job_target : JobTarget;
  job_enabled : bool;
  job_next_run : option Z;
  job_last_run : option Z
}.

Definition set_next_run (n : option Z) (j : ScheduledJob) : ScheduledJob :=
  MkScheduledJob (job_id j) (job_name j) (job_schedule j) (job_target j) (job_enabled j) n
    (job_last_run j).

Record JobScheduler := MkJobScheduler {
  jobs : list ScheduledJob;
  running : bool;
  executors : gset string;
  (* the jobs handed to their executors, oldest first *)
  started : list ScheduledJob
}.

Definition JobScheduler_new : JobScheduler := MkJobScheduler [] false ∅ [].

Definition set_jobs (s : JobScheduler) (l : list ScheduledJob) : JobScheduler :=
  MkJobScheduler l (running s) (executors s) (started s).

Definition register_executor (s : JobScheduler) (id : string) : JobScheduler :=
  MkJobScheduler (jobs s) (running s) ({[ id ]} ∪ executors s) (started s).

Definition execute_job (s : JobScheduler) (j : ScheduledJob) : JobScheduler :=
  if bool_decide (job_id j ∈ executors s)
  then MkJobScheduler (jobs s) (running s) (executors s) (started s ++ [j])
  else s.

Context `{Calendar}.

(** [timestamp() as u64]. *)
Definition timestamp_u64 (t : timestamp) : Z := wrap 64 (t / nanos_per_sec).

Definition calculate_next_run (now : timestamp) (j : ScheduledJob) : option (option timestamp) :=
  match job_schedule j with
  | At time =>
      Some (dt ← from_timestamp (as_i64 time); if bool_decide (now < dt)%Z then Some dt else None)
  | Every duration_secs => Some (Some (now + seconds (as_i64 duration_secs))%Z)
  | ByCron expression =>
      match parse_cron expression with
      | None => None
      | Some (Ok schedule) => Some (Some (next_after schedule now))
      | Some (Err _) => Some None
      end
  end.

Definition schedule_job (now : timestamp) (s : JobScheduler) (j : ScheduledJob) : option JobScheduler :=
  next_run ← calculate_next_run now j;
  Some (set_jobs s (jobs s ++ [set_next_run (timestamp_u64 <$> next_run) j])).

Definition without_job (id : string) : list ScheduledJob → list ScheduledJob :=
  List.filter (λ j, negb (bool_decide (job_id j = id))).

Definition cancel_job (s : JobScheduler) (id : string) : JobScheduler * Result () SchedulerError :=
  let s' := set_jobs s (without_job id (jobs s)) in
  (s', if bool_decide (length (jobs s') < length (jobs s)) then Ok tt else Err (JobNotFound id)).

Definition get_job (s : JobScheduler) (id : string) : option ScheduledJob :=
  snd <$> list_find (λ j, job_id j = id) (jobs s).

Definition list_jobs (s : JobScheduler) : list ScheduledJob := jobs s.

(** Starting spawns the loop, whose rounds are [scheduling_round]. *)
Definition start (s : JobScheduler) : JobScheduler :=
  if running s then s else MkJobScheduler (jobs s) true (executors s) (started s).
Definition stop (s : JobScheduler) : JobScheduler :=
  MkJobScheduler (jobs s) false (executors s) (started s).
Definition is_running (s : JobScheduler) : bool := running s.

(** ** A round of the loop *)

(** What the loop does to the first job with the identifier it just ran. *)
Definition reschedule (now : timestamp) (s : JobScheduler) (id : string) : option JobScheduler :=
  match list_find (λ j, job_id j = id) (jobs s) with
  | None => Some s
  | Some (i, j) =>
      match job_schedule j with
      | At _ => Some (set_jobs s (without_job id (jobs s)))
      | Every duration_secs =>
          Some (set_jobs s (<[i := set_next_run
            (Some (timestamp_u64 (now + seconds (as_i64 duration_secs))%Z)) j]> (jobs s)))
      | ByCron expression =>
          match parse_cron expression with
          | None => None
          | Some (Ok schedule) =>
              Some (set_jobs s (<[i := set_next_run
                (Some (timestamp_u64 (next_after schedule now))) j]> (jobs s)))
          | Some (Err _) => Some s
          end
      end
  end.

(** One job of the round: [clk] is the reading of [calculate_next_run], later
    than [now], that of the round; [locked] says whether [try_write] fails. *)
Definition visit_job (now clk : timestamp) (locked : bool) (s : JobScheduler) (j : ScheduledJob)
    : option JobScheduler :=
  next_run ← calculate_next_run clk j;
  match next_run with
  | Some next_run =>
      if bool_decide (next_run ≤ now + seconds 1)%Z then
        let s1 := execute_job s j in
        if locked then Some s1 else reschedule now s1 (job_id j)
      else Some s
  | None => Some s
  end.

Fixpoint visit_jobs (now : timestamp) (clk : nat → timestamp) (locked : nat → bool) (k : nat)
    (s : JobScheduler) (l : list ScheduledJob) : option JobScheduler :=
  match l with
  | [] => Some s
  | j :: l' =>
      s' ← visit_job now (clk k) (locked k) s j;
      visit_jobs now clk locked (S k) s' l'
  end.

(** The loop visits a copy of the list of jobs. *)
Definition scheduling_round (now : timestamp) (clk : nat → timestamp) (locked : nat → bool)
    (s : JobScheduler) : option JobScheduler :=
  if running s then visit_jobs now clk locked 0 s (jobs s) else Some s.
End Jobs.

(** * Theorems

   What the scheduling loop starts: one-time jobs in the second before their
    time, and nothing else. *)

Section JobFacts.
Context `{JsonValue, Calendar}.

(** ** When a job is due *)

Lemma next_after_lower s after : (after + seconds 1 ≤ next_after s after)%Z.
Proof.
  unfold next_after. pose proof (search_match_spec s search_rounds (after + seconds 1)) as Hsp.
  destruct (search_match _ _ _) as [t|]; [destruct Hsp as (k & _ & -> & _)|];
    unfold seconds, nanos_per_sec; lia.
Qed.

(** An interval that is a positive [i64]. *)
Definition proper_interval (j : ScheduledJob) : Prop :=
  ∀ d, job_schedule j = Every d → (1 ≤ d < 2 ^ 63)%Z.

(** A one-time job whose time is in the second after [now]. *)
Definition at_due (now : timestamp) (j : ScheduledJob) : Prop :=
  ∃ time, job_schedule j = At time ∧ (now < seconds (as_i64 time) ≤ now + seconds 1)%Z.

Lemma due_at now clk j next :
  (now < clk)%Z → proper_interval j → calculate_next_run clk j = Some (Some next) →
  (next ≤ now + seconds 1)%Z → at_due now j.
Proof.
  intros Hclk Hint Hc Hle. unfold calculate_next_run in Hc. destruct (job_schedule j) as [time|d|e] eqn:Ej.
  - exists time. split; [done|]. destruct (from_timestamp (as_i64 time)) as [dt|] eqn:Ef; [|done].
    apply from_timestamp_spec in Ef. simpl in Hc. case_bool_decide; simplify_eq. lia.
  - specialize (Hint d Ej). injection Hc as <-. rewrite as_i64_small in Hle by lia.
    unfold seconds, nanos_per_sec in *. lia.
  - destruct (parse_cron e) as [[s|]|]; simplify_eq.
    pose proof (next_after_lower s clk). lia.
Qed.

(** ** What a round changes *)

(** The jobs keep their schedules: a job of the list after a step was in the
    list before, up to the time of its next run. *)
Definition keeps_jobs (s s' : JobScheduler) : Prop :=
  ∀ j, j ∈ jobs s' → ∃ n j0, j0 ∈ jobs s ∧ (j = j0 ∨ j = set_next_run n j0).

Lemma proper_kept s s' :
  keeps_jobs s s' → Forall proper_interval (jobs s) → Forall proper_interval (jobs s').
Proof.
  intros Hk Hp. rewrite Forall_forall in Hp |- *. intros j Hj.
  destruct (Hk j Hj) as (n & j0 & Hin & [->| ->]); [by apply Hp|]. intros d. by apply (Hp j0).
Qed.

Lemma keeps_set_next s i n j :
  jobs s !! i = Some j → keeps_jobs s (set_jobs s (<[i := set_next_run n j]> (jobs s))).
Proof.
  intros Hi j' [k Hk]%list_elem_of_lookup_1. simpl in Hk.
  apply list_lookup_insert_Some in Hk as [(_ & <- & _)|[_ Hk]].
  - exists n, j. split; [by eapply list_elem_of_lookup_2|by right].
  - exists None, j'. split; [by eapply list_elem_of_lookup_2|by left].
Qed.

Lemma reschedule_keeps now s id s' :
  reschedule now s id = Some s' → keeps_jobs s s' ∧ started s' = started s.
Proof.
  assert (keeps_jobs s s) as Hrefl by (intros j ?; exists None, j; auto).
  unfold reschedule. destruct (list_find _ _) as [[i j]|] eqn:Ef; [|by intros [= <-]].
  apply list_find_Some in Ef as (Hi & _ & _).
  destruct (job_schedule j) as [time|d|e].
  - intros [= <-]. split; [|done]. intros j' Hj'. simpl in Hj'. unfold without_job in Hj'.
    apply elem_of_filter_bool in Hj' as [? ?]. exists None, j'. auto.
  - intros [= <-]. split; [by apply keeps_set_next|done].
  - destruct (parse_cron e) as [[sch|]|]; intros [= <-]; [|done].
    split; [by apply keeps_set_next|done].
Qed.

Lemma visit_job_spec now clk locked s j s' :
  (now < clk)%Z → proper_interval j → visit_job now clk locked s j = Some s' →
  keeps_jobs s s' ∧ ∃ l, started s' = started s ++ l ∧ Forall (at_due now) l.
Proof.
  intros Hclk Hint. assert (keeps_jobs s s) as Hrefl by (intros j' ?; exists None, j'; auto).
  unfold visit_job. destruct (calculate_next_run clk j) as [[next|]|] eqn:Ec; simpl; [|by intros [= <-]; split; [|exists []; rewrite app_nil_r]|done].
  case_bool_decide as Hle; [|by intros [= <-]; split; [|exists []; rewrite app_nil_r]].
  pose proof (due_at now clk j next Hclk Hint Ec Hle) as Hdue.
  assert (keeps_jobs s (execute_job s j) ∧ jobs (execute_job s j) = jobs s ∧
    ∃ l, started (execute_job s j) = started s ++ l ∧ Forall (at_due now) l) as (Hk & Ej & l & El & Hl).
  { unfold execute_job. case_bool_decide; simpl; split_and!; try done.
    - exists [j]. auto.
    - exists []. by rewrite app_nil_r. }
  destruct locked; [intros [= <-]; eauto|].
  intros [Hk2 E2]%reschedule_keeps. split; [|exists l; by rewrite E2].
  intros j' Hj'. rewrite <-Ej. by apply Hk2.
Qed.

Lemma visit_jobs_spec now clk locked k s l s' :
  (∀ k, now < clk k)%Z → Forall proper_interval l → Forall proper_interval (jobs s) →
  visit_jobs now clk locked k s l = Some s' →
  Forall proper_interval (jobs s') ∧ ∃ l', started s' = started s ++ l' ∧ Forall (at_due now) l'.
Proof.
  intros Hclk Hl. revert k s. induction Hl as [|j l Hj Hl IH]; simpl; intros k s Hs.
  { intros [= <-]. split; [done|]. exists []. by rewrite app_nil_r. }
  destruct (visit_job _ _ _ _ _) as [s1|] eqn:Ev; simpl; [|done].
  apply visit_job_spec in Ev as (Hk & l1 & E1 & H1); [|done..].
  intros (Hp & l2 & E2 & H2)%IH; [|by eapply proper_kept]. split; [done|].
  exists (l1 ++ l2). rewrite E2, E1, app_assoc. split; [done|]. by apply Forall_app.
Qed.

(** ** Runs of the loop *)

Record round_clock := MkRoundClock {
  rc_now : timestamp;
  rc_clk : nat → timestamp;
  rc_locked : nat → bool
}.

Fixpoint scheduling_run (rounds : list round_clock) (s : JobScheduler) : option JobScheduler :=
  match rounds with
  | [] => Some s
  | r :: rounds' =>
      s' ← scheduling_round (rc_now r) (rc_clk r) (rc_locked r) s;
      scheduling_run rounds' s'
  end.

(** The loop computes the next run of a job afresh in every round, from a clock
    reading later than that of the round, instead of the stored one.  So no job
    with an interval of at least a second and no cron job is ever started: all
    that a run of any length starts are one-time jobs, each in a round at most a
    second before its time. *)
Theorem recurring_jobs_never_started rounds s s' :
  Forall (λ r, ∀ k, (rc_now r < rc_clk r k)%Z) rounds → Forall proper_interval (jobs s) →
  scheduling_run rounds s = Some s' →
  ∃ l, started s' = started s ++ l ∧ ∀ j, j ∈ l → ∃ r, r ∈ rounds ∧ at_due (rc_now r) j.
Proof.
  intros Hr. revert s. induction Hr as [|r rounds Hr Hrs IH]; simpl; intros s Hs.
  { intros [= <-]. exists []. split; [by rewrite app_nil_r|]. intros j. by rewrite elem_of_nil. }
  unfold scheduling_round.
  assert (∀ s1, Forall proper_interval (jobs s1) → scheduling_run rounds s1 = Some s' →
    (∃ l1, started s1 = started s ++ l1 ∧ Forall (at_due (rc_now r)) l1) →
    ∃ l, started s' = started s ++ l ∧ ∀ j, j ∈ l → ∃ r', r' ∈ r :: rounds ∧ at_due (rc_now r') j) as Hgo.
  { intros s1 Hp (l2 & E2 & H2)%IH (l1 & E1 & H1); [|done]. exists (l1 ++ l2).
    rewrite E2, E1, app_assoc. split; [done|]. rewrite Forall_forall in H1.
    intros j [Hj|Hj]%elem_of_app; [exists r; split; [left|auto]|].
    destruct (H2 j Hj) as (r' & ? & ?). exists r'. split; [by right|done]. }
  destruct (running s).
  - destruct (visit_jobs _ _ _ _ _ _) as [s1|] eqn:Ev; simpl; [|done].
    apply visit_jobs_spec in Ev as [Hp Hl]; [|done..]. intros Hrun. by apply (Hgo s1).
  - simpl. intros Hrun. apply (Hgo s); [done..|]. exists []. by rewrite app_nil_r.
Qed.
End JobFacts.

(** ** Example: a five-second job, a cron job of every minute and a one-time job
    for the second round *)
Section JobExample.
#[local] Existing Instance json_trees.
#[local] Existing Instance gregorian.

Definition demo_job (id : string) (schedule : Schedule) : ScheduledJob :=
  MkScheduledJob id id schedule (JobTool "tool" (json_string "x")) true None None.

Definition demo_scheduler : JobScheduler :=
  MkJobScheduler
    [demo_job "five" (Every 5); demo_job "cron" (ByCron "* * * * *"); demo_job "once" (At 1705305602)]
    true (list_to_set ["five"; "cron"; "once"]) [].

Definition demo_rounds : list round_clock :=
  (λ i, MkRoundClock (demo_morning + seconds i) (λ _, demo_morning + seconds i + 1)%Z (λ _, false))
    <$> [0; 1; 2; 3; 4; 5; 6]%Z.

Lemma recurring_jobs_never_started_witness :
  ∃ s', scheduling_run demo_rounds demo_scheduler = Some s' ∧ job_id <$> started s' = ["once"] ∧
    ∀ j, j ∈ started s' → ∃ r, r ∈ demo_rounds ∧ at_due (rc_now r) j.
Proof.
  assert (((λ s', job_id <$> started s') <$> scheduling_run demo_rounds demo_scheduler) = Some ["once"])
    as Hid by (vm_compute; reflexivity).
  destruct (scheduling_run demo_rounds demo_scheduler) as [s'|] eqn:E; [|discriminate Hid].
  exists s'. split; [reflexivity|]. injection Hid as Hid. split; [exact Hid|].
  destruct (recurring_jobs_never_started demo_rounds demo_scheduler s') as (l & El & Hl).
  - unfold demo_rounds. apply Forall_fmap, Forall_forall. intros i _ k. simpl. lia.
  - repeat apply Forall_cons_2; [..|apply Forall_nil_2]; intros d Hd; simpl in Hd;
      [injection Hd as Hd; subst d; split; [discriminate|reflexivity]|discriminate Hd|discriminate Hd].
  - exact E.
  - simpl in El. rewrite El. exact Hl.
Defined.
End JobExample.
