(* ===== verification/RateLimit.v ===== *)
(** Rate limiting of the gateway ([crates/uhorse-gateway/src/ratelimit]: [mod.rs],
    [global.rs], [user.rs], [endpoint.rs]): three limiters that count requests in
    fixed windows.  Times are readings of a monotonic clock, in nanoseconds; each
    method is one step, except that the global limiter's check is also split at
    its two accesses to the counter. *)
From S2P Require Import Prelude Permission.

(** ** Results and configurations *)

Inductive RateLimitResult :=
| RAllowed (remaining reset_after : Z)
| RDenied (retry_after limit : Z).

Definition is_allowed (r : RateLimitResult) : bool :=
  match r with RAllowed _ _ => true | RDenied _ _ => false end.
Definition remaining (r : RateLimitResult) : option Z :=
  match r with RAllowed n _ => Some n | RDenied _ _ => None end.
Definition retry_after (r : RateLimitResult) : option Z :=
  match r with RAllowed _ _ => None | RDenied n _ => Some n end.

Inductive RateLimitAlgorithm := FixedWindow | SlidingWindow | TokenBucket | LeakyBucket.
Definition RateLimitAlgorithm_default : RateLimitAlgorithm := SlidingWindow.

Record RateLimitConfig := MkRateLimitConfig {
  rl_algorithm : RateLimitAlgorithm;
  rl_window_size : Z;
  rl_max_requests : Z;
  rl_enabled : bool
}.
Definition RateLimitConfig_default : RateLimitConfig :=
  MkRateLimitConfig RateLimitAlgorithm_default 60 100 true.

(** [Instant::duration_since] saturates at zero. *)
Definition duration_since (now start : timestamp) : duration := Z.max 0 (now - start).

(** [window.saturating_sub(elapsed).as_secs()]. *)
Definition secs_left (window now start : Z) : Z :=
  (Z.max 0 (window - duration_since now start) / nanos_per_sec)%Z.

Definition unlimited : RateLimitResult := RAllowed u64_max 0.

(** ** The global limiter *)

Record GlobalRateLimitConfig := MkGlobalRateLimitConfig {
  gc_base : RateLimitConfig;
  gc_max_concurrent : Z;
  gc_requests_per_second : Z
}.
Definition GlobalRateLimitConfig_default : GlobalRateLimitConfig :=
  MkGlobalRateLimitConfig RateLimitConfig_default 10000 1000.

Record GlobalRateLimiter := MkGlobalRateLimiter {
  gl_config : GlobalRateLimitConfig;
  current_concurrent : Z;
  window_requests : Z;
  window_start : timestamp
}.
Definition GlobalRateLimiter_new (config : GlobalRateLimitConfig) (now : timestamp) : GlobalRateLimiter :=
  MkGlobalRateLimiter config 0 0 now.

Definition set_concurrent (g : GlobalRateLimiter) (n : Z) : GlobalRateLimiter :=
  MkGlobalRateLimiter (gl_config g) n (window_requests g) (window_start g).
Definition set_requests (g : GlobalRateLimiter) (n : Z) : GlobalRateLimiter :=
  MkGlobalRateLimiter (gl_config g) (current_concurrent g) n (window_start g).

Definition global_window (g : GlobalRateLimiter) : duration :=
  seconds (rl_window_size (gc_base (gl_config g))).
Definition global_max (g : GlobalRateLimiter) : Z := rl_max_requests (gc_base (gl_config g)).

(** The first part of [check_window]: a window that is over starts again. *)
Definition roll_window (g : GlobalRateLimiter) (now : timestamp) : GlobalRateLimiter :=
  if bool_decide (global_window g ≤ duration_since now (window_start g))%Z
  then MkGlobalRateLimiter (gl_config g) (current_concurrent g) 0 now
  else g.

(** The rest, with the count read before; [fetch_add] wraps around. *)
Definition count_request (g : GlobalRateLimiter) (now : timestamp) (requests : Z)
    : GlobalRateLimiter * RateLimitResult :=
  let reset_after := secs_left (global_window g) now (window_start g) in
  if bool_decide (global_max g ≤ requests)%Z
  then (g, RDenied (Z.max reset_after 1) (global_max g))
  else (set_requests g (wrap 64 (window_requests g + 1)),
        RAllowed (global_max g - requests - 1) reset_after).

Definition check_window (g : GlobalRateLimiter) (now : timestamp) : GlobalRateLimiter * RateLimitResult :=
  let g1 := roll_window g now in
  count_request g1 now (window_requests g1).

Definition Global_check (g : GlobalRateLimiter) (now : timestamp) : GlobalRateLimiter * RateLimitResult :=
  if negb (rl_enabled (gc_base (gl_config g))) then (g, unlimited)
  else if bool_decide (gc_max_concurrent (gl_config g) ≤ current_concurrent g)%Z
  then (g, RDenied 1 (gc_max_concurrent (gl_config g)))
  else check_window g now.

Definition start_connection (g : GlobalRateLimiter) : GlobalRateLimiter * bool :=
  let current := current_concurrent g in
  let g1 := set_concurrent g (wrap 64 (current + 1)) in
  if bool_decide (gc_max_concurrent (gl_config g) ≤ current)%Z
  then (set_concurrent g1 (wrap 64 (current_concurrent g1 - 1)), false)
  else (g1, true).

Definition end_connection (g : GlobalRateLimiter) : GlobalRateLimiter :=
  set_concurrent g (wrap 64 (current_concurrent g - 1)).

Record GlobalRateLimitStatus := MkGlobalRateLimitStatus {
  gs_current_concurrent : Z;
  gs_max_concurrent : Z;
  gs_current_requests : Z;
  gs_max_requests : Z
}.
Definition Global_status (g : GlobalRateLimiter) : GlobalRateLimitStatus :=
  MkGlobalRateLimitStatus (current_concurrent g) (gc_max_concurrent (gl_config g))
    (window_requests g) (global_max g).

(** ** The limiter of users *)

Record UserRateLimitConfig := MkUserRateLimitConfig {
  uc_base : RateLimitConfig;
  default_quota : Z;
  vip_quota : Z;
  enterprise_quota : Z
}.
Definition UserRateLimitConfig_default : UserRateLimitConfig :=
  MkUserRateLimitConfig RateLimitConfig_default 100 1000 10000.

(** The tenant and the user. *)
Record RateLimitKey := MkRateLimitKey { tenant_id : string; rk_user_id : string }.

#[export] Instance RateLimitKey_eq_dec : EqDecision RateLimitKey.
Proof. solve_decision. Defined.
#[export] Instance RateLimitKey_countable : Countable RateLimitKey.
Proof.
  refine (inj_countable' (λ k, (tenant_id k, rk_user_id k)) (λ p, MkRateLimitKey p.1 p.2) _).
  by intros [].
Defined.

Inductive UserType := DefaultUser | Vip | Enterprise.

Definition UserType_quota (t : UserType) (c : UserRateLimitConfig) : Z :=
  match t with
  | DefaultUser => default_quota c | Vip => vip_quota c | Enterprise => enterprise_quota c
  end.

Record UserQuota := MkUserQuota {
  uq_user_type : UserType;
  uq_quota : Z;
  uq_current_usage : Z;
  uq_window_start : timestamp
}.

Record UserRateLimiter := MkUserRateLimiter {
  ul_config : UserRateLimitConfig;
  quotas : gmap RateLimitKey UserQuota
}.
Definition UserRateLimiter_new (c : UserRateLimitConfig) : UserRateLimiter := MkUserRateLimiter c ∅.
Definition set_quota (l : UserRateLimiter) (k : RateLimitKey) (q : UserQuota) : UserRateLimiter :=
  MkUserRateLimiter (ul_config l) (<[k := q]> (quotas l)).

Definition user_window (l : UserRateLimiter) : duration := seconds (rl_window_size (uc_base (ul_config l))).

(** What [check] does to the quota of the key. *)
Definition use_quota (window : duration) (now : timestamp) (q : UserQuota) : UserQuota * RateLimitResult :=
  let q1 :=
    if bool_decide (window ≤ duration_since now (uq_window_start q))%Z
    then MkUserQuota (uq_user_type q) (uq_quota q) 0 now else q in
  let reset_after := secs_left window now (uq_window_start q1) in
  if bool_decide (uq_quota q1 ≤ uq_current_usage q1)%Z
  then (q1, RDenied (Z.max reset_after 1) (uq_quota q1))
  else
    let usage := (uq_current_usage q1 + 1)%Z in
    (MkUserQuota (uq_user_type q1) (uq_quota q1) usage (uq_window_start q1),
     RAllowed (uq_quota q1 - usage) reset_after).

Definition User_check (l : UserRateLimiter) (now : timestamp) (k : RateLimitKey)
    : UserRateLimiter * RateLimitResult :=
  if negb (rl_enabled (uc_base (ul_config l))) then (l, unlimited)
  else
    let q := default (MkUserQuota DefaultUser (default_quota (ul_config l)) 0 now) (quotas l !! k) in
    let '(q', r) := use_quota (user_window l) now q in
    (set_quota l k q', r).

Definition set_user_type (l : UserRateLimiter) (now : timestamp) (k : RateLimitKey) (t : UserType)
    : UserRateLimiter :=
  let quota := UserType_quota t (ul_config l) in
  set_quota l k
    match quotas l !! k with
    | Some q => MkUserQuota t quota (uq_current_usage q) (uq_window_start q)
    | None => MkUserQuota t quota 0 now
    end.

(** The remaining quota: [saturating_sub]. *)
Record UserRateLimitStatus := MkUserRateLimitStatus {
  us_user_type : UserType;
  us_quota : Z;
  us_current_usage : Z;
  us_remaining : Z
}.
Definition User_get_status (l : UserRateLimiter) (k : RateLimitKey) : option UserRateLimitStatus :=
  (λ q, MkUserRateLimitStatus (uq_user_type q) (uq_quota q) (uq_current_usage q)
          (Z.max 0 (uq_quota q - uq_current_usage q))) <$> quotas l !! k.

Definition User_reset (l : UserRateLimiter) (now : timestamp) (k : RateLimitKey) : UserRateLimiter * bool :=
  match quotas l !! k with
  | Some q => (set_quota l k (MkUserQuota (uq_user_type q) (uq_quota q) 0 now), true)
  | None => (l, false)
  end.

Definition User_cleanup_expired (l : UserRateLimiter) (now : timestamp) : UserRateLimiter :=
  MkUserRateLimiter (ul_config l)
    (map_retain (λ _ q, bool_decide (duration_since now (uq_window_start q) < user_window l * 2)%Z)
       (quotas l)).

(** ** The limiter of endpoints *)

Record EndpointLimit := MkEndpointLimit {
  el_pattern : string;
  el_method : option string;
  el_window_secs : Z;
  el_max_requests : Z;
  el_description : option string
}.
Definition EndpointLimit_new (pattern : string) (window_secs max_requests : Z) : EndpointLimit :=
  MkEndpointLimit pattern None window_secs max_requests None.
Definition EndpointLimit_default : EndpointLimit := EndpointLimit_new "/*" 60 100.
Definition EndpointLimit_with_method (l : EndpointLimit) (m : string) : EndpointLimit :=
  MkEndpointLimit (el_pattern l) (Some m) (el_window_secs l) (el_max_requests l) (el_description l).
Definition EndpointLimit_with_description (l : EndpointLimit) (d : string) : EndpointLimit :=
  MkEndpointLimit (el_pattern l) (el_method l) (el_window_secs l) (el_max_requests l) (Some d).

(** The pattern without its last byte when that is a star. *)
Fixpoint strip_final_star (s : string) : option string :=
  match s with
  | EmptyString => None
  | String "*"%char EmptyString => Some EmptyString
  | String c s' => String c <$> strip_final_star s'
  end.

Definition match_pattern (pattern path : string) : bool :=
  if bool_decide (pattern = "*") || bool_decide (pattern = path) then true
  else
    match strip_final_star pattern with
    | Some prefix => String.prefix prefix path
    | None =>
        let pattern_parts := str_split "/" pattern in
        let path_parts := str_split "/" path in
        if negb (bool_decide (length pattern_parts = length path_parts)) then false
        else forallb (λ pa : string * string,
               bool_decide (pa.1 = ":*") || String.prefix ":" pa.1 || bool_decide (pa.1 = pa.2))
               (zip pattern_parts path_parts)
    end.

Record EndpointRateLimitConfig := MkEndpointRateLimitConfig {
  ec_base : RateLimitConfig;
  default_limit : EndpointLimit
}.
Definition EndpointRateLimitConfig_default : EndpointRateLimitConfig :=
  MkEndpointRateLimitConfig RateLimitConfig_default EndpointLimit_default.

Record EndpointState := MkEndpointState {
  es_window_start : timestamp;
  es_current_requests : Z;
  es_max_requests : Z;
  es_window_secs : Z
}.

Record EndpointRateLimiter := MkEndpointRateLimiter {
  er_config : EndpointRateLimitConfig;
  limits : list EndpointLimit;
  states : gmap string EndpointState
}.
Definition EndpointRateLimiter_new (c : EndpointRateLimitConfig) : EndpointRateLimiter :=
  MkEndpointRateLimiter c [] ∅.
Definition add_limit (l : EndpointRateLimiter) (x : EndpointLimit) : EndpointRateLimiter :=
  MkEndpointRateLimiter (er_config l) (limits l ++ [x]) (states l).
Definition set_state (l : EndpointRateLimiter) (k : string) (st : EndpointState) : EndpointRateLimiter :=
  MkEndpointRateLimiter (er_config l) (limits l) (<[k := st]> (states l)).

Definition endpoint_key (method path client_id : string) : string :=
  client_id +:+ ":" +:+ method +:+ ":" +:+ path.

(** What [check] does to the state of the key under the limit that applies. *)
Definition use_endpoint (limit : EndpointLimit) (now : timestamp) (st : EndpointState)
    : EndpointState * RateLimitResult :=
  let window := seconds (el_window_secs limit) in
  let st1 :=
    if bool_decide (window ≤ duration_since now (es_window_start st))%Z
    then MkEndpointState now 0 (el_max_requests limit) (el_window_secs limit) else st in
  let reset_after := secs_left window now (es_window_start st1) in
  if bool_decide (es_max_requests st1 ≤ es_current_requests st1)%Z
  then (st1, RDenied (Z.max reset_after 1) (es_max_requests st1))
  else
    let n := (es_current_requests st1 + 1)%Z in
    (MkEndpointState (es_window_start st1) n (es_max_requests st1) (es_window_secs st1),
     RAllowed (es_max_requests st1 - n) reset_after).

Section Endpoint.
Context `{ToLowercase}.

Definition EndpointLimit_matches (l : EndpointLimit) (method path : string) : bool :=
  if match el_method l with
     | Some m => negb (bool_decide (m = "*")) && negb (bool_decide (to_lowercase m = to_lowercase method))
     | None => false
     end
  then false else match_pattern (el_pattern l) path.

Definition limit_for (l : EndpointRateLimiter) (method path : string) : EndpointLimit :=
  match list_find (λ x, EndpointLimit_matches x method path = true) (limits l) with
  | Some (_, x) => x
  | None => default_limit (er_config l)
  end.

Definition Endpoint_check (l : EndpointRateLimiter) (now : timestamp) (method path client_id : string)
    : EndpointRateLimiter * RateLimitResult :=
  if negb (rl_enabled (ec_base (er_config l))) then (l, unlimited)
  else
    let limit := limit_for l method path in
    let key := endpoint_key method path client_id in
    let st := default (MkEndpointState now 0 (el_max_requests limit) (el_window_secs limit))
                (states l !! key) in
    let '(st', r) := use_endpoint limit now st in
    (set_state l key st', r).
End Endpoint.

(** The counts and limits of a key: [saturating_sub] for the remaining ones. *)
Record EndpointStatus := MkEndpointStatus {
  ep_current_requests : Z;
  ep_max_requests : Z;
  ep_remaining : Z;
  ep_window_secs : Z
}.
Definition Endpoint_get_status (l : EndpointRateLimiter) (method path client_id : string)
    : option EndpointStatus :=
  (λ s, MkEndpointStatus (es_current_requests s) (es_max_requests s)
          (Z.max 0 (es_max_requests s - es_current_requests s)) (es_window_secs s))
    <$> states l !! endpoint_key method path client_id.

Definition Endpoint_reset (l : EndpointRateLimiter) (now : timestamp) (method path client_id : string)
    : EndpointRateLimiter * bool :=
  let key := endpoint_key method path client_id in
  match states l !! key with
  | Some s => (set_state l key (MkEndpointState now 0 (es_max_requests s) (es_window_secs s)), true)
  | None => (l, false)
  end.

(** * Theorems

   Correctness of the rate limiters: how many requests a window lets through,
    what unbalanced or concurrent calls do to the global limiter, and what the
    limiter of endpoints counts. *)

(** ** Users *)

(** A run of checks of any keys; the number of requests of one key that pass. *)
Fixpoint allowed_count (k : RateLimitKey) (calls : list (RateLimitKey * timestamp))
    (l : UserRateLimiter) : Z :=
  match calls with
  | [] => 0
  | (k', now) :: calls' =>
      let '(l', r) := User_check l now k' in
      ((if bool_decide (k' = k) && is_allowed r then 1 else 0) + allowed_count k calls' l')%Z
  end.

Definition quota_of (l : UserRateLimiter) (k : RateLimitKey) (now : timestamp) : UserQuota :=
  default (MkUserQuota DefaultUser (default_quota (ul_config l)) 0 now) (quotas l !! k).

(** What is left of a quota, for requests in a stretch of time that starts at
    [a] and is no longer than a window: the rest of the window that is running,
    and one more window if the running one began before. *)
Definition allowance (a : timestamp) (q : UserQuota) : Z :=
  (Z.max 0 (uq_quota q - uq_current_usage q)
   + if bool_decide (a ≤ uq_window_start q) then 0 else Z.max 0 (uq_quota q))%Z.

Lemma use_quota_allowance window a now q :
  (0 < window)%Z → (a ≤ now < a + window)%Z → (0 ≤ uq_current_usage q)%Z →
  let '(q', r) := use_quota window now q in
  uq_quota q' = uq_quota q ∧ (0 ≤ uq_current_usage q')%Z ∧
  ((if is_allowed r then 1 else 0) + allowance a q' ≤ allowance a q)%Z.
Proof.
  intros Hw Hn Hu. unfold use_quota, allowance, duration_since.
  case_bool_decide as Hroll; simpl; case_bool_decide as Hq; simpl; (split_and!; [done|lia|]);
    repeat case_bool_decide; simpl in *; lia.
Qed.

Lemma User_check_other l now k k' t :
  k' ≠ k → quota_of (User_check l now k').1 k t = quota_of l k t.
Proof.
  intros Hne. unfold User_check. destruct (negb _); [done|].
  destruct (use_quota _ _ _) as [q r]. unfold quota_of. simpl. by rewrite lookup_insert_ne.
Qed.

Lemma User_check_config l now k : ul_config (User_check l now k).1 = ul_config l.
Proof. unfold User_check. destruct (negb _); [done|]. by destruct (use_quota _ _ _). Qed.

(** The allowance of a key, with the quota it would get when it has none. *)
Lemma allowed_count_bound k calls a l :
  rl_enabled (uc_base (ul_config l)) = true → (0 < user_window l)%Z →
  (∀ k' t, (k', t) ∈ calls → (a ≤ t < a + user_window l)%Z) →
  (0 ≤ uq_current_usage (quota_of l k a))%Z →
  (allowed_count k calls l ≤ allowance a (quota_of l k a))%Z.
Proof.
  intros Hen. revert l Hen. induction calls as [|[k' now] calls IH]; intros l Hen Hw Ht Hu.
  { simpl. unfold allowance. case_bool_decide; lia. }
  assert (a ≤ now < a + user_window l)%Z as Hn by (apply (Ht k'); left).
  specialize (IH (User_check l now k').1). pose proof (User_check_config l now k') as Hc.
  unfold user_window in *. rewrite Hc in IH.
  specialize (IH Hen Hw (λ k2 t Hin, Ht k2 t (list_elem_of_further _ _ _ Hin))).
  cbn [allowed_count]. destruct (decide (k' = k)) as [->|Hne].
  - unfold User_check in IH |- *. rewrite Hen in IH |- *. cbn [negb] in IH |- *.
    set (q := default _ (quotas l !! k)) in *.
    pose proof (use_quota_allowance (user_window l) a now q Hw Hn) as Hstep.
    assert (allowance a q ≤ allowance a (quota_of l k a) ∧ 0 ≤ uq_current_usage q)%Z as [Hle Hq].
    { unfold q, quota_of in *. destruct (quotas l !! k); simpl in *; [done|].
      split; [|done]. unfold allowance. simpl. rewrite !bool_decide_true by lia. done. }
    specialize (Hstep Hq). destruct (use_quota _ _ _) as [q' r]. destruct Hstep as (_ & Hu' & Hb).
    unfold quota_of in IH at 1 2. simpl in IH. rewrite lookup_insert_eq in IH. simpl in IH.
    specialize (IH Hu'). rewrite bool_decide_true by done. simpl. lia.
  - destruct (User_check l now k') as [l' r] eqn:E. pose proof (User_check_other l now k k' a Hne) as Ho.
    rewrite E in Ho. simpl in *. rewrite Ho in IH. rewrite bool_decide_false by done. simpl.
    by apply IH.
Qed.

(** In any stretch of time shorter than the window a user gets at most two quotas
    through, whatever other users do; and at most one when the window that is
    running began in the stretch. *)
Theorem user_quota_respected l k calls a :
  rl_enabled (uc_base (ul_config l)) = true → (0 < user_window l)%Z →
  (∀ k' t, (k', t) ∈ calls → (a ≤ t < a + user_window l)%Z) →
  let q := quota_of l k a in
  (0 ≤ uq_current_usage q)%Z → (0 ≤ uq_quota q)%Z →
  (allowed_count k calls l ≤ 2 * uq_quota q)%Z ∧
  ((a ≤ uq_window_start q)%Z → (allowed_count k calls l ≤ uq_quota q)%Z).
Proof.
  intros Hen Hw Ht q Hu Hq. pose proof (allowed_count_bound k calls a l Hen Hw Ht Hu) as Hb.
  fold q in Hb. unfold allowance in Hb. split; [case_bool_decide; lia|]. intros Ha.
  rewrite bool_decide_true in Hb by done. lia.
Qed.

(** ** The global limiter *)

Inductive conn_op := CoStart | CoEnd.

(** Connections that are ended were started: an end needs a running one. *)
Definition conn_apply (g : GlobalRateLimiter) (op : conn_op) : GlobalRateLimiter :=
  match op with CoStart => (start_connection g).1 | CoEnd => end_connection g end.
Definition conn_step (g g' : GlobalRateLimiter) : Prop :=
  ∃ op, (op = CoEnd → (0 < current_concurrent g)%Z) ∧ g' = conn_apply g op.

(** While every connection that ends was started, the number of connections stays
    between zero and the maximum, and one more is accepted exactly below it. *)
Theorem connections_bounded config now g :
  (0 ≤ gc_max_concurrent config < u64_max)%Z →
  rtc conn_step (GlobalRateLimiter_new config now) g →
  (0 ≤ current_concurrent g ≤ gc_max_concurrent config)%Z ∧
  ((start_connection g).2 = true ↔ (current_concurrent g < gc_max_concurrent config)%Z).
Proof.
  intros Hm Hr.
  assert (gl_config g = config ∧ 0 ≤ current_concurrent g ≤ gc_max_concurrent config)%Z as [Hc Hb].
  { revert g Hr. apply rtc_ind_r; [simpl; split; [done|lia]|].
    intros g g' _ ([] & Hop & ->) [Hc Hb]; unfold u64_max in *; simpl.
    - unfold start_connection. rewrite Hc. case_bool_decide; simpl; (split; [done|]).
      + rewrite wrap_small; rewrite wrap_small; lia.
      + rewrite wrap_small; lia.
    - specialize (Hop eq_refl). split; [done|]. rewrite wrap_small; lia. }
  split; [done|]. unfold start_connection. rewrite Hc. case_bool_decide; simpl; split; (done || lia).
Qed.

(** Ending a connection that was not started wraps the counter around: from then
    on every check is denied and no connection is accepted. *)
Theorem unmatched_end_blocks g now :
  current_concurrent g = 0%Z → rl_enabled (gc_base (gl_config g)) = true →
  (0 ≤ gc_max_concurrent (gl_config g) ≤ u64_max)%Z →
  let g' := end_connection g in
  Global_check g' now = (g', RDenied 1 (gc_max_concurrent (gl_config g))) ∧
  start_connection g' = (g', false).
Proof.
  intros Hz Hen Hm g'. assert (current_concurrent g' = u64_max) as Hc.
  { unfold g', end_connection. simpl. by rewrite Hz. }
  assert (gl_config g' = gl_config g) as Hcfg by done. unfold Global_check, start_connection.
  rewrite Hcfg, Hen, Hc, bool_decide_true by lia. split; [done|].
  f_equal. unfold set_concurrent. simpl. destruct g as [cfg cc wr ws]. simpl in *. by subst.
Qed.

(** The count is read and written in two steps: two checks that both read it
    before either adds one are both allowed, although only one request is left. *)
Theorem concurrent_checks_exceed g now :
  (window_requests g + 1 = global_max g)%Z → (0 ≤ window_requests g)%Z → (global_max g < u64_max)%Z →
  let read := window_requests g in
  let '(g1, r1) := count_request g now read in
  let '(g2, r2) := count_request g1 now read in
  is_allowed r1 = true ∧ is_allowed r2 = true ∧ (window_requests g2 = global_max g + 1)%Z.
Proof.
  intros Hr H0 Hm read. unfold count_request, read, u64_max in *. rewrite bool_decide_false by lia.
  change (global_max (set_requests g (wrap 64 (window_requests g + 1)))) with (global_max g).
  rewrite bool_decide_false by lia. simpl. split_and!; [done..|].
  rewrite (wrap_small 64 (window_requests g + 1)) by lia. rewrite wrap_small; lia.
Qed.

(** ** Endpoints *)

Section EndpointFacts.
Context `{ToLowercase}.

Lemma endpoint_key_inj m c p p' : endpoint_key m p c = endpoint_key m p' c → p = p'.
Proof. unfold endpoint_key. by intros E%str_app_inj_l%str_app_inj_l%str_app_inj_l%str_app_inj_l. Qed.

Fixpoint endpoint_checks (l : EndpointRateLimiter) (method client : string)
    (calls : list (string * timestamp)) : list RateLimitResult :=
  match calls with
  | [] => []
  | (path, now) :: calls' =>
      let '(l', r) := Endpoint_check l now method path client in
      r :: endpoint_checks l' method client calls'
  end.

Lemma use_endpoint_fresh limit now :
  (0 < el_max_requests limit)%Z →
  is_allowed (use_endpoint limit now
    (MkEndpointState now 0 (el_max_requests limit) (el_window_secs limit))).2 = true.
Proof.
  intros Hm. unfold use_endpoint. repeat case_bool_decide; simpl in *; (done || lia).
Qed.

(** The limiter of endpoints counts each concrete path on its own: a client that
    never repeats a path is never denied, however many requests it makes and
    even when one limit with a path parameter or a star covers all the paths. *)
Theorem endpoint_limit_per_path l method client calls :
  NoDup calls.*1 →
  (∀ path now, (path, now) ∈ calls → states l !! endpoint_key method path client = None ∧
     (0 < el_max_requests (limit_for l method path))%Z) →
  Forall (λ r, is_allowed r = true) (endpoint_checks l method client calls).
Proof.
  intros Hnd. revert l. induction calls as [|[path now] calls IH]; simpl; intros l Hfresh; [constructor|].
  apply NoDup_cons in Hnd as [Hnin Hnd].
  destruct (Hfresh path now) as [Hn Hm]; [left|]. unfold Endpoint_check.
  destruct (negb _); [constructor; [done|]; apply IH; [done|]; intros; apply (Hfresh path0 now0); by right|].
  rewrite Hn. simpl.
  pose proof (use_endpoint_fresh (limit_for l method path) now Hm) as Ha.
  destruct (use_endpoint _ _ _) as [st r]. constructor; [done|]. apply IH; [done|].
  intros p t Hin. destruct (Hfresh p t) as [Hp Hpm]; [by right|]. split; [|done]. simpl.
  rewrite lookup_insert_ne; [done|]. intros <-%endpoint_key_inj. by apply Hnin, (list_elem_of_fmap_2 fst _ _ Hin).
Qed.
End EndpointFacts.

(** ** Examples: a quota of two in windows of one second *)

Definition demo_user_config : UserRateLimitConfig :=
  MkUserRateLimitConfig (MkRateLimitConfig FixedWindow 1 2 true) 2 2 2.
Definition demo_key : RateLimitKey := MkRateLimitKey "tenant" "user".

(** The window began at 0; two requests at its end and two at the start of the
    next one pass within a millisecond, and the bound is reached. *)
Definition demo_calls : list (RateLimitKey * timestamp) :=
  (λ t, (demo_key, t)) <$> [seconds 1 - 1; seconds 1 - 1; seconds 1; seconds 1; seconds 1]%Z.
Definition demo_limiter : UserRateLimiter :=
  set_quota (UserRateLimiter_new demo_user_config) demo_key (MkUserQuota DefaultUser 2 0 0).

Lemma user_quota_respected_witness :
  allowed_count demo_key demo_calls demo_limiter = 4%Z ∧
  (allowed_count demo_key demo_calls demo_limiter ≤ 2 * 2)%Z.
Proof.
  split; [vm_compute; reflexivity|].
  destruct (user_quota_respected demo_limiter demo_key demo_calls (seconds 1 - 1)) as [Hb _];
    [reflexivity|reflexivity| |discriminate|discriminate|exact Hb].
  intros k t Hin. unfold demo_calls in Hin. apply list_elem_of_fmap in Hin as (t' & E & Hin).
  injection E as -> ->. assert (t' = seconds 1 - 1 ∨ t' = seconds 1)%Z as [-> | ->] by set_solver.
  - change (user_window demo_limiter) with (seconds 1). unfold seconds, nanos_per_sec. lia.
  - change (user_window demo_limiter) with (seconds 1). unfold seconds, nanos_per_sec. lia.
Defined.

Definition demo_endpoint_limiter : EndpointRateLimiter :=
  add_limit (EndpointRateLimiter_new EndpointRateLimitConfig_default) (EndpointLimit_new "/users/:id" 60 1).

Lemma endpoint_limit_per_path_witness :
  let H := {| to_lowercase := ascii_lower; to_lowercase_ascii := λ s _, eq_refl |} in
  Forall (λ r, is_allowed r = true)
    (endpoint_checks demo_endpoint_limiter "GET" "client" [("/users/1", 0%Z); ("/users/2", 0%Z); ("/users/3", 0%Z)]).
Proof.
  intros H. apply (endpoint_limit_per_path (H := H)).
  - apply (bool_decide_unpack _). vm_compute. exact I.
  - intros path now Hin. split; [reflexivity|].
    assert (path = "/users/1" ∨ path = "/users/2" ∨ path = "/users/3") as [-> |[-> | ->]] by set_solver;
      vm_compute; reflexivity.
Defined.
