(* ===== verification/Queue.v ===== *)
(** The task queue and the dead letters ([crates/uhorse-queue/src/task_queue.rs],
    [dead_letter.rs]).  The payload is any type.  A handler belongs to the
    embedding program: what it answers to a task is a function of the number of
    the call and the task; the tasks given to handlers are recorded.  Publishing
    to the broker and the JSON encoding are the argument of [enqueue]. *)
From S2P Require Import Prelude Json.

(** ** Tasks *)

Inductive QueueTaskStatus := QPending | QRunning | QCompleted | QFailed | QRetrying.

#[export] Instance QueueTaskStatus_eq_dec : EqDecision QueueTaskStatus.
Proof. solve_decision. Defined.

Inductive TaskPriority := PLow | PNormal | PHigh | PCritical.
Definition TaskPriority_default : TaskPriority := PNormal.

Section Queue.
Context `{JsonValue} {T : Type}.

Record Task := MkTask {
  tk_id : string;
  tk_task_type : string;
  tk_payload : T;
  tk_priority : TaskPriority;
  tk_status : QueueTaskStatus;
  tk_retry_count : Z;
  tk_max_retries : Z;
  tk_created_at : Z;
  tk_updated_at : Z;
  tk_scheduled_at : option Z;
  tk_error : option string;
  tk_metadata : Value
}.

(** Times are milliseconds here. *)
Definition Task_new (now_ms : Z) (id task_type : string) (payload : T) : Task :=
  MkTask id task_type payload TaskPriority_default QPending 0 3 now_ms now_ms None None
    (json_object []).
Definition Task_with_priority (t : Task) (p : TaskPriority) : Task :=
  MkTask (tk_id t) (tk_task_type t) (tk_payload t) p (tk_status t) (tk_retry_count t)
    (tk_max_retries t) (tk_created_at t) (tk_updated_at t) (tk_scheduled_at t) (tk_error t)
    (tk_metadata t).
Definition Task_with_max_retries (t : Task) (n : Z) : Task :=
  MkTask (tk_id t) (tk_task_type t) (tk_payload t) (tk_priority t) (tk_status t) (tk_retry_count t)
    n (tk_created_at t) (tk_updated_at t) (tk_scheduled_at t) (tk_error t) (tk_metadata t).
Definition Task_with_schedule (t : Task) (now_ms delay_ms : Z) : Task :=
  MkTask (tk_id t) (tk_task_type t) (tk_payload t) (tk_priority t) (tk_status t) (tk_retry_count t)
    (tk_max_retries t) (tk_created_at t) (tk_updated_at t) (Some (now_ms + delay_ms)%Z) (tk_error t)
    (tk_metadata t).
Definition Task_with_metadata (t : Task) (m : Value) : Task :=
  MkTask (tk_id t) (tk_task_type t) (tk_payload t) (tk_priority t) (tk_status t) (tk_retry_count t)
    (tk_max_retries t) (tk_created_at t) (tk_updated_at t) (tk_scheduled_at t) (tk_error t) m.

(** The fields the life of a task changes. *)
Definition set_progress (t : Task) (st : QueueTaskStatus) (retries : Z) (error : option string) (now_ms : Z)
    : Task :=
  MkTask (tk_id t) (tk_task_type t) (tk_payload t) (tk_priority t) st retries (tk_max_retries t)
    (tk_created_at t) now_ms (tk_scheduled_at t) error (tk_metadata t).

Definition can_retry (t : Task) : bool := (tk_retry_count t <? tk_max_retries t)%Z.
Definition Task_start (t : Task) (now_ms : Z) : Task :=
  set_progress t QRunning (tk_retry_count t) (tk_error t) now_ms.
Definition Task_complete (t : Task) (now_ms : Z) : Task :=
  set_progress t QCompleted (tk_retry_count t) (tk_error t) now_ms.
Definition Task_fail (t : Task) (error : string) (now_ms : Z) : Task :=
  set_progress t (if can_retry t then QRetrying else QFailed) (tk_retry_count t) (Some error) now_ms.
Definition increment_retry (t : Task) (now_ms : Z) : Task :=
  set_progress t QPending (tk_retry_count t + 1) (tk_error t) now_ms.

(** ** The queue *)

Record TaskQueue := MkTaskQueue {
  tq_max_concurrent : Z;
  handlers : gset string;
  pending : list Task;
  (* the tasks given to their handlers, as they were then *)
  handled : list Task
}.
Definition TaskQueue_new (max_concurrent : Z) : TaskQueue := MkTaskQueue max_concurrent ∅ [] [].
Definition register_handler (q : TaskQueue) (task_type : string) : TaskQueue :=
  MkTaskQueue (tq_max_concurrent q) ({[ task_type ]} ∪ handlers q) (pending q) (handled q).

(** [published] is the outcome of encoding the task and publishing it. *)
Definition enqueue (q : TaskQueue) (t : Task) (published : Result () string) : TaskQueue * Result () string :=
  match published with
  | Err e => (q, Err e)
  | Ok _ => (MkTaskQueue (tq_max_concurrent q) (handlers q) (pending q ++ [t]) (handled q), Ok tt)
  end.

(** The answers of handlers: the number of the call and the task to the outcome. *)
Definition answers := nat → Task → Result () string.

(** ** [process_pending] *)

(** The variables of the loop. *)
Record loop_state := MkLoopState {
  lp_pending : list Task;
  lp_to_remove : list nat;
  lp_processed : nat;
  lp_handled : list Task
}.

Definition due (now : Z) (t : Task) : bool :=
  match tk_scheduled_at t with Some at_ => (at_ <=? now)%Z | None => true end.

(** The body of the loop at index [i], with task [t] there; [clk] is the reading
    of the updates of this round. *)
Definition process_at (answer : answers) (known : gset string) (now clk : Z) (i : nat) (t : Task)
    (s : loop_state) : loop_state :=
  if negb (bool_decide (tk_status t = QPending)) then s
  else if negb (due now t) then s
  else if negb (bool_decide (tk_task_type t ∈ known)) then
    MkLoopState (lp_pending s) (lp_to_remove s ++ [i]) (lp_processed s) (lp_handled s)
  else
    let t1 := Task_start t clk in
    match answer (length (lp_handled s)) t1 with
    | Ok _ =>
        MkLoopState (<[i := Task_complete t1 clk]> (lp_pending s)) (lp_to_remove s ++ [i])
          (S (lp_processed s)) (lp_handled s ++ [t1])
    | Err e =>
        let t2 := Task_fail t1 e clk in
        if can_retry t2 then
          MkLoopState (<[i := increment_retry t2 clk]> (lp_pending s)) (lp_to_remove s)
            (lp_processed s) (lp_handled s ++ [t1])
        else
          MkLoopState (<[i := t2]> (lp_pending s)) (lp_to_remove s ++ [i])
            (lp_processed s) (lp_handled s ++ [t1])
    end.

(** [while i < pending.len()]: the length does not change in the loop, so the
    fuel of the call, the length, is what the loop runs. *)
Fixpoint process_loop (answer : answers) (known : gset string) (now clk : Z) (fuel i : nat)
    (s : loop_state) : loop_state :=
  match fuel with
  | O => s
  | S fuel' =>
      match lp_pending s !! i with
      | None => s
      | Some t =>
          process_loop answer known now clk fuel' (S i) (process_at answer known now clk i t s)
      end
  end.

(** [for i in to_remove.into_iter().rev() { pending.remove(i); }]. *)
Definition remove_marked (to_remove : list nat) (l : list Task) : list Task :=
  foldl (λ l i, delete i l) l (rev to_remove).

Definition process_pending (answer : answers) (now clk : Z) (q : TaskQueue) : TaskQueue * nat :=
  let s := process_loop answer (handlers q) now clk (length (pending q)) 0
             (MkLoopState (pending q) [] 0 []) in
  (MkTaskQueue (tq_max_concurrent q) (handlers q) (remove_marked (lp_to_remove s) (lp_pending s))
     (handled q ++ lp_handled s), lp_processed s).

(** ** Statistics *)

Record TaskQueueStats := MkTaskQueueStats {
  pending_count : nat;
  pending_by_type : gmap string nat;
  ts_max_concurrent : Z
}.
Definition count_type (acc : gmap string nat) (t : Task) : gmap string nat :=
  <[tk_task_type t := S (default 0 (acc !! tk_task_type t))]> acc.
Definition TaskQueue_stats (q : TaskQueue) : TaskQueueStats :=
  MkTaskQueueStats (length (pending q))
    (foldl count_type ∅ (List.filter (λ t, bool_decide (tk_status t = QPending)) (pending q)))
    (tq_max_concurrent q).

(** ** Dead letters *)

Record DeadLetterEntry := MkDeadLetterEntry {
  dl_task : Task;
  dl_reason : string;
  dl_dead_lettered_at : Z;
  dl_original_error : string;
  dl_retry_attempts : Z
}.
Definition DeadLetterEntry_new (now_ms : Z) (t : Task) (reason : string) : DeadLetterEntry :=
  MkDeadLetterEntry t reason now_ms (default "" (tk_error t)) (tk_retry_count t).

Record DeadLetterQueue := MkDeadLetterQueue {
  dq_max_entries : nat;
  dq_retention_ms : Z;
  entries : list DeadLetterEntry
}.
Definition DeadLetterQueue_new (max_entries : nat) (retention_ms : Z) : DeadLetterQueue :=
  MkDeadLetterQueue max_entries retention_ms [].
Definition set_entries (d : DeadLetterQueue) (l : list DeadLetterEntry) : DeadLetterQueue :=
  MkDeadLetterQueue (dq_max_entries d) (dq_retention_ms d) l.

(** [while entries.len() >= max_entries { entries.remove(0); }]; [None] is the
    panic of [remove] on an empty vector.  Each round drops an entry, so one
    round more than there are entries is enough. *)
Fixpoint make_room (fuel max_entries : nat) (l : list DeadLetterEntry) : option (list DeadLetterEntry) :=
  match fuel with
  | O => None
  | S fuel' =>
      if (max_entries <=? length l)%nat then
        match l with [] => None | _ :: l' => make_room fuel' max_entries l' end
      else Some l
  end.

Definition dead_letter_add (d : DeadLetterQueue) (now_ms : Z) (t : Task) (reason : string)
    : option DeadLetterQueue :=
  l ← make_room (S (length (entries d))) (dq_max_entries d) (entries d);
  Some (set_entries d (l ++ [DeadLetterEntry_new now_ms t reason])).

Definition get_all (d : DeadLetterQueue) : list DeadLetterEntry := entries d.
Definition get_by_type (d : DeadLetterQueue) (task_type : string) : list DeadLetterEntry :=
  List.filter (λ e, bool_decide (tk_task_type (dl_task e) = task_type)) (entries d).
Definition find_entry (d : DeadLetterQueue) (id : string) : option (nat * DeadLetterEntry) :=
  list_find (λ e, tk_id (dl_task e) = id) (entries d).
Definition get_by_id (d : DeadLetterQueue) (id : string) : option DeadLetterEntry :=
  snd <$> find_entry d id.
Definition dead_letter_remove (d : DeadLetterQueue) (id : string) : DeadLetterQueue * bool :=
  match find_entry d id with
  | Some (pos, _) => (set_entries d (delete pos (entries d)), true)
  | None => (d, false)
  end.

(** The time of the last update stays. *)
Definition requeue (d : DeadLetterQueue) (id : string) : DeadLetterQueue * option Task :=
  match find_entry d id with
  | Some (pos, e) =>
      let t := dl_task e in
      (set_entries d (delete pos (entries d)), Some (set_progress t QPending 0 None (tk_updated_at t)))
  | None => (d, None)
  end.

Definition dead_letter_clear (d : DeadLetterQueue) : DeadLetterQueue * nat :=
  (set_entries d [], length (entries d)).

Definition purge_expired (d : DeadLetterQueue) (now_ms : Z) : DeadLetterQueue * nat :=
  let l := List.filter (λ e, (Z.max 0 (now_ms - dl_dead_lettered_at e) <? dq_retention_ms d)%Z) (entries d) in
  (set_entries d l, length (entries d) - length l).

Record DeadLetterStats := MkDeadLetterStats {
  dls_total_count : nat;
  dls_by_type : gmap string nat;
  dls_max_entries : nat
}.
Definition DeadLetter_stats (d : DeadLetterQueue) : DeadLetterStats :=
  MkDeadLetterStats (length (entries d)) (foldl count_type ∅ (dl_task <$> entries d)) (dq_max_entries d).
End Queue.

(** * Theorems

   Correctness of the task queue: a round of processing against a reference that
    takes the tasks one by one, the number of attempts of a task, and the bound of
    the dead letters. *)

Section Queue.
Context `{JsonValue} {T : Type}.
Implicit Types (t : @Task _ T) (l : list (@Task _ T)) (q : @TaskQueue _ T).

(** ** The reference: one task at a time *)

(** What a round makes of a task: what stays in the queue, whether it counts as
    processed, and what its handler was given. *)
Definition verdict (answer : answers) (known : gset string) (now clk : Z) (k : nat) t
    : option (@Task _ T) * nat * list (@Task _ T) :=
  if negb (bool_decide (tk_status t = QPending)) || negb (due now t) then (Some t, 0, [])
  else if negb (bool_decide (tk_task_type t ∈ known)) then (None, 0, [])
  else
    let t1 := Task_start t clk in
    match answer k t1 with
    | Ok _ => (None, 1, [t1])
    | Err e =>
        if can_retry t then (Some (increment_retry (Task_fail t1 e clk) clk), 0, [t1])
        else (None, 0, [t1])
    end.

Fixpoint process_each (answer : answers) (known : gset string) (now clk : Z) (k : nat) l
    : list (@Task _ T) * nat * list (@Task _ T) :=
  match l with
  | [] => ([], 0, [])
  | t :: l' =>
      let '(kept, n, given) := verdict answer known now clk k t in
      let '(l1, n1, given1) := process_each answer known now clk (k + length given) l' in
      (option_list kept ++ l1, n + n1, given ++ given1)
  end.

(** ** The loop against the reference *)

(** Increasing marks below [n]. *)
Definition marks_below (n : nat) (ms : list nat) : Prop :=
  StronglySorted lt ms ∧ Forall (λ i, i < n) ms.

Lemma marks_below_S n ms : marks_below n ms → marks_below (S n) ms.
Proof. intros [Hs Hf]. split; [done|]. eapply Forall_impl; [done|]. simpl. lia. Qed.

Lemma marks_below_snoc n ms : marks_below n ms → marks_below (S n) (ms ++ [n]).
Proof.
  intros [Hs Hf]. split.
  - apply StronglySorted_app. rewrite Forall_forall in Hf. split_and!; [|done|by repeat constructor].
    intros x y Hx ->%list_elem_of_singleton. by apply Hf.
  - apply Forall_app. split; [by apply marks_below_S|by repeat constructor].
Qed.

Lemma remove_marked_snoc ms i l : remove_marked (ms ++ [i]) l = remove_marked ms (delete i l).
Proof. unfold remove_marked. by rewrite rev_app_distr. Qed.

Lemma delete_front i l1 l2 : i < length l1 → delete i (l1 ++ l2) = delete i l1 ++ l2.
Proof.
  intros Hi. rewrite !delete_take_drop, take_app_le, drop_app_le, app_assoc by lia. done.
Qed.

Lemma remove_marked_app ms l1 l2 :
  marks_below (length l1) ms → remove_marked ms (l1 ++ l2) = remove_marked ms l1 ++ l2.
Proof.
  revert l1. induction ms as [|i ms IH] using rev_ind; intros l1 [Hs Hf]; [done|].
  apply StronglySorted_app in Hs as (Hlt & Hs & _).
  apply Forall_app in Hf as [_ [Hi _]%Forall_cons].
  rewrite !remove_marked_snoc, delete_front by done. apply IH. split; [done|].
  rewrite length_delete by (by apply lookup_lt_is_Some_2). apply Forall_forall. intros x Hx.
  specialize (Hlt x i Hx). assert (x < i) by (apply Hlt; by left). lia.
Qed.

(** One round of the loop, at the first task that is still to come. *)
Lemma process_at_verdict answer known now clk don t rest ms p hd :
  marks_below (length don) ms →
  let '(kept, n, given) := verdict answer known now clk (length hd) t in
  ∃ t' ms', process_at answer known now clk (length don) t (MkLoopState (don ++ t :: rest) ms p hd)
    = MkLoopState ((don ++ [t']) ++ rest) ms' (p + n) (hd ++ given) ∧
  marks_below (length (don ++ [t'])) ms' ∧
  remove_marked ms' (don ++ [t']) = remove_marked ms don ++ option_list kept.
Proof.
  intros Hms. unfold verdict, process_at. simpl.
  assert (∀ t', <[length don := t']> (don ++ t :: rest) = (don ++ [t']) ++ rest) as Hins.
  { intros t'. rewrite insert_app_r_alt, Nat.sub_diag by lia. by rewrite <-app_assoc. }
  assert (∀ t', length (don ++ [t']) = S (length don)) as Hlen by (intros; rewrite length_app; simpl; lia).
  assert (∀ t', marks_below (length (don ++ [t'])) ms ∧
    remove_marked ms (don ++ [t']) = remove_marked ms don ++ [t']) as Hkeep.
  { intros t'. rewrite Hlen. split; [by apply marks_below_S|by apply remove_marked_app]. }
  assert (∀ t', marks_below (length (don ++ [t'])) (ms ++ [length don]) ∧
    remove_marked (ms ++ [length don]) (don ++ [t']) = remove_marked ms don ++ []) as Hdrop.
  { intros t'. rewrite Hlen. split; [by apply marks_below_snoc|].
    by rewrite remove_marked_snoc, delete_middle, !app_nil_r. }
  assert (don ++ t :: rest = (don ++ [t]) ++ rest) as Hcons by (by rewrite <-app_assoc).
  destruct (negb (bool_decide (tk_status t = QPending))); simpl.
  { exists t, ms. rewrite Nat.add_0_r, app_nil_r, Hcons. split; [done|]. apply Hkeep. }
  destruct (negb (due now t)); simpl.
  { exists t, ms. rewrite Nat.add_0_r, app_nil_r, Hcons. split; [done|]. apply Hkeep. }
  destruct (negb (bool_decide (tk_task_type t ∈ known))).
  { exists t, (ms ++ [length don]). rewrite Nat.add_0_r, app_nil_r, Hcons. split; [done|]. apply Hdrop. }
  destruct (answer (length hd) (Task_start t clk)) as [u|e].
  { eexists _, _. rewrite Hins, Nat.add_1_r. split; [done|]. apply Hdrop. }
  change (can_retry (Task_fail (Task_start t clk) e clk)) with (can_retry t).
  destruct (can_retry t); eexists _, _; rewrite Hins, Nat.add_0_r; (split; [done|]);
    [apply Hkeep|apply Hdrop].
Qed.

Lemma process_loop_each answer known now clk rest don ms p hd :
  marks_below (length don) ms →
  let s := process_loop answer known now clk (length rest) (length don)
             (MkLoopState (don ++ rest) ms p hd) in
  let '(kept, n, given) := process_each answer known now clk (length hd) rest in
  remove_marked (lp_to_remove s) (lp_pending s) = remove_marked ms don ++ kept ∧
  lp_processed s = p + n ∧ lp_handled s = hd ++ given.
Proof.
  revert don ms p hd. induction rest as [|t rest IH]; intros don ms p hd Hms; simpl.
  { rewrite !app_nil_r, Nat.add_0_r. done. }
  rewrite list_lookup_middle by done.
  pose proof (process_at_verdict answer known now clk don t rest ms p hd Hms) as Hv.
  destruct (verdict _ _ _ _ _ t) as [[kept n] given]. destruct Hv as (t' & ms' & -> & Hms' & Hr).
  specialize (IH (don ++ [t']) ms' (p + n) (hd ++ given) Hms').
  replace (length (don ++ [t'])) with (S (length don)) in IH by (rewrite length_app; simpl; lia).
  rewrite length_app in IH.
  destruct (process_each _ _ _ _ _ rest) as [[l1 n1] given1]. destruct IH as (-> & -> & ->).
  by rewrite Hr, <-!app_assoc, Nat.add_assoc.
Qed.

Lemma process_pending_each answer now clk q :
  process_pending answer now clk q =
  let '(kept, n, given) := process_each answer (handlers q) now clk 0 (pending q) in
  (MkTaskQueue (tq_max_concurrent q) (handlers q) kept (handled q ++ given), n).
Proof.
  unfold process_pending.
  pose proof (process_loop_each answer (handlers q) now clk (pending q) [] [] 0 []) as Hp.
  simpl in Hp. destruct (process_each _ _ _ _ _ _) as [[kept n] given].
  destruct Hp as (-> & -> & ->); [|done]. split; constructor.
Qed.


(** ** Attempts *)

Definition with_id (id : string) : list (@Task _ T) → list (@Task _ T) :=
  List.filter (λ t, bool_decide (tk_id t = id)).

#[local] Arguments with_id : simpl never.

Lemma with_id_app id l1 l2 : with_id id (l1 ++ l2) = with_id id l1 ++ with_id id l2.
Proof. apply List.filter_app. Qed.

(** The verdict keeps the identifier, and an attempt uses up a retry. *)
Lemma verdict_ids answer known now clk k t :
  let '(kept, n, given) := verdict answer known now clk k t in
  (∀ id, tk_id t ≠ id → with_id id (option_list kept) = [] ∧ with_id id given = []) ∧
  with_id (tk_id t) (option_list kept) = option_list kept ∧ with_id (tk_id t) given = given ∧
  ((given = [] ∧ (kept = None ∨ kept = Some t)) ∨
   (tk_retry_count <$> given = [tk_retry_count t] ∧
    (kept = None ∨ ∃ t', kept = Some t' ∧ tk_id t' = tk_id t ∧ tk_max_retries t' = tk_max_retries t ∧
       tk_retry_count t' = (tk_retry_count t + 1)%Z ∧ (tk_retry_count t < tk_max_retries t)%Z))).
Proof.
  assert (∀ t', tk_id t' = tk_id t → (∀ id, tk_id t ≠ id → with_id id [t'] = []) ∧
    with_id (tk_id t) [t'] = [t']) as Hone.
  { intros t' E. unfold with_id. simpl. rewrite E, bool_decide_true by done. split; [|done].
    intros id Hne. by rewrite bool_decide_false by done. }
  unfold verdict.
  destruct (negb _ || negb _); simpl.
  { destruct (Hone t eq_refl) as [H1 H2]. split_and!; [|done|done|by auto]. intros id Hne.
    split; [by apply H1|done]. }
  destruct (negb _); simpl; [split_and!; auto|].
  destruct (Hone (Task_start t clk) eq_refl) as [H1 H2].
  destruct (answer k (Task_start t clk)) as [u|e]; simpl; [split_and!; auto|].
  destruct (can_retry t) eqn:Ec; simpl; [|split_and!; auto].
  destruct (Hone (increment_retry (Task_fail (Task_start t clk) e clk) clk) eq_refl) as [H3 H4].
  split_and!; [auto|done..|]. right. split; [done|]. right. apply Z.ltb_lt in Ec. by eexists.
Qed.

Lemma process_each_other answer known now clk k l id :
  with_id id l = [] →
  let '(kept, n, given) := process_each answer known now clk k l in
  with_id id kept = [] ∧ with_id id given = [].
Proof.
  revert k. induction l as [|t l IH]; intros k Hl; [done|]. simpl.
  assert (tk_id t ≠ id ∧ with_id id l = []) as [Hne Hl'].
  { unfold with_id in *. simpl in Hl. by case_bool_decide. }
  pose proof (verdict_ids answer known now clk k t) as Hv.
  destruct (verdict _ _ _ _ _ t) as [[kept n] given]. destruct Hv as [Hv _].
  specialize (IH (k + length given) Hl'). destruct (process_each _ _ _ _ _ l) as [[l1 n1] given1].
  rewrite !with_id_app. destruct (Hv id Hne) as [-> ->]. by destruct IH as [-> ->].
Qed.

(** What a round does to the only task with its identifier. *)
Lemma process_each_one answer known now clk k l t :
  with_id (tk_id t) l = [t] →
  let '(kept, n, given) := process_each answer known now clk k l in
  let kept := with_id (tk_id t) kept in
  let given := with_id (tk_id t) given in
  (given = [] ∧ (kept = [] ∨ kept = [t])) ∨
  (tk_retry_count <$> given = [tk_retry_count t] ∧
   (kept = [] ∨ ∃ t', kept = [t'] ∧ tk_id t' = tk_id t ∧ tk_max_retries t' = tk_max_retries t ∧
      tk_retry_count t' = (tk_retry_count t + 1)%Z ∧ (tk_retry_count t < tk_max_retries t)%Z)).
Proof.
  revert k. induction l as [|u l IH]; intros k Hl; [done|]. simpl.
  pose proof (verdict_ids answer known now clk k u) as Hv.
  destruct (verdict _ _ _ _ _ u) as [[kept n] given]. destruct Hv as (Hother & Hk & Hg & Hv).
  unfold with_id in Hl. simpl in Hl. case_bool_decide as Hid; fold (with_id (tk_id t) l) in Hl.
  - injection Hl as -> Hl. pose proof (process_each_other answer known now clk (k + length given) l _ Hl) as Ho.
    destruct (process_each _ _ _ _ _ l) as [[l1 n1] given1]. destruct Ho as [Ho1 Ho2].
    rewrite !with_id_app, Ho1, Ho2, Hk, Hg, !app_nil_r.
    destruct Hv as [[-> [->| ->]]|[Hr [->|(t' & -> & Ht')]]]; naive_solver.
  - specialize (IH (k + length given) Hl). destruct (process_each _ _ _ _ _ l) as [[l1 n1] given1].
    rewrite !with_id_app. by destruct (Hother _ Hid) as [-> ->].
Qed.

(** Rounds with their handlers' answers and clocks. *)
Record queue_round := MkQueueRound { qr_answer : @answers _ T; qr_now : Z; qr_clk : Z }.
Definition process_rounds (rounds : list queue_round) q : TaskQueue :=
  foldl (λ q r, (process_pending (qr_answer r) (qr_now r) (qr_clk r) q).1) q rounds.

Lemma process_rounds_cons r rounds q :
  process_rounds (r :: rounds) q =
  process_rounds rounds (process_pending (qr_answer r) (qr_now r) (qr_clk r) q).1.
Proof. done. Qed.

Lemma process_rounds_other rounds q id :
  with_id id (pending q) = [] → with_id id (handled (process_rounds rounds q)) = with_id id (handled q).
Proof.
  revert q. induction rounds as [|r rounds IH]; intros q Hp; [done|].
  rewrite process_rounds_cons, process_pending_each.
  pose proof (process_each_other (qr_answer r) (handlers q) (qr_now r) (qr_clk r) 0 _ id Hp) as Ho.
  destruct (process_each _ _ _ _ _ _) as [[kept n] given]. destruct Ho as [Hk Hg].
  rewrite IH by done. simpl. by rewrite with_id_app, Hg, app_nil_r.
Qed.

(** However often the queue is processed and whatever the handlers answer, a task
    is given to its handler at most once more than it has retries left, each time
    with one more retry on its count. *)
Theorem attempts_bounded rounds q t :
  with_id (tk_id t) (pending q) = [t] → (tk_retry_count t ≤ tk_max_retries t)%Z →
  ∃ n, (0 ≤ n ≤ tk_max_retries t - tk_retry_count t + 1)%Z ∧
    tk_retry_count <$> with_id (tk_id t) (handled (process_rounds rounds q)) =
    (tk_retry_count <$> with_id (tk_id t) (handled q)) ++ seqZ (tk_retry_count t) n.
Proof.
  revert q t. induction rounds as [|r rounds IH]; intros q t Hp Hle.
  { exists 0%Z. simpl. rewrite app_nil_r. split; [lia|done]. }
  rewrite process_rounds_cons, process_pending_each.
  pose proof (process_each_one (qr_answer r) (handlers q) (qr_now r) (qr_clk r) 0 _ t Hp) as Ho.
  destruct (process_each _ _ _ _ _ _) as [[kept n] given]. simpl in Ho |- *.
  set (q' := MkTaskQueue _ _ kept _).
  assert (with_id (tk_id t) (handled q') = with_id (tk_id t) (handled q) ++ with_id (tk_id t) given) as Hh
    by apply with_id_app.
  destruct Ho as [[Hg [Hk|Hk]]|[Hg [Hk|(t' & Hk & Hid & Hmx & Hrc & Hlt)]]].
  - exists 0%Z. split; [lia|]. rewrite process_rounds_other by done. by rewrite Hh, Hg, !app_nil_r.
  - destruct (IH q' t Hk Hle) as (m & Hm & ->). exists m. split; [done|]. by rewrite Hh, Hg, app_nil_r.
  - exists 1%Z. split; [lia|]. rewrite process_rounds_other by done. by rewrite Hh, fmap_app, Hg.
  - rewrite <-Hid in Hk. destruct (IH q' t' Hk) as (m & Hm & E); [lia|]. exists (1 + m)%Z.
    split; [lia|]. rewrite Hid in E. rewrite E, Hh, fmap_app, Hg, <-app_assoc, Hrc. f_equal.
    by rewrite (seqZ_app _ 1 m) by lia.
Qed.

(** ** Dead letters *)

Lemma make_room_spec fuel mx (l : list (@DeadLetterEntry _ T)) :
  length l < fuel →
  make_room fuel mx l = if decide (mx = 0) then None else Some (drop (length l - (mx - 1)) l).
Proof.
  revert l. induction fuel as [|fuel IH]; intros l Hl; [lia|]. simpl.
  destruct (Nat.leb_spec mx (length l)) as [Hle|Hgt].
  - destruct l as [|e l]; simpl in *; [by rewrite decide_True by lia|].
    rewrite IH by lia. case_decide; [done|]. f_equal.
    replace (S (length l) - (mx - 1)) with (S (length l - (mx - 1))) by lia. done.
  - rewrite decide_False by lia. replace (length l - (mx - 1)) with 0 by lia. done.
Qed.

(** The newest dead letters are kept: adding one drops the oldest, as many as the
    limit asks for, and never stores more than the limit; with a limit of zero
    it panics. *)
Theorem dead_letters_bounded (d : @DeadLetterQueue _ T) now t reason :
  dead_letter_add d now t reason =
  (if decide (dq_max_entries d = 0) then None
   else Some (set_entries d (drop (length (entries d) - (dq_max_entries d - 1)) (entries d)
                ++ [DeadLetterEntry_new now t reason]))) ∧
  match dead_letter_add d now t reason with
  | Some d' => length (entries d') ≤ dq_max_entries d
  | None => dq_max_entries d = 0
  end.
Proof.
  unfold dead_letter_add. rewrite make_room_spec by lia. case_decide; simpl; [done|].
  split; [done|]. rewrite length_app, length_drop. simpl. lia.
Qed.
End Queue.

(** ** Example: a task whose handler always fails *)
Section QueueExample.
#[local] Existing Instance json_trees.

Definition demo_queue_task : @Task _ nat := Task_with_max_retries (Task_new 0 "t1" "mail" 7) 2.
Definition demo_queue : @TaskQueue _ nat :=
  (enqueue (register_handler (TaskQueue_new 10) "mail") demo_queue_task (Ok tt)).1.
Definition demo_failing : list (@queue_round _ nat) :=
  replicate 5 (MkQueueRound (λ _ _, Err "refused") 1 1).

Lemma attempts_bounded_witness :
  length (handled (process_rounds demo_failing demo_queue)) = 3 ∧
  ∃ n, (0 ≤ n ≤ 3)%Z ∧
    tk_retry_count <$> with_id "t1" (handled (process_rounds demo_failing demo_queue)) = seqZ 0 n.
Proof.
  split; [vm_compute; reflexivity|].
  destruct (attempts_bounded demo_failing demo_queue demo_queue_task) as (n & Hn & E);
    [vm_compute; reflexivity|discriminate|].
  exists n. split; [exact Hn|exact E].
Defined.
End QueueExample.
