(* ===== verification/Discovery.v ===== *)
(** Service discovery ([crates/uhorse-discovery/src]: [types.rs], [error.rs],
    [registry.rs], [health.rs], [failover.rs]): instances of services, the
    registry as an interface with the in-memory registry and the client that
    works over any registry, the tracker of health checks and the failover
    manager.  The etcd and consul clients, and the HTTP request of a health
    check, are not modelled. *)
From S2P Require Import Prelude ProtocolTypes.

(** ** Types *)

Inductive Backend :=
| BEtcd (endpoints : list string) (username password ca_cert_path : option string)
| BConsul (address : string) (token datacenter : option string).
Definition Backend_default : Backend := BEtcd ["http://localhost:2379"] None None None.

Record ServiceMetadata := MkServiceMetadata {
  sm_version : option string;
  sm_weight : option Z;
  sm_tags : list string;
  sm_custom : gmap string string;
  sm_zone : option string;
  sm_environment : option string
}.
Definition ServiceMetadata_default : ServiceMetadata := MkServiceMetadata None None [] ∅ None None.

Record ServiceInstance := MkServiceInstance {
  si_id : string;
  si_name : string;
  si_address : string;
  si_port : Z;
  si_metadata : ServiceMetadata
}.
Definition ServiceInstance_new (id name address : string) (port : Z) : ServiceInstance :=
  MkServiceInstance id name address port ServiceMetadata_default.
Definition service_name : ServiceInstance → string := si_name.
Definition endpoint (i : ServiceInstance) : string := si_address i +:+ ":" +:+ display_u (si_port i).
Definition http_url (i : ServiceInstance) : string := "http://" +:+ endpoint i.
Definition https_url (i : ServiceInstance) : string := "https://" +:+ endpoint i.

Definition set_metadata (i : ServiceInstance) (m : ServiceMetadata) : ServiceInstance :=
  MkServiceInstance (si_id i) (si_name i) (si_address i) (si_port i) m.
Definition Instance_with_version (i : ServiceInstance) (v : string) : ServiceInstance :=
  let m := si_metadata i in
  set_metadata i (MkServiceMetadata (Some v) (sm_weight m) (sm_tags m) (sm_custom m) (sm_zone m)
    (sm_environment m)).
(** [weight.clamp(1, 100)]. *)
Definition Instance_with_weight (i : ServiceInstance) (w : Z) : ServiceInstance :=
  let m := si_metadata i in
  set_metadata i (MkServiceMetadata (sm_version m) (Some (Z.min 100 (Z.max 1 w))) (sm_tags m)
    (sm_custom m) (sm_zone m) (sm_environment m)).
Definition Instance_with_zone (i : ServiceInstance) (z : string) : ServiceInstance :=
  let m := si_metadata i in
  set_metadata i (MkServiceMetadata (sm_version m) (sm_weight m) (sm_tags m) (sm_custom m) (Some z)
    (sm_environment m)).
Definition Instance_with_tag (i : ServiceInstance) (t : string) : ServiceInstance :=
  let m := si_metadata i in
  set_metadata i (MkServiceMetadata (sm_version m) (sm_weight m) (sm_tags m ++ [t]) (sm_custom m)
    (sm_zone m) (sm_environment m)).
Definition Instance_with_custom (i : ServiceInstance) (k v : string) : ServiceInstance :=
  let m := si_metadata i in
  set_metadata i (MkServiceMetadata (sm_version m) (sm_weight m) (sm_tags m)
    (<[ k := v ]> (sm_custom m)) (sm_zone m) (sm_environment m)).

Inductive HealthStatus := Healthy | Unhealthy | HealthUnknown.
#[export] Instance HealthStatus_eq_dec : EqDecision HealthStatus.
Proof. solve_decision. Defined.
Definition HealthStatus_default : HealthStatus := HealthUnknown.

Record HealthCheckConfig := MkHealthCheckConfig {
  hc_path : string;
  hc_interval_secs : Z;
  hc_timeout_secs : Z;
  hc_failure_threshold : Z;
  hc_success_threshold : Z;
  hc_ttl_secs : option Z
}.
Definition HealthCheckConfig_default : HealthCheckConfig :=
  MkHealthCheckConfig "/health" 10 5 3 1 (Some 30%Z).

Record RegistrationOptions := MkRegistrationOptions {
  ro_ttl_secs : Z;
  ro_health_check : option HealthCheckConfig;
  ro_overwrite : bool
}.
Definition RegistrationOptions_default : RegistrationOptions :=
  MkRegistrationOptions 30 (Some HealthCheckConfig_default) false.

Inductive DiscoveryError :=
| DConsul (m : string) | DServiceNotFound (m : string) | DRegistrationFailed (m : string)
| DDeregistrationFailed (m : string) | DHealthCheckFailed (m : string) | DConnectionError (m : string)
| DTimeout (m : string) | DConfig (m : string) | DIo (m : string) | DSerialization (m : string)
| DParse (m : string) | DNotImplemented (m : string) | DNoHealthyInstances (m : string).
Abbreviation DiscoveryResult T := (Result T DiscoveryError).

(** ** The registry interface and its client *)

Class ServiceRegistry (R : Type) := {
  reg_register : R → ServiceInstance → RegistrationOptions → R * DiscoveryResult unit;
  reg_deregister : R → string → string → R * DiscoveryResult unit;
  reg_discover : R → string → DiscoveryResult (list ServiceInstance);
  reg_discover_instance : R → string → string → DiscoveryResult (option ServiceInstance);
  reg_list_services : R → DiscoveryResult (list string);
  reg_service_exists : R → string → DiscoveryResult bool;
  reg_heartbeat : R → string → string → R * DiscoveryResult unit
}.

Record DiscoveryClient (R : Type) := from_registry { registry : R }.
Arguments from_registry {R} registry.
Arguments registry {R} _.

Section Client.
Context {R : Type} `{ServiceRegistry R}.
Implicit Types c : DiscoveryClient R.

Definition with_registry {A} (r : R * A) : DiscoveryClient R * A := (from_registry r.1, r.2).
Definition client_register c (i : ServiceInstance) : DiscoveryClient R * DiscoveryResult unit :=
  with_registry (reg_register (registry c) i RegistrationOptions_default).
Definition client_register_with_options c (i : ServiceInstance) (o : RegistrationOptions)
    : DiscoveryClient R * DiscoveryResult unit := with_registry (reg_register (registry c) i o).
Definition client_deregister c (name id : string) : DiscoveryClient R * DiscoveryResult unit :=
  with_registry (reg_deregister (registry c) name id).
Definition client_discover c (name : string) : DiscoveryResult (list ServiceInstance) :=
  reg_discover (registry c) name.
Definition client_discover_instance c (name id : string) : DiscoveryResult (option ServiceInstance) :=
  reg_discover_instance (registry c) name id.
Definition client_list_services c : DiscoveryResult (list string) := reg_list_services (registry c).
Definition client_service_exists c (name : string) : DiscoveryResult bool :=
  reg_service_exists (registry c) name.
Definition client_heartbeat c (name id : string) : DiscoveryClient R * DiscoveryResult unit :=
  with_registry (reg_heartbeat (registry c) name id).
End Client.

(** ** The in-memory registry *)

Abbreviation InMemoryRegistry := (gmap string (list ServiceInstance)).
Definition InMemoryRegistry_new : InMemoryRegistry := ∅.

Definition find_instance (id : string) (l : list ServiceInstance) : option ServiceInstance :=
  List.find (λ i, bool_decide (si_id i = id)) l.

(** The first instance with the identifier is replaced; none: appended. *)
Fixpoint replace_or_push (i : ServiceInstance) (l : list ServiceInstance) : list ServiceInstance :=
  match l with
  | [] => [i]
  | j :: l' => if bool_decide (si_id j = si_id i) then i :: l' else j :: replace_or_push i l'
  end.

Definition InMemory_register (services : InMemoryRegistry) (i : ServiceInstance)
    (_ : RegistrationOptions) : InMemoryRegistry * DiscoveryResult unit :=
  (<[ si_name i := replace_or_push i (default [] (services !! si_name i)) ]> services, Ok tt).

Definition InMemory_deregister (services : InMemoryRegistry) (name id : string)
    : InMemoryRegistry * DiscoveryResult unit :=
  match services !! name with
  | Some instances =>
      match List.filter (λ i, negb (bool_decide (si_id i = id))) instances with
      | [] => (delete name services, Ok tt)
      | kept => (<[ name := kept ]> services, Ok tt)
      end
  | None => (services, Ok tt)
  end.

Definition InMemory_discover (services : InMemoryRegistry) (name : string)
    : DiscoveryResult (list ServiceInstance) := Ok (default [] (services !! name)).
Definition InMemory_discover_instance (services : InMemoryRegistry) (name id : string)
    : DiscoveryResult (option ServiceInstance) :=
  Ok (services !! name ≫= find_instance id).
Definition InMemory_list_services `{HashOrder} (services : InMemoryRegistry)
    : DiscoveryResult (list string) := Ok (hash_keys services).
Definition InMemory_service_exists (services : InMemoryRegistry) (name : string)
    : DiscoveryResult bool := Ok (bool_decide (is_Some (services !! name))).
Definition InMemory_heartbeat (services : InMemoryRegistry) (_ _ : string)
    : InMemoryRegistry * DiscoveryResult unit := (services, Ok tt).

#[export] Instance InMemoryRegistry_registry `{HashOrder} : ServiceRegistry InMemoryRegistry := {|
  reg_register := InMemory_register;
  reg_deregister := InMemory_deregister;
  reg_discover := InMemory_discover;
  reg_discover_instance := InMemory_discover_instance;
  reg_list_services := InMemory_list_services;
  reg_service_exists := InMemory_service_exists;
  reg_heartbeat := InMemory_heartbeat
|}.
Definition in_memory : DiscoveryClient InMemoryRegistry := from_registry InMemoryRegistry_new.

(** ** Health *)

Record HealthTracker := MkHealthTracker {
  ht_consecutive_failures : Z;
  ht_consecutive_successes : Z;
  ht_current_status : HealthStatus
}.
Definition HealthTracker_new : HealthTracker := MkHealthTracker 0 0 HealthStatus_default.

Definition HealthTracker_update (t : HealthTracker) (is_healthy : bool) (c : HealthCheckConfig)
    : HealthTracker :=
  if is_healthy then
    let n := wrap 32 (ht_consecutive_successes t + 1) in
    MkHealthTracker 0 n
      (if bool_decide (hc_success_threshold c ≤ n)%Z then Healthy else ht_current_status t)
  else
    let n := wrap 32 (ht_consecutive_failures t + 1) in
    MkHealthTracker n 0
      (if bool_decide (hc_failure_threshold c ≤ n)%Z then Unhealthy else ht_current_status t).
Definition HealthTracker_status : HealthTracker → HealthStatus := ht_current_status.
Definition HealthTracker_reset (_ : HealthTracker) : HealthTracker := MkHealthTracker 0 0 HealthUnknown.

Record HealthCheckResult := MkHealthCheckResult {
  hr_instance_id : string;
  hr_status : HealthStatus;
  hr_timestamp : Z;
  hr_error : option string;
  hr_response_time_ms : option Z
}.

(** What the HTTP client reports: whether the status is a success and its text,
    or the text of an error. *)
Definition HttpOutcome : Type := (bool * string) + string.
Definition HealthChecker_url (c : HealthCheckConfig) (i : ServiceInstance) : string :=
  http_url i +:+ hc_path c.
Definition HealthChecker_check (i : ServiceInstance) (outcome : HttpOutcome) (elapsed_ms now : Z)
    : HealthCheckResult :=
  match outcome with
  | inl (success, text) =>
      MkHealthCheckResult (si_id i) (if success then Healthy else Unhealthy) now
        (if success then None else Some ("HTTP " +:+ text)) (Some elapsed_ms)
  | inr text => MkHealthCheckResult (si_id i) Unhealthy now (Some text) (Some elapsed_ms)
  end.
(** The check of a build without the HTTP client. *)
Definition HealthChecker_check_stub (i : ServiceInstance) (now : Z) : HealthCheckResult :=
  MkHealthCheckResult (si_id i) HealthUnknown now (Some "health-check feature not enabled") None.

(** ** Failover *)

Inductive FailoverStrategy := FsAutomatic | FsManual | FsPriority.
Inductive FailoverStatus := FoHealthy | FoDegraded | FoFailingOver | FoFailedOver | FoRecovering.
#[export] Instance FailoverStatus_eq_dec : EqDecision FailoverStatus.
Proof. solve_decision. Defined.
Inductive FailureType :=
| FtHealthCheckFailed | FtConnectionTimeout | FtServiceUnavailable | FtResourceExhausted
| FtNetworkPartition | FtUnknown.

Record FailureRecord := MkFailureRecord {
  fr_id : string;
  fr_instance_id : string;
  fr_service_name : string;
  fr_failure_type : FailureType;
  fr_occurred_at : timestamp;
  fr_recovered_at : option timestamp;
  fr_description : string
}.
Definition FailureRecord_new (uuid instance service : string) (t : FailureType) (description : string)
    (now : timestamp) : FailureRecord :=
  MkFailureRecord uuid instance service t now None description.

Record FailoverConfig := MkFailoverConfig {
  fc_strategy : FailoverStrategy;
  fc_max_retries : Z;
  fc_retry_interval_ms : Z;
  fc_detection_timeout_secs : Z;
  fc_recovery_wait_secs : Z;
  fc_auto_recovery : bool
}.
Definition FailoverConfig_default : FailoverConfig := MkFailoverConfig FsAutomatic 3 1000 30 60 true.

Record FailoverRecord := MkFailoverRecord {
  fo_id : string;
  fo_service_name : string;
  fo_source_instance_id : string;
  fo_target_instance_id : option string;
  fo_status : FailoverStatus;
  fo_started_at : timestamp;
  fo_completed_at : option timestamp;
  fo_failure_reason : option string;
  fo_retry_count : Z
}.
Definition FailoverRecord_new (uuid service source : string) (now : timestamp) : FailoverRecord :=
  MkFailoverRecord uuid service source None FoFailingOver now None None 0.
(** [num_seconds() as u64]: truncation towards zero, then two's complement. *)
Definition FailoverRecord_duration_secs (r : FailoverRecord) : option Z :=
  (λ c, wrap 64 (Z.quot (c - fo_started_at r) nanos_per_sec)) <$> fo_completed_at r.

Record FailoverManager := MkFailoverManager {
  fm_config : FailoverConfig;
  fm_records : list FailoverRecord;
  fm_failures : list FailureRecord;
  fm_service_status : gmap string FailoverStatus
}.
Definition FailoverManager_new (c : FailoverConfig) : FailoverManager := MkFailoverManager c [] [] ∅.

Definition detect_failure (m : FailoverManager) (uuid : string) (now : timestamp) (i : ServiceInstance)
    (t : FailureType) (description : string) : FailoverManager * DiscoveryResult FailureRecord :=
  let record := FailureRecord_new uuid (si_id i) (service_name i) t description now in
  (MkFailoverManager (fm_config m) (fm_records m) (fm_failures m ++ [record])
     (<[ si_id i := FoDegraded ]> (fm_service_status m)), Ok record).

(** [min_by_key] on identifiers: the first of the least ones. *)
Fixpoint min_by_id (l : list ServiceInstance) : option ServiceInstance :=
  match l with
  | [] => None
  | i :: l' =>
      match min_by_id l' with
      | Some j => Some (if str_leb (si_id i) (si_id j) then i else j)
      | None => Some i
      end
  end.

Definition failover_target (s : FailoverStrategy) (healthy : list ServiceInstance)
    : option ServiceInstance :=
  match s with FsAutomatic | FsManual => head healthy | FsPriority => min_by_id healthy end.

(** [now] is the clock when the record is made and [done] when it is completed. *)
Definition execute_failover (m : FailoverManager) (uuid : string) (now done : timestamp)
    (service failed : string) (healthy : list ServiceInstance)
    : FailoverManager * DiscoveryResult FailoverRecord :=
  match healthy with
  | [] => (m, Err (DNoHealthyInstances service))
  | _ =>
      let record := FailoverRecord_new uuid service failed now in
      match failover_target (fc_strategy (fm_config m)) healthy with
      | Some t =>
          let record' := MkFailoverRecord uuid service failed (Some (si_id t)) FoFailedOver now
                           (Some done) None 0 in
          (MkFailoverManager (fm_config m) (fm_records m ++ [record']) (fm_failures m)
             (<[ si_id t := FoHealthy ]> (<[ failed := FoFailedOver ]> (fm_service_status m))),
           Ok record')
      | None =>
          let record' := MkFailoverRecord uuid service failed None FoDegraded now None
                           (Some "No healthy instances available") 0 in
          (MkFailoverManager (fm_config m) (fm_records m ++ [record']) (fm_failures m)
             (fm_service_status m), Ok record')
      end
  end.

Definition mark_recovered (id : string) (now : timestamp) (f : FailureRecord) : FailureRecord :=
  if bool_decide (fr_instance_id f = id ∧ fr_recovered_at f = None) then
    MkFailureRecord (fr_id f) (fr_instance_id f) (fr_service_name f) (fr_failure_type f)
      (fr_occurred_at f) (Some now) (fr_description f)
  else f.

Definition recover_service (m : FailoverManager) (now : timestamp) (id service : string)
    : FailoverManager * DiscoveryResult bool :=
  match fm_service_status m !! id with
  | Some _ =>
      (MkFailoverManager (fm_config m) (fm_records m) (mark_recovered id now <$> fm_failures m)
         (<[ id := FoHealthy ]> (fm_service_status m)), Ok true)
  | None => (m, Ok false)
  end.

Definition get_service_status (m : FailoverManager) (id : string) : option FailoverStatus :=
  fm_service_status m !! id.
Definition Failover_get_record (m : FailoverManager) (id : string) : option FailoverRecord :=
  List.find (λ r, bool_decide (fo_id r = id)) (fm_records m).
Definition list_records : FailoverManager → list FailoverRecord := fm_records.
Definition list_failures : FailoverManager → list FailureRecord := fm_failures.

Record FailoverStats := MkFailoverStats {
  fs_total_failovers : Z; fs_successful_failovers : Z; fs_in_progress_failovers : Z;
  fs_total_failures : Z; fs_active_failures : Z; fs_degraded_services : Z;
  fs_recovering_services : Z; fs_healthy_services : Z
}.
Definition count_status (s : FailoverStatus) (l : list FailoverRecord) : Z :=
  zlen (List.filter (λ r, bool_decide (fo_status r = s)) l).
Definition Failover_stats (m : FailoverManager) : FailoverStats :=
  MkFailoverStats (zlen (fm_records m)) (count_status FoFailedOver (fm_records m))
    (count_status FoFailingOver (fm_records m)) (zlen (fm_failures m))
    (zlen (List.filter (λ f, bool_decide (fr_recovered_at f = None)) (fm_failures m)))
    (count_status FoDegraded (fm_records m)) (count_status FoRecovering (fm_records m))
    (Z.of_nat (size (map_retain (λ _ s, bool_decide (s = FoHealthy)) (fm_service_status m)))).
