(* ===== verification/DiscoveryFacts.v ===== *)
(** Correctness of service discovery: the in-memory registry refines a map from
    service and identifier to instance, a client works over any registry that
    does, the health tracker against its history, and what failover records. *)
From S2P Require Import Prelude ProtocolTypes Discovery.

(** ** Lists of instances *)

Lemma find_instance_Some id l i : find_instance id l = Some i → i ∈ l ∧ si_id i = id.
Proof. unfold find_instance. intros [Hi Hb]%find_some. bool_prop. by rewrite list_elem_of_In. Qed.

Lemma find_instance_None id l : find_instance id l = None ↔ id ∉ si_id <$> l.
Proof.
  unfold find_instance. induction l as [|j l IH]; simpl; [set_solver|].
  case_bool_decide; [set_solver|]. rewrite IH. set_solver.
Qed.

Lemma find_replace i l id :
  find_instance id (replace_or_push i l) =
  if decide (id = si_id i) then Some i else find_instance id l.
Proof.
  unfold find_instance. induction l as [|j l IH]; simpl.
  - case_bool_decide; case_decide; naive_solver.
  - repeat (case_bool_decide || case_decide); simpl;
      repeat (case_bool_decide || case_decide); naive_solver.
Qed.

Lemma find_filter id id' l :
  find_instance id (List.filter (λ i, negb (bool_decide (si_id i = id'))) l) =
  if decide (id = id') then None else find_instance id l.
Proof.
  unfold find_instance. induction l as [|j l IH]; simpl; [by case_decide|].
  repeat (case_bool_decide || case_decide); simpl; rewrite ?bool_decide_true, ?bool_decide_false by done;
    repeat (case_bool_decide || case_decide); naive_solver.
Qed.

Lemma replace_nonempty i l : replace_or_push i l ≠ [].
Proof. destruct l; simpl; [done|]. by case_bool_decide. Qed.

Lemma find_instance_exists l : l ≠ [] → ∃ id, is_Some (find_instance id l).
Proof.
  destruct l as [|i l]; [done|]. intros _. exists (si_id i). unfold find_instance. simpl.
  rewrite bool_decide_true by done. by eexists.
Qed.

(** ** The registry as a map *)

(** What a registry promises: an instance is found under its service and its
    identifier until it is deregistered, and the services are those that have
    one. *)
Abbreviation Directory := (gmap (string * string) ServiceInstance).

Definition dir_register (d : Directory) (i : ServiceInstance) : Directory :=
  <[ (si_name i, si_id i) := i ]> d.
Definition dir_deregister (d : Directory) (name id : string) : Directory := delete (name, id) d.

Inductive registry_op :=
| OpRegister (i : ServiceInstance) (o : RegistrationOptions)
| OpDeregister (name id : string)
| OpHeartbeat (name id : string).


(** Agreement of the answers of a registry with a directory. *)
Definition answers {R} `{ServiceRegistry R} (r : R) (d : Directory) : Prop :=
  (∀ name id, reg_discover_instance r name id = Ok (d !! (name, id))) ∧
  (∀ name, ∃ l, reg_discover r name = Ok l ∧ ∀ id, find_instance id l = d !! (name, id)) ∧
  (∀ name, ∃ b, reg_service_exists r name = Ok b ∧
     (b = true ↔ ∃ id, is_Some (d !! (name, id)))) ∧
  (∃ l, reg_list_services r = Ok l ∧ NoDup l ∧
     ∀ name, name ∈ l ↔ ∃ id, is_Some (d !! (name, id))).

(** The law of a registry: there is a relation to directories that implies the
    agreement of the answers and that every operation keeps, successfully. *)
Class RegistryLaws (R : Type) `{ServiceRegistry R} := {
  represents : R → Directory → Prop;
  represents_answers r d : represents r d → answers r d;
  represents_register r d i o : represents r d →
    ∃ r', reg_register r i o = (r', Ok tt) ∧ represents r' (dir_register d i);
  represents_deregister r d name id : represents r d →
    ∃ r', reg_deregister r name id = (r', Ok tt) ∧ represents r' (dir_deregister d name id);
  represents_heartbeat r d name id : represents r d →
    ∃ r', reg_heartbeat r name id = (r', Ok tt) ∧ represents r' d
}.

Section Client.
Context {R : Type} `{RegistryLaws R}.

Definition client_op (c : DiscoveryClient R) (op : registry_op) : DiscoveryClient R * DiscoveryResult unit :=
  match op with
  | OpRegister i o => client_register_with_options c i o
  | OpDeregister name id => client_deregister c name id
  | OpHeartbeat name id => client_heartbeat c name id
  end.

Fixpoint client_run (c : DiscoveryClient R) (ops : list registry_op)
    : DiscoveryClient R * list (DiscoveryResult unit) :=
  match ops with
  | [] => (c, [])
  | op :: ops' =>
      let '(c1, r) := client_op c op in
      let '(c2, rs) := client_run c1 ops' in (c2, r :: rs)
  end.


End Client.

(** ** The in-memory registry *)

Section InMemory.
Context `{HashOrder}.
Implicit Types m : InMemoryRegistry.

(** No service has an empty list, and the instances found are those of the
    directory. *)
Definition mem_represents m (d : Directory) : Prop :=
  (∀ name l, m !! name = Some l → l ≠ []) ∧
  ∀ name id, (m !! name ≫= find_instance id) = d !! (name, id).

Lemma mem_found m d name id :
  mem_represents m d → find_instance id (default [] (m !! name)) = d !! (name, id).
Proof. intros [_ Hf]. rewrite <-Hf. by destruct (m !! name). Qed.

Lemma mem_service m d name :
  mem_represents m d → is_Some (m !! name) ↔ ∃ id, is_Some (d !! (name, id)).
Proof.
  intros [Hn Hf]. split.
  - intros [l Hl]. destruct (find_instance_exists l (Hn _ _ Hl)) as [id Hid]. exists id.
    by rewrite <-Hf, Hl.
  - intros [id Hid]. rewrite <-Hf in Hid. destruct (m !! name); [by eexists|by destruct Hid].
Qed.

Lemma mem_answers m d : mem_represents m d → answers m d.
Proof.
  intros Hr. split_and!; simpl.
  - intros name id. by rewrite <-(proj2 Hr).
  - intros name. eexists. split; [done|]. intros id. by apply mem_found.
  - intros name. eexists. split; [done|]. rewrite bool_decide_eq_true. by apply mem_service.
  - eexists. split; [done|]. split; [apply NoDup_hash_keys|]. intros name.
    rewrite elem_of_hash_keys. by apply mem_service.
Qed.

Lemma mem_register m d i o :
  mem_represents m d →
  ∃ m', InMemory_register m i o = (m', Ok tt) ∧ mem_represents m' (dir_register d i).
Proof.
  intros Hr. eexists. split; [done|]. split.
  - intros name l. destruct (decide (name = si_name i)) as [->|].
    + rewrite lookup_insert_eq. intros [= <-]. apply replace_nonempty.
    + rewrite lookup_insert_ne by done. by apply Hr.
  - intros name id. unfold dir_register. destruct (decide (name = si_name i)) as [->|].
    + rewrite lookup_insert_eq. simpl. rewrite find_replace, (mem_found _ _ _ _ Hr).
      case_decide; subst; [by rewrite lookup_insert_eq|]. rewrite lookup_insert_ne; [done|naive_solver].
    + rewrite !lookup_insert_ne by naive_solver. apply Hr.
Qed.

Lemma mem_deregister m d name id :
  mem_represents m d →
  ∃ m', InMemory_deregister m name id = (m', Ok tt) ∧ mem_represents m' (dir_deregister d name id).
Proof.
  intros Hr. unfold InMemory_deregister, dir_deregister.
  assert (∀ n i, (n, i) ≠ (name, id) → (m !! n ≫= find_instance i) = delete (name, id) d !! (n, i)) as Hne.
  { intros n i Hn. rewrite lookup_delete_ne by done. apply Hr. }
  destruct (m !! name) as [l|] eqn:El; last first.
  { eexists. split; [done|]. split; [apply Hr|]. intros n i.
    destruct (decide ((n, i) = (name, id))) as [[= -> ->]|]; [|by apply Hne].
    by rewrite El, lookup_delete_eq. }
  pose proof (λ i, find_filter i id l) as Hff.
  destruct (List.filter _ l) as [|k ks] eqn:Ek; (eexists; split; [done|]; split);
    intros n; (destruct (decide (n = name)) as [->|Hn];
      [rewrite ?lookup_delete_eq, ?lookup_insert_eq|rewrite ?lookup_delete_ne, ?lookup_insert_ne by done]).
  - done.
  - apply Hr.
  - intros i. simpl. specialize (Hff i). case_decide as Hi; [by subst; rewrite lookup_delete_eq|].
    rewrite <-Hne by naive_solver. by rewrite El.
  - intros i. apply Hne. naive_solver.
  - by intros ? [= <-].
  - apply Hr.
  - intros i. transitivity (find_instance i (k :: ks)); [done|]. rewrite Hff. case_decide as Hi; [by subst; rewrite lookup_delete_eq|].
    rewrite <-Hne by naive_solver. by rewrite El.
  - intros i. apply Hne. naive_solver.
Qed.

#[export] Instance InMemoryRegistry_laws : RegistryLaws InMemoryRegistry := {|
  represents := mem_represents;
  represents_answers := mem_answers;
  represents_register := mem_register;
  represents_deregister := mem_deregister;
  represents_heartbeat m d name id Hr := ex_intro _ m (conj eq_refl Hr)
|}.

End InMemory.

Lemma in_memory_refines_directory_example :
  let i := ServiceInstance_new "a" "hub" "10.0.0.1" 80 in
  let j := ServiceInstance_new "a" "hub" "10.0.0.2" 80 in
  let ops := [OpRegister i RegistrationOptions_default; OpRegister j RegistrationOptions_default] in
  InMemory_discover_instance (registry (@client_run _ (@InMemoryRegistry_registry canonical_order)
    in_memory ops).1) "hub" "a" = Ok (Some j).
Proof. reflexivity. Qed.

(** ** The tracker against the history of checks *)

Section Tracker.
Context (c : HealthCheckConfig).

(** The state after the checks of a history, oldest first. *)
Definition tracker_after (h : list bool) : HealthTracker :=
  foldl (λ t b, HealthTracker_update t b c) HealthTracker_new h.

Definition threshold (b : bool) : nat :=
  Z.to_nat (if b then hc_success_threshold c else hc_failure_threshold c).
Definition verdict (b : bool) : HealthStatus := if b then Healthy else Unhealthy.
Definition streak (t : HealthTracker) (b : bool) : Z :=
  if b then ht_consecutive_successes t else ht_consecutive_failures t.

(** The checks [k], ..., [k + n - 1] of the history all ended in [b]. *)
Definition run_at (b : bool) (n k : nat) (h : list bool) : Prop :=
  ∀ i, k ≤ i < k + n → h !! i = Some b.

Lemma tracker_snoc h b : tracker_after (h ++ [b]) = HealthTracker_update (tracker_after h) b c.
Proof. unfold tracker_after. by rewrite foldl_app. Qed.

Lemma run_at_snoc b n k h x :
  run_at b n k h → run_at b n k (h ++ [x]).
Proof. intros Hr i Hi. by apply lookup_app_l_Some, Hr. Qed.

Lemma run_at_snoc_inv b n k h x :
  run_at b n k (h ++ [x]) → k + n ≤ length h → run_at b n k h.
Proof. intros Hr Hk i Hi. specialize (Hr i Hi). by rewrite lookup_app_l in Hr by lia. Qed.

Lemma run_at_bound b n k h : 0 < n → run_at b n k h → k + n ≤ length h.
Proof.
  intros Hn Hr. assert (is_Some (h !! (k + n - 1))) as ?%lookup_lt_is_Some.
  { rewrite (Hr (k + n - 1)); [done|lia]. }
  lia.
Qed.

Hypothesis Hsuccess : (1 ≤ hc_success_threshold c)%Z.
Hypothesis Hfailure : (1 ≤ hc_failure_threshold c)%Z.

Lemma threshold_pos b : 0 < threshold b.
Proof. unfold threshold. destruct b; lia. Qed.

(** The counters are the lengths of the last run. *)
Lemma streak_spec h b m :
  (Z.of_nat (length h) < 2 ^ 32)%Z →
  (0 ≤ streak (tracker_after h) b ≤ Z.of_nat (length h))%Z ∧
  ((Z.of_nat m ≤ streak (tracker_after h) b)%Z ↔ m ≤ length h ∧ run_at b m (length h - m) h).
Proof.
  revert m. induction h as [|x h IH] using rev_ind; intros m Hl.
  { unfold tracker_after, streak. simpl. split; [by destruct b|]. split.
    - intros Hm. assert (m = 0) as -> by (destruct b; simpl in Hm; lia). split; [done|]. intros i; lia.
    - intros [Hm _]. destruct b; simpl; lia. }
  rewrite length_app in *. simpl in *. rewrite tracker_snoc.
  destruct (IH 0) as [Hb _]; [lia|]. pose proof (λ m H, proj2 (IH m H)) as Hm. clear IH.
  assert (streak (HealthTracker_update (tracker_after h) x c) b =
    if decide (b = x) then (streak (tracker_after h) b + 1)%Z else 0%Z) as ->.
  { unfold HealthTracker_update, streak in *. destruct b, x; simpl in *; try done;
      apply wrap_small; lia. }
  case_decide as Hbx; [subst x|]; (split; [lia|]).
  - destruct m as [|m].
    { split; [|lia]. intros _. split; [lia|]. intros i; lia. }
    assert ((Z.of_nat (S m) ≤ streak (tracker_after h) b + 1)%Z ↔
      (Z.of_nat m ≤ streak (tracker_after h) b)%Z) as -> by lia.
    rewrite Hm by lia. replace (length h + 1 - S m) with (length h - m) by lia. split.
    + intros [Hle Hr]. split; [lia|]. intros i Hi. destruct (decide (i = length h)) as [->|].
      * by rewrite list_lookup_middle.
      * apply lookup_app_l_Some, Hr. lia.
    + intros [Hle Hr]. split; [lia|]. apply (run_at_snoc_inv _ _ _ _ b); [|lia].
      intros i Hi. apply Hr. lia.
  - split.
    + intros ?. assert (m = 0) as -> by lia. split; [lia|]. intros i; lia.
    + intros [Hle Hr]. destruct m as [|m]; [done|]. specialize (Hr (length h)).
      rewrite list_lookup_middle in Hr by done. specialize (Hr ltac:(lia)). naive_solver.
Qed.

(** The tracker reports healthy exactly when the latest run of checks that
    reached its threshold is one of successes, and unhealthy when it is one of
    failures. *)
Theorem tracker_reports_last_run h b :
  (Z.of_nat (length h) < 2 ^ 32)%Z →
  HealthTracker_status (tracker_after h) = verdict b ↔
  ∃ k, run_at b (threshold b) k h ∧ ∀ j, k ≤ j → ¬ run_at (negb b) (threshold (negb b)) j h.
Proof.
  revert b. induction h as [|x h IH] using rev_ind; intros b Hl.
  { split; [by destruct b|]. intros (k & Hk & _). pose proof (threshold_pos b).
    specialize (Hk k). rewrite lookup_nil in Hk. specialize (Hk ltac:(lia)). done. }
  pose proof (threshold_pos b) as Hb. pose proof (threshold_pos (negb b)) as Hnb.
  pose proof (streak_spec (h ++ [x]) x (threshold x) Hl) as [_ Hs].
  rewrite tracker_snoc in *. rewrite length_app in *. simpl in *.
  assert (HealthTracker_status (HealthTracker_update (tracker_after h) x c) =
    if bool_decide (Z.of_nat (threshold x) ≤ streak (HealthTracker_update (tracker_after h) x c) x)%Z
    then verdict x else HealthTracker_status (tracker_after h)) as ->.
  { unfold HealthTracker_status, HealthTracker_update, streak, threshold.
    destruct x; simpl; rewrite Z2Nat.id by lia; done. }
  case_bool_decide as Hc.
  - apply Hs in Hc as [Hle Hr]. destruct (decide (b = x)) as [->|Hbx].
    + split; [intros _|done]. eexists. split; [exact Hr|]. intros j Hj Hn.
      pose proof (run_at_bound _ _ _ _ Hnb Hn) as Hj'. rewrite length_app in Hj'. simpl in Hj'.
      specialize (Hn j). rewrite Hr in Hn by lia. specialize (Hn ltac:(lia)). by destruct x.
    + assert (x = negb b) as -> by (by destruct b, x). split; [by destruct b|].
      intros (k & Hk & Hno). exfalso. apply (Hno (length h + 1 - threshold (negb b))); [|done].
      destruct (decide (k ≤ length h + 1 - threshold (negb b))); [done|].
      pose proof (run_at_bound _ _ _ _ Hb Hk) as Hk'. rewrite length_app in Hk'. simpl in Hk'.
      specialize (Hk k). rewrite Hr in Hk by lia. specialize (Hk ltac:(lia)). by destruct b.
  - assert (∀ b' k, run_at b' (threshold b') k (h ++ [x]) ↔ run_at b' (threshold b') k h) as Heq.
    { intros b' k. split; [|apply run_at_snoc]. intros Hr. pose proof (threshold_pos b').
      pose proof (run_at_bound _ _ _ _ (threshold_pos b') Hr) as Hk. rewrite length_app in Hk.
      simpl in Hk. apply (run_at_snoc_inv _ _ _ _ x); [done|].
      destruct (decide (k + threshold b' = length h + 1)) as [Hend|]; [|lia]. exfalso. apply Hc, Hs.
      assert (b' = x) as ->.
      { pose proof (Hr (length h)) as He. rewrite list_lookup_middle in He by done.
        specialize (He ltac:(lia)). congruence. }
      split; [lia|]. by replace (length h + 1 - threshold x) with k by lia. }
    rewrite IH by lia. setoid_rewrite Heq. done.
Qed.
End Tracker.

(** Three failures, one success, then two failures: still healthy. *)
Lemma tracker_reports_last_run_witness :
  HealthTracker_status (tracker_after HealthCheckConfig_default [false; false; false; true; false; false])
    = Healthy.
Proof.
  apply (tracker_reports_last_run HealthCheckConfig_default ltac:(done) ltac:(done) _ true); [done|].
  exists 3. split.
  - intros i Hi. simpl in Hi. by assert (i = 3) as -> by (unfold threshold in Hi; simpl in Hi; lia).
  - intros j Hj Hr. change (run_at false 3 j [false; false; false; true; false; false]) in Hr.
    pose proof (run_at_bound false 3 j _ ltac:(lia) Hr) as Hb. simpl in Hb.
    assert (j = 3) as -> by lia. by specialize (Hr 3 ltac:(lia)).
Defined.

(** ** Failover *)

(** Failures, failovers and recoveries in any order. *)
Inductive failover_step : FailoverManager → FailoverManager → Prop :=
| step_detect m uuid now i t d : failover_step m (detect_failure m uuid now i t d).1
| step_failover m uuid now done service failed healthy :
    failover_step m (execute_failover m uuid now done service failed healthy).1
| step_recover m now id service : failover_step m (recover_service m now id service).1.

Lemma min_by_id_spec l i :
  min_by_id l = Some i → i ∈ l ∧ ∀ j, j ∈ l → str_leb (si_id i) (si_id j) = true.
Proof.
  revert i. induction l as [|x l IH]; simpl; intros i; [done|].
  destruct (min_by_id l) as [y|] eqn:Ey; intros [= <-].
  - destruct (IH y eq_refl) as [Hy Hm]. destruct (str_leb (si_id x) (si_id y)) eqn:Exy.
    + split; [left|]. intros j [->|Hj]%elem_of_cons; [apply str_leb_refl|]. eauto using str_leb_trans.
    + split; [by right|]. intros j [->|Hj]%elem_of_cons; [|by apply Hm].
      destruct (str_leb_total (si_id y) (si_id x)) as [?|Hx]; [done|]. congruence.
  - destruct l as [|z l]; [|simpl in Ey; by destruct (min_by_id l)].
    split; [left|]. intros j. rewrite list_elem_of_singleton. intros ->. apply str_leb_refl.
Qed.

Lemma failover_target_spec s l :
  l ≠ [] → ∃ t, failover_target s l = Some t ∧ t ∈ l ∧
    (s = FsPriority → ∀ j, j ∈ l → str_leb (si_id t) (si_id j) = true).
Proof.
  intros Hl. destruct l as [|x l]; [done|]. destruct s; simpl.
  1,2: exists x; split_and!; [done|left|done].
  destruct (min_by_id (x :: l)) as [t|] eqn:Et.
  - destruct (min_by_id_spec _ _ Et). exists t. simpl in Et. by split_and!.
  - simpl in Et. by destruct (min_by_id l).
Qed.

(** With a healthy instance a failover succeeds: it ends on one of them, the
    smallest identifier under the priority strategy, records the switch and
    marks the target healthy and the source failed over (healthy when it is its
    own target).  Without one it fails and changes nothing. *)
Theorem execute_failover_spec m uuid now done service failed healthy :
  match healthy with
  | [] => execute_failover m uuid now done service failed healthy = (m, Err (DNoHealthyInstances service))
  | _ => ∃ t m' r, execute_failover m uuid now done service failed healthy = (m', Ok r) ∧
      t ∈ healthy ∧
      (fc_strategy (fm_config m) = FsPriority → ∀ j, j ∈ healthy → str_leb (si_id t) (si_id j) = true) ∧
      fm_records m' = fm_records m ++ [r] ∧ fo_status r = FoFailedOver ∧
      fo_target_instance_id r = Some (si_id t) ∧ fm_failures m' = fm_failures m ∧
      get_service_status m' (si_id t) = Some FoHealthy ∧
      (failed ≠ si_id t → get_service_status m' failed = Some FoFailedOver) ∧
      (∀ id, id ≠ si_id t → id ≠ failed → get_service_status m' id = get_service_status m id)
  end.
Proof.
  destruct healthy as [|x l]; [done|]. destruct (failover_target_spec (fc_strategy (fm_config m)) (x :: l))
    as (t & Ht & Hin & Hmin); [done|].
  unfold execute_failover, get_service_status. rewrite Ht. exists t. eexists _, _.
  split; [done|]. split_and!; simpl; try done.
  - by simplify_map_eq.
  - intros ?. by simplify_map_eq.
  - intros id ? ?. by simplify_map_eq.
Qed.

(** Every failover that was ever recorded succeeded: the statistics report as
    many successes as failovers and never a degraded, running or recovering one,
    whatever the state of the instances. *)
Theorem failover_statistics m :
  (∃ config, rtc failover_step (FailoverManager_new config) m) →
  let s := Failover_stats m in
  fs_successful_failovers s = fs_total_failovers s ∧
  fs_degraded_services s = 0%Z ∧ fs_in_progress_failovers s = 0%Z ∧ fs_recovering_services s = 0%Z.
Proof.
  intros [config Hr].
  assert (Forall (λ r, fo_status r = FoFailedOver) (fm_records m)) as Hf.
  { revert m Hr. apply rtc_ind_r; [by constructor|]. intros m m' _ Hs Hm. destruct Hs; simpl.
    - done.
    - pose proof (execute_failover_spec m uuid now done service failed healthy) as Hs.
      destruct healthy; [by rewrite Hs|]. destruct Hs as (t & m' & r & -> & _ & _ & Hm' & ? & _).
      simpl. rewrite Hm'. apply Forall_app. split; [done|]. by constructor.
    - unfold recover_service. by case_match. }
  simpl. unfold count_status.
  assert (∀ s, List.filter (λ r, bool_decide (fo_status r = s)) (fm_records m) =
    if bool_decide (FoFailedOver = s) then fm_records m else []) as Hc.
  { intros s. induction Hf as [|r l Hr' Hf IH]; simpl; [by case_bool_decide|].
    rewrite Hr', IH. by case_bool_decide. }
  by rewrite !Hc.
Qed.

Lemma failover_statistics_witness :
  let i := ServiceInstance_new "a" "hub" "10.0.0.1" 80 in
  let m := (detect_failure (FailoverManager_new FailoverConfig_default) "u" 0 i FtConnectionTimeout "").1 in
  get_service_status m "a" = Some FoDegraded ∧ fs_degraded_services (Failover_stats m) = 0%Z.
Proof.
  intros i m. split; [reflexivity|]. apply failover_statistics. exists FailoverConfig_default.
  eapply rtc_l; [|apply rtc_refl]. apply step_detect.
Defined.

(** Recovery closes every open failure of the instance, touches no other, and
    leaves no failure of the instance open. *)
Theorem recover_service_spec m now id service :
  match get_service_status m id with
  | None => recover_service m now id service = (m, Ok false)
  | Some _ =>
      ∃ m', recover_service m now id service = (m', Ok true) ∧
        get_service_status m' id = Some FoHealthy ∧
        (∀ f, f ∈ fm_failures m' → fr_instance_id f = id → is_Some (fr_recovered_at f)) ∧
        List.filter (λ f, negb (bool_decide (fr_instance_id f = id))) (fm_failures m') =
          List.filter (λ f, negb (bool_decide (fr_instance_id f = id))) (fm_failures m) ∧
        fr_id <$> fm_failures m' = fr_id <$> fm_failures m
  end.
Proof.
  unfold get_service_status, recover_service. destruct (fm_service_status m !! id) as [st|]; [|done].
  eexists. split; [done|]. simpl. split_and!.
  - by rewrite lookup_insert_eq.
  - intros f (g & -> & _)%list_elem_of_fmap. unfold mark_recovered. case_bool_decide as Hg; simpl; [by eexists|].
    intros Hi. destruct (fr_recovered_at g); [by eexists|]. naive_solver.
  - induction (fm_failures m) as [|f l IH]; [done|]. rewrite fmap_cons. cbn [List.filter]. rewrite IH.
    unfold mark_recovered.
    repeat case_bool_decide; simpl in *; repeat case_bool_decide; naive_solver.
  - rewrite <-list_fmap_compose. apply list_fmap_ext. intros ? g _. simpl. unfold mark_recovered.
    by case_bool_decide.
Qed.
