(* ===== verification/LoadBalancer.v ===== *)
(** Load balancing of the gateway ([crates/uhorse-gateway/src/lb]: [mod.rs],
    [round_robin.rs], [weighted.rs], [least_connection.rs], [health_aware.rs]).
    The trait is a class; each balancer is an instance, and the factory returns
    one of the four.  Counters are 64-bit and wrap around. *)
From S2P Require Import Prelude Float32 Permission Discovery.

Record InstanceStats := MkInstanceStats {
  ist_active_connections : Z;
  ist_total_requests : Z;
  ist_failed_requests : Z;
  ist_avg_response_time_ms : f64;
  ist_last_updated : timestamp
}.
Definition InstanceStats_default (now : timestamp) : InstanceStats :=
  MkInstanceStats 0 0 0 f32_zero now.

Class LoadBalancer (B : Type) := {
  lb_select : B → list ServiceInstance → B * option ServiceInstance;
  lb_update_stats : B → string → InstanceStats → B;
  lb_name : B → string
}.

(** ** Round robin *)

Record RoundRobinLoadBalancer := MkRoundRobin { rr_counter : Z }.
Definition RoundRobin_new : RoundRobinLoadBalancer := MkRoundRobin 0.

(** [instances[index % instances.len()]]. *)
Definition nth_cyclic (instances : list ServiceInstance) (index : Z) : option ServiceInstance :=
  instances !! Z.to_nat (index mod zlen instances).

Definition RoundRobin_select (b : RoundRobinLoadBalancer) (instances : list ServiceInstance)
    : RoundRobinLoadBalancer * option ServiceInstance :=
  match instances with
  | [] => (b, None)
  | _ => (MkRoundRobin (wrap 64 (rr_counter b + 1)), nth_cyclic instances (rr_counter b))
  end.
Definition RoundRobin_update_stats (b : RoundRobinLoadBalancer) (_ : string) (_ : InstanceStats)
    : RoundRobinLoadBalancer := b.
#[export] Instance RoundRobin_balancer : LoadBalancer RoundRobinLoadBalancer := {|
  lb_select := RoundRobin_select;
  lb_update_stats := RoundRobin_update_stats;
  lb_name _ := "round-robin"
|}.

(** ** Weights *)

Record WeightedLoadBalancer := MkWeighted { wl_counter : Z }.
Definition Weighted_new : WeightedLoadBalancer := MkWeighted 0.
Definition get_weight (i : ServiceInstance) : Z := default 50%Z (sm_weight (si_metadata i)).
Definition total_weight (l : list ServiceInstance) : Z := foldr (λ i n, get_weight i + n)%Z 0%Z l.

(** The walk over the instances with the weight passed so far; the last one when
    the position is beyond the total. *)
Fixpoint at_position (position current : Z) (l : list ServiceInstance) : option ServiceInstance :=
  match l with
  | [] => None
  | i :: l' =>
      let current' := (current + get_weight i)%Z in
      if bool_decide (position < current')%Z then Some i else at_position position current' l'
  end.

Definition Weighted_select (b : WeightedLoadBalancer) (instances : list ServiceInstance)
    : WeightedLoadBalancer * option ServiceInstance :=
  match instances with
  | [] => (b, None)
  | _ =>
      let b' := MkWeighted (wrap 64 (wl_counter b + 1)) in
      let total := total_weight instances in
      if bool_decide (total = 0%Z) then (b', nth_cyclic instances (wl_counter b))
      else
        match at_position (wl_counter b mod total) 0 instances with
        | Some i => (b', Some i)
        | None => (b', last instances)
        end
  end.
Definition Weighted_update_stats (b : WeightedLoadBalancer) (_ : string) (_ : InstanceStats)
    : WeightedLoadBalancer := b.
#[export] Instance Weighted_balancer : LoadBalancer WeightedLoadBalancer := {|
  lb_select := Weighted_select;
  lb_update_stats := Weighted_update_stats;
  lb_name _ := "weighted"
|}.

(** ** Least connections *)

Record LeastConnectionLoadBalancer := MkLeastConnection { connections : gmap string Z }.
Definition LeastConnection_new : LeastConnectionLoadBalancer := MkLeastConnection ∅.
Definition get_connections (b : LeastConnectionLoadBalancer) (id : string) : Z :=
  default 0%Z (connections b !! id).

(** The loop over the instances, from [u32::MAX] and no selection. *)
Definition least_connected (b : LeastConnectionLoadBalancer) (instances : list ServiceInstance)
    : Z * option ServiceInstance :=
  foldl (λ acc i,
    let n := get_connections b (si_id i) in
    if bool_decide (n < acc.1)%Z then (n, Some i) else acc) (u32_max, None) instances.

Definition LeastConnection_select (b : LeastConnectionLoadBalancer) (instances : list ServiceInstance)
    : LeastConnectionLoadBalancer * option ServiceInstance :=
  match instances with
  | [] => (b, None)
  | _ =>
      let selected := (least_connected b instances).2 in
      (match selected with
       | Some i =>
           MkLeastConnection (<[ si_id i := wrap 32 (get_connections b (si_id i) + 1) ]> (connections b))
       | None => b
       end, selected)
  end.
Definition LeastConnection_update_stats (b : LeastConnectionLoadBalancer) (id : string)
    (stats : InstanceStats) : LeastConnectionLoadBalancer :=
  MkLeastConnection (<[ id := ist_active_connections stats ]> (connections b)).
#[export] Instance LeastConnection_balancer : LoadBalancer LeastConnectionLoadBalancer := {|
  lb_select := LeastConnection_select;
  lb_update_stats := LeastConnection_update_stats;
  lb_name _ := "least-connection"
|}.

(** ** Health *)

Record HealthAwareLoadBalancer := MkHealthAware {
  ha_inner : RoundRobinLoadBalancer;
  health_status : gmap string bool
}.
Definition HealthAware_new : HealthAwareLoadBalancer := MkHealthAware RoundRobin_new ∅.
Definition HealthAware_is_healthy (b : HealthAwareLoadBalancer) (id : string) : bool :=
  default true (health_status b !! id).

Definition HealthAware_select (b : HealthAwareLoadBalancer) (instances : list ServiceInstance)
    : HealthAwareLoadBalancer * option ServiceInstance :=
  match instances with
  | [] => (b, None)
  | _ =>
      match List.filter (λ i, HealthAware_is_healthy b (si_id i)) instances with
      | [] => (b, None)
      | healthy =>
          let r := RoundRobin_select (ha_inner b) healthy in
          (MkHealthAware r.1 (health_status b), r.2)
      end
  end.

Definition healthy_stats (stats : InstanceStats) : bool :=
  if bool_decide (0 < ist_total_requests stats)%Z then
    SpecFloat.SFltb (f64_div (f64_of_Z (ist_failed_requests stats)) (f64_of_Z (ist_total_requests stats)))
      (f64_div (f64_of_Z 1) (f64_of_Z 2))
  else true.
Definition HealthAware_update_stats (b : HealthAwareLoadBalancer) (id : string) (stats : InstanceStats)
    : HealthAwareLoadBalancer :=
  MkHealthAware (ha_inner b) (<[ id := healthy_stats stats ]> (health_status b)).
#[export] Instance HealthAware_balancer : LoadBalancer HealthAwareLoadBalancer := {|
  lb_select := HealthAware_select;
  lb_update_stats := HealthAware_update_stats;
  lb_name _ := "health-aware"
|}.

(** ** Strategies and the factory *)

Inductive LoadBalanceStrategy := LbRoundRobin | LbWeighted | LbHealthAware | LbLeastConnection.
#[export] Instance LoadBalanceStrategy_eq_dec : EqDecision LoadBalanceStrategy.
Proof. solve_decision. Defined.
Definition LoadBalanceStrategy_default : LoadBalanceStrategy := LbRoundRobin.

Definition LoadBalanceStrategy_display (s : LoadBalanceStrategy) : string :=
  match s with
  | LbRoundRobin => "round-robin"
  | LbWeighted => "weighted"
  | LbHealthAware => "health-aware"
  | LbLeastConnection => "least-connection"
  end.

Definition LoadBalanceStrategy_from_str `{ToLowercase} (s : string) : Result LoadBalanceStrategy string :=
  let t := to_lowercase s in
  if bool_decide (t = "round-robin" ∨ t = "roundrobin") then Ok LbRoundRobin
  else if bool_decide (t = "weighted") then Ok LbWeighted
  else if bool_decide (t = "health-aware" ∨ t = "healthaware") then Ok LbHealthAware
  else if bool_decide (t = "least-connection" ∨ t = "leastconnection") then Ok LbLeastConnection
  else Err ("Unknown load balance strategy: " +:+ s).

Inductive AnyLoadBalancer :=
| AnyRoundRobin (b : RoundRobinLoadBalancer)
| AnyWeighted (b : WeightedLoadBalancer)
| AnyHealthAware (b : HealthAwareLoadBalancer)
| AnyLeastConnection (b : LeastConnectionLoadBalancer).

Definition LoadBalancerFactory_create (s : LoadBalanceStrategy) : AnyLoadBalancer :=
  match s with
  | LbRoundRobin => AnyRoundRobin RoundRobin_new
  | LbWeighted => AnyWeighted Weighted_new
  | LbHealthAware => AnyHealthAware HealthAware_new
  | LbLeastConnection => AnyLeastConnection LeastConnection_new
  end.

(** Dynamic dispatch. *)
#[export] Instance Any_balancer : LoadBalancer AnyLoadBalancer := {|
  lb_select b l :=
    match b with
    | AnyRoundRobin b => prod_map AnyRoundRobin id (lb_select b l)
    | AnyWeighted b => prod_map AnyWeighted id (lb_select b l)
    | AnyHealthAware b => prod_map AnyHealthAware id (lb_select b l)
    | AnyLeastConnection b => prod_map AnyLeastConnection id (lb_select b l)
    end;
  lb_update_stats b i s :=
    match b with
    | AnyRoundRobin b => AnyRoundRobin (lb_update_stats b i s)
    | AnyWeighted b => AnyWeighted (lb_update_stats b i s)
    | AnyHealthAware b => AnyHealthAware (lb_update_stats b i s)
    | AnyLeastConnection b => AnyLeastConnection (lb_update_stats b i s)
    end;
  lb_name b :=
    match b with
    | AnyRoundRobin b => lb_name b
    | AnyWeighted b => lb_name b
    | AnyHealthAware b => lb_name b
    | AnyLeastConnection b => lb_name b
    end
|}.

(** * Theorems

   Correctness of the load balancers: what every balancer promises, the exact
    shares of round robin and of the weights, the choice of the least connected
    instance, and the exclusion of unhealthy ones. *)

(** ** The promise of a balancer *)

(** A selection is one of the instances given, and nothing is selected from, nor
    changed by, an empty list. *)
Class LoadBalancerLaws (B : Type) `{LoadBalancer B} := {
  lb_select_in : ∀ (b : B) l i, (lb_select b l).2 = Some i → i ∈ l;
  lb_select_nil : ∀ (b : B), lb_select b [] = (b, None)
}.

Fixpoint select_n {B} `{LoadBalancer B} (n : nat) (b : B) (l : list ServiceInstance)
    : B * list (option ServiceInstance) :=
  match n with
  | O => (b, [])
  | S n' =>
      let '(b1, r) := lb_select b l in
      let '(b2, rs) := select_n n' b1 l in (b2, r :: rs)
  end.

Lemma select_n_in {B} `{LoadBalancerLaws B} n (b : B) l i :
  Some i ∈ (select_n n b l).2 → i ∈ l.
Proof.
  revert b. induction n as [|n IH]; simpl; intros b; [by intros ?%elem_of_nil|].
  destruct (lb_select b l) as [b1 r] eqn:E. specialize (IH b1).
  destruct (select_n n b1 l) as [b2 rs]. simpl in *. intros [<-|Hi]%elem_of_cons; [|by apply IH].
  apply (lb_select_in b). by rewrite E.
Qed.

(** ** Cyclic selection *)

Definition cyclic {A} (L : list A) (c : Z) (n : nat) : list (option A) :=
  (λ i, L !! Z.to_nat ((c + Z.of_nat i) mod zlen L)) <$> seq 0 n.

Lemma cyclic_S {A} (L : list A) c n :
  cyclic L c (S n) = L !! Z.to_nat (c mod zlen L) :: cyclic L (c + 1) n.
Proof.
  unfold cyclic. simpl. rewrite Z.add_0_r. f_equal. rewrite <-fmap_S_seq, <-list_fmap_compose.
  apply list_fmap_ext. intros ? i _. simpl. do 3 f_equal. lia.
Qed.

Lemma cyclic_app {A} (L : list A) c n m :
  cyclic L c (n + m) = cyclic L c n ++ cyclic L (c + Z.of_nat n) m.
Proof.
  revert c. induction n as [|n IH]; intros c; [simpl; by rewrite Z.add_0_r|].
  rewrite Nat.add_succ_l, !cyclic_S, IH. simpl. do 3 f_equal. lia.
Qed.

(** A full turn visits every place once: it is a rotation. *)
Lemma cyclic_turn {A} (L : list A) c :
  L ≠ [] → cyclic L c (length L) ≡ₚ Some <$> L.
Proof.
  intros HL. assert (0 < zlen L)%Z as Hn by (destruct L; unfold zlen; simpl; [done|lia]).
  set (r := Z.to_nat (c mod zlen L)). pose proof (Z.mod_pos_bound c (zlen L) Hn) as Hr.
  assert (cyclic L c (length L) = Some <$> (drop r L ++ take r L)) as ->.
  { apply list_eq. intros i. unfold cyclic. rewrite !list_lookup_fmap. unfold zlen in *.
    destruct (decide (i < length L)) as [Hi|Hi]; last first.
    { rewrite lookup_seq_ge by lia. simpl. rewrite lookup_ge_None_2; [done|]. rewrite length_app, length_drop, length_take. lia. }
    rewrite lookup_seq_lt by done. simpl. assert (r ≤ length L) as Hrl by lia.
    assert ((c + Z.of_nat i) mod Z.of_nat (length L) =
      if decide (i < length L - r)%nat then Z.of_nat (r + i) else Z.of_nat (i - (length L - r)))%Z as ->.
    { pose proof (Z.div_mod c (Z.of_nat (length L)) ltac:(lia)). symmetry. case_decide.
      - apply (Z.mod_unique _ _ (c / Z.of_nat (length L))); lia.
      - apply (Z.mod_unique _ _ (c / Z.of_nat (length L) + 1)); lia. }
    case_decide; rewrite Nat2Z.id.
    - rewrite lookup_app_l by (rewrite length_drop; lia). rewrite lookup_drop.
      destruct (lookup_lt_is_Some_2 L (r + i)) as [x ->]; [lia|done].
    - rewrite lookup_app_r by (rewrite length_drop; lia). rewrite length_drop, lookup_take_lt by lia.
      destruct (lookup_lt_is_Some_2 L (i - (length L - r))) as [x ->]; [lia|done]. }
  rewrite !fmap_app, (Permutation_app_comm _ (_ <$> take _ _)), <-fmap_app. by rewrite take_drop.
Qed.

Lemma cyclic_turns {A} (L : list A) c k :
  L ≠ [] → cyclic L c (k * length L) ≡ₚ Some <$> mjoin (replicate k L).
Proof.
  intros HL. revert c. induction k as [|k IH]; intros c; simpl; [done|].
  by rewrite cyclic_app, fmap_app, cyclic_turn, IH.
Qed.

Lemma nth_cyclic_in l c i : nth_cyclic l c = Some i → i ∈ l.
Proof. apply list_elem_of_lookup_2. Qed.

(** ** Round robin *)

#[export] Instance RoundRobin_laws : LoadBalancerLaws RoundRobinLoadBalancer.
Proof.
  split; [|done]. intros b l i. simpl. unfold RoundRobin_select. destruct l; [done|]. apply nth_cyclic_in.
Qed.

Lemma round_robin_cyclic n b l :
  l ≠ [] → (0 ≤ rr_counter b)%Z → (rr_counter b + Z.of_nat n ≤ 2 ^ 64)%Z →
  (select_n n b l).2 = cyclic l (rr_counter b) n.
Proof.
  intros Hl. revert b. induction n as [|n IH]; intros b Hb Hn; [done|].
  rewrite cyclic_S. simpl. unfold RoundRobin_select at 1. destruct l as [|x l]; [done|].
  destruct n as [|n]; [done|]. specialize (IH (MkRoundRobin (wrap 64 (rr_counter b + 1)))).
  destruct (select_n _ _ _) as [b2 rs]. simpl in *. rewrite wrap_small in IH by lia.
  by rewrite IH by lia.
Qed.

(** While the 64-bit counter does not wrap, [k] turns over the instances select
    every instance exactly [k] times, whatever the counter. *)
Theorem round_robin_fair b l k :
  l ≠ [] → (0 ≤ rr_counter b)%Z → (rr_counter b + Z.of_nat (k * length l) ≤ 2 ^ 64)%Z →
  (select_n (k * length l) b l).2 ≡ₚ Some <$> mjoin (replicate k l).
Proof. intros. rewrite round_robin_cyclic by done. by apply cyclic_turns. Qed.

(** ** Weights *)

(** Each instance as often as its weight says. *)
Definition expand_weights (l : list ServiceInstance) : list ServiceInstance :=
  l ≫= λ i, replicate (Z.to_nat (get_weight i)) i.

Definition weights_ok (l : list ServiceInstance) : Prop := Forall (λ i, (0 ≤ get_weight i)%Z) l.

Lemma expand_weights_length l : weights_ok l → Z.of_nat (length (expand_weights l)) = total_weight l.
Proof.
  induction 1 as [|i l Hi Hl IH]; simpl; [done|].
  unfold expand_weights in *. simpl. rewrite length_app, length_replicate. lia.
Qed.

Lemma at_position_expand l p cur :
  weights_ok l → (0 ≤ cur ≤ p)%Z →
  at_position p cur l = expand_weights l !! Z.to_nat (p - cur).
Proof.
  intros Hw. revert cur. induction Hw as [|i l Hi Hl IH]; intros cur Hp; simpl; [done|].
  change (expand_weights (i :: l)) with (replicate (Z.to_nat (get_weight i)) i ++ expand_weights l).
  case_bool_decide.
  - rewrite lookup_app_l by (rewrite length_replicate; lia). by rewrite lookup_replicate_2 by lia.
  - rewrite lookup_app_r by (rewrite length_replicate; lia). rewrite length_replicate, IH by lia.
    f_equal. lia.
Qed.

#[export] Instance Weighted_laws : LoadBalancerLaws WeightedLoadBalancer.
Proof.
  split; [|done]. intros b l i. simpl. unfold Weighted_select. destruct l as [|x l]; [done|].
  case_bool_decide; [apply nth_cyclic_in|].
  assert (∀ p c l', at_position p c l' = Some i → i ∈ l') as Hat.
  { intros p c l'. revert c. induction l' as [|y l' IH]; simpl; intros c; [done|].
    case_bool_decide; [intros [= ->]; left|]. intros ?%IH. by right. }
  destruct (at_position _ _ _) eqn:E; simpl; [intros [= ->]; by eapply Hat|].
  apply last_Some_elem_of.
Qed.

Lemma weighted_cyclic n b l :
  weights_ok l → (0 < total_weight l)%Z →
  (0 ≤ wl_counter b)%Z → (wl_counter b + Z.of_nat n ≤ 2 ^ 64)%Z →
  (select_n n b l).2 = cyclic (expand_weights l) (wl_counter b) n.
Proof.
  intros Hw Ht. revert b. induction n as [|n IH]; intros b Hb Hn; [done|].
  rewrite cyclic_S. simpl. unfold Weighted_select at 1.
  destruct l as [|x l0] eqn:El; [done|]. rewrite <-El in *. rewrite bool_decide_false by lia.
  pose proof (Z.mod_pos_bound (wl_counter b) (total_weight l) Ht) as Hm.
  rewrite at_position_expand by (done || lia). unfold zlen. rewrite expand_weights_length, Z.sub_0_r by done.
  destruct (lookup_lt_is_Some_2 (expand_weights l) (Z.to_nat (wl_counter b mod total_weight l))) as [i ->].
  { pose proof (expand_weights_length _ Hw). lia. }
  destruct n as [|n]; [done|]. specialize (IH (MkWeighted (wrap 64 (wl_counter b + 1)))).
  destruct (select_n _ _ _) as [b2 rs]. simpl in *. rewrite wrap_small in IH by lia. by rewrite IH by lia.
Qed.

(** In as many consecutive selections as the total weight, each instance is
    selected exactly as often as its weight says: never when it is zero. *)
Theorem weighted_proportional b l k :
  weights_ok l → (0 < total_weight l)%Z → (0 ≤ wl_counter b)%Z →
  let n := k * Z.to_nat (total_weight l) in
  (wl_counter b + Z.of_nat n ≤ 2 ^ 64)%Z →
  (select_n n b l).2 ≡ₚ Some <$> mjoin (replicate k (expand_weights l)).
Proof.
  intros Hw Ht Hb n Hn. rewrite weighted_cyclic by done. unfold n.
  rewrite <-expand_weights_length, Nat2Z.id by done. apply cyclic_turns.
  intros He. rewrite <-expand_weights_length, He in Ht by done. done.
Qed.

(** ** Least connections *)

Section Least.
Implicit Types b : LeastConnectionLoadBalancer.
Notation conn b i := (get_connections b (si_id i)).

(** The loop from any accumulator: the first instance of least count below it. *)
Lemma least_loop b l acc :
  let r := foldl (λ acc i, if bool_decide (conn b i < acc.1)%Z then (conn b i, Some i) else acc) acc l in
  (∃ l1 i l2, l = l1 ++ i :: l2 ∧ r = (conn b i, Some i) ∧ (conn b i < acc.1)%Z ∧
     Forall (λ x, conn b i < conn b x)%Z l1 ∧ Forall (λ x, conn b i ≤ conn b x)%Z l2) ∨
  (r = acc ∧ Forall (λ x, acc.1 ≤ conn b x)%Z l).
Proof.
  revert acc. induction l as [|x l IH]; intros acc; simpl; [right; split; [done|constructor]|].
  case_bool_decide as Hx.
  - left. destruct (IH (conn b x, Some x)) as [(l1 & i & l2 & -> & -> & Hi & H1 & H2)|[-> Hall]].
    + exists (x :: l1), i, l2. simpl in Hi. split_and!; [done..|lia|by constructor|done].
    + exists [], x, l. split_and!; [done..|constructor|done].
  - destruct (IH acc) as [(l1 & i & l2 & -> & -> & Hi & H1 & H2)|[-> Hall]].
    + left. exists (x :: l1), i, l2. split_and!; [done..| |done]. constructor; [lia|done].
    + right. split; [done|]. constructor; [lia|done].
Qed.

(** The selection is the first instance of least count; its count alone goes up
    by one.  Nothing is selected exactly when every count is the largest u32. *)
Theorem least_connection_spec b l :
  match lb_select b l with
  | (b', Some i) =>
      ∃ l1 l2, l = l1 ++ i :: l2 ∧ (conn b i < u32_max)%Z ∧
        Forall (λ x, conn b i < conn b x)%Z l1 ∧ Forall (λ x, conn b i ≤ conn b x)%Z l2 ∧
        ∀ id, get_connections b' id =
          if decide (id = si_id i) then wrap 32 (conn b i + 1) else get_connections b id
  | (b', None) => b' = b ∧ Forall (λ x, u32_max ≤ conn b x)%Z l
  end.
Proof.
  simpl. unfold LeastConnection_select. destruct l as [|x l0] eqn:El; [by split|]. rewrite <-El.
  unfold least_connected. pose proof (least_loop b l (u32_max, None)) as Hl. simpl in Hl.
  destruct Hl as [(l1 & i & l2 & -> & -> & Hi & H1 & H2)|[-> Hall]]; simpl; [|done].
  exists l1, l2. split_and!; try done. intros id. unfold get_connections at 1. simpl.
  case_decide as Hid; [subst; by rewrite lookup_insert_eq|]. by rewrite lookup_insert_ne.
Qed.

#[export] Instance LeastConnection_laws : LoadBalancerLaws LeastConnectionLoadBalancer.
Proof.
  split; [|done]. intros b l i Hs. pose proof (least_connection_spec b l) as Hl.
  destruct (lb_select b l) as [b' r]. simpl in Hs. subst r.
  destruct Hl as (l1 & l2 & -> & _). apply elem_of_app. right. left.
Qed.

(** Selecting through the rest of a round in which the first instances have
    already been selected. *)
Lemma least_connection_round b l1 l2 v :
  NoDup (si_id <$> l1 ++ l2) → (0 ≤ v < u32_max)%Z →
  Forall (λ x, conn b x = v + 1)%Z l1 → Forall (λ x, conn b x = v) l2 →
  ∃ b', select_n (length l2) b (l1 ++ l2) = (b', Some <$> l2) ∧
    Forall (λ x, conn b' x = v + 1)%Z (l1 ++ l2).
Proof.
  revert b l1. induction l2 as [|x l2 IH]; intros b l1 Hnd Hv H1 H2.
  { exists b. rewrite app_nil_r in *. done. }
  apply Forall_cons in H2 as [Hx H2]. cbn [length select_n].
  pose proof (least_connection_spec b (l1 ++ x :: l2)) as Hs.
  destruct (lb_select b (l1 ++ x :: l2)) as [b' [i|]]; last first.
  { destruct Hs as [_ Hs]. rewrite !Forall_app, Forall_cons in Hs. lia. }
  destruct Hs as (k1 & k2 & Heq & Hi & Hk1 & Hk2 & Hupd).
  assert (k1 = l1 ∧ i = x ∧ k2 = l2) as (-> & -> & ->).
  { assert (conn b i ≤ v)%Z as Hiv.
    { assert (x ∈ k1 ++ i :: k2) as Hin by (rewrite <-Heq, elem_of_app; right; left).
      rewrite elem_of_app, elem_of_cons in Hin. rewrite Forall_forall in Hk1, Hk2.
      destruct Hin as [?%Hk1|[->|?%Hk2]]; lia. }
    apply app_eq_inv in Heq as [(k & -> & Hk)|(k & -> & Hk)].
    - destruct k as [|y k]; simplify_eq/=; [by rewrite app_nil_r|].
      apply Forall_app in H1 as [_ H1]. apply Forall_cons in H1 as [H1 _]. lia.
    - destruct k as [|y k]; simplify_eq/=; [by rewrite app_nil_r|].
      apply Forall_app in Hk1 as [_ Hk1]. apply Forall_cons in Hk1 as [Hk1 _].
      apply Forall_app in H2 as [_ H2]. apply Forall_cons in H2 as [H2 _]. lia. }
  rewrite Hx, wrap_small in Hupd by (unfold u32_max in *; lia).
  rewrite fmap_app, fmap_cons in Hnd.
  assert (Forall (λ y, si_id y ≠ si_id x) (l1 ++ l2)) as Hne.
  { apply NoDup_app in Hnd as (_ & Hd & [Hx2 _]%NoDup_cons). apply Forall_app. split; apply Forall_forall.
    - intros y Hy He. apply (Hd (si_id y)); [by apply list_elem_of_fmap_2|]. rewrite He. left.
    - intros y Hy He. apply Hx2. rewrite <-He. by apply list_elem_of_fmap_2. }
  apply Forall_app in Hne as [Hn1 Hn2].
  destruct (IH b' (l1 ++ [x])) as (b2 & Hsel & Hall).
  - by rewrite <-app_assoc, fmap_app.
  - done.
  - apply Forall_app. split; [|constructor; [by rewrite Hupd, decide_True|constructor]].
    rewrite !Forall_forall in *. intros y Hy. rewrite Hupd, decide_False by auto. auto.
  - rewrite !Forall_forall in *. intros y Hy. rewrite Hupd, decide_False by auto. auto.
  - rewrite <-app_assoc in Hsel, Hall. simpl in Hsel. exists b2. rewrite Hsel. by split.
Qed.

(** Counts only go up unless statistics are reported: from equal counts the least
    connected balancer goes through the instances in order, round after round,
    whether or not the connections have ended. *)
Theorem least_connection_cycles b l v k :
  NoDup (si_id <$> l) → (0 ≤ v)%Z → (v + Z.of_nat k ≤ u32_max)%Z → Forall (λ x, conn b x = v) l →
  ∃ b', select_n (k * length l) b l = (b', Some <$> mjoin (replicate k l)) ∧
    Forall (λ x, conn b' x = v + Z.of_nat k)%Z l.
Proof.
  intros Hnd. revert b v. induction k as [|k IH]; intros b v Hv Hk Hall; simpl.
  { exists b. split; [done|]. by rewrite Z.add_0_r. }
  destruct (least_connection_round b [] l v) as (b1 & H1 & Hall1); [done|lia|constructor|done|].
  destruct (IH b1 (v + 1)%Z) as (b2 & H2 & Hall2); [lia..|done|].
  exists b2. assert (∀ n m b, select_n (n + m) b l =
    let '(b1, r1) := select_n n b l in let '(b2, r2) := select_n m b1 l in (b2, r1 ++ r2)) as Happ.
  { clear. intros n m. induction n as [|n IH]; intros b; [simpl; by destruct (select_n m b l)|].
    cbn [Nat.add select_n]. destruct (lb_select b l) as [b1 r]. rewrite IH.
    destruct (select_n n b1 l) as [b2 rs]. by destruct (select_n m b2 l). }
  simpl in H1. rewrite Happ, H1, H2, fmap_app. split; [done|].
  eapply Forall_impl; [exact Hall2|]. simpl. intros; lia.
Qed.
End Least.

(** ** Health *)

(** A selection is an instance that is not marked unhealthy, and fails exactly
    when every instance is; the marks are those of the last statistics. *)
Theorem health_aware_spec (b : HealthAwareLoadBalancer) l :
  (0 ≤ rr_counter (ha_inner b))%Z →
  health_status (lb_select b l).1 = health_status b ∧
  match (lb_select b l).2 with
  | Some i => i ∈ l ∧ HealthAware_is_healthy b (si_id i) = true
  | None => ∀ i, i ∈ l → HealthAware_is_healthy b (si_id i) = false
  end.
Proof.
  intros Hc. simpl. unfold HealthAware_select. destruct l as [|x l0] eqn:El.
  { split; [done|]. by intros i ?%elem_of_nil. }
  rewrite <-El. destruct (List.filter _ l) as [|y ys] eqn:Ef.
  { split; [done|]. simpl. intros i Hi. destruct (HealthAware_is_healthy b (si_id i)) eqn:Eh; [|done].
    assert (i ∈ List.filter (λ i, HealthAware_is_healthy b (si_id i)) l) as Hin
      by (by apply elem_of_filter_bool).
    rewrite Ef in Hin. by apply elem_of_nil in Hin. }
  split; [done|]. unfold RoundRobin_select. cbn [snd]. unfold nth_cyclic.
  assert (0 < zlen (y :: ys))%Z as Hz by (unfold zlen; simpl; lia).
  pose proof (Z.mod_pos_bound (rr_counter (ha_inner b)) _ Hz) as Hm.
  destruct (lookup_lt_is_Some_2 (y :: ys) (Z.to_nat (rr_counter (ha_inner b) mod zlen (y :: ys)))) as [i Hi].
  { unfold zlen in *. lia. }
  rewrite Hi. apply list_elem_of_lookup_2 in Hi. rewrite <-Ef in Hi. apply elem_of_filter_bool in Hi. tauto.
Qed.

#[export] Instance HealthAware_laws : LoadBalancerLaws HealthAwareLoadBalancer.
Proof.
  split; [|done]. intros b l i. simpl. unfold HealthAware_select. destruct l as [|x l0] eqn:El; [done|].
  rewrite <-El. destruct (List.filter _ l) as [|y ys] eqn:Ef; [done|]. cbn [snd RoundRobin_select].
  intros Hi%nth_cyclic_in. rewrite <-Ef in Hi. apply elem_of_filter_bool in Hi. tauto.
Qed.

(** ** The factory *)

#[export] Instance Any_laws : LoadBalancerLaws AnyLoadBalancer.
Proof. split; [|by intros []]. intros [b|b|b|b] l i Hi; by apply (lb_select_in b). Qed.

Theorem factory_selects_listed s n l i :
  Some i ∈ (select_n n (LoadBalancerFactory_create s) l).2 → i ∈ l.
Proof. apply select_n_in. Qed.

(** A strategy is read back from its name, in any mix of cases. *)
Theorem strategy_roundtrip `{ToLowercase} s name :
  is_ascii_str name = true → ascii_lower name = LoadBalanceStrategy_display s →
  LoadBalanceStrategy_from_str name = Ok s.
Proof.
  intros Ha Hl. unfold LoadBalanceStrategy_from_str. rewrite to_lowercase_ascii, Hl by done.
  by destruct s.
Qed.

(** ** Examples *)

Definition inst (id : string) (w : Z) : ServiceInstance :=
  Instance_with_weight (ServiceInstance_new id "hub" "10.0.0.1" 80) w.

Lemma round_robin_fair_witness :
  (select_n (2 * 2) (MkRoundRobin 7) [inst "a" 1; inst "b" 1]).2
    ≡ₚ Some <$> [inst "a" 1; inst "b" 1; inst "a" 1; inst "b" 1].
Proof. by apply (round_robin_fair (MkRoundRobin 7) [inst "a" 1; inst "b" 1] 2). Defined.

Lemma weighted_proportional_witness :
  (select_n (1 * 4) Weighted_new [inst "a" 1; inst "b" 3]).2
    ≡ₚ Some <$> [inst "a" 1; inst "b" 3; inst "b" 3; inst "b" 3].
Proof.
  apply (weighted_proportional Weighted_new [inst "a" 1; inst "b" 3] 1); [|done..].
  repeat constructor; done.
Defined.

Lemma least_connection_cycles_witness :
  ∃ b', select_n (2 * 2) LeastConnection_new [inst "a" 1; inst "b" 1] =
    (b', Some <$> [inst "a" 1; inst "b" 1; inst "a" 1; inst "b" 1]).
Proof.
  destruct (least_connection_cycles LeastConnection_new [inst "a" 1; inst "b" 1] 0 2) as (b' & Hb & _).
  - apply (bool_decide_unpack _). vm_compute. exact I.
  - done.
  - done.
  - repeat constructor.
  - exists b'. exact Hb.
Defined.

(** Sixty failures in a hundred requests mark an instance unhealthy, forty do not. *)
Lemma healthy_stats_example :
  healthy_stats (MkInstanceStats 0 100 60 f32_zero 0) = false ∧
  healthy_stats (MkInstanceStats 0 100 40 f32_zero 0) = true ∧
  healthy_stats (MkInstanceStats 0 100 50 f32_zero 0) = false.
Proof. by vm_compute. Qed.

Lemma health_aware_spec_witness :
  let b := lb_update_stats HealthAware_new "b" (MkInstanceStats 0 100 60 f32_zero 0) in
  match (lb_select b [inst "b" 1; inst "c" 1]).2 with
  | Some i => i ∈ [inst "b" 1; inst "c" 1] ∧ HealthAware_is_healthy b (si_id i) = true
  | None => ∀ i, i ∈ [inst "b" 1; inst "c" 1] → HealthAware_is_healthy b (si_id i) = false
  end.
Proof. intros b. by apply health_aware_spec. Defined.
