(* ===== verification/Pairing.v ===== *)
(** Pairing of devices ([crates/uhorse-security/src/pairing.rs], the device types
    of [crates/uhorse-core/src/types.rs]): pairing requests with their six-digit
    codes, the manager, its device operations, the task that expires a request,
    and, apart from the data, the order in which the operations take the locks.
    Times are seconds; the random number of a code and the fresh request
    identifier are arguments. *)
From S2P Require Import Prelude Json ProtocolTypes Notifications.

(** ** Devices *)

Record DeviceCapabilities := MkDeviceCapabilities {
  dc_max_message_size : Z;
  dc_supported_tools : list string;
  dc_supported_channels : list ChannelType
}.
Definition DeviceCapabilities_default : DeviceCapabilities := MkDeviceCapabilities 65536 [] [Telegram].

Record DeviceInfo := MkDeviceInfo {
  dv_id : string;
  dv_name : string;
  dv_paired : bool;
  dv_paired_at : option Z;
  dv_last_seen : Z;
  dv_capabilities : DeviceCapabilities
}.
Definition set_paired (d : DeviceInfo) (paired : bool) (at_ : option Z) : DeviceInfo :=
  MkDeviceInfo (dv_id d) (dv_name d) paired at_ (dv_last_seen d) (dv_capabilities d).
Definition set_last_seen (d : DeviceInfo) (t : Z) : DeviceInfo :=
  MkDeviceInfo (dv_id d) (dv_name d) (dv_paired d) (dv_paired_at d) t (dv_capabilities d).

(** The variants of [UHorseError] the manager builds. *)
Inductive PairingError :=
| PInternalError (m : string)
| PDeviceNotPaired (id : string).
Abbreviation PairingResult T := (Result T PairingError).

(** ** Requests *)

Inductive PairingStatus :=
| PsPending | PsAwaitingConfirmation | PsPaired | PsRejected | PsExpired | PsCancelled.
#[export] Instance PairingStatus_eq_dec : EqDecision PairingStatus.
Proof. solve_decision. Defined.

(** [format!] with six digits, padded with zeros on the left. *)
Fixpoint zeros (n : nat) : string := match n with O => "" | S n' => String "0" (zeros n') end.
Definition generate_pairing_code (n : Z) : string :=
  zeros (6 - String.length (display_u n)) +:+ display_u n.

Section Manager.
Context `{JsonValue}.

Record PairingRequest := MkPairingRequest {
  pq_request_id : string;
  pq_device_id : string;
  pq_device_name : string;
  pq_device_type : string;
  pq_user_id : option string;
  pq_pairing_code : string;
  pq_status : PairingStatus;
  pq_created_at : Z;
  pq_expires_at : Z;
  pq_metadata : Value
}.

Definition PairingRequest_new (uuid : string) (random now : Z) (device name type : string)
    : PairingRequest :=
  MkPairingRequest uuid device name type None (generate_pairing_code random) PsPending now
    (wrap 64 (now + 300)) (json_object []).

Definition PairingRequest_is_expired (r : PairingRequest) (now : Z) : bool :=
  bool_decide (pq_expires_at r < now)%Z.

Definition set_request_status (r : PairingRequest) (st : PairingStatus) (user : option string)
    : PairingRequest :=
  MkPairingRequest (pq_request_id r) (pq_device_id r) (pq_device_name r) (pq_device_type r) user
    (pq_pairing_code r) st (pq_created_at r) (pq_expires_at r) (pq_metadata r).
Definition PairingRequest_confirm (r : PairingRequest) (user : string) : PairingRequest :=
  set_request_status r PsPaired (Some user).
Definition PairingRequest_reject (r : PairingRequest) : PairingRequest :=
  set_request_status r PsRejected (pq_user_id r).
Definition PairingRequest_cancel (r : PairingRequest) : PairingRequest :=
  set_request_status r PsCancelled (pq_user_id r).

(** ** The manager *)

Record DevicePairingManager := MkDevicePairingManager {
  pm_devices : gmap string DeviceInfo;
  pm_requests : gmap string PairingRequest;
  pm_codes : gmap string string;
  pm_ttl : Z
}.
Definition DevicePairingManager_new : DevicePairingManager := MkDevicePairingManager ∅ ∅ ∅ 300.
Definition with_pairing_ttl (m : DevicePairingManager) (ttl : Z) : DevicePairingManager :=
  MkDevicePairingManager (pm_devices m) (pm_requests m) (pm_codes m) ttl.

Definition set_devices (m : DevicePairingManager) (d : gmap string DeviceInfo) : DevicePairingManager :=
  MkDevicePairingManager d (pm_requests m) (pm_codes m) (pm_ttl m).
Definition set_pairing (m : DevicePairingManager) (r : gmap string PairingRequest) (c : gmap string string)
    : DevicePairingManager := MkDevicePairingManager (pm_devices m) r c (pm_ttl m).

(** The devices, the requests and the codes are locked one after the other; here the
    whole is one step. *)
Definition initiate_pairing (m : DevicePairingManager) (uuid : string) (random now : Z)
    (device name type : string) : DevicePairingManager * PairingResult PairingRequest :=
  let r := PairingRequest_new uuid random now device name type in
  let request := MkPairingRequest (pq_request_id r) (pq_device_id r) (pq_device_name r)
    (pq_device_type r) (pq_user_id r) (pq_pairing_code r) (pq_status r) (pq_created_at r)
    (wrap 64 (pq_created_at r + pm_ttl m)) (pq_metadata r) in
  let info := MkDeviceInfo device name false None now DeviceCapabilities_default in
  (MkDevicePairingManager (<[ device := info ]> (pm_devices m))
     (<[ uuid := request ]> (pm_requests m)) (<[ pq_pairing_code request := uuid ]> (pm_codes m)) (pm_ttl m),
   Ok request).

Definition is_open (st : PairingStatus) : bool :=
  bool_decide (st = PsPending ∨ st = PsAwaitingConfirmation).

(** What the task of a request does when its time has come. *)
Definition expire_request (m : DevicePairingManager) (id : string) : DevicePairingManager :=
  match pm_requests m !! id with
  | Some r =>
      if is_open (pq_status r) then
        set_pairing m (<[ id := set_request_status r PsExpired (pq_user_id r) ]> (pm_requests m))
          (delete (pq_pairing_code r) (pm_codes m))
      else m
  | None => m
  end.

Definition invalid_code : PairingError := PInternalError "Invalid pairing code".
Definition request_not_found : PairingError := PInternalError "Pairing request not found".

Definition get_request_by_code (m : DevicePairingManager) (code : string) : PairingResult PairingRequest :=
  let? id := ok_or (pm_codes m !! code) invalid_code in
  ok_or (pm_requests m !! id) request_not_found.

Definition confirm_pairing (m : DevicePairingManager) (now : Z) (code user : string)
    : DevicePairingManager * PairingResult DeviceInfo :=
  match pm_codes m !! code with
  | None => (m, Err invalid_code)
  | Some id =>
      match pm_requests m !! id with
      | None => (m, Err request_not_found)
      | Some r =>
          if PairingRequest_is_expired r now then
            (set_pairing m (<[ id := set_request_status r PsExpired (pq_user_id r) ]> (pm_requests m))
               (pm_codes m), Err (PInternalError "Pairing request expired"))
          else
            let requests := <[ id := PairingRequest_confirm r user ]> (pm_requests m) in
            match pm_devices m !! pq_device_id r with
            | Some d =>
                let d' := set_paired d true (Some now) in
                (set_devices (set_pairing m requests (delete code (pm_codes m)))
                   (<[ pq_device_id r := d' ]> (pm_devices m)), Ok d')
            | None => (set_pairing m requests (pm_codes m), Err (PDeviceNotPaired (pq_device_id r)))
            end
      end
  end.

Definition reject_pairing (m : DevicePairingManager) (code : string)
    : DevicePairingManager * PairingResult unit :=
  match pm_codes m !! code with
  | None => (m, Err invalid_code)
  | Some id =>
      match pm_requests m !! id with
      | Some r =>
          (set_pairing m (<[ id := PairingRequest_reject r ]> (pm_requests m)) (delete code (pm_codes m)),
           Ok tt)
      | None => (m, Err request_not_found)
      end
  end.

Definition cancel_pairing (m : DevicePairingManager) (id : string)
    : DevicePairingManager * PairingResult unit :=
  match pm_requests m !! id with
  | Some r =>
      (set_pairing m (<[ id := PairingRequest_cancel r ]> (pm_requests m))
         (delete (pq_pairing_code r) (pm_codes m)), Ok tt)
  | None => (m, Err request_not_found)
  end.

Definition get_pairing_request (m : DevicePairingManager) (id : string) : PairingResult PairingRequest :=
  ok_or (pm_requests m !! id) request_not_found.

Definition to_clean (now : Z) (r : PairingRequest) : bool :=
  PairingRequest_is_expired r now || bool_decide (pq_status r = PsRejected)
  || bool_decide (pq_status r = PsCancelled).

Section Traversals.
Context `{HashOrder}.

Definition list_pending_requests (m : DevicePairingManager) : list PairingRequest :=
  List.filter (λ r, is_open (pq_status r)) (hash_values (pm_requests m)).

Definition remove_request (m : DevicePairingManager) (id : string) : DevicePairingManager :=
  match pm_requests m !! id with
  | Some r => set_pairing m (delete id (pm_requests m)) (delete (pq_pairing_code r) (pm_codes m))
  | None => m
  end.
Definition cleanup_expired_requests (m : DevicePairingManager) (now : Z) : DevicePairingManager * nat :=
  let expired := (List.filter (λ kv : string * PairingRequest, to_clean now kv.2)
                    (hash_order (pm_requests m))).*1 in
  (foldl remove_request m expired, length expired).

Definition get_pairing_status (m : DevicePairingManager) (device : string) : PairingResult PairingStatus :=
  match pm_devices m !! device with
  | Some d =>
      if dv_paired d then Ok PsPaired
      else
        match List.find (λ r, bool_decide (pq_device_id r = device)) (hash_values (pm_requests m)) with
        | Some r => Ok (pq_status r)
        | None => Ok PsPending
        end
  | None => Err (PDeviceNotPaired device)
  end.

Definition list_devices (m : DevicePairingManager) : list DeviceInfo := hash_values (pm_devices m).
End Traversals.

(** ** The device manager *)

Definition register_device (m : DevicePairingManager) (d : DeviceInfo) : DevicePairingManager :=
  set_devices m (<[ dv_id d := d ]> (pm_devices m)).
Definition get_device (m : DevicePairingManager) (id : string) : option DeviceInfo := pm_devices m !! id.
Definition update_device (m : DevicePairingManager) (d : DeviceInfo) : DevicePairingManager :=
  set_devices m (<[ dv_id d := d ]> (pm_devices m)).
Definition delete_device (m : DevicePairingManager) (id : string) : DevicePairingManager :=
  set_devices m (delete id (pm_devices m)).
Definition pair_device (m : DevicePairingManager) (now : Z) (id : string)
    : DevicePairingManager * PairingResult unit :=
  match pm_devices m !! id with
  | Some d => (set_devices m (<[ id := set_paired d true (Some now) ]> (pm_devices m)), Ok tt)
  | None => (m, Err (PDeviceNotPaired id))
  end.
Definition unpair_device (m : DevicePairingManager) (id : string)
    : DevicePairingManager * PairingResult unit :=
  match pm_devices m !! id with
  | Some d => (set_devices m (<[ id := set_paired d false None ]> (pm_devices m)), Ok tt)
  | None => (m, Err (PDeviceNotPaired id))
  end.
Definition update_last_seen (m : DevicePairingManager) (id : string) (t : Z) : DevicePairingManager :=
  set_devices m (map_update (λ d, set_last_seen d t) id (pm_devices m)).
End Manager.

(** ** The locks *)

Inductive pairing_lock := LDevices | LRequests | LCodes.
#[export] Instance pairing_lock_eq_dec : EqDecision pairing_lock.
Proof. solve_decision. Defined.

(** A guard of [read()] or [write()] is taken, or a guard of the lock dropped. *)
Inductive lock_action := AcquireRead (l : pairing_lock) | AcquireWrite (l : pairing_lock) | ReleaseLock (l : pairing_lock).

(** The locks of each operation on its longest path, in the order of the code;
    guards that live to the end are dropped in reverse order. *)
Inductive pairing_call :=
| CallInitiate | CallExpire | CallByCode | CallConfirm | CallReject | CallCancel | CallListPending
| CallCleanup | CallStatus | CallDevice.
#[export] Instance pairing_call_eq_dec : EqDecision pairing_call.
Proof. solve_decision. Defined.

Definition call_locks (c : pairing_call) : list lock_action :=
  match c with
  | CallInitiate =>
      [AcquireWrite LDevices; ReleaseLock LDevices; AcquireWrite LRequests; ReleaseLock LRequests;
       AcquireWrite LCodes; ReleaseLock LCodes]
  | CallExpire =>
      [AcquireWrite LRequests; AcquireWrite LCodes; ReleaseLock LCodes; ReleaseLock LRequests]
  | CallByCode =>
      [AcquireRead LCodes; AcquireRead LRequests; ReleaseLock LRequests; ReleaseLock LCodes]
  | CallConfirm =>
      [AcquireRead LCodes; AcquireWrite LRequests; AcquireWrite LDevices; ReleaseLock LCodes;
       AcquireWrite LCodes; ReleaseLock LCodes; ReleaseLock LDevices; ReleaseLock LRequests]
  | CallReject =>
      [AcquireRead LCodes; AcquireWrite LRequests; ReleaseLock LCodes; AcquireWrite LCodes;
       ReleaseLock LCodes; ReleaseLock LRequests]
  | CallCancel =>
      [AcquireWrite LRequests; AcquireWrite LCodes; ReleaseLock LCodes; ReleaseLock LRequests]
  | CallListPending => [AcquireRead LRequests; ReleaseLock LRequests]
  | CallCleanup =>
      [AcquireWrite LRequests; AcquireWrite LCodes; ReleaseLock LCodes; ReleaseLock LRequests]
  | CallStatus =>
      [AcquireRead LDevices; AcquireRead LRequests; ReleaseLock LRequests; ReleaseLock LDevices]
  | CallDevice => [AcquireWrite LDevices; ReleaseLock LDevices]
  end.
