(* ===== verification/PairingFacts.v ===== *)
(** Correctness of device pairing: the invariant of the manager, what it takes
    for a device to become paired, colliding codes, and which pairs of concurrent
    operations can block each other for ever. *)
From S2P Require Import Prelude Json ProtocolTypes Notifications Pairing.

Section Pairing.
Context `{JsonValue, HashOrder}.
Implicit Types m : DevicePairingManager.

(** ** Operations and reachable managers *)

Inductive pairing_op :=
| PoInitiate (uuid : string) (random now : Z) (device name type : string)
| PoExpire (id : string)
| PoConfirm (now : Z) (code user : string)
| PoReject (code : string)
| PoCancel (id : string)
| PoCleanup (now : Z)
| PoRegister (d : DeviceInfo)
| PoUpdate (d : DeviceInfo)
| PoDelete (id : string)
| PoPair (now : Z) (id : string)
| PoUnpair (id : string)
| PoLastSeen (id : string) (t : Z).

Definition pairing_apply m (op : pairing_op) : DevicePairingManager :=
  match op with
  | PoInitiate uuid random now device name type => (initiate_pairing m uuid random now device name type).1
  | PoExpire id => expire_request m id
  | PoConfirm now code user => (confirm_pairing m now code user).1
  | PoReject code => (reject_pairing m code).1
  | PoCancel id => (cancel_pairing m id).1
  | PoCleanup now => (cleanup_expired_requests m now).1
  | PoRegister d => register_device m d
  | PoUpdate d => update_device m d
  | PoDelete id => delete_device m id
  | PoPair now id => (pair_device m now id).1
  | PoUnpair id => (unpair_device m id).1
  | PoLastSeen id t => update_last_seen m id t
  end.

(** Request identifiers are fresh. *)
Definition pairing_step m m' : Prop :=
  ∃ op, m' = pairing_apply m op ∧
    match op with PoInitiate uuid _ _ _ _ _ => pm_requests m !! uuid = None | _ => True end.

Definition withdrawn (st : PairingStatus) : Prop := st = PsRejected ∨ st = PsCancelled.

(** Requests and devices are filed under their identifiers; a code leads to a
    request that has this code and was neither rejected nor cancelled. *)
Record pairing_wf m : Prop := {
  wf_requests : ∀ id r, pm_requests m !! id = Some r → pq_request_id r = id;
  wf_devices : ∀ id d, pm_devices m !! id = Some d → dv_id d = id;
  wf_codes : ∀ c id, pm_codes m !! c = Some id →
    ∃ r, pm_requests m !! id = Some r ∧ pq_pairing_code r = c ∧ ¬ withdrawn (pq_status r)
}.

Lemma pairing_wf_new ttl : pairing_wf (with_pairing_ttl DevicePairingManager_new ttl).
Proof. split; simpl; intros ? ?; by rewrite lookup_empty. Qed.

Lemma wf_set_devices m ds :
  pairing_wf m → (∀ id d, ds !! id = Some d → dv_id d = id) → pairing_wf (set_devices m ds).
Proof. intros [] ?. by split. Qed.

Lemma wf_insert_device m id d :
  pairing_wf m → dv_id d = id → pairing_wf (set_devices m (<[ id := d ]> (pm_devices m))).
Proof.
  intros Hw Hd. apply wf_set_devices; [done|]. intros i e.
  destruct (decide (i = id)) as [->|]; [rewrite lookup_insert_eq; intros [= <-]; done|].
  rewrite lookup_insert_ne by done. apply Hw.
Qed.

(** A request changes its status and possibly loses its code. *)
Lemma wf_set_status m id r st user codes :
  pairing_wf m → pm_requests m !! id = Some r → codes ⊆ pm_codes m →
  (withdrawn st → codes !! pq_pairing_code r = None) →
  pairing_wf (set_pairing m (<[ id := set_request_status r st user ]> (pm_requests m)) codes).
Proof.
  intros Hw Hr Hsub Hst. split; simpl; [| |].
  - intros i q. destruct (decide (i = id)) as [->|].
    + rewrite lookup_insert_eq. intros [= <-]. simpl. by apply Hw.
    + rewrite lookup_insert_ne by done. apply Hw.
  - apply Hw.
  - intros c i Hc. pose proof (lookup_weaken _ _ _ _ Hc Hsub) as Hc'.
    destruct (wf_codes _ Hw c i Hc') as (q & Hq & Hqc & Hqs).
    destruct (decide (i = id)) as [->|].
    + rewrite lookup_insert_eq. eexists. split; [done|]. simpl. simplify_eq.
      split; [done|]. intros Hs. apply Hst in Hs. congruence.
    + rewrite lookup_insert_ne by done. eauto.
Qed.

Lemma wf_remove_request m id : pairing_wf m → pairing_wf (remove_request m id).
Proof.
  intros Hw. unfold remove_request. destruct (pm_requests m !! id) as [r|] eqn:Er; [|done].
  split; simpl.
  - intros i q [_ Hq]%lookup_delete_Some. by apply Hw.
  - apply Hw.
  - intros c i [Hc Hi]%lookup_delete_Some. destruct (wf_codes _ Hw c i Hi) as (q & Hq & Hqc & Hqs).
    exists q. rewrite lookup_delete_ne by naive_solver. done.
Qed.

Lemma pairing_step_wf m m' : pairing_wf m → pairing_step m m' → pairing_wf m'.
Proof.
  intros Hw (op & -> & Hfresh). destruct op as [uuid random now device name type|id|now code user|code|
    id|now|d|d|id|now id|id|id t]; simpl.
  - split; simpl.
    + intros i q. destruct (decide (i = uuid)) as [->|];
        [rewrite lookup_insert_eq; by intros [= <-]|]. rewrite lookup_insert_ne by done. apply Hw.
    + intros i q. destruct (decide (i = device)) as [->|];
        [rewrite lookup_insert_eq; by intros [= <-]|]. rewrite lookup_insert_ne by done. apply Hw.
    + intros c i. destruct (decide (c = generate_pairing_code random)) as [->|].
      * rewrite lookup_insert_eq. intros [= <-]. rewrite lookup_insert_eq. eexists. split; [done|].
        split; [done|]. by intros [].
      * rewrite lookup_insert_ne by done. intros (q & Hq & ?)%(wf_codes _ Hw).
        exists q. rewrite lookup_insert_ne; [done|naive_solver].
  - unfold expire_request. destruct (pm_requests m !! id) as [r|] eqn:Er; [|done]. case_match; [|done].
    apply wf_set_status; [done..|apply delete_subseteq|by intros []].
  - unfold confirm_pairing. destruct (pm_codes m !! code) as [id|] eqn:Ec; [|done].
    destruct (pm_requests m !! id) as [r|] eqn:Er; [|done].
    case_match; [apply wf_set_status; [done..|by intros []]|].
    destruct (pm_devices m !! pq_device_id r) as [d|] eqn:Ed; simpl.
    + apply (wf_insert_device (set_pairing m _ _)); [|by apply (wf_devices _ Hw) in Ed].
      apply wf_set_status; [done..|apply delete_subseteq|by intros []].
    + apply wf_set_status; [done..|by intros []].
  - unfold reject_pairing. destruct (pm_codes m !! code) as [id|] eqn:Ec; [|done].
    destruct (wf_codes _ Hw _ _ Ec) as (r & Er & <- & _). rewrite Er.
    apply wf_set_status; [done..|apply delete_subseteq|]. intros _. apply lookup_delete_eq.
  - unfold cancel_pairing. destruct (pm_requests m !! id) as [r|] eqn:Er; [|done].
    apply wf_set_status; [done..|apply delete_subseteq|]. intros _. apply lookup_delete_eq.
  - unfold cleanup_expired_requests. simpl. match goal with |- context [foldl _ _ ?l] => generalize l end. intros ids. clear Hfresh.
    revert m Hw. induction ids as [|i ids IH]; simpl; intros m Hw; [done|]. by apply IH, wf_remove_request.
  - by apply wf_insert_device.
  - by apply wf_insert_device.
  - apply wf_set_devices; [done|]. intros i e [_ He]%lookup_delete_Some. by apply Hw.
  - unfold pair_device. destruct (pm_devices m !! id) as [d|] eqn:Ed; [|done].
    apply wf_insert_device; [done|]. by apply (wf_devices _ Hw) in Ed.
  - unfold unpair_device. destruct (pm_devices m !! id) as [d|] eqn:Ed; [|done].
    apply wf_insert_device; [done|]. by apply (wf_devices _ Hw) in Ed.
  - apply wf_set_devices; [done|]. intros i e. rewrite map_update_lookup. case_decide; [|apply Hw].
    subst. destruct (pm_devices m !! i) as [d|] eqn:Ed; simpl; [|done]. intros [= <-]. by apply (wf_devices _ Hw) in Ed.
Qed.

(** In every reachable manager a code leads to an existing request with this
    code that nobody rejected or cancelled, so the branches for a missing request
    are never taken by the operations on codes. *)
Theorem pairing_invariant ttl m :
  rtc pairing_step (with_pairing_ttl DevicePairingManager_new ttl) m →
  pairing_wf m ∧
  (∀ code, get_request_by_code m code ≠ Err request_not_found) ∧
  (∀ now code user, (confirm_pairing m now code user).2 ≠ Err request_not_found) ∧
  (∀ code, (reject_pairing m code).2 ≠ Err request_not_found).
Proof.
  intros Hr. assert (pairing_wf m) as Hw.
  { revert m Hr. apply rtc_ind_r; [apply pairing_wf_new|]. intros m m' _ Hs Hm. by eapply pairing_step_wf. }
  split; [done|]. split_and!.
  - intros code. unfold get_request_by_code. destruct (pm_codes m !! code) eqn:Ec; simpl; [|done].
    destruct (wf_codes _ Hw _ _ Ec) as (r & -> & _). done.
  - intros now code user. unfold confirm_pairing. destruct (pm_codes m !! code) eqn:Ec; simpl; [|done].
    destruct (wf_codes _ Hw _ _ Ec) as (r & -> & _). by repeat case_match.
  - intros code. unfold reject_pairing. destruct (pm_codes m !! code) eqn:Ec; simpl; [|done].
    by destruct (wf_codes _ Hw _ _ Ec) as (r & -> & _).
Qed.

(** ** How a device becomes paired *)

Definition paired m (device : string) : Prop := ∃ d, get_device m device = Some d ∧ dv_paired d = true.

Lemma paired_insert m ds id d device :
  pm_devices m = ds →
  paired (set_devices m (<[ id := d ]> ds)) device →
  device = id ∧ dv_paired d = true ∨ paired m device.
Proof.
  intros <- (e & He & Hp). unfold get_device in He. simpl in He.
  destruct (decide (device = id)) as [->|].
  - rewrite lookup_insert_eq in He. left. naive_solver.
  - rewrite lookup_insert_ne in He by done. right. by exists e.
Qed.

Lemma remove_request_devices m id : pm_devices (remove_request m id) = pm_devices m.
Proof. unfold remove_request. by destruct (pm_requests m !! id). Qed.

(** C33. A device that was not paired becomes paired only by the confirmation of an
    unexpired request for this device, under its code, that nobody had rejected
    or cancelled; or by the direct device operations. *)
Theorem pairing_needs_confirmation ttl m op device :
  rtc pairing_step (with_pairing_ttl DevicePairingManager_new ttl) m →
  ¬ paired m device → paired (pairing_apply m op) device →
  match op with
  | PoConfirm now code user =>
      ∃ r, get_request_by_code m code = Ok r ∧ pq_device_id r = device ∧ pq_pairing_code r = code ∧
        ¬ withdrawn (pq_status r) ∧ (now ≤ pq_expires_at r)%Z ∧
        get_request_by_code (pairing_apply m op) code = Err invalid_code ∧
        (pq_user_id <$> pm_requests (pairing_apply m op) !! pq_request_id r) = Some (Some user)
  | PoRegister d | PoUpdate d => dv_id d = device ∧ dv_paired d = true
  | PoPair _ id => id = device
  | _ => False
  end.
Proof.
  intros [Hw _]%pairing_invariant Hn Hp. destruct op as [uuid random now dev name type|id|now code user|code|
    id|now|d|d|id|now id|id|id t]; simpl in *.
  - apply Hn. destruct Hp as (e & He & Hp). unfold get_device in *. simpl in He.
    destruct (decide (device = dev)) as [->|]; [rewrite lookup_insert_eq in He; by simplify_eq/=|].
    rewrite lookup_insert_ne in He by done. by exists e.
  - apply Hn. unfold expire_request in Hp. by repeat case_match.
  - unfold get_request_by_code, confirm_pairing in *.
    destruct (pm_codes m !! code) as [id|] eqn:Ec; simpl in *; [|done].
    destruct (wf_codes _ Hw _ _ Ec) as (r & Er & Hc & Hs). rewrite Er in *. simpl in *.
    destruct (PairingRequest_is_expired r now) eqn:Ex; [by destruct Hn|].
    unfold PairingRequest_is_expired in Ex. bool_prop.
    destruct (pm_devices m !! pq_device_id r) as [d|] eqn:Ed; [|by destruct Hn].
    exists r. split; [done|]. simpl in Hp. apply paired_insert in Hp as [[-> _]|Hp]; [|by destruct Hn|done].
    split_and!; [done..|lia| |].
    + simpl. by rewrite lookup_delete_eq.
    + simpl. rewrite (wf_requests _ Hw _ _ Er), lookup_insert_eq. done.
  - apply Hn. unfold reject_pairing in Hp. by repeat case_match.
  - apply Hn. unfold cancel_pairing in Hp. by repeat case_match.
  - apply Hn. unfold cleanup_expired_requests in Hp. simpl in Hp.
    assert (∀ ids m', pm_devices (foldl remove_request m' ids) = pm_devices m') as Hd.
    { induction ids as [|i ids IH]; simpl; intros m'; [done|]. by rewrite IH, remove_request_devices. }
    unfold paired, get_device in *. by rewrite Hd in Hp.
  - apply paired_insert in Hp as [[? ?]|]; [done|by destruct Hn|done].
  - apply paired_insert in Hp as [[? ?]|]; [done|by destruct Hn|done].
  - apply Hn. destruct Hp as (e & He & Hp). unfold get_device in *. simpl in He.
    apply lookup_delete_Some in He as [_ He]. by exists e.
  - unfold pair_device in Hp. destruct (pm_devices m !! id) eqn:Ed; [|by destruct Hn].
    apply paired_insert in Hp as [[? ?]|]; [done|by destruct Hn|done].
  - apply Hn. unfold unpair_device in Hp. destruct (pm_devices m !! id) eqn:Ed; [|done].
    apply paired_insert in Hp as [[-> ?]|]; done.
  - apply Hn. destruct Hp as (e & He & Hp). unfold get_device, update_last_seen in *. simpl in He.
    rewrite map_update_lookup in He. case_decide; [|by exists e]. subst.
    destruct (pm_devices m !! device) as [d|] eqn:Ed; simplify_eq/=. by exists d.
Qed.
(** Initiating a pairing for a device that is already paired, which anyone who
    names the device can do, makes it unpaired. *)
Lemma initiate_unpairs m uuid random now device name type :
  ¬ paired (initiate_pairing m uuid random now device name type).1 device.
Proof.
  intros (d & Hd & Hp). unfold get_device in Hd. simpl in Hd. rewrite lookup_insert_eq in Hd.
  by simplify_eq/=.
Qed.

(** Two open requests that drew the same code: the code leads to the second, and
    when the first expires the code of the second is gone, although the second is
    still pending; it can no longer be confirmed. *)
Theorem colliding_codes m u1 u2 random now1 now2 d1 d2 n1 n2 t1 t2 :
  u1 ≠ u2 →
  let m1 := (initiate_pairing m u1 random now1 d1 n1 t1).1 in
  let m2 := (initiate_pairing m1 u2 random now2 d2 n2 t2).1 in
  let m3 := expire_request m2 u1 in
  let code := generate_pairing_code random in
  pq_device_id <$> pm_requests m2 !! u2 = Some d2 ∧
  (∃ r, get_request_by_code m2 code = Ok r ∧ pq_device_id r = d2) ∧
  (∃ r, get_pairing_request m3 u2 = Ok r ∧ pq_status r = PsPending) ∧
  get_request_by_code m3 code = Err invalid_code ∧
  ∀ now user, (confirm_pairing m3 now code user).2 = Err invalid_code.
Proof.
  intros Hne m1 m2 m3 code. assert (pm_codes m3 !! code = None) as Hc.
  { unfold m3, expire_request. simpl. rewrite lookup_insert_ne by done. rewrite lookup_insert_eq. simpl.
    by rewrite lookup_delete_eq. }
  split_and!.
  - simpl. by rewrite lookup_insert_eq.
  - unfold get_request_by_code. simpl. rewrite lookup_insert_eq. simpl. rewrite lookup_insert_eq.
    by eexists.
  - unfold get_pairing_request, m3, expire_request. simpl. rewrite lookup_insert_ne by done.
    rewrite lookup_insert_eq. simpl. rewrite lookup_insert_ne, lookup_insert_eq by done. by eexists.
  - unfold get_request_by_code. by rewrite Hc.
  - intros now user. unfold confirm_pairing. by rewrite Hc.
Qed.

(** A confirmation whose device was deleted fails, but leaves the request marked
    as paired and its code usable. *)
Lemma failed_confirm_marks_paired m now code user id r :
  pm_codes m !! code = Some id → pm_requests m !! id = Some r → (now ≤ pq_expires_at r)%Z →
  pm_devices m !! pq_device_id r = None →
  let '(m', result) := confirm_pairing m now code user in
  result = Err (PDeviceNotPaired (pq_device_id r)) ∧
  pq_status <$> pm_requests m' !! id = Some PsPaired ∧ pm_codes m' !! code = Some id.
Proof.
  intros Hc Hr Hx Hd. unfold confirm_pairing. rewrite Hc, Hr. unfold PairingRequest_is_expired.
  rewrite bool_decide_false by lia. rewrite Hd. simpl. by rewrite lookup_insert_eq.
Qed.
End Pairing.

(** ** Locks *)

(** A task: the guards it holds, with whether they are for writing, and what is
    left of its locking. *)
Record lock_task := MkLockTask {
  lt_held : list (pairing_lock * bool);
  lt_todo : list lock_action
}.
Definition start_call (c : pairing_call) : lock_task := MkLockTask [] (call_locks c).

Fixpoint drop_guard (l : pairing_lock) (held : list (pairing_lock * bool)) : list (pairing_lock * bool) :=
  match held with
  | [] => []
  | g :: gs => if bool_decide (g.1 = l) then gs else g :: drop_guard l gs
  end.

(** No guard of any task excludes the new one. *)
Definition lock_free_for (l : pairing_lock) (write : bool) (ts : list lock_task) : bool :=
  forallb (λ t, forallb (λ g, negb (bool_decide (g.1 = l)) || (negb write && negb g.2)) (lt_held t)) ts.

(** The task after its next action, if that is possible now. *)
Definition task_advance (ts : list lock_task) (t : lock_task) : option lock_task :=
  match lt_todo t with
  | [] => None
  | AcquireRead l :: rest =>
      if lock_free_for l false ts then Some (MkLockTask ((l, false) :: lt_held t) rest) else None
  | AcquireWrite l :: rest =>
      if lock_free_for l true ts then Some (MkLockTask ((l, true) :: lt_held t) rest) else None
  | ReleaseLock l :: rest => Some (MkLockTask (drop_guard l (lt_held t)) rest)
  end.

(** One task makes its next step. *)
Inductive tasks_step : list lock_task → list lock_task → Prop :=
| tasks_advance ts i t t' :
    ts !! i = Some t → task_advance ts t = Some t' → tasks_step ts (<[ i := t' ]> ts).

Definition unfinished (ts : list lock_task) : bool := existsb (λ t, negb (bool_decide (lt_todo t = []))) ts.
Definition deadlocked (ts : list lock_task) : Prop := unfinished ts = true ∧ ∀ ts', ¬ tasks_step ts ts'.

(** The search over all interleavings. *)
Definition successors (ts : list lock_task) : list (list lock_task) :=
  omap (λ i, t ← ts !! i; t' ← task_advance ts t; Some (<[ i := t' ]> ts)) (seq 0 (length ts)).

Fixpoint may_deadlock (fuel : nat) (ts : list lock_task) : bool :=
  match successors ts with
  | [] => unfinished ts
  | succs => match fuel with O => false | S fuel' => existsb (may_deadlock fuel') succs end
  end.

Definition work_left (ts : list lock_task) : nat := sum_list_with (λ t, length (lt_todo t)) ts.

#[export] Instance lock_action_eq_dec : EqDecision lock_action.
Proof. solve_decision. Defined.

Lemma successors_spec ts ts' : ts' ∈ successors ts ↔ tasks_step ts ts'.
Proof.
  unfold successors. rewrite list_elem_of_omap. split.
  - intros (i & _ & Hi). destruct (ts !! i) as [t|] eqn:Et; simpl in Hi; [|done].
    destruct (task_advance ts t) as [t'|] eqn:Ea; simplify_eq/=. by econstructor.
  - intros [ts0 i t t' Hi Ha]. exists i. split; [|by rewrite Hi; simpl; rewrite Ha].
    apply elem_of_seq. apply lookup_lt_Some in Hi. lia.
Qed.

Lemma step_work_left ts ts' : tasks_step ts ts' → work_left ts = S (work_left ts').
Proof.
  intros [ts0 i t t' Hi Ha]. unfold work_left.
  assert (length (lt_todo t) = S (length (lt_todo t'))) as Hl.
  { unfold task_advance in Ha. destruct (lt_todo t) as [|[l|l|l] rest] eqn:Et; [done|..];
      repeat case_match; simplify_eq/=; done. }
  revert i Hi. clear Ha. induction ts0 as [|u us IH]; intros [|i] Hi; simplify_eq/=; [lia|].
  rewrite (IH i) by done. lia.
Qed.

Lemma may_deadlock_spec fuel ts :
  work_left ts ≤ fuel →
  may_deadlock fuel ts = true ↔ ∃ ts', rtc tasks_step ts ts' ∧ deadlocked ts'.
Proof.
  revert ts. induction fuel as [|fuel IH]; intros ts Hf; simpl.
  all: destruct (successors ts) as [|s ss] eqn:Es.
  1,3: split; [intros Hu; exists ts; split; [done|]; split; [done|];
         intros ts' Hs%successors_spec; rewrite Es in Hs; by apply elem_of_nil in Hs|].
  1,2: intros (ts' & Hr & Hd); inversion Hr as [|? u ? Hu]; subst; [apply Hd|];
         apply successors_spec in Hu; rewrite Es in Hu; by apply elem_of_nil in Hu.
  - assert (tasks_step ts s) as Hs by (apply successors_spec; rewrite Es; left).
    apply step_work_left in Hs. lia.
  - change (existsb (may_deadlock fuel) (s :: ss) = true ↔ ∃ ts', rtc tasks_step ts ts' ∧ deadlocked ts').
    rewrite existsb_exists. setoid_rewrite <-list_elem_of_In. rewrite <-Es.
    setoid_rewrite successors_spec. split.
    + intros (u & Hu & Hm). pose proof (step_work_left _ _ Hu). apply IH in Hm as (ts' & Hr & Hd); [|lia].
      exists ts'. split; [by eapply rtc_l|done].
    + intros (ts' & Hr & Hd). inversion Hr as [|? u ? Hu Hr']; subst.
      { destruct Hd as [_ Hd]. exfalso. apply (Hd s), successors_spec. rewrite Es. left. }
      exists u. split; [done|]. pose proof (step_work_left _ _ Hu). apply IH; [lia|]. by exists ts'.
Qed.

(** Operations that hold a guard of the codes when they ask for the requests, and
    operations that write the codes while they hold the requests. *)
Definition codes_then_requests (c : pairing_call) : bool :=
  bool_decide (c = CallByCode ∨ c = CallConfirm ∨ c = CallReject).
Definition requests_then_codes (c : pairing_call) : bool :=
  bool_decide (c = CallExpire ∨ c = CallConfirm ∨ c = CallReject ∨ c = CallCancel ∨ c = CallCleanup).
Definition may_block (c1 c2 : pairing_call) : bool :=
  codes_then_requests c1 && requests_then_codes c2
  || bool_decide (c1 = CallConfirm ∧ c2 = CallStatus).

(** Two concurrent operations can block each other for ever exactly when one
    takes the codes before the requests and the other the reverse (two
    confirmations, or a confirmation and an expiry, among them), or when a
    confirmation meets a status query. *)
Theorem pairing_deadlocks c1 c2 :
  (∃ ts, rtc tasks_step [start_call c1; start_call c2] ts ∧ deadlocked ts) ↔
  may_block c1 c2 || may_block c2 c1 = true.
Proof.
  rewrite <-(may_deadlock_spec 40) by (destruct c1, c2; vm_compute; lia).
  by destruct c1, c2; vm_compute.
Qed.

(** ** Examples *)

#[local] Existing Instance json_trees.
#[local] Existing Instance canonical_order.

Definition demo_pairing : DevicePairingManager :=
  (initiate_pairing DevicePairingManager_new "r1" 42 1000 "device-1" "Sensor" "sensor").1.

Lemma demo_pairing_reachable :
  rtc pairing_step (with_pairing_ttl DevicePairingManager_new 300) demo_pairing.
Proof. apply rtc_once. by exists (PoInitiate "r1" 42 1000 "device-1" "Sensor" "sensor"). Qed.

Example demo_pairing_code : generate_pairing_code 42 = "000042".
Proof. reflexivity. Qed.

Lemma pairing_invariant_witness : pairing_wf demo_pairing.
Proof. apply (pairing_invariant 300), demo_pairing_reachable. Defined.

Lemma pairing_needs_confirmation_witness :
  ∃ r, get_request_by_code demo_pairing "000042" = Ok r ∧ pq_device_id r = "device-1".
Proof.
  destruct (pairing_needs_confirmation 300 demo_pairing (PoConfirm 1100 "000042" "user") "device-1"
    demo_pairing_reachable) as (r & Hr & Hd & _).
  - intros (d & Hd & Hp). vm_compute in Hd. injection Hd as <-. discriminate Hp.
  - eexists. split; [vm_compute; reflexivity|reflexivity].
  - exists r. split; [exact Hr|exact Hd].
Defined.

Lemma colliding_codes_witness :
  let m1 := demo_pairing in
  let m2 := (initiate_pairing m1 "r2" 42 1010 "device-2" "Lamp" "lamp").1 in
  get_request_by_code (expire_request m2 "r1") "000042" = Err invalid_code.
Proof.
  exact (proj1 (proj2 (proj2 (proj2 (colliding_codes DevicePairingManager_new "r1" "r2" 42 1000 1010
    "device-1" "device-2" "Sensor" "Lamp" "sensor" "lamp" ltac:(discriminate)))))).
Defined.
