(* ===== verification/Sharding.v ===== *)
(** Sharding of the storage ([crates/uhorse-storage/src/sharding]: [strategy.rs],
    [router.rs], [replica.rs], [migration.rs]): the configuration, the router
    with its hash ring and its tenant cache, the replicas with read-write
    splitting, and the records of migrations.  A panic is [None] of the outer
    option; errors are the texts of [anyhow]. *)
From S2P Require Import Prelude Float32 ProtocolTypes Permission.

(** ** Strategies and configuration *)

Inductive ShardingStrategy := TenantBased | HashBased | RangeBased.
Definition ShardingStrategy_default : ShardingStrategy := TenantBased.
Definition ShardingStrategy_from_str `{ToLowercase} (s : string) : Result ShardingStrategy string :=
  let t := to_lowercase s in
  if bool_decide (t = "tenant_based" ∨ t = "tenant") then Ok TenantBased
  else if bool_decide (t = "hash_based" ∨ t = "hash") then Ok HashBased
  else if bool_decide (t = "range_based" ∨ t = "range") then Ok RangeBased
  else Err ("Unknown sharding strategy: " +:+ s).

Record ShardKey := MkShardKey {
  sk_tenant_id : option string;
  sk_user_id : option string;
  sk_timestamp : option Z
}.
Definition from_tenant (t : string) : ShardKey := MkShardKey (Some t) None None.
Definition from_user (u : string) : ShardKey := MkShardKey None (Some u) None.
Definition from_timestamp (t : Z) : ShardKey := MkShardKey None None (Some t).

Record ShardConfig := MkShardConfig {
  sc_id : Z;
  sc_dsn : string;
  sc_weight : Z;
  sc_active : bool
}.
Record ReplicaConfig := MkReplicaConfig {
  rp_shard_id : Z;
  rp_replica_id : Z;
  rp_dsn : string;
  rp_read_only : bool
}.
Record ShardingConfig := MkShardingConfig {
  sh_strategy : ShardingStrategy;
  sh_shard_count : Z;
  sh_shards : list ShardConfig;
  sh_replicas : list ReplicaConfig
}.
Definition ShardingConfig_default : ShardingConfig :=
  MkShardingConfig ShardingStrategy_default 1 [MkShardConfig 0 "sqlite://data/uhorse.db" 1 true] [].

Definition get_shard (c : ShardingConfig) (id : Z) : option ShardConfig :=
  List.find (λ s, bool_decide (sc_id s = id)) (sh_shards c).
Definition config_get_replicas (c : ShardingConfig) (shard : Z) : list ReplicaConfig :=
  List.filter (λ r, bool_decide (rp_shard_id r = shard)) (sh_replicas c).
Definition active_shards (c : ShardingConfig) : list ShardConfig :=
  List.filter sc_active (sh_shards c).

(** ** The router *)

Record RouteResult := MkRouteResult {
  ro_shard_id : Z;
  ro_shard : ShardConfig;
  ro_use_replica : bool
}.
Record ShardingRouter := MkShardingRouter {
  sr_config : ShardingConfig;
  tenant_shard_map : gmap string Z;
  hash_ring : list Z
}.

(** The identifiers of the active shards, sorted. *)
Definition build_hash_ring (c : ShardingConfig) : list Z :=
  sort_by Z.leb (sc_id <$> List.filter sc_active (sh_shards c)).

Definition ShardingRouter_new (c : ShardingConfig) : ShardingRouter :=
  MkShardingRouter c ∅ (build_hash_ring c).
Definition set_tenant_map (r : ShardingRouter) (m : gmap string Z) : ShardingRouter :=
  MkShardingRouter (sr_config r) m (hash_ring r).

(** 64-bit arithmetic with the constants of the 32-bit FNV-1a. *)
Fixpoint hash_bytes (h : Z) (s : string) : Z :=
  match s with
  | EmptyString => h
  | String c s' =>
      hash_bytes (wrap 64 (Z.lxor h (Z.of_nat (Ascii.nat_of_ascii c)) * 0x01000193)) s'
  end.
Definition hash_key (key : string) : Z := hash_bytes 0x811c9dc5 key.

(** The first shard of the ring whose hash is not below that of the key, or else
    the first of all; an empty ring panics. *)
Definition ring_lookup (ring : list Z) (h : Z) : option Z :=
  match List.find (λ id, (h <=? hash_key (display_u id))%Z) ring with
  | Some id => Some id
  | None => head ring
  end.

Definition assign_shard_for_tenant (r : ShardingRouter) (tenant : string) : option (Result Z string) :=
  match active_shards (sr_config r) with
  | [] => Some (Err "No active shards available")
  | _ => Ok <$> ring_lookup (hash_ring r) (hash_key tenant)
  end.

Definition route_by_tenant (r : ShardingRouter) (k : ShardKey)
    : option (ShardingRouter * Result Z string) :=
  match sk_tenant_id k with
  | None => Some (r, Err "Tenant ID required for tenant-based sharding")
  | Some tenant =>
      match tenant_shard_map r !! tenant with
      | Some id => Some (r, Ok id)
      | None =>
          a ← assign_shard_for_tenant r tenant;
          Some match a with
               | Ok id => (set_tenant_map r (<[ tenant := id ]> (tenant_shard_map r)), Ok id)
               | Err e => (r, Err e)
               end
      end
  end.

Definition route_by_hash (r : ShardingRouter) (k : ShardKey) : option (Result Z string) :=
  match sk_user_id k with
  | None => Some (Err "User ID required for hash-based sharding")
  | Some user => Ok <$> ring_lookup (hash_ring r) (hash_key user)
  end.

(** [(timestamp / (30 * 24 * 60 * 60)) as u32], modulo the number of shards. *)
Definition route_by_range (r : ShardingRouter) (k : ShardKey) : option (Result Z string) :=
  match sk_timestamp k with
  | None => Some (Err "Timestamp required for range-based sharding")
  | Some t =>
      let month := wrap 32 (Z.quot t (30 * 24 * 60 * 60)) in
      let active := active_shards (sr_config r) in
      let count := wrap 32 (zlen active) in
      if decide (count = 0%Z) then None
      else s ← active !! Z.to_nat (month mod count); Some (Ok (sc_id s))
  end.

Definition route_shard (r : ShardingRouter) (k : ShardKey) : option (ShardingRouter * Result Z string) :=
  match sh_strategy (sr_config r) with
  | TenantBased => route_by_tenant r k
  | HashBased => pair r <$> route_by_hash r k
  | RangeBased => pair r <$> route_by_range r k
  end.

Definition route (r : ShardingRouter) (k : ShardKey) (is_read : bool)
    : option (ShardingRouter * Result RouteResult string) :=
  '(r', id) ← route_shard r k;
  Some (r',
    let? id := id in
    let? s := ok_or (get_shard (sr_config r) id) ("Shard " +:+ display_u id +:+ " not found") in
    if sc_active s then Ok (MkRouteResult id s is_read)
    else Err ("Shard " +:+ display_u id +:+ " is not active")).

Definition assign_tenant_shard (r : ShardingRouter) (tenant : string) (id : Z)
    : ShardingRouter * Result unit string :=
  match get_shard (sr_config r) id with
  | None => (r, Err ("Shard " +:+ display_u id +:+ " does not exist"))
  | Some _ => (set_tenant_map r (<[ tenant := id ]> (tenant_shard_map r)), Ok tt)
  end.
Definition remove_tenant_assignment (r : ShardingRouter) (tenant : string)
    : ShardingRouter * Result unit string :=
  (set_tenant_map r (delete tenant (tenant_shard_map r)), Ok tt).
Definition get_tenant_assignments : ShardingRouter → gmap string Z := tenant_shard_map.
Definition rebuild_hash_ring (r : ShardingRouter) : ShardingRouter :=
  MkShardingRouter (sr_config r) (tenant_shard_map r) (build_hash_ring (sr_config r)).

(** ** Replicas *)

Record ReplicaStats := MkReplicaStats {
  rs_queries_served : Z;
  rs_queries_failed : Z;
  rs_avg_latency_us : Z;
  rs_last_health_check : Z
}.
Definition ReplicaStats_default : ReplicaStats := MkReplicaStats 0 0 0 0.

Inductive ReplicaState := RHealthy | RLagging | RUnhealthy | RDisconnected.
#[export] Instance ReplicaState_eq_dec : EqDecision ReplicaState.
Proof. solve_decision. Defined.

Record ReplicaInfo := MkReplicaInfo {
  ri_config : ReplicaConfig;
  ri_state : ReplicaState;
  ri_stats : ReplicaStats;
  ri_lag_seconds : f64
}.
Record ReplicaManager := MkReplicaManager {
  rm_replicas : list ReplicaInfo;
  rm_max_lag_seconds : f64
}.
Definition ReplicaManager_new (configs : list ReplicaConfig) (max_lag : f64) : ReplicaManager :=
  MkReplicaManager ((λ c, MkReplicaInfo c RHealthy ReplicaStats_default f32_zero) <$> configs) max_lag.

Definition set_stats (i : ReplicaInfo) (s : ReplicaStats) : ReplicaInfo :=
  MkReplicaInfo (ri_config i) (ri_state i) s (ri_lag_seconds i).
Definition serve (i : ReplicaInfo) : ReplicaInfo :=
  let s := ri_stats i in
  set_stats i (MkReplicaStats (wrap 64 (rs_queries_served s + 1)) (rs_queries_failed s)
    (rs_avg_latency_us s) (rs_last_health_check s)).

Definition replica_usable (m : ReplicaManager) (shard : Z) (i : ReplicaInfo) : bool :=
  bool_decide (rp_shard_id (ri_config i) = shard) && rp_read_only (ri_config i)
  && bool_decide (ri_state i = RHealthy) && SpecFloat.SFleb (ri_lag_seconds i) (rm_max_lag_seconds m).

(** [1_000_000 / latency.max(1)]. *)
Definition latency_weight (i : ReplicaInfo) : Z := (1000000 / Z.max 1 (rs_avg_latency_us (ri_stats i)))%Z.

Fixpoint weighted_walk {A} (random : Z) (l : list (Z * A)) : option A :=
  match l with
  | [] => None
  | (w, x) :: l' => if (random <? w)%Z then Some x else weighted_walk (random - w) l'
  end.

(** The choice among the candidates (non-empty), which carry their positions;
    a remainder by zero panics.  [nanos] is the clock. *)
Definition weighted_select {A} (nanos : Z) (candidates : list (A * ReplicaInfo)) : option (A * ReplicaInfo) :=
  match candidates with
  | [] => None
  | [c] => Some c
  | c :: _ =>
      let weights := (λ c, latency_weight c.2) <$> candidates in
      let total := foldr Z.add 0%Z weights in
      if decide (total = 0%Z) then None
      else Some (default c (weighted_walk (wrap 64 nanos mod total) (zip weights candidates)))
  end.

Definition select_replica (m : ReplicaManager) (nanos shard : Z)
    : option (ReplicaManager * option ReplicaConfig) :=
  let indexed := zip (seq 0 (length (rm_replicas m))) (rm_replicas m) in
  match List.filter (λ c, replica_usable m shard c.2) indexed with
  | [] => Some (m, None)
  | healthy =>
      c ← weighted_select nanos healthy;
      Some (MkReplicaManager (alter serve c.1 (rm_replicas m)) (rm_max_lag_seconds m),
            Some (ri_config c.2))
  end.

(** The first replica with the identifier is changed. *)
Fixpoint update_replica (id : Z) (f : ReplicaInfo → ReplicaInfo) (l : list ReplicaInfo) : list ReplicaInfo :=
  match l with
  | [] => []
  | i :: l' => if bool_decide (rp_replica_id (ri_config i) = id) then f i :: l' else i :: update_replica id f l'
  end.

Definition update_health (m : ReplicaManager) (now id : Z) (lag : f64) (is_healthy : bool) : ReplicaManager :=
  let state := if negb is_healthy then RUnhealthy
               else if SpecFloat.SFltb (rm_max_lag_seconds m) lag then RLagging else RHealthy in
  MkReplicaManager
    (update_replica id (λ i, MkReplicaInfo (ri_config i) state
       (MkReplicaStats (rs_queries_served (ri_stats i)) (rs_queries_failed (ri_stats i))
          (rs_avg_latency_us (ri_stats i)) now) lag) (rm_replicas m))
    (rm_max_lag_seconds m).

Definition moving_average (current latency : Z) : Z :=
  if decide (current = 0%Z) then latency else (wrap 64 (wrap 64 (current * 9) + latency) / 10)%Z.

Definition record_query (m : ReplicaManager) (id : Z) (success : bool) (latency : Z) : ReplicaManager :=
  MkReplicaManager
    (update_replica id (λ i,
       let s := ri_stats i in
       set_stats i (MkReplicaStats
         (if success then wrap 64 (rs_queries_served s + 1) else rs_queries_served s)
         (if success then rs_queries_failed s else wrap 64 (rs_queries_failed s + 1))
         (moving_average (rs_avg_latency_us s) latency) (rs_last_health_check s))) (rm_replicas m))
    (rm_max_lag_seconds m).

Definition manager_get_replicas (m : ReplicaManager) (shard : Z) : list ReplicaInfo :=
  List.filter (λ i, bool_decide (rp_shard_id (ri_config i) = shard)) (rm_replicas m).
Definition healthy_count (m : ReplicaManager) (shard : Z) : nat :=
  length (List.filter (λ i, bool_decide (rp_shard_id (ri_config i) = shard)
    && bool_decide (ri_state i = RHealthy)) (rm_replicas m)).

Record ReadWriteSplitter := MkReadWriteSplitter {
  rw_manager : ReplicaManager;
  rw_use_replicas : bool
}.
Definition ReadWriteSplitter_new (m : ReplicaManager) : ReadWriteSplitter := MkReadWriteSplitter m true.
Definition disable_replicas (s : ReadWriteSplitter) : ReadWriteSplitter := MkReadWriteSplitter (rw_manager s) false.
Definition enable_replicas (s : ReadWriteSplitter) : ReadWriteSplitter := MkReadWriteSplitter (rw_manager s) true.
Definition should_use_replica (s : ReadWriteSplitter) (shard : Z) (is_read : bool) : bool :=
  if negb is_read || negb (rw_use_replicas s) then false
  else (0 <? healthy_count (rw_manager s) shard)%nat.
Definition get_datasource (s : ReadWriteSplitter) (nanos shard : Z) (primary : string) (is_read : bool)
    : option (ReadWriteSplitter * string) :=
  if should_use_replica s shard is_read then
    '(m, r) ← select_replica (rw_manager s) nanos shard;
    Some (MkReadWriteSplitter m (rw_use_replicas s),
          match r with Some c => rp_dsn c | None => primary end)
  else Some (s, primary).

(** ** Migrations *)

Inductive MigrationStatus := MgPending | MgInProgress | MgCompleted | MgFailed (e : string) | MgRolledBack.
#[export] Instance MigrationStatus_eq_dec : EqDecision MigrationStatus.
Proof. solve_decision. Defined.
Definition MigrationStatus_display (s : MigrationStatus) : string :=
  match s with
  | MgPending => "Pending"
  | MgInProgress => "In Progress"
  | MgCompleted => "Completed"
  | MgFailed e => "Failed: " +:+ e
  | MgRolledBack => "Rolled Back"
  end.

Record MigrationStep := MkMigrationStep {
  ms_id : string;
  ms_source_shard : Z;
  ms_target_shard : Z;
  ms_range_start : Z;
  ms_range_end : Z;
  ms_status : MigrationStatus;
  ms_processed : Z;
  ms_total : Z;
  ms_started_at : option Z;
  ms_completed_at : option Z
}.
Definition MigrationStep_new (id : string) (source target range_start range_end total : Z) : MigrationStep :=
  MkMigrationStep id source target range_start range_end MgPending 0 total None None.
Definition progress (s : MigrationStep) : f64 :=
  if decide (ms_total s = 0%Z) then f32_zero
  else f64_mul (f64_div (f64_of_Z (ms_processed s)) (f64_of_Z (ms_total s))) (f64_of_Z 100).
Definition is_complete (s : MigrationStep) : bool := bool_decide (ms_status s = MgCompleted).
Definition migration_is_running (s : MigrationStep) : bool := bool_decide (ms_status s = MgInProgress).

Abbreviation MigrationManager := (list MigrationStep).
Definition MigrationManager_new : MigrationManager := [].

Definition get_migration (m : MigrationManager) (id : string) : option MigrationStep :=
  List.find (λ s, bool_decide (ms_id s = id)) m.

Definition create_migration (m : MigrationManager) (s : MigrationStep)
    : MigrationManager * Result unit string :=
  if existsb (λ x, bool_decide (ms_id x = ms_id s)) m
  then (m, Err ("Migration " +:+ ms_id s +:+ " already exists"))
  else (m ++ [s], Ok tt).

Definition migrate_to (now : Z) (status : MigrationStatus) (processed : option Z) (s : MigrationStep)
    : MigrationStep :=
  MkMigrationStep (ms_id s) (ms_source_shard s) (ms_target_shard s) (ms_range_start s) (ms_range_end s)
    status (default (ms_processed s) processed) (ms_total s)
    (if bool_decide (status = MgInProgress ∧ ms_started_at s = None) then Some now else ms_started_at s)
    (if bool_decide (status = MgCompleted) then Some now else ms_completed_at s).

Fixpoint update_first (id : string) (f : MigrationStep → MigrationStep) (m : MigrationManager)
    : option MigrationManager :=
  match m with
  | [] => None
  | s :: m' => if bool_decide (ms_id s = id) then Some (f s :: m') else cons s <$> update_first id f m'
  end.
Definition update_migration_status (m : MigrationManager) (now : Z) (id : string) (status : MigrationStatus)
    (processed : option Z) : MigrationManager * Result unit string :=
  match update_first id (migrate_to now status processed) m with
  | Some m' => (m', Ok tt)
  | None => (m, Err ("Migration " +:+ id +:+ " not found"))
  end.

Definition get_migrations_for_shard (m : MigrationManager) (shard : Z) : list MigrationStep :=
  List.filter (λ s, bool_decide (ms_source_shard s = shard ∨ ms_target_shard s = shard)) m.

(** [remove(pos)] comes before the check of the status. *)
Fixpoint remove_first (id : string) (m : MigrationManager) : option (MigrationStep * MigrationManager) :=
  match m with
  | [] => None
  | s :: m' =>
      if bool_decide (ms_id s = id) then Some (s, m')
      else '(x, rest) ← remove_first id m'; Some (x, s :: rest)
  end.
Definition cancel_migration (m : MigrationManager) (id : string) : MigrationManager * Result unit string :=
  match remove_first id m with
  | Some (s, m') =>
      (m', if migration_is_running s then Err "Cannot cancel in-progress migration" else Ok tt)
  | None => (m, Err ("Migration " +:+ id +:+ " not found"))
  end.
