(* ===== verification/ShardingFacts.v ===== *)
(** Correctness of sharding: where the router sends a key and when it panics, the
    tenant cache, which shards the ring can reach at all, the replicas a read may
    go to, and the records of migrations. *)
From S2P Require Import Prelude Float32 ProtocolTypes Permission Sharding.

(** ** The ring *)

Lemma find_split {A} (f : A → bool) l x :
  List.find f l = Some x → ∃ l1 l2, l = l1 ++ x :: l2 ∧ f x = true ∧ Forall (λ y, f y = false) l1.
Proof.
  induction l as [|y l IH]; simpl; [done|]. destruct (f y) eqn:Ey.
  - intros [= ->]. exists [], l. by split_and!; [..|constructor].
  - intros (l1 & l2 & -> & Hx & Hl)%IH. exists (y :: l1), l2. by split_and!; [..|constructor].
Qed.

Lemma ring_lookup_in ring h id : ring_lookup ring h = Some id → id ∈ ring.
Proof.
  unfold ring_lookup. destruct (List.find _ ring) eqn:E.
  - intros [= ->]. apply find_some in E as [E _]. by apply list_elem_of_In.
  - destruct ring; [done|]. intros [= ->]. left.
Qed.

Lemma ring_lookup_None ring h : ring_lookup ring h = None ↔ ring = [].
Proof.
  unfold ring_lookup. destruct ring as [|x l]; [done|]. split; [|done]. by destruct (List.find _ _).
Qed.

Lemma build_hash_ring_in c id :
  id ∈ build_hash_ring c ↔ ∃ s, s ∈ sh_shards c ∧ sc_active s = true ∧ sc_id s = id.
Proof.
  unfold build_hash_ring. rewrite sort_by_elem_of, list_elem_of_fmap.
  setoid_rewrite elem_of_filter_bool. naive_solver.
Qed.

Lemma build_hash_ring_nil c : build_hash_ring c = [] ↔ active_shards c = [].
Proof.
  unfold build_hash_ring, active_shards. rewrite <-!length_zero_iff_nil, sort_by_length, length_fmap. done.
Qed.

(** A shard that comes after one whose hash is at least as large is selected for
    no key: the ring is in the order of the identifiers, not of the hashes. *)
Theorem shadowed_shard_unreachable ring l1 x l2 y l3 h :
  ring = l1 ++ x :: l2 ++ y :: l3 → y ∉ l1 ++ x :: l2 → (hash_key (display_u y) ≤ hash_key (display_u x))%Z →
  ring_lookup ring h ≠ Some y.
Proof.
  intros -> Hy Hle. unfold ring_lookup. destruct (List.find _ _) as [z|] eqn:E.
  - apply find_split in E as (k1 & k2 & Heq & Hz & Hk). intros [= ->].
    rewrite app_comm_cons, (assoc_L (++)) in Heq.
    assert (x ∈ k1) as Hx.
    { apply app_eq_inv in Heq as [(k & Hk1 & Hk2)|(k & -> & _)].
      - destruct k as [|w k]; simplify_eq/=.
        + rewrite app_nil_r in Hk1. rewrite <-Hk1, elem_of_app. right. left.
        + exfalso. apply Hy. rewrite Hk1, elem_of_app. right. left.
      - rewrite !elem_of_app. left. right. left. }
    rewrite Forall_forall in Hk. specialize (Hk _ Hx). simpl in Hk.
    apply Z.leb_gt in Hk. apply Z.leb_le in Hz. lia.
  - intros Hh. apply Hy. destruct l1; simplify_eq/=; rewrite elem_of_cons; by left.
Qed.

(** The hash of a key of one byte is small. *)
Lemma hash_key_one_byte c : (0 ≤ hash_key (String c "") < 2 ^ 57)%Z.
Proof.
  unfold hash_key. simpl. assert (Z.of_nat (Ascii.nat_of_ascii c) < 2 ^ 32)%Z as Hc.
  { pose proof (Ascii.nat_ascii_bounded c). lia. }
  set (b := Z.of_nat (Ascii.nat_of_ascii c)) in *. set (h := Z.lxor 0x811c9dc5 b).
  assert (0 ≤ h < 2 ^ 32)%Z as Hh.
  { assert (0 ≤ h)%Z as H0 by (apply Z.lxor_nonneg; lia). split; [done|].
    destruct (decide (h = 0%Z)) as [->|]; [lia|].
    apply Z.log2_lt_pow2; [lia|]. eapply Z.le_lt_trans; [apply Z.log2_lxor; lia|].
    assert (Z.log2 b < 32)%Z.
    { destruct (decide (b = 0%Z)) as [->|]; [simpl; lia|]. apply Z.log2_lt_pow2; lia. }
    change (Z.log2 0x811c9dc5) with 31%Z. lia. }
  rewrite wrap_small; lia.
Qed.

(** With identifiers of one digit every key whose hash is at least [2^57], which
    is all but one in 128 of the 64-bit values, goes to the shard with the
    smallest identifier. *)
Theorem one_digit_ring_skewed c h :
  Forall (λ id, 0 ≤ id < 10)%Z (build_hash_ring c) → (2 ^ 57 ≤ h)%Z →
  match ring_lookup (build_hash_ring c) h with
  | Some id => ∀ id', id' ∈ build_hash_ring c → (id ≤ id')%Z
  | None => active_shards c = []
  end.
Proof.
  intros Hd Hh. unfold ring_lookup.
  destruct (List.find _ _) as [z|] eqn:E.
  { exfalso. apply find_some in E as [Hz Hb]. apply Z.leb_le in Hb.
    rewrite Forall_forall in Hd. apply list_elem_of_In, Hd in Hz.
    assert (∃ ch, display_u z = String ch "") as [ch Hc].
    { assert (z ∈ seqZ 0 10) as Hi by (apply elem_of_seqZ; lia). clear -Hi.
      change (seqZ 0 10) with [0; 1; 2; 3; 4; 5; 6; 7; 8; 9]%Z in Hi.
      repeat (apply elem_of_cons in Hi as [->|Hi]; [by eexists|]). by apply elem_of_nil in Hi. }
    rewrite Hc in Hb. pose proof (hash_key_one_byte ch). lia. }
  destruct (build_hash_ring c) as [|x l] eqn:Er; simpl.
  { by apply build_hash_ring_nil. }
  intros id' Hi. rewrite <-Er in Hi. unfold build_hash_ring in Er, Hi.
  apply sort_by_elem_of in Hi.
  apply (sort_by_head_min Z.leb) in Er as [_ Hmin]; [by apply Z.leb_le, Hmin| |];
    intros *; rewrite !Z.leb_le; lia.
Qed.

(** ** Routing *)

Inductive router_op :=
| RoRoute (k : ShardKey) (is_read : bool)
| RoAssign (tenant : string) (id : Z)
| RoRemove (tenant : string)
| RoRebuild.

(** A call that panics leaves the router as it was. *)
Definition router_apply (r : ShardingRouter) (op : router_op) : ShardingRouter :=
  match op with
  | RoRoute k b => from_option fst r (route r k b)
  | RoAssign t id => (assign_tenant_shard r t id).1
  | RoRemove t => (remove_tenant_assignment r t).1
  | RoRebuild => rebuild_hash_ring r
  end.
Definition router_run : ShardingRouter → list router_op → ShardingRouter := foldl router_apply.

Definition router_wf (c : ShardingConfig) (r : ShardingRouter) : Prop :=
  sr_config r = c ∧ hash_ring r = build_hash_ring c.

Lemma route_shard_router r k r' res :
  route_shard r k = Some (r', res) →
  r' = r ∨ ∃ t id, r' = set_tenant_map r (<[ t := id ]> (tenant_shard_map r)) ∧
    sk_tenant_id k = Some t ∧ tenant_shard_map r !! t = None ∧
    ring_lookup (hash_ring r) (hash_key t) = Some id.
Proof.
  unfold route_shard. destruct (sh_strategy _).
  - unfold route_by_tenant. destruct (sk_tenant_id k) as [t|]; [|naive_solver].
    destruct (tenant_shard_map r !! t) eqn:Et; [naive_solver|]. unfold assign_shard_for_tenant.
    destruct (active_shards _); simpl; [naive_solver|].
    destruct (ring_lookup _ _) as [id|] eqn:El; simpl; [|done]. intros [= <- <-]. right. by exists t, id.
  - destruct (route_by_hash r k); naive_solver.
  - destruct (route_by_range r k); naive_solver.
Qed.

Lemma router_apply_wf c r op : router_wf c r → router_wf c (router_apply r op).
Proof.
  intros [Hc Hr]. destruct op as [k b|t id|t|]; simpl.
  - unfold route. destruct (route_shard r k) as [[r' res]|] eqn:E; simpl; [|done].
    apply route_shard_router in E as [->|(t & id & -> & _)]; done.
  - unfold assign_tenant_shard. by case_match.
  - done.
  - split; simpl; [done|by rewrite Hc].
Qed.

Lemma router_run_wf c ops : router_wf c (router_run (ShardingRouter_new c) ops).
Proof.
  assert (∀ r, router_wf c r → router_wf c (router_run r ops)) as Hrun; [|by apply Hrun].
  unfold router_run. induction ops as [|op ops IH]; intros r Hr; simpl; [done|]. by apply IH, router_apply_wf.
Qed.

(** A route leads to an active shard of the configuration, under its identifier.
    Routing panics exactly when no shard is active and the strategy goes by user
    or by time and the key has what it needs; with tenants it is an error. *)
Theorem route_spec c ops k is_read :
  (zlen (active_shards c) < 2 ^ 32)%Z →
  let r := router_run (ShardingRouter_new c) ops in
  match route r k is_read with
  | Some (_, Ok res) =>
      get_shard c (ro_shard_id res) = Some (ro_shard res) ∧ sc_active (ro_shard res) = true ∧
      ro_use_replica res = is_read
  | Some (_, Err _) => True
  | None => active_shards c = [] ∧
      (sh_strategy c = HashBased ∧ is_Some (sk_user_id k) ∨
       sh_strategy c = RangeBased ∧ is_Some (sk_timestamp k))
  end ∧
  (active_shards c = [] → sh_strategy c = HashBased → is_Some (sk_user_id k) → route r k is_read = None) ∧
  (active_shards c = [] → sh_strategy c = RangeBased → is_Some (sk_timestamp k) → route r k is_read = None).
Proof.
  intros Hlen r. destruct (router_run_wf c ops) as [Hc Hr]. fold r in Hc, Hr. split_and!.
  - unfold route. destruct (route_shard r k) as [[r' [id|e]]|] eqn:E; simpl; [|done|].
    + rewrite Hc. destruct (get_shard c id) as [s|] eqn:Es; simpl; [|done].
      destruct (sc_active s) eqn:Ea; done.
    + unfold route_shard in E. rewrite Hc in E. destruct (sh_strategy c) eqn:Est.
      * unfold route_by_tenant in E. destruct (sk_tenant_id k) as [t|]; [|done].
        destruct (tenant_shard_map r !! t); [done|]. unfold assign_shard_for_tenant in E.
        rewrite Hc in E. destruct (active_shards c) eqn:Ea; [done|]. rewrite Hr in E.
        destruct (ring_lookup _ _) eqn:El; [done|].
        apply ring_lookup_None, build_hash_ring_nil in El. congruence.
      * unfold route_by_hash in E. destruct (sk_user_id k); [|done]. rewrite Hr in E.
        destruct (ring_lookup _ _) eqn:El; [done|].
        apply ring_lookup_None, build_hash_ring_nil in El. naive_solver.
      * unfold route_by_range in E. destruct (sk_timestamp k) as [t|]; [|done]. rewrite Hc in E.
        assert (wrap 32 (zlen (active_shards c)) = zlen (active_shards c)) as Hw
          by (apply wrap_small; unfold zlen in *; lia).
        rewrite Hw in E. case_decide as Hz.
        { destruct (active_shards c) eqn:Ea; [naive_solver|]. unfold zlen in Hz. simpl in Hz. lia. }
        exfalso. pose proof (Z.mod_pos_bound (wrap 32 (Z.quot t (30 * 24 * 60 * 60)))
          (zlen (active_shards c)) ltac:(unfold zlen in *; lia)) as Hm.
        destruct (lookup_lt_is_Some_2 (active_shards c)
          (Z.to_nat (wrap 32 (Z.quot t (30 * 24 * 60 * 60)) mod zlen (active_shards c)))) as [s Hs].
        { unfold zlen in *. lia. }
        by rewrite Hs in E.
  - intros Ha Hs [u Hu]. unfold route, route_shard. rewrite Hc, Hs. unfold route_by_hash. rewrite Hu, Hr.
    apply build_hash_ring_nil in Ha. by rewrite Ha.
  - intros Ha Hs [t Ht]. unfold route, route_shard. rewrite Hc, Hs. unfold route_by_range.
    by rewrite Ht, Hc, Ha.
Qed.

(** ** The tenant cache *)

(** Routes, and no manual assignment. *)
Definition is_route (op : router_op) : Prop := match op with RoRoute _ _ => True | _ => False end.

Lemma cache_after_routes c ops :
  Forall is_route ops →
  let r := router_run (ShardingRouter_new c) ops in
  ∀ t id, tenant_shard_map r !! t = Some id →
    active_shards c ≠ [] ∧ ring_lookup (build_hash_ring c) (hash_key t) = Some id.
Proof.
  intros Hops r. assert (∀ r0, router_wf c r0 →
    (∀ t id, tenant_shard_map r0 !! t = Some id →
      active_shards c ≠ [] ∧ ring_lookup (build_hash_ring c) (hash_key t) = Some id) →
    ∀ t id, tenant_shard_map (router_run r0 ops) !! t = Some id →
      active_shards c ≠ [] ∧ ring_lookup (build_hash_ring c) (hash_key t) = Some id) as Hrun.
  { unfold router_run. clear r. induction Hops as [|op ops Hop Hops IH]; intros r0 Hw Hm; simpl; [done|].
    apply IH; [by apply router_apply_wf|]. destruct op as [k b| | |]; [|done..]. simpl. unfold route.
    destruct (route_shard r0 k) as [[r' res]|] eqn:E; simpl; [|done]. destruct Hw as [Hc Hr].
    apply route_shard_router in E as [->|(t & id & -> & _ & _ & Hl)]; [done|].
    intros t' id'. simpl. destruct (decide (t = t')) as [->|]; [|rewrite lookup_insert_ne by done; apply Hm].
    rewrite lookup_insert_eq. intros [= <-]. rewrite <-Hr. split; [|done].
    intros Ha%build_hash_ring_nil. apply ring_lookup_in in Hl. rewrite Hr, Ha in Hl. by apply elem_of_nil in Hl. }
  apply Hrun; [apply (router_run_wf c [])|]. simpl. intros t id. by rewrite lookup_empty.
Qed.

(** The cache is transparent: after any routes a key is routed as by a router
    that was just made, so a tenant never moves. *)
Theorem tenant_cache_transparent c ops k is_read :
  Forall is_route ops →
  snd <$> route (router_run (ShardingRouter_new c) ops) k is_read
  = snd <$> route (ShardingRouter_new c) k is_read.
Proof.
  intros Hops. pose proof (cache_after_routes c ops Hops) as Hcache.
  destruct (router_run_wf c ops) as [Hc Hr]. set (r := router_run (ShardingRouter_new c) ops) in *.
  assert (snd <$> route_shard r k = snd <$> route_shard (ShardingRouter_new c) k) as Hs.
  { unfold route_shard. rewrite Hc. change (sr_config (ShardingRouter_new c)) with c.
    destruct (sh_strategy c).
    - unfold route_by_tenant. destruct (sk_tenant_id k) as [t|]; [|done].
      unfold assign_shard_for_tenant. rewrite Hc, Hr. simpl.
      rewrite lookup_empty. destruct (tenant_shard_map r !! t) as [id|] eqn:Et; simpl.
      + destruct (Hcache t id Et) as [Ha Hl]. destruct (active_shards c); [done|]. by rewrite Hl.
      + destruct (active_shards c); simpl; [done|]. by destruct (ring_lookup _ _).
    - unfold route_by_hash. rewrite Hr. simpl. destruct (sk_user_id k); [|done]. simpl.
      by destruct (ring_lookup _ _).
    - unfold route_by_range. rewrite Hc. simpl. destruct (sk_timestamp k); [|done]. simpl.
      case_decide; [done|]. by destruct (active_shards c !! _). }
  unfold route. rewrite Hc. change (sr_config (ShardingRouter_new c)) with c.
  destruct (route_shard r k) as [[r1 a]|], (route_shard (ShardingRouter_new c) k) as [[r2 b]|]; simplify_eq/=; done.
Qed.

(** ** Replicas *)

Lemma weighted_walk_in {A} (l : list (Z * A)) random x :
  weighted_walk random l = Some x → x ∈ l.*2.
Proof.
  revert random. induction l as [|[w y] l IH]; simpl; intros random; [done|].
  case_match; [intros [= ->]; left|]. intros ?%IH. by right.
Qed.

Lemma latency_weight_nonneg i : (0 ≤ latency_weight i)%Z.
Proof. unfold latency_weight. apply Z.div_pos; lia. Qed.

Lemma latency_weight_zero i : latency_weight i = 0%Z ↔ (1000000 < rs_avg_latency_us (ri_stats i))%Z.
Proof.
  unfold latency_weight. rewrite Z.div_small_iff by lia. lia.
Qed.

Lemma sum_weights_nonneg {A} (l : list (A * ReplicaInfo)) :
  (0 ≤ foldr Z.add 0 ((λ c, latency_weight c.2) <$> l))%Z.
Proof.
  induction l as [|c l IH]; [done|]. rewrite fmap_cons. cbn [foldr].
  pose proof (latency_weight_nonneg c.2). lia.
Qed.

Lemma sum_weights_zero {A} (l : list (A * ReplicaInfo)) :
  foldr Z.add 0%Z ((λ c, latency_weight c.2) <$> l) = 0%Z ↔
  Forall (λ c, latency_weight c.2 = 0%Z) l.
Proof.
  induction l as [|c l IH]; [by split; [constructor|]|].
  pose proof (latency_weight_nonneg c.2). pose proof (sum_weights_nonneg l).
  rewrite fmap_cons, Forall_cons, <-IH. cbn [foldr]. lia.
Qed.

Lemma weighted_select_spec {A} nanos (l : list (A * ReplicaInfo)) :
  l ≠ [] →
  match weighted_select nanos l with
  | Some c => c ∈ l
  | None => 1 < length l ∧ Forall (λ c, (1000000 < rs_avg_latency_us (ri_stats c.2))%Z) l
  end ∧
  (1 < length l → Forall (λ c, (1000000 < rs_avg_latency_us (ri_stats c.2))%Z) l →
   weighted_select nanos l = None).
Proof.
  intros Hl. destruct l as [|c [|c' l]]; [done| |].
  { simpl. split; [left|lia]. }
  set (cs := c :: c' :: l). assert (∀ P : Prop, weighted_select nanos cs = if
    decide (foldr Z.add 0%Z ((λ c, latency_weight c.2) <$> cs) = 0%Z) then None else
    Some (default c (weighted_walk (wrap 64 nanos mod foldr Z.add 0%Z ((λ c, latency_weight c.2) <$> cs))
      (zip ((λ c, latency_weight c.2) <$> cs) cs)))) as Heq by done.
  assert (Forall (λ c, latency_weight c.2 = 0%Z) cs ↔
    Forall (λ c, (1000000 < rs_avg_latency_us (ri_stats c.2))%Z) cs) as Hf
    by (apply Forall_iff; intros; apply latency_weight_zero).
  rewrite (Heq True). clear Heq. split.
  - case_decide as Hz.
    + split; [unfold cs; simpl; lia|]. by apply Hf, sum_weights_zero.
    + destruct (weighted_walk _ _) as [x|] eqn:Ew; simpl; [|left].
      apply weighted_walk_in in Ew. rewrite snd_zip in Ew; [done|]. by rewrite length_fmap.
  - intros _ Ha. rewrite decide_True; [done|]. by apply sum_weights_zero, Hf.
Qed.

Lemma filter_indexed {A} (f : A → bool) (l : list A) k :
  (List.filter (λ c : nat * A, f c.2) (zip (seq k (length l)) l)).*2 = List.filter f l.
Proof.
  revert k. induction l as [|x l IH]; intros k; simpl; [done|]. by destruct (f x); simpl; rewrite IH.
Qed.

(** A read gets a replica of the shard that is healthy, read-only and within the
    permitted lag, whose counter goes up; none when there is no such replica.
    Selection panics exactly when there are at least two of them and the average
    latency of each is above one second. *)
Theorem select_replica_spec m nanos shard :
  let usable := List.filter (replica_usable m shard) (rm_replicas m) in
  match select_replica m nanos shard with
  | Some (m', Some c) => ∃ i info, rm_replicas m !! i = Some info ∧ ri_config info = c ∧
      replica_usable m shard info = true ∧ m' = MkReplicaManager (alter serve i (rm_replicas m)) (rm_max_lag_seconds m)
  | Some (m', None) => m' = m ∧ usable = []
  | None => 1 < length usable ∧ Forall (λ i, (1000000 < rs_avg_latency_us (ri_stats i))%Z) usable
  end ∧
  (1 < length usable → Forall (λ i, (1000000 < rs_avg_latency_us (ri_stats i))%Z) usable →
   select_replica m nanos shard = None).
Proof.
  intros usable. unfold select_replica.
  pose proof (filter_indexed (replica_usable m shard) (rm_replicas m) 0) as Hf. fold usable in Hf.
  set (cands := List.filter (λ c : nat * ReplicaInfo, replica_usable m shard c.2)
    (zip (seq 0 (length (rm_replicas m))) (rm_replicas m))) in *.
  assert (length usable = length cands) as Hlen
    by (by rewrite <-Hf, length_fmap).
  assert (Forall (λ i, (1000000 < rs_avg_latency_us (ri_stats i))%Z) usable ↔
    Forall (λ c, (1000000 < rs_avg_latency_us (ri_stats c.2))%Z) cands) as Hall
    by (rewrite <-Hf, Forall_fmap; done).
  destruct cands as [|c0 cs] eqn:Ec; [split; [split; [done|]|simpl in Hlen; lia]|].
  { by apply nil_length_inv. }
  rewrite <-Ec in *. destruct (weighted_select_spec nanos cands) as [Hs Hn]; [by rewrite Ec|].
  split.
  - destruct (weighted_select nanos cands) as [[i info]|]; simpl.
    + unfold cands in Hs. apply elem_of_filter_bool in Hs as [Hu Hin]. exists i, info. simpl in Hu.
      split_and!; try done. apply list_elem_of_lookup_1 in Hin as [j Hj].
      apply lookup_zip_Some in Hj as [Hj1 Hj2]. apply lookup_seq in Hj1 as [-> _]. done.
    + rewrite Hlen, Hall. done.
  - rewrite Hlen, Hall. intros H1 H2. by rewrite Hn.
Qed.

(** Writes always go to the primary, and reads to it or to a usable replica. *)
Theorem datasource_spec s nanos shard primary is_read s' dsn :
  get_datasource s nanos shard primary is_read = Some (s', dsn) →
  dsn = primary ∨
  is_read = true ∧ rw_use_replicas s = true ∧ ∃ info, info ∈ rm_replicas (rw_manager s) ∧
    replica_usable (rw_manager s) shard info = true ∧ dsn = rp_dsn (ri_config info).
Proof.
  unfold get_datasource, should_use_replica. destruct is_read, (rw_use_replicas s); simpl;
    [|naive_solver..]. case_match; [|naive_solver].
  pose proof (select_replica_spec (rw_manager s) nanos shard) as [Hs _].
  destruct (select_replica _ _ _) as [[m' [c|]]|]; simpl; [|naive_solver..].
  intros [= <- <-]. right. destruct Hs as (i & info & Hi & <- & Hu & _).
  split_and!; try done. exists info. split_and!; try done. by apply list_elem_of_lookup_2 in Hi.
Qed.

(** The average stays between the previous average and the new latency. *)
Theorem moving_average_bounds current latency :
  (0 ≤ current)%Z → (0 ≤ latency)%Z → (current * 9 + latency < 2 ^ 64)%Z →
  (Z.min current latency ≤ moving_average current latency ≤ Z.max current latency)%Z.
Proof.
  intros Hc Hl Hb. unfold moving_average. case_decide; [lia|].
  rewrite (wrap_small 64 (current * 9)), wrap_small by lia.
  split; [apply Z.div_le_lower_bound; lia|]. apply Z.div_le_upper_bound; lia.
Qed.

(** ** Migrations *)

Lemma remove_first_spec id m :
  match remove_first id m with
  | Some (s, m') => ∃ m1 m2, m = m1 ++ s :: m2 ∧ m' = m1 ++ m2 ∧ ms_id s = id ∧ id ∉ ms_id <$> m1
  | None => id ∉ ms_id <$> m
  end.
Proof.
  induction m as [|s m IH]; simpl; [by apply not_elem_of_nil|]. case_bool_decide as Hs.
  - exists [], m. split_and!; [done..|by apply not_elem_of_nil].
  - destruct (remove_first id m) as [[x rest]|]; simpl.
    + destruct IH as (m1 & m2 & -> & -> & Hx & Hn). exists (s :: m1), m2.
      split_and!; [done..|]. simpl. rewrite not_elem_of_cons. done.
    + rewrite not_elem_of_cons. done.
Qed.

Lemma get_migration_None m id : get_migration m id = None ↔ id ∉ ms_id <$> m.
Proof.
  unfold get_migration. induction m as [|s m IH]; simpl; [set_solver|].
  case_bool_decide; [set_solver|]. rewrite IH. set_solver.
Qed.

(** Cancelling a migration that is in progress answers with an error, and yet the
    migration is gone: it is removed before its status is looked at. *)
Theorem cancel_in_progress_forgets m id s :
  NoDup (ms_id <$> m) → get_migration m id = Some s → ms_status s = MgInProgress →
  let '(m', result) := cancel_migration m id in
  result = Err "Cannot cancel in-progress migration" ∧ get_migration m' id = None ∧
  length m' + 1 = length m.
Proof.
  intros Hnd Hg Hs. unfold cancel_migration. pose proof (remove_first_spec id m) as Hr.
  destruct (remove_first id m) as [[x m']|].
  - destruct Hr as (m1 & m2 & -> & -> & Hx & Hn).
    assert (x = s) as ->.
    { unfold get_migration in Hg. clear Hnd. induction m1 as [|y m1 IH]; simpl in Hg.
      - rewrite bool_decide_true in Hg by done. by simplify_eq.
      - rewrite bool_decide_false in Hg by set_solver. apply IH; set_solver. }
    unfold migration_is_running. rewrite bool_decide_true by done. split; [done|]. split.
    + apply get_migration_None. rewrite fmap_app in *. simpl in Hnd. rewrite elem_of_app.
      apply NoDup_app in Hnd as (_ & _ & [Hx2 _]%NoDup_cons). rewrite Hx in Hx2. tauto.
    + rewrite !length_app. simpl. lia.
  - apply get_migration_None in Hr. congruence.
Qed.

Inductive migration_step : MigrationManager → MigrationManager → Prop :=
| mg_create m s : migration_step m (create_migration m s).1
| mg_update m now id st p : migration_step m (update_migration_status m now id st p).1
| mg_cancel m id : migration_step m (cancel_migration m id).1.

Lemma update_first_ids id f m m' :
  (∀ s, ms_id (f s) = ms_id s) → update_first id f m = Some m' → ms_id <$> m' = ms_id <$> m.
Proof.
  intros Hf. revert m'. induction m as [|s m IH]; simpl; intros m'; [done|]. case_bool_decide.
  - intros [= <-]. simpl. by rewrite Hf.
  - destruct (update_first id f m) as [m1|]; simpl; [|done]. intros [= <-]. rewrite !fmap_cons. f_equal. by apply IH.
Qed.

(** No two migrations ever have the same identifier. *)
Theorem migration_ids_unique m : rtc migration_step MigrationManager_new m → NoDup (ms_id <$> m).
Proof.
  revert m. apply rtc_ind_r; [constructor|]. intros m m' _ Hs Hnd. destruct Hs as [m s|m now id st p|m id]; simpl.
  - unfold create_migration. destruct (existsb _ m) eqn:E; simpl; [done|].
    rewrite fmap_app. apply NoDup_app. split; [done|]. split; [|apply NoDup_singleton].
    intros i Hi ->%list_elem_of_singleton. apply list_elem_of_fmap in Hi as (x & Hx & Hin).
    assert (existsb (λ x, bool_decide (ms_id x = ms_id s)) m = true) as Ht; [|congruence].
    apply existsb_exists. exists x. rewrite <-list_elem_of_In. split; [done|]. by apply bool_decide_true.
  - unfold update_migration_status. destruct (update_first _ _ m) as [m1|] eqn:E; [|done]. simpl.
    by rewrite (update_first_ids id (migrate_to now st p) m m1 (λ s, eq_refl) E).
  - unfold cancel_migration. pose proof (remove_first_spec id m) as Hr.
    destruct (remove_first id m) as [[x m1]|]; [|done]. destruct Hr as (m2 & m3 & -> & -> & _). simpl.
    rewrite !fmap_app in *. simpl in Hnd. apply NoDup_app in Hnd as (H1 & H2 & [_ H3]%NoDup_cons).
    apply NoDup_app. split; [done|]. split; [|done]. intros i Hi Hc. apply (H2 i Hi). by right.
Qed.

(** ** Examples: the shards 1, 2 and 3 *)

Definition demo_shard (id : Z) : ShardConfig := MkShardConfig id "sqlite://shard.db" 1 true.
Definition demo_sharding : ShardingConfig :=
  MkShardingConfig TenantBased 3 [demo_shard 1; demo_shard 2; demo_shard 3] [].

(** No tenant is ever assigned to the third shard. *)
Lemma shadowed_shard_unreachable_witness :
  ring_lookup (build_hash_ring demo_sharding) (hash_key "tenant-1") ≠ Some 3%Z.
Proof.
  apply (shadowed_shard_unreachable (build_hash_ring demo_sharding) [1%Z] 2 [] 3 []).
  - reflexivity.
  - apply (bool_decide_unpack _). vm_compute. exact I.
  - vm_compute. discriminate.
Defined.

Lemma one_digit_ring_skewed_witness :
  ring_lookup (build_hash_ring demo_sharding) (hash_key "tenant-1") = Some 1%Z ∧
  match ring_lookup (build_hash_ring demo_sharding) (hash_key "tenant-1") with
  | Some id => ∀ id', id' ∈ build_hash_ring demo_sharding → (id ≤ id')%Z
  | None => active_shards demo_sharding = []
  end.
Proof.
  split; [vm_compute; reflexivity|]. apply one_digit_ring_skewed.
  - repeat constructor; vm_compute; discriminate.
  - vm_compute. discriminate.
Defined.

Lemma tenant_cache_transparent_witness :
  snd <$> route (router_run (ShardingRouter_new demo_sharding) [RoRoute (from_tenant "b") true])
    (from_tenant "a") true = snd <$> route (ShardingRouter_new demo_sharding) (from_tenant "a") true.
Proof. apply tenant_cache_transparent. by repeat constructor. Defined.

Lemma route_spec_witness :
  is_Some (route (ShardingRouter_new demo_sharding) (from_tenant "a") true) ∧
  (active_shards demo_sharding = [] → sh_strategy demo_sharding = HashBased →
   is_Some (sk_user_id (from_tenant "a")) → route (ShardingRouter_new demo_sharding) (from_tenant "a") true = None).
Proof.
  split; [vm_compute; by eexists|].
  exact (proj1 (proj2 (route_spec demo_sharding [] (from_tenant "a") true eq_refl))).
Defined.

Lemma moving_average_bounds_witness : (100 ≤ moving_average 100 200 ≤ 200)%Z.
Proof. by apply (moving_average_bounds 100 200). Defined.

Lemma datasource_spec_witness :
  ∃ s' dsn, get_datasource (ReadWriteSplitter_new (ReplicaManager_new [MkReplicaConfig 1 1 "replica" true] f32_zero))
    5 1 "primary" true = Some (s', dsn) ∧ dsn = "replica" ∧
  (dsn = "primary" ∨ true = true ∧ true = true ∧ ∃ info, info ∈ rm_replicas (ReplicaManager_new [MkReplicaConfig 1 1 "replica" true] f32_zero) ∧
     replica_usable (ReplicaManager_new [MkReplicaConfig 1 1 "replica" true] f32_zero) 1 info = true ∧ dsn = rp_dsn (ri_config info)).
Proof.
  eexists _, _. split; [vm_compute; reflexivity|]. split; [reflexivity|].
  apply (datasource_spec (ReadWriteSplitter_new (ReplicaManager_new [MkReplicaConfig 1 1 "replica" true] f32_zero))
    5 1 "primary" true _ _ eq_refl).
Defined.

Lemma cancel_in_progress_forgets_witness :
  let s := migrate_to 10 MgInProgress None (MigrationStep_new "m" 1 2 0 100 100) in
  (cancel_migration [s] "m").2 = Err "Cannot cancel in-progress migration" ∧
  get_migration (cancel_migration [s] "m").1 "m" = None.
Proof.
  intros s. pose proof (cancel_in_progress_forgets [s] "m" s (NoDup_singleton _) eq_refl eq_refl) as Hc.
  destruct Hc as (H1 & H2 & _). split; [exact H1|exact H2].
Defined.

Lemma migration_ids_unique_witness : NoDup (ms_id <$> [MigrationStep_new "m" 1 2 0 100 100]).
Proof.
  apply migration_ids_unique. apply rtc_once.
  exact (mg_create MigrationManager_new (MigrationStep_new "m" 1 2 0 100 100)).
Defined.
