(* ===== verification/AgentRouting.v ===== *)
(** Routing of messages to agents ([crates/uhorse-agent/src]: [session_key.rs],
    [bindings.rs], [router.rs], [error.rs]): session keys and their text form, the
    scopes of a session with its access context, the bindings of channels to
    agents and the rules of the message router. *)
From S2P Require Import Prelude Permission.

Inductive AgentError :=
| AeGateway (m : string) | AeAgent (m : string) | AeSkill (m : string) | AeMemory (m : string)
| AeRouter (m : string) | AeLLM (m : string) | AeSkillExecution (skill error : string)
| AeSessionNotFound (m : string) | AeInvalidConfig (m : string) | AeIo (m : string)
| AeSerialization (m : string) | AeOther (m : string).
Abbreviation AgentResult T := (Result T AgentError).

(** ** Session keys *)

Record SessionKey := MkSessionKey {
  sk_channel_type : string;
  sk_channel_user_id : string;
  sk_team_id : option string
}.
#[export] Instance SessionKey_eq_dec : EqDecision SessionKey.
Proof. solve_decision. Defined.

Definition SessionKey_new (channel user : string) : SessionKey := MkSessionKey channel user None.
Definition SessionKey_with_team (channel user team : string) : SessionKey :=
  MkSessionKey channel user (Some team).

Definition SessionKey_parse (s : string) : AgentResult SessionKey :=
  match str_split ":" s with
  | [c; u] => Ok (MkSessionKey c u None)
  | [c; u; t] => Ok (MkSessionKey c u (Some t))
  | _ => Err (AeInvalidConfig ("Invalid session key format: '" +:+ s
           +:+ "'. Expected: channel_type:user_id[:team_id]"))
  end.

Definition SessionKey_as_str (k : SessionKey) : string :=
  match sk_team_id k with
  | Some t => sk_channel_type k +:+ ":" +:+ sk_channel_user_id k +:+ ":" +:+ t
  | None => sk_channel_type k +:+ ":" +:+ sk_channel_user_id k
  end.

Definition matches_channel (k : SessionKey) (channel : string) : bool :=
  bool_decide (sk_channel_type k = channel).
Definition matches_team (k : SessionKey) (team : string) : bool :=
  bool_decide (sk_team_id k = Some team).
Definition user_key (k : SessionKey) : string := sk_channel_type k +:+ ":" +:+ sk_channel_user_id k.
Definition tenant_key (k : SessionKey) : option string :=
  (λ t, "tenant:" +:+ sk_channel_type k +:+ ":" +:+ t) <$> sk_team_id k.

(** ** Scopes *)

Record AccessContext := MkAccessContext {
  ac_tenant : option string;
  ac_enterprise : option string;
  ac_department : option string;
  ac_roles : list string
}.
Definition AccessContext_new : AccessContext := MkAccessContext None None None [].

Definition non_empty_trimmed (s : string) : option string :=
  let t := str_trim s in if decide (t = "") then None else Some t.
Definition normalize_optional_scope (s : option string) : option string := s ≫= non_empty_trimmed.
Definition normalize_role_scopes (roles : list string) : list string :=
  dedup (sort_by str_leb (omap non_empty_trimmed roles)).
Definition normalized (c : AccessContext) : AccessContext :=
  MkAccessContext (normalize_optional_scope (ac_tenant c)) (normalize_optional_scope (ac_enterprise c))
    (normalize_optional_scope (ac_department c)) (normalize_role_scopes (ac_roles c)).

Record SessionNamespace := MkSessionNamespace {
  ns_global : string;
  ns_tenant : option string;
  ns_enterprise : option string;
  ns_department : option string;
  ns_roles : list string;
  ns_user : string;
  ns_session : string
}.
Definition from_session_key (k : SessionKey) : SessionNamespace :=
  MkSessionNamespace "global" (tenant_key k) None None [] ("user:" +:+ user_key k)
    ("session:" +:+ SessionKey_as_str k).

Definition with_access_context (n : SessionNamespace) (c : option AccessContext) : SessionNamespace :=
  match c with
  | None => n
  | Some c =>
      let c := normalized c in
      MkSessionNamespace (ns_global n)
        (match ns_tenant n with None => ac_tenant c | Some t => Some t end)
        (ac_enterprise c) (ac_department c) (ac_roles c) (ns_user n) (ns_session n)
  end.

Definition memory_context_chain (n : SessionNamespace) : list string :=
  [ns_global n] ++ option_list (ns_tenant n) ++ option_list (ns_enterprise n)
    ++ option_list (ns_department n) ++ ns_roles n ++ [ns_user n] ++ [ns_session n].
Definition visibility_chain (n : SessionNamespace) : list string :=
  [ns_user n] ++ ns_roles n ++ option_list (ns_department n) ++ option_list (ns_enterprise n)
    ++ option_list (ns_tenant n) ++ [ns_global n].

Definition namespace (k : SessionKey) : SessionNamespace := from_session_key k.
Definition namespace_with_access_context (k : SessionKey) (c : option AccessContext) : SessionNamespace :=
  with_access_context (namespace k) c.

Definition scope_layer_from_scope (scope : string) : string :=
  if decide (scope = "global") then "global"
  else if String.prefix "session:" scope then "session"
  else if String.prefix "user:" scope then "user"
  else if String.prefix "role:" scope then "role"
  else if String.prefix "department:" scope then "department"
  else if String.prefix "enterprise:" scope then "enterprise"
  else if String.prefix "tenant:" scope then "tenant"
  else "scope".
Definition scope_layer_rank (layer : string) : nat :=
  if decide (layer = "session") then 0
  else if decide (layer = "user") then 1
  else if decide (layer = "role") then 2
  else if decide (layer = "department") then 3
  else if decide (layer = "enterprise") then 4
  else if decide (layer = "tenant") then 5
  else if decide (layer = "global") then 6
  else 7.

(** ** Channel types *)

Inductive AgentChannelType :=
| AcTelegram | AcSlack | AcDiscord | AcWhatsApp | AcDingTalk | AcFeishu | AcWeWork | AcSignal
| AcIMessage | AcWeb | AcCustom (name : string).
Definition AgentChannelType_from_str `{ToLowercase} (s : string) : AgentChannelType :=
  let t := to_lowercase s in
  if bool_decide (t = "telegram") then AcTelegram
  else if bool_decide (t = "slack") then AcSlack
  else if bool_decide (t = "discord") then AcDiscord
  else if bool_decide (t = "whatsapp") then AcWhatsApp
  else if bool_decide (t = "dingtalk" ∨ t = "钉钉") then AcDingTalk
  else if bool_decide (t = "feishu" ∨ t = "飞书") then AcFeishu
  else if bool_decide (t = "wework" ∨ t = "企业微信" ∨ t = "wecom") then AcWeWork
  else if bool_decide (t = "signal") then AcSignal
  else if bool_decide (t = "imessage" ∨ t = "imesg") then AcIMessage
  else if bool_decide (t = "web") then AcWeb
  else AcCustom t.
Definition AgentChannelType_as_str (c : AgentChannelType) : string :=
  match c with
  | AcTelegram => "telegram" | AcSlack => "slack" | AcDiscord => "discord" | AcWhatsApp => "whatsapp"
  | AcDingTalk => "dingtalk" | AcFeishu => "feishu" | AcWeWork => "wework" | AcSignal => "signal"
  | AcIMessage => "imessage" | AcWeb => "web" | AcCustom s => s
  end.

(** ** Bindings *)

Record Binding := MkBinding {
  bd_agent : string;
  bd_channel : option string;
  bd_team_id : option string;
  bd_priority : option Z;
  bd_users : option (list string);
  bd_enabled : bool
}.
Definition Binding_new (agent : string) : Binding := MkBinding agent None None None None true.
Definition Binding_channel (b : Binding) (c : string) : Binding :=
  MkBinding (bd_agent b) (Some c) (bd_team_id b) (bd_priority b) (bd_users b) (bd_enabled b).
Definition Binding_team_id (b : Binding) (t : string) : Binding :=
  MkBinding (bd_agent b) (bd_channel b) (Some t) (bd_priority b) (bd_users b) (bd_enabled b).
Definition Binding_priority (b : Binding) (p : Z) : Binding :=
  MkBinding (bd_agent b) (bd_channel b) (bd_team_id b) (Some p) (bd_users b) (bd_enabled b).
Definition Binding_users (b : Binding) (u : list string) : Binding :=
  MkBinding (bd_agent b) (bd_channel b) (bd_team_id b) (bd_priority b) (Some u) (bd_enabled b).

Definition Binding_matches (b : Binding) (k : SessionKey) : bool :=
  if negb (bd_enabled b) then false
  else if negb (from_option (matches_channel k) true (bd_channel b)) then false
  else if negb (from_option (matches_team k) true (bd_team_id b)) then false
  else from_option (λ users, bool_decide (sk_channel_user_id k ∈ users)) true (bd_users b).
Definition get_priority (b : Binding) : Z := default 0%Z (bd_priority b).

Record BindingsConfig := MkBindingsConfig {
  bc_bindings : list Binding;
  bc_default_agent : string
}.
Definition BindingsConfig_default : BindingsConfig := MkBindingsConfig [] "main".
Definition add_binding (c : BindingsConfig) (b : Binding) : BindingsConfig :=
  MkBindingsConfig (bc_bindings c ++ [b]) (bc_default_agent c).
Definition set_default_agent (c : BindingsConfig) (a : string) : BindingsConfig :=
  MkBindingsConfig (bc_bindings c) a.

Record BindingsRouter := MkBindingsRouter {
  br_config : BindingsConfig;
  br_available_agents : list string
}.

(** [sort_by_key] on the reversed priority is stable. *)
Definition BindingsRouter_route (r : BindingsRouter) (k : SessionKey) : AgentResult string :=
  match List.filter (λ b, Binding_matches b k) (bc_bindings (br_config r)) with
  | [] => Ok (bc_default_agent (br_config r))
  | matched =>
      match sort_by (λ a b, (get_priority b <=? get_priority a)%Z) matched with
      | chosen :: _ =>
          if bool_decide (bd_agent chosen ∈ br_available_agents r) then Ok (bd_agent chosen)
          else Err (AeAgent ("Agent '" +:+ bd_agent chosen +:+ "' is not available"))
      | [] => Ok (bc_default_agent (br_config r))
      end
  end.

(** ** The message router *)

Inductive RouteTarget :=
| RtAgent (a : string) | RtSkill (s : string) | RtMultiple (l : list string)
| RtConditional (condition then_ else_ : string).
Inductive RoutePattern :=
| RpPrefix (p : string) | RpKeyword (k : string) | RpRegex (r : string) | RpIntent (i : string) | RpDefault.
Record Route := MkRoute {
  rt_name : string;
  rt_pattern : RoutePattern;
  rt_target : RouteTarget
}.
Abbreviation Router := (list Route).
Definition Router_new : Router := [].
Definition add_route (r : Router) (x : Route) : Router := r ++ [x].

Definition pattern_accepts (message : string) (p : RoutePattern) : bool :=
  match p with
  | RpPrefix s => String.prefix s message
  | RpKeyword k => str_contains k message
  | RpDefault => true
  | RpRegex _ | RpIntent _ => false
  end.
Definition intent_accepts (message : string) (p : RoutePattern) : bool :=
  match p with RpIntent i => str_contains i message | _ => false end.
Definition first_target (accepts : RoutePattern → bool) (r : Router) : RouteTarget :=
  match List.find (λ x, accepts (rt_pattern x)) r with
  | Some x => rt_target x
  | None => RtAgent "default"
  end.
Definition Router_route (r : Router) (message : string) : AgentResult RouteTarget :=
  Ok (first_target (pattern_accepts message) r).
Definition route_by_intent (r : Router) (message : string) : AgentResult RouteTarget :=
  Ok (first_target (intent_accepts message) r).

(** * Theorems

   Correctness of message routing: the text form of session keys is exact for
    parts without colons, scopes of different sessions are apart, scope chains go
    by layer, and the binding that is chosen. *)

(** ** Texts with a separator *)

Definition is_colon (c : Ascii.ascii) : bool := Ascii.eqb c ":".
Definition no_colon (s : string) : bool := str_forallb (λ c, negb (is_colon c)) s.

Lemma str_split_two a b :
  no_colon a = true → no_colon b = true → str_split ":" (a +:+ ":" +:+ b) = [a; b].
Proof.
  intros Ha Hb. unfold str_split. rewrite str_split_skip, str_app_nil_l, str_app_cons by done. simpl.
  rewrite str_app_nil_l, <-(str_app_nil_r b), str_split_skip, str_app_nil_l by done. simpl. by rewrite str_app_nil_r.
Qed.

Lemma str_split_three a b c :
  no_colon a = true → no_colon b = true → no_colon c = true →
  str_split ":" (a +:+ ":" +:+ b +:+ ":" +:+ c) = [a; b; c].
Proof.
  intros Ha Hb Hc. unfold str_split. rewrite str_split_skip, str_app_nil_l, str_app_cons by done. simpl.
  rewrite str_app_nil_l, str_split_skip, str_app_nil_l, str_app_cons by done. simpl.
  rewrite str_app_nil_l, <-(str_app_nil_r c), str_split_skip, str_app_nil_l by done. simpl. by rewrite str_app_nil_r.
Qed.

(** The parts joined give the text back, and contain no colon. *)
Lemma str_split_aux_join cur s :
  str_join ":" (str_split_aux ":" cur s) = cur +:+ s ∧
  (no_colon cur = true → Forall (λ p, no_colon p = true) (str_split_aux ":" cur s)).
Proof.
  revert cur. induction s as [|c s IH]; intros cur; simpl.
  { rewrite str_app_nil_r. split; [done|]. by repeat constructor. }
  destruct (Ascii.eqb c ":") eqn:Ec.
  - apply Ascii.eqb_eq in Ec as ->. destruct (IH "") as [Hj Hf]. split; [|by constructor; [|apply Hf]].
    rewrite str_app_nil_l in Hj. destruct (str_split_aux ":" "" s) as [|p l] eqn:E.
    { destruct s as [|d s]; simpl in E; [done|]. by destruct (Ascii.eqb d ":"). }
    change (cur +:+ ":" +:+ str_join ":" (p :: l) = cur +:+ String ":" s). by rewrite Hj.
  - destruct (IH (cur +:+ String c "")) as [Hj Hf]. rewrite Hj, str_app_assoc. split; [done|].
    intros Hc. apply Hf. unfold no_colon in *. rewrite str_forallb_app, Hc. simpl. unfold is_colon.
    by rewrite Ec.
Qed.

Lemma str_split_join s :
  str_join ":" (str_split ":" s) = s ∧ Forall (λ p, no_colon p = true) (str_split ":" s).
Proof. destruct (str_split_aux_join "" s) as [Hj Hf]. split; [done|]. by apply Hf. Qed.

(** ** Session keys *)

Definition key_without_colons (k : SessionKey) : Prop :=
  no_colon (sk_channel_type k) = true ∧ no_colon (sk_channel_user_id k) = true ∧
  from_option no_colon true (sk_team_id k) = true.

Lemma session_key_parse_spec s k :
  SessionKey_parse s = Ok k ↔ SessionKey_as_str k = s ∧ key_without_colons k.
Proof.
  split.
  - unfold SessionKey_parse. destruct (str_split_join s) as [Hj Hf].
    destruct (str_split ":" s) as [|a [|b [|c [|? ?]]]]; try done; intros [= <-];
      rewrite !Forall_cons in Hf; unfold key_without_colons; simpl; naive_solver.
  - intros [<- (Hc & Hu & Ht)]. unfold SessionKey_parse, SessionKey_as_str. destruct k as [c u [t|]]; simpl in *.
    + by rewrite str_split_three.
    + by rewrite str_split_two.
Qed.

(** Parsing and printing are inverse: a text parses to a key exactly when it is
    the text of this key and no part of the key contains a colon. *)
Theorem session_key_parse_iff s k :
  SessionKey_parse s = Ok k ↔ SessionKey_as_str k = s ∧ key_without_colons k.
Proof. apply session_key_parse_spec. Qed.

Lemma session_key_as_str_inj k1 k2 :
  key_without_colons k1 → key_without_colons k2 → SessionKey_as_str k1 = SessionKey_as_str k2 → k1 = k2.
Proof.
  intros H1 H2 He. assert (SessionKey_parse (SessionKey_as_str k1) = Ok k1) as P1 by by apply session_key_parse_spec.
  assert (SessionKey_parse (SessionKey_as_str k2) = Ok k2) as P2 by by apply session_key_parse_spec. congruence.
Qed.

Lemma user_key_inj k1 k2 :
  key_without_colons k1 → key_without_colons k2 → user_key k1 = user_key k2 →
  sk_channel_type k1 = sk_channel_type k2 ∧ sk_channel_user_id k1 = sk_channel_user_id k2.
Proof.
  intros (H1 & H2 & _) (H3 & H4 & _) He. unfold user_key in He.
  assert ([sk_channel_type k1; sk_channel_user_id k1] = [sk_channel_type k2; sk_channel_user_id k2]) as Hl
    by (by rewrite <-(str_split_two (sk_channel_type k1)), He, str_split_two).
  by simplify_eq.
Qed.

(** Sessions are apart: for keys without colons the session scopes are equal only
    for equal keys, the user scopes only for the same user of the same channel,
    and the scope of a session is never the scope of a user. *)
Theorem session_scopes_isolated k1 k2 c1 c2 :
  key_without_colons k1 → key_without_colons k2 →
  let n1 := namespace_with_access_context k1 c1 in
  let n2 := namespace_with_access_context k2 c2 in
  (ns_session n1 = ns_session n2 ↔ k1 = k2) ∧
  (ns_user n1 = ns_user n2 ↔
     sk_channel_type k1 = sk_channel_type k2 ∧ sk_channel_user_id k1 = sk_channel_user_id k2) ∧
  ns_session n1 ≠ ns_user n2.
Proof.
  intros H1 H2 n1 n2.
  assert (∀ k c, ns_session (namespace_with_access_context k c) = "session:" +:+ SessionKey_as_str k ∧
    ns_user (namespace_with_access_context k c) = "user:" +:+ user_key k) as Hn by (by intros k [c|]).
  unfold n1, n2. destruct (Hn k1 c1) as [-> ->], (Hn k2 c2) as [-> ->]. split_and!.
  - split; [|by intros ->]. intros He%str_app_inj_l. by apply session_key_as_str_inj.
  - split; [intros He%str_app_inj_l; by apply user_key_inj|]. intros [E1 E2]. unfold user_key. by rewrite E1, E2.
  - done.
Qed.

(** A user identifier with a colon runs into the key with a team. *)
Lemma session_key_collision c u t :
  SessionKey_as_str (SessionKey_new c (u +:+ ":" +:+ t)) = SessionKey_as_str (SessionKey_with_team c u t).
Proof. done. Qed.

(** ** Scopes *)

Lemma normalize_role_scopes_spec roles :
  StronglySorted (λ x y, str_leb x y = true ∧ x ≠ y) (normalize_role_scopes roles) ∧
  ∀ r, r ∈ normalize_role_scopes roles ↔ r ≠ "" ∧ ∃ role, role ∈ roles ∧ str_trim role = r.
Proof.
  unfold normalize_role_scopes. split.
  - apply dedup_strict, sort_by_sorted; [apply str_leb_total|apply str_leb_trans].
  - intros r. rewrite dedup_elem_of, sort_by_elem_of, list_elem_of_omap. unfold non_empty_trimmed. split.
    + intros (x & Hx & He). case_decide; simplify_eq. eauto.
    + intros (Hr & x & Hx & <-). exists x. split; [done|]. by rewrite decide_False.
Qed.

(** Every scope of a context carries the prefix of its layer. *)
Record well_scoped (n : SessionNamespace) : Prop := {
  ws_tenant : ∀ t, ns_tenant n = Some t → scope_layer_from_scope t = "tenant";
  ws_enterprise : ∀ t, ns_enterprise n = Some t → scope_layer_from_scope t = "enterprise";
  ws_department : ∀ t, ns_department n = Some t → scope_layer_from_scope t = "department";
  ws_roles : Forall (λ r, scope_layer_from_scope r = "role") (ns_roles n)
}.

Definition scope_rank (s : string) : nat := scope_layer_rank (scope_layer_from_scope s).

Lemma scope_layer_prefix s :
  scope_layer_from_scope ("session:" +:+ s) = "session" ∧ scope_layer_from_scope ("user:" +:+ s) = "user" ∧
  scope_layer_from_scope ("tenant:" +:+ s) = "tenant".
Proof.
  unfold scope_layer_from_scope. split_and!; rewrite decide_False by done; by destruct s.
Qed.

(** Runs of equal values in a sorted order are sorted. *)
Lemma sorted_segments (R : relation nat) (segs : list (nat * nat)) :
  (∀ x, R x x) → StronglySorted R segs.*2 → StronglySorted R (segs ≫= λ s, replicate s.1 s.2).
Proof.
  intros Hrefl. induction segs as [|[n r] segs IH]; simpl; intros Hs; [constructor|].
  inversion_clear Hs as [|?? Hs' Hr]. specialize (IH Hs').
  induction n as [|n IHn]; simpl; [done|]. constructor; [done|]. apply Forall_forall.
  intros x [[-> _]%elem_of_replicate|Hx]%elem_of_app; [done|].
  apply list_elem_of_bind in Hx as ([m q] & Hx & Hq). apply elem_of_replicate in Hx as [-> _].
  rewrite Forall_forall in Hr. apply Hr. by apply (list_elem_of_fmap_2 snd) in Hq.
Qed.

(** Both chains hold the same scopes, the memory chain the session's in addition;
    the visibility chain goes from the user to everyone, the memory chain the
    other way: ranks never decrease along the one nor increase along the other.
    The tenant of the key wins over the one of the context. *)
Theorem scope_chains_ranked k c :
  let n := namespace_with_access_context k c in
  well_scoped n →
  ns_session n :: visibility_chain n ≡ₚ memory_context_chain n ∧
  StronglySorted le (scope_rank <$> ns_session n :: visibility_chain n) ∧
  StronglySorted ge (scope_rank <$> memory_context_chain n) ∧
  (is_Some (sk_team_id k) → ns_tenant n = tenant_key k).
Proof.
  intros n Hw.
  assert (scope_rank (ns_session n) = 0 ∧ scope_rank (ns_user n) = 1 ∧ scope_rank (ns_global n) = 6) as (Hs & Hu & Hg).
  { assert (ns_session n = "session:" +:+ SessionKey_as_str k ∧ ns_user n = "user:" +:+ user_key k ∧
      ns_global n = "global") as (-> & -> & ->) by (by unfold n; destruct c).
    unfold scope_rank. destruct (scope_layer_prefix (SessionKey_as_str k)) as [-> _].
    by destruct (scope_layer_prefix (user_key k)) as [_ [-> _]]. }
  assert (∀ layer l, Forall (λ t, scope_layer_from_scope t = layer) l →
    scope_rank <$> l = replicate (length l) (scope_layer_rank layer)) as Hl.
  { induction 1 as [|t l Ht _ IH]; [done|]. rewrite fmap_cons, IH. simpl. unfold scope_rank. by rewrite Ht. }
  assert (∀ layer o, (∀ t, o = Some t → scope_layer_from_scope t = layer) →
    scope_rank <$> option_list o = replicate (length (option_list o)) (scope_layer_rank layer)) as Ho.
  { intros layer [t|] Ht; apply Hl; [|constructor]. constructor; [by apply Ht|constructor]. }
  pose proof (Ho _ _ (ws_tenant _ Hw)) as H1. pose proof (Ho _ _ (ws_enterprise _ Hw)) as H2.
  pose proof (Ho _ _ (ws_department _ Hw)) as H3. pose proof (Hl _ _ (ws_roles _ Hw)) as H4.
  set (t := length (option_list (ns_tenant n))) in *. set (e := length (option_list (ns_enterprise n))) in *.
  set (d := length (option_list (ns_department n))) in *. set (r := length (ns_roles n)) in *.
  split_and!.
  - set (segs := [[ns_session n]; [ns_user n]; ns_roles n; option_list (ns_department n);
      option_list (ns_enterprise n); option_list (ns_tenant n); [ns_global n]]).
    change (segs ≫= (λ x, x) ≡ₚ reverse segs ≫= (λ x, x)). by rewrite reverse_Permutation.
  - unfold visibility_chain. rewrite fmap_cons, !fmap_app, H1, H2, H3, H4. cbn [fmap list_fmap].
    rewrite Hs, Hu, Hg.
    apply (sorted_segments le [(1, 0); (1, 1); (r, 2); (d, 3); (e, 4); (t, 5); (1, 6)]).
    all: repeat constructor.
  - unfold memory_context_chain. rewrite !fmap_app, H1, H2, H3, H4. cbn [fmap list_fmap].
    rewrite Hs, Hu, Hg.
    apply (sorted_segments ge [(1, 6); (t, 5); (e, 4); (d, 3); (r, 2); (1, 1); (1, 0)]).
    all: repeat constructor; lia.
  - intros [x Ht]. unfold n. destruct c as [c|]; simpl; [|done]. unfold tenant_key. by rewrite Ht.
Qed.

(** ** Bindings *)

(** The default agent is taken, available or not, when no binding matches; or
    else the first of the matching bindings with the highest priority decides,
    and it is an error when its agent is not available. *)
Theorem bindings_route_spec r k :
  let matched := List.filter (λ b, Binding_matches b k) (bc_bindings (br_config r)) in
  (matched = [] → BindingsRouter_route r k = Ok (bc_default_agent (br_config r))) ∧
  (matched ≠ [] → ∃ b, b ∈ matched ∧ (∀ b', b' ∈ matched → (get_priority b' ≤ get_priority b)%Z) ∧
     head (List.filter (λ b', bool_decide (get_priority b' = get_priority b)) matched) = Some b ∧
     BindingsRouter_route r k =
       if bool_decide (bd_agent b ∈ br_available_agents r) then Ok (bd_agent b)
       else Err (AeAgent ("Agent '" +:+ bd_agent b +:+ "' is not available"))).
Proof.
  intros matched. unfold BindingsRouter_route.
  change (List.filter (λ b, Binding_matches b k) (bc_bindings (br_config r))) with matched. clearbody matched.
  set (leb := λ a b, (get_priority b <=? get_priority a)%Z).
  assert (∀ x y, leb x y = true ∨ leb y x = true) as Htot by (intros; unfold leb; rewrite !Z.leb_le; lia).
  assert (∀ x y z, leb x y = true → leb y z = true → leb x z = true) as Htrans
    by (intros *; unfold leb; rewrite !Z.leb_le; lia).
  split; [by intros ->|]. intros Hm. destruct (sort_by leb matched) as [|b rest] eqn:E.
  { exfalso. apply Hm. apply Permutation_nil_r. rewrite <-E. symmetry. apply sort_by_perm. }
  destruct (sort_by_head_min leb Htot Htrans _ _ _ E) as [Hb Hmin]. exists b. split; [done|].
  split; [intros b' Hb'; apply Z.leb_le, (Hmin _ Hb')|]. split.
  - pose proof (sort_by_stable leb Htrans b matched) as Hst. rewrite E in Hst. simpl in Hst.
    rewrite (Hmin b) in Hst by done. simpl in Hst.
    assert (∀ l, List.filter (λ b', bool_decide (get_priority b' = get_priority b)) l =
      List.filter (λ x, leb x b && leb b x) l) as ->; [|by rewrite <-Hst].
    intros l. apply filter_ext. intros x. unfold leb. apply eq_true_iff_eq.
    rewrite bool_decide_eq_true, andb_true_iff, !Z.leb_le. lia.
  - destruct matched; [done|]. by rewrite E.
Qed.

(** ** Examples *)

Definition demo_key : SessionKey := SessionKey_with_team "slack" "u1" "T1".

(** The binding of the channel alone wins over the one of channel and team when
    it comes first. *)
Lemma specific_binding_loses :
  BindingsRouter_route
    (MkBindingsRouter
      (add_binding (add_binding BindingsConfig_default (Binding_channel (Binding_new "main") "slack"))
        (Binding_team_id (Binding_channel (Binding_new "coder") "slack") "T1"))
      ["main"; "coder"]) demo_key = Ok "main".
Proof. reflexivity. Qed.

Lemma session_scopes_isolated_witness :
  ns_session (namespace demo_key) ≠ ns_user (namespace (SessionKey_new "slack" "u1")).
Proof.
  exact (proj2 (proj2 (session_scopes_isolated demo_key (SessionKey_new "slack" "u1") None None
    ltac:(done) ltac:(done)))).
Defined.

Lemma scope_chains_ranked_witness :
  let n := namespace_with_access_context demo_key
    (Some (MkAccessContext None (Some "enterprise:e") None [" role:b "; "role:a"; "role:b"])) in
  visibility_chain n = ["user:slack:u1"; "role:a"; "role:b"; "enterprise:e"; "tenant:slack:T1"; "global"] ∧
  StronglySorted le (scope_rank <$> ns_session n :: visibility_chain n).
Proof.
  split; [vm_compute; reflexivity|].
  apply (scope_chains_ranked demo_key
    (Some (MkAccessContext None (Some "enterprise:e") None [" role:b "; "role:a"; "role:b"]))).
  split; [intros t [= <-]; reflexivity|intros t [= <-]; reflexivity|intros t [=]|repeat constructor].
Defined.
