(* ===== verification/Sessions.v ===== *)
(** Sessions and their storage ([crates/uhorse-session/src]: [manager.rs],
    [isolation.rs]; the session and conversation stores of
    [crates/uhorse-storage/src/sqlite.rs]; the types of
    [crates/uhorse-core/src/types.rs]).  A table is a map or a list of rows; what
    SQLite and sqlx decide (texts of errors, whether foreign keys are enforced,
    what the maximum of no rows is read as) is a class.  The first argument
    [io] of a store call is the failure of the database, if it fails. *)
From S2P Require Import Prelude Json Notifications.

(** ** Types *)

Inductive IsolationLevel := IsoNone | IsoChannel | IsoUser | IsoFull.
Definition IsolationLevel_default : IsolationLevel := IsoNone.
(** The discriminant, [level as i32]. *)
Definition isolation_index (l : IsolationLevel) : Z :=
  match l with IsoNone => 0 | IsoChannel => 1 | IsoUser => 2 | IsoFull => 3 end.

Record Session := MkSession {
  se_id : string;
  se_channel : ChannelType;
  se_channel_user_id : string;
  se_created_at : Z;
  se_updated_at : Z;
  se_metadata : gmap string string;
  se_isolation_level : IsolationLevel
}.
Definition Session_new (uuid : string) (now : Z) (channel : ChannelType) (user : string) : Session :=
  MkSession uuid channel user now now ∅ IsolationLevel_default.
Definition Session_touch (now : Z) (s : Session) : Session :=
  MkSession (se_id s) (se_channel s) (se_channel_user_id s) (se_created_at s) now (se_metadata s)
    (se_isolation_level s).

Inductive MessageRole := RoleUser | RoleAssistant | RoleSystem | RoleTool.

Inductive SessionError :=
| SeDatabaseError (m : string)
| SeQueryError (m : string)
| SeSessionNotFound (id : string).
Abbreviation SessionResult T := (Result T SessionError).

(** ** Columns *)

Definition channel_to_string (c : ChannelType) : string :=
  match c with
  | Telegram => "telegram" | Slack => "slack" | Discord => "discord" | WhatsApp => "whatsapp"
  | DingTalk => "dingtalk" | Feishu => "feishu" | WeWork => "wework"
  end.
Definition string_to_channel (s : string) : option ChannelType :=
  if bool_decide (s = "telegram") then Some Telegram
  else if bool_decide (s = "slack") then Some Slack
  else if bool_decide (s = "discord") then Some Discord
  else if bool_decide (s = "whatsapp") then Some WhatsApp
  else if bool_decide (s = "dingtalk") then Some DingTalk
  else if bool_decide (s = "feishu") then Some Feishu
  else if bool_decide (s = "wework") then Some WeWork
  else None.
Definition role_to_string (r : MessageRole) : string :=
  match r with
  | RoleUser => "User" | RoleAssistant => "Assistant" | RoleSystem => "System" | RoleTool => "Tool"
  end.
Definition string_to_role (s : string) : MessageRole :=
  if bool_decide (s = "User") then RoleUser
  else if bool_decide (s = "Assistant") then RoleAssistant
  else if bool_decide (s = "System") then RoleSystem
  else if bool_decide (s = "Tool") then RoleTool
  else RoleUser.

(** [x as i64] and [x as u64] are in [as_i64] and [wrap 64]. *)
Record SessionRow := MkSessionRow {
  row_id : string;
  row_channel : string;
  row_channel_user_id : string;
  row_created_at : Z;
  row_updated_at : Z;
  row_metadata : string;
  row_isolation_level : Z
}.
Record MessageRow := MkMessageRow {
  mr_id : string;
  mr_session_id : string;
  mr_sequence : Z;
  mr_role : string;
  mr_content : string;
  mr_timestamp : Z
}.

Section Store.
Context `{JsonValue}.

Inductive MessageContent :=
| McText (s : string)
| McImage (url : string) (caption : option string)
| McAudio (url : string) (duration : option Z)
| McStructured (v : Value).
Definition MessageContent_text (s : string) : MessageContent := McText s.
Definition content_as_text (c : MessageContent) : option string :=
  match c with McText s => Some s | _ => None end.

Record Message := MkMessage {
  me_id : string;
  me_session_id : string;
  me_role : MessageRole;
  me_content : MessageContent;
  me_timestamp : Z;
  me_sequence : Z
}.
Definition Message_new (uuid : string) (now : Z) (session : string) (r : MessageRole)
    (c : MessageContent) (sequence : Z) : Message := MkMessage uuid session r c now sequence.

(** The JSON texts of [serde_json], which reads back what it wrote. *)
Class ColumnJson := {
  metadata_to_json : gmap string string → string;
  metadata_from_json : string → option (gmap string string);
  content_to_json : MessageContent → string;
  content_from_json : string → option MessageContent;
  metadata_json_roundtrip m : metadata_from_json (metadata_to_json m) = Some m;
  content_json_roundtrip c : content_from_json (content_to_json c) = Some c
}.

(** What the database decides. *)
Class SqliteBehaviour := {
  foreign_keys_enforced : bool;
  unique_violation : string;
  foreign_key_violation : string;
  (** The one row of MAX over no rows, read as [i64]. *)
  max_of_nothing : SessionResult (option Z)
}.

Context `{!ColumnJson, !SqliteBehaviour, HashOrder}.

Definition session_to_row (s : Session) : SessionRow :=
  MkSessionRow (se_id s) (channel_to_string (se_channel s)) (se_channel_user_id s)
    (as_i64 (se_created_at s)) (as_i64 (se_updated_at s)) (metadata_to_json (se_metadata s))
    (isolation_index (se_isolation_level s)).
Definition row_to_session (r : SessionRow) : Session :=
  MkSession (row_id r) (default Telegram (string_to_channel (row_channel r))) (row_channel_user_id r)
    (wrap 64 (row_created_at r)) (wrap 64 (row_updated_at r))
    (default ∅ (metadata_from_json (row_metadata r)))
    (if decide (row_isolation_level r = 0%Z) then IsoNone
     else if decide (row_isolation_level r = 1%Z) then IsoChannel
     else if decide (row_isolation_level r = 2%Z) then IsoUser else IsoFull).
Definition message_to_row (m : Message) : MessageRow :=
  MkMessageRow (me_id m) (me_session_id m) (as_i64 (me_sequence m)) (role_to_string (me_role m))
    (content_to_json (me_content m)) (as_i64 (me_timestamp m)).
Definition row_to_message (r : MessageRow) : Message :=
  MkMessage (mr_id r) (mr_session_id r) (string_to_role (mr_role r))
    (default (McText "") (content_from_json (mr_content r))) (wrap 64 (mr_timestamp r))
    (wrap 64 (mr_sequence r)).

(** ** The store *)

Record SqliteStore := MkSqliteStore {
  tb_sessions : gmap string SessionRow;
  tb_history : list MessageRow
}.
Definition SqliteStore_empty : SqliteStore := MkSqliteStore ∅ [].

Definition store_call {A} (io : option string) (wrap_error : string → SessionError) (st : SqliteStore)
    (k : SqliteStore * SessionResult A) : SqliteStore * SessionResult A :=
  match io with Some e => (st, Err (wrap_error e)) | None => k end.

Definition create_session (io : option string) (st : SqliteStore) (s : Session)
    : SqliteStore * SessionResult unit :=
  store_call io SeDatabaseError st
    match tb_sessions st !! se_id s with
    | Some _ => (st, Err (SeDatabaseError unique_violation))
    | None => (MkSqliteStore (<[ se_id s := session_to_row s ]> (tb_sessions st)) (tb_history st), Ok tt)
    end.
Definition get_session (io : option string) (st : SqliteStore) (id : string)
    : SessionResult (option Session) :=
  match io with
  | Some e => Err (SeQueryError e)
  | None => Ok (row_to_session <$> tb_sessions st !! id)
  end.

(** ORDER BY updated_at DESC. *)
Definition newest_first (rows : list SessionRow) : list SessionRow :=
  sort_by (λ a b, (row_updated_at b <=? row_updated_at a)%Z) rows.
Definition get_session_by_channel (io : option string) (st : SqliteStore) (c : ChannelType) (user : string)
    : SessionResult (option Session) :=
  match io with
  | Some e => Err (SeQueryError e)
  | None =>
      Ok (row_to_session <$> head (newest_first (List.filter (λ r,
        bool_decide (row_channel r = channel_to_string c ∧ row_channel_user_id r = user))
        (hash_values (tb_sessions st)))))
  end.

(** UPDATE ... WHERE id: nothing happens without the row, and the creation time
    is not written. *)
Definition update_session (io : option string) (st : SqliteStore) (s : Session)
    : SqliteStore * SessionResult unit :=
  store_call io SeDatabaseError st
    (MkSqliteStore (map_update (λ r,
       let r' := session_to_row s in
       MkSessionRow (row_id r) (row_channel r') (row_channel_user_id r') (row_created_at r)
         (row_updated_at r') (row_metadata r') (row_isolation_level r')) (se_id s) (tb_sessions st))
       (tb_history st), Ok tt).
Definition delete_session (io : option string) (st : SqliteStore) (id : string)
    : SqliteStore * SessionResult unit :=
  store_call io SeDatabaseError st
    (if foreign_keys_enforced && existsb (λ m, bool_decide (mr_session_id m = id)) (tb_history st)
     then (st, Err (SeDatabaseError foreign_key_violation))
     else (MkSqliteStore (delete id (tb_sessions st)) (tb_history st), Ok tt)).

(** LIMIT and OFFSET; a negative limit is none. *)
Definition limited {A} (limit offset : Z) (l : list A) : list A :=
  let rest := drop (Z.to_nat (as_i64 offset)) l in
  if bool_decide (as_i64 limit < 0)%Z then rest else take (Z.to_nat (as_i64 limit)) rest.
Definition list_sessions (io : option string) (st : SqliteStore) (limit offset : Z)
    : SessionResult (list Session) :=
  match io with
  | Some e => Err (SeQueryError e)
  | None => Ok (row_to_session <$> limited limit offset (newest_first (hash_values (tb_sessions st))))
  end.

Definition store_add_message (io : option string) (st : SqliteStore) (m : Message)
    : SqliteStore * SessionResult unit :=
  store_call io SeDatabaseError st
    (if existsb (λ r, bool_decide (mr_id r = me_id m) ||
          bool_decide (mr_session_id r = me_session_id m ∧ mr_sequence r = as_i64 (me_sequence m)))
          (tb_history st)
     then (st, Err (SeDatabaseError unique_violation))
     else if foreign_keys_enforced && bool_decide (tb_sessions st !! me_session_id m = None)
     then (st, Err (SeDatabaseError foreign_key_violation))
     else (MkSqliteStore (tb_sessions st) (tb_history st ++ [message_to_row m]), Ok tt)).

Definition session_rows (st : SqliteStore) (id : string) : list MessageRow :=
  List.filter (λ r, bool_decide (mr_session_id r = id)) (tb_history st).
Definition latest_first (rows : list MessageRow) : list MessageRow :=
  sort_by (λ a b, (mr_sequence b <=? mr_sequence a)%Z) rows.
Definition store_get_history (io : option string) (st : SqliteStore) (id : string) (limit : Z)
    (before : option Z) : SessionResult (list Message) :=
  match io with
  | Some e => Err (SeQueryError e)
  | None =>
      let rows := match before with
        | Some b => List.filter (λ r, bool_decide (mr_sequence r < as_i64 b)%Z) (session_rows st id)
        | None => session_rows st id
        end in
      Ok (row_to_message <$> reverse (limited limit 0 (latest_first rows)))
  end.
Definition get_last_sequence (io : option string) (st : SqliteStore) (id : string)
    : SessionResult (option Z) :=
  match io with
  | Some e => Err (SeQueryError e)
  | None =>
      match latest_first (session_rows st id) with
      | r :: _ => Ok (Some (wrap 64 (mr_sequence r)))
      | [] => max_of_nothing
      end
  end.
Definition store_clear_history (io : option string) (st : SqliteStore) (id : string)
    : SqliteStore * SessionResult unit :=
  store_call io SeDatabaseError st
    (MkSqliteStore (tb_sessions st)
       (List.filter (λ r, negb (bool_decide (mr_session_id r = id))) (tb_history st)), Ok tt).

(** ** The manager *)

Record SessionCache := MkSessionCache { sc_sessions : gmap string Session; sc_max_size : nat }.
Definition SessionCache_new (max_size : nat) : SessionCache := MkSessionCache ∅ max_size.
Definition SessionCache_get (c : SessionCache) (id : string) : option Session := sc_sessions c !! id.
Definition SessionCache_insert (c : SessionCache) (s : Session) : SessionCache :=
  let kept :=
    if bool_decide (sc_max_size c ≤ size (sc_sessions c)) then
      match hash_keys (sc_sessions c) with
      | k :: _ => delete k (sc_sessions c)
      | [] => sc_sessions c
      end
    else sc_sessions c in
  MkSessionCache (<[ se_id s := s ]> kept) (sc_max_size c).
Definition SessionCache_remove (c : SessionCache) (id : string) : SessionCache :=
  MkSessionCache (delete id (sc_sessions c)) (sc_max_size c).

Record SessionManager := MkSessionManager { sm_store : SqliteStore; sm_cache : option SessionCache }.
Definition SessionManager_new (st : SqliteStore) : SessionManager := MkSessionManager st None.
Definition enable_cache (m : SessionManager) (max_size : nat) : SessionManager :=
  MkSessionManager (sm_store m) (Some (SessionCache_new max_size)).

(** [if let Some(cache) = self.cache.write().await.as_mut()]. *)
Definition in_cache (f : SessionCache → SessionCache) (m : SessionManager) : SessionManager :=
  MkSessionManager (sm_store m) (f <$> sm_cache m).

Definition session_create (io : option string) (uuid : string) (now : Z) (m : SessionManager)
    (channel : ChannelType) (user : string) : SessionManager * SessionResult Session :=
  let s := Session_new uuid now channel user in
  let '(st, r) := create_session io (sm_store m) s in
  let m' := MkSessionManager st (sm_cache m) in
  match r with
  | Err e => (m', Err e)
  | Ok _ => (in_cache (λ c, SessionCache_insert c s) m', Ok s)
  end.
(** The two calls of the database can fail independently. *)
Definition get_or_create (io1 io2 : option string) (uuid : string) (now : Z) (m : SessionManager)
    (channel : ChannelType) (user : string) : SessionManager * SessionResult Session :=
  match get_session_by_channel io1 (sm_store m) channel user with
  | Err e => (m, Err e)
  | Ok (Some s) => (m, Ok s)
  | Ok None => session_create io2 uuid now m channel user
  end.
Definition session_get (io : option string) (m : SessionManager) (id : string)
    : SessionManager * SessionResult Session :=
  match c ← sm_cache m; SessionCache_get c id with
  | Some s => (m, Ok s)
  | None =>
      match get_session io (sm_store m) id with
      | Err e => (m, Err e)
      | Ok None => (m, Err (SeSessionNotFound id))
      | Ok (Some s) => (in_cache (λ c, SessionCache_insert c s) m, Ok s)
      end
  end.
Definition session_update (io : option string) (m : SessionManager) (s : Session)
    : SessionManager * SessionResult unit :=
  let '(st, r) := update_session io (sm_store m) s in
  let m' := MkSessionManager st (sm_cache m) in
  match r with
  | Err e => (m', Err e)
  | Ok _ => (in_cache (λ c, SessionCache_insert c s) m', Ok tt)
  end.
Definition session_delete (io : option string) (m : SessionManager) (id : string)
    : SessionManager * SessionResult unit :=
  let '(st, r) := delete_session io (sm_store m) id in
  let m' := MkSessionManager st (sm_cache m) in
  match r with
  | Err e => (m', Err e)
  | Ok _ => (in_cache (λ c, SessionCache_remove c id) m', Ok tt)
  end.
Definition session_add_message (io1 io2 : option string) (uuid : string) (now : Z) (m : SessionManager)
    (id : string) (r : MessageRole) (c : MessageContent) : SessionManager * SessionResult Message :=
  match get_last_sequence io1 (sm_store m) id with
  | Err e => (m, Err e)
  | Ok last =>
      let sequence := from_option (λ s, wrap 64 (s + 1)) 0%Z last in
      let msg := Message_new uuid now id r c sequence in
      let '(st, res) := store_add_message io2 (sm_store m) msg in
      (MkSessionManager st (sm_cache m), match res with Err e => Err e | Ok _ => Ok msg end)
  end.
Definition session_get_history (io : option string) (m : SessionManager) (id : string) (limit : Z)
    : SessionResult (list Message) := store_get_history io (sm_store m) id limit None.
Definition session_clear_history (io : option string) (m : SessionManager) (id : string)
    : SessionManager * SessionResult unit :=
  let '(st, r) := store_clear_history io (sm_store m) id in (MkSessionManager st (sm_cache m), r).
Definition session_touch (io1 io2 : option string) (now : Z) (m : SessionManager) (id : string)
    : SessionManager * SessionResult unit :=
  match session_get io1 m id with
  | (m', Err e) => (m', Err e)
  | (m', Ok s) => session_update io2 m' (Session_touch now s)
  end.
Definition session_list (io : option string) (m : SessionManager) (limit offset : Z)
    : SessionResult (list Session) := list_sessions io (sm_store m) limit offset.

(** ** A manager at work: one atomic call after the other *)

Inductive SessionCall :=
| ScEnableCache (max_size : nat)
| ScCreate (io : option string) (uuid : string) (now : Z) (channel : ChannelType) (user : string)
| ScGetOrCreate (io1 io2 : option string) (uuid : string) (now : Z) (channel : ChannelType) (user : string)
| ScGet (io : option string) (id : string)
| ScDelete (io : option string) (id : string)
| ScTouch (io1 io2 : option string) (now : Z) (id : string)
| ScUpdate (io : option string) (s : Session)
| ScAddMessage (io1 io2 : option string) (uuid : string) (now : Z) (id : string) (r : MessageRole)
    (c : MessageContent)
| ScClearHistory (io : option string) (id : string).
Definition session_call (m : SessionManager) (call : SessionCall) : SessionManager :=
  match call with
  | ScEnableCache n => enable_cache m n
  | ScCreate io uuid now ch u => fst (session_create io uuid now m ch u)
  | ScGetOrCreate io1 io2 uuid now ch u => fst (get_or_create io1 io2 uuid now m ch u)
  | ScGet io id => fst (session_get io m id)
  | ScDelete io id => fst (session_delete io m id)
  | ScTouch io1 io2 now id => fst (session_touch io1 io2 now m id)
  | ScUpdate io s => fst (session_update io m s)
  | ScAddMessage io1 io2 uuid now id r c => fst (session_add_message io1 io2 uuid now m id r c)
  | ScClearHistory io id => fst (session_clear_history io m id)
  end.
Definition session_calls (m : SessionManager) (calls : list SessionCall) : SessionManager :=
  fold_left session_call calls m.

(** ** Isolation *)

Record IsolationPolicy := MkIsolationPolicy { ip_level : IsolationLevel }.
Definition can_share_context (p : IsolationPolicy) (a b : Session) : bool :=
  match ip_level p with
  | IsoNone => true
  | IsoChannel => bool_decide (se_channel a = se_channel b)
  | IsoUser => bool_decide (se_channel_user_id a = se_channel_user_id b)
  | IsoFull => bool_decide (se_id a = se_id b)
  end.
Definition get_isolation_group `{ChannelTypeText} (p : IsolationPolicy) (s : Session) : string :=
  match ip_level p with
  | IsoNone => "global"
  | IsoChannel => "channel:" +:+ channel_type_display (se_channel s)
  | IsoUser => channel_type_display (se_channel s) +:+ ":" +:+ se_channel_user_id s
  | IsoFull => "session:" +:+ se_id s
  end.
Record IsolationContext := MkIsolationContext {
  ic_policy : IsolationPolicy;
  ic_groups : gmap string (gset string)
}.
Definition IsolationContext_new (l : IsolationLevel) : IsolationContext :=
  MkIsolationContext (MkIsolationPolicy l) ∅.
Definition isolation_register `{ChannelTypeText} (c : IsolationContext) (s : Session) : IsolationContext :=
  let key := get_isolation_group (ic_policy c) s in
  MkIsolationContext (ic_policy c)
    (<[ key := {[ se_id s ]} ∪ default ∅ (ic_groups c !! key) ]> (ic_groups c)).
Definition isolation_unregister `{ChannelTypeText} (c : IsolationContext) (s : Session) : IsolationContext :=
  let key := get_isolation_group (ic_policy c) s in
  match ic_groups c !! key with
  | None => c
  | Some g =>
      let g' := g ∖ {[ se_id s ]} in
      MkIsolationContext (ic_policy c)
        (if bool_decide (g' = ∅) then delete key (ic_groups c) else <[ key := g' ]> (ic_groups c))
  end.
Definition get_group_members `{ChannelTypeText} (c : IsolationContext) (s : Session) : gset string :=
  default ∅ (ic_groups c !! get_isolation_group (ic_policy c) s).
Definition is_same_group (c : IsolationContext) (a b : Session) : bool :=
  can_share_context (ic_policy c) a b.

End Store.
