(* ===== verification/SessionsFacts.v ===== *)
(** Correctness of the sessions: what is written to a row is read back, the cache
    of the manager agrees with the table, the history of a session is numbered
    and read in order, and the isolation groups. *)
From S2P Require Import Prelude Json Notifications Sessions.

(** ** Columns *)

Lemma channel_column c : string_to_channel (channel_to_string c) = Some c.
Proof. by destruct c. Qed.

Lemma role_column r : string_to_role (role_to_string r) = r.
Proof. by destruct r. Qed.

Lemma u64_column z : (0 ≤ z < 2 ^ 64)%Z → wrap 64 (as_i64 z) = z.
Proof.
  intros Hz. unfold as_i64. case_decide; [by apply wrap_small|].
  unfold wrap. rewrite <-(Z_mod_plus_full _ 1), Z.mod_small; lia.
Qed.

Section Store.
Context `{JsonValue, !ColumnJson, !SqliteBehaviour, HashOrder}.
Implicit Types st : SqliteStore.
Implicit Types m : SessionManager.

Lemma session_row_roundtrip (s : Session) :
  (0 ≤ se_created_at s < 2 ^ 64)%Z → (0 ≤ se_updated_at s < 2 ^ 64)%Z →
  row_to_session (session_to_row s) = s.
Proof.
  intros Hc Hu. destruct s as [? ? ? ? ? ? level]. unfold row_to_session; simpl in *.
  rewrite channel_column, metadata_json_roundtrip, !u64_column by done. f_equal. by destruct level.
Qed.

Lemma message_row_roundtrip (msg : Message) :
  (0 ≤ me_timestamp msg < 2 ^ 64)%Z → (0 ≤ me_sequence msg < 2 ^ 64)%Z →
  row_to_message (message_to_row msg) = msg.
Proof.
  intros Ht Hq. destruct msg. unfold row_to_message; simpl in *.
  by rewrite role_column, content_json_roundtrip, !u64_column.
Qed.

(** Round trip through the tables: a session whose times are [u64] values and
    a message whose time and number are, written to their rows and read back, are
    what they were. *)
Theorem rows_roundtrip (s : Session) (msg : Message)
    (Hc : (0 ≤ se_created_at s < 2 ^ 64)%Z) (Hu : (0 ≤ se_updated_at s < 2 ^ 64)%Z)
    (Ht : (0 ≤ me_timestamp msg < 2 ^ 64)%Z) (Hq : (0 ≤ me_sequence msg < 2 ^ 64)%Z) :
  row_to_session (session_to_row s) = s ∧ row_to_message (message_to_row msg) = msg.
Proof. split; [by apply session_row_roundtrip|by apply message_row_roundtrip]. Qed.

(** ** The cache agrees with the table *)

Definition keyed (st : SqliteStore) : Prop := ∀ id r, tb_sessions st !! id = Some r → row_id r = id.
Definition coherent (m : SessionManager) : Prop :=
  ∀ c id s, sm_cache m = Some c → sc_sessions c !! id = Some s →
    ∃ r, tb_sessions (sm_store m) !! id = Some r ∧ row_to_session r = s.
Definition bounded (m : SessionManager) : Prop :=
  ∀ c, sm_cache m = Some c → size (sc_sessions c) ≤ sc_max_size c `max` 1.

Definition u64 (t : Z) : Prop := (0 ≤ t < 2 ^ 64)%Z.
(** The clock of a call is a [u64]; a session that is updated is in the table, was
    created when the table says, and its time of update is a [u64]. *)
Definition call_fits (m : SessionManager) (call : SessionCall) : Prop :=
  match call with
  | ScCreate _ _ now _ _ | ScGetOrCreate _ _ _ now _ _ | ScTouch _ _ now _ => u64 now
  | ScUpdate _ s => u64 (se_updated_at s) ∧
      (λ r, wrap 64 (row_created_at r)) <$> tb_sessions (sm_store m) !! se_id s = Some (se_created_at s)
  | _ => True
  end.
Fixpoint calls_fit (m : SessionManager) (calls : list SessionCall) : Prop :=
  match calls with
  | [] => True
  | call :: calls => call_fits m call ∧ calls_fit (session_call m call) calls
  end.
#[export] Instance call_fits_dec m call : Decision (call_fits m call).
Proof. destruct call; unfold call_fits; apply _. Defined.
#[export] Instance calls_fit_dec m calls : Decision (calls_fit m calls).
Proof. revert m. induction calls as [|call calls IH]; intros m; simpl; apply _. Defined.

Lemma cache_insert_lookup c s id s' :
  sc_sessions (SessionCache_insert c s) !! id = Some s' →
  (id = se_id s ∧ s' = s) ∨ (id ≠ se_id s ∧ sc_sessions c !! id = Some s').
Proof.
  unfold SessionCache_insert. simpl. rewrite lookup_insert_Some. intros [[<- <-]|[Hn Hl]]; [auto|]. right.
  split; [done|]. case_bool_decide; [|done]. destruct (hash_keys _) as [|k ks]; [done|].
  by apply lookup_delete_Some in Hl as [_ Hl].
Qed.

Lemma cache_insert_size c s :
  size (sc_sessions c) ≤ sc_max_size c `max` 1 →
  size (sc_sessions (SessionCache_insert c s)) ≤ sc_max_size (SessionCache_insert c s) `max` 1.
Proof.
  unfold SessionCache_insert. simpl. intros Hs.
  assert (∀ l : gmap string Session, size (<[ se_id s := s ]> l) ≤ S (size l)) as Hle.
  { intros l. rewrite map_size_insert. destruct (l !! se_id s); simpl; lia. }
  etrans; [apply Hle|]. case_bool_decide as Hm; [|lia].
  destruct (hash_keys (sc_sessions c)) as [|k ks] eqn:E.
  - assert (sc_sessions c = ∅) as ->; [|rewrite map_size_empty in *; lia].
    apply map_eq. intros i. rewrite lookup_empty. apply eq_None_not_Some. rewrite <-elem_of_hash_keys, E. set_solver.
  - assert (is_Some (sc_sessions c !! k)) as Hk by (rewrite <-elem_of_hash_keys, E; set_solver).
    rewrite map_size_delete_Some by done.
    assert (size (sc_sessions c) ≠ 0); [|lia].
    apply map_size_non_empty_iff. intros E0. rewrite E0 in Hk. by destruct Hk.
Qed.

Lemma row_to_session_id r : se_id (row_to_session r) = row_id r.
Proof. done. Qed.

(** Writing the touched session of a row gives a row that reads back as it. *)
Lemma touched_row r now :
  u64 now →
  row_to_session
    (let r' := session_to_row (Session_touch now (row_to_session r)) in
     MkSessionRow (row_id r) (row_channel r') (row_channel_user_id r') (row_created_at r)
       (row_updated_at r') (row_metadata r') (row_isolation_level r'))
  = Session_touch now (row_to_session r).
Proof.
  intros Hn. unfold row_to_session, Session_touch. simpl.
  rewrite channel_column, metadata_json_roundtrip, u64_column by done. simpl. f_equal.
  repeat case_decide; done.
Qed.

Definition well_formed m : Prop := keyed (sm_store m) ∧ coherent m ∧ bounded m.

Lemma insert_well_formed m st s r :
  well_formed m → keyed st →
  (∀ id, id ≠ se_id s → tb_sessions st !! id = tb_sessions (sm_store m) !! id) →
  tb_sessions st !! se_id s = Some r → row_to_session r = s →
  well_formed (in_cache (λ c, SessionCache_insert c s) (MkSessionManager st (sm_cache m))).
Proof.
  intros (Hk & Hc & Hb) Hk' Hsame Hr Hrs. split; [done|]. split.
  - intros c id s' Ec Hl. simpl in *. destruct (sm_cache m) as [c0|] eqn:E0; [|done]. injection Ec as <-.
    apply cache_insert_lookup in Hl as [[-> ->]|[Hn Hl]]; [by exists r|].
    rewrite Hsame by done. by apply (Hc c0).
  - intros c Ec. simpl in *. destruct (sm_cache m) as [c0|] eqn:E0; [|done]. injection Ec as <-.
    by apply cache_insert_size, Hb.
Qed.

Lemma create_well_formed io uuid now m ch u :
  u64 now → well_formed m → well_formed (session_create io uuid now m ch u).1.
Proof.
  intros Hn Hw. unfold session_create, create_session, store_call.
  destruct io; [by destruct m|]. simpl. destruct (_ !! uuid) eqn:E; [by destruct m|]. simpl.
  eapply insert_well_formed; [done|..]; simpl.
  - intros id r. simpl. rewrite lookup_insert_Some. intros [[<- <-]|[_ Hl]]; [done|]. by apply Hw.
  - intros id Hne. by rewrite lookup_insert_ne.
  - apply lookup_insert_eq.
  - by apply session_row_roundtrip.
Qed.

Lemma get_well_formed io m id : well_formed m → well_formed (session_get io m id).1.
Proof.
  intros Hw. unfold session_get. destruct (c ← sm_cache m; _); [done|]. unfold get_session.
  destruct io; [done|]. destruct (tb_sessions (sm_store m) !! id) as [r|] eqn:E; [|done]. simpl.
  destruct m as [st c]. apply (insert_well_formed (MkSessionManager st c) st _ r); simpl in *; try done.
  - by apply Hw.
  - rewrite <-E. f_equal. by apply Hw.
Qed.

Lemma get_found io m id s :
  well_formed m → (session_get io m id).2 = Ok s →
  ∃ r, tb_sessions (sm_store m) !! id = Some r ∧ row_to_session r = s.
Proof.
  intros Hw. unfold session_get. destruct (c ← sm_cache m; _) as [s'|] eqn:Ec; simpl.
  - intros [= ->]. apply bind_Some in Ec as (c & Ec & Hl). by apply (proj1 (proj2 Hw) c).
  - unfold get_session. destruct io; [done|].
    destruct (tb_sessions (sm_store m) !! id) as [r|] eqn:E; [|done]. intros [= <-]. by exists r.
Qed.

Lemma get_keeps_store io m id : sm_store (session_get io m id).1 = sm_store m.
Proof.
  unfold session_get. destruct (c ← sm_cache m; _); [done|]. by destruct (get_session _ _ _) as [[]|].
Qed.

Lemma touch_well_formed io1 io2 now m id :
  u64 now → well_formed m → well_formed (session_touch io1 io2 now m id).1.
Proof.
  intros Hn Hw. unfold session_touch.
  pose proof (get_well_formed io1 m id Hw) as Hw'. pose proof (get_found io1 m id) as Hf.
  pose proof (get_keeps_store io1 m id) as Hst.
  destruct (session_get io1 m id) as [m' [s|e]]; [|done]. simpl in *.
  destruct (Hf s Hw eq_refl) as (r & Hr & <-). rewrite <-Hst in Hr.
  assert (row_id r = id) as Hid by by apply Hw'.
  unfold session_update, update_session, store_call. destruct io2; [by destruct m'|].
  eapply insert_well_formed; [done|..]; simpl.
  - intros i r'. simpl. rewrite map_update_lookup. case_decide as Hi; [|by apply Hw'].
    subst i. rewrite Hid, Hr. intros [= <-]. done.
  - intros i Hi. rewrite map_update_lookup, decide_False; done.
  - rewrite map_update_lookup, decide_True by done. by rewrite Hid, Hr.
  - by apply touched_row.
Qed.

Lemma update_well_formed io m s : call_fits m (ScUpdate io s) → well_formed m → well_formed (session_update io m s).1.
Proof.
  intros [Hu (r & Hr & Hc)%fmap_Some] Hw. assert (row_id r = se_id s) as Hid by by apply Hw.
  unfold session_update, update_session, store_call. destruct io; [by destruct m|].
  eapply insert_well_formed; [done|..]; simpl.
  - intros i r'. simpl. rewrite map_update_lookup. case_decide as Hi; [|by apply Hw].
    subst i. rewrite Hr. intros [= <-]. done.
  - intros i Hi. rewrite map_update_lookup, decide_False; done.
  - rewrite map_update_lookup, decide_True by done. by rewrite Hr.
  - rewrite Hid. destruct s as [? ? ? ? ? ? level]. unfold row_to_session; simpl in *.
    rewrite channel_column, metadata_json_roundtrip, u64_column, <-Hc by done. f_equal. by destruct level.
Qed.

Lemma store_only_well_formed m st :
  well_formed m → tb_sessions st = tb_sessions (sm_store m) → well_formed (MkSessionManager st (sm_cache m)).
Proof.
  intros (Hk & Hc & Hb) E. split; [|split; [|done]].
  - intros id r. simpl. rewrite E. apply Hk.
  - intros c id s. simpl. rewrite E. apply Hc.
Qed.

Lemma delete_well_formed io m id : well_formed m → well_formed (session_delete io m id).1.
Proof.
  intros Hw. unfold session_delete, delete_session, store_call. destruct io; [by destruct m|].
  destruct (foreign_keys_enforced && _); [by destruct m|]. destruct Hw as (Hk & Hc & Hb). simpl. split; [|split].
  - intros i r. simpl. rewrite lookup_delete_Some. intros [_ Hl]. by apply Hk.
  - intros c i s. simpl. destruct (sm_cache m) as [c0|] eqn:E; [|done]. intros [= <-]. simpl.
    rewrite lookup_delete_Some. intros [Hn Hl]. rewrite lookup_delete_ne by done. by apply (Hc c0).
  - intros c. simpl. destruct (sm_cache m) as [c0|] eqn:E; [|done]. intros [= <-]. specialize (Hb c0 E). simpl.
    etrans; [|done]. rewrite map_size_delete. destruct (_ !! id); simpl; lia.
Qed.

Lemma call_well_formed m call : call_fits m call → well_formed m → well_formed (session_call m call).
Proof.
  destruct call; simpl; intros Hn Hw.
  - split; [apply Hw|]. split.
    + intros c id s. simpl. intros [= <-]. simpl. by rewrite lookup_empty.
    + intros c. simpl. intros [= <-]. simpl. rewrite map_size_empty. lia.
  - by apply create_well_formed.
  - unfold get_or_create. destruct (get_session_by_channel _ _ _ _) as [[s|]|e]; [done| |done].
    by apply create_well_formed.
  - by apply get_well_formed.
  - by apply delete_well_formed.
  - by apply touch_well_formed.
  - by apply update_well_formed.
  - unfold session_add_message. destruct (get_last_sequence _ _ _); [|done].
    unfold store_add_message, store_call. repeat case_match; simplify_eq; simpl;
      by apply store_only_well_formed.
  - unfold session_clear_history, store_clear_history, store_call.
    destruct io; by apply store_only_well_formed.
Qed.

Lemma calls_well_formed calls m :
  calls_fit m calls → well_formed m → well_formed (session_calls m calls).
Proof.
  revert m. induction calls as [|c calls IH]; intros m; [done|]. intros [Hc Hcs] Hw.
  apply IH; [done|]. by apply call_well_formed.
Qed.

(** C36. The cache is invisible.  Start from any table whose rows are stored under
    their identifiers and no cache, and let the manager serve any sequence of its
    calls (enabling a cache, creating, finding, reading, updating, deleting and
    touching sessions, writing and clearing histories), each database call
    succeeding or failing, where a session that is updated is still in the table
    and keeps its time of creation: reading a session then answers exactly what the
    table holds, with the cache as without it, and the cache never exceeds its size
    (one entry when that size is 0).  (An update of a session that was deleted
    breaks this: [deleted_session_returns].) *)
Theorem session_cache_transparent st calls m
    (Hst : keyed st) (Hcalls : calls_fit (SessionManager_new st) calls)
    (Hm : m = session_calls (SessionManager_new st) calls) :
  (∀ id, (session_get None m id).2
    = match tb_sessions (sm_store m) !! id with
      | Some r => Ok (row_to_session r)
      | None => Err (SeSessionNotFound id)
      end) ∧
  bounded m.
Proof.
  assert (well_formed m) as Hw.
  { rewrite Hm. apply calls_well_formed; [done|]. by repeat split. }
  split; [|apply Hw]. intros id. unfold session_get. destruct (c ← sm_cache m; _) as [s|] eqn:Ec; simpl.
  - apply bind_Some in Ec as (c & Ec & Hl). destruct (proj1 (proj2 Hw) c id s Ec Hl) as (r & -> & <-). done.
  - by destruct (tb_sessions (sm_store m) !! id).
Qed.

(** An update of a session that was deleted writes no row but reports success
    and puts the session back into the cache, where it is found again. *)
Lemma deleted_session_returns m s c :
  sm_cache m = Some c → tb_sessions (sm_store m) !! se_id s = None →
  ∃ m', session_update None m s = (m', Ok tt) ∧ tb_sessions (sm_store m') !! se_id s = None ∧
    (session_get None m' (se_id s)).2 = Ok s.
Proof.
  intros Ec Hn. unfold session_update, update_session, store_call. eexists. split; [done|]. split.
  - simpl. by rewrite map_update_lookup, decide_True, Hn.
  - unfold session_get. simpl. rewrite Ec. simpl. unfold SessionCache_get. simpl. by rewrite lookup_insert_eq.
Qed.

(** ** Histories *)

(** The rows of a session in the order in which they were written. *)
Definition numbered st id : Prop :=
  StronglySorted (λ a b, mr_sequence a < mr_sequence b)%Z (session_rows st id) ∧
  Forall (λ r, 0 ≤ mr_sequence r < 2 ^ 63)%Z (session_rows st id).

Lemma numbered_latest_first st id :
  numbered st id → latest_first (session_rows st id) = reverse (session_rows st id).
Proof.
  intros [Hs _]. apply sort_by_reverse.
  rewrite <-(list_fmap_id (session_rows st id)).
  eapply StronglySorted_fmap; [|exact Hs]. intros x y Hxy. simpl. by apply Z.leb_gt.
Qed.

Lemma numbered_history st id limit :
  numbered st id → (0 ≤ limit < 2 ^ 63)%Z →
  store_get_history None st id limit None
  = Ok (row_to_message <$> drop (length (session_rows st id) - Z.to_nat limit) (session_rows st id)).
Proof.
  intros Hn Hl. unfold store_get_history, limited.
  rewrite numbered_latest_first, !as_i64_small, bool_decide_false by (done || lia).
  change (drop (Z.to_nat 0) ?l) with l. by rewrite take_reverse, reverse_involutive.
Qed.

Lemma StronglySorted_snoc_lt (l : list MessageRow) r :
  StronglySorted (λ a b, mr_sequence a < mr_sequence b)%Z l →
  (∀ a, a ∈ l → mr_sequence a < mr_sequence r)%Z →
  StronglySorted (λ a b, mr_sequence a < mr_sequence b)%Z (l ++ [r]).
Proof.
  intros Hl Hr. apply StronglySorted_app_2; [|done|].
  - intros a b Ha ->%list_elem_of_singleton. auto.
  - apply SSorted_cons; constructor.
Qed.

(** The number the next message of a session gets. *)
Definition next_sequence (first : option Z) (rows : list MessageRow) : Z :=
  match last rows with
  | Some r => (mr_sequence r + 1)%Z
  | None => from_option (λ s, s + 1)%Z 0%Z first
  end.

Lemma last_sequence st id first :
  numbered st id → max_of_nothing = Ok first →
  get_last_sequence None st id
  = Ok (match last (session_rows st id) with Some r => Some (mr_sequence r) | None => first end).
Proof.
  intros Hn Hf. unfold get_last_sequence. rewrite numbered_latest_first by done.
  destruct Hn as [_ Hb]. revert Hb. destruct (session_rows st id) as [|r0 rows ?] using rev_ind; [by rewrite Hf|].
  rewrite reverse_snoc, last_snoc, Forall_app, Forall_singleton. simpl. intros [_ Hr0].
  do 2 f_equal. apply wrap_small. lia.
Qed.

Lemma below_next first st id a :
  numbered st id → a ∈ session_rows st id → (mr_sequence a < next_sequence first (session_rows st id))%Z.
Proof.
  intros [Hs _] Ha. unfold next_sequence. destruct (last (session_rows st id)) as [r|] eqn:E.
  - apply last_Some in E as [l E]. rewrite E in Hs, Ha.
    apply elem_of_app in Ha as [Ha|Ha%list_elem_of_singleton].
    + pose proof (StronglySorted_app_1_elem_of _ _ _ _ _ Hs Ha (list_elem_of_here _ _)) as Hlt. simpl in Hlt. lia.
    + subst a. lia.
  - apply last_None in E. rewrite E in Ha. by apply elem_of_nil in Ha.
Qed.

Lemma history_snoc st sessions id first msg :
  numbered st id → me_session_id msg = id → me_sequence msg = next_sequence first (session_rows st id) →
  (0 ≤ me_sequence msg < 2 ^ 63)%Z →
  numbered (MkSqliteStore sessions (tb_history st ++ [message_to_row msg])) id.
Proof.
  intros Hn Hi Hq Hr. unfold numbered, session_rows. simpl. rewrite List.filter_app. simpl.
  rewrite bool_decide_true by done. destruct Hn as [Hs Hb]. split.
  - apply StronglySorted_snoc_lt; [done|]. intros a Ha. simpl. rewrite as_i64_small, Hq by done.
    by apply (below_next first).
  - apply Forall_app. split; [done|]. apply Forall_singleton. simpl. by rewrite as_i64_small.
Qed.

Lemma add_message_succeeds m id uuid now r c first :
  numbered (sm_store m) id → max_of_nothing = Ok first →
  (0 ≤ next_sequence first (session_rows (sm_store m) id) < 2 ^ 63)%Z →
  Forall (λ r, mr_id r ≠ uuid) (tb_history (sm_store m)) →
  (foreign_keys_enforced = true → tb_sessions (sm_store m) !! id ≠ None) →
  let msg := Message_new uuid now id r c (next_sequence first (session_rows (sm_store m) id)) in
  session_add_message None None uuid now m id r c
  = (MkSessionManager (MkSqliteStore (tb_sessions (sm_store m))
        (tb_history (sm_store m) ++ [message_to_row msg])) (sm_cache m), Ok msg).
Proof.
  intros Hn Hf Hr Hu Hfk msg. unfold session_add_message. rewrite (last_sequence _ _ first) by done.
  set (q := from_option _ _ _). assert (q = next_sequence first (session_rows (sm_store m) id)) as ->.
  { subst q. unfold next_sequence in *. destruct (last _); simpl; [by apply wrap_small; lia|].
    destruct first; simpl in *; [apply wrap_small; lia|done]. }
  fold msg. unfold store_add_message, store_call.
  assert (existsb (λ x, bool_decide (mr_id x = me_id msg)
    || bool_decide (mr_session_id x = me_session_id msg ∧ mr_sequence x = as_i64 (me_sequence msg)))
    (tb_history (sm_store m)) = false) as ->.
  { apply not_true_iff_false. rewrite existsb_exists. intros (x & Hx & Hd). apply list_elem_of_In in Hx.
    rewrite orb_true_iff, !bool_decide_eq_true in Hd. destruct Hd as [Hd|[Hi Hq]].
    - by apply (proj1 (Forall_forall _ _) Hu x Hx).
    - assert (x ∈ session_rows (sm_store m) id) as Hx'.
      { unfold session_rows. rewrite list_elem_of_In, List.filter_In, <-list_elem_of_In, bool_decide_eq_true.
        done. }
      pose proof (below_next first _ _ _ Hn Hx') as Hlt. simpl in Hq. rewrite as_i64_small in Hq; lia. }
  destruct foreign_keys_enforced; simpl; [|done]. rewrite bool_decide_false by auto. done.
Qed.

(** The history of a session.  When the rows of a session are numbered
    upwards in the order of writing (and the numbers leave room), adding a message
    under a fresh identifier to it (an existing session, where foreign keys are
    enforced) succeeds: the message gets the number after the last one, its row
    comes after those there are, the histories of the others and the sessions are
    as they were, the rows are still numbered upwards, and reading the last
    [limit] messages gives the [limit - 1] messages before it, oldest first, and
    it. *)
Theorem session_history_appends m id uuid now r c first limit
    (Hn : numbered (sm_store m) id) (Hnow : u64 now)
    (Hmax : max_of_nothing = Ok first)
    (Hroom : (0 ≤ next_sequence first (session_rows (sm_store m) id) < 2 ^ 63)%Z)
    (Huuid : Forall (λ r, mr_id r ≠ uuid) (tb_history (sm_store m)))
    (Hsession : foreign_keys_enforced = true → tb_sessions (sm_store m) !! id ≠ None)
    (Hlimit : (1 ≤ limit < 2 ^ 63)%Z) :
  let old := session_rows (sm_store m) id in
  let msg := Message_new uuid now id r c (next_sequence first old) in
  ∃ m', session_add_message None None uuid now m id r c = (m', Ok msg) ∧
    session_rows (sm_store m') id = old ++ [message_to_row msg] ∧
    numbered (sm_store m') id ∧
    (∀ other, other ≠ id → session_rows (sm_store m') other = session_rows (sm_store m) other) ∧
    tb_sessions (sm_store m') = tb_sessions (sm_store m) ∧
    session_get_history None m' id limit
    = Ok ((row_to_message <$> drop (length old - (Z.to_nat limit - 1)) old) ++ [msg]).
Proof.
  intros old msg.
  assert (session_add_message None None uuid now m id r c
    = (MkSessionManager (MkSqliteStore (tb_sessions (sm_store m))
        (tb_history (sm_store m) ++ [message_to_row msg])) (sm_cache m), Ok msg)) as E.
  { by apply add_message_succeeds. }
  eexists. split; [exact E|]. cbn [sm_store].
  assert (session_rows (MkSqliteStore (tb_sessions (sm_store m))
      (tb_history (sm_store m) ++ [message_to_row msg])) id = old ++ [message_to_row msg]) as Hr.
  { unfold session_rows. simpl. rewrite List.filter_app. simpl. by rewrite bool_decide_true. }
  assert (numbered (MkSqliteStore (tb_sessions (sm_store m))
      (tb_history (sm_store m) ++ [message_to_row msg])) id) as Hn'.
  { by apply (history_snoc (sm_store m) _ id first). }
  split; [done|]. split; [done|]. split; [|split; [done|]].
  - intros other Ho. unfold session_rows. simpl. rewrite List.filter_app. simpl.
    rewrite bool_decide_false by done. apply app_nil_r.
  - unfold session_get_history. cbn [sm_store]. rewrite numbered_history by (done || lia). rewrite Hr. f_equal.
    rewrite length_app. simpl. rewrite drop_app_le by lia. rewrite fmap_app. f_equal.
    + do 2 f_equal. lia.
    + simpl. f_equal. apply message_row_roundtrip; simpl; fold old in Hroom; [done|lia].
Qed.

(** Deleting a session leaves its history to the next session of that
    identifier, unless foreign keys are enforced: then it fails while there are
    messages. *)
Lemma delete_session_spec m id :
  session_delete None m id
  = if foreign_keys_enforced && existsb (λ r, bool_decide (mr_session_id r = id)) (tb_history (sm_store m))
    then (m, Err (SeDatabaseError foreign_key_violation))
    else (MkSessionManager (MkSqliteStore (delete id (tb_sessions (sm_store m))) (tb_history (sm_store m)))
            ((λ c, SessionCache_remove c id) <$> sm_cache m), Ok tt).
Proof.
  unfold session_delete, delete_session, store_call. destruct (foreign_keys_enforced && _); [by destruct m|done].
Qed.

(** ** Isolation *)

Section Isolation.
Context `{ChannelTypeText}.

(** Isolation.  Where distinct channels have distinct names, sharing a context
    and being in the same group are the same at every level but [IsoUser]: there
    two sessions share a context when their users have the same identifier, on
    whatever channel, while sessions of one such user on two channels are in
    different groups. *)
Theorem isolation_groups (a b : Session) p (Hinj : Inj eq eq channel_type_display) :
  match ip_level p with
  | IsoUser =>
      (can_share_context p a b = true ↔ se_channel_user_id a = se_channel_user_id b) ∧
      (se_channel_user_id a = se_channel_user_id b → se_channel a ≠ se_channel b →
       get_isolation_group p a ≠ get_isolation_group p b)
  | _ => can_share_context p a b = true ↔ get_isolation_group p a = get_isolation_group p b
  end.
Proof.
  unfold can_share_context, get_isolation_group. destruct (ip_level p); rewrite ?bool_decide_eq_true.
  - done.
  - split; [by intros ->|]. by intros He%str_app_inj_l%(inj _).
  - split; [done|]. intros -> Hc He. apply str_app_inj_r in He. by apply (inj _) in He.
  - split; [by intros ->|]. by intros He%str_app_inj_l.
Qed.

End Isolation.

End Store.

(** ** Examples *)

(** JSON texts for the examples: the code of the value in base two. *)
Fixpoint text_of_positive (p : positive) : string :=
  match p with
  | xH => ""
  | xO q => String "0" (text_of_positive q)
  | xI q => String "1" (text_of_positive q)
  end.
Fixpoint positive_of_text (s : string) : positive :=
  match s with
  | EmptyString => xH
  | String "0" s' => xO (positive_of_text s')
  | String _ s' => xI (positive_of_text s')
  end.

Lemma text_roundtrip p : positive_of_text (text_of_positive p) = p.
Proof. induction p as [p IH|p IH|]; simpl; by rewrite ?IH. Qed.

Definition content_parts (c : @MessageContent json_trees)
    : string + (string * option string) + (string * option Z) + json_tree :=
  match c with
  | McText s => inl (inl (inl s))
  | McImage u c => inl (inl (inr (u, c)))
  | McAudio u d => inl (inr (u, d))
  | McStructured v => inr v
  end.
Definition content_of_parts (x : string + (string * option string) + (string * option Z) + json_tree)
    : @MessageContent json_trees :=
  match x with
  | inl (inl (inl s)) => @McText json_trees s
  | inl (inl (inr (u, c))) => @McImage json_trees u c
  | inl (inr (u, d)) => @McAudio json_trees u d
  | inr v => @McStructured json_trees v
  end.

Definition example_columns : @ColumnJson json_trees.
Proof.
  refine (@Build_ColumnJson json_trees
    (λ m, text_of_positive (encode m)) (λ s, decode (positive_of_text s))
    (λ c, text_of_positive (encode (content_parts c)))
    (λ s, content_of_parts <$> decode (positive_of_text s)) _ _).
  - intros m. by rewrite text_roundtrip, decode_encode.
  - intros c. rewrite text_roundtrip, decode_encode. by destruct c.
Defined.
Definition example_sqlite : SqliteBehaviour :=
  {| foreign_keys_enforced := true; unique_violation := "UNIQUE constraint failed";
     foreign_key_violation := "FOREIGN KEY constraint failed"; max_of_nothing := Ok (Some 0%Z) |}.
#[local] Instance example_names : ChannelTypeText := channel_to_string.
#[local] Existing Instances json_trees example_columns example_sqlite canonical_order.

Lemma rows_roundtrip_witness :
  let s := Session_new "s" (2 ^ 64 - 1) Slack "u" in
  let msg := Message_new "m" 5 "s" RoleTool (McImage "i" None) 7 in
  row_to_session (session_to_row s) = s ∧ row_to_message (message_to_row msg) = msg.
Proof. intros s msg. apply (rows_roundtrip s msg); simpl; lia. Defined.

(** One entry of cache, an evicted session, a deleted one and a failed call. *)
Definition example_calls : list SessionCall :=
  [ ScEnableCache 1; ScCreate None "a" 1 Slack "u"; ScCreate None "b" 2 Telegram "v";
    ScTouch None None 9 "a"; ScUpdate None (MkSession "a" Slack "w" 1 11 ∅ IsoUser); ScCreate (Some "disk full") "c" 3 Discord "w"; ScDelete None "b" ].

Lemma session_cache_transparent_witness :
  let m := session_calls (SessionManager_new SqliteStore_empty) example_calls in
  (se_updated_at <$> match (session_get None m "a").2 with Ok s => Some s | Err _ => None end) = Some 11%Z ∧
  (session_get None m "b").2 = Err (SeSessionNotFound "b") ∧
  (session_get (Some "busy") m "a").2 = (session_get None m "a").2.
Proof.
  intros m. assert (calls_fit (SessionManager_new SqliteStore_empty) example_calls) as Hc.
  { apply (bool_decide_unpack _). vm_compute. exact I. }
  assert (keyed SqliteStore_empty) as Hk by by intros id r.
  pose proof (session_cache_transparent SqliteStore_empty example_calls m Hk Hc eq_refl) as [Hg _].
  split; [|split].
  - rewrite Hg. vm_compute. reflexivity.
  - rewrite Hg. vm_compute. reflexivity.
  - rewrite Hg. vm_compute. reflexivity.
Defined.

Lemma session_history_appends_witness :
  let m := session_calls (SessionManager_new SqliteStore_empty)
    [ ScCreate None "a" 1 Slack "u"; ScAddMessage None None "m1" 2 "a" RoleUser (McText "hello") ] in
  let msg := Message_new "m2" 3 "a" RoleAssistant (McText "hi") 2 in
  ∃ m', session_add_message None None "m2" 3 m "a" RoleAssistant (McText "hi") = (m', Ok msg) ∧
    session_get_history None m' "a" 1 = Ok [msg].
Proof.
  intros m msg.
  assert (session_rows (sm_store m) "a" = [message_to_row (Message_new "m1" 2 "a" RoleUser (McText "hello") 1)])
    as Er by (vm_compute; reflexivity).
  destruct (session_history_appends m "a" "m2" 3 RoleAssistant (McText "hi") (Some 0%Z) 1) as (m' & Ha & _ & _ & _ & _ & Hg).
  - unfold numbered. rewrite Er. simpl. split; [apply SSorted_cons; constructor|].
    apply Forall_singleton. vm_compute. split; congruence.
  - unfold u64. lia.
  - reflexivity.
  - rewrite Er. vm_compute. split; congruence.
  - vm_compute. constructor; [|constructor]. congruence.
  - intros _. vm_compute. congruence.
  - lia.
  - exists m'. rewrite Er in Ha, Hg. split; [exact Ha|exact Hg].
Defined.

Lemma isolation_groups_witness :
  let a := Session_new "a" 0 Slack "u" in
  let b := Session_new "b" 0 Telegram "u" in
  let p := MkIsolationPolicy IsoUser in
  can_share_context p a b = true ∧ get_isolation_group p a ≠ get_isolation_group p b.
Proof.
  intros a b p.
  assert (Inj eq eq channel_type_display) as Hi.
  { intros [] []; cbv; congruence. }
  destruct (isolation_groups a b p Hi) as [H1 H2].
  split; [by apply H1|by apply H2].
Defined.
