(* ===== verification/IpAddr.v ===== *)
(** IP addresses as the standard library of Rust reads and classifies them
    ([str::parse::<IpAddr>()], [Ipv4Addr], [Ipv6Addr]): the parser the checks of
    browser targets call.  An IPv6 address is the list of its eight groups. *)
From S2P Require Import Prelude ProtocolTypes.

Inductive IpAddr := V4 (a b c d : Z) | V6 (groups : list Z).

(** ** Reading *)

Definition digit_of (radix : Z) (c : Ascii.ascii) : option Z :=
  let n := Z.of_nat (byte_of c) in
  let v := if bool_decide (48 ≤ n ≤ 57)%Z then Some (n - 48)%Z
           else if bool_decide (97 ≤ n ≤ 122)%Z then Some (n - 87)%Z
           else if bool_decide (65 ≤ n ≤ 90)%Z then Some (n - 55)%Z else None in
  match v with Some d => if bool_decide (d < radix)%Z then Some d else None | None => None end.

Fixpoint span_digits (radix : Z) (s : string) : list Z * string :=
  match s with
  | EmptyString => ([], "")
  | String c s' =>
      match digit_of radix c with
      | Some d => let '(ds, rest) := span_digits radix s' in (d :: ds, rest)
      | None => ([], s)
      end
  end.

(** [read_number]: at most [max_digits] digits, at most [max]; a leading zero only
    where it is allowed. *)
Definition read_number (radix : Z) (max_digits : nat) (max : Z) (zero_prefix : bool) (s : string)
    : option (Z * string) :=
  let '(ds, rest) := span_digits radix s in
  let v := foldl (λ acc d, acc * radix + d)%Z 0%Z ds in
  if bool_decide (ds = [] ∨ max_digits < length ds ∨ (max < v)%Z) then None
  else if negb zero_prefix && bool_decide (head ds = Some 0%Z ∧ 1 < length ds) then None
  else Some (v, rest).

Definition read_char (c : Ascii.ascii) (s : string) : option string :=
  match s with
  | String d s' => if Ascii.eqb c d then Some s' else None
  | EmptyString => None
  end.
Definition read_octet : string → option (Z * string) := read_number 10 3 255 false.

Definition read_ipv4 (s : string) : option ((Z * Z * Z * Z) * string) :=
  '(a, s) ← read_octet s; s ← read_char "." s;
  '(b, s) ← read_octet s; s ← read_char "." s;
  '(c, s) ← read_octet s; s ← read_char "." s;
  '(d, s) ← read_octet s; Some ((a, b, c, d), s).

(** [read_separator(':', index, inner)]. *)
Definition after_colon {A} (index : nat) (inner : string → option A) (s : string) : option A :=
  match index with O => inner s | S _ => s ← read_char ":" s; inner s end.

(** [read_groups] with [n] groups to go: the groups, whether the last two are an
    IPv4 address, and the rest. *)
Fixpoint read_groups (n index : nat) (s : string) : list Z * bool * string :=
  match n with
  | O => ([], false, s)
  | S n' =>
      match (match n' with O => None | S _ => after_colon index read_ipv4 s end) with
      | Some ((a, b, c, d), rest) => ([a * 256 + b; c * 256 + d]%Z, true, rest)
      | None =>
          match after_colon index (read_number 16 4 65535 true) s with
          | Some (g, rest) => let '(gs, v4, rest') := read_groups n' (S index) rest in (g :: gs, v4, rest')
          | None => ([], false, s)
          end
      end
  end.

Definition read_ipv6 (s : string) : option (list Z * string) :=
  let '(groups, v4, s) := read_groups 8 0 s in
  if bool_decide (length groups = 8) then Some (groups, s)
  else if v4 then None
  else
    s ← read_char ":" s; s ← read_char ":" s;
    let '(tail, _, s) := read_groups (8 - (length groups + 1)) 0 s in
    Some (groups ++ replicate (8 - length groups - length tail) 0%Z ++ tail, s).

Definition parse_ip (s : string) : option IpAddr :=
  match read_ipv4 s with
  | Some ((a, b, c, d), rest) => if bool_decide (rest = "") then Some (V4 a b c d) else None
  | None =>
      match read_ipv6 s with
      | Some (groups, rest) => if bool_decide (rest = "") then Some (V6 groups) else None
      | None => None
      end
  end.

(** ** Classes of addresses *)

Definition ipv4_is_loopback (a b c d : Z) : bool := bool_decide (a = 127%Z).
Definition ipv4_is_private (a b c d : Z) : bool :=
  bool_decide (a = 10 ∨ (a = 172 ∧ 16 ≤ b ≤ 31) ∨ (a = 192 ∧ b = 168))%Z.
Definition ipv4_is_link_local (a b c d : Z) : bool := bool_decide (a = 169 ∧ b = 254)%Z.
Definition ipv4_is_unspecified (a b c d : Z) : bool := bool_decide (a = 0 ∧ b = 0 ∧ c = 0 ∧ d = 0)%Z.
Definition ipv4_is_broadcast (a b c d : Z) : bool :=
  bool_decide (a = 255 ∧ b = 255 ∧ c = 255 ∧ d = 255)%Z.
Definition ipv4_is_documentation (a b c d : Z) : bool :=
  bool_decide ((a = 192 ∧ b = 0 ∧ c = 2) ∨ (a = 198 ∧ b = 51 ∧ c = 100) ∨ (a = 203 ∧ b = 0 ∧ c = 113))%Z.

Definition ipv6_is_loopback (g : list Z) : bool := bool_decide (g = [0; 0; 0; 0; 0; 0; 0; 1]%Z).
Definition ipv6_is_unspecified (g : list Z) : bool := bool_decide (g = [0; 0; 0; 0; 0; 0; 0; 0]%Z).
Definition ipv6_is_unique_local (g : list Z) : bool :=
  bool_decide (Z.land (default 0%Z (g !! 0%nat)) 65024 = 64512)%Z.
Definition ipv6_is_unicast_link_local (g : list Z) : bool :=
  bool_decide (Z.land (default 0%Z (g !! 0%nat)) 65472 = 65152)%Z.

(** ** Facts *)

Definition ipv4_text (a b c d : Z) : string :=
  display_u a +:+ "." +:+ display_u b +:+ "." +:+ display_u c +:+ "." +:+ display_u d.

Lemma span_digits_app ds rest s t :
  span_digits 10 s = (ds, rest) → rest = "" →
  (∀ c t', t = String c t' → digit_of 10 c = None) → span_digits 10 (s +:+ t) = (ds, t).
Proof.
  intros Hs -> Ht. revert ds Hs. induction s as [|c s IH]; intros ds Hs.
  - simpl in *. simplify_eq. rewrite str_app_nil_l. destruct t as [|c t]; [done|]. simpl. by rewrite (Ht c t).
  - rewrite str_app_cons. simpl in *. destruct (digit_of 10 c) as [x|]; [|simplify_eq].
    destruct (span_digits 10 s) as [ds' r']. simplify_eq. by rewrite (IH ds').
Qed.

(** Every octet is read back, checked one by one. *)
Lemma read_octet_text_nil n : (0 ≤ n ≤ 255)%Z → span_digits 10 (display_u n) = ((span_digits 10 (display_u n)).1, "") ∧
  read_octet (display_u n) = Some (n, "").
Proof.
  intros Hn.
  assert (forallb (λ k, let m := Z.of_nat k in
    bool_decide ((span_digits 10 (display_u m)).2 = "") && bool_decide (read_octet (display_u m) = Some (m, "")))
    (seq 0 256) = true) as H by by vm_compute.
  rewrite forallb_forall in H. specialize (H (Z.to_nat n)). rewrite Z2Nat.id in H by lia.
  destruct (andb_prop _ _ (H ltac:(apply in_seq; lia))) as [H1%bool_decide_eq_true H2%bool_decide_eq_true].
  split; [|done]. destruct (span_digits 10 (display_u n)) as [ds r]. simpl in *. by subst.
Qed.

Lemma read_octet_text n t :
  (0 ≤ n ≤ 255)%Z → (∀ c t', t = String c t' → digit_of 10 c = None) →
  read_octet (display_u n +:+ t) = Some (n, t).
Proof.
  intros Hn Ht. destruct (read_octet_text_nil n Hn) as [Hs Hr]. unfold read_octet, read_number in *.
  rewrite (span_digits_app _ _ _ t Hs eq_refl Ht). rewrite Hs in Hr.
  destruct (span_digits 10 (display_u n)) as [ds r]. simpl in *.
  destruct (bool_decide _); [done|]. destruct (bool_decide _); [done|]. congruence.
Qed.

Lemma parse_ipv4_text a b c d :
  (0 ≤ a ≤ 255)%Z → (0 ≤ b ≤ 255)%Z → (0 ≤ c ≤ 255)%Z → (0 ≤ d ≤ 255)%Z →
  parse_ip (ipv4_text a b c d) = Some (V4 a b c d).
Proof.
  intros Ha Hb Hc Hd. unfold parse_ip, read_ipv4, ipv4_text.
  rewrite <-(str_app_nil_r (display_u d)).
  rewrite read_octet_text by (done || by intros ? ? [= <- _]). simpl.
  rewrite str_app_nil_l, read_octet_text by (done || by intros ? ? [= <- _]). simpl.
  rewrite str_app_nil_l, read_octet_text by (done || by intros ? ? [= <- _]). simpl.
  rewrite str_app_nil_l, read_octet_text by done. done.
Qed.

(** Brackets are no part of an address: the form a URL gives an IPv6 host. *)
Lemma parse_ip_bracket s : parse_ip (String "[" s) = None.
Proof. done. Qed.
