(* ===== verification/Planner.v ===== *)
(** The planner of the Hub ([crates/uhorse-hub/src/web/mod.rs], from
    [execute_local_turn_step] to [normalize_relative_path]): what it makes of an
    answer of the language model, and the checks of a planned command.  The
    prompts are left out: the answers of the model are an arbitrary stream, of
    which each call reads the next.  What serde_json reads from a text and what
    the url crate reads from a URL are classes. *)
From S2P Require Import Prelude Json ProtocolTypes ProtocolCommand Paths NodeManager Permission IpAddr.

(** The rest of the interface of JSON values used here. *)
Class JsonShape `{JsonValue} := {
  as_str : Value → option string;
  as_array : Value → option (list Value);
  as_str_string s : as_str (json_string s) = Some s;
  as_object_object l : NoDup l.*1 → ∃ l', as_object (json_object l) = Some l' ∧ l' ≡ₚ l
}.

(** The scheme and the host of a URL; the crate writes the host of an IPv6
    address in brackets. *)
Class UrlParser := { url_parse : string → option (string * option string) }.

(** ** The first JSON object of a text *)

(** The state of the scan: depth, inside a string, after a backslash. *)
Record scan_state := MkScan { sn_depth : nat; sn_in_string : bool; sn_escape : bool }.

Definition scan_char (st : scan_state) (c : Ascii.ascii) : scan_state :=
  if sn_in_string st then
    if sn_escape st then MkScan (sn_depth st) true false
    else if Ascii.eqb c "\" then MkScan (sn_depth st) true true
    else if Ascii.eqb c "034" then MkScan (sn_depth st) false false
    else st
  else if Ascii.eqb c "034" then MkScan (sn_depth st) true false
  else if Ascii.eqb c "{" then MkScan (S (sn_depth st)) false (sn_escape st)
  else if Ascii.eqb c "}" then MkScan (pred (sn_depth st)) false (sn_escape st)
  else st.

(** A closing brace outside of strings that brings the depth to 0 ends the object;
    one at depth 0 gives up. *)
Fixpoint scan_object (st : scan_state) (s : string) : option string :=
  match s with
  | EmptyString => None
  | String c s' =>
      let st' := scan_char st c in
      if negb (sn_in_string st) && Ascii.eqb c "}" then
        if decide (sn_depth st = 0) then None
        else if decide (sn_depth st' = 0) then Some (String c "")
        else String c <$> scan_object st' s'
      else String c <$> scan_object st' s'
  end.

Definition extract_first_json_object (input : string) : option string :=
  match split_at_char "{" input with
  | Some (_, rest) => scan_object (MkScan 0 false false) (String "{" rest)
  | None => None
  end.

(** ** Browser targets *)

Definition validate_browser_target_url `{UrlParser} (url : string) : Result unit string :=
  match url_parse url with
  | None => Err "浏览器 URL 非法。"
  | Some (scheme, host) =>
      if negb (bool_decide (scheme = "http" ∨ scheme = "https")) then
        Err "浏览器命令只允许 http/https URL。"
      else
        match host with
        | None => Err "浏览器 URL 缺少主机名。"
        | Some host =>
            let host := ascii_lower (str_trim host) in
            if bool_decide (host = "localhost" ∨ host = "localhost.localdomain") then
              Err "禁止访问 localhost 目标。"
            else
              match parse_ip host with
              | Some (V4 a b c d) =>
                  if ipv4_is_loopback a b c d || ipv4_is_private a b c d || ipv4_is_link_local a b c d
                     || ipv4_is_unspecified a b c d || ipv4_is_broadcast a b c d
                     || ipv4_is_documentation a b c d
                  then Err "禁止访问本机或私网 IPv4 目标。" else Ok tt
              | Some (V6 g) =>
                  if ipv6_is_loopback g || ipv6_is_unique_local g || ipv6_is_unicast_link_local g
                     || ipv6_is_unspecified g
                  then Err "禁止访问本机或私网 IPv6 目标。" else Ok tt
              | None => Ok tt
              end
        end
  end.

Definition validate_browser_command `{UrlParser} (c : BrowserCommand) : Result unit string :=
  match c with
  | BOpenSystem url | BNavigate url => validate_browser_target_url url
  | _ => Ok tt
  end.

(** ** Paths of a planned command *)

Definition is_plain_component (c : component) : bool :=
  match c with CNormal _ => true | _ => false end.

Definition normalize_relative_path (value : string) : Result string string :=
  let p := path_of_string value in
  if is_absolute p then Err "路径必须是 workspace 内的相对路径。"
  else if existsb (λ c, match c with ParentDir | RootDir => true | _ => false end) p then
    Err "不允许使用 .. 或绝对路径。"
  else
    let normalized := List.filter is_plain_component p in
    Ok (if decide (normalized = []) then "." else path_to_string normalized).

Section Planner.
Context `{JsonValue, !JsonShape, FileSystem, UrlParser, ToLowercase}.

Definition ensure_workspace_path (value workspace_root : string) : Result unit string :=
  if is_absolute (path_of_string value) then
    if workspace_matches_hint value workspace_root then Ok tt else Err "路径必须位于 workspace 内。"
  else let? _ := normalize_relative_path value in Ok tt.

Definition file_paths (c : FileCommand) : list string :=
  match c with
  | FRead p _ _ | FWrite p _ _ | FAppend p _ | FDelete p _ | FList p _ _ | FSearch _ p _ _
  | FInfo p | FCreateDir p _ | FExists p => [p]
  | FCopy from to _ | FMove from to _ => [from; to]
  end.
Fixpoint ensure_workspace_paths (l : list string) (workspace_root : string) : Result unit string :=
  match l with
  | [] => Ok tt
  | p :: l' => let? _ := ensure_workspace_path p workspace_root in ensure_workspace_paths l' workspace_root
  end.
Definition validate_file_command (c : FileCommand) (workspace_root : string) : Result unit string :=
  ensure_workspace_paths (file_paths c) workspace_root.

Definition forbidden_git_commands : list string :=
  [ "git reset --hard"; "git clean -fd"; "git clean -f -d"; "git checkout --"; "git restore --source";
    "git push --force"; "git push -f" ].
Definition shell_command_text (c : ShellCommand) : string :=
  to_lowercase (str_join " " (sh_command c :: sh_args c)).
Definition validate_shell_command (c : ShellCommand) (workspace_root : string) : Result unit string :=
  let? _ := match sh_cwd c with
            | Some cwd => ensure_workspace_path cwd workspace_root
            | None => Ok tt
            end in
  match head (List.filter (λ pattern, str_contains pattern (shell_command_text c)) forbidden_git_commands) with
  | Some pattern => Err ("禁止危险 git 命令：" +:+ pattern)
  | None => Ok tt
  end.

Definition validate_planned_command (c : Command) (workspace_root : string) : Result unit string :=
  match c with
  | CFile f => validate_file_command f workspace_root
  | CShell s => validate_shell_command s workspace_root
  | CBrowser b => validate_browser_command b
  | _ => Err "仅允许规划 FileCommand、ShellCommand 或 BrowserCommand。"
  end.

(** ** The shape of a plan *)

Definition entries_insert (k : string) (v : Value) (l : list (string * Value)) : list (string * Value) :=
  (k, v) :: List.filter (λ e, negb (bool_decide (e.1 = k))) l.
Definition entries_remove (k : string) (l : list (string * Value)) : list (string * Value) :=
  List.filter (λ e, negb (bool_decide (e.1 = k))) l.

Definition normalize_action_tagged_execute_command_payload (value : Value) : Value :=
  match as_object value with
  | None => value
  | Some entries =>
      match get value "type" with
      | Some _ => value
      | None =>
          if bool_decide ((get value "action" ≫= as_str) = Some "execute_command") then
            json_object (entries_insert "type" (json_string "execute_command") entries)
          else value
      end
  end.

(** The first of the legacy list of actions, and its name. *)
Definition legacy_browser_action (value : Value) : option (Value * Value * string) :=
  command ← get value "command";
  if negb (bool_decide ((get command "type" ≫= as_str) = Some "browser")) then None
  else
    match get command "action" with
    | Some _ => None
    | None =>
        actions ← get command "actions" ≫= as_array;
        first ← head actions;
        name ← get first "type" ≫= as_str;
        Some (command, first, name)
    end.
Definition normalize_legacy_browser_actions_payload (value : Value) : Value :=
  match legacy_browser_action value with
  | None => value
  | Some (command, first, name) =>
      match as_object value with
      | None => value
      | Some entries =>
          match as_object command with
          | None => json_object (entries_remove "command" entries)
          | Some command_map =>
              let base := entries_insert "action" (json_string name) (entries_remove "actions" command_map) in
              let fields := match as_object first with Some l => l | None => [] end in
              let merged := foldl (λ m e, if bool_decide (e.1 = "type") then m else entries_insert e.1 e.2 m)
                              base fields in
              json_object (entries_insert "command" (json_object merged) (entries_remove "command" entries))
          end
      end
  end.
Definition normalize_planned_command_payload (value : Value) : Value :=
  normalize_legacy_browser_actions_payload (normalize_action_tagged_execute_command_payload value).

(** ** Decisions *)

Inductive AgentDecision :=
| DirectReply (text : string)
| ExecuteCommand (command : Command) (workspace_path : option string)
| ExecuteSkill (skill_name input : string)
| ListInstalledSkills
| QuerySkill (skill_name : string)
| InstallSkill (query : string).
Inductive PlannedTurnStep :=
| Finalize (text : string)
| SubmitTask (command : Command) (workspace_path : option string)
| StepExecuteSkill (skill_name input : string)
| StepListInstalledSkills
| StepQuerySkill (skill_name : string)
| StepInstallSkill (query : string).
Definition planned_step_from_agent_decision (d : AgentDecision) : PlannedTurnStep :=
  match d with
  | DirectReply text => Finalize text
  | ExecuteCommand command workspace_path => SubmitTask command workspace_path
  | ExecuteSkill skill_name input => StepExecuteSkill skill_name input
  | ListInstalledSkills => StepListInstalledSkills
  | QuerySkill skill_name => StepQuerySkill skill_name
  | InstallSkill query => StepInstallSkill query
  end.
Record PlannedDingTalkCommand := MkPlannedDingTalkCommand {
  pd_command : Command;
  pd_workspace_path : option string
}.

(** What the derived readers make of a text or a value. *)
Class PlannerText := {
  decision_from_str : string → option AgentDecision;
  value_from_str : string → Result Value string;
  planned_from_value : Value → Result PlannedDingTalkCommand string
}.

Context `{!PlannerText}.

Definition parse_planned_command (response workspace_root : string) : Result PlannedDingTalkCommand string :=
  match value_from_str response with
  | Err e => Err ("LLM 返回了无效 JSON：" +:+ e)
  | Ok value =>
      match planned_from_value (normalize_planned_command_payload value) with
      | Err e => Err ("LLM 返回了无法识别的命令 JSON：" +:+ e)
      | Ok planned =>
          let path := default workspace_root (pd_workspace_path planned) in
          let? _ := validate_planned_command (pd_command planned) path in
          Ok (MkPlannedDingTalkCommand (pd_command planned) (Some path))
      end
  end.

Definition planning_keywords : list string :=
  [ "天气"; "气温"; "温度"; "降雨"; "下雨"; "预报"; "实时"; "最新"; "汇率"; "股价";
    "新闻"; "热搜"; "航班"; "机票"; "列车"; "火车票"; "高铁"; "路况"; "地图"; "导航";
    "搜一下"; "查一下"; "查询"; "帮我查"; "请查"; "what's the weather"; "weather";
    "temperature"; "forecast"; "real-time"; "realtime"; "live"; "news"; "stock price";
    "exchange rate"; "flight"; "train"; "traffic"; "map"; "navigate" ].
Definition should_force_dingtalk_command_planning (text : string) : bool :=
  let trimmed := str_trim text in
  if bool_decide (trimmed = "") then false
  else
    let lower := ascii_lower trimmed in
    existsb (λ k, str_contains k trimmed || str_contains (ascii_lower k) lower) planning_keywords.
Definition node_offline_reply : string :=
  "当前 Node Desktop 不在线，暂时无法执行实时查询。请先启动 Node Desktop，启动后我就可以继续帮你查询。".
Definition direct_reply_for_forced_planning_without_workspace (text : string) : option string :=
  if should_force_dingtalk_command_planning text then Some node_offline_reply else None.

(** ** The language model *)

(** No client, or a client with the answers to come. *)
Record LlmState := MkLlmState { llm_client : option (nat → Result string string); llm_calls : nat }.
Definition chat_completion (llm : LlmState) : LlmState * Result string string :=
  match llm_client llm with
  | None => (llm, Err "LLM client is not configured")
  | Some answers => (MkLlmState (llm_client llm) (S (llm_calls llm)), answers (llm_calls llm))
  end.

Definition plan_dingtalk_command (llm : LlmState) (workspace_root : string)
    : LlmState * Result AgentDecision string :=
  let '(llm, response) := chat_completion llm in
  (llm, let? response := response in
        let? planned := parse_planned_command response workspace_root in
        Ok (ExecuteCommand (pd_command planned) (pd_workspace_path planned))).

Definition confused_reply : string :=
  "我没有正确理解你的意思。请直接告诉我你希望我怎么处理刚刚上传的附件，例如：帮我安装这个技能。".

(** A bare command, in the workspace the Hub supposes. *)
Definition bare_command (payload : string) (default_workspace_root : option string) : option AgentDecision :=
  root ← default_workspace_root;
  match parse_planned_command payload root with
  | Ok planned => Some (ExecuteCommand (pd_command planned) (pd_workspace_path planned))
  | Err _ => None
  end.

(** The text is not a decision: it is a bare command, a reason to plan again, or
    the reply. *)
Definition decide_from_text (llm : LlmState) (response text : string) (default_workspace_root : option string)
    : LlmState * Result AgentDecision string :=
  let trimmed := str_trim response in
  if bool_decide (trimmed = "") then
    match default_workspace_root with
    | None => (llm, Ok (DirectReply trimmed))
    | Some root => plan_dingtalk_command llm root
    end
  else
    match bare_command trimmed default_workspace_root with
    | Some d => (llm, Ok d)
    | None =>
        if should_force_dingtalk_command_planning text then
          match default_workspace_root with
          | Some root => plan_dingtalk_command llm root
          | None =>
              (llm, Ok (DirectReply (default trimmed (direct_reply_for_forced_planning_without_workspace text))))
          end
        else if String.prefix "{" trimmed then (llm, Ok (DirectReply confused_reply))
        else (llm, Ok (DirectReply trimmed))
    end.

Definition parse_agent_decision (llm : LlmState) (response text : string)
    (default_workspace_root : option string) : LlmState * Result AgentDecision string :=
  match extract_first_json_object (str_trim response) with
  | None => decide_from_text llm response text default_workspace_root
  | Some payload =>
      match decision_from_str payload with
      | Some (ExecuteCommand command workspace_path) =>
          let path := match workspace_path with Some p => Some p | None => default_workspace_root end in
          (llm, let? _ := match path with
                          | Some p => validate_planned_command command p
                          | None => Ok tt
                          end in
                Ok (ExecuteCommand command path))
      | Some (DirectReply reply) =>
          if should_force_dingtalk_command_planning text then
            match default_workspace_root with
            | Some root => plan_dingtalk_command llm root
            | None =>
                (llm, Ok (DirectReply (default (str_trim response)
                        (direct_reply_for_forced_planning_without_workspace text))))
            end
          else (llm, Ok (DirectReply reply))
      | Some other => (llm, Ok other)
      | None =>
          match bare_command payload default_workspace_root with
          | Some d => (llm, Ok d)
          | None => decide_from_text llm response text default_workspace_root
          end
      end
  end.

(** ** The workspaces of the nodes *)

(** Paths are compared by their components; the text of the first is kept. *)
Fixpoint distinct_roots (seen : list path) (l : list string) : list string :=
  match l with
  | [] => []
  | p :: l' =>
      let c := path_of_string p in
      if bool_decide (c ∈ seen) then distinct_roots seen l' else p :: distinct_roots (c :: seen) l'
  end.
Definition collect_online_workspace_roots (l : list NodeInfo) : list string :=
  sort_by str_leb (distinct_roots [] ((λ n, ws_path (ni_workspace n)) <$> l)).
Definition resolve_default_workspace_root (roots : list string) : option string :=
  match roots with [root] => Some root | _ => None end.

(** [known_agent]: the agent is found for the session or in general. *)
Definition decide_dingtalk_action (llm : LlmState) (text agent_id : string) (known_agent : bool)
    (online : list NodeInfo) : LlmState * Result AgentDecision string :=
  match llm_client llm with
  | None => (llm, Err "LLM client is not configured")
  | Some _ =>
      if negb known_agent then (llm, Err ("Agent not found: " +:+ agent_id))
      else
        let '(llm, response) := chat_completion llm in
        match response with
        | Err e => (llm, Err e)
        | Ok response =>
            parse_agent_decision llm response text
              (resolve_default_workspace_root (collect_online_workspace_roots online))
        end
  end.
Definition plan_next_dingtalk_step (llm : LlmState) (text agent_id : string) (known_agent : bool)
    (online : list NodeInfo) : LlmState * Result PlannedTurnStep string :=
  let '(llm, d) := decide_dingtalk_action llm text agent_id known_agent online in
  (llm, let? d := d in Ok (planned_step_from_agent_decision d)).

(** The step after a result. *)
Definition parse_next_step_response (llm : LlmState) (response original_text agent_id : string)
    (known_agent : bool) (online : list NodeInfo) : LlmState * Result PlannedTurnStep string :=
  let trimmed := str_trim response in
  let bare payload := match parse_planned_command payload "" with
    | Ok planned => Some (SubmitTask (pd_command planned) (pd_workspace_path planned))
    | Err _ => None
    end in
  let from_text :=
    if bool_decide (trimmed = "") then plan_next_dingtalk_step llm original_text agent_id known_agent online
    else match bare trimmed with
         | Some step => (llm, Ok step)
         | None => (llm, Ok (Finalize trimmed))
         end in
  match extract_first_json_object trimmed with
  | None => from_text
  | Some payload =>
      match decision_from_str payload with
      | Some d => (llm, Ok (planned_step_from_agent_decision d))
      | None => match bare payload with Some step => (llm, Ok step) | None => from_text end
      end
  end.

End Planner.
