(* ===== verification/PlannerFacts.v ===== *)
(** Correctness of the planner: the first JSON object of an answer, which browser
    targets and paths the checks let through, and that every planned command was
    checked. *)
From S2P Require Import Prelude Json ProtocolTypes ProtocolCommand Paths NodeManager Permission IpAddr.
From S2P Require Import Planner.

(** ** The first JSON object *)

(** What follows the opening quote of a string literal, up to its closing quote: a
    backslash takes the next character with it. *)
Inductive quoted : string → Prop :=
| quoted_end : quoted (String "034" "")
| quoted_escape c s : quoted s → quoted (String "\" (String c s))
| quoted_char c s : c ≠ "\"%char → c ≠ "034"%char → quoted s → quoted (String c s).

(** Texts in which, outside of string literals, every brace has its partner. *)
Inductive balanced : string → Prop :=
| balanced_empty : balanced ""
| balanced_char c s : c ≠ "034"%char → c ≠ "{"%char → c ≠ "}"%char → balanced s → balanced (String c s)
| balanced_string q s : quoted q → balanced s → balanced (String "034" (q +:+ s))
| balanced_object b s : balanced b → balanced s → balanced (String "{" (b +:+ String "}" s)).

(** *** From the grammar to the scan *)

Lemma scan_escaped d c : scan_char (scan_char (MkScan d true false) "\") c = MkScan d true false.
Proof. done. Qed.
Lemma scan_close_quote d : scan_char (MkScan d true false) "034" = MkScan d false false.
Proof. done. Qed.
Lemma scan_open_quote d : scan_char (MkScan d false false) "034" = MkScan d true false.
Proof. done. Qed.
Lemma scan_open_brace d : scan_char (MkScan d false false) "{" = MkScan (S d) false false.
Proof. done. Qed.
Lemma scan_close_brace d : scan_char (MkScan d false false) "}" = MkScan (pred d) false false.
Proof. done. Qed.

Lemma scan_quoted q d s : quoted q → scan_object (MkScan d true false) (q +:+ s) = String.append q <$> scan_object (MkScan d false false) s.
Proof.
  intros Hq. induction Hq as [|c q _ IH|c q Hc Hc' _ IH].
  - rewrite str_app_cons, str_app_nil_l. done.
  - rewrite !str_app_cons. simpl. rewrite scan_escaped, IH. by destruct (scan_object _ s).
  - rewrite str_app_cons. cbn [scan_object]. unfold scan_char. simpl. rewrite (proj2 (Ascii.eqb_neq _ _) Hc), (proj2 (Ascii.eqb_neq _ _) Hc').
    rewrite IH. by destruct (scan_object _ s).
Qed.

Lemma scan_balanced b d s :
  balanced b → 1 ≤ d → scan_object (MkScan d false false) (b +:+ s) = String.append b <$> scan_object (MkScan d false false) s.
Proof.
  intros Hb. revert d s. induction Hb as [|c b H1 H2 H3 _ IH|q b Hq _ IH|b b' _ IHb _ IHb']; intros d s Hd.
  - rewrite str_app_nil_l. by destruct (scan_object _ s).
  - rewrite str_app_cons. cbn [scan_object]. unfold scan_char. simpl.
    rewrite (proj2 (Ascii.eqb_neq _ _) H1), (proj2 (Ascii.eqb_neq _ _) H2), (proj2 (Ascii.eqb_neq _ _) H3).
    rewrite IH by done. by destruct (scan_object _ s).
  - rewrite str_app_cons, str_app_assoc. cbn [scan_object]. simpl. rewrite scan_open_quote, scan_quoted, IH by done.
    destruct (scan_object _ s); simpl; [|done]. by rewrite str_app_cons, str_app_assoc.
  - rewrite str_app_cons, str_app_assoc, str_app_cons. cbn [scan_object]. simpl. rewrite scan_open_brace, IHb by lia.
    cbn [scan_object]. simpl. rewrite scan_close_brace, !decide_False by (simpl; lia). cbn [pred]. rewrite IHb' by done.
    destruct (scan_object _ s); simpl; [|done]. by rewrite str_app_cons, str_app_assoc, str_app_cons.
Qed.

(** *** From the scan to the grammar *)

Lemma scan_in_string s : ∀ d escape j,
  scan_object (MkScan d true escape) s = Some j →
  ∃ q j' s', s = q +:+ s' ∧ j = q +:+ j' ∧ scan_object (MkScan d false false) s' = Some j' ∧
    if escape then ∃ c q', q = String c q' ∧ quoted q' else quoted q.
Proof.
  induction s as [|c s IH]; intros d escape j; [done|]. cbn [scan_object]. unfold scan_char. simpl.
  destruct escape; [|destruct (Ascii.eqb c "\") eqn:E1; [|destruct (Ascii.eqb c "034") eqn:E2]].
  - intros (j1 & Hj & ->)%fmap_Some. destruct (IH _ _ _ Hj) as (q & j' & s' & -> & -> & Hs & Hq).
    exists (String c q), j', s'. rewrite !str_app_cons. eauto 10.
  - intros (j1 & Hj & ->)%fmap_Some. destruct (IH _ _ _ Hj) as (q & j' & s' & -> & -> & Hs & c' & q' & -> & Hq).
    apply Ascii.eqb_eq in E1 as ->. exists (String "\" (String c' q')), j', s'. rewrite !str_app_cons. split_and!; try done. by constructor.
  - intros (j1 & Hj & ->)%fmap_Some. apply Ascii.eqb_eq in E2 as ->. exists (String "034" ""), j1, s.
    rewrite !str_app_cons, !str_app_nil_l. split_and!; try done. constructor.
  - intros (j1 & Hj & ->)%fmap_Some. destruct (IH _ _ _ Hj) as (q & j' & s' & -> & -> & Hs & Hq).
    exists (String c q), j', s'. rewrite !str_app_cons. split_and!; try done. by constructor; [apply Ascii.eqb_neq..|].
Qed.

(** What closes [n] open braces. *)
Fixpoint closes (n : nat) (j : string) : Prop :=
  match n with 0 => j = "" | S n => ∃ b j', balanced b ∧ j = b +:+ String "}" j' ∧ closes n j' end.

Lemma closes_prepend (f : string → string) n j :
  (∀ b, balanced b → balanced (f b)) → (∀ b t, f b +:+ t = f (b +:+ t)) → closes (S n) j → closes (S n) (f j).
Proof.
  intros Hf Ha (b & j' & Hb & -> & Hj). exists (f b), j'. split; [by apply Hf|]. by rewrite Ha.
Qed.

Lemma scan_closes len : ∀ s d j, String.length s ≤ len → 1 ≤ d → scan_object (MkScan d false false) s = Some j →
  closes d j ∧ ∃ post, s = j +:+ post.
Proof.
  induction len as [|len IH]; intros [|c s] d j Hl Hd; simpl in Hl; try done; [lia|].
  cbn [scan_object]. unfold scan_char. simpl. destruct d as [|d]; [lia|]. simpl.
  destruct (Ascii.eqb c "034") eqn:E1; [|destruct (Ascii.eqb c "{") eqn:E2; [|destruct (Ascii.eqb c "}") eqn:E3]].
  - apply Ascii.eqb_eq in E1 as ->. simpl. intros (j1 & Hj & ->)%fmap_Some.
    destruct (scan_in_string _ _ _ _ Hj) as (q & j' & s' & -> & -> & Hs & Hq).
    destruct (IH s' (S d) j') as [Hc (post & ->)]; [|lia|done|].
    { rewrite str_length_app in Hl. lia. }
    split; [|exists post; by rewrite str_app_cons, str_app_assoc].
    apply (closes_prepend (λ b, String "034" (q +:+ b))); [by intros b; apply balanced_string| |done].
    intros b t. by rewrite str_app_cons, str_app_assoc.
  - apply Ascii.eqb_eq in E2 as ->. simpl. intros (j1 & Hj & ->)%fmap_Some.
    destruct (IH s (S (S d)) j1) as [(b & j' & Hb & -> & (b2 & j2 & Hb2 & -> & Hc)) (post & ->)]; [lia|lia|done|].
    split; [|exists post; by rewrite str_app_cons]. exists (String "{" (b +:+ String "}" b2)), j2.
    split; [by constructor|]. split; [|done]. by rewrite str_app_cons, str_app_assoc, str_app_cons.
  - apply Ascii.eqb_eq in E3 as ->. simpl. case_decide as H0.
    + intros [= <-]. destruct d; [|done]. split; [|exists s; by rewrite str_app_cons, str_app_nil_l].
      exists "", "". by split; [constructor|].
    + intros (j1 & Hj & ->)%fmap_Some. destruct (IH s d j1) as [Hc (post & ->)]; [lia|lia|done|].
      split; [|exists post; by rewrite str_app_cons]. exists "", j1. by split; [constructor|].
  - intros (j1 & Hj & ->)%fmap_Some. destruct (IH s (S d) j1) as [Hc (post & ->)]; [lia|lia|done|].
    split; [|exists post; by rewrite str_app_cons].
    apply (closes_prepend (String c)); [|intros; by rewrite str_app_cons|done].
    intros b Hb. by constructor; [apply Ascii.eqb_neq..|].
Qed.

(** C34. The first JSON object of an answer.  What is handed to the JSON reader is
    exactly the text from the first opening brace to the brace that closes it, where
    braces inside of string literals, with their escapes, do not count; there is
    nothing exactly when no such text follows the first opening brace. *)
Theorem extract_first_json_object_spec input j :
  extract_first_json_object input = Some j ↔
  ∃ pre body post, input = pre +:+ j +:+ post ∧ str_forallb (λ c, negb (Ascii.eqb c "{")) pre = true ∧
    j = String "{" (body +:+ String "}" "") ∧ balanced body.
Proof.
  unfold extract_first_json_object. split.
  - pose proof (split_at_char_spec "{" input) as Hs. destruct (split_at_char "{" input) as [[pre rest]|]; [|done].
    destruct Hs as [-> Hp]. simpl. intros (j1 & Hj & ->)%fmap_Some.
    destruct (scan_closes (String.length rest) rest 1 j1) as [(b & j' & Hb & -> & Hnil) (post & ->)]; [done|lia|done|].
    simpl in Hnil. subst j'. exists pre, b, post. by split_and!.
  - intros (pre & body & post & -> & Hp & -> & Hb).
    rewrite str_app_cons, split_at_first by done.
    simpl. rewrite scan_open_brace, str_app_assoc, str_app_cons, str_app_nil_l, scan_balanced by (done || lia). done.
Qed.

(** ** Browser targets *)

Section Browser.
Context `{UrlParser}.

Definition public_ipv4 (a b c d : Z) : bool :=
  negb (ipv4_is_loopback a b c d || ipv4_is_private a b c d || ipv4_is_link_local a b c d
        || ipv4_is_unspecified a b c d || ipv4_is_broadcast a b c d || ipv4_is_documentation a b c d).

(** What the check says of a host in small letters without space around it. *)
Definition host_allowed (host : string) : bool :=
  negb (bool_decide (host = "localhost" ∨ host = "localhost.localdomain")) &&
  match parse_ip host with
  | Some (V4 a b c d) => public_ipv4 a b c d
  | Some (V6 g) =>
      negb (ipv6_is_loopback g || ipv6_is_unique_local g || ipv6_is_unicast_link_local g
            || ipv6_is_unspecified g)
  | None => true
  end.

Lemma browser_target_iff url :
  validate_browser_target_url url = Ok tt ↔
  ∃ scheme host, url_parse url = Some (scheme, Some host) ∧ (scheme = "http" ∨ scheme = "https") ∧
    host_allowed (ascii_lower (str_trim host)) = true.
Proof.
  unfold validate_browser_target_url. destruct (url_parse url) as [[scheme [host|]]|]; simpl.
  - destruct (bool_decide_reflect (scheme = "http" ∨ scheme = "https")) as [Hs|Hs]; simpl.
    + unfold host_allowed, public_ipv4. split.
      * intros Hv. exists scheme, host. split; [done|]. split; [done|].
        destruct (bool_decide _); [done|]. destruct (parse_ip _) as [[]|]; simpl in *;
          [|destruct (_ || _); done|done]. destruct (_ || _); done.
      * intros (sc & h & [= <- <-] & _ & Ha). destruct (bool_decide _); [done|]. simpl in Ha.
        destruct (parse_ip _) as [[]|]; [| |done]; destruct (_ || _); done.
    + split; [done|]. intros (sc & h & [= <- <-] & Hs' & _). done.
  - split; [by case_match|]. intros (sc & h & [=] & _).
  - split; [done|]. intros (sc & h & [=] & _).
Qed.

(** Which browser targets pass.  With an [http] or [https] URL whose host is a
    dotted address the check decides as it should: it passes exactly when the
    address is not loopback, private, link-local, unspecified, broadcast or
    documentation.  A host that the URL parser wrote in brackets, as it does for
    every IPv6 address, always passes: the brackets keep it from being read as an
    address, so no class of IPv6 addresses is ever refused. *)
Theorem browser_target_hosts url scheme host (Hu : url_parse url = Some (scheme, Some host))
    (Hs : scheme = "http" ∨ scheme = "https") :
  (∀ a b c d, (0 ≤ a ≤ 255)%Z → (0 ≤ b ≤ 255)%Z → (0 ≤ c ≤ 255)%Z → (0 ≤ d ≤ 255)%Z →
     ascii_lower (str_trim host) = ipv4_text a b c d →
     validate_browser_target_url url = Ok tt ↔ public_ipv4 a b c d = true) ∧
  (∀ address, ascii_lower (str_trim host) = "[" +:+ address →
     validate_browser_target_url url = Ok tt).
Proof.
  split.
  - intros a b c d Ha Hb Hc Hd Eh. rewrite browser_target_iff.
    assert (host_allowed (ascii_lower (str_trim host)) = public_ipv4 a b c d) as E.
    { rewrite Eh. unfold host_allowed. rewrite parse_ipv4_text by done.
      rewrite bool_decide_false; [done|]. intros Hl.
      pose proof (display_u_digits a) as Hda. pose proof (display_u_nonempty a) as Hne.
      unfold ipv4_text in Hl. destruct (display_u a) as [|x s]; [done|]. simpl in Hda.
      apply andb_prop in Hda as [Hx _]. destruct Hl as [Hl|Hl]; injection Hl as -> _; vm_compute in Hx; done. }
    rewrite <-E. split.
    + intros (sc & h & Hp & _ & Ho). rewrite Hu in Hp. by simplify_eq.
    + intros Ho. by exists scheme, host.
  - intros address Eh. apply browser_target_iff. exists scheme, host. split; [done|]. split; [done|].
    rewrite Eh. done.
Qed.
End Browser.

(** ** Paths *)

Section Paths.
Context `{FileSystem}.

Definition steps_inside (p : path) : Prop := ParentDir ∉ p ∧ RootDir ∉ p.

Lemma normalize_relative_iff v :
  (∃ s, normalize_relative_path v = Ok s) ↔ is_absolute (path_of_string v) = false ∧ steps_inside (path_of_string v).
Proof.
  unfold normalize_relative_path, steps_inside. destruct (is_absolute _); [split; [by intros []|by intros [? _]]|].
  destruct (existsb _ _) eqn:E.
  - split; [by intros []|]. intros [_ [Hp Hr]]. apply existsb_exists in E as (c & Hc & E).
    apply list_elem_of_In in Hc. by destruct c.
  - split; [|by eexists]. intros _. split; [done|].
    split; intros Hi; apply not_true_iff_false in E; apply E, existsb_exists; eexists;
      rewrite <-list_elem_of_In; by split.
Qed.

Lemma ensure_workspace_path_iff v root :
  ensure_workspace_path v root = Ok tt ↔
  if is_absolute (path_of_string v) then workspace_matches_hint v root = true
  else steps_inside (path_of_string v).
Proof.
  unfold ensure_workspace_path. pose proof (normalize_relative_iff v) as Hn.
  destruct (is_absolute (path_of_string v)).
  - by destruct (workspace_matches_hint v root).
  - destruct (normalize_relative_path v) as [s|e] eqn:E; simpl.
    + split; [|done]. intros _. by apply Hn; eexists.
    + split; [done|]. intros Hs. destruct (proj2 Hn (conj eq_refl Hs)) as [s Hs']. done.
Qed.

(** Replaying steps that stay inside keeps the root in front. *)
Lemma replay_inside root p : steps_inside p → root `prefix_of` replay root p.
Proof.
  unfold steps_inside. revert root. induction p as [|c p IH]; intros root [Hp Hr]; [done|].
  change (replay root (c :: p)) with (replay (replay_component root c) p).
  etrans; [|apply IH; set_solver]. destruct c; simpl; try set_solver; try done.
  unfold path_push. simpl. by exists [CNormal name].
Qed.

Lemma ensure_workspace_paths_iff l root :
  ensure_workspace_paths l root = Ok tt ↔ Forall (λ p, ensure_workspace_path p root = Ok tt) l.
Proof.
  induction l as [|p l IH]; simpl; [by split|]. rewrite Forall_cons, <-IH.
  destruct (ensure_workspace_path p root) as [[]|e]; simpl; naive_solver.
Qed.
End Paths.

Section Planner.
Context `{JsonValue, !JsonShape, FileSystem, UrlParser, ToLowercase, !PlannerText}.
Implicit Types llm : LlmState.

(** The paths a file command works on. *)
Inductive works_on : FileCommand → string → Prop :=
| wo_read p limit offset : works_on (FRead p limit offset) p
| wo_write p content overwrite : works_on (FWrite p content overwrite) p
| wo_append p content : works_on (FAppend p content) p
| wo_delete p recursive : works_on (FDelete p recursive) p
| wo_list p recursive pattern : works_on (FList p recursive pattern) p
| wo_search pattern p recursive content : works_on (FSearch pattern p recursive content) p
| wo_info p : works_on (FInfo p) p
| wo_create p recursive : works_on (FCreateDir p recursive) p
| wo_exists p : works_on (FExists p) p
| wo_copy_from a b overwrite : works_on (FCopy a b overwrite) a
| wo_copy_to a b overwrite : works_on (FCopy a b overwrite) b
| wo_move_from a b overwrite : works_on (FMove a b overwrite) a
| wo_move_to a b overwrite : works_on (FMove a b overwrite) b.

Lemma file_paths_works_on c v : v ∈ file_paths c ↔ works_on c v.
Proof.
  split; [|by intros []; set_solver].
  destruct c; simpl; rewrite !elem_of_cons; intros Hv; destruct_or?; subst; try constructor; by apply elem_of_nil in Hv.
Qed.

(** C22. Paths of a planned file command.  A planned file command passes exactly when
    each path it works on is either absolute, and then resolves to the workspace or
    below it, or relative without a step up; such a relative path, followed from any
    directory, stays below it. *)
Theorem planned_file_command_confined c root :
  (validate_planned_command (CFile c) root = Ok tt ↔
   ∀ v, works_on c v →
     if is_absolute (path_of_string v)
     then ∃ rest, normalize_workspace_hint_path v = normalize_workspace_hint_path root ++ rest
     else ParentDir ∉ path_of_string v ∧ RootDir ∉ path_of_string v) ∧
  (validate_planned_command (CFile c) root = Ok tt →
   ∀ v base, works_on c v → is_absolute (path_of_string v) = false → base `prefix_of` replay base (path_of_string v)).
Proof.
  assert (validate_planned_command (CFile c) root = Ok tt ↔
   ∀ v, works_on c v →
     if is_absolute (path_of_string v)
     then ∃ rest, normalize_workspace_hint_path v = normalize_workspace_hint_path root ++ rest
     else steps_inside (path_of_string v)) as Hiff.
  { simpl. unfold validate_file_command. rewrite ensure_workspace_paths_iff, Forall_forall.
    setoid_rewrite file_paths_works_on.
    assert (∀ v, ensure_workspace_path v root = Ok tt ↔
      if is_absolute (path_of_string v)
      then ∃ rest, normalize_workspace_hint_path v = normalize_workspace_hint_path root ++ rest
      else steps_inside (path_of_string v)) as E.
    { intros v. rewrite ensure_workspace_path_iff. destruct (is_absolute _); [|done]. apply workspace_matches_hint_iff. }
    by split; intros Hall v Hv; apply E, Hall. }
  split; [exact Hiff|]. intros Hok v base Hv Hrel. apply (proj1 Hiff Hok) in Hv. rewrite Hrel in Hv.
  by apply replay_inside.
Qed.

(** ** Plans *)

(** A command that passed the checks for the workspace it names. *)
Definition checked (d : AgentDecision) (default_root : option string) : Prop :=
  match d with
  | ExecuteCommand c (Some p) => validate_planned_command c p = Ok tt
  | ExecuteCommand c None => default_root = None
  | _ => True
  end.

Lemma parse_planned_checked response root planned :
  parse_planned_command response root = Ok planned →
  ∃ p, pd_workspace_path planned = Some p ∧ validate_planned_command (pd_command planned) p = Ok tt.
Proof.
  unfold parse_planned_command. destruct (value_from_str _) as [v|]; [|done].
  destruct (planned_from_value _) as [pl|]; [|done].
  destruct (validate_planned_command _ _) as [[]|] eqn:E; simpl; [|done]. intros [= <-]. simpl.
  eexists. by split.
Qed.

Lemma plan_checked llm root llm' d def :
  plan_dingtalk_command llm root = (llm', Ok d) → checked d def ∧ llm_calls llm' ≤ S (llm_calls llm).
Proof.
  unfold plan_dingtalk_command. destruct (chat_completion llm) as [llm1 [r|e]] eqn:Ec; simpl; [|done].
  destruct (parse_planned_command r root) as [planned|] eqn:Ep; simpl; [|done]. intros [= <- <-].
  apply parse_planned_checked in Ep as (p & Hp & Hv). simpl. rewrite Hp. split; [done|].
  unfold chat_completion in Ec. destruct (llm_client llm); simplify_eq. simpl. lia.
Qed.

Lemma bare_checked payload def d : bare_command payload def = Some d → checked d def.
Proof.
  unfold bare_command. destruct def as [root|]; simpl; [|done].
  destruct (parse_planned_command payload root) as [planned|] eqn:Ep; [|done]. intros [= <-].
  apply parse_planned_checked in Ep as (p & Hp & Hv). simpl. by rewrite Hp.
Qed.

Lemma text_checked llm response text def llm' d :
  decide_from_text llm response text def = (llm', Ok d) →
  checked d def ∧ llm_calls llm' ≤ S (llm_calls llm).
Proof.
  unfold decide_from_text. destruct (bool_decide _).
  { destruct def as [root|]; [apply plan_checked|]. intros [= <- <-]. simpl. split; [done|lia]. }
  destruct (bare_command _ _) as [d'|] eqn:Eb.
  { intros [= <- <-]. split; [by eapply bare_checked|lia]. }
  destruct (should_force_dingtalk_command_planning text).
  { destruct def as [root|]; [apply plan_checked|]. intros [= <- <-]. simpl. split; [done|lia]. }
  destruct (String.prefix _ _); intros [= <- <-]; simpl; (split; [done|lia]).
Qed.

Lemma decision_checked llm response text def llm' d :
  parse_agent_decision llm response text def = (llm', Ok d) →
  checked d def ∧ llm_calls llm' ≤ S (llm_calls llm).
Proof.
  unfold parse_agent_decision.
  destruct (extract_first_json_object _) as [payload|]; [|apply text_checked].
  destruct (decision_from_str payload) as [d'|]; [|].
  - destruct d' as [reply|c path| | | |]; try (intros [= <- <-]; simpl; split; [done|lia]).
    + destruct (should_force_dingtalk_command_planning text);
        [|intros [= <- <-]; simpl; split; [done|lia]].
      destruct def as [root|]; [apply plan_checked|]. intros [= <- <-]. simpl. split; [done|lia].
    + destruct (match path with Some p => Some p | None => def end) as [p|] eqn:Ep; simpl.
      * destruct (validate_planned_command c p) as [[]|] eqn:Ev; simpl; [|done]. intros [= <- <-].
        simpl. split; [done|lia].
      * intros [= <- <-]. simpl. destruct path; [done|]. split; [done|lia].
  - destruct (bare_command payload def) as [d'|] eqn:Eb; [|apply text_checked].
    intros [= <- <-]. split; [by eapply bare_checked|lia].
Qed.

(** Every planned command was checked.  Whatever the language model answers, a
    first step that submits a command either names a workspace for which the
    command passed the checks, or names none because the nodes online do not
    determine one; and planning asks the model at most twice. *)
Theorem planned_steps_checked llm text agent known online llm' step
    (Hplan : plan_next_dingtalk_step llm text agent known online = (llm', Ok step)) :
  llm_calls llm' ≤ llm_calls llm + 2 ∧
  match step with
  | SubmitTask c (Some p) => validate_planned_command c p = Ok tt
  | SubmitTask c None => resolve_default_workspace_root (collect_online_workspace_roots online) = None
  | _ => True
  end.
Proof.
  revert Hplan. unfold plan_next_dingtalk_step.
  destruct (decide_dingtalk_action llm text agent known online) as [llm1 [d|e]] eqn:Ed; simpl; [|done].
  intros [= <- <-]. revert Ed. unfold decide_dingtalk_action, chat_completion.
  destruct (llm_client llm) as [answers|]; [|done]. destruct known; simpl; [|done].
  destruct (answers (llm_calls llm)) as [response|e]; [|done]. intros Hd%decision_checked.
  destruct Hd as [Hc Hle]. simpl in Hle. split; [lia|]. destruct d as [|c [p|]| | | |]; done.
Qed.

(** ** The step after a result *)

(** A bare command without a workspace gets the empty workspace. *)
Lemma continuation_bare_command llm payload text agent known online pl :
  decision_from_str payload = None → extract_first_json_object (str_trim payload) = Some payload →
  planned_from_value <$> (normalize_planned_command_payload <$> match value_from_str payload with Ok v => Some v | Err _ => None end)
    = Some (Ok pl) →
  pd_workspace_path pl = None → validate_planned_command (pd_command pl) "" = Ok tt →
  parse_next_step_response llm payload text agent known online = (llm, Ok (SubmitTask (pd_command pl) (Some ""))).
Proof.
  intros Hd He Hp Hw Hv. unfold parse_next_step_response, parse_planned_command. rewrite He, Hd.
  destruct (value_from_str payload) as [v|]; [|done]. simpl in Hp. injection Hp as Hp. rewrite Hp, Hw. simpl.
  by rewrite Hv.
Qed.

(** No node with an absolute workspace matches the empty hint. *)
Lemma empty_hint_matches_nothing w :
  is_absolute (normalize_workspace_hint_path w) = true → workspace_matches_hint w "" = false.
Proof.
  intros Ha. unfold workspace_matches_hint.
  replace (normalize_workspace_hint_path "") with [CurDir] by reflexivity.
  destruct (normalize_workspace_hint_path w) as [|c p]; [done|]. destruct c; try done.
Qed.

End Planner.

(** ** Examples *)

Definition tree_array (v : json_tree) : option (list json_tree) :=
  match v with GenNode 2 l => Some l | _ => None end.
Definition tree_string (v : json_tree) : option string := match v with GenLeaf s => Some s | _ => None end.
#[export] Instance json_tree_shape : @JsonShape json_trees.
Proof.
  refine {| as_str := tree_string : @Value json_trees → _; as_array := tree_array : @Value json_trees → _ |}.
  - done.
  - intros l Hl. change (as_object (json_object l)) with (map_to_list <$> tree_members (tree_object l)).
    rewrite tree_members_object. eexists. split; [done|]. by apply map_to_list_to_map.
Defined.

(** A URL of the examples: scheme, host, path. *)
Definition example_urls : UrlParser := {| url_parse url :=
  match split_at_char ":" url with
  | Some (scheme, String _ (String _ rest)) => Some (scheme, head (str_split "/" rest))
  | _ => None
  end |}.
(** The text of a decision of the examples. *)
Definition example_decisions : @PlannerText json_trees := @Build_PlannerText json_trees
  (λ s, if bool_decide (s = "{list src}")
        then Some (@ExecuteCommand json_trees (@CFile json_trees (FList "src" false None)) None) else None)
  (λ _, Err "expected value") (λ _, Err "missing field").
Definition no_files : FileSystem := tree_fs [].
#[local] Instance plain_lowercase : ToLowercase := {| to_lowercase := ascii_lower; to_lowercase_ascii _ _ := eq_refl |}.
#[local] Existing Instances json_trees example_urls example_decisions no_files.

Lemma browser_target_hosts_witness :
  validate_browser_target_url "http://192.168.0.1/" ≠ Ok tt ∧
  validate_browser_target_url "https://93.184.216.34/" = Ok tt ∧
  validate_browser_target_url "http://[::1]/" = Ok tt.
Proof.
  split; [|split].
  - intros Hv.
    apply (proj1 (browser_target_hosts "http://192.168.0.1/" "http" "192.168.0.1" ltac:(by vm_compute) (or_introl eq_refl))
      192 168 0 1 ltac:(lia) ltac:(lia) ltac:(lia) ltac:(lia) ltac:(by vm_compute))%Z in Hv. by vm_compute in Hv.
  - apply (proj1 (browser_target_hosts "https://93.184.216.34/" "https" "93.184.216.34" ltac:(by vm_compute) (or_intror eq_refl))
      93 184 216 34 ltac:(lia) ltac:(lia) ltac:(lia) ltac:(lia) ltac:(by vm_compute))%Z. by vm_compute.
  - apply (proj2 (browser_target_hosts "http://[::1]/" "http" "[::1]" ltac:(by vm_compute) (or_introl eq_refl)) "::1]" ltac:(by vm_compute)).
Defined.

Lemma planned_steps_checked_witness :
  let llm := MkLlmState (Some (λ _, Ok "I will look: {list src}")) 0 in
  let '(llm', r) := plan_next_dingtalk_step llm "list the sources" "main" true [] in
  r = Ok (SubmitTask (CFile (FList "src" false None)) None) ∧
  resolve_default_workspace_root (collect_online_workspace_roots []) = None ∧ llm_calls llm' ≤ 2.
Proof.
  intros llm. destruct (plan_next_dingtalk_step llm "list the sources" "main" true []) as [llm' r] eqn:E.
  assert (r = Ok (SubmitTask (CFile (FList "src" false None)) None)) as ->.
  { change r with (llm', r).2. rewrite <-E. vm_compute. reflexivity. }
  destruct (planned_steps_checked llm "list the sources" "main" true [] llm' _ E) as [Hc Hn].
  split; [done|]. split; [exact Hn|exact Hc].
Defined.
