(* ===== verification/Replies.v ===== *)
(** Replies to DingTalk ([crates/uhorse-hub/src/web/mod.rs]: [DingTalkReplyRuntime],
    [DingTalkReplyAdapter] and the functions that format a reply).  The calls of a
    channel reach a remote service: a channel is the list of the calls made and an
    arbitrary stream of their outcomes. *)
From S2P Require Import Prelude Text Json ProtocolTypes ProtocolCommand ProtocolResult TaskScheduler.
From S2P Require Import SessionRuntime Notifications Planner.

(** ** The channel *)

Inductive ChannelCall :=
| CallCreateCard (conversation robot template text : string)
| CallFinalizeCard (handle text : string)
| CallAddReaction (robot message conversation : string)
| CallRecallReaction (handle : string)
| CallClearAck
| CallWebhook (webhook text : string) (at_user_ids : list string)
| CallGroup (conversation text : string)
| CallDirect (user text : string).

Record DingTalkChannel := MkDingTalkChannel {
  dc_flags : Z;
  dc_card_template : option string;
  dc_outcomes : nat → Result string string;
  dc_calls : list ChannelCall
}.
Definition channel_call (ch : DingTalkChannel) (c : ChannelCall) : DingTalkChannel * Result string string :=
  (MkDingTalkChannel (dc_flags ch) (dc_card_template ch) (dc_outcomes ch) (dc_calls ch ++ [c]),
   dc_outcomes ch (length (dc_calls ch))).

(** When it was attached only delays a reply.  No handle holds a receipt. *)
Inductive DingTalkReplyHandle :=
| AiCard (handle : string)
| Reaction (handle : string)
| LegacyTransient
| Noop.

Inductive DingTalkReplyTarget :=
| SessionWebhook (webhook : string) (at_user_ids : list string)
| GroupConversation (conversation_id : string)
| DirectUser (user_id : string).

Definition DINGTALK_PROCESSING_ACK_TEXT : string := "[Wait]".
Definition DINGTALK_CANCELLED_TEXT : string := "任务已取消。".

(** ** Texts *)

Definition normalize_reply_line (trimmed : string) : option string :=
  if bool_decide (trimmed = "```") then None
  else match strip_prefix "### " trimmed with
       | Some rest => Some (str_trim rest)
       | None => match strip_prefix "## " trimmed with
                 | Some rest => Some (str_trim rest)
                 | None => match strip_prefix "# " trimmed with
                           | Some rest => Some (str_trim rest)
                           | None => Some trimmed
                           end
                 end
       end.
Fixpoint format_lines (acc : list string) (previous_blank : bool) (lines : list string) : list string :=
  match lines with
  | [] => acc
  | line :: rest =>
      let trimmed := str_trim line in
      if bool_decide (trimmed = "") then
        if negb previous_blank && negb (bool_decide (acc = [])) then format_lines (acc ++ [""]) true rest
        else format_lines acc previous_blank rest
      else match normalize_reply_line trimmed with
           | Some n => format_lines (acc ++ [n]) false rest
           | None => format_lines acc previous_blank rest
           end
  end.
Fixpoint drop_while_empty (l : list string) : list string :=
  match l with "" :: l' => drop_while_empty l' | _ => l end.
Definition format_dingtalk_reply_text (reply_text : string) : string :=
  str_join (String "010" "") (reverse (drop_while_empty (reverse (format_lines [] false (str_lines reply_text))))).

(** ** Targets *)

Definition is_group_route (r : DingTalkReplyRoute) : bool := bool_decide (dr_conversation_type r = Some "2").

Definition webhook_available (now_ms flags : Z) (r : DingTalkReplyRoute) : bool :=
  flags_contains flags CAP_INBOUND_WEBHOOK && bool_decide (is_Some (dr_session_webhook r)) &&
  match dr_session_webhook_expired_time r with
  | Some expires_at => bool_decide (now_ms < expires_at)%Z
  | None => true
  end.
Definition resolve_dingtalk_reply_target (now_ms flags : Z) (r : DingTalkReplyRoute)
    : option DingTalkReplyTarget :=
  if webhook_available now_ms flags r then
    (λ webhook, SessionWebhook webhook (match dr_sender_staff_id r with Some v => [v] | None => [] end))
      <$> dr_session_webhook r
  else if negb (flags_contains flags CAP_SEND_TO_RECIPIENT) then None
  else if is_group_route r then Some (GroupConversation (dr_conversation_id r))
  else DirectUser <$> dr_sender_user_id r.

Definition resolve_dingtalk_ai_card_target (flags : Z) (r : DingTalkReplyRoute) : option string :=
  if negb (flags_contains flags CAP_REPLY_CONTEXT) then None
  else if bool_decide (dr_robot_code r = None) then None
  else if negb (is_group_route r) then None
  else Some (dr_conversation_id r).

Definition supports_dingtalk_reply_handle (flags : Z) : bool :=
  flags_contains flags CAP_REPLY_CONTEXT || flags_contains flags CAP_SEND_TO_RECIPIENT
  || flags_contains flags CAP_INBOUND_WEBHOOK.

(** ** The adapter *)

Definition no_target : string := "No DingTalk reply target could be resolved".
Definition with_value {A B} (r : A * Result B string) : A * Result unit string :=
  (r.1, let? _ := r.2 in Ok tt).

Definition adapter_send (now_ms : Z) (ch : DingTalkChannel) (r : DingTalkReplyRoute) (reply_text : string)
    : DingTalkChannel * Result unit string :=
  let text := format_dingtalk_reply_text reply_text in
  match resolve_dingtalk_reply_target now_ms (dc_flags ch) r with
  | Some (SessionWebhook webhook ids) => with_value (channel_call ch (CallWebhook webhook text ids))
  | Some (GroupConversation conversation) => with_value (channel_call ch (CallGroup conversation text))
  | Some (DirectUser user) => with_value (channel_call ch (CallDirect user text))
  | None => (ch, Err no_target)
  end.

Definition send_or_finalize (now_ms : Z) (ch : DingTalkChannel) (r : DingTalkReplyRoute) (reply_text : string)
    (reply_handle : option DingTalkReplyHandle) : DingTalkChannel * Result unit string :=
  match reply_handle with
  | Some (AiCard handle) =>
      let '(ch1, outcome) := channel_call ch (CallFinalizeCard handle reply_text) in
      match outcome with Ok _ => (ch1, Ok tt) | Err _ => adapter_send now_ms ch1 r reply_text end
  | Some (Reaction handle) =>
      adapter_send now_ms (channel_call ch (CallRecallReaction handle)).1 r reply_text
  | Some LegacyTransient =>
      let '(ch1, outcome) := channel_call ch CallClearAck in
      match outcome with Ok _ => adapter_send now_ms ch1 r reply_text | Err e => (ch1, Err e) end
  | Some Noop =>
      if bool_decide (reply_text = DINGTALK_PROCESSING_ACK_TEXT) then (ch, Ok tt)
      else adapter_send now_ms ch r reply_text
  | None => adapter_send now_ms ch r reply_text
  end.

Definition cleanup_processing_handle (ch : DingTalkChannel) (reply_handle : option DingTalkReplyHandle)
    : DingTalkChannel * Result unit string :=
  match reply_handle with
  | Some (AiCard handle) => ((channel_call ch (CallFinalizeCard handle DINGTALK_CANCELLED_TEXT)).1, Ok tt)
  | Some (Reaction handle) => ((channel_call ch (CallRecallReaction handle)).1, Ok tt)
  | Some LegacyTransient => with_value (channel_call ch CallClearAck)
  | Some Noop | None => (ch, Ok tt)
  end.

(** The handle without a card: a reaction when it can be attached, or nothing. *)
Definition create_plain_handle (now_ms : Z) (ch : DingTalkChannel) (r : DingTalkReplyRoute)
    : DingTalkChannel * Result DingTalkReplyHandle string :=
  let legacy ch := (ch,
    match resolve_dingtalk_reply_target now_ms (dc_flags ch) r with
    | Some (SessionWebhook _ _) => Ok Noop
    | Some (GroupConversation _) | Some (DirectUser _) => Ok LegacyTransient
    | None => Err no_target
    end) in
  if flags_contains (dc_flags ch) CAP_REPLY_CONTEXT then
    match dr_source_message_id r, dr_robot_code r with
    | Some message, Some robot =>
        let '(ch1, outcome) := channel_call ch (CallAddReaction robot message (dr_conversation_id r)) in
        match outcome with Ok handle => (ch1, Ok (Reaction handle)) | Err _ => legacy ch1 end
    | _, _ => legacy ch
    end
  else legacy ch.
Definition create_handle (now_ms : Z) (ch : DingTalkChannel) (r : DingTalkReplyRoute)
    : DingTalkChannel * Result DingTalkReplyHandle string :=
  match resolve_dingtalk_ai_card_target (dc_flags ch) r, dr_robot_code r with
  | Some target, Some robot =>
      match dc_card_template ch with
      | None => (ch, Err "DingTalk AI card template id is not configured")
      | Some template =>
          let '(ch1, outcome) := channel_call ch (CallCreateCard target robot template
            (format_dingtalk_reply_text DINGTALK_PROCESSING_ACK_TEXT)) in
          (ch1, let? handle := outcome in Ok (AiCard handle))
      end
  | _, _ => create_plain_handle now_ms ch r
  end.

(** ** The text of a result *)

Section Results.
Context `{JsonValue, !JsonShape}.

(** Pretty-printed JSON and the [Debug] form of an output. *)
Class ResultText := {
  json_pretty : Value → string;
  output_debug : CommandOutput → string
}.
Context `{!ResultText}.

Definition get_str (content : Value) (key : string) : option string := get content key ≫= as_str.
Definition transfer_text (verb : string) (content : Value) (path : option string) : option string :=
  match get_str content "source_path", get_str content "destination_path" with
  | Some source, Some destination =>
      Some (verb +:+ source +:+ String "010" "" +:+ "到：" +:+ destination)
  | _, _ => (λ p, verb +:+ p) <$> path
  end.
Definition format_file_operation_result (content : Value) : option string :=
  kind ← get_str content "kind";
  if negb (bool_decide (kind = "file_operation")) then None
  else
    action ← get_str content "action";
    let path := match get_str content "path" with
                | Some p => Some p
                | None => get_str content "destination_path"
                end in
    if bool_decide (action = "write") then (λ p, "已保存成功：" +:+ p) <$> path
    else if bool_decide (action = "append") then (λ p, "已追加成功：" +:+ p) <$> path
    else if bool_decide (action = "copy") then transfer_text "已复制成功：" content path
    else if bool_decide (action = "move") then transfer_text "已移动成功：" content path
    else if bool_decide (action = "create_dir") then (λ p, "已创建目录：" +:+ p) <$> path
    else None.

Definition browser_text (r : BrowserResult) : string :=
  match r with
  | BROpenSystem url => "已在系统浏览器打开：" +:+ url
  | BRNavigate final_url title =>
      match title with
      | Some t => if bool_decide (str_trim t = "") then "浏览器会话已导航到：" +:+ final_url
                  else "浏览器会话已导航到：" +:+ final_url +:+ String "010" "" +:+ "标题：" +:+ t
      | None => "浏览器会话已导航到：" +:+ final_url
      end
  | BRGetText text => if bool_decide (str_trim text = "") then "页面已读取，但未提取到文本。" else text
  | BREvaluate value => json_pretty value
  | BROk => "执行成功。"
  | BRError message => "执行失败：" +:+ message
  | BRScreenshot format _ _ _ => "截图成功，格式：" +:+ format +:+ "。"
  end.
Definition format_task_result_message (r : CommandResult) : string :=
  if negb (cr_success r) then
    match cr_metadata r !! "skill_name" ≫= as_str with
    | Some skill =>
        match cr_error r with
        | Some e => "技能 " +:+ skill +:+ " 执行失败：" +:+ ee_message e
        | None => "技能 " +:+ skill +:+ " 执行失败。"
        end
    | None => match cr_error r with Some e => "执行失败：" +:+ ee_message e | None => "执行失败。" end
    end
  else
    match cr_output r with
    | OText content => if bool_decide (str_trim content = "") then "执行成功，无输出。" else content
    | OJson content => default (json_pretty content) (format_file_operation_result content)
    | OBrowser result => browser_text result
    | ONone => "执行成功，无输出。"
    | other => "执行成功，输出类型：" +:+ output_debug other
    end.

Definition result_summary_override (r : CommandResult) : option string :=
  if negb (cr_success r) then None
  else match cr_output r with OJson content => format_file_operation_result content | _ => None end.

Definition summarize_task_result (llm : LlmState) (c : CompletedTask) : LlmState * Result string string :=
  match llm_client llm with
  | None => (llm, Err "LLM client is not configured")
  | Some _ =>
      let '(llm, response) := chat_completion llm in
      (llm, let? response := response in
            let summary := str_trim response in
            if bool_decide (summary = "") then Err "LLM returned empty summary" else Ok summary)
  end.
Definition summarize_task_result_or_fallback (llm : LlmState) (c : CompletedTask) : LlmState * string :=
  let '(llm, r) := summarize_task_result llm c in
  (llm, match r with Ok summary => summary | Err _ => format_task_result_message (ct_result c) end).
Definition build_task_result_reply_text (llm : LlmState) (completed : option CompletedTask) (r : CommandResult)
    : LlmState * string :=
  match completed with
  | None => (llm, format_task_result_message r)
  | Some c =>
      match result_summary_override (ct_result c) with
      | Some reply => (llm, reply)
      | None => summarize_task_result_or_fallback llm c
      end
  end.

End Results.
