(* ===== verification/AgentLoop.v ===== *)
(** The agent loop of the Hub ([crates/uhorse-hub/src/web/mod.rs]:
    [process_dingtalk_task_serialized], [execute_local_turn_step],
    [reply_task_result] and the continuation functions): a message of a user starts
    a turn, the planner chooses a step, a submitted task is bound to the turn, and
    its result resumes the turn with another step.

    What is stored in memory files, metrics and logs is left out; so are the
    functions that carry out a local step (skills), whose answer is part of the
    environment of a call. *)
From S2P Require Import Prelude Float32 Json ProtocolTypes ProtocolCommand ProtocolResult ProtocolMessage.
From S2P Require Import Channel Paths NodeManager TaskScheduler SessionRuntime Approval.
From S2P Require Import Notifications Permission Hub AgentRouting Planner Replies.

Section Loop.
Context `{JsonValue, !JsonShape, HashOrder, ToLowercase, !WireJson, FileSystem, SendErrorText, UrlParser}.
Context `{!PlannerText, !ResultText}.

(** Texts of the transcript. *)
Class LoopText := {
  step_debug : PlannedTurnStep → string;
  result_json : CommandResult → string;
  command_json_text : Command → string
}.
Context `{!LoopText}.

Record WebState := MkWebState {
  ws_hub : Hub;
  ws_llm : LlmState;
  ws_dingtalk : option DingTalkChannel;
  ws_routes : gmap TaskId DingTalkReplyRoute;
  ws_handles : gmap TaskId DingTalkReplyHandle
}.
Abbreviation LoopResult := (WebState * Result unit string)%type.

(** The readings of a call: clocks, fresh identifiers, whether the agent is found,
    the answer of a local step, and what the stored session adds to a context. *)
Record loop_env := MkLoopEnv {
  le_now : timestamp;
  le_now_ms : Z;
  le_uuid : string;
  le_hub : hub_env;
  le_known_agent : bool;
  le_local : Result string string;
  le_collaboration : string;
  le_enrich : TaskContext → TaskContext
}.

Definition runtime (w : WebState) : SessionRuntimeManager := session_runtime (ws_hub w).
Definition set_hub (w : WebState) (h : Hub) : WebState :=
  MkWebState h (ws_llm w) (ws_dingtalk w) (ws_routes w) (ws_handles w).
Definition set_runtime (w : WebState) (s : SessionRuntimeManager) : WebState :=
  set_hub w (set_session_runtime (ws_hub w) s).
Definition set_llm (w : WebState) (l : LlmState) : WebState :=
  MkWebState (ws_hub w) l (ws_dingtalk w) (ws_routes w) (ws_handles w).
Definition set_dingtalk (w : WebState) (c : option DingTalkChannel) : WebState :=
  MkWebState (ws_hub w) (ws_llm w) c (ws_routes w) (ws_handles w).
Definition set_routes (w : WebState) r : WebState :=
  MkWebState (ws_hub w) (ws_llm w) (ws_dingtalk w) r (ws_handles w).
Definition set_handles (w : WebState) h : WebState :=
  MkWebState (ws_hub w) (ws_llm w) (ws_dingtalk w) (ws_routes w) h.

Definition on_runtime (f : SessionRuntimeManager → SessionRuntimeManager) (w : WebState) : WebState :=
  set_runtime w (f (runtime w)).
Definition event (env : loop_env) (key : string) (kind : TranscriptEventKind) (content : string)
    (w : WebState) : WebState :=
  on_runtime (λ s, append_transcript_event s (le_now env) key kind content) w.
Definition online (w : WebState) : list NodeInfo := get_online_nodes (node_manager (ws_hub w)).

(** ** Replies *)

Definition finalize_dingtalk_reply_handle (env : loop_env) (w : WebState) (task : TaskId)
    (route : DingTalkReplyRoute) (reply_text : string) : LoopResult :=
  let handle := ws_handles w !! task in
  let w1 := set_handles w (delete task (ws_handles w)) in
  match ws_dingtalk w1 with
  | None => (w1, Ok tt)
  | Some ch =>
      let '(ch1, r) := send_or_finalize (le_now_ms env) ch route reply_text handle in
      (set_dingtalk w1 (Some ch1), r)
  end.
Definition cleanup_dingtalk_reply_handle (w : WebState) (task : TaskId) : LoopResult :=
  let handle := ws_handles w !! task in
  let w1 := set_handles w (delete task (ws_handles w)) in
  match ws_dingtalk w1 with
  | None => (w1, Ok tt)
  | Some ch => let '(ch1, r) := cleanup_processing_handle ch handle in (set_dingtalk w1 (Some ch1), r)
  end.
Definition finalize_task_result_reply (env : loop_env) (w : WebState) (task : TaskId)
    (route : DingTalkReplyRoute) (reply_text : string) : LoopResult :=
  match ws_dingtalk w with
  | None => (w, Ok tt)
  | Some _ => finalize_dingtalk_reply_handle env w task route reply_text
  end.

(** A reply outside of a task. *)
Definition direct_reply (env : loop_env) (w : WebState) (route : DingTalkReplyRoute) (reply_text : string)
    (handle : option DingTalkReplyHandle) : LoopResult :=
  match ws_dingtalk w with
  | None => (w, Ok tt)
  | Some ch =>
      let '(ch1, r) := send_or_finalize (le_now_ms env) ch route reply_text handle in
      (set_dingtalk w (Some ch1), r)
  end.

(** The final answer of a turn, recorded and the turn completed. *)
Definition close_turn (env : loop_env) (key reply_text : string) (w : WebState) : WebState :=
  on_runtime (λ s, complete_turn s key None) (event env key AssistantFinal reply_text w).

(** ** A local step *)

Definition execute_local_turn_step (env : loop_env) (w : WebState) (route : DingTalkReplyRoute)
    (key : string) (reply_handle : option DingTalkReplyHandle) : LoopResult :=
  match le_local env with
  | Err e => (w, Err e)
  | Ok reply_text => direct_reply env (close_turn env key reply_text w) route reply_text reply_handle
  end.

(** ** Submission *)

Definition browser_capabilities (c : Command) : option NodeCapabilities :=
  match c with
  | CBrowser _ =>
      let d := NodeCapabilities_default in
      Some (MkNodeCapabilities [TBrowser] (cap_tags d) (max_concurrent_tasks d) (available_tools d))
  | _ => None
  end.

(** What both submissions do once the workspace is known: check the command, open
    a tool call, hand the task to the Hub.  [None] is a panic of the scheduler. *)
Definition submit_step (env : loop_env) (w : WebState) (key : string) (command : Command)
    (context : TaskContext) (workspace_hint no_turn : string)
    : option (WebState * Result (TaskId * string) string) :=
  match validate_planned_command command workspace_hint with
  | Err e => Some (w, Err e)
  | Ok _ =>
      match begin_tool_call (runtime w) (le_uuid env) key "hub_task" with
      | (_, None) => Some (w, Err no_turn)
      | (s1, Some tool_call_id) =>
          let w1 := event env key ToolCallPlanned (tool_call_id +:+ ":" +:+ "hub_task") (set_runtime w s1) in
          '(h, task) ← Hub_submit_task (le_hub env) (ws_hub w1) command context Normal
                         (browser_capabilities command) [] (Some workspace_hint);
          Some (set_hub w1 h, Ok (task, tool_call_id))
      end
  end.

Definition bind_task (env : loop_env) (task : TaskId) (b : TaskContinuationBinding) (w : WebState) : WebState :=
  on_runtime (λ s, bind_task_to_turn s (le_now env) task b) w.

(** ** A message of a user *)

(** The fields of the message that these functions read. *)
Record DingTalkInboundMessage := MkInbound {
  di_conversation_id : string;
  di_message_id : option string;
  di_conversation_type : option string;
  di_channel_user_id : string;
  di_sender_user_id : option string;
  di_sender_staff_id : option string;
  di_sender_corp_id : option string;
  di_session_webhook : option string;
  di_session_webhook_expired_time : option Z;
  di_robot_code : option string
}.
Definition reply_route_from_inbound (m : DingTalkInboundMessage) : DingTalkReplyRoute :=
  MkDingTalkReplyRoute (di_conversation_id m) (di_message_id m) (di_conversation_type m)
    (di_sender_user_id m) (di_sender_staff_id m) (di_session_webhook m)
    (di_session_webhook_expired_time m) (di_robot_code m).

Definition non_empty (o : option string) : option string :=
  v ← o; if bool_decide (v = "") then None else Some v.
Definition build_dingtalk_session_key (fallback_user_id : string)
    (sender_user_id sender_staff_id sender_corp_id : option string) : SessionKey :=
  let user := match non_empty sender_user_id with
              | Some u => u
              | None => default fallback_user_id (non_empty sender_staff_id)
              end in
  match non_empty sender_corp_id with
  | Some team => SessionKey_with_team "dingtalk" user team
  | None => SessionKey_new "dingtalk" user
  end.
Definition inbound_session_key (m : DingTalkInboundMessage) : SessionKey :=
  build_dingtalk_session_key (di_channel_user_id m) (di_sender_user_id m) (di_sender_staff_id m)
    (di_sender_corp_id m).

Definition first_task_context (env : loop_env) (m : DingTalkInboundMessage) (key agent_id text : string)
    (execution_workspace_id : option string) : TaskContext :=
  let user := match di_sender_user_id m with
              | Some u => u
              | None => default (di_channel_user_id m) (di_sender_staff_id m)
              end in
  let c := TaskContext_new (MkUserId user) (MkSessionId key) "dingtalk" (le_now env) in
  let c := with_intent (with_collaboration_workspace_id c (le_collaboration env)) text in
  let c := with_env (with_env c "agent_id" agent_id) "conversation_id" (di_conversation_id m) in
  le_enrich env (match execution_workspace_id with
                 | Some id => with_execution_workspace_id c id
                 | None => c
                 end).

Definition execution_workspace_of (nodes : list NodeInfo) (workspace_hint : string)
    (required : option NodeCapabilities) : option string :=
  n ← head (List.filter (λ n, match required with
                              | Some r => meets (ni_capabilities n) r
                              | None => true
                              end)
            (List.filter (λ n, bool_decide (ws_path (ni_workspace n) = workspace_hint)) nodes));
  ws_workspace_id (ni_workspace n).

Definition missing_workspace_error (roots : list string) : string :=
  if bool_decide (roots = []) then "No online node available"
  else "Multiple online workspaces available, workspace_path is required: " +:+ str_join ", " roots.

(** The handle that shows the task is under way. *)
Definition attach_handle (env : loop_env) (w : WebState) (task : TaskId) (route : DingTalkReplyRoute)
    (early : option DingTalkReplyHandle) : LoopResult :=
  match early, ws_dingtalk w with
  | Some handle, _ => (set_handles w (<[task := handle]> (ws_handles w)), Ok tt)
  | None, None => (w, Ok tt)
  | None, Some ch =>
      let '(ch1, r) := create_handle (le_now_ms env) ch route in
      let w1 := set_dingtalk w (Some ch1) in
      match r with
      | Ok handle => (set_handles w1 (<[task := handle]> (ws_handles w1)), Ok tt)
      | Err e => (w1, Err e)
      end
  end.

Definition submit_first_task (env : loop_env) (w : WebState) (m : DingTalkInboundMessage)
    (key agent_id text turn_id : string) (early : option DingTalkReplyHandle) (command : Command)
    (workspace_path : option string) : option LoopResult :=
  let route := reply_route_from_inbound m in
  let roots := collect_online_workspace_roots (online w) in
  match (match workspace_path with Some p => Some p | None => resolve_default_workspace_root roots end) with
  | None => Some (w, Err (missing_workspace_error roots))
  | Some hint =>
      let workspace_id := execution_workspace_of (online w) hint (browser_capabilities command) in
      '(w1, r) ← submit_step env w key command (first_task_context env m key agent_id text workspace_id) hint
                   "session turn is missing before task submission";
      match r with
      | Err e => Some (w1, Err e)
      | Ok (task, tool_call_id) =>
          let w2 := bind_task env task (MkTaskContinuationBinding key turn_id tool_call_id agent_id route) w1 in
          Some (attach_handle env (set_routes w2 (<[task := route]> (ws_routes w2))) task route early)
      end
  end.

Definition should_send_dingtalk_immediate_ack (step : PlannedTurnStep) (flags : Z) : bool :=
  supports_dingtalk_reply_handle flags && match step with SubmitTask _ _ => false | _ => true end.

Definition too_many_steps_text : string := "当前这轮操作步骤过多，我先到这里，并基于已有结果收口。".

Definition process_dingtalk_task_serialized (env : loop_env) (w : WebState) (m : DingTalkInboundMessage)
    (agent_id text user_text turn_id : string) (early : option DingTalkReplyHandle) : option LoopResult :=
  let text := str_trim text in
  let key := SessionKey_as_str (inbound_session_key m) in
  let route := reply_route_from_inbound m in
  let w1 := on_runtime (λ s, (start_turn s (le_now env) turn_id key user_text).1) w in
  let '(llm, planned) := plan_next_dingtalk_step (ws_llm w1) text agent_id (le_known_agent env) (online w1) in
  let w2 := set_llm w1 llm in
  match planned with
  | Err e => Some (w2, Err e)
  | Ok step =>
      let w3 := event env key AssistantStep (step_debug step) w2 in
      match increment_step_count (runtime w3) key with
      | (_, None) => Some (w3, Err "session turn is missing before step execution")
      | (s, Some turn) =>
          let w4 := set_runtime w3 s in
          if bool_decide (tu_max_steps turn < tu_step_count turn)%Z then
            Some (direct_reply env (close_turn env key too_many_steps_text w4) route too_many_steps_text None)
          else
            let handle := match ws_dingtalk w4 with
                          | Some ch => if should_send_dingtalk_immediate_ack step (dc_flags ch) then early else None
                          | None => None
                          end in
            match step with
            | Finalize reply_text =>
                Some (direct_reply env (close_turn env key reply_text w4) route reply_text handle)
            | SubmitTask command workspace_path =>
                submit_first_task env w4 m key agent_id text turn_id early command workspace_path
            | _ => Some (execute_local_turn_step env w4 route key handle)
            end
      end
  end.

Definition reply_dingtalk_error (env : loop_env) (w : WebState) (m : DingTalkInboundMessage)
    (error_message : string) : LoopResult :=
  match ws_dingtalk w with
  | None => (w, Ok tt)
  | Some ch =>
      let route := reply_route_from_inbound m in
      let '(ch1, r) := create_handle (le_now_ms env) ch route in
      let w1 := set_dingtalk w (Some ch1) in
      match r with
      | Err e => (w1, Err e)
      | Ok handle =>
          let w2 := event env (SessionKey_as_str (inbound_session_key m)) TurnFailed error_message w1 in
          direct_reply env w2 route ("执行失败：" +:+ error_message) (Some handle)
      end
  end.

(** ** The result of a task *)

Definition parse_dingtalk_binding_session_key (b : TaskContinuationBinding) : SessionKey :=
  let r := tb_route b in
  build_dingtalk_session_key (dr_conversation_id r) (dr_sender_user_id r) (dr_sender_staff_id r) None.

Definition prune (key : string) (w : WebState) : WebState :=
  on_runtime (λ s, prune_completed_turn_transcript s key 6) w.

Definition complete_continuation_with_reply (env : loop_env) (w : WebState) (key : string) (task : TaskId)
    (route : DingTalkReplyRoute) (reply_text : string) : LoopResult :=
  match finalize_task_result_reply env w task route reply_text with
  | (w1, Err e) => (w1, Err e)
  | (w1, Ok _) => (prune key (on_runtime (λ s, complete_turn s key (Some task)) w1), Ok tt)
  end.

Definition handle_continuation_missing_completed_task (env : loop_env) (w : WebState) (key : string)
    (task : TaskId) (route : DingTalkReplyRoute) (reply_text : string) : LoopResult :=
  match ws_dingtalk w with
  | None => (on_runtime (λ s, fail_turn s key (Some task)) w, Ok tt)
  | Some _ =>
      match finalize_task_result_reply env w task route reply_text with
      | (w1, Err e) => (w1, Err e)
      | (w1, Ok _) => (on_runtime (λ s, complete_turn s key (Some task)) w1, Ok tt)
      end
  end.

Definition handle_continuation_cancelled_turn (w : WebState) (key : string) (task : TaskId) : LoopResult :=
  match ws_dingtalk w with
  | None => (prune key w, Ok tt)
  | Some _ =>
      match cleanup_dingtalk_reply_handle w task with
      | (w1, Err e) => (w1, Err e)
      | (w1, Ok _) => (prune key w1, Ok tt)
      end
  end.

Definition summarize (w : WebState) (c : CompletedTask) : WebState * string :=
  let '(llm, text) := summarize_task_result_or_fallback (ws_llm w) c in (set_llm w llm, text).

Definition handle_continuation_max_steps_exceeded (env : loop_env) (w : WebState) (key : string)
    (task : TaskId) (route : DingTalkReplyRoute) (c : CompletedTask) : LoopResult :=
  let '(w1, text) := summarize w c in
  complete_continuation_with_reply env (event env key AssistantFinal text w1) key task route text.

Definition intent_of (c : CompletedTask) : string := default "" (tc_intent (ct_context c)).

Definition continue_task_result (env : loop_env) (w : WebState) (b : TaskContinuationBinding)
    (c : CompletedTask) : WebState * Result PlannedTurnStep string :=
  match llm_client (ws_llm w) with
  | None => (w, Err "LLM client is not configured")
  | Some _ =>
      let '(llm, response) := chat_completion (ws_llm w) in
      match response with
      | Err e => (set_llm w llm, Err e)
      | Ok response =>
          let '(llm, step) := parse_next_step_response llm (str_trim response) (intent_of c) (tb_agent_id b)
                                (le_known_agent env) (online w) in
          (set_llm w llm, step)
      end
  end.

Definition compact_summary (c : CompletedTask) : string :=
  "user_request: " +:+ intent_of c +:+ "; last_command: " +:+ command_json_text (ct_command c)
  +:+ "; last_result: " +:+ result_json (ct_result c).

(** The second attempt works on a compacted turn. *)
Definition compact_turn (env : loop_env) (key : string) (c : CompletedTask) (w : WebState) : WebState :=
  let events := match transcript (runtime w) key with Some t => zlen (st_events t) | None => 0%Z end in
  event env key TurnCompacted (compact_summary c)
    (on_runtime (λ s, record_compaction s key (compact_summary c) events) w).

Definition finish_with_summary (w : WebState) (c : CompletedTask) : WebState * PlannedTurnStep :=
  let '(w1, text) := summarize w c in (w1, Finalize text).

Definition plan_continuation_step_with_retry (env : loop_env) (w : WebState) (key : string)
    (b : TaskContinuationBinding) (c : CompletedTask) : WebState * PlannedTurnStep :=
  match continue_task_result env w b c with
  | (w1, Ok step) => (on_runtime (λ s, reset_planner_retry s key) w1, step)
  | (w1, Err error) =>
      let w2 := event env key PlannerRetry error w1 in
      let '(s, retry) := increment_planner_retry (runtime w2) key in
      let w3 := set_runtime w2 s in
      match retry with
      | None => finish_with_summary w3 c
      | Some turn =>
          if bool_decide (tu_planner_retry_count turn <= tu_max_planner_retries turn)%Z then
            match continue_task_result env (compact_turn env key c w3) b c with
            | (w4, Ok step) => (on_runtime (λ s, reset_planner_retry s key) w4, step)
            | (w4, Err _) => finish_with_summary w4 c
            end
          else finish_with_summary w3 c
      end
  end.

Definition submit_next_task (env : loop_env) (w : WebState) (key : string) (b : TaskContinuationBinding)
    (c : CompletedTask) (command : Command) (workspace_path : option string) : option LoopResult :=
  let roots := collect_online_workspace_roots (online w) in
  match (match workspace_path with Some p => Some p | None => resolve_default_workspace_root roots end) with
  | None => Some (w, Err "workspace_path is required for continuation task")
  | Some hint =>
      '(w1, r) ← submit_step env w key command (ct_context c) hint
                   "session turn is missing before continuation task submission";
      match r with
      | Err e => Some (w1, Err e)
      | Ok (task, tool_call_id) =>
          Some (bind_task env task (MkTaskContinuationBinding (tb_session_key b) (tb_turn_id b) tool_call_id
                  (tb_agent_id b) (tb_route b)) w1, Ok tt)
      end
  end.

Definition execute_continuation_step (env : loop_env) (w : WebState) (key : string) (task : TaskId)
    (b : TaskContinuationBinding) (c : CompletedTask) (step : PlannedTurnStep) : option LoopResult :=
  match step with
  | Finalize reply_text =>
      Some (complete_continuation_with_reply env (event env key AssistantFinal reply_text w) key task
              (tb_route b) reply_text)
  | SubmitTask command workspace_path => submit_next_task env w key b c command workspace_path
  | _ =>
      match execute_local_turn_step env w (tb_route b)
              (SessionKey_as_str (parse_dingtalk_binding_session_key b)) None with
      | (w1, Err e) => Some (w1, Err e)
      | (w1, Ok _) => Some (prune key w1, Ok tt)
      end
  end.

Definition reply_task_result_without_continuation (env : loop_env) (w : WebState) (task : TaskId)
    (result : CommandResult) (route : DingTalkReplyRoute) : LoopResult :=
  let completed := get_completed_task (task_scheduler (ws_hub w)) task in
  let '(llm, text) := build_task_result_reply_text (ws_llm w) completed result in
  finalize_task_result_reply env (set_llm w llm) task route text.

(** The part that runs in the lane of the session. *)
Definition resume_turn (env : loop_env) (w : WebState) (b : TaskContinuationBinding) (task : TaskId)
    (result : CommandResult) : option LoopResult :=
  let key := tb_session_key b in
  match get_completed_task (task_scheduler (ws_hub w)) task with
  | None =>
      let '(llm, text) := build_task_result_reply_text (ws_llm w) None result in
      Some (handle_continuation_missing_completed_task env (set_llm w llm) key task (tb_route b) text)
  | Some c =>
      let w1 := event env key ToolResultObserved (result_json (ct_result c)) w in
      if match turn_state (runtime w1) key with Some t => tu_cancel_requested t | None => false end then
        Some (handle_continuation_cancelled_turn w1 key task)
      else
        let w2 := on_runtime (λ s, (mark_turn_resuming s key (Some task)).1) w1 in
        let w3 := event env key TurnResumed ("task_result:" +:+ task_id_str task) w2 in
        let '(w4, step) := plan_continuation_step_with_retry env w3 key b c in
        let w5 := event env key AssistantStep (step_debug step) w4 in
        match increment_step_count (runtime w5) key with
        | (_, None) => Some (w5, Err "session turn is missing before continuation step")
        | (s, Some turn) =>
            let w6 := set_runtime w5 s in
            if bool_decide (tu_max_steps turn < tu_step_count turn)%Z then
              Some (handle_continuation_max_steps_exceeded env w6 key task (tb_route b) c)
            else execute_continuation_step env w6 key task b c step
        end
  end.

Definition reply_task_result (env : loop_env) (w : WebState) (task : TaskId) (result : CommandResult)
    : option LoopResult :=
  let '(s, binding) := take_task_binding (runtime w) task in
  let w1 := set_runtime w s in
  match binding with
  | Some b => resume_turn env w1 b task result
  | None =>
      match ws_routes w1 !! task with
      | None => Some (w1, Ok tt)
      | Some route =>
          Some (reply_task_result_without_continuation env
                  (set_routes w1 (delete task (ws_routes w1))) task result route)
      end
  end.

End Loop.
