(* ===== verification/AgentLoopFacts.v ===== *)
(** Correctness of the agent loop: how many tasks a turn can submit, how a resumed
    turn goes on, and the results that get lost. *)
From S2P Require Import Prelude Float32 Json ProtocolTypes ProtocolCommand ProtocolResult ProtocolMessage.
From S2P Require Import Channel Paths NodeManager TaskScheduler SchedulerFacts SchedulerTheorems.
From S2P Require Import SessionRuntime Approval Notifications Permission Hub HubFacts AgentRouting Planner PlannerFacts.
From S2P Require Import Replies AgentLoop.

Section Loop.
Context `{JsonValue, !JsonShape, HashOrder, ToLowercase, !WireJson, FileSystem, SendErrorText, UrlParser}.
Context `{!PlannerText, !ResultText, !LoopText}.
Implicit Types w : WebState.

(** ** What an operation leaves alone *)

Definition counter w : Z := task_counter (task_scheduler (ws_hub w)).
(** The counted and the allowed steps of the turn of a session. *)
Definition steps_in (s : SessionRuntimeManager) (key : string) : option (Z * Z) :=
  (λ t, (tu_step_count t, tu_max_steps t)) <$> turns s !! key.
Definition steps w key : option (Z * Z) := steps_in (runtime w) key.

(** The same turns as far as steps go, and no task submitted. *)
Definition quiet w w' : Prop := counter w' = counter w ∧ ∀ key, steps w' key = steps w key.

#[export] Instance quiet_preorder : PreOrder quiet.
Proof.
  split; [by split|]. intros w1 w2 w3 [C1 S1] [C2 S2]. split; [congruence|]. intros key. by rewrite S2, S1.
Qed.

Lemma update_turn_steps s key f key' :
  (∀ t, tu_step_count (f t) = tu_step_count t ∧ tu_max_steps (f t) = tu_max_steps t) →
  steps_in (update_turn s key f) key' = steps_in s key'.
Proof.
  intros Hf. unfold steps_in, update_turn. simpl. rewrite map_update_lookup. case_decide; [|done].
  subst key'. destruct (turns s !! key) as [t|]; [|done]. simpl. by destruct (Hf t) as [-> ->].
Qed.

Lemma on_runtime_quiet f w : (∀ s key, steps_in (f s) key = steps_in s key) → quiet w (on_runtime f w).
Proof. intros Hf. split; [done|]. intros key. apply Hf. Qed.

Lemma drop_binding_steps task s key : steps_in (drop_binding task s) key = steps_in s key.
Proof. by destruct task. Qed.

Lemma event_quiet env key kind content w : quiet w (event env key kind content w).
Proof. by apply on_runtime_quiet. Qed.

Lemma complete_turn_steps s key task key' : steps_in (complete_turn s key task) key' = steps_in s key'.
Proof. unfold complete_turn. rewrite drop_binding_steps. by apply update_turn_steps. Qed.

Lemma fail_turn_steps s key task key' : steps_in (fail_turn s key task) key' = steps_in s key'.
Proof. unfold fail_turn. rewrite drop_binding_steps. by apply update_turn_steps. Qed.

Lemma close_turn_quiet env key text w : quiet w (close_turn env key text w).
Proof.
  unfold close_turn. etrans; [apply event_quiet|]. apply on_runtime_quiet. intros s k. apply complete_turn_steps.
Qed.

Lemma prune_quiet key w : quiet w (prune key w).
Proof. by apply on_runtime_quiet. Qed.

Lemma direct_reply_quiet env w route text handle : quiet w (direct_reply env w route text handle).1.
Proof. unfold direct_reply. destruct (ws_dingtalk w); [|done]. by destruct (send_or_finalize _ _ _ _ _). Qed.

Lemma finalize_quiet env w task route text : quiet w (finalize_task_result_reply env w task route text).1.
Proof.
  unfold finalize_task_result_reply, finalize_dingtalk_reply_handle. destruct (ws_dingtalk w) eqn:E; [|done].
  simpl. rewrite E. by destruct (send_or_finalize _ _ _ _ _).
Qed.

Lemma cleanup_quiet w task : quiet w (cleanup_dingtalk_reply_handle w task).1.
Proof.
  unfold cleanup_dingtalk_reply_handle. simpl. destruct (ws_dingtalk w); [|done].
  by destruct (cleanup_processing_handle _ _).
Qed.

Lemma local_step_quiet env w route key handle : quiet w (execute_local_turn_step env w route key handle).1.
Proof.
  unfold execute_local_turn_step. destruct (le_local env) as [text|e]; [|done].
  etrans; [apply close_turn_quiet|apply direct_reply_quiet].
Qed.

Lemma complete_continuation_quiet env w key task route text :
  quiet w (complete_continuation_with_reply env w key task route text).1.
Proof.
  unfold complete_continuation_with_reply. pose proof (finalize_quiet env w task route text) as Hq.
  destruct (finalize_task_result_reply _ _ _ _ _) as [w1 [?|?]]; cbn [fst] in *; [|done].
  etrans; [exact Hq|]. etrans; [|apply prune_quiet]. apply on_runtime_quiet. intros s k.
  apply complete_turn_steps.
Qed.

Lemma missing_quiet env w key task route text :
  quiet w (handle_continuation_missing_completed_task env w key task route text).1.
Proof.
  unfold handle_continuation_missing_completed_task. destruct (ws_dingtalk w).
  - pose proof (finalize_quiet env w task route text) as Hq.
    destruct (finalize_task_result_reply _ _ _ _ _) as [w1 [?|?]]; cbn [fst] in *; [|done].
    etrans; [exact Hq|]. apply on_runtime_quiet. intros s k. apply complete_turn_steps.
  - apply on_runtime_quiet. intros s k. apply fail_turn_steps.
Qed.

Lemma cancelled_quiet w key task : quiet w (handle_continuation_cancelled_turn w key task).1.
Proof.
  unfold handle_continuation_cancelled_turn. destruct (ws_dingtalk w); [|apply prune_quiet].
  pose proof (cleanup_quiet w task) as Hq. destruct (cleanup_dingtalk_reply_handle _ _) as [w1 [?|?]]; simpl in *.
  - etrans; [exact Hq|apply prune_quiet].
  - done.
Qed.

Lemma summarize_quiet w c : quiet w (summarize w c).1.
Proof. unfold summarize. by destruct (summarize_task_result_or_fallback _ _). Qed.

Lemma max_steps_quiet env w key task route c :
  quiet w (handle_continuation_max_steps_exceeded env w key task route c).1.
Proof.
  unfold handle_continuation_max_steps_exceeded. pose proof (summarize_quiet w c) as Hq.
  destruct (summarize w c) as [w1 text]. simpl in Hq. etrans; [exact Hq|]. etrans; [apply event_quiet|].
  apply complete_continuation_quiet.
Qed.

Lemma continue_quiet env w b c : quiet w (continue_task_result env w b c).1.
Proof.
  unfold continue_task_result. destruct (llm_client _); [|done].
  destruct (chat_completion _) as [llm [?|?]]; [|done].
  by destruct (parse_next_step_response _ _ _ _ _ _).
Qed.

Lemma finish_quiet w c : quiet w (finish_with_summary w c).1.
Proof. unfold finish_with_summary. pose proof (summarize_quiet w c) as Hq. by destruct (summarize w c). Qed.

Lemma retry_steps s key k : steps_in (increment_planner_retry s key).1 k = steps_in s k.
Proof. by apply update_turn_steps. Qed.

Lemma reset_steps s key k : steps_in (reset_planner_retry s key) k = steps_in s k.
Proof. by apply update_turn_steps. Qed.

Lemma compact_quiet env key c w : quiet w (compact_turn env key c w).
Proof.
  unfold compact_turn. etrans; [|apply event_quiet]. apply on_runtime_quiet. intros s k.
  by apply update_turn_steps.
Qed.

Lemma plan_quiet env w key b c : quiet w (plan_continuation_step_with_retry env w key b c).1.
Proof.
  unfold plan_continuation_step_with_retry. pose proof (continue_quiet env w b c) as Hq.
  destruct (continue_task_result env w b c) as [w1 [step|e]]; simpl in Hq.
  { etrans; [exact Hq|]. apply on_runtime_quiet. intros s k. apply reset_steps. }
  set (w2 := event env key PlannerRetry e w1). pose proof (retry_steps (runtime w2) key) as Hr.
  destruct (increment_planner_retry (runtime w2) key) as [s retry]. simpl in Hr.
  assert (quiet w (set_runtime w2 s)) as Hq3.
  { etrans; [exact Hq|]. etrans; [apply (event_quiet env key PlannerRetry e)|]. split; [done|]. intros k.
    apply Hr. }
  destruct retry as [turn|]; [|etrans; [exact Hq3|apply finish_quiet]].
  destruct (bool_decide _); [|etrans; [exact Hq3|apply finish_quiet]].
  pose proof (continue_quiet env (compact_turn env key c (set_runtime w2 s)) b c) as Hq4.
  destruct (continue_task_result _ _ _ _) as [w4 [step|e']]; simpl in Hq4;
    (etrans; [exact Hq3|]; etrans; [apply compact_quiet|]; etrans; [exact Hq4|]).
  - apply on_runtime_quiet. intros s' k. apply reset_steps.
  - apply finish_quiet.
Qed.
(** ** Submission *)

Lemma dispatch_loop_counter fuel round h h' :
  dispatch_loop fuel round h = Some h' → task_counter (task_scheduler h') = task_counter (task_scheduler h).
Proof.
  revert round h. induction fuel as [|fuel IH]; intros round h; [done|]. cbn [dispatch_loop].
  case_decide; [by intros [= <-]|]. unfold schedule_next.
  destruct (schedule_loop _ _ _ _ _ _ _) as [[[s' chans'] r]|] eqn:E; [|done].
  apply schedule_loop_counter in E. destruct r; [|by intros [= <-]]. intros Hd%IH. simpl in Hd. congruence.
Qed.

Lemma hub_submit env h command context p required tags hint :
  ∃ h' id, Hub_submit_task env h command context p required tags hint = Some (h', id) ∧
    task_counter (task_scheduler h') = wrap 64 (task_counter (task_scheduler h) + 1) ∧
    session_runtime h' = session_runtime h.
Proof.
  unfold Hub_submit_task.
  destruct (submit_task _ _ _ _ _ _ _ _) as [s id] eqn:Es.
  assert (task_counter s = wrap 64 (task_counter (task_scheduler h) + 1)) as Hc.
  { unfold submit_task, generate_task_id in Es. by injection Es as <- _. }
  destruct (dispatch_spec env (set_task_scheduler h s)) as (h' & Hd & []).
  rewrite Hd. exists h', id. split; [done|]. unfold dispatch_pending_tasks in Hd.
  apply dispatch_loop_counter in Hd. by rewrite Hd.
Qed.

(** A submission: one more task, the same steps. *)
Definition submitted w w' : Prop := counter w' = wrap 64 (counter w + 1) ∧ ∀ key, steps w' key = steps w key.

Lemma quiet_submitted w1 w2 w3 : quiet w1 w2 → submitted w2 w3 → submitted w1 w3.
Proof. intros [C1 S1] [C2 S2]. split; [congruence|]. intros key. by rewrite S2, S1. Qed.

Lemma submitted_quiet w1 w2 w3 : submitted w1 w2 → quiet w2 w3 → submitted w1 w3.
Proof. intros [C1 S1] [C2 S2]. split; [congruence|]. intros key. by rewrite S2, S1. Qed.

Lemma begin_steps s call key name key' : steps_in (begin_tool_call s call key name).1 key' = steps_in s key'.
Proof.
  unfold begin_tool_call, steps_in. destruct (turns s !! key) as [t|] eqn:E; [|done]. simpl.
  destruct (decide (key = key')) as [<-|]; [by rewrite lookup_insert_eq, E|by rewrite lookup_insert_ne].
Qed.

Lemma bind_steps s now task b key : steps_in (bind_task_to_turn s now task b) key = steps_in s key.
Proof. unfold bind_task_to_turn. by apply (update_turn_steps (set_bindings s _)). Qed.

Lemma bind_quiet env task b w : quiet w (bind_task env task b w).
Proof. apply on_runtime_quiet. intros s key. apply bind_steps. Qed.

Lemma submit_step_cases env w key command context hint no_turn :
  ∃ w' r, submit_step env w key command context hint no_turn = Some (w', r) ∧
    ((∃ e, r = Err e ∧ quiet w w') ∨ (∃ x, r = Ok x ∧ submitted w w')).
Proof.
  unfold submit_step. destruct (validate_planned_command command hint) as [[]|e].
  2:{ exists w, (Err e). split; [done|]. left. by exists e. }
  pose proof (begin_steps (runtime w) (le_uuid env) key "hub_task") as Hb.
  destruct (begin_tool_call _ _ _ _) as [s1 [call|]]; simpl in Hb.
  2:{ exists w, (Err no_turn). split; [done|]. left. by exists no_turn. }
  set (w1 := event env key ToolCallPlanned _ (set_runtime w s1)).
  destruct (hub_submit (le_hub env) (ws_hub w1) command context Normal (browser_capabilities command) []
    (Some hint)) as (h' & id & E & Hc & Hs). unfold w1 in *. rewrite E. simpl.
  eexists _, _. split; [done|]. right. eexists. split; [done|]. split.
  - exact Hc.
  - intros k. unfold steps, runtime. simpl. rewrite Hs. apply Hb.
Qed.

Lemma attach_quiet env w task route early : quiet w (attach_handle env w task route early).1.
Proof.
  unfold attach_handle. destruct early as [handle|]; [done|]. destruct (ws_dingtalk w); [|done].
  by destruct (create_handle _ _ _) as [ch1 [?|?]].
Qed.

Lemma submit_next_cases env w key b c command path :
  ∃ w' r, submit_next_task env w key b c command path = Some (w', r) ∧ (quiet w w' ∨ submitted w w').
Proof.
  unfold submit_next_task. destruct (match path with Some p => Some p | None => _ end) as [hint|].
  2:{ eexists _, _. split; [done|]. by left. }
  destruct (submit_step_cases env w key command (ct_context c) hint
    "session turn is missing before continuation task submission") as (w1 & r & E & Hr).
  rewrite E. simpl. destruct Hr as [(e & -> & Hq)|([task call] & -> & Hs)]; eexists _, _; (split; [done|]).
  - by left.
  - right. eapply submitted_quiet; [done|]. apply bind_quiet.
Qed.

Lemma execute_cases env w key task b c step :
  ∃ w' r, execute_continuation_step env w key task b c step = Some (w', r) ∧ (quiet w w' ∨ submitted w w').
Proof.
  assert (∃ w' r, match execute_local_turn_step env w (tb_route b)
            (SessionKey_as_str (parse_dingtalk_binding_session_key b)) None with
    | (w1, Err e) => Some (w1, Err e)
    | (w1, Ok _) => Some (prune key w1, Ok tt)
    end = Some (w', r) ∧ (quiet w w' ∨ submitted w w')) as Hl.
  { pose proof (local_step_quiet env w (tb_route b)
      (SessionKey_as_str (parse_dingtalk_binding_session_key b)) None) as Hq.
    destruct (execute_local_turn_step _ _ _ _ _) as [w1 [?|?]]; cbn [fst] in Hq; eexists _, _;
      (split; [done|]); left; [|done]. etrans; [exact Hq|]. apply prune_quiet. }
  destruct step; try exact Hl.
  - simpl. rewrite (surjective_pairing (complete_continuation_with_reply _ _ _ _ _ _)). eexists _, _.
    split; [done|]. left. etrans; [|apply complete_continuation_quiet]. apply event_quiet.
  - apply submit_next_cases.
Qed.

(** ** A step of a turn *)

(** The turn of the session counts one step more. *)
Definition advanced key w w' : Prop :=
  counter w' = counter w ∧
  ∀ key', steps w' key' =
    if decide (key' = key) then (λ x : Z * Z, (wrap 32 (x.1 + 1), x.2)) <$> steps w key' else steps w key'.

Lemma increment_advanced w key s o :
  increment_step_count (runtime w) key = (s, o) →
  advanced key w (set_runtime w s) ∧
  match o with
  | Some t => steps (set_runtime w s) key = Some (tu_step_count t, tu_max_steps t)
  | None => True
  end.
Proof.
  unfold increment_step_count, update_turn_get. intros [= <- <-]. unfold advanced, steps, steps_in.
  split; [split; [done|]|].
  - intros key'. simpl. rewrite map_update_lookup. case_decide as E; case_decide as E'; try congruence.
    subst. by destruct (turns _ !! _).
  - destruct (turns (runtime w) !! key) as [t|] eqn:E; simpl; [|done].
    by rewrite map_update_lookup, decide_True, E.
Qed.

(** What the work on a result does: nothing that counts, one step, or one step
    and a submission within the allowed steps. *)
Definition one_step key w w' : Prop :=
  quiet w w' ∨ ∃ w1, advanced key w w1 ∧
    (quiet w1 w' ∨ (submitted w1 w' ∧ ∃ sc mx, steps w1 key = Some (sc, mx) ∧ (sc ≤ mx)%Z)).

Lemma one_step_after key w1 w2 w3 : quiet w1 w2 → one_step key w2 w3 → one_step key w1 w3.
Proof.
  intros Hq [Hq'|(w & [Hc Hs] & Ho)]; [left; by etrans|]. right. exists w. split; [|done].
  destruct Hq as [C S]. split; [congruence|]. intros key'. by rewrite Hs, S.
Qed.

Lemma resume_one_step env w b task result :
  ∃ w' r, resume_turn env w b task result = Some (w', r) ∧ one_step (tb_session_key b) w w'.
Proof.
  unfold resume_turn. destruct (get_completed_task _ _) as [c|].
  2:{ destruct (build_task_result_reply_text _ _ _) as [llm text].
      rewrite (surjective_pairing (handle_continuation_missing_completed_task _ _ _ _ _ _)).
      eexists _, _. split; [done|]. left. etrans; [|apply missing_quiet]. done. }
  set (key := tb_session_key b). set (w1 := event env key ToolResultObserved _ w).
  assert (quiet w w1) as Q1 by apply event_quiet.
  destruct (match turn_state (runtime w1) key with Some t => _ | None => _ end).
  { rewrite (surjective_pairing (handle_continuation_cancelled_turn _ _ _)). eexists _, _. split; [done|]. left.
    etrans; [exact Q1|apply cancelled_quiet]. }
  set (w3 := event env key TurnResumed _ _).
  assert (quiet w w3) as Q3.
  { etrans; [exact Q1|]. etrans; [|apply event_quiet]. apply on_runtime_quiet. intros s k.
    by apply update_turn_steps. }
  pose proof (plan_quiet env w3 key b c) as Q4.
  destruct (plan_continuation_step_with_retry env w3 key b c) as [w4 step]. cbn [fst] in Q4.
  set (w5 := event env key AssistantStep _ w4).
  assert (quiet w w5) as Q5 by (etrans; [exact Q3|]; etrans; [exact Q4|apply event_quiet]).
  destruct (increment_step_count (runtime w5) key) as [s o] eqn:Ei. apply increment_advanced in Ei as [Ha Ho].
  destruct o as [turn|]; [|eexists _, _; split; [done|]; by left].
  case_bool_decide as Hmax.
  - rewrite (surjective_pairing (handle_continuation_max_steps_exceeded _ _ _ _ _ _)). eexists _, _.
    split; [done|]. eapply one_step_after; [exact Q5|]. right. exists (set_runtime w5 s). split; [done|]. left.
    apply max_steps_quiet.
  - destruct (execute_cases env (set_runtime w5 s) key task b c step) as (w' & r & E & Hc).
    exists w', r. split; [done|]. eapply one_step_after; [exact Q5|]. right. exists (set_runtime w5 s).
    split; [done|]. destruct Hc as [Hq|Hs]; [by left|]. right. split; [done|].
    exists (tu_step_count turn), (tu_max_steps turn). split; [done|lia].
Qed.

Lemma reply_one_step env w task result b :
  task_bindings (runtime w) !! task = Some b →
  ∃ w' r, reply_task_result env w task result = Some (w', r) ∧ one_step (tb_session_key b) w w'.
Proof.
  intros Hb. unfold reply_task_result, take_task_binding. rewrite Hb.
  destruct (resume_one_step env (set_runtime w (set_bindings (runtime w) (delete task (task_bindings (runtime w)))))
    b task result) as (w' & r & E & Hs).
  exists w', r. split; [done|]. by eapply one_step_after.
Qed.

(** ** A turn *)

(** The tasks submitted between two states: the scheduler's counter goes up by one for
    each of them (it is 64 bits wide and wraps around). *)
Definition submissions w w' : nat := Z.to_nat (wrap 64 (counter w' - counter w)).

Lemma submissions_none w w' : counter w' = counter w → submissions w w' = 0.
Proof. unfold submissions. intros ->. by rewrite Z.sub_diag. Qed.

Lemma submissions_one w w' : counter w' = wrap 64 (counter w + 1) → submissions w w' = 1.
Proof.
  unfold submissions, wrap. intros ->. rewrite Zminus_mod_idemp_l.
  by replace (counter w + 1 - counter w)%Z with 1%Z by lia.
Qed.

Lemma submissions_at_most_one w w1 w' :
  counter w1 = counter w → quiet w1 w' ∨ submitted w1 w' → submissions w w' ≤ 1.
Proof.
  intros E [[C _]|[C _]]; [rewrite submissions_none by congruence; lia|].
  rewrite submissions_one by congruence. done.
Qed.

Inductive turn_run (key : string) : WebState → nat → nat → WebState → Prop :=
| TrDone w : turn_run key w 0 0 w
| TrResult w env task result b w1 r n k w2 :
    task_bindings (runtime w) !! task = Some b → tb_session_key b = key →
    reply_task_result env w task result = Some (w1, r) → turn_run key w1 n k w2 →
    turn_run key w (S n) (submissions w w1 + k) w2
| TrOther w w1 n k w2 :
    steps w1 key = steps w key → turn_run key w1 n k w2 → turn_run key w n k w2.

Lemma turn_run_bound key w n k w2 sc mx :
  turn_run key w n k w2 → steps w key = Some (sc, mx) → (0 ≤ sc)%Z → (sc + Z.of_nat n < 2 ^ 32)%Z →
  (Z.of_nat k ≤ Z.max 0 (mx - sc))%Z.
Proof.
  intros Hr. revert sc. induction Hr as [w|w env task result b w1 r n k w2 Hb Hk Ew Hr IH|w w1 n k w2 Hs Hr IH];
    intros sc Hst Hsc Hn; [lia| |by eapply IH; [congruence|..]].
  destruct (reply_one_step env w task result b Hb) as (w1' & r' & Ew' & Ho).
  rewrite Ew in Ew'. injection Ew' as <- <-. rewrite Hk in Ho.
  destruct Ho as [[Hc Hs]|(wa & [Hc Ha] & [[Hc' Hs]|[[Hc' Hs] (sc' & mx' & Hsm & Hle)]])].
  - rewrite submissions_none by done. specialize (IH sc).
    rewrite Hs in IH. specialize (IH Hst Hsc). lia.
  - assert (steps w1 key = Some (sc + 1, mx)%Z) as Hst1.
    { rewrite Hs, Ha, decide_True, Hst by done. simpl. rewrite wrap_small by lia. done. }
    rewrite submissions_none by congruence. specialize (IH _ Hst1). lia.
  - assert (steps wa key = Some (sc + 1, mx)%Z) as Hsta.
    { rewrite Ha, decide_True, Hst by done. simpl. rewrite wrap_small by lia. done. }
    rewrite Hsta in Hsm. injection Hsm as <- <-. rewrite <-Hs in Hsta. specialize (IH _ Hsta).
    rewrite submissions_one by congruence. lia.
Qed.

Lemma start_turn_steps s now turn_id key msg : steps_in (start_turn s now turn_id key msg).1 key = Some (0, 4)%Z.
Proof. unfold steps_in, start_turn. simpl. by rewrite lookup_insert_eq. Qed.

Lemma submit_first_cases env w m key agent text turn_id early command path :
  ∃ w' r, submit_first_task env w m key agent text turn_id early command path = Some (w', r) ∧
    (quiet w w' ∨ submitted w w').
Proof.
  unfold submit_first_task. destruct (match path with Some p => Some p | None => _ end) as [hint|].
  2:{ eexists _, _. split; [done|]. by left. }
  set (cx := first_task_context _ _ _ _ _ _).
  destruct (submit_step_cases env w key command cx hint "session turn is missing before task submission")
    as (w1 & r & E & Hr).
  rewrite E. simpl. destruct Hr as [(e & -> & Hq)|([task call] & -> & Hs)].
  - eexists _, _. split; [done|]. by left.
  - rewrite (surjective_pairing (attach_handle _ _ _ _ _)). eexists _, _. split; [done|]. right.
    eapply submitted_quiet; [exact Hs|]. etrans; [apply bind_quiet|]. etrans; [|apply attach_quiet]. done.
Qed.

(** The message starts a turn of four steps and uses at most the first. *)
Lemma process_steps env w m agent text user_text turn_id early :
  let key := SessionKey_as_str (inbound_session_key m) in
  ∃ w' r, process_dingtalk_task_serialized env w m agent text user_text turn_id early = Some (w', r) ∧
    ∃ sc, steps w' key = Some (sc, 4)%Z ∧ (0 ≤ sc ≤ 1)%Z ∧ (Z.of_nat (submissions w w') ≤ sc)%Z.
Proof.
  intros key. unfold process_dingtalk_task_serialized. fold key.
  set (w1 := on_runtime _ w).
  assert (counter w1 = counter w ∧ steps w1 key = Some (0, 4)%Z) as [Hc1 Hs1].
  { split; [done|]. apply start_turn_steps. }
  destruct (plan_next_dingtalk_step _ _ _ _ _) as [llm [step|e]].
  2:{ eexists _, _. split; [done|]. exists 0%Z. split; [exact Hs1|].
      rewrite submissions_none by done. lia. }
  set (w3 := event env key AssistantStep _ _).
  assert (quiet w1 w3) as Q3 by (etrans; [|apply event_quiet]; done).
  destruct (increment_step_count (runtime w3) key) as [s o] eqn:Ei. apply increment_advanced in Ei as [[Ha Ha'] Ho].
  set (w4 := set_runtime w3 s) in *.
  assert (counter w4 = counter w ∧ steps w4 key = Some (1, 4)%Z) as [Hc4 Hs4].
  { destruct Q3 as [C S]. split; [congruence|]. rewrite Ha', decide_True, S, Hs1 by done. done. }
  destruct o as [turn|].
  2:{ eexists _, _. split; [done|]. exists 0%Z. destruct Q3 as [C S]. rewrite S. split; [exact Hs1|].
      rewrite submissions_none by congruence. lia. }
  assert (∀ r, (quiet w4 r.1 ∨ submitted w4 r.1) → ∃ w' (x : Result unit string), Some r = Some (w', x) ∧
    ∃ sc, steps w' key = Some (sc, 4)%Z ∧ (0 ≤ sc ≤ 1)%Z ∧ (Z.of_nat (submissions w w') ≤ sc)%Z) as Hfin.
  { intros [w' x] Hr. exists w', x. split; [done|]. exists 1%Z. simpl in Hr.
    pose proof (submissions_at_most_one w w4 w' Hc4 Hr).
    destruct Hr as [[_ Hs]|[_ Hs]]; rewrite Hs; (split; [done|]; split; lia). }
  case_bool_decide.
  - apply Hfin. left. etrans; [apply close_turn_quiet|apply direct_reply_quiet].
  - set (handle := match ws_dingtalk w4 with Some _ => _ | None => None end).
    destruct step; try (apply Hfin; left; apply local_step_quiet).
    + apply Hfin. left. etrans; [apply close_turn_quiet|apply direct_reply_quiet].
    + destruct (submit_first_cases env w4 m key agent (str_trim text) turn_id early command workspace_path)
        as (w' & r & E & Hr). rewrite E. by apply (Hfin (w', r)).
Qed.

(** C25. A turn submits at most four tasks.  A message of a user starts a turn;
    after it, let results of the session's tasks come in, with any answers of the
    language model and outcomes of the channel, among any other events that do
    not count steps (results of other sessions, approvals, cancellations, changes
    of the Hub).  The message and all these results together submit at most four
    tasks; no result panics the Hub.  (The counter of steps is 32 bits wide.) *)
Theorem turn_submits_at_most_four env w m agent text user_text turn_id early w1 r n k w2
    (Hmsg : process_dingtalk_task_serialized env w m agent text user_text turn_id early = Some (w1, r))
    (Hrun : turn_run (SessionKey_as_str (inbound_session_key m)) w1 n k w2)
    (Hn : (Z.of_nat n + 1 < 2 ^ 32)%Z) :
  submissions w w1 + k ≤ 4 ∧
  ∀ env' task result b, task_bindings (runtime w2) !! task = Some b →
    is_Some (reply_task_result env' w2 task result).
Proof.
  destruct (process_steps env w m agent text user_text turn_id early) as (w1' & r' & E & sc & Hst & Hsc & Hsub).
  rewrite Hmsg in E. injection E as <- <-. split.
  - pose proof (turn_run_bound _ _ _ _ _ _ _ Hrun Hst ltac:(lia) ltac:(lia)). lia.
  - intros env' task result b Hb. destruct (reply_one_step env' w2 task result b Hb) as (w' & x & -> & _).
    by eexists.
Qed.

(** ** How a resumed turn ends *)

Definition status w key : option TurnStatus := tu_status <$> turn_state (runtime w) key.
Definition has_turn w key : Prop := is_Some (steps w key).

Lemma quiet_has_turn w w' key : quiet w w' → has_turn w key → has_turn w' key.
Proof. unfold has_turn. intros [_ ->]. done. Qed.

Lemma advanced_has_turn key w w' : advanced key w w' → has_turn w key → has_turn w' key.
Proof. unfold has_turn. intros [_ ->] Hh. rewrite decide_True by done. by apply fmap_is_Some. Qed.

Lemma update_turn_status s key f st :
  is_Some (steps_in s key) → (∀ t, tu_status (f t) = st) →
  tu_status <$> turn_state (update_turn s key f) key = Some st.
Proof.
  unfold steps_in, turn_state, update_turn. simpl. rewrite map_update_lookup, decide_True by done.
  intros (x & Hx) Hf. destruct (turns s !! key) as [t|]; [|done]. simpl. by rewrite Hf.
Qed.

Lemma complete_turn_status s key task :
  is_Some (steps_in s key) → tu_status <$> turn_state (complete_turn s key task) key = Some TCompleted.
Proof.
  intros Hs. unfold complete_turn. pose proof (update_turn_status s key
    (λ t, settle_call task TcCompleted (set_turn_status t TCompleted)) TCompleted Hs (λ t, eq_refl)) as Hu.
  destruct task; exact Hu.
Qed.

Lemma close_turn_status env key text w : has_turn w key → status (close_turn env key text w) key = Some TCompleted.
Proof. exact (complete_turn_status _ key None). Qed.

Lemma direct_reply_runtime env w route text handle :
  runtime (direct_reply env w route text handle).1 = runtime w.
Proof. unfold direct_reply. destruct (ws_dingtalk w); [|done]. by destruct (send_or_finalize _ _ _ _ _). Qed.

Lemma complete_continuation_status env w key task route text w' :
  complete_continuation_with_reply env w key task route text = (w', Ok tt) → has_turn w key →
  status w' key = Some TCompleted.
Proof.
  unfold complete_continuation_with_reply. pose proof (finalize_quiet env w task route text) as Hq.
  destruct (finalize_task_result_reply _ _ _ _ _) as [w1 [?|?]]; [|done]. intros [= <-] Hh.
  apply (quiet_has_turn _ _ _ Hq) in Hh. exact (complete_turn_status (runtime w1) key (Some task) Hh).
Qed.

(** The turn is completed, or it waits for a task bound to it. *)
Definition turn_settled w key (turn_id : string) : Prop :=
  status w key = Some TCompleted ∨
  (status w key = Some TWaitingForTool ∧
   ∃ task b, task_bindings (runtime w) !! task = Some b ∧ tb_session_key b = key ∧ tb_turn_id b = turn_id).

Lemma bind_status env task b w :
  has_turn w (tb_session_key b) → status (bind_task env task b w) (tb_session_key b) = Some TWaitingForTool.
Proof.
  intros Hh. exact (update_turn_status (set_bindings (runtime w) (<[task := b]> (task_bindings (runtime w))))
    (tb_session_key b) (λ t, let t' := set_turn_status t TWaitingForTool in
      set_tool_call t' (bind_call (tb_tool_call_id b) task <$> tu_tool_call t')) _ Hh (λ t, eq_refl)).
Qed.

Lemma submit_next_settled env w b c command path w' :
  submit_next_task env w (tb_session_key b) b c command path = Some (w', Ok tt) →
  has_turn w (tb_session_key b) → turn_settled w' (tb_session_key b) (tb_turn_id b).
Proof.
  unfold submit_next_task. destruct (match path with Some p => Some p | None => _ end) as [hint|]; [|done].
  destruct (submit_step_cases env w (tb_session_key b) command (ct_context c) hint
    "session turn is missing before continuation task submission") as (w1 & r & E & Hr).
  rewrite E. simpl. destruct r as [[task call]|e]; [|done]. intros [= <-] Hh. right.
  destruct Hr as [(e & [=] & _)|(x & _ & [_ Hs])].
  assert (has_turn w1 (tb_session_key b)) as Hh1 by (unfold has_turn; by rewrite Hs).
  split.
  - exact (bind_status env task (MkTaskContinuationBinding (tb_session_key b) (tb_turn_id b) call
      (tb_agent_id b) (tb_route b)) w1 Hh1).
  - exists task. eexists. split; [apply lookup_insert_eq|done].
Qed.

Lemma execute_settled env w task b c step w' :
  SessionKey_as_str (parse_dingtalk_binding_session_key b) = tb_session_key b →
  execute_continuation_step env w (tb_session_key b) task b c step = Some (w', Ok tt) →
  has_turn w (tb_session_key b) → turn_settled w' (tb_session_key b) (tb_turn_id b).
Proof.
  intros Hk He Hh.
  assert (match execute_local_turn_step env w (tb_route b)
            (SessionKey_as_str (parse_dingtalk_binding_session_key b)) None with
    | (w1, Err e) => Some (w1, Err e)
    | (w1, Ok _) => Some (prune (tb_session_key b) w1, Ok tt)
    end = Some (w', Ok tt) → turn_settled w' (tb_session_key b) (tb_turn_id b)) as Hl.
  { rewrite Hk. unfold execute_local_turn_step. destruct (le_local env) as [text|e]; [|done].
    pose proof (direct_reply_runtime env (close_turn env (tb_session_key b) text w) (tb_route b) text None) as Hr.
    destruct (direct_reply _ _ _ _ _) as [w1 [?|?]]; [|done]. cbn [fst] in Hr. intros [= <-]. left.
    unfold prune, on_runtime. rewrite Hr. by apply close_turn_status. }
  destruct step; try (exact (Hl He)).
  - simpl in He. injection He as He. left. eapply complete_continuation_status; [exact He|].
    eapply quiet_has_turn; [apply event_quiet|done].
  - by apply (submit_next_settled env w b c command workspace_path).
Qed.

(** The sender is named in the message and belongs to no team: only then does the
    route, which carries neither the team nor the user of the channel, name the session
    of the message. *)
Definition named_alone (m : DingTalkInboundMessage) : Prop :=
  non_empty (di_sender_corp_id m) = None ∧
  (is_Some (non_empty (di_sender_user_id m)) ∨ is_Some (non_empty (di_sender_staff_id m))).

Lemma named_alone_key m b :
  named_alone m → tb_route b = reply_route_from_inbound m →
  parse_dingtalk_binding_session_key b = inbound_session_key m.
Proof.
  intros [Ht Hu] Hr. unfold parse_dingtalk_binding_session_key, inbound_session_key, build_dingtalk_session_key.
  rewrite Hr, Ht. simpl. destruct Hu as [[u ->]|[u ->]]; [done|]. by destruct (non_empty (di_sender_user_id m)).
Qed.

(** C14. How a resumed turn ends.  A task was bound for a message whose sender is named
    and belongs to no team.  Its result comes in, the task is among the scheduler's
    completed tasks, its turn is there and nobody asked to cancel the turn.  If
    handling the result reports no error, then in the end the turn is completed or it
    waits for a new task bound to the same turn. *)
Theorem resumed_turn_settles env w m task result b c w'
    (Hm : named_alone m)
    (Hroute : tb_route b = reply_route_from_inbound m)
    (Hkey : tb_session_key b = SessionKey_as_str (inbound_session_key m))
    (Hb : task_bindings (runtime w) !! task = Some b)
    (Hc : get_completed_task (task_scheduler (ws_hub w)) task = Some c)
    (Hturn : ∃ t, turn_state (runtime w) (tb_session_key b) = Some t ∧ tu_cancel_requested t = false)
    (Hok : reply_task_result env w task result = Some (w', Ok tt)) :
  turn_settled w' (tb_session_key b) (tb_turn_id b).
Proof.
  assert (SessionKey_as_str (parse_dingtalk_binding_session_key b) = tb_session_key b) as Hsame
    by (rewrite Hkey; f_equal; by apply named_alone_key).
  clear Hkey. revert Hok. unfold reply_task_result, take_task_binding. rewrite Hb.
  set (w0 := set_runtime w _). unfold resume_turn.
  assert (get_completed_task (task_scheduler (ws_hub w0)) task = Some c) as -> by exact Hc.
  set (key := tb_session_key b). set (w1 := event env key ToolResultObserved _ w0).
  destruct Hturn as (t & Ht & Hcancel). change (turn_state (runtime w1) key) with (turn_state (runtime w) key).
  unfold key at 1. rewrite Ht, Hcancel.
  assert (has_turn w1 key) as Hh1.
  { unfold has_turn, steps, steps_in. change (turns (runtime w1)) with (turns (runtime w)).
    unfold turn_state in Ht. fold key in Ht. rewrite Ht. by eexists. }
  set (w3 := event env key TurnResumed _ _).
  assert (quiet w1 w3) as Q3.
  { etrans; [|apply event_quiet]. apply on_runtime_quiet. intros s k. by apply update_turn_steps. }
  pose proof (plan_quiet env w3 key b c) as Q4.
  destruct (plan_continuation_step_with_retry env w3 key b c) as [w4 step]. cbn [fst] in Q4.
  set (w5 := event env key AssistantStep _ w4).
  assert (quiet w1 w5) as Q5 by (etrans; [exact Q3|]; etrans; [exact Q4|apply event_quiet]).
  destruct (increment_step_count (runtime w5) key) as [s o] eqn:Ei. apply increment_advanced in Ei as [Ha Ho].
  destruct o as [turn|]; [|done].
  assert (has_turn (set_runtime w5 s) key) as Hh6.
  { eapply advanced_has_turn; [exact Ha|]. by eapply quiet_has_turn. }
  case_bool_decide.
  - unfold handle_continuation_max_steps_exceeded. pose proof (summarize_quiet (set_runtime w5 s) c) as Q7.
    destruct (summarize (set_runtime w5 s) c) as [w7 text]. cbn [fst] in Q7. intros [= He]. left.
    eapply complete_continuation_status; [exact He|]. eapply quiet_has_turn; [|exact Hh6].
    etrans; [exact Q7|apply event_quiet].
  - intros He. by apply (execute_settled env (set_runtime w5 s) task b c step).
Qed.

(** ** Lost results *)

Lemma set_runtime_same w s : s = runtime w → set_runtime w s = w.
Proof. intros ->. destruct w as [[] ? ? ? ?]. done. Qed.

(** A result can come before its binding.  Between the submission of a task and
    its binding the node may already answer.  The result then finds neither a
    binding nor a route and is dropped without a word; the binding comes
    afterwards, and the turn waits for a result that was already delivered. *)
Theorem result_before_binding_lost env w key command context hint no_turn w1 task call env' result b
    (Hsub : submit_step env w key command context hint no_turn = Some (w1, Ok (task, call)))
    (Hb : task_bindings (runtime w) !! task = None) (Hr : ws_routes w !! task = None)
    (Hkey : tb_session_key b = key) :
  reply_task_result env' w1 task result = Some (w1, Ok tt) ∧
  status (bind_task env task b w1) key = Some TWaitingForTool ∧
  task_bindings (runtime (bind_task env task b w1)) !! task = Some b.
Proof.
  assert (task_bindings (runtime w1) = task_bindings (runtime w) ∧ ws_routes w1 = ws_routes w ∧ has_turn w1 key)
    as (E1 & E2 & E3).
  { revert Hsub. unfold submit_step. destruct (validate_planned_command command hint) as [[]|]; [|done].
    destruct (begin_tool_call _ _ _ _) as [s1 [c|]] eqn:Eb; [|done].
    destruct (hub_submit (le_hub env) (ws_hub (event env key ToolCallPlanned (c +:+ ":" +:+ "hub_task")
      (set_runtime w s1))) command context Normal (browser_capabilities command) [] (Some hint))
      as (h' & id & -> & _ & Hs). simpl. intros [= <- <- <-]. unfold has_turn, steps, runtime. simpl. rewrite Hs.
    simpl. unfold begin_tool_call in Eb. destruct (turns (runtime w) !! key) as [t|] eqn:Et; [|done].
    injection Eb as <- _. split; [done|]. split; [done|]. unfold steps_in. simpl.
    rewrite lookup_insert_eq. by eexists. }
  split; [|split].
  - unfold reply_task_result, take_task_binding. rewrite E1, Hb. simpl. rewrite E2, Hr. do 2 f_equal.
    apply set_runtime_same. rewrite delete_id by done. rewrite <-E1. by destruct (runtime w1).
  - rewrite <-Hkey. apply bind_status. by rewrite Hkey.
  - simpl. apply lookup_insert_eq.
Qed.

(** A step that does not pass the checks leaves the turn as it is, resuming, and
    answers nothing. *)
Lemma rejected_step_stalls env w key task b c command hint e :
  validate_planned_command command hint = Err e →
  execute_continuation_step env w key task b c (SubmitTask command (Some hint)) = Some (w, Err e).
Proof. intros Hv. simpl. unfold submit_next_task, submit_step. by rewrite Hv. Qed.

(** The sign that a task is under way stays with the first task: a continuation
    with another task neither closes nor passes it on. *)
Lemma next_task_keeps_handle env w key b c command path w' r :
  submit_next_task env w key b c command path = Some (w', r) →
  ws_handles w' = ws_handles w ∧ ws_dingtalk w' = ws_dingtalk w ∧ ws_routes w' = ws_routes w.
Proof.
  unfold submit_next_task, submit_step.
  destruct (match path with Some p => Some p | None => _ end) as [hint|]; [|by intros [= <- _]].
  destruct (validate_planned_command command hint) as [[]|]; [|by intros [= <- _]].
  destruct (begin_tool_call _ _ _ _) as [s1 [call|]]; [|by intros [= <- _]].
  destruct (Hub_submit_task _ _ _ _ _ _ _ _) as [[h' id]|]; simpl; [|done]. by intros [= <- _].
Qed.

(** ** Teams *)

Definition user_in_team (m : DingTalkInboundMessage) (user team : string) : Prop :=
  di_sender_user_id m = Some user ∧ user ≠ "" ∧ di_sender_corp_id m = Some team ∧ team ≠ "".

(** A continuation forgets the team.  When the sender belongs to a team, the
    session key rebuilt for a local step of a continuation names the user without
    the team, another session: whatever the step answers, the turn that was
    resumed is not completed by it. *)
Theorem local_continuation_closes_other_session env w m user team task b c step w' r
    (Hm : user_in_team m user team)
    (Hkey : tb_session_key b = SessionKey_as_str (inbound_session_key m))
    (Hroute : tb_route b = reply_route_from_inbound m)
    (Hstep : match step with Finalize _ | SubmitTask _ _ => False | _ => True end)
    (He : execute_continuation_step env w (tb_session_key b) task b c step = Some (w', r)) :
  SessionKey_as_str (parse_dingtalk_binding_session_key b) ≠ tb_session_key b ∧
  turn_state (runtime w') (tb_session_key b) = turn_state (runtime w) (tb_session_key b).
Proof.
  destruct Hm as (Hu & Hune & Hc & Hcne).
  assert (SessionKey_as_str (parse_dingtalk_binding_session_key b) ≠ tb_session_key b) as Hne.
  { unfold parse_dingtalk_binding_session_key. rewrite Hkey, Hroute. unfold inbound_session_key,
      build_dingtalk_session_key, reply_route_from_inbound, non_empty. simpl. rewrite Hu, Hc. simpl.
    rewrite !bool_decide_false by done. unfold SessionKey_as_str. simpl. intros E.
    apply (f_equal String.length) in E. rewrite !str_length_app in E. simpl in E. lia. }
  split; [done|].
  assert (∀ x, match execute_local_turn_step env w (tb_route b)
            (SessionKey_as_str (parse_dingtalk_binding_session_key b)) None with
    | (w1, Err e) => Some (w1, Err e)
    | (w1, Ok _) => Some (prune (tb_session_key b) w1, Ok tt)
    end = Some (w', x) → turn_state (runtime w') (tb_session_key b) = turn_state (runtime w) (tb_session_key b)) as Hl.
  { intros x. unfold execute_local_turn_step. destruct (le_local env) as [text|e]; [|by intros [= <- _]].
    set (other := SessionKey_as_str (parse_dingtalk_binding_session_key b)) in *.
    pose proof (direct_reply_runtime env (close_turn env other text w) (tb_route b) text None) as Hr.
    assert (turn_state (runtime (close_turn env other text w)) (tb_session_key b)
      = turn_state (runtime w) (tb_session_key b)) as Ht.
    { unfold close_turn, turn_state. simpl. rewrite map_update_lookup, decide_False by exact Hne. done. }
    destruct (direct_reply _ _ _ _ _) as [w1 [?|?]]; cbn [fst] in Hr; intros [= <- _];
      unfold prune, on_runtime; unfold turn_state in *; simpl; rewrite ?Hr; done. }
  destruct step; try done; by eapply Hl.
Qed.

End Loop.

(** ** Examples: a user of a team, no node online, a planner that lists a directory *)

#[local] Existing Instances json_trees json_tree_shape canonical_order demo_files demo_text example_urls.
#[local] Instance loop_wire : WireJson :=
  {| command_json := λ c, GenLeaf (CommandType_debug (command_type c));
     context_json := λ c, GenLeaf (tc_channel c); time_json := λ t, GenLeaf (display_u t) |}.
#[local] Instance loop_lower : ToLowercase := {| to_lowercase := ascii_lower; to_lowercase_ascii _ _ := eq_refl |}.
#[local] Instance loop_decisions : PlannerText := @Build_PlannerText json_trees
  (λ s, if bool_decide (s = "{list src}")
        then Some (ExecuteCommand (CFile (FList "src" false None)) (Some "/ws")) else None)
  (λ _, Err "expected value") (λ _, Err "missing field").
#[local] Instance loop_results : ResultText := @Build_ResultText json_trees (λ _, "{}") (λ _, "output").
#[local] Instance loop_text : LoopText := @Build_LoopText json_trees (λ _, "step") (λ _, "result") (λ _, "command").

Definition demo_message : DingTalkInboundMessage :=
  MkInbound "conversation" None None "fallback" (Some "ann") None (Some "team") None None None.
Definition demo_key : string := "dingtalk:ann:team".
Definition demo_loop_env : loop_env :=
  MkLoopEnv 50 50 "call-1" (demo_hub_env "u") true (Ok "3 skills") "workspace" (λ c, c).
Definition demo_state : WebState :=
  MkWebState (Hub_new HubConfig_default 0) (MkLlmState (Some (λ _, Ok "First {list src}")) 0) None ∅ ∅.

Definition demo_process : option (WebState * Result unit string) :=
  process_dingtalk_task_serialized demo_loop_env demo_state demo_message "main" "list" "list" "turn-1" None.

(** The message submits a task; the node's result is recorded by the scheduler and comes
    in; the planner lists the directory again, a second task. *)
Definition demo_first : WebState := match demo_process with Some (w1, _) => w1 | None => demo_state end.
Definition demo_task : TaskId := match map_to_list (task_bindings (runtime demo_first)) with (t, _) :: _ => t | [] => MkTaskId "" end.
Definition demo_recorded : WebState :=
  set_hub demo_first (set_task_scheduler (ws_hub demo_first) (set_completed (task_scheduler (ws_hub demo_first))
    {[demo_task := MkCompletedTask demo_task (CFile (FList "src" false None)) demo_context Normal (MkNodeId "n1") 0 1
      StatusCompleted (result_success (OText "done"))]})).
Definition demo_second : option (WebState * Result unit string) :=
  reply_task_result demo_loop_env demo_recorded demo_task (result_success (OText "done")).

Lemma turn_submits_at_most_four_witness :
  match demo_process, demo_second with
  | Some (w1, _), Some (w2, _) =>
      submissions demo_state w1 = 1 ∧ submissions demo_recorded w2 = 1 ∧
      submissions demo_state w1 + (submissions demo_recorded w2 + 0) ≤ 4
  | _, _ => False
  end.
Proof.
  assert ((λ x : WebState * Result unit string, submissions demo_state x.1) <$> demo_process = Some 1) as Hs1
    by (vm_compute; reflexivity).
  assert ((λ x : WebState * Result unit string, submissions demo_recorded x.1) <$> demo_second = Some 1) as Hs2
    by (vm_compute; reflexivity).
  assert (tb_session_key <$> task_bindings (runtime demo_recorded) !! demo_task
    = Some (SessionKey_as_str (inbound_session_key demo_message))) as Hb by (vm_compute; reflexivity).
  assert (steps demo_recorded (SessionKey_as_str (inbound_session_key demo_message))
    = steps demo_first (SessionKey_as_str (inbound_session_key demo_message))) as Hst by (vm_compute; reflexivity).
  unfold demo_first in Hst.
  destruct demo_process as [[w1 r]|] eqn:E; [|discriminate Hs1].
  destruct demo_second as [[w2 r2]|] eqn:E2; [|discriminate Hs2].
  apply fmap_Some in Hb as (b & Hb & Hk).
  split; [by injection Hs1|]. split; [by injection Hs2|].
  set (key := SessionKey_as_str (inbound_session_key demo_message)) in *.
  assert (turn_run key w1 1 (submissions demo_recorded w2 + 0) w2) as Hrun.
  { apply (TrOther key w1 demo_recorded); [exact Hst|].
    apply (TrResult key demo_recorded demo_loop_env demo_task (result_success (OText "done")) b w2 r2);
      [exact Hb|by symmetry|exact E2|apply TrDone]. }
  assert (Z.of_nat 1 + 1 < 2 ^ 32)%Z as Hn by (by vm_compute).
  exact (proj1 (turn_submits_at_most_four demo_loop_env demo_state demo_message "main" "list" "list" "turn-1"
    None w1 r 1 _ w2 E Hrun Hn)).
Defined.

(** The turn of the message, before anything was submitted. *)
Definition demo_started : WebState :=
  on_runtime (λ s, (start_turn s 50 "turn-1" demo_key "list").1) demo_state.
Definition demo_binding : TaskContinuationBinding :=
  MkTaskContinuationBinding demo_key "turn-1" "call-1" "main" (reply_route_from_inbound demo_message).

Lemma result_before_binding_lost_witness :
  match submit_step demo_loop_env demo_started demo_key (CFile (FList "src" false None)) demo_context "/ws" "" with
  | Some (w1, Ok (task, call)) =>
      reply_task_result demo_loop_env w1 task cancelled_result = Some (w1, Ok tt) ∧
      status (bind_task demo_loop_env task demo_binding w1) demo_key = Some TWaitingForTool
  | _ => False
  end.
Proof.
  assert (match submit_step demo_loop_env demo_started demo_key (CFile (FList "src" false None)) demo_context "/ws" ""
    with Some (_, Ok _) => true | _ => false end = true) as Hok by (vm_compute; reflexivity).
  destruct (submit_step demo_loop_env demo_started demo_key (CFile (FList "src" false None)) demo_context "/ws" "")
    as [[w1 [[task call]|e]]|] eqn:E; try discriminate Hok.
  destruct (result_before_binding_lost demo_loop_env demo_started demo_key (CFile (FList "src" false None))
    demo_context "/ws" "" w1 task call demo_loop_env cancelled_result demo_binding E
    (lookup_empty task) (lookup_empty task) eq_refl) as (Hr & Hs & _).
  split; [exact Hr|exact Hs].
Defined.

(** A task of a user without a team, bound and finished; no language model. *)
Definition solo_message : DingTalkInboundMessage :=
  MkInbound "conversation" None None "fallback" (Some "ann") None None None None None.
Definition solo_binding : TaskContinuationBinding :=
  MkTaskContinuationBinding "dingtalk:ann" "turn-1" "call-1" "main" (reply_route_from_inbound solo_message).
Definition demo_completed : CompletedTask :=
  MkCompletedTask (MkTaskId "t") (CFile (FList "src" false None)) demo_context Normal (MkNodeId "n1") 0 1
    StatusCompleted (result_success (OText "done")).
Definition solo_state : WebState :=
  let h := set_task_scheduler (Hub_new HubConfig_default 0)
    (set_completed (TaskScheduler_new 3 60) {[MkTaskId "t" := demo_completed]}) in
  on_runtime (λ s, bind_task_to_turn (start_turn s 50 "turn-1" "dingtalk:ann" "list").1 50 (MkTaskId "t") solo_binding)
    (MkWebState h (MkLlmState None 0) None ∅ ∅).

Lemma resumed_turn_settles_witness :
  match reply_task_result demo_loop_env solo_state (MkTaskId "t") (result_success (OText "done")) with
  | Some (w', Ok _) => turn_settled w' "dingtalk:ann" "turn-1"
  | _ => False
  end.
Proof.
  assert (match reply_task_result demo_loop_env solo_state (MkTaskId "t") (result_success (OText "done"))
    with Some (_, Ok _) => true | _ => false end = true) as Hok by (vm_compute; reflexivity).
  destruct (reply_task_result demo_loop_env solo_state (MkTaskId "t") (result_success (OText "done")))
    as [[w' [[]|e]]|] eqn:E; try discriminate Hok.
  apply (resumed_turn_settles demo_loop_env solo_state solo_message (MkTaskId "t") (result_success (OText "done"))
    solo_binding demo_completed w').
  - split; [reflexivity|]. left. exists "ann". reflexivity.
  - reflexivity.
  - vm_compute. reflexivity.
  - apply lookup_insert_eq.
  - apply lookup_insert_eq.
  - eexists. split; [apply lookup_insert_eq|reflexivity].
  - exact E.
Defined.

Lemma local_continuation_closes_other_session_witness :
  match execute_continuation_step demo_loop_env demo_started demo_key (MkTaskId "t") demo_binding demo_completed
          StepListInstalledSkills with
  | Some (w', _) => (tu_status <$> turn_state (runtime w') demo_key) = Some TPlanning
  | None => False
  end.
Proof.
  assert (match execute_continuation_step demo_loop_env demo_started demo_key (MkTaskId "t") demo_binding
    demo_completed StepListInstalledSkills with Some _ => true | None => false end = true) as Hs
    by (vm_compute; reflexivity).
  destruct (execute_continuation_step demo_loop_env demo_started demo_key (MkTaskId "t") demo_binding demo_completed
    StepListInstalledSkills) as [[w' r]|] eqn:E; [|discriminate Hs].
  change demo_key with (tb_session_key demo_binding).
  rewrite (proj2 (local_continuation_closes_other_session demo_loop_env demo_started demo_message "ann" "team"
    (MkTaskId "t") demo_binding demo_completed StepListInstalledSkills w' r
    ltac:(by repeat split) ltac:(by vm_compute) eq_refl I E)).
  vm_compute. reflexivity.
Defined.
