(* ===== verification/Jwt.v ===== *)
(** JSON web tokens as an interface: the [encode] and [decode] of the jsonwebtoken
    crate with the default header and validation, for the claims of a service.
    [decode] answers [None] for every error, which the program does not tell
    apart. *)
From S2P Require Import Prelude Text.

Class JwtCodec (C : Type) := {
  (** Under a secret; an error is its text. *)
  jwt_encode : string → C → Result string string;
  (** Under a secret, with the clock in seconds. *)
  jwt_decode : string → Z → string → option C
}.

(** What the crate documents of its default validation: a token is accepted until
    60 seconds after its expiry [exp], a [u64], and what is read back from a token
    is what was written into it. *)
Class JwtLaws (C : Type) `{!JwtCodec C} (exp : C → Z) := {
  jwt_decode_fresh secret now c t :
    jwt_encode secret c = Ok t → (0 ≤ exp c < 2 ^ 64)%Z → (now ≤ exp c + 60)%Z →
    jwt_decode secret now t = Some c;
  jwt_decode_encoded secret now c c' t :
    jwt_encode secret c = Ok t → jwt_decode secret now t = Some c' → c' = c ∧ (now ≤ exp c + 60)%Z
}.

(** ** A concrete codec: a token spells out the secret and the claims *)

Fixpoint positive_text (p : positive) : string :=
  match p with
  | xH => ""
  | xO p => String "0" (positive_text p)
  | xI p => String "1" (positive_text p)
  end.
Fixpoint text_positive (s : string) : positive :=
  match s with
  | EmptyString => xH
  | String c s => if Ascii.eqb c "0" then xO (text_positive s) else xI (text_positive s)
  end.

Lemma text_positive_text p : text_positive (positive_text p) = p.
Proof. induction p as [p IH|p IH|]; simpl; [by rewrite IH..|done]. Qed.

Section Plain.
Context {C : Type} `{Countable C} (exp : C → Z).

Definition plain_jwt : JwtCodec C :=
  {| jwt_encode := λ secret c, Ok (String "t" (positive_text (encode (secret, c))));
     jwt_decode := λ secret now t,
       match t with
       | String _ r =>
           match decode (text_positive r) with
           | Some (s, c) => if bool_decide (s = secret ∧ (now ≤ exp c + 60)%Z) then Some c else None
           | None => None
           end
       | EmptyString => None
       end |}.

#[local] Existing Instance plain_jwt.
Lemma plain_jwt_laws : JwtLaws C exp.
Proof.
  split.
  - intros secret now c t [= <-] _ Hn. simpl. rewrite text_positive_text, decode_encode.
    by rewrite bool_decide_true.
  - intros secret now c c' t [= <-]. simpl. rewrite text_positive_text, decode_encode.
    case_bool_decide as Hb; [|done]. intros [= <-]. by destruct Hb.
Qed.

(** Its tokens hold no white space. *)
Lemma plain_jwt_text secret c t : jwt_encode secret c = Ok t → t ≠ "" ∧ str_trim t = t.
Proof.
  intros [= <-]. split; [done|]. apply str_trim_solid. simpl.
  generalize (encode (secret, c)). intros p. by induction p.
Qed.
End Plain.
