(* ===== verification/NodeAuth.v ===== *)
(** Tokens of nodes ([crates/uhorse-security/src/auth.rs], the authenticator of
    [crates/uhorse-hub/src/security_integration.rs]): access and refresh tokens,
    revocation, and the identity a token stands for.  The clock, in nanoseconds,
    and the reading that makes a token identifier are arguments of each token made. *)
From S2P Require Import Prelude ProtocolTypes Channel Jwt.

(** The variants of [UHorseError] the service builds. *)
Inductive AuthError := InvalidToken | TokenExpired | AuthInternal (m : string).
Abbreviation AuthR T := (Result T AuthError).

Definition AuthError_display (e : AuthError) : string :=
  match e with
  | InvalidToken => "Invalid token"
  | TokenExpired => "Token expired"
  | AuthInternal m => "Internal error: " +:+ m
  end.

Record Claims := MkClaims {
  cl_sub : string;
  cl_exp : Z;
  cl_iat : Z;
  cl_device_id : option string;
  cl_scopes : list string;
  cl_token_type : string;
  cl_jti : string
}.
#[export] Instance Claims_eq_dec : EqDecision Claims.
Proof. solve_decision. Defined.
#[export] Instance Claims_countable : Countable Claims.
Proof.
  refine (inj_countable' (λ c, (cl_sub c, cl_exp c, cl_iat c, cl_device_id c, cl_scopes c, cl_token_type c, cl_jti c))
    (λ '(s, e, i, d, sc, t, j), MkClaims s e i d sc t j) _). by intros [].
Defined.

Record AccessToken := MkAccessToken {
  at_token : string;
  at_device_id : option string;
  at_user_id : option string;
  at_scopes : list string;
  at_expires_at : Z;
  at_created_at : Z
}.

Record TokenPair := MkTokenPair {
  tp_access_token : string;
  tp_refresh_token : string;
  tp_token_type : string;
  tp_expires_in : Z
}.

(** The secret, the two lifetimes in seconds, the identifiers revoked. *)
Record JwtAuthService := MkJwtAuthService {
  ja_secret : string;
  ja_default_expiry : Z;
  ja_refresh_expiry : Z;
  ja_revoked : gset string
}.

Definition JwtAuthService_new (secret : string) : JwtAuthService := MkJwtAuthService secret 3600 2592000 ∅.
Definition with_default_expiry (s : JwtAuthService) (expiry : Z) : JwtAuthService :=
  MkJwtAuthService (ja_secret s) expiry (ja_refresh_expiry s) (ja_revoked s).
Definition with_refresh_expiry (s : JwtAuthService) (expiry : Z) : JwtAuthService :=
  MkJwtAuthService (ja_secret s) (ja_default_expiry s) expiry (ja_revoked s).
Definition set_revoked (s : JwtAuthService) (r : gset string) : JwtAuthService :=
  MkJwtAuthService (ja_secret s) (ja_default_expiry s) (ja_refresh_expiry s) r.

(** What the making of one token reads: the date, and the nanoseconds of its
    identifier. *)
Record minting := MkMinting { mt_now : timestamp; mt_jti_nanos : Z }.

(** [timestamp()], whole seconds. *)
Definition unix_seconds (t : timestamp) : Z := (t / nanos_per_sec)%Z.

Definition generate_jti (nanos : Z) : string := "jti_" +:+ pretty nanos.

Section Service.
Context `{JwtCodec Claims}.

(** [encode] with the error as an internal one. *)
Definition sign (s : JwtAuthService) (c : Claims) : AuthR string :=
  match jwt_encode (ja_secret s) c with Ok t => Ok t | Err e => Err (AuthInternal e) end.

Definition make_claims (mt : minting) (expiry : Z) (subject : string) (device : option string)
    (scopes : list string) (token_type : string) : Claims :=
  MkClaims subject (unix_seconds (mt_now mt + seconds (as_i64 expiry))) (unix_seconds (mt_now mt)) device scopes
    token_type (generate_jti (mt_jti_nanos mt)).

Definition create_access_token (s : JwtAuthService) (mt : minting) (subject : string)
    (device : option string) (scopes : list string) : AuthR string :=
  sign s (make_claims mt (ja_default_expiry s) subject device scopes "access").

Definition create_refresh_token (s : JwtAuthService) (mt : minting) (subject : string)
    (device : option string) : AuthR string :=
  sign s (make_claims mt (ja_refresh_expiry s) subject device ["refresh"] "refresh").

Definition is_revoked (s : JwtAuthService) (jti : string) : bool := bool_decide (jti ∈ ja_revoked s).

(** The subject of a token. *)
Definition subject_of (device user : option string) : string := default (default "" device) user.

Definition create_token (s : JwtAuthService) (mt : minting) (device user : option string)
    (scopes : list string) (expires_in : Z) : AuthR string :=
  sign s (make_claims mt expires_in (subject_of device user) device scopes "access").

Definition decode_claims (s : JwtAuthService) (now : timestamp) (token : string) : AuthR Claims :=
  ok_or (jwt_decode (ja_secret s) (unix_seconds now) token) InvalidToken.

Definition Jwt_verify_token (s : JwtAuthService) (now : timestamp) (token : string) : AuthR AccessToken :=
  let? c := decode_claims s now token in
  if negb (bool_decide (cl_token_type c = "access")) then Err InvalidToken
  else if is_revoked s (cl_jti c) then Err TokenExpired
  else Ok (MkAccessToken token (cl_device_id c) (Some (cl_sub c)) (cl_scopes c) (wrap 64 (cl_exp c))
             (wrap 64 (cl_iat c))).

Definition revoke (s : JwtAuthService) (jti : string) : JwtAuthService := set_revoked s ({[jti]} ∪ ja_revoked s).

Definition revoke_token (s : JwtAuthService) (now : timestamp) (token : string) : JwtAuthService * AuthR unit :=
  match decode_claims s now token with
  | Ok c => (revoke s (cl_jti c), Ok tt)
  | Err e => (s, Err e)
  end.

(** What both ways of refreshing check before they revoke the token. *)
Definition check_refresh (s : JwtAuthService) (now : timestamp) (token : string) : AuthR Claims :=
  let? c := decode_claims s now token in
  if negb (bool_decide (cl_token_type c = "refresh")) then Err InvalidToken
  else if is_revoked s (cl_jti c) then Err TokenExpired
  else Ok c.

Definition Jwt_refresh_token (s : JwtAuthService) (now : timestamp) (mt : minting) (token : string)
    : JwtAuthService * AuthR string :=
  match check_refresh s now token with
  | Err e => (s, Err e)
  | Ok c => (revoke s (cl_jti c), create_access_token (revoke s (cl_jti c)) mt (cl_sub c) (cl_device_id c) [])
  end.

Definition create_token_pair (s : JwtAuthService) (mt1 mt2 : minting) (device user : option string)
    (scopes : list string) : AuthR TokenPair :=
  let? access := create_access_token s mt1 (subject_of device user) device scopes in
  let? refresh := create_refresh_token s mt2 (subject_of device user) device in
  Ok (MkTokenPair access refresh "Bearer" (ja_default_expiry s)).

(** After the check: the old token is revoked and a new pair made. *)
Definition renew_pair (s : JwtAuthService) (mt1 mt2 : minting) (c : Claims) : JwtAuthService * AuthR TokenPair :=
  (revoke s (cl_jti c), create_token_pair (revoke s (cl_jti c)) mt1 mt2 (cl_device_id c) (Some (cl_sub c)) []).

Definition refresh_access_token (s : JwtAuthService) (now : timestamp) (mt1 mt2 : minting) (token : string)
    : JwtAuthService * AuthR TokenPair :=
  match check_refresh s now token with
  | Err e => (s, Err e)
  | Ok c => renew_pair s mt1 mt2 c
  end.

(** Every branch hands on what [verify_token] answered. *)
Definition verify_with_auto_refresh (s : JwtAuthService) (now : timestamp) (token : string) : AuthR AccessToken :=
  match Jwt_verify_token s now token with
  | Ok a => Ok a
  | Err TokenExpired => Err TokenExpired
  | Err e => Err e
  end.

(** The first half of the set, in its iteration order, goes. *)
Definition cleanup_revoked `{HashOrder} (s : JwtAuthService) : JwtAuthService :=
  let n := size (ja_revoked s) in
  if bool_decide (10000 < n)
  then set_revoked s (ja_revoked s ∖ list_to_set (take (n / 2) (hash_keys (gset_to_gmap tt (ja_revoked s)))))
  else s.

(** ** The authenticator of the Hub *)

Record NodeAuthInfo := MkNodeAuthInfo {
  nai_node_id : NodeId;
  nai_access_token : string;
  nai_refresh_token : string;
  nai_expires_at : timestamp;
  nai_authenticated_at : timestamp
}.

Record NodeAuthenticator := MkNodeAuthenticator {
  na_jwt_service : JwtAuthService;
  na_authenticated_nodes : gmap NodeId NodeAuthInfo
}.

Definition with_secret (secret : string) : NodeAuthenticator := MkNodeAuthenticator (JwtAuthService_new secret) ∅.

(** The readings of [authenticate_node]: two tokens, then two dates. *)
Record auth_env := MkAuthEnv { ae_mint1 : minting; ae_mint2 : minting; ae_expiry_base : timestamp; ae_at : timestamp }.

Definition authenticate_node (env : auth_env) (a : NodeAuthenticator) (node : NodeId) (credentials : string)
    : NodeAuthenticator * HubResult NodeAuthInfo :=
  if bool_decide (credentials = "") then (a, Err (EPermission "Empty credentials"))
  else
    match create_token_pair (na_jwt_service a) (ae_mint1 env) (ae_mint2 env) None (Some (node_id_str node)) ["node"] with
    | Err e => (a, Err (EPermission ("Token generation failed: " +:+ AuthError_display e)))
    | Ok tokens =>
        let info := MkNodeAuthInfo node (tp_access_token tokens) (tp_refresh_token tokens)
                      (ae_expiry_base env + seconds 3600) (ae_at env) in
        (MkNodeAuthenticator (na_jwt_service a) (<[node := info]> (na_authenticated_nodes a)), Ok info)
    end.

Definition Node_verify_token (a : NodeAuthenticator) (now : timestamp) (token : string) : HubResult NodeId :=
  match verify_with_auto_refresh (na_jwt_service a) now token with
  | Ok t => Ok (MkNodeId (default "unknown" (at_user_id t)))
  | Err e => Err (EPermission ("Token verification failed: " +:+ AuthError_display e))
  end.

Definition Node_refresh_token (a : NodeAuthenticator) (now : timestamp) (mt1 mt2 : minting) (token : string)
    : NodeAuthenticator * HubResult TokenPair :=
  let '(s, r) := refresh_access_token (na_jwt_service a) now mt1 mt2 token in
  (MkNodeAuthenticator s (na_authenticated_nodes a),
   match r with
   | Ok p => Ok p
   | Err e => Err (EPermission ("Token refresh failed: " +:+ AuthError_display e))
   end).

Definition revoke_node (a : NodeAuthenticator) (node : NodeId) : NodeAuthenticator :=
  MkNodeAuthenticator (na_jwt_service a) (delete node (na_authenticated_nodes a)).

Definition is_authenticated (a : NodeAuthenticator) (now : timestamp) (node : NodeId) : bool :=
  match na_authenticated_nodes a !! node with
  | Some info => bool_decide (now < nai_expires_at info)%Z
  | None => false
  end.
End Service.

(** * Theorems

   What a token of a node stands for: only its own identity, as long as it is
    fresh and not revoked; and what revocation does not reach. *)

Section Facts.
Context `{JwtCodec Claims} {LAWS : JwtLaws Claims cl_exp}.
Implicit Types (s : JwtAuthService) (a : NodeAuthenticator) (mt : minting).

(** ** Reading tokens *)

Lemma sign_ok s c t : sign s c = Ok t ↔ jwt_encode (ja_secret s) c = Ok t.
Proof. unfold sign. destruct (jwt_encode _ _); naive_solver. Qed.

Lemma create_pair_ok s mt1 mt2 device user scopes p :
  create_token_pair s mt1 mt2 device user scopes = Ok p →
  jwt_encode (ja_secret s) (make_claims mt1 (ja_default_expiry s) (subject_of device user) device scopes "access")
  = Ok (tp_access_token p) ∧
  jwt_encode (ja_secret s) (make_claims mt2 (ja_refresh_expiry s) (subject_of device user) device ["refresh"] "refresh")
  = Ok (tp_refresh_token p).
Proof.
  unfold create_token_pair. intros (t & Ht & (r & Hr & [= <-])%result_bind_ok)%result_bind_ok.
  split; by apply sign_ok.
Qed.

(** What a token decodes to is what it was made of. *)
Lemma decode_signed s c t now :
  jwt_encode (ja_secret s) c = Ok t →
  match decode_claims s now t with Ok c' => c' = c | Err e => e = InvalidToken end.
Proof.
  intros Ht. unfold decode_claims. destruct (jwt_decode _ _ _) as [c'|] eqn:E; simpl; [|done].
  by eapply jwt_decode_encoded in E as [? _].
Qed.

Lemma decode_fresh s c t now :
  jwt_encode (ja_secret s) c = Ok t → (0 ≤ cl_exp c < 2 ^ 64)%Z → (unix_seconds now ≤ cl_exp c + 60)%Z →
  decode_claims s now t = Ok c.
Proof. intros Ht He Hn. unfold decode_claims. by erewrite jwt_decode_fresh. Qed.

Lemma Node_verify_ok a now t n :
  Node_verify_token a now t = Ok n ↔
  ∃ c, decode_claims (na_jwt_service a) now t = Ok c ∧ cl_token_type c = "access" ∧
    cl_jti c ∉ ja_revoked (na_jwt_service a) ∧ n = MkNodeId (cl_sub c).
Proof.
  unfold Node_verify_token, verify_with_auto_refresh, Jwt_verify_token, is_revoked.
  destruct (decode_claims _ _ _) as [c|e]; simpl; [|split; [by destruct e|naive_solver]].
  repeat case_bool_decide; simpl; naive_solver.
Qed.

Lemma check_refresh_ok s now t c :
  check_refresh s now t = Ok c ↔
  decode_claims s now t = Ok c ∧ cl_token_type c = "refresh" ∧ cl_jti c ∉ ja_revoked s.
Proof.
  unfold check_refresh, is_revoked. destruct (decode_claims _ _ _) as [c'|e]; simpl; [|naive_solver].
  repeat case_bool_decide; simpl; naive_solver.
Qed.

Lemma Node_refresh_ok a now mt1 mt2 t a' p :
  Node_refresh_token a now mt1 mt2 t = (a', Ok p) →
  ∃ c, check_refresh (na_jwt_service a) now t = Ok c ∧
    create_token_pair (revoke (na_jwt_service a) (cl_jti c)) mt1 mt2 (cl_device_id c) (Some (cl_sub c)) [] = Ok p ∧
    a' = MkNodeAuthenticator (revoke (na_jwt_service a) (cl_jti c)) (na_authenticated_nodes a).
Proof.
  unfold Node_refresh_token, refresh_access_token, renew_pair.
  destruct (check_refresh _ _ _) as [c|e]; [|done]. destruct (create_token_pair _ _ _ _ _ _) eqn:E; [|done].
  intros [= <- <-]. eauto.
Qed.

(** ** Made and verified *)

(** A node that was authenticated is recognised by its token, for an hour and a
    minute, unless its identifier was revoked. *)
Theorem authenticated_token_verifies env a node credentials a' info now :
  authenticate_node env a node credentials = (a', Ok info) →
  let made := unix_seconds (mt_now (ae_mint1 env) + seconds (as_i64 (ja_default_expiry (na_jwt_service a)))) in
  (0 ≤ made < 2 ^ 64)%Z → (unix_seconds now ≤ made + 60)%Z →
  generate_jti (mt_jti_nanos (ae_mint1 env)) ∉ ja_revoked (na_jwt_service a) →
  Node_verify_token a' now (nai_access_token info) = Ok node.
Proof.
  unfold authenticate_node. case_bool_decide; [done|].
  destruct (create_token_pair _ _ _ _ _ _) as [p|e] eqn:Ep; [|done]. intros [= <- <-]. simpl. intros Hm Hn Hj.
  apply create_pair_ok in Ep as [Ht _]. apply Node_verify_ok. simpl.
  eexists. split; [by apply (decode_fresh _ _ _ _ Ht)|]. simpl. by destruct node.
Qed.

(** A refresh token is no access token, and conversely. *)
Theorem token_types_separate a s mt1 mt2 device user scopes p now :
  create_token_pair s mt1 mt2 device user scopes = Ok p → na_jwt_service a = s →
  (∃ e, Node_verify_token a now (tp_refresh_token p) = Err e) ∧
  (∃ e, check_refresh s now (tp_access_token p) = Err e).
Proof.
  intros [Ha Hr]%create_pair_ok E. split.
  - destruct (Node_verify_token a now (tp_refresh_token p)) as [n|e] eqn:Ev; [|eauto].
    apply Node_verify_ok in Ev as (c & Hc & Ht & _). rewrite E in Hc.
    pose proof (decode_signed _ _ _ now Hr) as Hd. rewrite Hc in Hd. by subst c.
  - unfold check_refresh. pose proof (decode_signed _ _ _ now Ha) as Hd.
    destruct (decode_claims _ _ _) as [c|e]; simpl; [subst c; simpl|]; eauto.
Qed.

(** ** Who can obtain a token *)

(** The tokens handed out by a run of the authenticator, with the nodes it
    authenticated.  A caller can present any text; what decodes is a token that
    was handed out, which is what the signature is for. *)
Inductive auth_run : list NodeId → list string → NodeAuthenticator → Prop :=
| run_start secret : auth_run [] [] (with_secret secret)
| run_authenticate nodes issued a env node credentials a' info :
    auth_run nodes issued a → authenticate_node env a node credentials = (a', Ok info) →
    auth_run (node :: nodes) (nai_access_token info :: nai_refresh_token info :: issued) a'
| run_refresh nodes issued a now mt1 mt2 token a' p :
    auth_run nodes issued a → token ∈ issued → Node_refresh_token a now mt1 mt2 token = (a', Ok p) →
    auth_run nodes (tp_access_token p :: tp_refresh_token p :: issued) a'
| run_revoke_node nodes issued a node :
    auth_run nodes issued a → auth_run nodes issued (revoke_node a node)
| run_revoke_token nodes issued a now token :
    auth_run nodes issued a →
    auth_run nodes issued (MkNodeAuthenticator (revoke_token (na_jwt_service a) now token).1 (na_authenticated_nodes a))
| run_cleanup nodes issued a `{HashOrder} :
    auth_run nodes issued a →
    auth_run nodes issued (MkNodeAuthenticator (cleanup_revoked (na_jwt_service a)) (na_authenticated_nodes a)).

(** A token made for one of the nodes, under the secret. *)
Definition token_of (secret : string) (nodes : list NodeId) (t : string) : Prop :=
  ∃ c, jwt_encode secret c = Ok t ∧ MkNodeId (cl_sub c) ∈ nodes.

Lemma revoke_token_secret s now t : ja_secret (revoke_token s now t).1 = ja_secret s.
Proof. unfold revoke_token. by destruct (decode_claims _ _ _). Qed.
Lemma cleanup_secret `{HashOrder} s : ja_secret (cleanup_revoked s) = ja_secret s.
Proof. unfold cleanup_revoked. by case_bool_decide. Qed.

Lemma issued_tokens nodes issued a :
  auth_run nodes issued a → Forall (token_of (ja_secret (na_jwt_service a)) nodes) issued.
Proof.
  intros Hr. induction Hr as [|nodes issued a env node cr a' info _ IH E|nodes issued a now mt1 mt2 t a' p _ IH Ht E
    |nodes issued a node _ IH|nodes issued a now t _ IH|nodes issued a ho _ IH]; simpl; [done|..].
  - revert E. unfold authenticate_node. case_bool_decide; [done|].
    destruct (create_token_pair _ _ _ _ _ _) as [p|e] eqn:Ep; [|done]. intros [= <- <-]. simpl.
    apply create_pair_ok in Ep as [Ha Hf].
    repeat constructor; [by eexists; split; [exact Ha|]; destruct node; simpl; left..| | ].
    + eexists; split; [exact Hf|]. destruct node. simpl. left.
    + eapply Forall_impl; [exact IH|]. intros t (c & ? & ?). exists c. split; [done|by right].
  - apply Node_refresh_ok in E as (c & (Hc & _)%check_refresh_ok & [Ha Hf]%create_pair_ok & ->).
    pose proof (proj1 (Forall_forall _ _) IH t Ht) as (c0 & Hc0 & Hn).
    pose proof (decode_signed _ _ _ now Hc0) as Hd. rewrite Hc in Hd. subst c0.
    repeat constructor; [by eexists; split; [exact Ha|]|by eexists; split; [exact Hf|]|exact IH].
  - exact IH.
  - by rewrite revoke_token_secret.
  - by rewrite cleanup_secret.
Qed.

(** A token speaks for a node only if that node was authenticated: whatever
    tokens were refreshed or revoked in between, a token that was handed out and
    verifies as a node stems from an authentication of that node. *)
Theorem verified_node_was_authenticated nodes issued a t now n :
  auth_run nodes issued a → t ∈ issued → Node_verify_token a now t = Ok n → n ∈ nodes.
Proof.
  intros Hr Ht (c & Hc & _ & _ & ->)%Node_verify_ok.
  pose proof (proj1 (Forall_forall _ _) (issued_tokens _ _ _ Hr) t Ht) as (c' & He & Hn).
  pose proof (decode_signed _ _ _ now He) as Hd. rewrite Hc in Hd. by subst c'.
Qed.

(** ** Refreshing *)

(** A refresh token works once: after it was used it is refused, at any time and
    after any further operations that keep what was revoked. *)
Theorem refresh_token_single_use a now mt1 mt2 c t a' p a'' later mt3 mt4 :
  jwt_encode (ja_secret (na_jwt_service a)) c = Ok t →
  Node_refresh_token a now mt1 mt2 t = (a', Ok p) →
  ja_secret (na_jwt_service a'') = ja_secret (na_jwt_service a) →
  ja_revoked (na_jwt_service a') ⊆ ja_revoked (na_jwt_service a'') →
  ∃ e, Node_refresh_token a'' later mt3 mt4 t = (a'', Err e).
Proof.
  intros Ht (c1 & (Hc1 & _)%check_refresh_ok & _ & ->)%Node_refresh_ok Es Hsub.
  pose proof (decode_signed _ _ _ now Ht) as Hd. rewrite Hc1 in Hd. subst c1.
  unfold Node_refresh_token, refresh_access_token.
  destruct (check_refresh (na_jwt_service a'') later t) as [c2|e] eqn:E; [|destruct a''; eauto].
  apply check_refresh_ok in E as (Hc2 & _ & Hnot). rewrite <-Es in Ht.
  pose proof (decode_signed _ _ _ later Ht) as Hd. rewrite Hc2 in Hd. subst c2. set_solver.
Qed.

Lemma create_pair_total s mt1 mt2 device user scopes :
  (∀ c, ∃ t, jwt_encode (ja_secret s) c = Ok t) → ∃ p, create_token_pair s mt1 mt2 device user scopes = Ok p.
Proof.
  intros He. unfold create_token_pair, create_access_token, create_refresh_token.
  destruct (He (make_claims mt1 (ja_default_expiry s) (subject_of device user) device scopes "access")) as [x Hx].
  destruct (He (make_claims mt2 (ja_refresh_expiry s) (subject_of device user) device ["refresh"] "refresh")) as [y Hy].
  rewrite (proj2 (sign_ok _ _ _) Hx). simpl. rewrite (proj2 (sign_ok _ _ _) Hy). simpl. eauto.
Qed.

(** The check and the revocation are two steps: a refresh that passed its check
    before another one revoked the token still gets a pair of tokens, though the
    check made then is refused. *)
Theorem concurrent_refreshes_both_succeed s now t c mt1 mt2 mt3 mt4 :
  (∀ c, ∃ u, jwt_encode (ja_secret s) c = Ok u) →
  check_refresh s now t = Ok c →
  let first := renew_pair s mt1 mt2 c in
  (∃ p, first.2 = Ok p) ∧ (∃ p, (renew_pair first.1 mt3 mt4 c).2 = Ok p) ∧
  check_refresh first.1 now t = Err TokenExpired.
Proof.
  intros He (Hc & Hty & _)%check_refresh_ok. simpl.
  split; [by apply create_pair_total|]. split; [by apply create_pair_total|].
  unfold check_refresh. change (decode_claims (revoke s (cl_jti c)) now t) with (decode_claims s now t).
  rewrite Hc. simpl. rewrite Hty. simpl. unfold is_revoked. by rewrite bool_decide_true by set_solver.
Qed.

(** ** What revocation does not reach *)

(** Revoking a node forgets that it was authenticated and leaves its tokens valid. *)
Theorem revoked_node_still_verifies a node t now n :
  Node_verify_token a now t = Ok n →
  is_authenticated (revoke_node a node) now node = false ∧ Node_verify_token (revoke_node a node) now t = Ok n.
Proof.
  intros Hv. split; [|exact Hv]. unfold is_authenticated, revoke_node. simpl. by rewrite lookup_delete_eq.
Qed.

Lemma elem_of_hash_elements `{HashOrder} (r : gset string) j :
  j ∈ hash_keys (gset_to_gmap tt r) ↔ j ∈ r.
Proof.
  rewrite elem_of_hash_keys. split.
  - by intros [[] [Hj _]%lookup_gset_to_gmap_Some].
  - intros Hj. exists tt. by apply lookup_gset_to_gmap_Some.
Qed.

(** The cleanup of revoked identifiers takes back half of the revocations,
    whichever come first in the iteration order: their tokens verify again. *)
Theorem cleanup_revives_tokens `{HashOrder} a c t now :
  let s := na_jwt_service a in
  let cleaned := MkNodeAuthenticator (cleanup_revoked s) (na_authenticated_nodes a) in
  10000 < size (ja_revoked s) →
  jwt_encode (ja_secret s) c = Ok t → (0 ≤ cl_exp c < 2 ^ 64)%Z → (unix_seconds now ≤ cl_exp c + 60)%Z →
  cl_token_type c = "access" →
  cl_jti c ∈ take (size (ja_revoked s) / 2) (hash_keys (gset_to_gmap tt (ja_revoked s))) →
  (∃ e, Node_verify_token a now t = Err e) ∧ Node_verify_token cleaned now t = Ok (MkNodeId (cl_sub c)).
Proof.
  intros s cleaned Hn Ht He Hnow Hty Hin. subst s cleaned.
  pose proof (decode_fresh (na_jwt_service a) c t now Ht He Hnow) as Hd.
  assert (cl_jti c ∈ ja_revoked (na_jwt_service a)) as Hrev
    by (apply elem_of_hash_elements; apply elem_of_take in Hin as (i & Hi & _); by eapply list_elem_of_lookup_2).
  split.
  - destruct (Node_verify_token a now t) as [n|e] eqn:E; [|eauto].
    apply Node_verify_ok in E as (c' & Hc' & _ & Hnot & _). rewrite Hd in Hc'. by simplify_eq.
  - apply Node_verify_ok. simpl. unfold cleanup_revoked. rewrite bool_decide_true by done.
    exists c. split_and!; [exact Hd|done| |done]. simpl. rewrite elem_of_difference, elem_of_list_to_set. naive_solver.
Qed.
End Facts.

(** ** A concrete authenticator *)

#[local] Instance claims_jwt : JwtCodec Claims := plain_jwt cl_exp.
#[local] Instance claims_laws : JwtLaws Claims cl_exp := plain_jwt_laws cl_exp.

Definition auth_at (t : timestamp) : auth_env := MkAuthEnv (MkMinting t t) (MkMinting t (t + 1)) t t.
Definition demo_authenticator : NodeAuthenticator := with_secret "secret".
Definition demo_authenticated : NodeAuthenticator * HubResult NodeAuthInfo :=
  authenticate_node (auth_at 0) demo_authenticator (MkNodeId "n1") "x".
Definition demo_access : string :=
  match demo_authenticated.2 with Ok info => nai_access_token info | Err _ => "" end.

Lemma verified_node_was_authenticated_witness :
  Node_verify_token demo_authenticated.1 0 demo_access = Ok (MkNodeId "n1") ∧ MkNodeId "n1" ∈ [MkNodeId "n1"].
Proof.
  assert (Node_verify_token demo_authenticated.1 0 demo_access = Ok (MkNodeId "n1")) as Hv by (vm_compute; reflexivity).
  split; [exact Hv|].
  destruct demo_authenticated as [a' [info|e]] eqn:E; [|vm_compute in E; discriminate].
  apply (verified_node_was_authenticated [MkNodeId "n1"] [nai_access_token info; nai_refresh_token info] a'
    (nai_access_token info) 0 (MkNodeId "n1")).
  - apply (run_authenticate [] [] demo_authenticator (auth_at 0) (MkNodeId "n1") "x" a' info); [constructor|exact E].
  - left.
  - unfold demo_access in Hv. rewrite E in Hv. exact Hv.
Defined.
