(* ===== verification/HubSocket.v ===== *)
(** The websocket endpoint of the nodes ([crates/uhorse-hub/src/web/ws.rs]): the
    registration a connection starts with and its authentication, what follows
    when it is accepted, the frames it receives, and what its end cleans up.
    Metrics and logs are left out; the codec is a parameter of the frames, which
    carry the message they decode to. *)
From S2P Require Import Prelude Float32 Json ProtocolTypes ProtocolCommand ProtocolResult ProtocolMessage Paths Channel NodeManager TaskScheduler SchedulerTheorems SessionRuntime Approval Permission Notifications Hub HubFacts Jwt NodeAuth.

Section Socket.
Context `{JsonValue}.

(** A frame, or the error of the socket; a binary or text frame with the message
    it decodes to, if any. *)
Inductive frame :=
| FMessage (decoded : option NodeToHub)
| FPing
| FClose
| FOther
| FError.

Record Registration := MkRegistration {
  rg_node_id : NodeId;
  rg_name : string;
  rg_capabilities : NodeCapabilities;
  rg_workspace : WorkspaceInfo;
  rg_auth_token : string
}.

(** The first frame decides; [None] is a closed connection or 30 seconds without
    a frame. *)
Definition wait_for_registration (first : option frame) : option Registration :=
  match first with
  | Some (FMessage (Some (NRegister _ node_id name capabilities workspace auth_token _))) =>
      Some (MkRegistration node_id name capabilities workspace auth_token)
  | _ => None
  end.

(** What the acceptance of a socket came to. *)
Inductive opening :=
| NotRegistered
| Rejected (e : HubError)
| NotConnected (e : HubError)
| AckFailed
| Opened (node : NodeId).

Context `{HashOrder, ToLowercase, !WireJson, ChannelTypeText, FileSystem, SendErrorText}.
Context `{JwtCodec Claims}.

(** [auth] is the authenticator of the security manager, which the Hub has
    exactly when it has an approver. *)
Definition authenticate_registration (now : timestamp) (auth : NodeAuthenticator) (h : Hub) (r : Registration)
    : HubResult unit :=
  match security h with
  | None => Ok tt
  | Some _ =>
      if bool_decide (rg_auth_token r = "") then Err (EPermission "Missing auth token")
      else
        let? node := Node_verify_token auth now (rg_auth_token r) in
        if negb (bool_decide (node = rg_node_id r))
        then Err (EPermission ("Token node_id " +:+ node_id_str node +:+
                               " does not match registration node_id " +:+ node_id_str (rg_node_id r)))
        else Ok tt
  end.

(** From the first frame to the acknowledgement.  [c] is the handle of the new
    channel of the socket and [ack] whether the acknowledgement could be sent;
    [None] is a panic of the dispatch. *)
Definition open_socket (env : hub_env) (auth : NodeAuthenticator) (h : Hub) (c : chan_id)
    (first : option frame) (ack : bool) : option (Hub * opening) :=
  match wait_for_registration first with
  | None => Some (h, NotRegistered)
  | Some r =>
      match authenticate_registration (he_now env) auth h r with
      | Err e => Some (h, Rejected e)
      | Ok _ =>
          let node := rg_node_id r in
          let h1 := register_node_sender (set_chans h (<[c := MkChan true []]> (node_chans h))) node c in
          match handle_node_connection env h1 node (rg_name r) (rg_capabilities r) (rg_workspace r) [] with
          | None => None
          | Some (h2, Err e) => Some (unregister_node_sender h2 node, NotConnected e)
          | Some (h2, Ok _) =>
              if ack then Some (h2, Opened node)
              else Some ((handle_node_disconnect (unregister_node_sender h2 node) node).1, AckFailed)
          end
      end
  end.

(** One frame of an open socket: the Hub after it, and whether to go on. *)
Definition receive_frame (env : hub_env) (h : Hub) (node : NodeId) (f : frame) : option (Hub * bool) :=
  match f with
  | FMessage (Some m) => (λ hr : Hub * HubResult unit, (hr.1, true)) <$> handle_node_message env h node m
  | FMessage None | FPing | FOther => Some (h, true)
  | FClose | FError => Some (h, false)
  end.

(** The frames in turn, each with its environment, up to the one that ends the
    socket. *)
Fixpoint receive_frames (h : Hub) (node : NodeId) (frames : list (hub_env * frame)) : option Hub :=
  match frames with
  | [] => Some h
  | (env, f) :: rest =>
      match receive_frame env h node f with
      | None => None
      | Some (h', true) => receive_frames h' node rest
      | Some (h', false) => Some h'
      end
  end.

(** The end of a socket, whichever of its two tasks ended first. *)
Definition close_socket (h : Hub) (node : NodeId) : Hub :=
  (handle_node_disconnect (unregister_node_sender h node) node).1.

(** A whole connection, with nothing else going on. *)
Definition handle_socket (env : hub_env) (auth : NodeAuthenticator) (h : Hub) (c : chan_id)
    (first : option frame) (ack : bool) (frames : list (hub_env * frame)) : option Hub :=
  match open_socket env auth h c first ack with
  | None => None
  | Some (h1, Opened node) => flip close_socket node <$> receive_frames h1 node frames
  | Some (h1, _) => Some h1
  end.

(** ** Many sockets at once *)

(** The Hub, the open sockets by their channel, and the sockets that were closed
    because sending failed: their receiving task is not stopped. *)
Record socket_world := MkWorld {
  wo_hub : Hub;
  wo_open : gmap chan_id NodeId;
  wo_receiving : gmap chan_id NodeId
}.

Inductive socket_step (auth : NodeAuthenticator) : socket_world → socket_world → Prop :=
| step_open env h os rs c first ack h' node :
    node_chans h !! c = None → os !! c = None →
    open_socket env auth h c first ack = Some (h', Opened node) →
    socket_step auth (MkWorld h os rs) (MkWorld h' (<[c := node]> os) rs)
| step_refuse env h os rs c first ack h' o :
    node_chans h !! c = None → open_socket env auth h c first ack = Some (h', o) → (∀ node, o ≠ Opened node) →
    socket_step auth (MkWorld h os rs) (MkWorld h' os rs)
| step_receive env h os rs c node f h' :
    os !! c = Some node ∨ rs !! c = Some node → receive_frame env h node f = Some (h', true) →
    socket_step auth (MkWorld h os rs) (MkWorld h' os rs)
| step_receive_ends h os rs c node :
    os !! c = Some node →
    socket_step auth (MkWorld h os rs) (MkWorld (close_socket h node) (delete c os) rs)
| step_send_fails h os rs c node :
    os !! c = Some node →
    socket_step auth (MkWorld h os rs) (MkWorld (close_socket h node) (delete c os) (<[c := node]> rs))
| step_submit env h os rs command context priority required tags hint h' id :
    Hub_submit_task env h command context priority required tags hint = Some (h', id) →
    socket_step auth (MkWorld h os rs) (MkWorld h' os rs)
| step_tick now h os rs :
    socket_step auth (MkWorld h os rs) (MkWorld (background_tick now h) os rs).
End Socket.

(** * Theorems

   Connections of nodes: only a node with a token of its own is connected, which
    anyone can get; and the end of an old connection takes away the new one. *)

Section Facts.
Context `{JsonValue, HashOrder, ToLowercase, !WireJson, ChannelTypeText, FileSystem, SendErrorText}.
Context `{JwtCodec Claims} {LAWS : JwtLaws Claims cl_exp}.
Implicit Types (env : hub_env) (auth : NodeAuthenticator) (h : Hub).

(** ** What the operations keep *)

Definition secured (h : Hub) : bool := bool_decide (is_Some (security h)).

(** The senders, whether there is a security manager, and the absence of nodes. *)
Record keeps (h h' : Hub) : Prop := {
  ke_senders : node_senders h' = node_senders h;
  ke_secured : secured h' = secured h;
  ke_absent k : nodes (node_manager h) !! k = None → nodes (node_manager h') !! k = None
}.

#[local] Instance keeps_preorder : PreOrder keeps.
Proof. split; [by split|]. intros h1 h2 h3 [E1 S1 A1] [E2 S2 A2]. split; [congruence..|auto]. Qed.

Lemma dispatch_keeps env h h' : dispatch_pending_tasks env h = Some h' → keeps h h'.
Proof.
  intros Hd. destruct (dispatch_spec env h) as (h2 & Hh2 & D). rewrite Hd in Hh2. injection Hh2 as <-.
  destruct D. split; [done|by unfold secured; rewrite di_security|by rewrite di_nodes].
Qed.

Lemma route_keeps env h node m : keeps h (route_node_message env h node m).1.
Proof.
  destruct m as [| | | |? [|]| | | |]; simpl; try (by split).
  - unfold update_heartbeat. destruct (nodes (node_manager h) !! node) as [info|] eqn:E; [|by split].
    split; [done..|]. intros k Hk. simpl. rewrite lookup_insert_ne; [done|congruence].
  - unfold handle_approval_request. destruct (security h) as [a|] eqn:E; [|by split].
    destruct (check_idempotency _ _ _) as [a1 [|]]; simpl; [split; simpl; unfold secured; by rewrite ?E|].
    unfold record_approval. destruct (request_approval _ _ _ _ _ _ _). split; simpl; unfold secured; by rewrite ?E.
  - destruct (unregister_node (node_manager h) _) as [nm|] eqn:E; [|by split].
    unfold unregister_node in E. destruct (nodes (node_manager h) !! _); [|done]. injection E as <-.
    split; [done..|]. intros k Hk. simpl. rewrite lookup_delete_None. auto.
  - destruct (forward_notification_to_binding _ _ _ _ _). by split.
Qed.

Lemma message_keeps env h node m h' r : handle_node_message env h node m = Some (h', r) → keeps h h'.
Proof.
  unfold handle_node_message. pose proof (route_keeps env h node m) as Hk.
  destruct (route_node_message env h node m) as [h1 [u|e]]; simpl in Hk; [|by intros [= <- <-]].
  destruct (should_dispatch m); [|by intros [= <- <-]].
  destruct (dispatch_pending_tasks env h1) eqn:E; [|done]. intros [= <- <-].
  etrans; [exact Hk|by eapply dispatch_keeps].
Qed.

Lemma frame_keeps env h node f h' go : receive_frame env h node f = Some (h', go) → keeps h h'.
Proof.
  destruct f as [[m|]| | | |]; simpl; [|by intros [= <- <-]..].
  destruct (handle_node_message env h node m) as [[h1 r]|] eqn:E; [|done]. intros [= <- <-].
  by eapply message_keeps.
Qed.

Lemma submit_keeps env h command context p required tags hint h' id :
  Hub_submit_task env h command context p required tags hint = Some (h', id) → keeps h h'.
Proof.
  unfold Hub_submit_task. destruct (submit_task _ _ _ _ _ _ _ _) as [s id'].
  destruct (dispatch_pending_tasks _ _) as [h1|] eqn:E; [|done]. intros [= <- <-].
  apply dispatch_keeps in E. destruct E. by split.
Qed.

Lemma tick_keeps now h : keeps h (background_tick now h).
Proof.
  split; [done..|]. intros k Hk. simpl. rewrite lookup_fmap, Hk. done.
Qed.

(** ** Opening and closing *)

Lemma close_socket_gone h node :
  node_senders (close_socket h node) = delete node (node_senders h) ∧
  nodes (node_manager (close_socket h node)) = delete node (nodes (node_manager h)) ∧
  secured (close_socket h node) = secured h.
Proof.
  unfold close_socket, handle_node_disconnect, unregister_node. simpl.
  destruct (nodes (node_manager h) !! node) eqn:E; simpl; split_and!; try done.
  by rewrite delete_id.
Qed.

Lemma connection_inv env h node name caps ws tags h' r :
  handle_node_connection env h node name caps ws tags = Some (h', r) →
  node_senders h' = node_senders h ∧ secured h' = secured h ∧
  (∀ k, k ≠ node → nodes (node_manager h) !! k = None → nodes (node_manager h') !! k = None) ∧
  match r with Ok _ => is_Some (nodes (node_manager h') !! node) | Err _ => h' = h end.
Proof.
  unfold handle_node_connection, register_node. destruct (_ && _); [by intros [= <- <-]|].
  destruct (dispatch_pending_tasks _ _) as [h1|] eqn:E; [|done]. intros [= <- <-].
  match type of E with dispatch_pending_tasks ?e ?x = _ => destruct (dispatch_spec e x) as (h2 & Hh2 & []) end.
  rewrite E in Hh2. injection Hh2 as <-. simpl in *. rewrite di_nodes. simpl. unfold secured. rewrite di_security. split_and!; try done.
  - intros k Hk. by rewrite lookup_insert_ne.
  - by rewrite lookup_insert_eq.
Qed.

(** What an opening does, by its outcome. *)
Lemma open_socket_inv env auth h c first ack h' o :
  open_socket env auth h c first ack = Some (h', o) →
  (h' = h ∧ (∀ node, o ≠ Opened node)) ∨
  ∃ r, wait_for_registration first = Some r ∧ authenticate_registration (he_now env) auth h r = Ok tt ∧
    secured h' = secured h ∧
    (∀ k, k ≠ rg_node_id r → nodes (node_manager h) !! k = None → nodes (node_manager h') !! k = None) ∧
    match o with
    | Opened node => node = rg_node_id r ∧ node_senders h' = <[node := c]> (node_senders h) ∧
        is_Some (nodes (node_manager h') !! node)
    | _ => node_senders h' = delete (rg_node_id r) (node_senders h) ∧
        (nodes (node_manager h) !! rg_node_id r = None → nodes (node_manager h') !! rg_node_id r = None)
    end.
Proof.
  unfold open_socket. destruct (wait_for_registration first) as [r|]; [|intros [= <- <-]; by left].
  destruct (authenticate_registration _ _ _ _) as [[]|e] eqn:Ea; [|intros [= <- <-]; by left].
  destruct (handle_node_connection _ _ _ _ _ _ _) as [[h2 res]|] eqn:E; [|done].
  apply connection_inv in E as (Es & Esec & Habs & Hr). intros Ho. right. exists r. split; [done|]. split; [done|].
  destruct res as [u|e].
  - destruct ack; injection Ho as <- <-; [by split_and!|].
    destruct (close_socket_gone h2 (rg_node_id r)) as (Es' & En' & Esec'). unfold close_socket in *.
    rewrite Es', En', Esec', Es. simpl. split_and!; [done| |by rewrite delete_insert_eq|by intros _; rewrite lookup_delete_eq].
    intros k Hk Hn. rewrite lookup_delete_None. auto.
  - injection Ho as <- <-. subst h2. simpl. split_and!; [done..|by rewrite delete_insert_eq|done].
Qed.

(** A frame that opens a socket names a node whose token was shown. *)
Lemma registration_shown now auth h r :
  authenticate_registration now auth h r = Ok tt → secured h = true →
  rg_auth_token r ≠ "" ∧ Node_verify_token auth now (rg_auth_token r) = Ok (rg_node_id r).
Proof.
  unfold authenticate_registration, secured. destruct (security h); [|by intros _ ?%bool_decide_eq_true%is_Some_None].
  case_bool_decide; [done|]. intros (n & Hn & Hc)%result_bind_ok _. case_bool_decide; [by subst|done].
Qed.

(** ** Only nodes with a token are connected *)

(** The step from [w1] to [w2] opened the socket on [c] for the node: its first frame
    was the node's registration, with a token that verified then as that node. *)
Definition opened_with_token auth (node : NodeId) (c : chan_id) (w1 w2 : socket_world) : Prop :=
  wo_open w1 !! c = None ∧ wo_open w2 !! c = Some node ∧
  ∃ env mid name caps ws token ts ack,
    open_socket env auth (wo_hub w1) c (Some (FMessage (Some (NRegister mid node name caps ws token ts)))) ack
    = Some (wo_hub w2, Opened node) ∧
    token ≠ "" ∧ Node_verify_token auth (he_now env) token = Ok node.

Lemma registration_frame first r :
  wait_for_registration first = Some r →
  ∃ mid ts, first = Some (FMessage (Some (NRegister mid (rg_node_id r) (rg_name r) (rg_capabilities r) (rg_workspace r)
    (rg_auth_token r) ts))).
Proof. destruct first as [[[[]|]| | | |]|]; simpl; try done. intros [= <-]. simpl. eauto. Qed.

(** C19. Every channel the Hub can send to a node on is a socket that the node opened
    with a token of its own: whatever sockets open, speak, break or close, in any
    order, with tasks submitted and timeouts swept in between, at some point of the
    run the socket on that very channel was opened by a registration frame of that
    node whose token was there and verified, at that moment, as that node.  (The secret and
    the revoked tokens of the authenticator are the same throughout the run.) *)
Theorem connected_nodes_showed_token auth w0 w node c :
  secured (wo_hub w0) = true → node_senders (wo_hub w0) = ∅ →
  rtc (socket_step auth) w0 w → node_senders (wo_hub w) !! node = Some c →
  ∃ w1 w2, rtc (socket_step auth) w0 w1 ∧ socket_step auth w1 w2 ∧ opened_with_token auth node c w1 w2 ∧
    rtc (socket_step auth) w2 w.
Proof.
  intros Hsec Hempty Hr.
  assert (∀ w, rtc (socket_step auth) w0 w → secured (wo_hub w) = true ∧
    ∀ n c, node_senders (wo_hub w) !! n = Some c →
      ∃ w1 w2, rtc (socket_step auth) w0 w1 ∧ socket_step auth w1 w2 ∧ opened_with_token auth n c w1 w2 ∧
        rtc (socket_step auth) w2 w) as Hinv; [|by apply Hinv].
  clear w Hr. apply rtc_ind_r; [by rewrite Hempty|]. intros w1 w2 Hrun Hs [IHsec IHs].
  assert (∀ n c, node_senders (wo_hub w1) !! n = Some c →
      ∃ v1 v2, rtc (socket_step auth) w0 v1 ∧ socket_step auth v1 v2 ∧ opened_with_token auth n c v1 v2 ∧
        rtc (socket_step auth) v2 w2) as Hold.
  { intros n ck Hk. destruct (IHs n ck Hk) as (v1 & v2 & ? & ? & ? & Hv). exists v1, v2. split_and!; try done.
    by eapply rtc_r. }
  clear IHs. pose proof Hs as Hstep.
  destruct Hs as [env h os rs c' first ack h' n Hc' Hfresh Ho|env h os rs c' first ack h' o _ Ho Hne|env h os rs c' n f h' _ Hf
    |h os rs c' n _|h os rs c' n _|env h os rs command context p required tags hint h' id Hsub|now h os rs]; simpl in *.
  - apply open_socket_inv in Ho as Hinv. destruct Hinv as [[-> Hno]|(r & Hw & Ha & -> & _ & -> & -> & _)]; [by destruct (Hno n)|].
    split; [done|]. intros k ck [[<- <-]|[_ Hk]]%lookup_insert_Some; [|by apply Hold].
    destruct (registration_shown _ _ _ _ Ha IHsec) as [Ht Hv]. destruct (registration_frame _ _ Hw) as (mid & ts & ->).
    eexists _, _. split; [exact Hrun|]. split; [exact Hstep|]. split; [|done]. split; [done|]. split; [apply lookup_insert_eq|].
    simpl. by eexists _, _, _, _, _, _, _, _.
  - apply open_socket_inv in Ho as [[-> _]|(r & _ & _ & -> & _ & Hs)]; [done|]. split; [done|].
    destruct o; try (by destruct (Hne node0)); destruct Hs as [-> _]; intros k ck [_ Hk]%lookup_delete_Some; by apply Hold.
  - apply frame_keeps in Hf as []. rewrite ke_senders0, ke_secured0. done.
  - destruct (close_socket_gone h n) as (-> & _ & ->). split; [done|]. intros k ck [_ Hk]%lookup_delete_Some. by apply Hold.
  - destruct (close_socket_gone h n) as (-> & _ & ->). split; [done|]. intros k ck [_ Hk]%lookup_delete_Some. by apply Hold.
  - apply submit_keeps in Hsub as []. rewrite ke_senders0, ke_secured0. done.
  - by split.
Qed.

(** ** Taking over *)

Lemma known_node_connects env h node name caps ws tags :
  is_Some (nodes (node_manager h) !! node) →
  ∃ h', handle_node_connection env h node name caps ws tags = Some (h', Ok tt).
Proof.
  intros [info Hi]. unfold handle_node_connection, register_node. rewrite Hi.
  rewrite (bool_decide_false (Some info = None)), andb_false_r by done.
  match goal with |- context [dispatch_pending_tasks ?e ?x] => destruct (dispatch_spec e x) as (h2 & -> & _) end.
  by exists h2.
Qed.

(** Anyone takes over a node: a caller of the token endpoint, with whatever
    credentials that are not empty, gets a token for any node, and a socket that
    registers with it receives what the Hub sends to that node from then on, in
    place of the node that is connected. *)
Theorem anyone_takes_over_node aenv env auth auth' info h node credentials c mid name caps ws ts :
  let made := unix_seconds (mt_now (ae_mint1 aenv) + seconds (as_i64 (ja_default_expiry (na_jwt_service auth)))) in
  authenticate_node aenv auth node credentials = (auth', Ok info) →
  (0 ≤ made < 2 ^ 64)%Z → (unix_seconds (he_now env) ≤ made + 60)%Z →
  generate_jti (mt_jti_nanos (ae_mint1 aenv)) ∉ ja_revoked (na_jwt_service auth) →
  nai_access_token info ≠ "" → is_Some (nodes (node_manager h) !! node) →
  ∃ h', open_socket env auth' h c
      (Some (FMessage (Some (NRegister mid node name caps ws (nai_access_token info) ts)))) true
    = Some (h', Opened node) ∧ node_senders h' !! node = Some c.
Proof.
  intros made Hauth Hm Hn Hj Hne Hi.
  pose proof (authenticated_token_verifies _ _ _ _ _ _ (he_now env) Hauth Hm Hn Hj) as Hv.
  unfold open_socket. simpl. unfold authenticate_registration. simpl.
  rewrite bool_decide_false, Hv by done. simpl. rewrite bool_decide_true by done. simpl.
  set (h1 := register_node_sender _ _ _).
  destruct (known_node_connects env h1 node name caps ws [] Hi) as [h2 Hc].
  assert (node_senders h2 !! node = Some c) as Hs.
  { apply connection_inv in Hc as (-> & _). apply lookup_insert_eq. }
  destruct (security h); rewrite Hc; eauto.
Qed.

(** ** Reconnecting *)

(** The Hub cannot reach the node and does not know it. *)
Definition gone (node : NodeId) (h : Hub) : Prop :=
  node_senders h !! node = None ∧ nodes (node_manager h) !! node = None.

(** Steps in which the node does not open a socket. *)
Definition quiet_step auth (node : NodeId) (w w' : socket_world) : Prop :=
  socket_step auth w w' ∧ ∀ c, wo_open w' !! c = Some node → wo_open w !! c = Some node.

Lemma keeps_gone node h h' : keeps h h' → gone node h → gone node h'.
Proof. intros [E _ A] [Hs Hn]. split; [by rewrite E|by apply A]. Qed.

Lemma close_gone node k h : gone node h → gone node (close_socket h k).
Proof.
  destruct (close_socket_gone h k) as (Es & En & _). intros [Hs Hn]. split; rewrite ?Es, ?En, lookup_delete_None; auto.
Qed.

Lemma quiet_step_gone auth node w w' : quiet_step auth node w w' → gone node (wo_hub w) → gone node (wo_hub w').
Proof.
  intros [Hs Hq]. destruct Hs as [env h os rs c' first ack h' n _ Hfresh Ho|env h os rs c' first ack h' o _ Ho Hne
    |env h os rs c' n f h' _ Hf|h os rs c' n _|h os rs c' n _|env h os rs command context p required tags hint h' id Hsub
    |now h os rs]; simpl in *.
  - apply open_socket_inv in Ho as [[-> Hno]|(r & _ & _ & _ & Habs & -> & Es & _)]; [by destruct (Hno n)|].
    intros [Hsn Hn]. destruct (decide (node = rg_node_id r)) as [->|Hne].
    { specialize (Hq c' (lookup_insert_eq _ _ _)). congruence. }
    split; [by rewrite Es, lookup_insert_ne|by apply Habs].
  - apply open_socket_inv in Ho as [[-> _]|(r & _ & _ & _ & Habs & Hs)]; [done|]. intros [Hsn Hn].
    destruct o; try (by destruct (Hne node0)); destruct Hs as [Es Hr];
      (split; [rewrite Es, lookup_delete_None; auto|
               destruct (decide (node = rg_node_id r)) as [->|]; [by apply Hr|by apply Habs]]).
  - eapply keeps_gone, frame_keeps, Hf.
  - apply close_gone.
  - apply close_gone.
  - eapply keeps_gone, submit_keeps, Hsub.
  - apply keeps_gone, tick_keeps.
Qed.

(** The end of an old connection takes away the new one: when a node reconnected
    before its first socket ended, the end of the first leaves the second open but
    the Hub without sender and registration for the node, and so it stays,
    whatever happens, until the node opens a third. *)
Theorem stale_socket_disconnects_node auth h os rs c1 c2 node w :
  os !! c1 = Some node → os !! c2 = Some node → c1 ≠ c2 →
  let closed := MkWorld (close_socket h node) (delete c1 os) rs in
  socket_step auth (MkWorld h os rs) closed ∧ wo_open closed !! c2 = Some node ∧
  (rtc (quiet_step auth node) closed w → gone node (wo_hub w)).
Proof.
  intros Hc1 Hc2 Hne closed. split; [by constructor|]. split; [simpl; by rewrite lookup_delete_ne|].
  assert (gone node (wo_hub closed)) as Hg.
  { simpl. destruct (close_socket_gone h node) as (Es & En & _). split; by rewrite ?Es, ?En, lookup_delete_eq. }
  revert Hg. generalize closed. intros w1 Hg Hr. revert Hg. induction Hr as [|w1 w2 w Hs _ IH]; [done|].
  intros Hg. by eapply IH, quiet_step_gone.
Qed.

(** What the second socket then says of its load is refused and changes nothing. *)
Theorem gone_node_heartbeat_refused env h node mid id status load ts :
  gone node h → handle_node_message env h node (NHeartbeat mid id status load ts) = Some (h, Err (NodeNotFound node)).
Proof.
  intros [_ Hn]. unfold handle_node_message. simpl. unfold update_heartbeat. by rewrite Hn.
Qed.

(** A socket that is not accepted leaves no sender for its node, and a socket
    that is refused before it is authenticated leaves nothing at all. *)
Theorem refused_socket_leaves_no_sender env auth h c first ack h' o :
  open_socket env auth h c first ack = Some (h', o) → (∀ node, o ≠ Opened node) →
  h' = h ∨ ∃ r, wait_for_registration first = Some r ∧ node_senders h' = delete (rg_node_id r) (node_senders h).
Proof.
  intros [[-> _]|(r & Hw & _ & _ & _ & Hs)]%open_socket_inv Hne; [by left|right]. exists r. split; [done|].
  destruct o; try (by destruct (Hne node)); apply Hs.
Qed.

(** A socket that is accepted stands for a node that is registered, reachable on
    the channel of the socket, and showed its token where there is security. *)
Theorem opened_socket_is_connected env auth h c first ack h' node :
  open_socket env auth h c first ack = Some (h', Opened node) →
  node_senders h' !! node = Some c ∧ is_Some (nodes (node_manager h') !! node) ∧
  (secured h = true → ∃ mid name caps ws token ts,
     first = Some (FMessage (Some (NRegister mid node name caps ws token ts))) ∧ token ≠ "" ∧
     Node_verify_token auth (he_now env) token = Ok node).
Proof.
  intros [[_ Hno]|(r & Hw & Ha & _ & _ & -> & -> & Hn)]%open_socket_inv; [by destruct (Hno node)|].
  split; [apply lookup_insert_eq|]. split; [done|]. intros Hs.
  destruct (registration_shown _ _ _ _ Ha Hs), (registration_frame _ _ Hw) as (mid & ts & ->). by eexists _, _, _, _, _, _.
Qed.

(** A connection that opens and ends leaves the Hub without the node. *)
Theorem socket_lifetime env auth h c first ack frames h1 h2 h' node :
  open_socket env auth h c first ack = Some (h1, Opened node) → receive_frames h1 node frames = Some h2 →
  handle_socket env auth h c first ack frames = Some h' → h' = close_socket h2 node ∧ gone node h'.
Proof.
  intros Ho Hf. unfold handle_socket. rewrite Ho, Hf. simpl. intros [= <-]. split; [done|].
  destruct (close_socket_gone h2 node) as (Es & En & _). split; by rewrite ?Es, ?En, lookup_delete_eq.
Qed.
End Facts.

(** ** A concrete Hub: the node ["n1"] connects, and connects again *)

#[local] Existing Instance json_trees.
#[local] Existing Instance canonical_order.
#[local] Existing Instance demo_files.
#[local] Existing Instance demo_text.
#[local] Existing Instance demo_wire.
#[local] Existing Instance demo_lower.
#[local] Existing Instance demo_channels.
#[local] Existing Instance claims_jwt.
#[local] Existing Instance claims_laws.

Definition socket_hub : Hub :=
  Hub_new_with_components HubConfig_default 0 (Some demo_approver_state) ∅ (NotificationBindingManager_new []).
Definition socket_env : hub_env := demo_hub_env "u".
Definition register_frame (token : string) : option frame :=
  Some (FMessage (Some (NRegister (MkMessageId "m") (MkNodeId "n1") "n1" NodeCapabilities_default (demo_ws "w") token 0))).
Definition demo_open (h : Hub) (c : chan_id) : Hub :=
  match open_socket socket_env demo_authenticated.1 h c (register_frame demo_access) true with
  | Some (h', _) => h'
  | None => h
  end.
Definition connected_once : Hub := demo_open socket_hub 7.
Definition connected_twice : Hub := demo_open connected_once 8.
Definition twice_open : gmap chan_id NodeId := <[8 := MkNodeId "n1"]> {[7 := MkNodeId "n1"]}.

Lemma demo_open_spec h c :
  snd <$> open_socket socket_env demo_authenticated.1 h c (register_frame demo_access) true
  = Some (Opened (MkNodeId "n1")) →
  open_socket socket_env demo_authenticated.1 h c (register_frame demo_access) true
  = Some (demo_open h c, Opened (MkNodeId "n1")).
Proof. unfold demo_open. destruct (open_socket _ _ _ _ _ _) as [[h' o]|]; [|done]. by intros [= ->]. Qed.

Lemma opened_once :
  open_socket socket_env demo_authenticated.1 socket_hub 7 (register_frame demo_access) true
  = Some (connected_once, Opened (MkNodeId "n1")).
Proof. apply demo_open_spec. vm_compute. reflexivity. Qed.
Lemma opened_twice :
  open_socket socket_env demo_authenticated.1 connected_once 8 (register_frame demo_access) true
  = Some (connected_twice, Opened (MkNodeId "n1")).
Proof. apply demo_open_spec. vm_compute. reflexivity. Qed.

Lemma demo_opens :
  rtc (socket_step demo_authenticated.1) (MkWorld socket_hub ∅ ∅) (MkWorld connected_twice twice_open ∅).
Proof.
  assert (node_chans connected_once !! 8 = None) as H8 by (vm_compute; reflexivity).
  eapply rtc_l; [exact (step_open _ _ _ ∅ ∅ 7 _ _ _ _ (lookup_empty _) (lookup_empty _) opened_once)|].
  apply rtc_once.
  exact (step_open _ _ _ _ ∅ 8 _ _ _ _ H8 (lookup_singleton_ne 7 8 _ ltac:(done)) opened_twice).
Qed.

Lemma connected_nodes_showed_token_witness :
  node_senders connected_twice !! MkNodeId "n1" = Some 8 ∧
  ∃ w1 w2, opened_with_token demo_authenticated.1 (MkNodeId "n1") 8 w1 w2.
Proof.
  assert (node_senders connected_twice !! MkNodeId "n1" = Some 8) as Hc by (vm_compute; reflexivity).
  split; [exact Hc|].
  destruct (connected_nodes_showed_token demo_authenticated.1 (MkWorld socket_hub ∅ ∅) (MkWorld connected_twice twice_open ∅)
    (MkNodeId "n1") 8 eq_refl eq_refl demo_opens Hc) as (w1 & w2 & _ & _ & Hw & _).
  exists w1, w2. exact Hw.
Defined.

Lemma stale_socket_disconnects_node_witness :
  node_senders connected_twice !! MkNodeId "n1" = Some 8 ∧
  gone (MkNodeId "n1") (close_socket connected_twice (MkNodeId "n1")).
Proof.
  split; [vm_compute; reflexivity|].
  destruct (stale_socket_disconnects_node demo_authenticated.1 connected_twice twice_open ∅ 7 8 (MkNodeId "n1")
    (MkWorld (close_socket connected_twice (MkNodeId "n1")) (delete 7 twice_open) ∅)) as (_ & _ & Hg);
    [vm_compute; reflexivity|vm_compute; reflexivity|done|].
  apply Hg. constructor.
Defined.

Lemma anyone_takes_over_node_witness :
  ∃ h', open_socket socket_env demo_authenticated.1 connected_once 9 (register_frame demo_access) true
    = Some (h', Opened (MkNodeId "n1")) ∧ node_senders h' !! MkNodeId "n1" = Some 9.
Proof.
  destruct demo_authenticated as [auth' [info|e]] eqn:E; [|vm_compute in E; discriminate].
  assert (demo_access = nai_access_token info) as Ht by (unfold demo_access; by rewrite E).
  assert (nai_access_token info ≠ "") as Hne by (rewrite <-Ht; intros Hx; vm_compute in Hx; discriminate).
  rewrite Ht.
  apply (anyone_takes_over_node (auth_at 0) socket_env demo_authenticator auth' info connected_once (MkNodeId "n1") "x" 9
    (MkMessageId "m") "n1" NodeCapabilities_default (demo_ws "w") 0).
  - exact E.
  - vm_compute; split; [discriminate|reflexivity].
  - vm_compute; discriminate.
  - set_solver.
  - exact Hne.
  - eexists. vm_compute; reflexivity.
Defined.
