(* ===== verification/WebApi.v ===== *)
(** The HTTP endpoints of the Hub that change its state ([crates/uhorse-hub/src/web/mod.rs]):
    approvals, tokens and accounts of nodes, their permission rules, the
    cancellation of a task, and the pairing command of the chat.  A response is a
    status with the body; audit events and metrics are left out. *)
From S2P Require Import Prelude Text Float32 Json ProtocolTypes ProtocolCommand ProtocolResult.
From S2P Require Import ProtocolMessage Channel Paths NodeManager TaskScheduler.
From S2P Require Import SessionRuntime Approval Notifications Permission Hub Jwt NodeAuth Pairing Planner.

(** The display of the errors. *)
Definition HubError_display (e : HubError) : string :=
  match e with
  | NodeNotFound id => "Node not found: " +:+ node_id_str id
  | NodeLimitReached => "Maximum number of nodes reached"
  | ENode m => "Node error: " +:+ m
  | ETask m => "Task error: " +:+ m
  | ESchedule m => "Schedule error: " +:+ m
  | ECommunication m => "Communication error: " +:+ m
  | ETimeout m => "Timeout: " +:+ m
  | EPermission m => "Permission denied: " +:+ m
  | EConfig m => "Config error: " +:+ m
  | ESerialization m => "Serialization error: " +:+ m
  | EIo m => "IO error: " +:+ m
  | EInternal m => "Internal error: " +:+ m
  | ENotImplemented m => "Not implemented: " +:+ m
  end.
Definition PairingError_display (e : PairingError) : string :=
  match e with
  | PInternalError m => "Internal error: " +:+ m
  | PDeviceNotPaired id => "Device not paired: " +:+ id
  end.

(** [DateTime::to_rfc3339]. *)
Class TimeText := rfc3339 : timestamp → string.

(** *** Bodies *)

Record ApiResponse (T : Type) := MkApiResponse { ar_success : bool; ar_data : option T; ar_error : option string }.
Arguments MkApiResponse {T}.
Arguments ar_success {T}.
Arguments ar_data {T}.
Arguments ar_error {T}.
Definition api_success {T} (data : T) : ApiResponse T := MkApiResponse true (Some data) None.
Definition api_error {T} (message : string) : ApiResponse T := MkApiResponse false None (Some message).

(** Status and body. *)
Abbreviation response T := (Z * ApiResponse T)%type.

Record ApprovalDecisionPayload := MkDecision { ad_responder : string; ad_reason : option string }.
Record IssueNodeTokenPayload := MkIssueNodeToken { it_node_id : string; it_credentials : string }.
Record IssueNodeTokenResponse := MkIssued {
  ir_node_id : string;
  ir_access_token : string;
  ir_refresh_token : string;
  ir_expires_at : string
}.
Record StartPairingPayload := MkStartPairing {
  sp_node_id : string;
  sp_node_name : option string;
  sp_device_type : option string
}.
Record PairingRequestResponse := MkPairingResponse {
  pp_request_id : string;
  pp_node_id : string;
  pp_node_name : string;
  pp_device_type : string;
  pp_pairing_code : string;
  pp_status : string;
  pp_created_at : Z;
  pp_expires_at : Z;
  pp_bound_user_id : option string
}.
Record AccountStatusResponse := MkAccountStatus {
  ac_node_id : string;
  ac_pairing_enabled : bool;
  ac_bound_user_id : option string;
  ac_pairing : option PairingRequestResponse
}.

Definition pairing_status_label (status : PairingStatus) : string :=
  match status with
  | PsPending => "pending"
  | PsAwaitingConfirmation => "awaiting_confirmation"
  | PsPaired => "paired"
  | PsRejected => "rejected"
  | PsExpired => "expired"
  | PsCancelled => "cancelled"
  end.

Definition six_digits (s : string) : bool :=
  bool_decide (String.length s = 6) &&
  str_forallb (λ c, bool_decide (48 ≤ byte_of c ∧ byte_of c ≤ 57)) s.

(** [a.or_else(b)] on prefixes. *)
Fixpoint strip_first (prefixes : list string) (s : string) : option string :=
  match prefixes with
  | [] => None
  | p :: rest => match strip_prefix p s with Some r => Some r | None => strip_first rest s end
  end.

Definition resolve_pairing_command (text : string) : option string :=
  let trimmed := str_trim text in
  if six_digits trimmed then Some trimmed
  else
    let normalized := match strip_first ["绑定码"; "pair"; "bind"] trimmed with
                      | Some r => str_trim r
                      | None => trimmed
                      end in
    if six_digits normalized then Some normalized else None.

Section Api.
Context `{JsonValue, !JsonShape, HashOrder, ToLowercase, !WireJson, ChannelTypeText, FileSystem, SendErrorText}.
Context `{JwtCodec Claims, !TimeText}.

Definition pairing_request_response (r : PairingRequest) : PairingRequestResponse :=
  MkPairingResponse (pq_request_id r) (pq_device_id r) (pq_device_name r) (pq_device_type r) (pq_pairing_code r)
    (pairing_status_label (pq_status r)) (pq_created_at r) (pq_expires_at r) (pq_user_id r).

(** The Hub with what the endpoints use besides: the authenticator of its security
    manager, and the pairing manager, if any. *)
Record ApiState := MkApiState {
  as_hub : Hub;
  as_auth : NodeAuthenticator;
  as_pairing : option DevicePairingManager
}.
Definition set_api_hub (st : ApiState) (h : Hub) : ApiState := MkApiState h (as_auth st) (as_pairing st).
Definition set_api_pairing (st : ApiState) (p : DevicePairingManager) : ApiState :=
  MkApiState (as_hub st) (as_auth st) (Some p).
Definition set_hub_bindings (h : Hub) (b : NotificationBindingManager) : Hub :=
  MkHub (hub_config h) (hub_started_at h) (node_manager h) (task_scheduler h) (channel_registry h)
    (node_senders h) (node_chans h) b (session_runtime h) (security h) (sent_notifications h).

Definition no_security {T} : response T := (503%Z, api_error "Security manager not configured").
Definition no_pairing {T} : response T := (503%Z, api_error "Pairing manager not configured").

(** ** Approvals *)

Definition list_approvals (st : ApiState) : response (list ApprovalRequest) :=
  match security (as_hub st) with
  | None => no_security
  | Some a => (200%Z, api_success (list_pending (oa_manager a)))
  end.

Definition get_approval (st : ApiState) (request_id : string) : response ApprovalRequest :=
  match security (as_hub st) with
  | None => no_security
  | Some a =>
      match get_request (oa_manager a) request_id with
      | Some r => (200%Z, api_success r)
      | None => (404%Z, api_error "Approval not found")
      end
  end.

(** A text of the metadata. *)
Definition metadata_str (request : ApprovalRequest) (key : string) : option string :=
  get (rq_metadata request) key ≫= as_str.

Definition notify_node_approval_decision (mid : MessageId) (now : timestamp) (h : Hub)
    (request : ApprovalRequest) (payload : ApprovalDecisionPayload) (approved : bool) : Hub * HubResult unit :=
  match MkNodeId <$> metadata_str request "node_id" with
  | None => (h, Err (EInternal "Approval request missing node_id metadata"))
  | Some node =>
      let request_id := default (rq_id request) (metadata_str request "request_id") in
      match node_senders h !! node with
      | None => (h, Err (NodeNotFound node))
      | Some sender =>
          match chan_send (node_chans h) sender
                  (ApprovalResponse mid request_id approved (ad_responder payload) (ad_reason payload) now) with
          | Some chans => (set_chans h chans, Ok tt)
          | None =>
              (h, Err (ECommunication ("Failed to send message to " +:+ node_id_str node +:+ ": " +:+ send_error_display)))
          end
      end
  end.

(** The transcript of the session the task of the request is bound to. *)
Definition note_decision (now : timestamp) (s : SessionRuntimeManager) (request : ApprovalRequest)
    (request_id : string) (payload : ApprovalDecisionPayload) (approved : bool) : SessionRuntimeManager :=
  match metadata_str request "task_id" with
  | Some task =>
      match find_task_binding s (MkTaskId task) with
      | Some binding =>
          append_transcript_event s now (tb_session_key binding)
            (if approved then ApprovalApproved else ApprovalRejected)
            ("request_id=" +:+ request_id +:+ "; responder=" +:+ ad_responder payload)
      | None => s
      end
  | None => s
  end.

Definition decide_approval (env : hub_env) (mid : MessageId) (st : ApiState) (request_id : string)
    (payload : ApprovalDecisionPayload) (approved : bool) : ApiState * response ApprovalRequest :=
  let h := as_hub st in
  match security h with
  | None => (st, no_security)
  | Some a =>
      match get_request (oa_manager a) request_id with
      | None => (st, (404%Z, api_error "Approval not found"))
      | Some existing =>
          let '(a1, r) := (if approved then oa_approve else oa_reject) (he_secs env) a request_id
                            (ad_responder payload) (ad_reason payload) in
          let h1 := set_security h (Some a1) in
          match r with
          | Err e => (set_api_hub st h1, (500%Z, api_error (HubError_display e)))
          | Ok _ =>
              match get_request (oa_manager a1) request_id with
              | None => (set_api_hub st h1, (500%Z, api_error "Approval disappeared after decision"))
              | Some updated =>
                  let h2 := set_session_runtime h1
                      (note_decision (he_now env) (session_runtime h1) existing request_id payload approved) in
                  let '(h3, n) := notify_node_approval_decision mid (he_now env) h2 existing payload approved in
                  (set_api_hub st h3,
                   match n with
                   | Err e => (500%Z, api_error (HubError_display e))
                   | Ok _ => (200%Z, api_success updated)
                   end)
              end
          end
      end
  end.

Definition approve_approval env mid st request_id payload := decide_approval env mid st request_id payload true.
Definition reject_approval env mid st request_id payload := decide_approval env mid st request_id payload false.

(** ** Nodes and tasks *)

Definition list_nodes (st : ApiState) : response (list NodeInfo) :=
  (200%Z, api_success (get_all_nodes (node_manager (as_hub st)))).

Definition api_get_node (st : ApiState) (node_id : string) : response (option NodeInfo) :=
  match List.find (λ n, bool_decide (node_id_str (ni_node_id n) = node_id)) (get_all_nodes (node_manager (as_hub st))) with
  | Some n => (200%Z, api_success (Some n))
  | None => (404%Z, api_error "Node not found")
  end.

Definition update_node_permissions (mid : MessageId) (st : ApiState) (node_id : string)
    (rules : list WirePermissionRule) : ApiState * response string :=
  let h := as_hub st in
  match node_senders h !! MkNodeId node_id with
  | None => (st, (404%Z, api_error "Node not found"))
  | Some sender =>
      match chan_send (node_chans h) sender (PermissionUpdate mid rules) with
      | Some chans => (set_api_hub st (set_chans h chans), (200%Z, api_success "Permission update sent"))
      | None =>
          (st, (500%Z, api_error (HubError_display
             (ECommunication ("Failed to send message to " +:+ node_id +:+ ": " +:+ send_error_display)))))
      end
  end.

(** The turn is cancelled first, then the task. *)
Definition cancel_task (env : hub_env) (st : ApiState) (task_id : string) : ApiState * response string :=
  let h := as_hub st in
  let task := MkTaskId task_id in
  let h1 := match find_task_binding (session_runtime h) task with
            | Some binding =>
                set_session_runtime h (cancel_turn (session_runtime h) (he_now env) (tb_session_key binding))
            | None => h
            end in
  let '(h2, r) := Hub_cancel_task env h1 task "User cancelled" in
  (set_api_hub st h2,
   match r with
   | Ok _ => (200%Z, api_success "Task cancelled")
   | Err e => (500%Z, api_error (HubError_display e))
   end).

(** ** Tokens and accounts of nodes *)

Definition issue_node_token (env : auth_env) (st : ApiState) (payload : IssueNodeTokenPayload)
    : ApiState * response IssueNodeTokenResponse :=
  match security (as_hub st) with
  | None => (st, no_security)
  | Some _ =>
      let '(auth, r) := authenticate_node env (as_auth st) (MkNodeId (it_node_id payload)) (it_credentials payload) in
      (MkApiState (as_hub st) auth (as_pairing st),
       match r with
       | Ok info =>
           (200%Z, api_success (MkIssued (node_id_str (nai_node_id info)) (nai_access_token info)
                                  (nai_refresh_token info) (rfc3339 (nai_expires_at info))))
       | Err e => (400%Z, api_error (HubError_display e))
       end)
  end.

Definition BEARER_AUTH_PREFIX : string := "Bearer ".

(** [header] is the authorization header, when it is a text. *)
Definition authorize_account_api_node (now : timestamp) (st : ApiState) (header : option string)
    (requested : string) : Result unit (Z * string) :=
  match security (as_hub st) with
  | None => Err (503%Z, "Security manager not configured")
  | Some _ =>
      let? auth_header := ok_or header (401%Z, "Missing Authorization header") in
      let? rest := ok_or (strip_prefix BEARER_AUTH_PREFIX auth_header) (401%Z, "Invalid Authorization header") in
      let token := str_trim rest in
      if bool_decide (token = "") then Err (401%Z, "Missing bearer token")
      else
        match Node_verify_token (as_auth st) now token with
        | Err _ => Err (401%Z, "Token verification failed")
        | Ok node =>
            if bool_decide (node_id_str node = requested) then Ok tt
            else Err (403%Z, "Token node_id does not match requested node_id")
        end
  end.

(** [uuid], [random] and [secs] are the readings of a new pairing request. *)
Definition start_account_pairing (now : timestamp) (uuid : string) (random secs : Z) (st : ApiState)
    (header : option string) (payload : StartPairingPayload) : ApiState * response PairingRequestResponse :=
  match authorize_account_api_node now st header (sp_node_id payload) with
  | Err (status, message) => (st, (status, api_error message))
  | Ok _ =>
      match as_pairing st with
      | None => (st, no_pairing)
      | Some pm =>
          let '(pm', r) := initiate_pairing pm uuid random secs (sp_node_id payload)
              (default (sp_node_id payload) (sp_node_name payload)) (default "desktop" (sp_device_type payload)) in
          (set_api_pairing st pm',
           match r with
           | Ok request => (200%Z, api_success (pairing_request_response request))
           | Err e => (400%Z, api_error (PairingError_display e))
           end)
      end
  end.

Definition cancel_account_pairing (now : timestamp) (st : ApiState) (header : option string) (request_id : string)
    : ApiState * response string :=
  match as_pairing st with
  | None => (st, no_pairing)
  | Some pm =>
      match get_pairing_request pm request_id with
      | Err e => (st, (400%Z, api_error (PairingError_display e)))
      | Ok request =>
          match authorize_account_api_node now st header (pq_device_id request) with
          | Err (status, message) => (st, (status, api_error message))
          | Ok _ =>
              let '(pm', r) := cancel_pairing pm request_id in
              (set_api_pairing st pm',
               match r with
               | Ok _ => (200%Z, api_success "Pairing cancelled")
               | Err e => (400%Z, api_error (PairingError_display e))
               end)
          end
      end
  end.

(** What the status says of pairing: nothing once paired, otherwise an open
    request of the node. *)
Definition shown_pairing (pm : DevicePairingManager) (node_id : string) : option PairingRequestResponse :=
  match get_pairing_status pm node_id with
  | Ok PsPaired => None
  | Ok _ =>
      pairing_request_response <$>
        List.find (λ r, bool_decide (pq_device_id r = node_id)) (Pairing.list_pending_requests pm)
  | Err _ => None
  end.

Definition get_account_status (now : timestamp) (st : ApiState) (header : option string) (node_id : string)
    : response AccountStatusResponse :=
  match authorize_account_api_node now st header node_id with
  | Err (status, message) => (status, api_error message)
  | Ok _ =>
      (200%Z, api_success (MkAccountStatus node_id (bool_decide (is_Some (as_pairing st)))
                             (get_user_id (notification_bindings (as_hub st)) node_id)
                             (as_pairing st ≫= λ pm, shown_pairing pm node_id)))
  end.

Definition delete_account_binding (now : timestamp) (st : ApiState) (header : option string) (node_id : string)
    : ApiState * response string :=
  match authorize_account_api_node now st header node_id with
  | Err (status, message) => (st, (status, api_error message))
  | Ok _ =>
      (MkApiState (set_hub_bindings (as_hub st) (unbind (notification_bindings (as_hub st)) node_id)) (as_auth st)
         ((λ pm, (unpair_device pm node_id).1) <$> as_pairing st),
       (200%Z, api_success "Binding removed"))
  end.

(** ** The pairing command of the chat *)

(** The reply to a failed confirmation. *)
Definition pairing_failure_text (message : string) : string :=
  if str_contains "expired" message then "绑定失败：绑定码已过期，请在桌面端重新发起绑定。"
  else if str_contains "Invalid pairing code" message then "绑定失败：绑定码无效，请检查后重试。"
  else "绑定失败：" +:+ message.

(** [text] is the text of the message, if it is one; the answer is the reply, or
    that the message is no pairing command. *)
Definition process_dingtalk_pairing_command (secs : Z) (st : ApiState)
    (text sender_user_id sender_staff_id : option string) : ApiState * Result (option string) string :=
  match as_pairing st with
  | None => (st, Ok None)
  | Some pm =>
      match text ≫= resolve_pairing_command with
      | None => (st, Ok None)
      | Some code =>
          match (match sender_user_id with Some u => Some u | None => sender_staff_id end) with
          | None => (st, Err "DingTalk sender identity is missing")
          | Some user =>
              let '(pm', r) := confirm_pairing pm secs code user in
              match r with
              | Ok device =>
                  (MkApiState (set_hub_bindings (as_hub st)
                       (set_binding (notification_bindings (as_hub st)) (dv_id device) user))
                     (as_auth st) (Some pm'),
                   Ok (Some ("绑定成功，设备 " +:+ dv_name device +:+ " 已关联当前 DingTalk 账号。")))
              | Err e =>
                  (set_api_pairing st pm', Ok (Some (pairing_failure_text (PairingError_display e))))
              end
          end
      end
  end.
End Api.
