(* ===== verification/WebApiFacts.v ===== *)
(** The endpoints of the Hub: what the decision of a human does down to the record
    of the task, what gets lost when the node cannot be told, who may use the
    account endpoints, and what a node can be told by anyone. *)
From S2P Require Import Prelude Text Float32 Json ProtocolTypes ProtocolCommand ProtocolResult.
From S2P Require Import ProtocolMessage Channel Paths Workspace NodeManager TaskScheduler SchedulerFacts.
From S2P Require Import SchedulerTheorems SessionRuntime Approval Notifications Permission Hub HubFacts.
From S2P Require Import Executor ExecutorFacts NodeConnection NodeProcess NodeProcessFacts NodeHub.
From S2P Require Import Jwt NodeAuth Pairing Planner PlannerFacts WebApi.

Section Decisions.
Context `{JsonValue, !JsonShape, HashOrder, ToLowercase, !WireJson, ChannelTypeText, FileSystem, SendErrorText}.
Context `{JwtCodec Claims, !TimeText}.
Implicit Types (st : ApiState) (env : hub_env) (r : ApprovalRequest) (payload : ApprovalDecisionPayload).

(** ** A decision *)

(** A request as the Hub makes it for a node, on which nobody decided yet. *)
Definition undecided r : Prop :=
  rq_level r = Single ∧ rq_decisions r = [] ∧ rq_approved_count r = 0%Z ∧ rq_rejected_count r = 0%Z.

(** What the decision makes of its status. *)
Definition decided_status (secs : Z) r (approved : bool) : ApprovalStatus :=
  if is_expired secs r then ATimedOut else if approved then AApproved else ARejected.

Lemma oa_decides (approved : bool) secs a id r who note :
  am_pending (oa_manager a) !! id = Some r → undecided r →
  ∃ a' updated, (if approved then oa_approve else oa_reject) secs a id who note = (a', Ok tt) ∧
    am_pending (oa_manager a') = delete id (am_pending (oa_manager a)) ∧
    get_request (oa_manager a') id = Some updated ∧ rq_status updated = decided_status secs r approved ∧
    rq_decisions updated = [MkApprovalDecision who approved note secs] ∧ rq_expires_at updated = rq_expires_at r.
Proof.
  intros Hr (Hl & Hd & Ha & Hj). unfold decided_status.
  assert (∀ m u, get_request (finish_request m id u) id = Some u) as Hget.
  { intros m u. unfold get_request, finish_request. simpl. by rewrite lookup_delete_eq, lookup_insert_eq. }
  destruct approved; unfold oa_approve, oa_reject, approve_request, reject_request; rewrite Hr; simpl.
  - unfold can_approve. rewrite Hl, Ha. simpl. unfold add_decision. rewrite Hd. simpl.
    set (d := MkApprovalRequest _ _ _ _ _ _ _ _ _ _ _ _).
    assert (is_completed d = true) as Hcd by (unfold is_completed; subst d; simpl; by rewrite Hl, Ha).
    assert (is_completed (update_status secs d) = true) as ->.
    { unfold update_status. rewrite Hcd. by repeat case_match. }
    eexists _, _. split; [reflexivity|]. split; [done|]. split; [apply Hget|].
    unfold update_status. change (is_expired secs d) with (is_expired secs r). destruct (is_expired secs r); [done|].
    rewrite Hcd. simpl. by rewrite Hj.
  - unfold add_decision. rewrite Hd. simpl. set (d := MkApprovalRequest _ _ _ _ _ _ _ _ _ _ _ _).
    eexists _, _. split; [reflexivity|]. split; [done|]. split; [apply Hget|].
    unfold update_status. change (is_expired secs d) with (is_expired secs r). destruct (is_expired secs r); [done|].
    simpl. rewrite Hj. done.
Qed.

(** The message the node is owed. *)
Definition decision_message mid env r payload (approved : bool) : HubToNode :=
  ApprovalResponse mid (default (rq_id r) (metadata_str r "request_id")) approved (ad_responder payload)
    (ad_reason payload) (he_now env).

(** The manager no longer waits for the request; what it has of it now carries the
    one decision, by whom, when and with which comment, and the status it makes. *)
Definition decision_recorded st id r payload (secs : Z) (approved : bool) (updated : ApprovalRequest) : Prop :=
  ∃ a, security (as_hub st) = Some a ∧ am_pending (oa_manager a) !! id = None ∧
    get_request (oa_manager a) id = Some updated ∧
    rq_decisions updated = [MkApprovalDecision (ad_responder payload) approved (ad_reason payload) secs] ∧
    rq_expires_at updated = rq_expires_at r ∧
    rq_status updated = (if bool_decide (rq_expires_at r < secs)%Z then ATimedOut
                         else if approved then AApproved else ARejected).

(** A decision on a pending request is recorded, and told to the node that asked,
    when the Hub can reach it: the answer is a success that shows the request as
    decided, and the channel of the node has exactly this message more.  After the
    request expired it is recorded as timed out, and the node is told what the
    human said all the same. *)
Theorem decision_reaches_node env mid st id payload approved a r node c msgs :
  security (as_hub st) = Some a → am_pending (oa_manager a) !! id = Some r → undecided r →
  metadata_str r "node_id" = Some node →
  node_senders (as_hub st) !! MkNodeId node = Some c → node_chans (as_hub st) !! c = Some (MkChan true msgs) →
  ∃ st' updated, decide_approval env mid st id payload approved = (st', (200%Z, api_success updated)) ∧
    decision_recorded st' id r payload (he_secs env) approved updated ∧
    node_chans (as_hub st')
    = <[c := MkChan true (msgs ++ [decision_message mid env r payload approved])]> (node_chans (as_hub st)) ∧
    task_scheduler (as_hub st') = task_scheduler (as_hub st).
Proof.
  intros Ha Hr Hu Hn Hs Hc. unfold decide_approval. rewrite Ha. unfold get_request at 1. rewrite Hr.
  destruct (oa_decides approved (he_secs env) a id r (ad_responder payload) (ad_reason payload) Hr Hu)
    as (a' & updated & -> & Hp & Hg & Hst & Hds & Hx). rewrite Hg. unfold notify_node_approval_decision. rewrite Hn. simpl.
  rewrite Hs. unfold chan_send. rewrite Hc. simpl.
  eexists _, updated. split; [reflexivity|]. split; [|done].
  exists a'. split; [done|]. split; [by rewrite Hp, lookup_delete_eq|]. by split_and!.
Qed.

(** A request that is no longer pending cannot be decided. *)
Lemma decided_refused env mid st id payload approved a :
  security (as_hub st) = Some a → am_pending (oa_manager a) !! id = None →
  let '(st', (status, _)) := decide_approval env mid st id payload approved in
  (status = 404 ∨ status = 500)%Z ∧ node_chans (as_hub st') = node_chans (as_hub st) ∧
  ∃ a', security (as_hub st') = Some a' ∧ am_pending (oa_manager a') !! id = None.
Proof.
  intros Ha Hp. unfold decide_approval. rewrite Ha. destruct (get_request _ _) as [r|]; [|split; [by left|]; split; [done|]; by exists a].
  assert ((if approved then oa_approve else oa_reject) (he_secs env) a id (ad_responder payload) (ad_reason payload)
    = (MkOperationApprover (oa_manager a) (oa_idempotency a),
       Err (EPermission ((if approved then "Failed to approve: " else "Failed to reject: ")
              +:+ internal_error_display "Request not found")))) as ->.
  { destruct approved; unfold oa_approve, oa_reject, approve_request, reject_request; by rewrite Hp. }
  simpl. split; [by right|]. split; [done|]. by eexists.
Qed.

(** Requests made to the approval endpoints, one after the other. *)
Definition decide_all (decisions : list (hub_env * MessageId * ApprovalDecisionPayload * bool)) (id : string) st : ApiState :=
  foldl (λ st d, (decide_approval d.1.1.1 d.1.1.2 st id d.1.2 d.2).1) st decisions.

(** A decision that cannot be delivered is final all the same: when the node is
    not connected the caller is told of an error, but the request is decided, and
    no later decision, by whomever, is ever sent to the node. *)
Theorem undelivered_decision_is_final env mid st id payload approved a r node decisions :
  security (as_hub st) = Some a → am_pending (oa_manager a) !! id = Some r → undecided r →
  metadata_str r "node_id" = Some node → node_senders (as_hub st) !! MkNodeId node = None →
  ∃ st', decide_approval env mid st id payload approved
      = (st', (500%Z, api_error (HubError_display (NodeNotFound (MkNodeId node))))) ∧
    node_chans (as_hub (decide_all decisions id st')) = node_chans (as_hub st).
Proof.
  intros Ha Hr Hu Hn Hs. unfold decide_approval. rewrite Ha. unfold get_request at 1. rewrite Hr.
  destruct (oa_decides approved (he_secs env) a id r (ad_responder payload) (ad_reason payload) Hr Hu)
    as (a' & updated & -> & Hp & Hg & _). rewrite Hg. unfold notify_node_approval_decision. rewrite Hn. simpl.
  rewrite Hs. eexists. split; [reflexivity|].
  match goal with |- node_chans (as_hub (decide_all _ _ ?s)) = _ => set (st' := s) end.
  assert (∃ a'', security (as_hub st') = Some a'' ∧ am_pending (oa_manager a'') !! id = None) as Hgone.
  { exists a'. split; [done|]. by rewrite Hp, lookup_delete_eq. }
  change (node_chans (as_hub st)) with (node_chans (as_hub st')). clearbody st'. clear -Hgone.
  unfold decide_all. revert st' Hgone. induction decisions as [|d decisions IH]; intros st' (a'' & Ha & Hp); [done|].
  cbn [foldl]. pose proof (decided_refused d.1.1.1 d.1.1.2 st' id d.1.2 d.2 a'' Ha Hp) as Hd.
  destruct (decide_approval _ _ _ _ _ _) as [st1 [status body]]. destruct Hd as (_ & <- & Hg). by apply IH.
Qed.
End Decisions.

(** ** From the node to the human and back *)

Section EndToEnd.
Context `{JsonValue, !JsonShape, GlobMatch, PathTexts, ToLowercase, SendErrorText} {W : Type} `{!Os W, !ExecTexts}.
Context `{HashOrder, !WireJson, ChannelTypeText, FileSystem, JwtCodec Claims, !TimeText}.
Implicit Types (nst : NodeShared (W := W)) (ex : CommandExecutor) (nenv : node_env) (env : hub_env) (h : Hub) (st : ApiState).

(** What the Hub makes of the approval request of a node. *)
Lemma record_approval_request env h a node rid task command context reason ts expires_at :
  rule_engine (oa_manager a) = ApprovalRuleEngine_new →
  let h' := record_approval env h a node rid task command context reason ts expires_at in
  ∃ a' r, security h' = Some a' ∧ am_pending (oa_manager a') !! he_uuid env = Some r ∧ undecided r ∧
    metadata_str r "node_id" = Some (node_id_str node) ∧ metadata_str r "request_id" = Some rid ∧
    metadata_str r "task_id" = Some (task_id_str task) ∧ rq_expires_at r = (he_secs env + 86400)%Z ∧
    node_senders h' = node_senders h ∧ node_chans h' = node_chans h ∧ task_scheduler h' = task_scheduler h.
Proof.
  intros Hrules. unfold record_approval, request_approval, create_request, evaluate_auto_approve, evaluate_auto_reject.
  rewrite Hrules. simpl. eexists _, _. split; [reflexivity|]. simpl. split; [apply lookup_insert_eq|].
  split; [done|]. unfold metadata_str. simpl.
  assert (∀ k v, (k, v) ∈ [("request_id", json_string rid); ("task_id", json_string (task_id_str task));
     ("node_id", json_string (node_id_str node))] → 
     get (approval_metadata rid task node command context reason ts expires_at) k ≫= as_str = as_str v) as Hget.
  { intros k v Hin. unfold approval_metadata. rewrite get_json_object by (apply (bool_decide_unpack _); by vm_compute).
    set_unfold in Hin. destruct Hin as [[= -> ->]|[[= -> ->]|[[= -> ->]|[]]]]; reflexivity. }
  rewrite !(Hget "node_id" (json_string (node_id_str node))) by set_solver.
  rewrite (Hget "request_id" (json_string rid)) by set_solver.
  rewrite (Hget "task_id" (json_string (task_id_str task))) by set_solver.
  by rewrite !as_str_string.
Qed.

(** What a node does with a task it needs an approval for. *)
Lemma assignment_asks nenv ex nst mid id command p d context rc mr x reason :
  check (H2 := os_view (xw (nd_os nst))) (nd_permission nst) (nv_clock nenv) (nv_request_id nenv) command context
  = RequiresApproval x reason →
  ch_open (nd_outbound nst) = true →
  let nst1 := (handle_hub_message nenv ex nst (TaskAssignment mid id command p d context rc mr)).1 in
  ∃ q, pending_approvals (nd_permission nst1) !! nv_approval_id nenv = Some q ∧
    na_task_id q = task_id_str id ∧ na_command q = command ∧ ch_open (nd_outbound nst1) = true ∧
    sent_between nst nst1 = [NApprovalRequest (nv_message_id nenv) (nv_approval_id nenv) id command context reason
                               (na_requested_at q) (na_expires_at q)].
Proof.
  intros Hc Ho. simpl. unfold handle_assignment. simpl. rewrite Hc. unfold create_approval_request.
  rewrite send_outbound_open by done. eexists. split; [apply lookup_insert_eq|]. split; [done|]. split; [done|].
  split; [done|]. by erewrite sent_between_one.
Qed.

(** C17. An approval from the node to a human and back.  A node whose channel to the
    Hub is open is assigned a task that its permissions say needs an approval, and
    asks the Hub; the Hub, which has a security manager without rules of its own, has
    the task running, hears of this request for the first time, and can reach the
    node.  Then a human's decision succeeds and is recorded: the request is no longer
    pending, and its one decision, by the responder, makes it approved or rejected, or
    timed out after a day.  The node is sent exactly this decision under the
    identifier it asked with; and if that comes before the node's own request
    expires, and the node handles it without an error, the Hub's record of the task
    is settled with what the executor reported for that very command, or with a
    failure when it was refused.  Nothing else is sent to the node in between. *)
Theorem approval_round_trip nenv1 nenv2 env1 env2 env3 ex nst h auth pairing id command p d context rc mr x reason
    mid1 mid2 payload approved node rt a c msgs :
  (* the node needs an approval *)
  check (H2 := os_view (xw (nd_os nst))) (nd_permission nst) (nv_clock nenv1) (nv_request_id nenv1) command context
  = RequiresApproval x reason →
  ch_open (nd_outbound nst) = true →
  (* the Hub has the task running, reaches the node and was not asked before *)
  running_tasks (task_scheduler h) !! id = Some rt → security h = Some a →
  rule_engine (oa_manager a) = ApprovalRuleEngine_new → oa_idempotency a !! nv_approval_id nenv1 = None →
  node_senders h !! node = Some c → node_chans h !! c = Some (MkChan true msgs) →
  let nst1 := (handle_hub_message nenv1 ex nst (TaskAssignment mid1 id command p d context rc mr)).1 in
  let h1 := deliver env1 node h (sent_between nst nst1) in
  let m := ApprovalResponse mid2 (nv_approval_id nenv1) approved (ad_responder payload) (ad_reason payload)
             (he_now env2) in
  ∃ st2 updated,
    decide_approval env2 mid2 (MkApiState h1 auth pairing) (he_uuid env1) payload approved
    = (st2, (200%Z, api_success updated)) ∧
    (∃ a2, security (as_hub st2) = Some a2 ∧ am_pending (oa_manager a2) !! he_uuid env1 = None ∧
       get_request (oa_manager a2) (he_uuid env1) = Some updated ∧
       rq_decisions updated = [MkApprovalDecision (ad_responder payload) approved (ad_reason payload) (he_secs env2)] ∧
       rq_status updated = (if bool_decide (he_secs env1 + 86400 < he_secs env2)%Z then ATimedOut
                            else if approved then AApproved else ARejected)) ∧
    node_chans (as_hub st2) = <[c := MkChan true (msgs ++ [m])]> (node_chans h) ∧
    let handled := handle_hub_message nenv2 ex nst1 m in
    (∀ q, pending_approvals (nd_permission nst1) !! nv_approval_id nenv1 = Some q → nv_now nenv2 ≤ na_expires_at q)%Z →
    handled.2 = Done (Ok tt) →
    ∃ result, settled env3 (as_hub st2) (deliver env3 node (as_hub st2) (sent_between nst1 handled.1)) id rt result ∧
      (if approved then reported nenv2 ex nst1 command result else cr_success result = false).
Proof.
  intros Hcheck Ho Hrt Hsec Hrules Hidem Hsend Hchan nst1 h1 m.
  destruct (assignment_asks nenv1 ex nst mid1 id command p d context rc mr x reason Hcheck Ho)
    as (q & Hq & Htask & Hcmd & Ho1 & Hsent). fold nst1 in Hq, Ho1, Hsent.
  assert (∃ a1, h1 = record_approval env1 (set_security h (Some a1)) a1 node (nv_approval_id nenv1) id command context reason
      (na_requested_at q) (na_expires_at q) ∧ rule_engine (oa_manager a1) = ApprovalRuleEngine_new) as (a1 & Eh1 & Hr1).
  { unfold h1. rewrite Hsent. unfold deliver. simpl. unfold handle_approval_request. rewrite Hsec.
    destruct (check_idempotency_miss (he_secs env1) a (nv_approval_id nenv1) Hidem) as (a1 & -> & Ea & _).
    exists a1. split; [done|by rewrite Ea]. }
  destruct (record_approval_request env1 (set_security h (Some a1)) a1 node (nv_approval_id nenv1) id command context
    reason (na_requested_at q) (na_expires_at q) Hr1)
    as (a' & r & Hsec1 & Hpend & Hund & Hmn & Hmr & _ & Hexpiry & Es & Ec & Et). rewrite <-Eh1 in *. simpl in Es, Ec, Et.
  destruct (decision_reaches_node env2 mid2 (MkApiState h1 auth pairing) (he_uuid env1) payload approved a' r
    (node_id_str node) c msgs Hsec1 Hpend Hund Hmn) as (st2 & updated & Hdec & Hrec & Hch & Hts).
  { simpl. rewrite Es. by destruct node. } { simpl. by rewrite Ec. }
  assert (decision_message mid2 env2 r payload approved = m) as Em by (unfold decision_message; by rewrite Hmr).
  exists st2, updated. split; [exact Hdec|]. split.
  { destruct Hrec as (a2 & Ha2 & Hp2 & Hg2 & Hd2 & _ & Hst2). rewrite Hexpiry in Hst2. by exists a2. }
  split; [rewrite Hch, Em; simpl; by rewrite Ec|].
  intros handled Hexp Hd. unfold handled.
  assert (id = MkTaskId (na_task_id q)) as Eid by (rewrite Htask; by destruct id).
  assert (running_tasks (task_scheduler (as_hub st2)) !! MkTaskId (na_task_id q) = Some rt) as Hrt2
    by (rewrite Hts; simpl; by rewrite Et, <-Eid).
  rewrite Eid, <-Hcmd. apply (approval_reaches_record nenv2 ex nst1 env3 (as_hub st2) node mid2
    (nv_approval_id nenv1) approved (ad_responder payload) (ad_reason payload) (he_now env2) q rt);
    [exact Hq|by apply Hexp|exact Hrt2|exact Ho1|exact Hd].
Qed.
End EndToEnd.

(** ** Accounts *)

Section Accounts.
Context `{JsonValue, !JsonShape, HashOrder, ToLowercase, !WireJson, ChannelTypeText, FileSystem, SendErrorText}.
Context `{JwtCodec Claims, !TimeText} {LAWS : JwtLaws Claims cl_exp}.
Implicit Types (st : ApiState).

(** The caller shows a token of the node. *)
Definition authorised_account now st (header : option string) (node : string) : Prop :=
  ∃ token, header ≫= strip_prefix BEARER_AUTH_PREFIX = Some token ∧
    Node_verify_token (as_auth st) now (str_trim token) = Ok (MkNodeId node).

Lemma authorize_ok now st header node :
  authorize_account_api_node now st header node = Ok tt →
  is_Some (security (as_hub st)) ∧ authorised_account now st header node.
Proof.
  unfold authorize_account_api_node. destruct (security _); [|done].
  intros (hd & Hh & (token & Ht & Hv)%result_bind_ok)%result_bind_ok. destruct header as [hd'|]; [|done].
  simpl in Hh. simplify_eq. destruct (strip_prefix BEARER_AUTH_PREFIX hd) as [token'|] eqn:Ep; [|done].
  simpl in Ht. simplify_eq. case_bool_decide; [done|].
  destruct (Node_verify_token _ _ _) as [n|e] eqn:Ev; [|done]. case_bool_decide as Hn; [|done].
  split; [eauto|]. exists token. simpl. rewrite Ep, Ev. subst node. by destruct n.
Qed.

(** The account endpoints are for the node itself: without a token of the node
    the state stays as it was and the answer is an error. *)
Theorem account_api_guarded now uuid random secs st header node payload rid :
  ¬ authorised_account now st header node → sp_node_id payload = node →
  (∀ pm r, as_pairing st = Some pm → pm_requests pm !! rid = Some r → pq_device_id r = node) →
  let started := start_account_pairing now uuid random secs st header payload in
  let cancelled := cancel_account_pairing now st header rid in
  let deleted := delete_account_binding now st header node in
  (started.1 = st ∧ ar_success started.2.2 = false) ∧ (cancelled.1 = st ∧ ar_success cancelled.2.2 = false) ∧
  (deleted.1 = st ∧ ar_success deleted.2.2 = false) ∧
  ar_success (get_account_status now st header node).2 = false.
Proof.
  intros Hno <- Hreq.
  assert (∃ e, authorize_account_api_node now st header (sp_node_id payload) = Err e) as [[code msg] He].
  { destruct (authorize_account_api_node _ _ _ _) as [[]|e] eqn:E; [|eauto]. by apply authorize_ok in E as [_ ?]. }
  unfold start_account_pairing, cancel_account_pairing, delete_account_binding, get_account_status. rewrite !He.
  split_and!; try done; destruct (as_pairing st) as [pm|] eqn:Ep; try done; unfold get_pairing_request;
    destruct (pm_requests pm !! rid) as [r|] eqn:Er; simpl; try done; rewrite (Hreq pm r eq_refl Er), He; done.
Qed.

(** The token endpoint hands out a token for any node. *)
Lemma issued_token aenv st node credentials now :
  let made := unix_seconds (mt_now (ae_mint1 aenv) + seconds (as_i64 (ja_default_expiry (na_jwt_service (as_auth st))))) in
  is_Some (security (as_hub st)) → credentials ≠ "" → (∀ secret c, ∃ t, jwt_encode secret c = Ok t) →
  (0 ≤ made < 2 ^ 64)%Z → (unix_seconds now ≤ made + 60)%Z →
  generate_jti (mt_jti_nanos (ae_mint1 aenv)) ∉ ja_revoked (na_jwt_service (as_auth st)) →
  ∃ auth' issued,
    issue_node_token aenv st (MkIssueNodeToken node credentials)
    = (MkApiState (as_hub st) auth' (as_pairing st), (200%Z, api_success issued)) ∧
    Node_verify_token auth' now (ir_access_token issued) = Ok (MkNodeId node) ∧
    ∃ secret c, jwt_encode secret c = Ok (ir_access_token issued).
Proof.
  intros made [a Ha] Hc He Hm Hn Hj. unfold issue_node_token. rewrite Ha. simpl.
  destruct (create_pair_total (na_jwt_service (as_auth st)) (ae_mint1 aenv) (ae_mint2 aenv) None (Some node) ["node"]
    (He _)) as [p Hp].
  assert (∃ auth' info, authenticate_node aenv (as_auth st) (MkNodeId node) credentials = (auth', Ok info) ∧
    nai_access_token info = tp_access_token p) as (auth' & info & Hauth & Et).
  { unfold authenticate_node. rewrite bool_decide_false by done. simpl. rewrite Hp. eauto. }
  pose proof (authenticated_token_verifies _ _ _ _ _ _ now Hauth Hm Hn Hj) as Hv. rewrite Hauth.
  eexists _, _. split; [reflexivity|]. split; [exact Hv|]. simpl. rewrite Et. apply create_pair_ok in Hp as [Hp _]. eauto.
Qed.

(** Anyone can undo the account binding of a node: with the token the endpoint
    hands out for any credentials that are not empty, the deletion succeeds, and
    the notifications of the node have no recipient any more. *)
Theorem anyone_unbinds_node aenv st node credentials now :
  let made := unix_seconds (mt_now (ae_mint1 aenv) + seconds (as_i64 (ja_default_expiry (na_jwt_service (as_auth st))))) in
  is_Some (security (as_hub st)) → credentials ≠ "" → (∀ secret c, ∃ t, jwt_encode secret c = Ok t) →
  (∀ secret c t, jwt_encode secret c = Ok t → t ≠ "" ∧ str_trim t = t) →
  (0 ≤ made < 2 ^ 64)%Z → (unix_seconds now ≤ made + 60)%Z →
  generate_jti (mt_jti_nanos (ae_mint1 aenv)) ∉ ja_revoked (na_jwt_service (as_auth st)) →
  ∃ st1 issued st2,
    issue_node_token aenv st (MkIssueNodeToken node credentials) = (st1, (200%Z, api_success issued)) ∧
    delete_account_binding now st1 (Some (BEARER_AUTH_PREFIX +:+ ir_access_token issued)) node
    = (st2, (200%Z, api_success "Binding removed")) ∧
    get_binding (notification_bindings (as_hub st2)) node = None.
Proof.
  intros made Ha Hc He Hplain Hm Hn Hj.
  destruct (issued_token aenv st node credentials now Ha Hc He Hm Hn Hj) as (auth' & issued & Hi & Hv & secret & cl & Ht).
  destruct (Hplain _ _ _ Ht) as [Hne Htrim]. destruct Ha as [a Ha]. eexists _, issued, _. split; [exact Hi|].
  unfold delete_account_binding, authorize_account_api_node. simpl. rewrite Ha. simpl.
  rewrite (strip_prefix_app BEARER_AUTH_PREFIX). simpl. rewrite Htrim, bool_decide_false, Hv by done. simpl.
  rewrite bool_decide_true by done. split; [reflexivity|]. simpl.
  unfold get_binding, unbind, set_runtime. simpl. by rewrite lookup_insert_eq.
Qed.

(** ** Pairing by chat *)

Lemma digits_solid s : six_digits s = true → str_forallb is_solid s = true ∧ s ≠ "".
Proof.
  unfold six_digits. intros [Hl%bool_decide_eq_true Hs]%andb_prop. split; [|by intros ->]. clear Hl.
  induction s as [|c s IH]; [done|]. cbn [str_forallb] in *. apply andb_prop in Hs as [Hc%bool_decide_eq_true Hs].
  rewrite IH by done. rewrite andb_true_r. unfold is_solid. apply bool_decide_eq_true. lia.
Qed.

(** A code is read with and without one of the three words in front of it. *)
Theorem pairing_command_forms code :
  six_digits code = true →
  resolve_pairing_command code = Some code ∧
  Forall (λ word, resolve_pairing_command (word +:+ String " " code) = Some code) ["绑定码"; "pair"; "bind"].
Proof.
  intros Hc. destruct (digits_solid _ Hc) as [Hg Hne]. unfold resolve_pairing_command.
  split; [by rewrite str_trim_solid, Hc|].
  assert (∀ word, six_digits (word +:+ String " " code) = false) as Hno.
  { intros word. unfold six_digits. apply andb_false_iff. right. induction word as [|c w IH]; [done|].
    rewrite str_app_cons. cbn [str_forallb]. by rewrite IH, andb_false_r. }
  repeat constructor; rewrite str_trim_between, Hno by done; cbv [strip_first].
  - rewrite strip_prefix_app, str_trim_blank, Hc by done. done.
  - change (strip_prefix "绑定码" _) with (@None string).
    rewrite strip_prefix_app, str_trim_blank, Hc by done. done.
  - change (strip_prefix "绑定码" _) with (@None string). change (strip_prefix "pair" _) with (@None string).
    rewrite strip_prefix_app, str_trim_blank, Hc by done. done.
Qed.

(** What the chat makes of a pairing command: with an open code whose request has
    not expired and whose device is known, the device is paired and its
    notifications go to the sender; otherwise no binding changes. *)
Theorem pairing_command_binds secs st pm text code user staff st' reply :
  as_pairing st = Some pm → text ≫= resolve_pairing_command = Some code →
  process_dingtalk_pairing_command secs st text (Some user) staff = (st', Ok reply) →
  (∃ id r d, pm_codes pm !! code = Some id ∧ pm_requests pm !! id = Some r ∧
     PairingRequest_is_expired r secs = false ∧ pm_devices pm !! pq_device_id r = Some d ∧
     get_user_id (notification_bindings (as_hub st')) (dv_id d) = Some user ∧
     (∀ other, other ≠ dv_id d → get_binding (notification_bindings (as_hub st')) other
        = get_binding (notification_bindings (as_hub st)) other) ∧
     ∃ pm', as_pairing st' = Some pm' ∧ dv_paired <$> pm_devices pm' !! pq_device_id r = Some true) ∨
  notification_bindings (as_hub st') = notification_bindings (as_hub st).
Proof.
  intros Hp Ht. unfold process_dingtalk_pairing_command. rewrite Hp, Ht. simpl.
  unfold confirm_pairing. destruct (pm_codes pm !! code) as [id|] eqn:Ec; [|intros [= <- _]; by right].
  destruct (pm_requests pm !! id) as [r|] eqn:Er; [|intros [= <- _]; by right].
  destruct (PairingRequest_is_expired r secs) eqn:Ex; [intros [= <- _]; by right|].
  destruct (pm_devices pm !! pq_device_id r) as [d|] eqn:Ed; [|intros [= <- _]; by right].
  intros [= <- _]. left. exists id, r, d. split_and!; try done.
  - unfold get_user_id, get_binding, set_binding, set_channel_binding, set_runtime. simpl. by rewrite lookup_insert_eq.
  - intros other Hne. unfold get_binding, set_binding, set_channel_binding, set_runtime. simpl.
    by rewrite lookup_insert_ne.
  - eexists. split; [reflexivity|]. simpl. by rewrite lookup_insert_eq.
Qed.
End Accounts.

(** ** Rules and cancellation *)

Section Rules.
Context `{JsonValue, !JsonShape, GlobMatch, PathTexts, ToLowercase, SendErrorText} {W : Type} `{!Os W, !ExecTexts}.
Context `{HashOrder, !WireJson, ChannelTypeText, FileSystem, JwtCodec Claims, !TimeText}.

(** Anyone sets the rules of a node: the endpoint asks for no token, so any
    caller's rules reach a connected node, which replaces its own by them, and
    with the request to that effect alone. *)
Theorem anyone_sets_node_rules mid st node rules c msgs nenv ex (nst : NodeShared (W := W)) :
  node_senders (as_hub st) !! MkNodeId node = Some c → node_chans (as_hub st) !! c = Some (MkChan true msgs) →
  ∃ st', update_node_permissions mid st node rules = (st', (200%Z, api_success "Permission update sent")) ∧
    node_chans (as_hub st') = <[c := MkChan true (msgs ++ [PermissionUpdate mid rules])]> (node_chans (as_hub st)) ∧
    let nst' := (handle_hub_message nenv ex nst (PermissionUpdate mid rules)).1 in
    pm_rules (nd_permission nst') = convert_protocol_permission_rule (nv_now nenv) <$> rules.
Proof.
  intros Hs Hc. unfold update_node_permissions. rewrite Hs. unfold chan_send. rewrite Hc. simpl.
  eexists. split; [reflexivity|]. split; [done|].
  destruct (update_installs nenv ex nst mid rules) as (Hr & _). exact Hr.
Qed.

(** A cancellation that fails cancels the turn all the same: when the node of a
    running task has hung up, the caller is told of an error and the task runs on,
    but the turn that waits for it is marked as cancelled. *)
Theorem failed_cancel_cancels_turn (env : hub_env) st task r c msgs binding turn :
  let h := as_hub st in
  running_tasks (task_scheduler h) !! MkTaskId task = Some r → ¬ is_pending (task_scheduler h) (MkTaskId task) →
  node_senders h !! rt_node_id r = Some c → node_chans h !! c = Some (MkChan false msgs) →
  find_task_binding (session_runtime h) (MkTaskId task) = Some binding →
  turn_state (session_runtime h) (tb_session_key binding) = Some turn →
  ∃ st' m, cancel_task env st task = (st', (500%Z, api_error m)) ∧
    task_scheduler (as_hub st') = task_scheduler h ∧
    tu_status <$> turn_state (session_runtime (as_hub st')) (tb_session_key binding) = Some TCancelled.
Proof.
  intros h Hr Hp Hs Hc Hb Ht. unfold cancel_task. fold h. rewrite Hb.
  set (h1 := set_session_runtime h _).
  pose proof (hub_cancel_running env h1 (MkTaskId task) r c "User cancelled" Hr Hp Hs) as Hcancel.
  change (node_chans h1) with (node_chans h) in Hcancel. rewrite Hc in Hcancel.
  destruct (Hub_cancel_task env h1 (MkTaskId task) "User cancelled") as [h2 [u|e]]; destruct Hcancel as (-> & He & _); [done|].
  eexists _, _. split; [reflexivity|]. split; [done|]. simpl. unfold turn_state, cancel_turn, append_transcript_event. simpl.
  unfold turn_state in Ht. rewrite map_update_lookup, decide_True, Ht by done. done.
Qed.
End Rules.

(** ** Concrete runs *)

#[local] Existing Instance exec_json.
#[local] Existing Instance exec_lower.
#[local] Existing Instance exec_glob.
#[local] Existing Instance exec_paths.
#[local] Existing Instance exec_texts.
#[local] Existing Instance demo_os.
#[local] Existing Instance node_send_error.
#[local] Existing Instance canonical_order.
#[local] Existing Instance hub_wire.
#[local] Existing Instance hub_channels.
#[local] Existing Instance flat_fs.
#[local] Existing Instance claims_jwt.
#[local] Existing Instance claims_laws.
#[local] Instance api_shape : @JsonShape exec_json := json_tree_shape.
#[local] Instance api_time : TimeText := λ t, display_u t.

(** The Hub with the task running and the node connected on channel 0. *)
Definition api_hub : Hub :=
  set_chans (set_senders (hub_running demo_echo "t1") {[MkNodeId "n1" := 0]}) {[0 := MkChan true []]}.
Definition asked_hub : Hub :=
  deliver (hub_env_at 0) (MkNodeId "n1") api_hub (sent_between demo_node_state waiting_node).
Definition human_decision : ApprovalDecisionPayload := MkDecision "admin" None.
Definition told_node : HubToNode := ApprovalResponse (MkMessageId "b") "approval-1" true "admin" None 1.

Lemma approval_round_trip_witness :
  ∃ st2 updated,
    decide_approval (hub_env_at 1) (MkMessageId "b") (MkApiState asked_hub demo_authenticator None) "uuid"
      human_decision true = (st2, (200%Z, api_success updated)) ∧
    rq_status updated = AApproved ∧
    ∃ result, settled (hub_env_at 9) (as_hub st2)
      (deliver (hub_env_at 9) (MkNodeId "n1") (as_hub st2)
         (sent_between waiting_node (handle_hub_message (demo_node_env 2) (demo_executor 100) waiting_node told_node).1))
      (MkTaskId "t1") (hub_task demo_echo "t1") result.
Proof.
  assert (check (H2 := os_view (xw (nd_os demo_node_state))) (nd_permission demo_node_state)
    (nv_clock (demo_node_env 0)) (nv_request_id (demo_node_env 0)) demo_echo demo_node_context
    = RequiresApproval "check-1" "Rule 'shell' requires approval") as Hc by (vm_compute; reflexivity).
  assert (running_tasks (task_scheduler api_hub) !! MkTaskId "t1" = Some (hub_task demo_echo "t1")) as Hr
    by apply lookup_insert_eq.
  assert ((handle_hub_message (demo_node_env 2) (demo_executor 100) waiting_node told_node).2 = Done (Ok tt)) as Hd
    by (vm_compute; reflexivity).
  assert (∀ q, pending_approvals (nd_permission waiting_node) !! "approval-1" = Some q → 2 ≤ na_expires_at q)%Z as Hexp.
  { destruct waiting_request as (q & Hq & _ & _ & He). intros q' Hq'. rewrite Hq in Hq'. injection Hq' as <-.
    rewrite He. vm_compute. discriminate. }
  destruct (approval_round_trip (demo_node_env 0) (demo_node_env 2) (hub_env_at 0) (hub_env_at 1) (hub_env_at 9)
    (demo_executor 100) demo_node_state api_hub demo_authenticator None (MkTaskId "t1") demo_echo Normal None
    demo_node_context 0 3 "check-1" "Rule 'shell' requires approval" (MkMessageId "a") (MkMessageId "b") human_decision true (MkNodeId "n1")
    (hub_task demo_echo "t1") (MkOperationApprover ApprovalManager_new ∅) 0 []
    Hc eq_refl Hr eq_refl eq_refl (lookup_empty _) (lookup_insert_eq _ _ _) (lookup_insert_eq _ _ _))
    as (st2 & updated & Hdec & (a2 & _ & _ & _ & _ & Hst) & _ & Hs).
  exists st2, updated. split; [exact Hdec|]. split; [exact Hst|].
  destruct (Hs Hexp Hd) as (result & Hset & _).
  exists result. exact Hset.
Defined.
