(* ===== verification/GatewayAuth.v ===== *)
(** Users of the gateway and their tokens ([crates/uhorse-gateway/src/auth/jwt.rs],
    [service.rs]): login, refresh, logout and the check of an access token. *)
From S2P Require Import Prelude Jwt.

Record JwtConfig := MkJwtConfig {
  jc_secret : string;
  jc_access_token_expiry : Z;
  jc_refresh_token_expiry : Z
}.
Definition JwtConfig_default : JwtConfig :=
  MkJwtConfig "uhorse-default-secret-change-in-production" 86400 604800.

Record UserClaims := MkUserClaims {
  uc_sub : string;
  uc_username : string;
  uc_role : string;
  uc_token_type : string;
  uc_iat : Z;
  uc_exp : Z
}.
#[export] Instance UserClaims_eq_dec : EqDecision UserClaims.
Proof. solve_decision. Defined.
#[export] Instance UserClaims_countable : Countable UserClaims.
Proof.
  refine (inj_countable' (λ c, (uc_sub c, uc_username c, uc_role c, uc_token_type c, uc_iat c, uc_exp c))
    (λ '(s, u, r, t, i, e), MkUserClaims s u r t i e) _). by intros [].
Defined.

(** [now] is the clock in seconds; the sum is a [u64]. *)
Definition UserClaims_new (now : Z) (user_id username role token_type : string) (expiry_secs : Z) : UserClaims :=
  MkUserClaims user_id username role token_type now (wrap 64 (now + expiry_secs)).

Record User := MkUser {
  us_id : string;
  us_username : string;
  us_password_hash : string;
  us_role : string
}.

Record AuthResult := MkAuthResult {
  ares_access_token : string;
  ares_refresh_token : string;
  ares_expires_in : Z
}.

(** The users by name, and the refresh tokens that were logged out, oldest first. *)
Record AuthService := MkAuthService {
  sv_jwt : JwtConfig;
  sv_users : gmap string User;
  sv_blacklist : list string
}.

Definition AuthService_new (jwt : JwtConfig) : AuthService := MkAuthService jwt ∅ [].
Definition set_users (s : AuthService) (u : gmap string User) : AuthService :=
  MkAuthService (sv_jwt s) u (sv_blacklist s).

Definition add_user (s : AuthService) (u : User) : AuthService :=
  set_users s (<[us_username u := u]> (sv_users s)).

(** The user an empty service makes for itself. *)
Definition default_admin : User := MkUser "user-admin" "admin" "admin123" "admin".

Section Tokens.
Context `{JwtCodec UserClaims}.

(** Each token reads the clock once; errors only matter as such. *)
Definition generate_access_token (j : JwtConfig) (now : Z) (user_id username role : string) : Result string string :=
  jwt_encode (jc_secret j) (UserClaims_new now user_id username role "access" (jc_access_token_expiry j)).
Definition generate_refresh_token (j : JwtConfig) (now : Z) (user_id username role : string) : Result string string :=
  jwt_encode (jc_secret j) (UserClaims_new now user_id username role "refresh" (jc_refresh_token_expiry j)).

Definition verify_token (j : JwtConfig) (now : Z) (token : string) : option UserClaims :=
  jwt_decode (jc_secret j) now token.

(** [Result::ok]. *)
Definition result_ok {A E} (r : Result A E) : option A := match r with Ok a => Some a | Err _ => None end.

(** The two tokens of an answer, with their readings of the clock. *)
Definition make_tokens (j : JwtConfig) (now1 now2 : Z) (user_id username role : string) : option AuthResult :=
  access ← result_ok (generate_access_token j now1 user_id username role);
  refresh ← result_ok (generate_refresh_token j now2 user_id username role);
  Some (MkAuthResult access refresh (jc_access_token_expiry j)).

Definition login (s : AuthService) (now1 now2 : Z) (username password : string) : AuthService * option AuthResult :=
  let s1 := if bool_decide (sv_users s = ∅) then set_users s (<["admin" := default_admin]> (sv_users s)) else s in
  (s1,
   match sv_users s1 !! username with
   | None => None
   | Some user =>
       if negb (bool_decide (us_password_hash user = password)) then None
       else make_tokens (sv_jwt s1) now1 now2 (us_id user) username (us_role user)
   end).

Definition refresh_token (s : AuthService) (now now1 now2 : Z) (token : string) : option AuthResult :=
  if bool_decide (token ∈ sv_blacklist s) then None
  else
    match verify_token (sv_jwt s) now token with
    | None => None
    | Some c =>
        if negb (bool_decide (uc_token_type c = "refresh")) then None
        else make_tokens (sv_jwt s) now1 now2 (uc_sub c) (uc_username c) (uc_role c)
    end.

Definition logout (s : AuthService) (token : string) : AuthService :=
  let blacklist := sv_blacklist s ++ [token] in
  MkAuthService (sv_jwt s) (sv_users s) (if bool_decide (10000 < length blacklist) then drop 5000 blacklist else blacklist).

Definition verify_access_token (s : AuthService) (now : Z) (token : string) : option UserClaims :=
  match verify_token (sv_jwt s) now token with
  | None => None
  | Some c => if negb (bool_decide (uc_token_type c = "access")) then None else Some c
  end.
End Tokens.

(** * Theorems

   What a token of a user proves, and what logging out does not take away. *)

Section Facts.
Context `{JwtCodec UserClaims} {LAWS : JwtLaws UserClaims uc_exp}.
Implicit Types (s : AuthService).

Lemma make_tokens_ok j now1 now2 id name role r :
  make_tokens j now1 now2 id name role = Some r →
  jwt_encode (jc_secret j) (UserClaims_new now1 id name role "access" (jc_access_token_expiry j)) = Ok (ares_access_token r) ∧
  jwt_encode (jc_secret j) (UserClaims_new now2 id name role "refresh" (jc_refresh_token_expiry j)) = Ok (ares_refresh_token r).
Proof.
  unfold make_tokens, generate_access_token, generate_refresh_token.
  destruct (jwt_encode _ (UserClaims_new now1 _ _ _ _ _)) as [a|] eqn:E1; simpl; [|done].
  destruct (jwt_encode _ (UserClaims_new now2 _ _ _ _ _)) as [b|] eqn:E2; simpl; [|done]. by intros [= <-].
Qed.

Lemma make_tokens_total j now1 now2 id name role :
  (∀ c, ∃ t, jwt_encode (jc_secret j) c = Ok t) → ∃ r, make_tokens j now1 now2 id name role = Some r.
Proof.
  intros He. unfold make_tokens, generate_access_token, generate_refresh_token.
  destruct (He (UserClaims_new now1 id name role "access" (jc_access_token_expiry j))) as [a ->].
  destruct (He (UserClaims_new now2 id name role "refresh" (jc_refresh_token_expiry j))) as [b ->]. simpl. eauto.
Qed.

(** ** What a token proves *)

(** An identity that was granted: the identifier, name and role of a user whose
    password was given. *)
Record identity := MkIdentity { id_sub : string; id_name : string; id_role : string }.
Definition claims_identity (c : UserClaims) : identity := MkIdentity (uc_sub c) (uc_username c) (uc_role c).

(** The histories of a service: users added, logins that succeeded, with the users
    of that moment, the name and the password that was presented, refreshes and
    logouts, and the tokens that were handed out.  Of the texts a caller can present
    those decode that were handed out. *)
Definition login_record : Type := gmap string User * string * string.
Inductive service_run : list login_record → list string → AuthService → Prop :=
| sr_start j : service_run [] [] (AuthService_new j)
| sr_add logins issued s u : service_run logins issued s → service_run logins issued (add_user s u)
| sr_login logins issued s now1 now2 name password s' r :
    service_run logins issued s → login s now1 now2 name password = (s', Some r) →
    service_run ((sv_users s', name, password) :: logins) (ares_access_token r :: ares_refresh_token r :: issued) s'
| sr_refused logins issued s now1 now2 name password s' :
    service_run logins issued s → login s now1 now2 name password = (s', None) → service_run logins issued s'
| sr_refresh logins issued s now now1 now2 t r :
    service_run logins issued s → t ∈ issued → refresh_token s now now1 now2 t = Some r →
    service_run logins (ares_access_token r :: ares_refresh_token r :: issued) s
| sr_logout logins issued s t : service_run logins issued s → service_run logins issued (logout s t).

(** The identity is that of a user who logged in, with the password that the service
    had for the user then. *)
Definition logged_in (logins : list login_record) (i : identity) : Prop :=
  ∃ users name password user, (users, name, password) ∈ logins ∧ users !! name = Some user ∧
    us_password_hash user = password ∧ i = MkIdentity (us_id user) name (us_role user).

Definition granted_token (secret : string) (logins : list login_record) (t : string) : Prop :=
  ∃ c, jwt_encode secret c = Ok t ∧ logged_in logins (claims_identity c).

Lemma granted_token_later secret l logins t : granted_token secret logins t → granted_token secret (l :: logins) t.
Proof.
  intros (c & Hc & users & name & password & user & Hl & Hrest). exists c. split; [done|].
  exists users, name, password, user. split; [by right|done].
Qed.

Lemma login_ok s now1 now2 name password s' r :
  login s now1 now2 name password = (s', Some r) →
  sv_jwt s' = sv_jwt s ∧ ∃ user, sv_users s' !! name = Some user ∧ us_password_hash user = password ∧
    make_tokens (sv_jwt s) now1 now2 (us_id user) name (us_role user) = Some r.
Proof.
  unfold login. intros [= <- Hr].
  match type of Hr with context [sv_users ?x !! name] => set (s1 := x) in * end.
  assert (sv_jwt s1 = sv_jwt s) as Ej by (subst s1; by destruct (bool_decide (sv_users s = ∅))).
  split; [exact Ej|]. destruct (sv_users s1 !! name) as [user|]; [|done]. exists user. split; [done|].
  case_bool_decide; [|done]. rewrite <-Ej. done.
Qed.

Lemma login_jwt s now1 now2 name password : sv_jwt (login s now1 now2 name password).1 = sv_jwt s.
Proof. unfold login. by destruct (bool_decide (sv_users s = ∅)). Qed.

Lemma run_tokens logins issued s :
  service_run logins issued s → Forall (granted_token (jc_secret (sv_jwt s)) logins) issued.
Proof.
  intros Hr. induction Hr as [j|logins issued s u _ IH|logins issued s now1 now2 name pw s' r _ IH Hl
    |logins issued s now1 now2 name pw s' _ IH Hl|logins issued s now now1 now2 t r _ IH Ht Href
    |logins issued s t _ IH]; [constructor|exact IH| | | |exact IH].
  - apply login_ok in Hl as (-> & user & Hu & Hp & [Ha Hf]%make_tokens_ok).
    assert (logged_in ((sv_users s', name, pw) :: logins) (MkIdentity (us_id user) name (us_role user))) as Hin.
    { exists (sv_users s'), name, pw, user. split; [by left|done]. }
    repeat constructor; [by eexists; split; [exact Ha|]|by eexists; split; [exact Hf|]|].
    eapply Forall_impl; [exact IH|]. intros t. apply granted_token_later.
  - pose proof (login_jwt s now1 now2 name pw) as Ej. rewrite Hl in Ej. simpl in Ej. by rewrite Ej.
  - unfold refresh_token in Href. case_bool_decide; [done|]. unfold verify_token in Href.
    pose proof (proj1 (Forall_forall _ _) IH t Ht) as (c & Hc & Hg).
    destruct (jwt_decode _ now t) as [c'|] eqn:Ed; [|done]. destruct (jwt_decode_encoded _ _ _ _ _ Hc Ed) as [-> _].
    case_bool_decide; [|done]. apply make_tokens_ok in Href as [Ha Hf].
    repeat constructor; [by eexists; split; [exact Ha|]|by eexists; split; [exact Hf|]|exact IH].
Qed.

(** C30. An access token proves a login: whatever users were added, whoever tried to
    log in with whatever password, and whatever was refreshed and logged out, the
    identity and role an access token of the service stands for are those of a user
    who logged in by presenting the password the service had for that user then. *)
Theorem access_token_proves_login logins issued s t now c :
  service_run logins issued s → t ∈ issued → verify_access_token s now t = Some c →
  ∃ users name password user, (users, name, password) ∈ logins ∧ users !! name = Some user ∧
    us_password_hash user = password ∧ uc_sub c = us_id user ∧ uc_username c = name ∧ uc_role c = us_role user.
Proof.
  intros Hr Ht. unfold verify_access_token, verify_token.
  pose proof (proj1 (Forall_forall _ _) (run_tokens _ _ _ Hr) t Ht) as (c' & Hc & Hg).
  destruct (jwt_decode _ now t) as [d|] eqn:Ed; [|done]. destruct (jwt_decode_encoded _ _ _ _ _ Hc Ed) as [-> _].
  case_bool_decide; [|done]. intros [= <-]. destruct Hg as (users & name & pw & user & Hl & Hu & Hp & [= -> -> ->]).
  by exists users, name, pw, user.
Qed.

(** Logging in succeeds exactly with the password of the user. *)
Theorem login_spec s now1 now2 name password :
  sv_users s ≠ ∅ → (∀ c, ∃ t, jwt_encode (jc_secret (sv_jwt s)) c = Ok t) →
  (login s now1 now2 name password).1 = s ∧
  (is_Some (login s now1 now2 name password).2 ↔
   ∃ user, sv_users s !! name = Some user ∧ us_password_hash user = password).
Proof.
  intros Hne He. unfold login. rewrite bool_decide_false by done. split; [done|]. simpl.
  destruct (sv_users s !! name) as [user|]; [|by split; [intros []|intros (? & ? & _)]].
  case_bool_decide as Hp; simpl.
  - destruct (make_tokens_total (sv_jwt s) now1 now2 (us_id user) name (us_role user) He) as [r ->].
    split; [|done]. intros _. eauto.
  - split; [by intros []|]. intros (u & [= <-] & ?). done.
Qed.

(** A service without users lets in an administrator under a password that is
    part of the program, and keeps that user. *)
Theorem empty_service_admits_admin s now1 now2 :
  sv_users s = ∅ → (∀ c, ∃ t, jwt_encode (jc_secret (sv_jwt s)) c = Ok t) →
  ∃ s' r, login s now1 now2 "admin" "admin123" = (s', Some r) ∧ sv_users s' !! "admin" = Some default_admin ∧
    jwt_encode (jc_secret (sv_jwt s)) (UserClaims_new now1 "user-admin" "admin" "admin" "access"
      (jc_access_token_expiry (sv_jwt s))) = Ok (ares_access_token r).
Proof.
  intros Hs He. unfold login. rewrite bool_decide_true by done. simpl. rewrite lookup_insert_eq. simpl.
  destruct (make_tokens_total (sv_jwt s) now1 now2 "user-admin" "admin" "admin" He) as [r Hr]. rewrite Hr.
  eexists _, r. split; [reflexivity|]. split; [simpl; apply lookup_insert_eq|]. by apply make_tokens_ok in Hr as [? _].
Qed.

(** ** What logging out does not take away *)

(** Logging out only stops the refresh token it names: access tokens keep their
    validity, and so does every other refresh token, also one that the refresh
    token was exchanged for. *)
Theorem logout_spares_others s t u now now1 now2 :
  length (sv_blacklist s) < 10000 →
  verify_access_token (logout s t) now u = verify_access_token s now u ∧
  refresh_token (logout s t) now now1 now2 t = None ∧
  (u ≠ t → refresh_token (logout s t) now now1 now2 u = refresh_token s now now1 now2 u).
Proof.
  intros Hl. split; [done|]. unfold refresh_token, logout. simpl.
  rewrite (bool_decide_false (10000 < _)) by (rewrite length_app; cbn [length]; lia). split.
  - by rewrite bool_decide_true by set_solver.
  - intros Hne. destruct (bool_decide (u ∈ sv_blacklist s)) eqn:E.
    + apply bool_decide_eq_true in E. by rewrite bool_decide_true by set_solver.
    + apply bool_decide_eq_false in E. by rewrite bool_decide_false by set_solver.
Qed.

(** A refresh token can be used again and again: using it changes nothing. *)
Theorem refresh_token_reusable s now now1 now2 t r later later1 later2 c :
  refresh_token s now now1 now2 t = Some r → verify_token (sv_jwt s) now t = Some c →
  verify_token (sv_jwt s) later t = Some c → (∀ c, ∃ t, jwt_encode (jc_secret (sv_jwt s)) c = Ok t) →
  ∃ r', refresh_token s later later1 later2 t = Some r'.
Proof.
  intros Hr Hc Hl He. unfold refresh_token in *. case_bool_decide; [done|]. rewrite Hc in Hr. rewrite Hl.
  case_bool_decide; [|done]. by apply make_tokens_total.
Qed.

(** Anyone can undo a logout: the list of logged out tokens forgets its oldest
    half when it grows past ten thousand, and entering a text into it needs no
    token.  After a logout of [t] and ten thousand others [t] refreshes again. *)
Definition logout_all s (tokens : list string) : AuthService := foldl logout s tokens.

Lemma logout_all_blacklist s tokens :
  length (sv_blacklist s) + length tokens ≤ 10000 →
  sv_blacklist (logout_all s tokens) = sv_blacklist s ++ tokens ∧ sv_jwt (logout_all s tokens) = sv_jwt s.
Proof.
  revert s. induction tokens as [|t tokens IH]; intros s Hl; [by rewrite app_nil_r|].
  cbn [length] in Hl. change (logout_all s (t :: tokens)) with (logout_all (logout s t) tokens).
  assert (sv_blacklist (logout s t) = sv_blacklist s ++ [t]) as E.
  { unfold logout. cbn [sv_blacklist]. rewrite bool_decide_false; [done|]. rewrite length_app. cbn [length]. lia. }
  destruct (IH (logout s t)) as [Hb Hj]; [rewrite E, length_app; cbn [length]; lia|].
  rewrite Hb, Hj, E, <-app_assoc. done.
Qed.

Theorem logout_forgotten s t others now now1 now2 last :
  sv_blacklist s = [] → S (length others) = 10000 → t ∉ others → last ≠ t →
  refresh_token s now now1 now2 t ≠ None →
  let s1 := logout_all s (t :: others) in
  refresh_token s1 now now1 now2 t = None ∧
  refresh_token (logout s1 last) now now1 now2 t = refresh_token s now now1 now2 t.
Proof.
  intros Hb Ho Ht Hl Hr. assert (5000 ≤ 10000) as H5 by (apply Nat.leb_le; vm_compute; reflexivity).
  destruct (logout_all_blacklist s (t :: others)) as [Eb Ej]; [rewrite Hb; cbn [length]; lia|].
  rewrite Hb in Eb. simpl app in Eb. cbv zeta. split.
  - unfold refresh_token. rewrite Eb. by rewrite bool_decide_true by left.
  - unfold refresh_token, logout. cbn [sv_blacklist sv_jwt]. rewrite Eb, Ej, Hb.
    assert (bool_decide (10000 < length ((t :: others) ++ [last])) = true) as ->.
    { apply bool_decide_eq_true. rewrite length_app. cbn [length]. lia. }
    rewrite (bool_decide_false (t ∈ [])) by (by intros ?%not_elem_of_nil). rewrite bool_decide_false; [done|].
    rewrite drop_app_le by (cbn [length]; lia). intros [Hin|Hin]%elem_of_app; [|by apply list_elem_of_singleton in Hin].
    apply Ht. replace 5000 with (S 4999) in Hin by lia. cbn [drop] in Hin.
    rewrite <-(take_drop 4999 others). apply elem_of_app. by right.
Qed.
End Facts.

(** ** A concrete service with one user *)

#[local] Instance user_jwt : JwtCodec UserClaims := plain_jwt uc_exp.
#[local] Instance user_laws : JwtLaws UserClaims uc_exp := plain_jwt_laws uc_exp.

Definition demo_user : User := MkUser "u1" "ada" "pw" "viewer".
Definition demo_service : AuthService := add_user (AuthService_new JwtConfig_default) demo_user.
Definition demo_login : AuthResult := default (MkAuthResult "" "" 0) (login demo_service 100 100 "ada" "pw").2.

Lemma demo_login_ok : login demo_service 100 100 "ada" "pw" = (demo_service, Some demo_login).
Proof. vm_compute. reflexivity. Qed.

(** Ada logs in with her password; her access token verifies a hundred seconds later
    as hers.  A second attempt with another password is refused and hands out nothing. *)
Lemma access_token_proves_login_witness :
  claims_identity <$> verify_access_token demo_service 200 (ares_access_token demo_login)
  = Some (MkIdentity "u1" "ada" "viewer") ∧
  (login demo_service 150 150 "ada" "guess").2 = None ∧
  ∃ users name password user, (users, name, password) ∈ [(sv_users demo_service, "ada", "pw")] ∧
    users !! name = Some user ∧ us_password_hash user = password ∧ us_id user = "u1".
Proof.
  assert (claims_identity <$> verify_access_token demo_service 200 (ares_access_token demo_login)
    = Some (MkIdentity "u1" "ada" "viewer")) as Hv by (vm_compute; reflexivity).
  assert (login demo_service 150 150 "ada" "guess" = (demo_service, None)) as Hg by (vm_compute; reflexivity).
  split; [exact Hv|]. split; [by rewrite Hg|].
  apply fmap_Some in Hv as (c & E & Hc). injection Hc as Hs Hn Hro.
  destruct (access_token_proves_login [(sv_users demo_service, "ada", "pw")]
    [ares_access_token demo_login; ares_refresh_token demo_login] demo_service (ares_access_token demo_login) 200 c)
    as (users & name & password & user & Hin & Hu & Hp & Hid & _); [|left|exact E|].
  { apply (sr_refused _ _ demo_service 150 150 "ada" "guess" demo_service); [|exact Hg].
    apply (sr_login [] [] demo_service 100 100 "ada" "pw" demo_service demo_login); [|exact demo_login_ok].
    apply (sr_add [] [] (AuthService_new JwtConfig_default)), sr_start. }
  exists users, name, password, user. split; [exact Hin|]. split; [exact Hu|]. split; [exact Hp|congruence].
Defined.
