(* ===== verification/Tenancy.v ===== *)
(** Roles, tenants and the audit log of the gateway
    ([crates/uhorse-gateway/src/auth/rbac.rs], [tenant.rs], [audit.rs]). *)
From S2P Require Import Prelude Json Permission.

(** ** Roles *)

Inductive Role := RoleAdmin | RoleOperator | RoleViewer.
Inductive ResourceType := ResAgent | ResSkill | ResSession | ResChannel | ResSystem | ResTenant.
Inductive AccessAction := ActCreate | ActRead | ActUpdate | ActDelete | ActExecute | ActManage.
#[export] Instance Role_eq_dec : EqDecision Role. Proof. solve_decision. Defined.
#[export] Instance ResourceType_eq_dec : EqDecision ResourceType. Proof. solve_decision. Defined.
#[export] Instance AccessAction_eq_dec : EqDecision AccessAction. Proof. solve_decision. Defined.

Definition Role_display (r : Role) : string :=
  match r with RoleAdmin => "admin" | RoleOperator => "operator" | RoleViewer => "viewer" end.

(** The error is its text. *)
Definition Role_from_str `{ToLowercase} (s : string) : Result Role string :=
  let l := to_lowercase s in
  if bool_decide (l = "admin") then Ok RoleAdmin
  else if bool_decide (l = "operator") then Ok RoleOperator
  else if bool_decide (l = "viewer") then Ok RoleViewer
  else Err ("Unknown role: " +:+ s).

(** The set of actions as the list it was made from. *)
Record AccessPermission := MkAccessPermission { ap_resource : ResourceType; ap_actions   : list AccessAction }.
Definition AccessPermission_can (p : AccessPermission) (a : AccessAction) : bool := bool_decide (a ∈ ap_actions p).

Record UserRole := MkUserRole {
  ur_user_id : string;
  ur_role : Role;
  ur_tenant_id : string;
  ur_custom_permissions : list AccessPermission
}.
Definition UserRole_new (user_id : string) (role : Role) (tenant_id : string) : UserRole :=
  MkUserRole user_id role tenant_id [].

(** The permissions of the roles, one entry for each. *)
Record RbacManager := MkRbacManager { rb_role_permissions : Role → option (list AccessPermission) }.

Definition RbacManager_new : RbacManager := MkRbacManager (λ r, Some
  match r with
  | RoleAdmin =>
      [MkAccessPermission ResAgent [ActCreate; ActRead; ActUpdate; ActDelete; ActExecute; ActManage];
       MkAccessPermission ResSkill [ActCreate; ActRead; ActUpdate; ActDelete; ActExecute];
       MkAccessPermission ResSession [ActRead; ActDelete; ActManage];
       MkAccessPermission ResChannel [ActCreate; ActRead; ActUpdate; ActDelete; ActManage];
       MkAccessPermission ResSystem [ActRead; ActManage];
       MkAccessPermission ResTenant [ActRead; ActManage]]
  | RoleOperator =>
      [MkAccessPermission ResAgent [ActCreate; ActRead; ActUpdate; ActExecute];
       MkAccessPermission ResSkill [ActCreate; ActRead; ActUpdate; ActExecute];
       MkAccessPermission ResSession [ActRead];
       MkAccessPermission ResChannel [ActRead];
       MkAccessPermission ResSystem [ActRead]]
  | RoleViewer =>
      [MkAccessPermission ResAgent [ActRead];
       MkAccessPermission ResSkill [ActRead];
       MkAccessPermission ResSession [ActRead];
       MkAccessPermission ResChannel [ActRead]]
  end).

Definition permits (resource : ResourceType) (action : AccessAction) (p : AccessPermission) : bool :=
  bool_decide (ap_resource p = resource) && AccessPermission_can p action.

Definition check_permission (m : RbacManager) (u : UserRole) (resource : ResourceType) (action : AccessAction) : bool :=
  existsb (permits resource action) (default [] (rb_role_permissions m (ur_role u)))
  || existsb (permits resource action) (ur_custom_permissions u).

(** ** Tenants *)

Inductive TenantPlan := PlanFree | PlanPro | PlanEnterprise.

Record ResourceQuota := MkResourceQuota {
  qu_max_agents : Z;
  qu_max_skills : Z;
  qu_messages_per_day : Z;
  qu_storage_bytes : Z;
  qu_requests_per_minute : Z
}.
Definition for_plan (p : TenantPlan) : ResourceQuota :=
  match p with
  | PlanFree => MkResourceQuota 3 10 100 (100 * 1024 * 1024) 30
  | PlanPro => MkResourceQuota 20 100 10000 (10 * 1024 * 1024 * 1024) 300
  | PlanEnterprise => MkResourceQuota 1000 10000 u32_max u64_max 10000
  end.

Record Tenant := MkTenant {
  tn_id : string;
  tn_name : string;
  tn_plan : TenantPlan;
  tn_quota : ResourceQuota;
  tn_enabled : bool;
  tn_created_at : timestamp;
  tn_updated_at : timestamp;
  tn_contact_email : option string
}.
Definition Tenant_new (uuid : string) (now : timestamp) (name : string) (plan : TenantPlan) : Tenant :=
  MkTenant uuid name plan (for_plan plan) true now now None.

(** [date] is the day the record was made on. *)
Record UsageRecord := MkUsageRecord {
  ug_tenant_id : string;
  ug_date : string;
  ug_agents_count : Z;
  ug_skills_count : Z;
  ug_messages_count : Z;
  ug_requests_count : Z;
  ug_storage_used : Z;
  ug_updated_at : timestamp
}.

Inductive QuotaCheck := QuotaAllowed | QuotaExceeded (resource : string) (current limit : Z).

Record TenantManager := MkTenantManager {
  tm_tenants : gmap string Tenant;
  tm_usage : gmap string UsageRecord
}.
Definition TenantManager_new : TenantManager := MkTenantManager ∅ ∅.

(** [format("%Y-%m-%d")]. *)
Class DateText := date_text : timestamp → string.

Section Tenants.
Context `{DateText}.

Definition UsageRecord_new (now : timestamp) (tenant_id : string) : UsageRecord :=
  MkUsageRecord tenant_id (date_text now) 0 0 0 0 0 now.

Definition create_tenant (m : TenantManager) (uuid : string) (now : timestamp) (name : string) (plan : TenantPlan)
    : TenantManager * Tenant :=
  let t := Tenant_new uuid now name plan in
  (MkTenantManager (<[uuid := t]> (tm_tenants m)) (<[uuid := UsageRecord_new now uuid]> (tm_usage m)), t).

Definition get_tenant (m : TenantManager) (id : string) : option Tenant := tm_tenants m !! id.

Definition set_plan (now : timestamp) (plan : TenantPlan) (t : Tenant) : Tenant :=
  MkTenant (tn_id t) (tn_name t) plan (for_plan plan) (tn_enabled t) (tn_created_at t) now (tn_contact_email t).
Definition update_plan (m : TenantManager) (now : timestamp) (id : string) (plan : TenantPlan)
    : TenantManager * option Tenant :=
  match tm_tenants m !! id with
  | Some t =>
      (MkTenantManager (<[id := set_plan now plan t]> (tm_tenants m)) (tm_usage m), Some (set_plan now plan t))
  | None => (m, None)
  end.

(** The resources with a quota: what is used, and the limit. *)
Definition resource_quota_of (resource : string) : option ((UsageRecord → Z) * (ResourceQuota → Z)) :=
  if bool_decide (resource = "agents") then Some (ug_agents_count, qu_max_agents)
  else if bool_decide (resource = "skills") then Some (ug_skills_count, qu_max_skills)
  else if bool_decide (resource = "messages") then Some (ug_messages_count, qu_messages_per_day)
  else if bool_decide (resource = "storage") then Some (ug_storage_used, qu_storage_bytes)
  else None.

Definition check_quota (m : TenantManager) (tenant_id resource : string) : QuotaCheck :=
  match get_tenant m tenant_id with
  | None => QuotaExceeded "tenant" 0 0
  | Some t =>
      match resource_quota_of resource with
      | Some (used, limit) =>
          let current := default 0%Z (used <$> tm_usage m !! tenant_id) in
          if bool_decide (limit (tn_quota t) ≤ current)%Z
          then QuotaExceeded resource current (limit (tn_quota t))
          else QuotaAllowed
      | None => QuotaAllowed
      end
  end.

(** [entry(..).or_insert_with(..)], then the change. *)
Definition upsert_usage (now : timestamp) (tenant_id : string) (f : UsageRecord → UsageRecord) (m : TenantManager)
    : TenantManager :=
  MkTenantManager (tm_tenants m)
    (<[tenant_id := f (default (UsageRecord_new now tenant_id) (tm_usage m !! tenant_id))]> (tm_usage m)).

Definition increment_messages (m : TenantManager) (now : timestamp) (tenant_id : string) (count : Z) : TenantManager :=
  upsert_usage now tenant_id (λ r,
    MkUsageRecord (ug_tenant_id r) (ug_date r) (ug_agents_count r) (ug_skills_count r)
      (wrap 64 (ug_messages_count r + count)) (ug_requests_count r) (ug_storage_used r) now) m.
Definition increment_requests (m : TenantManager) (now : timestamp) (tenant_id : string) (count : Z) : TenantManager :=
  upsert_usage now tenant_id (λ r,
    MkUsageRecord (ug_tenant_id r) (ug_date r) (ug_agents_count r) (ug_skills_count r)
      (ug_messages_count r) (wrap 64 (ug_requests_count r + count)) (ug_storage_used r) now) m.

Definition get_usage (m : TenantManager) (tenant_id : string) : option UsageRecord := tm_usage m !! tenant_id.
Definition list_tenants `{HashOrder} (m : TenantManager) : list Tenant := hash_values (tm_tenants m).
End Tenants.

(** ** The audit log *)

Section Audit.
Context `{JsonValue}.

Record AuditLog := MkAuditLog {
  al_id : string;
  al_tenant_id : string;
  al_user_id : string;
  al_action : AccessAction;
  al_resource_type : ResourceType;
  al_resource_id : option string;
  al_description : string;
  al_ip_address : option string;
  al_user_agent : option string;
  al_success : bool;
  al_error : option string;
  al_created_at : timestamp;
  al_metadata : option Value
}.

Record AuditQuery := MkAuditQuery {
  aq_tenant_id : option string;
  aq_user_id : option string;
  aq_action : option AccessAction;
  aq_resource_type : option ResourceType;
  aq_start_time : option timestamp;
  aq_end_time : option timestamp;
  aq_success : option bool;
  aq_page : option Z;
  aq_page_size : option Z
}.
Definition AuditQuery_default : AuditQuery := MkAuditQuery None None None None None None None None None.

Record AuditManager := MkAuditManager { am_logs : list AuditLog; am_max_logs : nat }.
Definition AuditManager_new (max_logs : nat) : AuditManager := MkAuditManager [] max_logs.

Definition log_entry (m : AuditManager) (e : AuditLog) : AuditManager :=
  MkAuditManager ((if bool_decide (am_max_logs m ≤ length (am_logs m)) then tail (am_logs m) else am_logs m) ++ [e])
    (am_max_logs m).

(** A filter that is not set lets everything pass. *)
Definition matches_filter {A} (o : option A) (f : A → bool) : bool := match o with Some a => f a | None => true end.

Definition query_matches (q : AuditQuery) (l : AuditLog) : bool :=
  matches_filter (aq_tenant_id q) (λ x, bool_decide (al_tenant_id l = x)) &&
  matches_filter (aq_user_id q) (λ x, bool_decide (al_user_id l = x)) &&
  matches_filter (aq_action q) (λ x, bool_decide (al_action l = x)) &&
  matches_filter (aq_resource_type q) (λ x, bool_decide (al_resource_type l = x)) &&
  matches_filter (aq_start_time q) (λ x, negb (bool_decide (al_created_at l < x)%Z)) &&
  matches_filter (aq_end_time q) (λ x, negb (bool_decide (x < al_created_at l)%Z)) &&
  matches_filter (aq_success q) (λ x, bool_decide (al_success l = x)).

(** Both products are [u32] arithmetic. *)
Definition audit_query (m : AuditManager) (q : AuditQuery) : list AuditLog :=
  let page := default 1%Z (aq_page q) in
  let page_size := default 50%Z (aq_page_size q) in
  take (Z.to_nat page_size)
    (drop (Z.to_nat (wrap 32 (wrap 32 (page - 1) * page_size))) (List.filter (query_matches q) (am_logs m))).

Definition audit_count (m : AuditManager) : nat := length (am_logs m).

(** [debug] stands for the derived texts of actions and resources, [rfc3339] for
    dates. *)
Definition csv_line (debug_action : AccessAction → string) (debug_resource : ResourceType → string)
    (rfc3339 : timestamp → string) (l : AuditLog) : string :=
  str_join "," [al_id l; al_tenant_id l; al_user_id l; debug_action (al_action l); debug_resource (al_resource_type l);
                default "" (al_resource_id l); al_description l; (if al_success l then "true" else "false");
                default "" (al_error l); rfc3339 (al_created_at l)] +:+ String "010" "".
Definition export_csv (debug_action : AccessAction → string) (debug_resource : ResourceType → string)
    (rfc3339 : timestamp → string) (m : AuditManager) (q : AuditQuery) : string :=
  foldl (λ csv l, csv +:+ csv_line debug_action debug_resource rfc3339 l)
    ("id,tenant_id,user_id,action,resource_type,resource_id,description,success,error,created_at" +:+ String "010" "")
    (audit_query m q).
End Audit.

(** * Theorems

   Roles include each other, quotas that are never used up or never reset, and
    what the audit log keeps and shows. *)

(** ** Roles *)

(** The roles include each other: what a viewer may do an operator may, and what an
    operator may do an administrator may, the custom permissions being equal. *)
Definition role_rank (r : Role) : nat := match r with RoleViewer => 0 | RoleOperator => 1 | RoleAdmin => 2 end.

Lemma role_permits_mono r1 r2 resource action :
  role_rank r1 ≤ role_rank r2 →
  existsb (permits resource action) (default [] (rb_role_permissions RbacManager_new r1)) = true →
  existsb (permits resource action) (default [] (rb_role_permissions RbacManager_new r2)) = true.
Proof. destruct r1, r2; simpl role_rank; try lia; intros _; by destruct resource, action. Qed.

Theorem roles_include u1 u2 resource action :
  role_rank (ur_role u1) ≤ role_rank (ur_role u2) →
  (∀ p, p ∈ ur_custom_permissions u1 → p ∈ ur_custom_permissions u2) →
  check_permission RbacManager_new u1 resource action = true →
  check_permission RbacManager_new u2 resource action = true.
Proof.
  intros Hr Hc. unfold check_permission. rewrite !orb_true_iff. intros [H1|H2].
  - left. by eapply role_permits_mono.
  - right. apply existsb_exists in H2 as (p & Hp & Hperm). apply existsb_exists. exists p. split; [|done].
    apply list_elem_of_In, Hc. by apply list_elem_of_In.
Qed.

(** A viewer without custom permissions only reads, and neither the system nor
    tenants. *)
Theorem viewer_only_reads id tenant resource action :
  check_permission RbacManager_new (UserRole_new id RoleViewer tenant) resource action = true ↔
  action = ActRead ∧ resource ≠ ResSystem ∧ resource ≠ ResTenant.
Proof. destruct resource, action; vm_compute; naive_solver. Qed.

(** Nobody but an administrator deletes or manages anything, unless a custom
    permission says so. *)
Theorem only_admins_delete u resource action :
  action = ActDelete ∨ action = ActManage → ur_custom_permissions u = [] →
  check_permission RbacManager_new u resource action = true → ur_role u = RoleAdmin.
Proof.
  intros Ha Hc. unfold check_permission. rewrite Hc. destruct (ur_role u), resource, action; naive_solver.
Qed.

Theorem Role_roundtrip `{ToLowercase} r : Role_from_str (Role_display r) = Ok r.
Proof. unfold Role_from_str. rewrite to_lowercase_ascii by (by destruct r). by destruct r. Qed.

(** ** Quotas *)

Section Quotas.
Context `{DateText}.

Inductive tenant_step : TenantManager → TenantManager → Prop :=
| ts_create m uuid now name plan :
    tm_tenants m !! uuid = None → tm_usage m !! uuid = None → tenant_step m (create_tenant m uuid now name plan).1
| ts_update m now id plan : tenant_step m (update_plan m now id plan).1
| ts_messages m now id count : tenant_step m (increment_messages m now id count)
| ts_requests m now id count : tenant_step m (increment_requests m now id count).

(** Nothing counts agents, skills or storage. *)
Definition uncounted (m : TenantManager) : Prop :=
  (∀ id r, tm_usage m !! id = Some r → ug_agents_count r = 0 ∧ ug_skills_count r = 0 ∧ ug_storage_used r = 0)%Z ∧
  ∀ id t, tm_tenants m !! id = Some t → tn_quota t = for_plan (tn_plan t).

Lemma tenant_step_uncounted m m' : uncounted m → tenant_step m m' → uncounted m'.
Proof.
  intros [Hu Ht] Hs. destruct Hs as [m uuid now name plan _ _|m now id plan|m now id count|m now id count]; simpl.
  - split; simpl; intros id x [[<- <-]|[_ ?]]%lookup_insert_Some; [done|by eapply Hu|done|by eapply Ht].
  - unfold update_plan. destruct (tm_tenants m !! id) as [t|] eqn:E; [|done]. split; [exact Hu|].
    simpl. intros id' x [[<- <-]|[_ ?]]%lookup_insert_Some; [done|by eapply Ht].
  - split; [|exact Ht]. simpl. intros id' x [[<- <-]|[_ ?]]%lookup_insert_Some; [|by eapply Hu].
    simpl. destruct (tm_usage m !! id) as [r|] eqn:E; [by eapply Hu|done].
  - split; [|exact Ht]. simpl. intros id' x [[<- <-]|[_ ?]]%lookup_insert_Some; [|by eapply Hu].
    simpl. destruct (tm_usage m !! id) as [r|] eqn:E; [by eapply Hu|done].
Qed.

(** The quotas on agents, skills and storage are never exceeded: whatever the
    manager is told, every tenant it knows passes these checks. *)
Theorem resource_quotas_never_exceeded m id t resource :
  rtc tenant_step TenantManager_new m → get_tenant m id = Some t →
  resource = "agents" ∨ resource = "skills" ∨ resource = "storage" →
  check_quota m id resource = QuotaAllowed.
Proof.
  intros Hr Ht Hres.
  assert (uncounted m) as [Hu Hq].
  { assert (uncounted TenantManager_new) as H0 by (split; intros ? ? Hl; simpl in Hl; by rewrite lookup_empty in Hl).
    revert H0. induction Hr as [|m1 m2 m3 Hs _ IH]; [done|]. intros H1. by eapply IH, tenant_step_uncounted. }
  unfold check_quota. rewrite Ht. pose proof (Hq id t Ht) as Eq.
  destruct Hres as [->|[->| ->]]; cbn [resource_quota_of]; unfold resource_quota_of; simpl; rewrite Eq;
    (destruct (tm_usage m !! id) as [r|] eqn:E; [destruct (Hu id r E) as (Ea & Es & Est)|]; simpl;
     rewrite ?Ea, ?Es, ?Est; by destruct (tn_plan t)).
Qed.

(** The daily quota of messages is a quota for ever: once it is used up it stays
    so, on whatever day, until the plan is changed or the counter overflows. *)
Theorem message_quota_never_resets m id t r now count other :
  get_tenant m id = Some t → get_usage m id = Some r →
  (qu_messages_per_day (tn_quota t) ≤ ug_messages_count r)%Z →
  (0 ≤ count)%Z → (ug_messages_count r + count < 2 ^ 64)%Z → (0 ≤ ug_messages_count r)%Z →
  (∃ c l, check_quota m id "messages" = QuotaExceeded "messages" c l) ∧
  (∃ c l, check_quota (increment_messages m now id count) id "messages" = QuotaExceeded "messages" c l) ∧
  (∃ c l, check_quota (increment_requests m now other count) id "messages" = QuotaExceeded "messages" c l) ∧
  ∃ r', get_usage (increment_messages m now id count) id = Some r' ∧ ug_date r' = ug_date r.
Proof.
  unfold get_tenant, get_usage. intros Ht Hu Hle Hc Hov Hpos. unfold check_quota, get_tenant. simpl. rewrite Ht.
  unfold resource_quota_of. simpl. rewrite Hu. simpl. rewrite bool_decide_true by done. split; [eauto|].
  rewrite lookup_insert_eq. simpl. rewrite wrap_small by lia. rewrite bool_decide_true by lia. split; [eauto|].
  split; [|eauto]. destruct (decide (other = id)) as [->|Hne].
  - rewrite lookup_insert_eq. simpl. rewrite Hu. simpl. rewrite bool_decide_true by done. eauto.
  - rewrite lookup_insert_ne by done. rewrite Hu. simpl. rewrite bool_decide_true by done. eauto.
Qed.
End Quotas.

(** ** The audit log *)

Section Audit.
Context `{JsonValue}.

Definition log_all (m : AuditManager) (es : list AuditLog) : AuditManager := foldl log_entry m es.

Lemma tail_drop {A} j (l : list A) : tail (drop j l) = drop (S j) l.
Proof. revert j. induction l as [|x l IH]; intros [|j]; [done..|]. apply IH. Qed.

(** The log holds the newest entries, as many as it may: at least one, though. *)
Theorem audit_keeps_newest n es :
  let k := Nat.max n 1 in
  am_logs (log_all (AuditManager_new n) es) = drop (length es - k) es ∧
  audit_count (log_all (AuditManager_new n) es) = Nat.min (length es) k.
Proof.
  intros k.
  assert (am_logs (log_all (AuditManager_new n) es) = drop (length es - k) es ∧
          am_max_logs (log_all (AuditManager_new n) es) = n) as [El _].
  { induction es as [|e es IH] using rev_ind; [done|]. destruct IH as [El En].
    unfold log_all in *. rewrite foldl_app. cbn [foldl]. revert El En.
    generalize (foldl log_entry (AuditManager_new n) es). intros m El En.
    unfold log_entry. cbn [am_logs am_max_logs]. rewrite El, En. split; [|done].
    rewrite length_drop, length_app. simpl. case_bool_decide as Hn.
    - rewrite tail_drop. destruct (decide (n = 0)) as [->|Hn0].
      + subst k. rewrite drop_app_ge, drop_ge by (simpl; lia). by replace (length es + 1 - Nat.max 0 1 - length es) with 0 by lia.
      + replace (length es + 1 - k) with (S (length es - k)) by lia. by rewrite drop_app_le by lia.
    - replace (length es - k) with 0 by lia. replace (length es + 1 - k) with 0 by lia. done. }
  split; [exact El|]. unfold audit_count. rewrite El, length_drop. lia.
Qed.

Definition paged (q : AuditQuery) (page size : Z) : AuditQuery :=
  MkAuditQuery (aq_tenant_id q) (aq_user_id q) (aq_action q) (aq_resource_type q) (aq_start_time q) (aq_end_time q)
    (aq_success q) (Some page) (Some size).

Lemma audit_page m q (p : nat) (size : nat) :
  (Z.of_nat p * Z.of_nat size < 2 ^ 32)%Z → (Z.of_nat p < 2 ^ 32)%Z →
  audit_query m (paged q (Z.of_nat (S p)) (Z.of_nat size))
  = take size (drop (p * size) (List.filter (query_matches q) (am_logs m))).
Proof.
  intros Hp Hp'. unfold audit_query. simpl aq_page. simpl aq_page_size. simpl default.
  replace (Z.of_nat (S p) - 1)%Z with (Z.of_nat p) by lia. rewrite (wrap_small 32 (Z.of_nat p)) by lia.
  rewrite wrap_small by lia. rewrite <-Nat2Z.inj_mul, !Nat2Z.id. done.
Qed.

(** The pages of a query partition what it matches, in order: the first [k] pages
    together are its first [k * size] entries. *)
Theorem audit_pages_partition m q size k :
  (Z.of_nat k * Z.of_nat size < 2 ^ 32)%Z → (Z.of_nat k < 2 ^ 32)%Z →
  concat ((λ p, audit_query m (paged q (Z.of_nat (S p)) (Z.of_nat size))) <$> seq 0 k)
  = take (k * size) (List.filter (query_matches q) (am_logs m)).
Proof.
  intros Hk Hk'. induction k as [|k IH]; [done|]. rewrite seq_S, fmap_app, concat_app, IH by nia. simpl.
  rewrite app_nil_r. change (S k) with (S (0 + k)) at 1. cbn [Nat.add]. rewrite audit_page by nia.
  rewrite take_take_drop. f_equal. lia.
Qed.

(** Page 0 is an arithmetic underflow: it shows the end of a list of four billion
    entries, and nothing of a shorter one. *)
Theorem page_zero_shows_nothing m q size :
  (0 < size < 2 ^ 32)%Z → (zlen (am_logs m) ≤ 2 ^ 32 - size)%Z → audit_query m (paged q 0 size) = [].
Proof.
  intros Hs Hl. unfold audit_query. simpl aq_page. simpl aq_page_size. simpl default.
  assert (wrap 32 (wrap 32 (0 - 1) * size) = 2 ^ 32 - size)%Z as ->.
  { unfold wrap. change ((0 - 1) mod 2 ^ 32)%Z with (2 ^ 32 - 1)%Z.
    replace ((2 ^ 32 - 1) * size)%Z with ((2 ^ 32 - size) + (size - 1) * 2 ^ 32)%Z by lia.
    rewrite Z.mod_add by done. apply Z.mod_small. lia. }
  rewrite drop_ge; [by rewrite take_nil|]. unfold zlen in Hl.
  pose proof (List.filter_length_le (query_matches (paged q 0 size)) (am_logs m)) as Hf. lia.
Qed.
End Audit.
