(* ===== verification/OAuth.v ===== *)
(** The authorization server ([crates/uhorse-sso/src/oauth2.rs]): clients,
    authorization codes and their exchange for tokens, refresh, validation and
    revocation.  The clock and the fresh identifiers are arguments. *)
From S2P Require Import Prelude Text.

(** [SsoError], as far as the crate builds it. *)
Inductive SsoError :=
| OidcError (m : string)
| SamlError (m : string)
| IdpError (m : string)
| TokenError (m : string)
| AuthenticationFailed (m : string)
| InvalidState (m : string).
Abbreviation SsoR T := (Result T SsoError).

Record OAuth2Config := MkOAuth2Config {
  oc_authorize_endpoint : string;
  oc_token_endpoint : string;
  oc_auth_code_ttl : Z;
  oc_access_token_ttl : Z;
  oc_refresh_token_ttl : Z;
  oc_enable_refresh_token : bool;
  oc_grant_types : list string;
  oc_response_types : list string
}.

Definition OAuth2Config_default : OAuth2Config :=
  MkOAuth2Config "/oauth2/authorize" "/oauth2/token" 600 3600 (86400 * 7) true
    ["authorization_code"; "client_credentials"; "refresh_token"] ["code"].

Record OAuth2Client := MkOAuth2Client {
  cli_client_id : string;
  cli_client_secret : string;
  cli_redirect_uris : list string;
  cli_name : string;
  cli_grant_types : list string;
  cli_scope : list string;
  cli_enabled : bool
}.

Definition OAuth2Client_new (uuid secret name : string) (redirect_uris : list string) : OAuth2Client :=
  MkOAuth2Client uuid secret redirect_uris name ["authorization_code"] ["openid"; "profile"] true.

Definition validate_redirect_uri (c : OAuth2Client) (uri : string) : bool :=
  existsb (λ u, bool_decide (u = uri)) (cli_redirect_uris c).
Definition validate_secret (c : OAuth2Client) (secret : string) : bool := bool_decide (cli_client_secret c = secret).

Record AuthorizationCode := MkAuthorizationCode {
  co_code : string;
  co_client_id : string;
  co_redirect_uri : string;
  co_user_id : string;
  co_scope : list string;
  co_state : option string;
  co_created_at : timestamp;
  co_expires_at : timestamp;
  co_used : bool
}.

Definition AuthorizationCode_new (uuid : string) (now : timestamp) (client_id redirect_uri user_id : string)
    (scope : list string) (ttl_secs : Z) : AuthorizationCode :=
  MkAuthorizationCode uuid client_id redirect_uri user_id scope None now (now + seconds (as_i64 ttl_secs)) false.

Definition code_expired (now : timestamp) (c : AuthorizationCode) : bool := bool_decide (co_expires_at c < now)%Z.
Definition mark_used (c : AuthorizationCode) : AuthorizationCode :=
  MkAuthorizationCode (co_code c) (co_client_id c) (co_redirect_uri c) (co_user_id c) (co_scope c) (co_state c)
    (co_created_at c) (co_expires_at c) true.

Record TokenResponse := MkTokenResponse {
  tr_access_token : string;
  tr_token_type : string;
  tr_expires_in : Z;
  tr_refresh_token : option string;
  tr_scope : option string;
  tr_id_token : option string
}.

Record TokenInfo := MkTokenInfo {
  ti_access_token : string;
  ti_refresh_token : option string;
  ti_client_id : string;
  ti_user_id : string;
  ti_scope : list string;
  ti_created_at : timestamp;
  ti_expires_at : timestamp
}.
Definition token_expired (now : timestamp) (t : TokenInfo) : bool := bool_decide (ti_expires_at t < now)%Z.

(** Access and refresh tokens share one map. *)
Record OAuth2Server := MkOAuth2Server {
  sr_config : OAuth2Config;
  sr_clients : gmap string OAuth2Client;
  sr_auth_codes : gmap string AuthorizationCode;
  sr_tokens : gmap string TokenInfo
}.
Definition OAuth2Server_new (config : OAuth2Config) : OAuth2Server := MkOAuth2Server config ∅ ∅ ∅.
Definition set_codes (s : OAuth2Server) (c : gmap string AuthorizationCode) : OAuth2Server :=
  MkOAuth2Server (sr_config s) (sr_clients s) c (sr_tokens s).
Definition set_tokens (s : OAuth2Server) (t : gmap string TokenInfo) : OAuth2Server :=
  MkOAuth2Server (sr_config s) (sr_clients s) (sr_auth_codes s) t.

Definition register_client (s : OAuth2Server) (c : OAuth2Client) : OAuth2Server :=
  MkOAuth2Server (sr_config s) (<[cli_client_id c := c]> (sr_clients s)) (sr_auth_codes s) (sr_tokens s).
Definition get_client (s : OAuth2Server) (client_id : string) : option OAuth2Client := sr_clients s !! client_id.

Definition create_auth_code (s : OAuth2Server) (uuid : string) (now : timestamp)
    (client_id redirect_uri user_id : string) (scope : list string) : OAuth2Server * AuthorizationCode :=
  let c := AuthorizationCode_new uuid now client_id redirect_uri user_id scope (oc_auth_code_ttl (sr_config s)) in
  (set_codes s (<[uuid := c]> (sr_auth_codes s)), c).

(** [replace('-', "")]. *)
Definition remove_dashes (s : string) : string := str_concat (str_split "-" s).

(** What the making of tokens reads: two UUIDs and the date. *)
Record token_env := MkTokenEnv { te_access_uuid : string; te_refresh_uuid : string; te_now : timestamp }.

Definition token_info (env : token_env) (ttl : Z) (access : string) (refresh : option string)
    (client_id user_id : string) (scope : list string) : TokenInfo :=
  MkTokenInfo access refresh client_id user_id scope (te_now env) (te_now env + seconds (as_i64 ttl)).

Definition generate_token_response (env : token_env) (s : OAuth2Server) (client_id user_id : string)
    (scope : list string) : OAuth2Server * TokenResponse :=
  let access := remove_dashes (te_access_uuid env) in
  let refresh := if oc_enable_refresh_token (sr_config s) then Some (remove_dashes (te_refresh_uuid env)) else None in
  let info ttl := token_info env ttl access refresh client_id user_id scope in
  let t1 := <[access := info (oc_access_token_ttl (sr_config s))]> (sr_tokens s) in
  let t2 := match refresh with
            | Some r => <[r := info (oc_refresh_token_ttl (sr_config s))]> t1
            | None => t1
            end in
  (set_tokens s t2,
   MkTokenResponse access "Bearer" (oc_access_token_ttl (sr_config s)) refresh (Some (str_join " " scope)) None).

(** The checks of a code, in the order of the code. *)
Definition check_code (now : timestamp) (c : AuthorizationCode) (client_id redirect_uri : string) : SsoR unit :=
  if negb (bool_decide (co_client_id c = client_id)) then Err (AuthenticationFailed "Client ID mismatch")
  else if negb (bool_decide (co_redirect_uri c = redirect_uri)) then
    Err (AuthenticationFailed "Redirect URI mismatch")
  else if co_used c then Err (InvalidState "Authorization code already used")
  else if code_expired now c then Err (InvalidState "Authorization code expired")
  else Ok tt.

(** The lock of the codes is held throughout. *)
Definition exchange_auth_code (now : timestamp) (env : token_env) (s : OAuth2Server)
    (code client_id redirect_uri : string) : OAuth2Server * SsoR TokenResponse :=
  match sr_auth_codes s !! code with
  | None => (s, Err (InvalidState "Invalid authorization code"))
  | Some c =>
      match check_code now c client_id redirect_uri with
      | Err e => (s, Err e)
      | Ok _ =>
          let '(s', r) := generate_token_response env (set_codes s (<[code := mark_used c]> (sr_auth_codes s)))
                            client_id (co_user_id c) (co_scope c) in
          (s', Ok r)
      end
  end.

Definition refresh_oauth_token (now : timestamp) (env : token_env) (s : OAuth2Server) (token client_id : string)
    : OAuth2Server * SsoR TokenResponse :=
  match sr_tokens s !! token with
  | None => (s, Err (InvalidState "Invalid refresh token"))
  | Some t =>
      if negb (bool_decide (ti_client_id t = client_id)) then (s, Err (AuthenticationFailed "Client ID mismatch"))
      else if token_expired now t then (s, Err (InvalidState "Refresh token expired"))
      else
        let '(s', r) := generate_token_response env s client_id (ti_user_id t) (ti_scope t) in
        (s', Ok r)
  end.

Definition validate_token (now : timestamp) (s : OAuth2Server) (access_token : string) : SsoR TokenInfo :=
  match sr_tokens s !! access_token with
  | None => Err (TokenError "Invalid access token")
  | Some t => if token_expired now t then Err (TokenError "Access token expired") else Ok t
  end.

Definition revoke_oauth_token (s : OAuth2Server) (token : string) : OAuth2Server * bool :=
  (set_tokens s (delete token (sr_tokens s)), bool_decide (is_Some (sr_tokens s !! token))).

(** ** Histories of calls *)

Inductive oauth_call :=
| CRegister (c : OAuth2Client)
| CCode (uuid : string) (now : timestamp) (client_id redirect_uri user_id : string) (scope : list string)
| CExchange (now : timestamp) (env : token_env) (code client_id redirect_uri : string)
| CRefresh (now : timestamp) (env : token_env) (token client_id : string)
| CRevoke (token : string).

(** One call, with the tokens it answers, if any. *)
Definition oauth_call_step (s : OAuth2Server) (c : oauth_call) : OAuth2Server * option TokenResponse :=
  let answered (x : OAuth2Server * SsoR TokenResponse) :=
    (x.1, match x.2 with Ok r => Some r | Err _ => None end) in
  match c with
  | CRegister c => (register_client s c, None)
  | CCode uuid now client uri user scope => ((create_auth_code s uuid now client uri user scope).1, None)
  | CExchange now env code client uri => answered (exchange_auth_code now env s code client uri)
  | CRefresh now env token client => answered (refresh_oauth_token now env s token client)
  | CRevoke token => ((revoke_oauth_token s token).1, None)
  end.

Definition oauth_run (s : OAuth2Server) (cs : list oauth_call) : OAuth2Server :=
  foldl (λ s c, (oauth_call_step s c).1) s cs.

(** * Theorems

   The authorization server: what an exchange answers, how often a code is
    exchanged, where tokens come from, and what the server does not ask. *)

Implicit Types (s : OAuth2Server) (c : AuthorizationCode) (t : TokenInfo).

(** ** Single calls *)

Lemma check_code_ok now c client uri :
  check_code now c client uri = Ok tt ↔
  co_client_id c = client ∧ co_redirect_uri c = uri ∧ co_used c = false ∧ (now ≤ co_expires_at c)%Z.
Proof.
  unfold check_code, code_expired. destruct (co_used c); repeat case_bool_decide; simpl; naive_solver lia.
Qed.

Lemma exchange_inv now env s code client uri s' r :
  exchange_auth_code now env s code client uri = (s', Ok r) →
  ∃ c, sr_auth_codes s !! code = Some c ∧ check_code now c client uri = Ok tt ∧
    generate_token_response env (set_codes s (<[code := mark_used c]> (sr_auth_codes s))) client (co_user_id c)
      (co_scope c) = (s', r).
Proof.
  unfold exchange_auth_code. destruct (_ !! code) as [c|]; [|done].
  destruct (check_code _ _ _ _) as [[]|] eqn:E; [|done].
  destruct (generate_token_response _ _ _ _ _) eqn:G. intros [= -> ->]. eauto.
Qed.

Lemma refresh_inv now env s token client s' r :
  refresh_oauth_token now env s token client = (s', Ok r) →
  ∃ t, sr_tokens s !! token = Some t ∧ ti_client_id t = client ∧ (now ≤ ti_expires_at t)%Z ∧
    generate_token_response env s client (ti_user_id t) (ti_scope t) = (s', r).
Proof.
  unfold refresh_oauth_token, token_expired. destruct (_ !! token) as [t|]; [|done].
  repeat case_bool_decide; cbn [negb]; try done.
  destruct (generate_token_response _ _ _ _ _) eqn:G. intros [= -> ->]. exists t. repeat split; auto; lia.
Qed.

(** A call that fails changes nothing. *)
Lemma failed_exchange_keeps now env s code client uri e :
  (exchange_auth_code now env s code client uri).2 = Err e →
  (exchange_auth_code now env s code client uri).1 = s.
Proof.
  unfold exchange_auth_code. destruct (_ !! code) as [c|]; [|done].
  by destruct (check_code _ _ _ _) as [[]|].
Qed.

Lemma failed_refresh_keeps now env s token client e :
  (refresh_oauth_token now env s token client).2 = Err e → (refresh_oauth_token now env s token client).1 = s.
Proof.
  unfold refresh_oauth_token. destruct (_ !! token) as [t|]; [|done]. by repeat (case_bool_decide || case_match; simpl).
Qed.

(** A new pair leaves the other tokens, and the codes, as they are. *)
Lemma generated_token env s client user scope tk t :
  sr_tokens (generate_token_response env s client user scope).1 !! tk = Some t →
  sr_tokens s !! tk = Some t ∨ (ti_client_id t = client ∧ ti_user_id t = user ∧ ti_scope t = scope).
Proof.
  unfold generate_token_response. simpl. destruct (oc_enable_refresh_token _); simpl.
  - rewrite !lookup_insert_Some. intros [[_ <-]|[_ [[_ <-]|[_ ?]]]]; auto.
  - rewrite lookup_insert_Some. intros [[_ <-]|[_ ?]]; auto.
Qed.

Lemma generated_keeps env s client user scope tk :
  is_Some (sr_tokens s !! tk) → is_Some (sr_tokens (generate_token_response env s client user scope).1 !! tk).
Proof.
  intros Ht. unfold generate_token_response. simpl.
  destruct (oc_enable_refresh_token _); rewrite ?lookup_insert_is_Some'; auto.
Qed.

(** A code is exchanged exactly by the client and the address it was made for,
    once, and before its date. *)
Theorem exchange_spec now env s code client uri :
  is_ok (exchange_auth_code now env s code client uri).2 = true ↔
  ∃ c, sr_auth_codes s !! code = Some c ∧ co_client_id c = client ∧ co_redirect_uri c = uri ∧
    co_used c = false ∧ (now ≤ co_expires_at c)%Z.
Proof.
  unfold exchange_auth_code. destruct (_ !! code) as [c|]; [|simpl; naive_solver].
  pose proof (check_code_ok now c client uri) as C.
  destruct (check_code _ _ _ _) as [[]|]; simpl; naive_solver.
Qed.

(** ** Histories *)

Lemma oauth_run_app s cs ds : oauth_run s (cs ++ ds) = oauth_run (oauth_run s cs) ds.
Proof. apply foldl_app. Qed.

(** How often a code was made, and how often it was exchanged for tokens. *)
Definition creates (code : string) (c : oauth_call) : bool :=
  match c with CCode uuid _ _ _ _ _ => bool_decide (uuid = code) | _ => false end.
Definition exchanges (code : string) (c : oauth_call) : bool :=
  match c with CExchange _ _ code' _ _ => bool_decide (code' = code) | _ => false end.
Definition created (code : string) (cs : list oauth_call) : nat := length (List.filter (creates code) cs).
Fixpoint exchanged (code : string) (s : OAuth2Server) (cs : list oauth_call) : nat :=
  match cs with
  | [] => 0
  | c :: cs =>
      let '(s', r) := oauth_call_step s c in
      (if exchanges code c && bool_decide (is_Some r) then 1 else 0) + exchanged code s' cs
  end.

(** One for a code that can still be exchanged. *)
Definition open_code (code : string) (s : OAuth2Server) : nat :=
  match sr_auth_codes s !! code with Some c => if co_used c then 0 else 1 | None => 0 end.

Lemma generate_keeps_codes env s client user scope :
  sr_auth_codes (generate_token_response env s client user scope).1 = sr_auth_codes s.
Proof. done. Qed.

Lemma call_spends_code code s (c : oauth_call) :
  (if exchanges code c && bool_decide (is_Some (oauth_call_step s c).2) then 1 else 0)
    + open_code code (oauth_call_step s c).1
  ≤ open_code code s + (if creates code c then 1 else 0).
Proof.
  destruct c as [cl|uuid now client uri user scope|now env code' client uri|now env tk client|tk]; simpl.
  - unfold open_code. simpl. lia.
  - unfold open_code, create_auth_code. simpl. case_bool_decide as E.
    + subst. rewrite lookup_insert_eq. simpl. lia.
    + rewrite lookup_insert_ne by done. lia.
  - destruct (exchange_auth_code now env s code' client uri) as [s' [r|e]] eqn:E; simpl.
    + apply exchange_inv in E as (c & Hc & (_ & _ & Hu & _)%check_code_ok & G).
      pose proof (generate_keeps_codes env (set_codes s (<[code' := mark_used c]> (sr_auth_codes s))) client
        (co_user_id c) (co_scope c)) as K. rewrite G in K. simpl in K. unfold open_code. rewrite K.
      case_bool_decide as D; simpl.
      * subst. rewrite lookup_insert_eq, Hc, Hu. simpl. lia.
      * rewrite lookup_insert_ne by done. lia.
    + pose proof (failed_exchange_keeps now env s code' client uri e) as K. rewrite E in K. simpl in K.
      rewrite andb_false_r, K by done. lia.
  - unfold refresh_oauth_token. destruct (_ !! tk) as [t|]; [|simpl; lia].
    repeat (case_bool_decide || case_match; simpl); unfold open_code; simpl; lia.
  - unfold open_code. simpl. lia.
Qed.

Lemma exchanged_bound code cs : ∀ s, exchanged code s cs ≤ open_code code s + created code cs.
Proof.
  induction cs as [|c cs IH]; intros s; simpl; [lia|].
  pose proof (call_spends_code code s c) as B. unfold created in *. simpl.
  destruct (oauth_call_step s c) as [s' r]. simpl in *. specialize (IH s').
  destruct (creates code c); simpl; lia.
Qed.

(** C35. Over any history of a server, a code is exchanged for tokens at most as often
    as it was made, so once when identifiers are fresh. *)
Theorem code_exchanged_once config cs code :
  exchanged code (OAuth2Server_new config) cs ≤ created code cs.
Proof. apply exchanged_bound. Qed.

(** *** Where tokens come from *)

(** A code was made for this client, user and scope, and exchanged. *)
Definition granted (cs : list oauth_call) (client user : string) (scope : list string) : Prop :=
  ∃ uuid uri, (∃ now, CCode uuid now client uri user scope ∈ cs) ∧
              (∃ now env, CExchange now env uuid client uri ∈ cs).

Definition code_known (cs : list oauth_call) (code : string) (c : AuthorizationCode) : Prop :=
  ∃ now, CCode code now (co_client_id c) (co_redirect_uri c) (co_user_id c) (co_scope c) ∈ cs.

Record sound (cs : list oauth_call) (s : OAuth2Server) : Prop := {
  codes_known : map_Forall (code_known cs) (sr_auth_codes s);
  tokens_granted : map_Forall (λ _ t, granted cs (ti_client_id t) (ti_user_id t) (ti_scope t)) (sr_tokens s)
}.

Lemma granted_mono cs ds client user scope : granted cs client user scope → granted (cs ++ ds) client user scope.
Proof. unfold granted. setoid_rewrite elem_of_app. naive_solver. Qed.

Lemma sound_mono cs ds s : sound cs s → sound (cs ++ ds) s.
Proof.
  intros [C T]. split; eapply map_Forall_impl; [done| |done|].
  - intros k c [now Hc]. exists now. set_solver.
  - intros k t Ht. by apply granted_mono.
Qed.

Lemma sound_tokens cs s s' client user scope env :
  sound cs s → granted cs client user scope →
  sr_auth_codes s' = sr_auth_codes s →
  sr_tokens s' = sr_tokens (generate_token_response env s client user scope).1 → sound cs s'.
Proof.
  intros [C T] G Ec Et. split; [by rewrite Ec|]. rewrite Et. intros tk t Ht.
  apply generated_token in Ht as [Ht|(-> & -> & ->)]; [by apply T in Ht|done].
Qed.

Lemma call_sound cs s (c : oauth_call) : sound cs s → sound (cs ++ [c]) (oauth_call_step s c).1.
Proof.
  intros S. apply (sound_mono _ [c]) in S as S'. destruct S' as [C T].
  destruct c as [cl|uuid now client uri user scope|now env code client uri|now env tk client|tk]; simpl.
  - by split.
  - split; [|done]. apply map_Forall_insert_2; [|done]. exists now. set_solver.
  - destruct (exchange_auth_code now env s code client uri) as [s' [r|e]] eqn:E; simpl.
    + apply exchange_inv in E as (c & Hc & (Hcl & Huri & _)%check_code_ok & G).
      pose proof (codes_known _ _ S _ _ Hc) as [now' Hin]. apply (f_equal fst) in G. simpl in G. subst s' client uri.
      apply (sound_tokens _ (set_codes s (<[code := mark_used c]> (sr_auth_codes s))) _
        (co_client_id c) (co_user_id c) (co_scope c) env); [|..|done|done].
      * split; [|done]. simpl. apply map_Forall_insert_2; [|done]. exists now'. set_solver.
      * exists code, (co_redirect_uri c). split; [exists now'|exists now, env]; set_solver.
    + pose proof (failed_exchange_keeps now env s code client uri e) as K. rewrite E in K. simpl in K.
      rewrite K by done. by split.
  - destruct (refresh_oauth_token now env s tk client) as [s' [r|e]] eqn:E; simpl.
    + apply refresh_inv in E as (t & Ht & <- & _ & G). apply (f_equal fst) in G. simpl in G. subst s'.
      eapply sound_tokens; [by split|by apply (T _ _ Ht)|done|done].
    + pose proof (failed_refresh_keeps now env s tk client e) as K. rewrite E in K. simpl in K.
      rewrite K by done. by split.
  - split; [done|]. by apply map_Forall_delete.
Qed.

Lemma run_sound config cs : sound cs (oauth_run (OAuth2Server_new config) cs).
Proof.
  induction cs as [|c cs IH] using rev_ind; [by split|].
  rewrite oauth_run_app. simpl. by apply call_sound.
Qed.

(** C38. A token that validates stands for a user for whom a code was made, and its
    client exchanged that code with the address it was made for. *)
Theorem valid_token_was_granted config cs now token t :
  validate_token now (oauth_run (OAuth2Server_new config) cs) token = Ok t →
  granted cs (ti_client_id t) (ti_user_id t) (ti_scope t).
Proof.
  unfold validate_token. destruct (_ !! token) as [t'|] eqn:E; [|done].
  destruct (token_expired now t'); [done|]. intros [= ->]. by apply (tokens_granted _ _ (run_sound config cs) _ _ E).
Qed.

(** ** What the server does not ask *)

(** Whether a client is registered, enabled, or knows its secret: no answer
    depends on the clients. *)
Theorem clients_never_consulted s1 s2 (c : oauth_call) :
  sr_config s1 = sr_config s2 → sr_auth_codes s1 = sr_auth_codes s2 → sr_tokens s1 = sr_tokens s2 →
  (oauth_call_step s1 c).2 = (oauth_call_step s2 c).2 ∧
  sr_auth_codes (oauth_call_step s1 c).1 = sr_auth_codes (oauth_call_step s2 c).1 ∧
  sr_tokens (oauth_call_step s1 c).1 = sr_tokens (oauth_call_step s2 c).1.
Proof.
  destruct s1 as [k cl1 codes toks], s2 as [k2 cl2 codes2 toks2]. simpl. intros -> -> ->.
  destruct c as [cl|uuid now client uri user scope|now env code client uri|now env tk client|tk]; try done; simpl.
  - unfold exchange_auth_code. simpl. destruct (codes2 !! code) as [c|]; [|done].
    by destruct (check_code _ _ _ _).
  - unfold refresh_oauth_token. simpl. destruct (toks2 !! tk) as [t|]; [|done].
    case_bool_decide; simpl; [|done]. by destruct (token_expired now t).
Qed.

(** ** Access and refresh tokens *)

(** The two tokens of one answer. *)
Lemma generated_pair env s client user scope :
  let '(s', r) := generate_token_response env s client user scope in
  remove_dashes (te_access_uuid env) ≠ remove_dashes (te_refresh_uuid env) →
  oc_enable_refresh_token (sr_config s) = true →
  ∃ refresh, tr_refresh_token r = Some refresh ∧ tr_access_token r ≠ refresh ∧
    sr_tokens s' !! tr_access_token r
    = Some (token_info env (oc_access_token_ttl (sr_config s)) (tr_access_token r) (Some refresh) client user scope) ∧
    sr_tokens s' !! refresh
    = Some (token_info env (oc_refresh_token_ttl (sr_config s)) (tr_access_token r) (Some refresh) client user scope).
Proof.
  unfold generate_token_response. simpl. intros N En. rewrite En. eexists. split; [done|]. split; [done|].
  split; [by rewrite lookup_insert_ne, lookup_insert_eq|by rewrite lookup_insert_eq].
Qed.

Lemma validate_stored now s token t :
  sr_tokens s !! token = Some t → (now ≤ ti_expires_at t)%Z → validate_token now s token = Ok t.
Proof.
  intros Ht Hn. unfold validate_token, token_expired. rewrite Ht. by rewrite bool_decide_eq_false_2 by lia.
Qed.

Lemma refresh_stored now env s token t client :
  sr_tokens s !! token = Some t → (now ≤ ti_expires_at t)%Z → ti_client_id t = client →
  refresh_oauth_token now env s token client
  = let '(s', r) := generate_token_response env s client (ti_user_id t) (ti_scope t) in (s', Ok r).
Proof.
  intros Ht Hn <-. unfold refresh_oauth_token, token_expired. rewrite Ht.
  rewrite bool_decide_eq_true_2 by done. simpl. by rewrite bool_decide_eq_false_2 by lia.
Qed.

(** Both tokens of an answer work as both: the refresh token opens what an access
    token opens for its whole, longer life, and the access token refreshes. *)
Theorem tokens_are_interchangeable env s client user scope s' r now env' :
  generate_token_response env s client user scope = (s', r) →
  remove_dashes (te_access_uuid env) ≠ remove_dashes (te_refresh_uuid env) →
  oc_enable_refresh_token (sr_config s) = true →
  ∃ refresh, tr_refresh_token r = Some refresh ∧
    ((now ≤ te_now env + seconds (as_i64 (oc_refresh_token_ttl (sr_config s))))%Z →
       ∃ t, validate_token now s' refresh = Ok t ∧ ti_user_id t = user) ∧
    ((now ≤ te_now env + seconds (as_i64 (oc_access_token_ttl (sr_config s))))%Z →
       ∃ s'' r', refresh_oauth_token now env' s' (tr_access_token r) client = (s'', Ok r')).
Proof.
  intros G N En. pose proof (generated_pair env s client user scope) as P. rewrite G in P.
  destruct (P N En) as (refresh & Hr & _ & Ha & Hf). exists refresh. split; [done|]. split; intros Hn.
  - eexists. split; [by apply validate_stored|done].
  - erewrite refresh_stored by done. eauto.
Qed.

(** Revoking an access token leaves its refresh token, which makes a new one; and
    a refresh token that was used can be used again. *)
Theorem revoked_access_token_returns env s client user scope s' r now env' :
  generate_token_response env s client user scope = (s', r) →
  remove_dashes (te_access_uuid env) ≠ remove_dashes (te_refresh_uuid env) →
  oc_enable_refresh_token (sr_config s) = true →
  (now ≤ te_now env + seconds (as_i64 (oc_refresh_token_ttl (sr_config s))))%Z →
  let revoked := (revoke_oauth_token s' (tr_access_token r)).1 in
  validate_token now revoked (tr_access_token r) = Err (TokenError "Invalid access token") ∧
  ∃ refresh s2 r2, tr_refresh_token r = Some refresh ∧
    refresh_oauth_token now env' revoked refresh client = (s2, Ok r2) ∧ tr_scope r2 = tr_scope r ∧
    is_Some (sr_tokens s2 !! refresh).
Proof.
  intros G N En Hn revoked. pose proof (generated_pair env s client user scope) as P. rewrite G in P.
  destruct (P N En) as (refresh & Hr & Hne & Ha & Hf). split.
  { unfold validate_token, revoked. simpl. by rewrite lookup_delete_eq. }
  assert (sr_tokens revoked !! refresh = Some (token_info env (oc_refresh_token_ttl (sr_config s)) (tr_access_token r)
    (Some refresh) client user scope)) as K by (simpl; by rewrite lookup_delete_ne).
  exists refresh. erewrite refresh_stored by done. do 2 eexists. split; [done|]. split; [done|]. split.
  - unfold generate_token_response in G. by simplify_eq/=.
  - apply generated_keeps. rewrite K. eauto.
Qed.

(** ** Examples *)

Definition demo_env (a r : string) (now : timestamp) : token_env := MkTokenEnv a r now.
Definition demo_history : list oauth_call :=
  [CCode "code-1" 0 "client" "https://app/cb" "alice" ["openid"];
   CExchange 1 (demo_env "a-1" "r-1" 1) "code-1" "other" "https://app/cb";
   CExchange 2 (demo_env "a-2" "r-2" 2) "code-1" "client" "https://app/cb";
   CExchange 3 (demo_env "a-3" "r-3" 3) "code-1" "client" "https://app/cb"].
Example demo_exchanged : exchanged "code-1" (OAuth2Server_new OAuth2Config_default) demo_history = 1.
Proof. vm_compute. reflexivity. Qed.

Lemma valid_token_was_granted_witness :
  let s := oauth_run (OAuth2Server_new OAuth2Config_default) demo_history in
  let t := token_info (demo_env "a-2" "r-2" 2) 3600 "a2" (Some "r2") "client" "alice" ["openid"] in
  validate_token 4 s "a2" = Ok t ∧ granted demo_history "client" "alice" ["openid"].
Proof.
  assert (validate_token 4 (oauth_run (OAuth2Server_new OAuth2Config_default) demo_history) "a2"
    = Ok (token_info (demo_env "a-2" "r-2" 2) 3600 "a2" (Some "r2") "client" "alice" ["openid"])) as E
    by (vm_compute; reflexivity).
  split; [exact E|]. exact (valid_token_was_granted OAuth2Config_default demo_history 4 "a2" _ E).
Defined.
