(* ===== verification/Oidc.v ===== *)
(** The clients of identity providers: OpenID Connect
    ([crates/uhorse-sso/src/oidc.rs]), the presets of the known providers
    ([idp.rs]) and SAML ([saml.rs]).  Requests are values handed to an HTTP client
    that is a parameter, as are form encoding, base64 and the JSON readers. *)
From S2P Require Import Prelude Text Json Planner OAuth.

(** ** What the crates give *)

(** [url::form_urlencoded::byte_serialize]. *)
Class FormEncode := form_encode : string → string.

(** The engines of base64, on byte strings. *)
Class Base64 := {
  b64_encode : string → string;
  b64_decode : string → Result string string;
  b64url_decode : string → Result string string
}.

Inductive http_request :=
| PostForm (url : string) (params : list (string * string))
| GetBearer (url token : string)
| HttpGet (url : string).

(** The status with its text, and the body or the error of reading it. *)
Record http_answer := MkHttpAnswer {
  ha_status : Z;
  ha_status_text : string;
  ha_body : Result string string
}.
Class Http := http_send : http_request → Result http_answer string.

Definition is_success (a : http_answer) : bool := bool_decide (200 ≤ ha_status a < 300)%Z.

(** The derived readers and the accessor of the JSON crate used here. *)
Class JsonReaders `{JsonValue} (Discovery Tokens IdpTokens Info Payload : Type) := {
  read_discovery : string → Result Discovery string;
  read_tokens : string → Result Tokens string;
  read_idp_tokens : string → Result IdpTokens string;
  read_userinfo : string → Result Info string;
  read_id_token : string → Result Payload string;
  read_value : string → Result Value string;
  as_bool : Value → option bool
}.

(** ** OpenID Connect *)

Record OidcDiscovery := MkOidcDiscovery {
  od_issuer : string;
  od_authorization_endpoint : string;
  od_token_endpoint : string;
  od_userinfo_endpoint : option string;
  od_jwks_uri : string;
  od_response_types_supported : list string;
  od_response_modes_supported : option (list string);
  od_grant_types_supported : option (list string);
  od_subject_types_supported : list string;
  od_id_token_signing_alg_values_supported : list string;
  od_scopes_supported : list string;
  od_claims_supported : option (list string);
  od_token_endpoint_auth_methods_supported : option (list string);
  od_code_challenge_methods_supported : option (list string)
}.

Record OidcConfig := MkOidcConfig {
  cf_issuer : string;
  cf_authorization_endpoint : string;
  cf_token_endpoint : string;
  cf_userinfo_endpoint : string;
  cf_jwks_uri : string;
  cf_response_types_supported : list string;
  cf_scopes_supported : list string;
  cf_client_id : string;
  cf_client_secret : string;
  cf_redirect_uri : string
}.

Definition from_discovery (d : OidcDiscovery) (client_id client_secret redirect_uri : string) : OidcConfig :=
  MkOidcConfig (od_issuer d) (od_authorization_endpoint d) (od_token_endpoint d)
    (default "" (od_userinfo_endpoint d)) (od_jwks_uri d) (od_response_types_supported d) (od_scopes_supported d)
    client_id client_secret redirect_uri.

Record Address := MkAddress {
  ad_formatted : option string;
  ad_street_address : option string;
  ad_locality : option string;
  ad_region : option string;
  ad_postal_code : option string;
  ad_country : option string
}.

Record UserInfo := MkUserInfo {
  ui_sub : string;
  ui_name : option string;
  ui_given_name : option string;
  ui_family_name : option string;
  ui_middle_name : option string;
  ui_nickname : option string;
  ui_preferred_username : option string;
  ui_profile : option string;
  ui_picture : option string;
  ui_website : option string;
  ui_email : option string;
  ui_email_verified : option bool;
  ui_gender : option string;
  ui_birthdate : option string;
  ui_zoneinfo : option string;
  ui_locale : option string;
  ui_phone_number : option string;
  ui_phone_number_verified : option bool;
  ui_address : option Address;
  ui_updated_at : option Z
}.

Record IdTokenPayload := MkIdTokenPayload {
  ip_iss : string;
  ip_sub : string;
  ip_aud : string;
  ip_exp : Z;
  ip_iat : Z;
  ip_auth_time : option Z;
  ip_nonce : option string;
  ip_email : option string;
  ip_email_verified : option bool;
  ip_name : option string
}.

Record OidcTokenResponse := MkOidcTokens {
  ot_access_token : string;
  ot_token_type : string;
  ot_expires_in : option Z;
  ot_refresh_token : option string;
  ot_id_token : option string;
  ot_scope : option string
}.

Definition id_token_expired (now : timestamp) (p : IdTokenPayload) : bool :=
  bool_decide (ip_exp p < now / nanos_per_sec)%Z.
Definition verify_audience (p : IdTokenPayload) (client_id : string) : bool := bool_decide (ip_aud p = client_id).
Definition verify_issuer (p : IdTokenPayload) (issuer : string) : bool := bool_decide (ip_iss p = issuer).

(** The configuration is the client's whole state. *)
Definition verify_id_token (now : timestamp) (config : OidcConfig) (p : IdTokenPayload) (nonce : option string)
    : SsoR bool :=
  if negb (verify_issuer p (cf_issuer config)) then Err (OidcError "Invalid issuer")
  else if negb (verify_audience p (cf_client_id config)) then Err (OidcError "Invalid audience")
  else if id_token_expired now p then Err (OidcError "ID token expired")
  else match nonce with
       | Some expected => if negb (bool_decide (ip_nonce p = Some expected)) then Err (OidcError "Invalid nonce") else Ok true
       | None => Ok true
       end.

(** ** Providers *)

Inductive IdpType := Okta | Auth0 | AzureAd | GoogleWorkspace | OneLogin | CustomIdp.
Definition IdpType_display (t : IdpType) : string :=
  match t with
  | Okta => "okta"
  | Auth0 => "auth0"
  | AzureAd => "azure_ad"
  | GoogleWorkspace => "google_workspace"
  | OneLogin => "onelogin"
  | CustomIdp => "custom"
  end.

Record IdpConfig := MkIdpConfig {
  id_idp_type : IdpType;
  id_client_id : string;
  id_client_secret : string;
  id_issuer_url : string;
  id_authorization_endpoint : option string;
  id_token_endpoint : option string;
  id_userinfo_endpoint : option string;
  id_jwks_uri : option string;
  id_redirect_uri : string;
  id_scopes : list string;
  id_extra_params : gmap string string
}.

Definition idp_preset (t : IdpType) (issuer auth token info jwks client_id client_secret redirect_uri : string)
    : IdpConfig :=
  MkIdpConfig t client_id client_secret issuer (Some auth) (Some token) (Some info) (Some jwks) redirect_uri
    ["openid"; "profile"; "email"] ∅.

Definition okta (domain client_id client_secret redirect_uri : string) : IdpConfig :=
  let at_domain path := "https://" +:+ domain +:+ path in
  idp_preset Okta ("https://" +:+ domain) (at_domain "/oauth2/v1/authorize") (at_domain "/oauth2/v1/token")
    (at_domain "/oauth2/v1/userinfo") (at_domain "/oauth2/v1/keys") client_id client_secret redirect_uri.
Definition auth0 (domain client_id client_secret redirect_uri : string) : IdpConfig :=
  let at_domain path := "https://" +:+ domain +:+ path in
  idp_preset Auth0 ("https://" +:+ domain) (at_domain "/authorize") (at_domain "/oauth/token")
    (at_domain "/userinfo") (at_domain "/.well-known/jwks.json") client_id client_secret redirect_uri.
Definition azure_ad (tenant_id client_id client_secret redirect_uri : string) : IdpConfig :=
  let at_tenant path := "https://login.microsoftonline.com/" +:+ tenant_id +:+ path in
  idp_preset AzureAd (at_tenant "/v2.0") (at_tenant "/oauth2/v2.0/authorize") (at_tenant "/oauth2/v2.0/token")
    "https://graph.microsoft.com/oidc/userinfo" (at_tenant "/discovery/v2.0/keys") client_id client_secret
    redirect_uri.
Definition google_workspace (client_id client_secret redirect_uri : string) : IdpConfig :=
  idp_preset GoogleWorkspace "https://accounts.google.com" "https://accounts.google.com/o/oauth2/v2/auth"
    "https://oauth2.googleapis.com/token" "https://openidconnect.googleapis.com/v1/userinfo"
    "https://www.googleapis.com/oauth2/v3/certs" client_id client_secret redirect_uri.

Record IdpTokenResponse := MkIdpTokens {
  it_access_token : string;
  it_token_type : string;
  it_expires_in : option Z;
  it_refresh_token : option string;
  it_id_token : option string;
  it_scope : option string;
  it_token_type_ext : option string
}.

(** The keys of the user information that are no custom attributes. *)
Definition standard_keys : list string :=
  ["sub"; "email"; "email_verified"; "name"; "given_name"; "family_name"; "picture"; "locale"; "organization_id";
   "tenant_id"; "department"; "dept"; "title"; "job_title"; "groups"; "roles"].

Section Clients.
Context `{FormEncode, Base64, JV : JsonValue, !JsonShape, !Http}.
Context `{!JsonReaders OidcDiscovery OidcTokenResponse IdpTokenResponse UserInfo IdTokenPayload}.

(** [k=v] with the value encoded. *)
Definition encoded_param (p : string * string) : string := p.1 +:+ "=" +:+ form_encode p.2.

(** The parameters both kinds of clients ask with. *)
Definition code_params (client_id redirect_uri scope state nonce : string) : string :=
  str_join "&" [encoded_param ("client_id", client_id); encoded_param ("redirect_uri", redirect_uri);
                "response_type=code"; encoded_param ("scope", scope); encoded_param ("state", state);
                encoded_param ("nonce", nonce)].

Definition Oidc_authorization_url (c : OidcConfig) (state nonce : string) : string :=
  cf_authorization_endpoint c +:+ "?" +:+
  code_params (cf_client_id c) (cf_redirect_uri c) "openid profile email" state nonce.

(** One request whose answer is read from JSON: [failed] begins the error of a
    request, [failure] is the rest of it for a status that is no success. *)
Definition json_request {T} (mk : string → SsoError) (failed document : string) (failure : http_answer → string)
    (read : string → Result T string) (r : http_request) : SsoR T :=
  match http_send r with
  | Err e => Err (mk (failed +:+ ": " +:+ e))
  | Ok a =>
      if negb (is_success a) then Err (mk (failed +:+ failure a))
      else match result_bind (ha_body a) read with
           | Ok v => Ok v
           | Err e => Err (mk ("Failed to parse " +:+ document +:+ ": " +:+ e))
           end
  end.
Definition body_text (a : http_answer) : string := ": " +:+ unwrap_or (ha_body a) "".

Definition discover (issuer_url : string) : SsoR OidcDiscovery :=
  json_request OidcError "Discovery request failed" "discovery document" (λ a, " with status: " +:+ ha_status_text a) read_discovery
    (HttpGet (issuer_url +:+ "/.well-known/openid-configuration")).

Definition Oidc_exchange_code (c : OidcConfig) (code : string) : SsoR OidcTokenResponse :=
  json_request OidcError "Token request failed" "token response" body_text read_tokens
    (PostForm (cf_token_endpoint c)
       [("grant_type", "authorization_code"); ("code", code); ("redirect_uri", cf_redirect_uri c);
        ("client_id", cf_client_id c); ("client_secret", cf_client_secret c)]).

Definition Oidc_get_userinfo (c : OidcConfig) (access_token : string) : SsoR UserInfo :=
  json_request OidcError "UserInfo request failed" "user info" body_text read_userinfo
    (GetBearer (cf_userinfo_endpoint c) access_token).

Definition Oidc_refresh_token (c : OidcConfig) (token : string) : SsoR OidcTokenResponse :=
  json_request OidcError "Token refresh failed" "token response" body_text read_tokens
    (PostForm (cf_token_endpoint c)
       [("grant_type", "refresh_token"); ("refresh_token", token); ("client_id", cf_client_id c);
        ("client_secret", cf_client_secret c)]).

(** The signature is the third part; it is not looked at. *)
Definition parse_id_token (id_token : string) : SsoR IdTokenPayload :=
  match str_split "." id_token with
  | [_; part; _] =>
      match b64url_decode part with
      | Err e => Err (OidcError ("Failed to decode ID token: " +:+ e))
      | Ok bytes =>
          match read_id_token bytes with
          | Ok p => Ok p
          | Err e => Err (OidcError ("Failed to parse ID token payload: " +:+ e))
          end
      end
  | _ => Err (OidcError "Invalid ID token format")
  end.

(** [None] is the panic of a missing endpoint. *)
Definition Idp_authorization_url `{HashOrder} (c : IdpConfig) (state nonce : string) : option string :=
  endpoint ← id_authorization_endpoint c;
  Some (foldl (λ url kv, url +:+ "&" +:+ form_encode kv.1 +:+ "=" +:+ form_encode kv.2)
          (endpoint +:+ "?" +:+ code_params (id_client_id c) (id_redirect_uri c) (str_join " " (id_scopes c)) state nonce)
          (hash_order (id_extra_params c))).

Definition Idp_exchange_code (c : IdpConfig) (code : string) : option (SsoR IdpTokenResponse) :=
  endpoint ← id_token_endpoint c;
  Some (json_request IdpError "Token request failed" "token response" body_text read_idp_tokens
    (PostForm endpoint
       [("grant_type", "authorization_code"); ("code", code); ("redirect_uri", id_redirect_uri c);
        ("client_id", id_client_id c); ("client_secret", id_client_secret c)])).

Definition Idp_refresh_token (c : IdpConfig) (token : string) : option (SsoR IdpTokenResponse) :=
  endpoint ← id_token_endpoint c;
  Some (json_request IdpError "Token refresh failed" "token response" body_text read_idp_tokens
    (PostForm endpoint
       [("grant_type", "refresh_token"); ("refresh_token", token); ("client_id", id_client_id c);
        ("client_secret", id_client_secret c)])).

Record IdpUserInfo := MkIdpUserInfo {
  iu_sub : string;
  iu_email : option string;
  iu_email_verified : option bool;
  iu_name : option string;
  iu_given_name : option string;
  iu_family_name : option string;
  iu_picture : option string;
  iu_locale : option string;
  iu_organization_id : option string;
  iu_department : option string;
  iu_title : option string;
  iu_groups : option (list string);
  iu_roles : option (list string);
  iu_custom_attributes : gmap string Value
}.

(** [raw[key].as_str()], and with a second key when the first is no text. *)
Definition text_at (raw : Value) (key : string) : option string := get raw key ≫= as_str.
Definition text_at_either (raw : Value) (key key2 : string) : option string :=
  or_else (text_at raw key) (text_at raw key2).
Definition texts_at (raw : Value) (key : string) : option (list string) :=
  match get raw key with
  | Some v => match as_array v with Some arr => Some (omap as_str (arr : list Value)) | None => None end
  | None => None
  end.

Definition custom_attributes (raw : Value) : gmap string Value :=
  list_to_map (List.filter (λ kv, negb (bool_decide (kv.1 ∈ standard_keys))) (default [] (as_object raw))).

Definition parse_userinfo (raw : Value) : IdpUserInfo :=
  MkIdpUserInfo (default "" (text_at raw "sub")) (text_at raw "email") (get raw "email_verified" ≫= as_bool)
    (text_at raw "name") (text_at raw "given_name") (text_at raw "family_name") (text_at raw "picture")
    (text_at raw "locale") (text_at_either raw "organization_id" "tenant_id")
    (text_at_either raw "department" "dept") (text_at_either raw "title" "job_title")
    (texts_at raw "groups") (texts_at raw "roles") (custom_attributes raw).

Definition Idp_get_userinfo (c : IdpConfig) (access_token : string) : option (SsoR IdpUserInfo) :=
  endpoint ← id_userinfo_endpoint c;
  Some (let? raw := json_request IdpError "UserInfo request failed" "user info" body_text read_value (GetBearer endpoint access_token) in
        Ok (parse_userinfo raw)).

Definition revoke_url (c : IdpConfig) : option string :=
  match id_idp_type c with
  | Okta => Some (id_issuer_url c +:+ "/oauth2/v1/revoke")
  | Auth0 => Some (id_issuer_url c +:+ "/oauth/revoke")
  | GoogleWorkspace => Some "https://oauth2.googleapis.com/revoke"
  | _ => None
  end.

Definition Idp_revoke_token (c : IdpConfig) (token : string) : SsoR bool :=
  match revoke_url c with
  | None => Ok false
  | Some url =>
      match http_send (PostForm url [("token", token); ("client_id", id_client_id c);
                                     ("client_secret", id_client_secret c)]) with
      | Err e => Err (IdpError ("Token revocation failed: " +:+ e))
      | Ok a => Ok (is_success a)
      end
  end.
End Clients.

(** * SAML

   The SAML client ([crates/uhorse-sso/src/saml.rs]): the requests it writes and
    the responses it reads by searching the text.  The date as the request writes
    it and the identifiers are arguments. *)

Record SamlConfig := MkSamlConfig {
  sm_idp_metadata_url : string;
  sm_idp_entity_id : string;
  sm_idp_sso_url : string;
  sm_idp_slo_url : option string;
  sm_sp_entity_id : string;
  sm_sp_acs_url : string;
  sm_sp_slo_url : option string;
  sm_idp_certificate : string;
  sm_sp_private_key : option string;
  sm_sp_certificate : option string;
  sm_name_id_format : string;
  sm_signature_algorithm : string;
  sm_digest_algorithm : string
}.
Definition SamlConfig_default : SamlConfig :=
  MkSamlConfig "" "" "" None "" "" None "" None None "urn:oasis:names:tc:SAML:2.0:nameid-format:transient"
    "http://www.w3.org/2001/04/xmldsig-more#rsa-sha256" "http://www.w3.org/2001/04/xmlenc#sha256".

Record SamlSubjectConfirmation := MkConfirmation {
  sc_method : string;
  sc_not_on_or_after : timestamp;
  sc_recipient : string
}.
Record SamlSubject := MkSamlSubject {
  ss_name_id : string;
  ss_name_id_format : string;
  ss_confirmation : option SamlSubjectConfirmation
}.
Record SamlConditions := MkSamlConditions {
  sd_not_before : timestamp;
  sd_not_on_or_after : timestamp;
  sd_audience_restrictions : list string
}.
Record SamlAuthnContext := MkAuthnContext {
  sx_class_ref : string;
  sx_authn_instant : timestamp;
  sx_session_index : option string
}.
Record SamlAssertion := MkSamlAssertion {
  sa_id : string;
  sa_issue_instant : timestamp;
  sa_issuer : string;
  sa_subject : SamlSubject;
  sa_conditions : option SamlConditions;
  sa_attributes : gmap string (list string);
  sa_authn_context : option SamlAuthnContext
}.
Record SamlResponse := MkSamlResponse {
  sp_raw_xml : string;
  sp_assertion : SamlAssertion;
  sp_signature_valid : bool
}.

(** A line feed with the indentation of the templates. *)
Definition newline (spaces : string) : string := String "010" spaces.
Definition attribute (name value : string) : string := name +:+ "=" +:+ in_quotes value.

(** [xml[k..]], for [k] in range. *)
Definition find_from (k : nat) (xml sub : string) : option nat := String.index k sub xml.

(** The text after the first [start] up to the next [stop]. *)
Definition between (start stop xml : string) : option string :=
  match find_from 0 xml start with
  | Some i =>
      let from := i + String.length start in
      match find_from 0 (slice_from from xml) stop with
      | Some j => Some (String.substring from j xml)
      | None => None
      end
  | None => None
  end.

Definition extract_element_content (xml tag : string) : option string :=
  match between ("<" +:+ tag +:+ ">") ("</" +:+ tag +:+ ">") xml with
  | Some s => Some (str_trim s)
  | None => None
  end.
Definition extract_attribute (xml attr : string) : option string := between (attr +:+ "=" +:+ dquote) dquote xml.

(** The first attribute value of the statement; [None] is the panic of a slice
    whose end lies before its start. *)
Definition parse_attributes (xml : string) : option (gmap string (list string)) :=
  match find_from 0 xml "<saml:AttributeStatement>" with
  | Some i =>
      match find_from 0 xml "</saml:AttributeStatement>" with
      | Some j =>
          if bool_decide (j < i) then None
          else Some (match extract_element_content (String.substring i (j - i) xml) "saml:AttributeValue" with
                     | Some email => {["email" := [email]]}
                     | None => ∅
                     end)
      | None => Some ∅
      end
  | None => Some ∅
  end.

Definition parse_assertion (now : timestamp) (xml : string) : option SamlAssertion :=
  attributes ← parse_attributes xml;
  Some (MkSamlAssertion (default "" (extract_attribute xml "ID")) now
    (default "" (extract_element_content xml "saml:Issuer"))
    (MkSamlSubject (default "" (extract_element_content xml "saml:NameID")) (default "" (extract_attribute xml "Format"))
       None) None attributes None).

Section Oidc.
Context `{FormEncode, Base64, Http} (from_utf8 : string → Result string string).

Definition auth_request (c : SamlConfig) (uuid_simple issue_instant : string) : string :=
  "<samlp:AuthnRequest " +:+ attribute "xmlns:samlp" "urn:oasis:names:tc:SAML:2.0:protocol" +:+ newline "    "
  +:+ attribute "ID" ("id" +:+ uuid_simple) +:+ newline "    " +:+ attribute "Version" "2.0" +:+ newline "    "
  +:+ attribute "IssueInstant" issue_instant +:+ newline "    "
  +:+ attribute "ProtocolBinding" "urn:oasis:names:tc:SAML:2.0:bindings:HTTP-POST" +:+ newline "    "
  +:+ attribute "AssertionConsumerServiceURL" (sm_sp_acs_url c) +:+ ">" +:+ newline "    "
  +:+ "<saml:Issuer " +:+ attribute "xmlns:saml" "urn:oasis:names:tc:SAML:2.0:assertion" +:+ ">" +:+ sm_sp_entity_id c
  +:+ "</saml:Issuer>" +:+ newline "    " +:+ "<samlp:NameIDPolicy "
  +:+ attribute "xmlns:samlp" "urn:oasis:names:tc:SAML:2.0:protocol" +:+ newline "        "
  +:+ attribute "Format" (sm_name_id_format c) +:+ newline "        " +:+ attribute "AllowCreate" "true" +:+ "/>"
  +:+ newline "" +:+ "</samlp:AuthnRequest>".

Definition generate_auth_request (c : SamlConfig) (uuid_simple issue_instant : string) (relay_state : option string)
    : string :=
  let encoded := b64_encode (auth_request c uuid_simple issue_instant) in
  match relay_state with
  | Some state => sm_idp_sso_url c +:+ "?SAMLRequest=" +:+ form_encode encoded +:+ "&RelayState=" +:+ form_encode state
  | None => sm_idp_sso_url c +:+ "?SAMLRequest=" +:+ form_encode encoded
  end.

(** [None] is a panic; the signature is never verified. *)
Definition parse_response (now : timestamp) (saml_response : string) : option (SsoR SamlResponse) :=
  match b64_decode saml_response with
  | Err e => Some (Err (SamlError ("Failed to decode SAML response: " +:+ e)))
  | Ok decoded =>
      match from_utf8 decoded with
      | Err e => Some (Err (SamlError ("Invalid UTF-8 in SAML response: " +:+ e)))
      | Ok raw_xml =>
          assertion ← parse_assertion now raw_xml;
          Some (Ok (MkSamlResponse raw_xml assertion false))
      end
  end.

Definition logout_request (c : SamlConfig) (uuid_simple issue_instant name_id : string) (session_index : option string)
    : string :=
  "<samlp:LogoutRequest " +:+ attribute "xmlns:samlp" "urn:oasis:names:tc:SAML:2.0:protocol" +:+ newline "    "
  +:+ attribute "ID" ("id" +:+ uuid_simple) +:+ newline "    " +:+ attribute "Version" "2.0" +:+ newline "    "
  +:+ attribute "IssueInstant" issue_instant +:+ ">" +:+ newline "    "
  +:+ "<saml:Issuer " +:+ attribute "xmlns:saml" "urn:oasis:names:tc:SAML:2.0:assertion" +:+ ">" +:+ sm_sp_entity_id c
  +:+ "</saml:Issuer>" +:+ newline "    "
  +:+ "<saml:NameID " +:+ attribute "xmlns:saml" "urn:oasis:names:tc:SAML:2.0:assertion" +:+ newline "        "
  +:+ attribute "Format" (sm_name_id_format c) +:+ ">" +:+ name_id +:+ "</saml:NameID>" +:+ newline "    "
  +:+ match session_index with
      | Some s => "<samlp:SessionIndex>" +:+ s +:+ "</samlp:SessionIndex>"
      | None => ""
      end
  +:+ newline "" +:+ "</samlp:LogoutRequest>".

Definition generate_logout_request (c : SamlConfig) (uuid_simple issue_instant name_id : string)
    (session_index : option string) : string :=
  b64_encode (logout_request c uuid_simple issue_instant name_id session_index).

Definition generate_sp_metadata (c : SamlConfig) : string :=
  "<md:EntityDescriptor " +:+ attribute "xmlns:md" "urn:oasis:names:tc:SAML:2.0:metadata" +:+ newline "    "
  +:+ attribute "entityID" (sm_sp_entity_id c) +:+ ">" +:+ newline "    "
  +:+ "<md:SPSSODescriptor " +:+ attribute "protocolSupportEnumeration" "urn:oasis:names:tc:SAML:2.0:protocol" +:+ ">"
  +:+ newline "        " +:+ "<md:NameIDFormat>" +:+ sm_name_id_format c +:+ "</md:NameIDFormat>" +:+ newline "        "
  +:+ "<md:AssertionConsumerService " +:+ attribute "Binding" "urn:oasis:names:tc:SAML:2.0:bindings:HTTP-POST"
  +:+ newline "            " +:+ attribute "Location" (sm_sp_acs_url c) +:+ newline "            " +:+ attribute "index" "1"
  +:+ "/>" +:+ newline "    " +:+ "</md:SPSSODescriptor>" +:+ newline "" +:+ "</md:EntityDescriptor>".

(** The configuration after reading the metadata. *)
Definition apply_metadata (c : SamlConfig) (metadata : string) : SamlConfig :=
  MkSamlConfig (sm_idp_metadata_url c)
    (default "" (or_else (extract_element_content metadata "md:EntityID") (extract_attribute metadata "entityID")))
    (default "" (or_else (extract_element_content metadata "md:Location") (extract_attribute metadata "Location")))
    (sm_idp_slo_url c) (sm_sp_entity_id c) (sm_sp_acs_url c) (sm_sp_slo_url c)
    (default (sm_idp_certificate c) (extract_element_content metadata "ds:X509Certificate"))
    (sm_sp_private_key c) (sm_sp_certificate c) (sm_name_id_format c) (sm_signature_algorithm c)
    (sm_digest_algorithm c).

Definition load_idp_metadata (c : SamlConfig) (metadata_url : string) : SamlConfig * SsoR unit :=
  match http_send (HttpGet metadata_url) with
  | Err e => (c, Err (SamlError ("Failed to fetch IdP metadata: " +:+ e)))
  | Ok a =>
      if negb (is_success a) then (c, Err (SamlError ("Failed to fetch IdP metadata: HTTP " +:+ ha_status_text a)))
      else match ha_body a with
           | Err e => (c, Err (SamlError ("Failed to read IdP metadata: " +:+ e)))
           | Ok metadata => (apply_metadata c metadata, Ok tt)
           end
  end.
End Oidc.
