(* ===== verification/SsoFacts.v ===== *)
(** The clients of identity providers: which identity tokens are accepted, what an
    authorization URL says, what is kept of the user information, and what the
    reading of a SAML response does not check. *)
From S2P Require Import Prelude Text Json Planner OAuth Oidc.

(** ** Laws of the encodings *)

(** The bytes a form-encoded text consists of. *)
Definition form_byte (c : Ascii.ascii) : bool :=
  let n := byte_of c in
  bool_decide (48 ≤ n ≤ 57 ∨ 65 ≤ n ≤ 90 ∨ 97 ≤ n ≤ 122 ∨ n ∈ [37; 42; 43; 45; 46; 95]).

Class FormEncodeLaws `{FormEncode} := {
  form_encode_safe s : str_forallb form_byte (form_encode s) = true;
  #[global] form_encode_inj :: Inj (=) (=) form_encode
}.

Class Base64Laws `{Base64} := {
  b64_round_trip s : b64_decode (b64_encode s) = Ok s;
  b64url_any s : ∃ t, b64url_decode t = Ok s ∧ str_forallb (λ c, negb (Ascii.eqb c ".")) t = true
}.

(** ** Authorization URLs *)

Section Urls.
Context `{FormEncodeLaws}.

Definition plain_name (k : string) : bool := str_forallb (λ c, negb (Ascii.eqb c "&")) k.

Lemma encoded_param_plain k v : plain_name k = true → plain_name (encoded_param (k, v)) = true.
Proof.
  unfold plain_name, encoded_param. simpl. intros Hk. rewrite !str_forallb_app, Hk. simpl.
  apply (str_forallb_impl form_byte); [|apply form_encode_safe].
  intros c Hc. destruct (Ascii.eqb_spec c "&") as [->|]; [by vm_compute in Hc|done].
Qed.

(** The query has the six parameters meant, whatever the values contain. *)
Theorem code_params_split client uri scope state nonce :
  str_split "&" (code_params client uri scope state nonce)
  = [encoded_param ("client_id", client); encoded_param ("redirect_uri", uri); "response_type=code";
     encoded_param ("scope", scope); encoded_param ("state", state); encoded_param ("nonce", nonce)].
Proof.
  unfold code_params. change "&" with (String "&" ""). apply str_split_of_join; [done|].
  repeat constructor; try done; by apply encoded_param_plain.
Qed.

(** Different requests have different URLs: no value reads as part of another. *)
Theorem authorization_url_inj c uri1 uri2 id1 id2 state1 state2 nonce1 nonce2 :
  let config id uri := MkOidcConfig (cf_issuer c) (cf_authorization_endpoint c) (cf_token_endpoint c)
    (cf_userinfo_endpoint c) (cf_jwks_uri c) (cf_response_types_supported c) (cf_scopes_supported c) id
    (cf_client_secret c) uri in
  Oidc_authorization_url (config id1 uri1) state1 nonce1 = Oidc_authorization_url (config id2 uri2) state2 nonce2 →
  id1 = id2 ∧ uri1 = uri2 ∧ state1 = state2 ∧ nonce1 = nonce2.
Proof.
  intros config E. unfold Oidc_authorization_url in E. simpl in E. apply str_app_cancel_l, str_app_cancel_l in E.
  apply (f_equal (str_split "&")) in E. rewrite !code_params_split in E.
  injection E as E1 E2 E3 E4. rewrite !str_app_nil_l in *. split_and!; by apply (inj form_encode).
Qed.
End Urls.

(** ** Identity tokens *)

(** An identity token is accepted exactly when it names the issuer, the client
    and the nonce asked with and has not expired. *)
Theorem verify_id_token_spec now config p nonce :
  verify_id_token now config p nonce = Ok true ↔
  ip_iss p = cf_issuer config ∧ ip_aud p = cf_client_id config ∧ (now / nanos_per_sec ≤ ip_exp p)%Z ∧
  (∀ n, nonce = Some n → ip_nonce p = Some n).
Proof.
  unfold verify_id_token, verify_issuer, verify_audience, id_token_expired.
  destruct nonce as [n|]; repeat case_bool_decide; simpl; naive_solver lia.
Qed.

Section Tokens.
Context `{Base64Laws, JV : JsonValue, !JsonShape}.
Context `{!JsonReaders OidcDiscovery OidcTokenResponse IdpTokenResponse UserInfo IdTokenPayload}.

Definition no_dot (s : string) : Prop := str_forallb (λ c, negb (Ascii.eqb c ".")) s = true.

Lemma parse_id_token_parts header payload signature :
  no_dot header → no_dot payload → no_dot signature →
  parse_id_token (header +:+ "." +:+ payload +:+ "." +:+ signature) =
  match b64url_decode payload with
  | Err e => Err (OidcError ("Failed to decode ID token: " +:+ e))
  | Ok bytes => match read_id_token bytes with
                | Ok p => Ok p
                | Err e => Err (OidcError ("Failed to parse ID token payload: " +:+ e))
                end
  end.
Proof.
  intros Hh Hp Hs. unfold parse_id_token.
  assert (str_split "." (header +:+ "." +:+ payload +:+ "." +:+ signature) = [header; payload; signature]) as ->; [|done].
  change (header +:+ "." +:+ payload +:+ "." +:+ signature)
    with (str_join (String "." "") [header; payload; signature]).
  apply str_split_of_join; [done|]. by repeat constructor.
Qed.

(** Anyone can write an identity token for any user: whatever stands for the
    signature, a payload with the right fields is read and accepted. *)
Theorem id_token_forgeable now config text p nonce header signature :
  read_id_token text = Ok p → no_dot header → no_dot signature →
  ip_iss p = cf_issuer config → ip_aud p = cf_client_id config → (now / nanos_per_sec ≤ ip_exp p)%Z →
  (∀ n, nonce = Some n → ip_nonce p = Some n) →
  ∃ payload, parse_id_token (header +:+ "." +:+ payload +:+ "." +:+ signature) = Ok p ∧
    verify_id_token now config p nonce = Ok true.
Proof.
  intros Hr Hh Hs Hi Ha He Hn. destruct (b64url_any text) as (payload & Hd & Hp). exists payload. split.
  - rewrite parse_id_token_parts by done. by rewrite Hd, Hr.
  - by apply verify_id_token_spec.
Qed.
End Tokens.

(** ** User information *)

Section Info.
Context `{JV : JsonValue, !JsonShape}.
Context `{!JsonReaders OidcDiscovery OidcTokenResponse IdpTokenResponse UserInfo IdTokenPayload}.

(** The custom attributes are exactly the members without a standard name. *)
Theorem custom_attributes_exact raw members key v :
  as_object raw = Some members →
  iu_custom_attributes (parse_userinfo raw) !! key = Some v ↔ (key, v) ∈ members ∧ key ∉ standard_keys.
Proof.
  intros Ho. simpl. unfold custom_attributes. rewrite Ho. simpl.
  assert (∀ x, (key, x) ∈ List.filter (λ kv, negb (bool_decide (kv.1 ∈ standard_keys))) members
            ↔ (key, x) ∈ members ∧ key ∉ standard_keys) as F.
  { intros x. rewrite list_elem_of_In, filter_In, <-list_elem_of_In. simpl. rewrite negb_true_iff, bool_decide_eq_false. done. }
  split.
  - intros Hl%elem_of_list_to_map_2. by apply F.
  - intros Hin. apply elem_of_list_to_map_1'; [|by apply F].
    intros y [Hy _]%F. apply (get_as_object _ _ _ _ Ho) in Hy. destruct Hin as [Hin _].
    apply (get_as_object _ _ _ _ Ho) in Hin. congruence.
Qed.
End Info.

(** A preset has every endpoint, so none of its requests panics. *)
Theorem presets_never_panic `{FormEncode, JV : JsonValue, !JsonShape, !Http, HashOrder}
    `{!JsonReaders OidcDiscovery OidcTokenResponse IdpTokenResponse UserInfo IdTokenPayload}
    t issuer auth token info jwks client secret uri state nonce code :
  let c := idp_preset t issuer auth token info jwks client secret uri in
  is_Some (Idp_authorization_url c state nonce) ∧ is_Some (Idp_exchange_code c code) ∧
  is_Some (Idp_refresh_token c code) ∧ is_Some (Idp_get_userinfo c code).
Proof. split_and!; eauto. Qed.

(** ** SAML *)

Lemma substring_middle a b c : String.substring (String.length a) (String.length b) (a +:+ b +:+ c) = b.
Proof.
  induction a as [|x a IH]; [rewrite str_app_nil_l; apply slice_to_app|]. by rewrite str_app_cons.
Qed.

(** What is found between two texts, when the first comes first. *)
Lemma between_first c start stop inner rest :
  str_forallb (λ d, negb (Ascii.eqb d c)) inner = true →
  between start (String c stop) (start +:+ inner +:+ String c stop +:+ rest) = Some inner.
Proof.
  intros Hi. unfold between, find_from.
  assert (String.index 0 start (start +:+ inner +:+ String c stop +:+ rest) = Some 0) as ->.
  { apply str_index_here. }
  simpl Nat.add. rewrite slice_from_app, str_index_skip by done. f_equal. apply substring_middle.
Qed.

Section SamlFacts.
Context `{FormEncode, Base64Laws, Http} (from_utf8 : string → Result string string).

(** No response is found to be signed: [signature_valid] is always false, so a
    caller that asks for it lets nobody in. *)
Theorem signature_never_valid now text r :
  parse_response from_utf8 now text = Some (Ok r) → sp_signature_valid r = false.
Proof.
  unfold parse_response. destruct (b64_decode text) as [d|]; [|done]. destruct (from_utf8 d) as [x|]; [|done].
  destruct (parse_assertion now x); [|done]. by intros [= <-].
Qed.

(** A caller that does not ask lets in everybody: a text made without any key is
    read as an assertion about any user. *)
Theorem saml_response_forgeable now name :
  str_forallb (λ d, negb (Ascii.eqb d "<")) name = true →
  let xml := "<saml:NameID>" +:+ name +:+ "</saml:NameID>" in
  from_utf8 xml = Ok xml →
  ∃ r, parse_response from_utf8 now (b64_encode xml) = Some (Ok r) ∧
    ss_name_id (sa_subject (sp_assertion r)) = str_trim name.
Proof.
  intros Hn xml Hu. unfold parse_response. rewrite b64_round_trip, Hu.
  assert (between "<saml:NameID>" "</saml:NameID>" xml = Some name) as Hb.
  { unfold xml. rewrite <-(str_app_nil_r "</saml:NameID>") at 2. by apply between_first. }
  assert (String.index 0 "<saml:AttributeStatement>" xml = None) as Hi.
  { assert (String.index 0 "<saml:AttributeStatement>" (("saml:NameID>" +:+ name) +:+ "</saml:NameID>") = None) as E.
    { rewrite str_index_past; [done|]. by rewrite str_forallb_app, Hn. }
    unfold xml. rewrite str_app_assoc in E. change ("<saml:NameID>" +:+ name +:+ "</saml:NameID>")
      with (String "<" ("saml:NameID>" +:+ name +:+ "</saml:NameID>")). cbn [String.index]. by rewrite E. }
  unfold parse_assertion, parse_attributes, find_from. rewrite Hi. eexists. split; [done|]. simpl.
  unfold extract_element_content. change ("<" +:+ "saml:NameID" +:+ ">") with "<saml:NameID>".
  change ("</" +:+ "saml:NameID" +:+ ">") with "</saml:NameID>". by rewrite Hb.
Qed.

(** A response panics exactly when its attribute statement ends before it begins. *)
Theorem saml_panic_iff now text :
  parse_response from_utf8 now text = None ↔
  ∃ decoded xml i j, b64_decode text = Ok decoded ∧ from_utf8 decoded = Ok xml ∧
    String.index 0 "<saml:AttributeStatement>" xml = Some i ∧
    String.index 0 "</saml:AttributeStatement>" xml = Some j ∧ j < i.
Proof.
  unfold parse_response. destruct (b64_decode text) as [d|e]; [|split; [done|by intros (? & ? & ? & ? & [=] & _)]].
  destruct (from_utf8 d) as [x|e] eqn:Eu;
    [|split; [done|by intros (? & ? & ? & ? & [= <-] & Hu & _); rewrite Eu in Hu]].
  unfold parse_assertion, parse_attributes, find_from. split.
  - destruct (String.index 0 "<saml:AttributeStatement>" x) as [i|] eqn:Ei; [|done].
    destruct (String.index 0 "</saml:AttributeStatement>" x) as [j|] eqn:Ej; [|done].
    case_bool_decide; [|done]. intros _. by exists d, x, i, j.
  - intros (d' & x' & i & j & [= <-] & Hu & Hi & Hj & Hlt). rewrite Eu in Hu. injection Hu as <-. rewrite Hi, Hj.
    by rewrite bool_decide_eq_true_2.
Qed.
End SamlFacts.

(** ** Examples *)

(** Percent encoding, byte by byte. *)
Definition hex_digit (n : nat) : Ascii.ascii := ascii_of_nat (if bool_decide (n < 10) then 48 + n else 55 + n).
Definition percent_byte (c : Ascii.ascii) : string :=
  let n := byte_of c in
  if bool_decide (48 ≤ n ≤ 57 ∨ 65 ≤ n ≤ 90 ∨ 97 ≤ n ≤ 122 ∨ n ∈ [42; 45; 46; 95]) then String c ""
  else if bool_decide (n = 32) then "+"
  else String "%" (String (hex_digit (n / 16)) (String (hex_digit (n mod 16)) "")).
#[export] Instance percent_encode : FormEncode :=
  fix go s := match s with EmptyString => EmptyString | String c s => percent_byte c +:+ go s end.

Definition all_bytes : list Ascii.ascii := ascii_of_nat <$> seq 0 256.
Lemma all_bytes_spec c : c ∈ all_bytes.
Proof.
  unfold all_bytes. apply list_elem_of_fmap. exists (nat_of_ascii c). split; [by rewrite ascii_nat_embedding|].
  apply elem_of_seq. pose proof (nat_ascii_bounded c). lia.
Qed.
Lemma byte_forall (f : Ascii.ascii → bool) : forallb f all_bytes = true → ∀ c, f c = true.
Proof. rewrite forallb_forall. intros H c. apply H, list_elem_of_In, all_bytes_spec. Qed.

Lemma percent_prefix c d r s : percent_byte c +:+ r = percent_byte d +:+ s → c = d ∧ r = s.
Proof.
  assert (∀ c, (λ c, forallb (λ d, Ascii.eqb c d || negb (String.prefix (percent_byte c) (percent_byte d)
    || String.prefix (percent_byte d) (percent_byte c))) all_bytes) c = true) as P
    by (apply byte_forall; vm_compute; reflexivity).
  assert (∀ a b x y, a +:+ x = b +:+ y → String.prefix a b = true ∨ String.prefix b a = true) as Q.
  { clear. induction a as [|u a IH]; intros b x y E; [left; by destruct b|]. destruct b as [|v b]; [by right|].
    rewrite !str_app_cons in E. injection E as -> E. simpl. destruct (Ascii.ascii_dec v v); [|done]. by eapply IH. }
  intros E. assert (c = d) as ->; [|split; [done|by eapply str_app_cancel_l]].
  specialize (P c). rewrite forallb_forall in P. specialize (P d (proj1 (list_elem_of_In _ _) (all_bytes_spec d))).
  apply orb_prop in P as [P|P]; [by apply Ascii.eqb_eq|]. apply Q in E. apply negb_true_iff, orb_false_iff in P as [P1 P2].
  destruct E; congruence.
Qed.

#[export] Instance percent_laws : FormEncodeLaws.
Proof.
  split.
  - induction s as [|c s IH]; [done|]. change (form_encode (String c s)) with (percent_byte c +:+ form_encode s).
    rewrite str_forallb_app, IH, andb_true_r. revert c. apply byte_forall. vm_compute. reflexivity.
  - intros s. induction s as [|c s IH]; intros [|d t] E; [done|..].
    + exfalso. change (form_encode "" = percent_byte d +:+ form_encode t) in E. revert E. unfold percent_byte.
      repeat case_bool_decide; done.
    + exfalso. change (percent_byte c +:+ form_encode s = form_encode "") in E. revert E. unfold percent_byte.
      repeat case_bool_decide; done.
    + change (percent_byte c +:+ form_encode s = percent_byte d +:+ form_encode t) in E.
      apply percent_prefix in E as [-> E]. f_equal. by apply IH.
Qed.
