(* ===== verification/Privacy.v ===== *)
(** Personal data ([crates/uhorse-gdpr/src]): consents, requests to erase and to
    export the data of a user, and the classification of fields.  Times are
    milliseconds; the sources of data are parameters over a world of their own. *)
From S2P Require Import Prelude Text Json.

Inductive GdprError :=
| UserNotFound (id : string)
| ExportFailed (m : string)
| ErasureFailed (m : string).

(** ** Consents *)

Module Consent.
Inductive ConsentType :=
| DataProcessing | Marketing | Analytics | ThirdPartySharing | CookieUsage | LocationConsent | Profiling.
#[export] Instance ConsentType_eq_dec : EqDecision ConsentType. Proof. solve_decision. Defined.
#[export] Instance ConsentType_countable : Countable ConsentType.
Proof.
  refine (inj_countable' (λ t, match t with DataProcessing => 0 | Marketing => 1 | Analytics => 2
    | ThirdPartySharing => 3 | CookieUsage => 4 | LocationConsent => 5 | Profiling => 6 end)
    (λ n, match n with 0 => DataProcessing | 1 => Marketing | 2 => Analytics | 3 => ThirdPartySharing
    | 4 => CookieUsage | 5 => LocationConsent | _ => Profiling end) _). by intros [].
Defined.

Definition ConsentType_display (t : ConsentType) : string :=
  match t with
  | DataProcessing => "data_processing"
  | Marketing => "marketing"
  | Analytics => "analytics"
  | ThirdPartySharing => "third_party_sharing"
  | CookieUsage => "cookie_usage"
  | LocationConsent => "location_data"
  | Profiling => "profiling"
  end.

Inductive LegalBasis :=
| BasisConsent | ContractPerformance | LegalObligation | VitalInterests | PublicInterest | LegitimateInterest.
#[export] Instance LegalBasis_eq_dec : EqDecision LegalBasis. Proof. solve_decision. Defined.

Record ProcessingPurpose := MkPurpose {
  pu_id : string;
  pu_name : string;
  pu_description : string;
  pu_legal_basis : LegalBasis;
  pu_is_required : bool;
  pu_retention_days : option Z
}.

Inductive ConsentStatus := Granted | Denied | Withdrawn | CsPending | CsExpired.
#[export] Instance ConsentStatus_eq_dec : EqDecision ConsentStatus. Proof. solve_decision. Defined.

Record ConsentRecord := MkConsent {
  cr_id : string;
  cr_user_id : string;
  cr_tenant_id : string;
  cr_consent_type : ConsentType;
  cr_status : ConsentStatus;
  cr_granted_at : option Z;
  cr_withdrawn_at : option Z;
  cr_source : string;
  cr_ip_address : option string;
  cr_user_agent : option string;
  cr_version : string;
  cr_created_at : Z;
  cr_updated_at : Z
}.

Definition ConsentRecord_new (uuid : string) (now : Z) (user tenant : string) (t : ConsentType) : ConsentRecord :=
  MkConsent uuid user tenant t CsPending None None "unknown" None None "1.0" now now.
Definition grant (now : Z) (source : string) (r : ConsentRecord) : ConsentRecord :=
  MkConsent (cr_id r) (cr_user_id r) (cr_tenant_id r) (cr_consent_type r) Granted (Some now) None source
    (cr_ip_address r) (cr_user_agent r) (cr_version r) (cr_created_at r) now.
Definition withdraw (now : Z) (r : ConsentRecord) : ConsentRecord :=
  MkConsent (cr_id r) (cr_user_id r) (cr_tenant_id r) (cr_consent_type r) Withdrawn (cr_granted_at r) (Some now)
    (cr_source r) (cr_ip_address r) (cr_user_agent r) (cr_version r) (cr_created_at r) now.
Definition with_origin (ip agent : option string) (r : ConsentRecord) : ConsentRecord :=
  MkConsent (cr_id r) (cr_user_id r) (cr_tenant_id r) (cr_consent_type r) (cr_status r) (cr_granted_at r)
    (cr_withdrawn_at r) (cr_source r) ip agent (cr_version r) (cr_created_at r) (cr_updated_at r).
Definition is_valid (r : ConsentRecord) : bool := bool_decide (cr_status r = Granted).

(** Records by user, then by type of consent. *)
Record ConsentManager := MkConsentManager {
  cm_records : gmap string (gmap ConsentType ConsentRecord);
  cm_purposes : gmap string ProcessingPurpose
}.

Definition register_purpose (m : ConsentManager) (p : ProcessingPurpose) : ConsentManager :=
  MkConsentManager (cm_records m) (<[pu_id p := p]> (cm_purposes m)).
Definition default_purposes : list ProcessingPurpose :=
  [MkPurpose "service_delivery" "Service Delivery" "Processing necessary for service delivery" ContractPerformance
     true (Some 365);
   MkPurpose "marketing" "Marketing Communications" "Sending marketing and promotional materials" BasisConsent
     false (Some 730);
   MkPurpose "analytics" "Analytics and Improvement" "Usage analytics and service improvement" BasisConsent
     false (Some 365)]%Z.
Definition ConsentManager_new : ConsentManager :=
  foldl register_purpose (MkConsentManager ∅ ∅) default_purposes.
Definition get_purpose (m : ConsentManager) (id : string) : option ProcessingPurpose := cm_purposes m !! id.

(** [new_at] and [granted_at] are the two readings of the clock. *)
Definition grant_consent (m : ConsentManager) (uuid : string) (new_at granted_at : Z) (user tenant : string)
    (t : ConsentType) (source : string) (ip agent : option string) : ConsentManager * ConsentRecord :=
  let r := with_origin ip agent (grant granted_at source (ConsentRecord_new uuid new_at user tenant t)) in
  (MkConsentManager (<[user := <[t := r]> (default ∅ (cm_records m !! user))]> (cm_records m)) (cm_purposes m), r).

Definition record_of (m : ConsentManager) (user : string) (t : ConsentType) : option ConsentRecord :=
  match cm_records m !! user with Some ur => ur !! t | None => None end.

Definition withdraw_consent (m : ConsentManager) (now : Z) (user : string) (t : ConsentType)
    : ConsentManager * option ConsentRecord :=
  match record_of m user t with
  | Some r =>
      (MkConsentManager (map_update (<[t := withdraw now r]>) user (cm_records m)) (cm_purposes m),
       Some (withdraw now r))
  | None => (m, None)
  end.

Definition check_consent (m : ConsentManager) (user : string) (t : ConsentType) : option ConsentStatus :=
  match record_of m user t with Some r => Some (cr_status r) | None => None end.
Definition has_consent (m : ConsentManager) (user : string) (t : ConsentType) : bool :=
  bool_decide (check_consent m user t = Some Granted).
Definition get_user_consents `{HashOrder} (m : ConsentManager) (user : string) : list ConsentRecord :=
  match cm_records m !! user with Some ur => hash_values ur | None => [] end.
Definition get_valid_consents `{HashOrder} (m : ConsentManager) (user : string) : list ConsentType :=
  match cm_records m !! user with
  | Some ur => (List.filter (λ tr : ConsentType * ConsentRecord, is_valid tr.2) (hash_order ur)).*1
  | None => []
  end.
End Consent.

(** ** Erasure *)

Module Erasure.
Inductive ErasureType := FullErasure | PartialErasure | Anonymization | SoftDelete.
Inductive ErasureStatus := EsPending | EsVerifying | EsProcessing | EsCompleted | EsFailed | EsRejected.
Inductive VerificationMethod := DatabaseQuery | StorageScan | LogInspection | BackupVerification | ThirdPartyAudit.
Inductive VerificationResult := Verified | PartiallyVerified | VrFailed | VrPending.
#[export] Instance ErasureStatus_eq_dec : EqDecision ErasureStatus. Proof. solve_decision. Defined.
#[export] Instance VerificationResult_eq_dec : EqDecision VerificationResult. Proof. solve_decision. Defined.

(** The text of a status in JSON. *)
Definition status_json (s : ErasureStatus) : string :=
  in_quotes match s with
            | EsPending => "Pending"
            | EsVerifying => "Verifying"
            | EsProcessing => "Processing"
            | EsCompleted => "Completed"
            | EsFailed => "Failed"
            | EsRejected => "Rejected"
            end.

Record ErasureVerification := MkVerification {
  ev_id : string;
  ev_erasure_request_id : string;
  ev_method : VerificationMethod;
  ev_verified_at : Z;
  ev_result : VerificationResult;
  ev_details : gmap string string
}.

Record ErasureRequest := MkErasure {
  eq_id : string;
  eq_user_id : string;
  eq_tenant_id : string;
  eq_request_type : ErasureType;
  eq_data_categories : list string;
  eq_created_at : Z;
  eq_status : ErasureStatus;
  eq_completed_at : option Z;
  eq_verification : option ErasureVerification;
  eq_notes : option string
}.

Definition ErasureRequest_new (uuid : string) (now : Z) (user tenant : string) (t : ErasureType)
    (categories : list string) : ErasureRequest :=
  MkErasure uuid user tenant t categories now EsPending None None None.

(** The outcome of a request. *)
Definition conclude (r : ErasureRequest) (status : ErasureStatus) (completed : option Z)
    (verification : option ErasureVerification) (notes : option string) : ErasureRequest :=
  MkErasure (eq_id r) (eq_user_id r) (eq_tenant_id r) (eq_request_type r) (eq_data_categories r) (eq_created_at r)
    status completed verification notes.

Record ErasureResult := MkErasureResult {
  es_handler : string;
  es_records_deleted : Z;
  es_files_deleted : Z;
  es_bytes_freed : Z;
  es_skipped : list string;
  es_errors : list string
}.

Section Manager.
Context {W : Type}.

(** A handler erases and verifies in the world of the data. *)
Record DataHandler := MkDataHandler {
  dh_name : string;
  erase_data : W → string → string → list string → W * Result ErasureResult string;
  verify_erasure : W → string → string → list string → W * Result VerificationResult string
}.

Record DataErasureManager := MkErasureManager {
  em_requests : gmap string ErasureRequest;
  em_data_handlers : gmap string DataHandler
}.
Definition DataErasureManager_new : DataErasureManager := MkErasureManager ∅ ∅.
Definition register_erasure_handler (m : DataErasureManager) (h : DataHandler) : DataErasureManager :=
  MkErasureManager (em_requests m) (<[dh_name h := h]> (em_data_handlers m)).

Definition create_erasure (m : DataErasureManager) (uuid : string) (now : Z) (user tenant : string)
    (t : ErasureType) (categories : list string) : DataErasureManager * ErasureRequest :=
  let r := ErasureRequest_new uuid now user tenant t categories in
  (MkErasureManager (<[uuid := r]> (em_requests m)) (em_data_handlers m), r).

(** Every handler erases, whatever the others answer; a failure goes to the log. *)
Definition erase_all (w : W) (r : ErasureRequest) (handlers : list DataHandler) : W :=
  foldl (λ w h, (erase_data h w (eq_user_id r) (eq_tenant_id r) (eq_data_categories r)).1) w handlers.

(** The answers of the handlers that could verify. *)
Fixpoint verify_all (w : W) (r : ErasureRequest) (handlers : list DataHandler) : W * list VerificationResult :=
  match handlers with
  | [] => (w, [])
  | h :: hs =>
      let '(w1, a) := verify_erasure h w (eq_user_id r) (eq_tenant_id r) (eq_data_categories r) in
      let '(w2, rest) := verify_all w1 r hs in
      (w2, match a with Ok v => v :: rest | Err _ => rest end)
  end.

(** The readings of a completed request. *)
Record erasure_env := MkErasureEnv { xe_uuid : string; xe_completed_at : Z; xe_verified_at : Z }.

Definition final_request (env : erasure_env) (id : string) (r : ErasureRequest) (results : list VerificationResult) : ErasureRequest :=
  if forallb (λ v, bool_decide (v = Verified)) results then
    conclude r EsCompleted (Some (xe_completed_at env))
      (Some (MkVerification (xe_uuid env) id DatabaseQuery (xe_verified_at env) Verified ∅)) (eq_notes r)
  else if existsb (λ v, bool_decide (v = VrFailed)) results then
    conclude r EsFailed (eq_completed_at r) (eq_verification r) (eq_notes r)
  else conclude r EsCompleted (eq_completed_at r) (eq_verification r) (eq_notes r).

(** The lock of the requests is held throughout. *)
Definition execute_erasure `{HashOrder} (env : erasure_env) (w : W) (m : DataErasureManager) (id : string)
    : W * DataErasureManager * Result ErasureRequest GdprError :=
  match em_requests m !! id with
  | None => (w, m, Err (UserNotFound id))
  | Some r =>
      if negb (bool_decide (eq_status r = EsPending)) then
        (w, m, Err (ErasureFailed ("Request already " +:+ status_json (eq_status r))))
      else
        let handlers := hash_values (em_data_handlers m) in
        let w1 := erase_all w r handlers in
        let '(w2, results) := verify_all w1 r handlers in
        let r' := final_request env id r results in
        (w2, MkErasureManager (<[id := r']> (em_requests m)) (em_data_handlers m), Ok r')
  end.

Definition get_erasure (m : DataErasureManager) (id : string) : option ErasureRequest := em_requests m !! id.
Definition get_user_requests `{HashOrder} (m : DataErasureManager) (user : string) : list ErasureRequest :=
  List.filter (λ r, bool_decide (eq_user_id r = user)) (hash_values (em_requests m)).

Definition reject_erasure (m : DataErasureManager) (now : Z) (id reason : string)
    : DataErasureManager * Result ErasureRequest GdprError :=
  match em_requests m !! id with
  | None => (m, Err (UserNotFound id))
  | Some r =>
      let r' := conclude r EsRejected (Some now) (eq_verification r) (Some reason) in
      (MkErasureManager (<[id := r']> (em_requests m)) (em_data_handlers m), Ok r')
  end.
End Manager.
Arguments DataHandler : clear implicits.
Arguments DataErasureManager : clear implicits.
End Erasure.

(** ** Export *)

Module DataExport.
Inductive DataExportFormat := ExJson | ExCsv | ExXml | ExPdf.
Inductive ExportStatus := XsPending | XsProcessing | XsCompleted | XsFailed | XsExpired.
#[export] Instance ExportStatus_eq_dec : EqDecision ExportStatus. Proof. solve_decision. Defined.

(** The derived text of a status. *)
Definition export_status_debug (s : ExportStatus) : string :=
  match s with
  | XsPending => "Pending"
  | XsProcessing => "Processing"
  | XsCompleted => "Completed"
  | XsFailed => "Failed"
  | XsExpired => "Expired"
  end.

Record DataExportRequest := MkExport {
  xr_id : string;
  xr_user_id : string;
  xr_tenant_id : string;
  xr_format : DataExportFormat;
  xr_data_categories : list string;
  xr_created_at : Z;
  xr_expires_at : option Z;
  xr_status : ExportStatus
}.
Definition DataExportRequest_new (uuid : string) (now : Z) (user tenant : string) (format : DataExportFormat)
    (categories : list string) : DataExportRequest :=
  MkExport uuid user tenant format categories now (Some (wrap 64 (now + 7 * 24 * 60 * 60 * 1000))) XsPending.
Definition set_export_status (s : ExportStatus) (r : DataExportRequest) : DataExportRequest :=
  MkExport (xr_id r) (xr_user_id r) (xr_tenant_id r) (xr_format r) (xr_data_categories r) (xr_created_at r)
    (xr_expires_at r) s.

Record DateRange := MkDateRange { rg_start : Z; rg_end : Z }.
Record ExportMetadata := MkExportMetadata {
  xm_format : string;
  xm_size_bytes : Z;
  xm_record_count : Z;
  xm_categories : list string;
  xm_date_range : option DateRange;
  xm_generated_at : Z
}.

Section Manager.
Context `{JsonValue}.

Record ExportResult := MkExportResult {
  xe_request_id : string;
  xe_user_id : string;
  xe_data : gmap string Value;
  xe_metadata : ExportMetadata;
  xe_exported_at : Z;
  xe_checksum : string
}.

(** What the JSON crate makes of values: an array, the text of a value and of an
    object given in its iteration order, and the indented text of a result. *)
Class ExportJson := {
  json_array : list Value → Value;
  value_text : Value → string;
  members_text : list (string * Value) → string;
  result_pretty : ExportResult → Result string string
}.

(** The data of a user in one category. *)
Definition DataProvider := string → string → string → Result (list Value) string.

Record DataExportManager := MkExportManager {
  dm_providers : gmap string DataProvider;
  dm_requests : gmap string DataExportRequest;
  dm_results : gmap string ExportResult
}.
Definition DataExportManager_new : DataExportManager := MkExportManager ∅ ∅ ∅.
Definition set_export_requests (m : DataExportManager) (r : gmap string DataExportRequest) : DataExportManager :=
  MkExportManager (dm_providers m) r (dm_results m).
Definition set_export_results (m : DataExportManager) (r : gmap string ExportResult) : DataExportManager :=
  MkExportManager (dm_providers m) (dm_requests m) r.

Definition register_provider (m : DataExportManager) (category : string) (p : DataProvider) : DataExportManager :=
  MkExportManager (<[category := p]> (dm_providers m)) (dm_requests m) (dm_results m).
Definition create_export (m : DataExportManager) (uuid : string) (now : Z) (user tenant : string)
    (format : DataExportFormat) (categories : list string) : DataExportManager * DataExportRequest :=
  let r := DataExportRequest_new uuid now user tenant format categories in
  (set_export_requests m (<[uuid := r]> (dm_requests m)), r).

(** First step, under the lock of the requests. *)
Definition begin_export (m : DataExportManager) (id : string) : DataExportManager * Result DataExportRequest GdprError :=
  match dm_requests m !! id with
  | None => (m, Err (ExportFailed "Request not found"))
  | Some r =>
      if negb (bool_decide (xr_status r = XsPending)) then
        (m, Err (ExportFailed ("Invalid request status: " +:+ export_status_debug (xr_status r))))
      else
        let r' := set_export_status XsProcessing r in
        (set_export_requests m (<[id := r']> (dm_requests m)), Ok r')
  end.

Context `{ExportJson, HashOrder}.

(** What is collected: data, records, bytes. *)
Record collected := MkCollected { ct_data : gmap string Value; ct_records : Z; ct_size : Z }.

Definition collect_category (providers : gmap string DataProvider) (r : DataExportRequest) (acc : collected)
    (category : string) : collected :=
  match providers !! category with
  | Some provider =>
      match provider (xr_user_id r) (xr_tenant_id r) category with
      | Ok data =>
          let value := json_array data in
          MkCollected (<[category := value]> (ct_data acc)) (wrap 64 (ct_records acc + zlen data))
            (wrap 64 (ct_size acc + Z.of_nat (String.length (value_text value))))
      | Err e =>
          MkCollected (<[category := json_object [("error", json_string e); ("category", json_string category)]]>
                         (ct_data acc)) (ct_records acc) (ct_size acc)
      end
  | None => acc
  end.
Definition collect (providers : gmap string DataProvider) (r : DataExportRequest) : collected :=
  foldl (collect_category providers r) (MkCollected ∅ 0 0) (xr_data_categories r).

Definition byte_sum (s : string) : Z :=
  foldl (λ acc c, wrap 32 (acc + Z.of_nat (byte_of c))) 0%Z (String.list_ascii_of_string s).

(** [{:x}]. *)
Definition hex_char (d : Z) : Ascii.ascii := ascii_of_nat (Z.to_nat (if decide (d < 10)%Z then 48 + d else 87 + d)).
Fixpoint hex_digits (fuel : nat) (z : Z) (acc : string) : string :=
  match fuel with
  | O => acc
  | S fuel =>
      let acc' := String (hex_char (z mod 16)) acc in
      if decide (z / 16 = 0)%Z then acc' else hex_digits fuel (z / 16) acc'
  end.
Definition hex_text (z : Z) : string := hex_digits 8 z "".
Definition export_checksum (text : string) : string :=
  hex_text (Z.lxor (wrap 32 (Z.of_nat (String.length text))) (byte_sum text)).

(** The result, with the readings of the clock for its metadata and itself. *)
Definition make_export (generated_at exported_at : Z) (r : DataExportRequest) (c : collected) : ExportResult :=
  MkExportResult (xr_id r) (xr_user_id r) (ct_data c)
    (MkExportMetadata "json" (ct_size c) (ct_records c) (xr_data_categories r) None generated_at) exported_at
    (export_checksum (members_text (hash_order (ct_data c)))).

(** The last two steps; the request may have gone in between. *)
Definition complete_export (m : DataExportManager) (id : string) : DataExportManager :=
  set_export_requests m (map_update (set_export_status XsCompleted) id (dm_requests m)).
Definition store_export (m : DataExportManager) (id : string) (r : ExportResult) : DataExportManager :=
  set_export_results m (<[id := r]> (dm_results m)).

Definition execute_export (generated_at exported_at : Z) (m : DataExportManager) (id : string)
    : DataExportManager * Result ExportResult GdprError :=
  match begin_export m id with
  | (m1, Err e) => (m1, Err e)
  | (m1, Ok r) =>
      let result := make_export generated_at exported_at r (collect (dm_providers m1) r) in
      (store_export (complete_export m1 id) id result, Ok result)
  end.

Definition get_result (m : DataExportManager) (id : string) : option ExportResult := dm_results m !! id.
Definition get_request_status (m : DataExportManager) (id : string) : option ExportStatus :=
  match dm_requests m !! id with Some r => Some (xr_status r) | None => None end.

Definition cancel_export (m : DataExportManager) (id : string) : DataExportManager * bool :=
  match dm_requests m !! id with
  | Some _ => (MkExportManager (dm_providers m) (delete id (dm_requests m)) (delete id (dm_results m)), true)
  | None => (m, false)
  end.

Definition export_line (sep : string) (parts : list string) : string := str_join sep parts +:+ String "010" "".

Definition serialize_result (r : ExportResult) (format : DataExportFormat) : Result string GdprError :=
  match format with
  | ExJson => match result_pretty r with Ok s => Ok s | Err e => Err (ExportFailed e) end
  | ExCsv =>
      Ok (export_line "" ["category,data,exported_at"] +:+
          str_concat ((λ kv : string * Value, export_line "," [kv.1; value_text kv.2; pretty (xe_exported_at r)])
                        <$> hash_order (xe_data r)))
  | ExXml =>
      Ok (export_line "" ["<?xml version="; in_quotes "1.0"; " encoding="; in_quotes "UTF-8"; "?>"] +:+
          export_line "" ["<data_export>"] +:+
          str_concat ((λ kv : string * Value,
            export_line "" ["  <category name="; in_quotes kv.1; ">"] +:+ export_line "" ["    "; value_text kv.2] +:+
            export_line "" ["  </category>"]) <$> hash_order (xe_data r)) +:+ "</data_export>")
  | ExPdf => Err (ExportFailed "PDF format not yet supported")
  end.
End Manager.
End DataExport.
