(* ===== verification/PrivacyFacts.v ===== *)
(** Personal data: consent follows the last word of the user, what a completed
    erasure is worth, and what an export contains. *)
From S2P Require Import Prelude Text Json Privacy.

(** ** Consents *)

Module ConsentFacts.
Import Consent.
Implicit Types (m : ConsentManager) (user : string) (t : ConsentType).

(** What the endpoints do to the consents. *)
Inductive consent_call :=
| CallGrant (uuid : string) (new_at granted_at : Z) (user tenant : string) (t : ConsentType) (source : string)
    (ip agent : option string)
| CallWithdraw (now : Z) (user : string) (t : ConsentType)
| CallPurpose (p : ProcessingPurpose).

Definition consent_step m (c : consent_call) : ConsentManager :=
  match c with
  | CallGrant uuid n g user tenant t source ip agent => (grant_consent m uuid n g user tenant t source ip agent).1
  | CallWithdraw now user t => (withdraw_consent m now user t).1
  | CallPurpose p => register_purpose m p
  end.
Definition consent_run m (cs : list consent_call) : ConsentManager := foldl consent_step m cs.

(** The last word of a user on a type of consent: a withdrawal counts only after a
    grant. *)
Definition last_word user t (w : option ConsentStatus) (c : consent_call) : option ConsentStatus :=
  match c with
  | CallGrant _ _ _ user' _ t' _ _ _ => if bool_decide (user' = user ∧ t' = t) then Some Granted else w
  | CallWithdraw _ user' t' =>
      if bool_decide (user' = user ∧ t' = t) then match w with Some _ => Some Withdrawn | None => None end else w
  | CallPurpose _ => w
  end.

Lemma record_of_insert user user' t t' r (records : gmap string (gmap ConsentType ConsentRecord)) purposes :
  record_of (MkConsentManager (<[user' := <[t' := r]> (default ∅ (records !! user'))]> records) purposes) user t
  = if bool_decide (user' = user ∧ t' = t) then Some r else record_of (MkConsentManager records purposes) user t.
Proof.
  unfold record_of. simpl. destruct (decide (user' = user)) as [->|N].
  - rewrite lookup_insert_eq. destruct (decide (t' = t)) as [->|N].
    + by rewrite lookup_insert_eq, bool_decide_eq_true_2.
    + rewrite lookup_insert_ne, bool_decide_eq_false_2 by naive_solver. by destruct (records !! user).
  - by rewrite lookup_insert_ne, bool_decide_eq_false_2 by naive_solver.
Qed.

Lemma map_update_known {V} (f : V → V) (k : string) (x : V) (m : gmap string V) :
  m !! k = Some x → map_update f k m = <[k := f x]> m.
Proof. intros E. unfold map_update. by rewrite E. Qed.

Lemma withdraw_record m now user t :
  (withdraw_consent m now user t).1
  = match record_of m user t with
    | Some r => MkConsentManager
        (<[user := <[t := withdraw now r]> (default ∅ (cm_records m !! user))]> (cm_records m)) (cm_purposes m)
    | None => m
    end.
Proof.
  unfold withdraw_consent, record_of. destruct (cm_records m !! user) as [ur|] eqn:E; [|done].
  destruct (ur !! t) as [r|]; [|done]. simpl. by rewrite (map_update_known _ _ _ _ E).
Qed.

Lemma check_step m c user t :
  check_consent (consent_step m c) user t = last_word user t (check_consent m user t) c.
Proof.
  unfold check_consent. destruct c as [uuid n g user' tenant t' source ip agent|now user' t'|p]; simpl.
  - rewrite record_of_insert. case_bool_decide; [done|]. by destruct m.
  - rewrite withdraw_record. destruct (record_of m user' t') as [r|] eqn:E.
    + rewrite record_of_insert. case_bool_decide as D; [destruct D as [-> ->]; by rewrite E|]. by destruct m.
    + case_bool_decide as D; [|done]. destruct D as [-> ->]. by rewrite E.
  - done.
Qed.

(** C40. After any history, the state of a consent is the last word of its user. *)
Theorem consent_is_last_word m cs user t :
  check_consent (consent_run m cs) user t = foldl (last_word user t) (check_consent m user t) cs ∧
  (has_consent (consent_run m cs) user t = true ↔
   foldl (last_word user t) (check_consent m user t) cs = Some Granted).
Proof.
  assert (check_consent (consent_run m cs) user t = foldl (last_word user t) (check_consent m user t) cs) as E.
  { revert m. induction cs as [|c cs IH]; intros m; simpl; [done|]. by rewrite IH, check_step. }
  split; [done|]. unfold has_consent. by rewrite E, bool_decide_eq_true.
Qed.

(** A consent given or withdrawn for one tenant counts for all. *)
Theorem consent_crosses_tenants m uuid1 uuid2 n1 n2 g1 g2 user tenant1 tenant2 t source ip agent now :
  let m1 := (grant_consent m uuid1 n1 g1 user tenant1 t source ip agent).1 in
  let m2 := (grant_consent m1 uuid2 n2 g2 user tenant2 t source ip agent).1 in
  (∃ r, record_of m2 user t = Some r ∧ cr_tenant_id r = tenant2 ∧ cr_id r = uuid2) ∧
  has_consent (withdraw_consent m2 now user t).1 user t = false.
Proof.
  intros m1 m2. split.
  - unfold m2. simpl. rewrite record_of_insert, bool_decide_eq_true_2 by done. by eexists.
  - unfold has_consent. change (withdraw_consent m2 now user t).1 with (consent_step m2 (CallWithdraw now user t)).
    rewrite check_step. unfold last_word. rewrite (bool_decide_eq_true_2 (user = user ∧ t = t)) by done.
    apply bool_decide_eq_false_2. by destruct (check_consent m2 user t).
Qed.

Theorem valid_consents_exact `{HashOrder} m user t : t ∈ get_valid_consents m user ↔ has_consent m user t = true.
Proof.
  unfold get_valid_consents, has_consent, check_consent, record_of, is_valid.
  rewrite bool_decide_eq_true. destruct (cm_records m !! user) as [ur|].
  2: { split; [by intros ?%elem_of_nil|done]. }
  rewrite list_elem_of_fmap. setoid_rewrite list_elem_of_In. setoid_rewrite filter_In. setoid_rewrite <-list_elem_of_In.
  split.
  - intros ([t' r] & -> & Hin%elem_of_hash_order & Hv%bool_decide_eq_true). simpl. rewrite Hin. by f_equal.
  - destruct (ur !! t) as [r|] eqn:E; [|done]. intros [= Hr]. exists (t, r).
    split_and!; [done|by apply elem_of_hash_order|by apply bool_decide_eq_true].
Qed.
End ConsentFacts.

(** ** Erasure *)

Module ErasureFacts.
Import Erasure.
Section Facts.
Context {W : Type} `{HashOrder}.
Implicit Types (m : DataErasureManager W) (r : ErasureRequest) (w : W) (h : DataHandler W).

(** An execution in one place: what it needs, and what it makes. *)
Lemma execute_pending env w m id r :
  em_requests m !! id = Some r → eq_status r = EsPending →
  let handlers := hash_values (em_data_handlers m) in
  let '(w2, results) := verify_all (erase_all w r handlers) r handlers in
  execute_erasure env w m id =
  (w2, MkErasureManager (<[id := final_request env id r results]> (em_requests m)) (em_data_handlers m),
   Ok (final_request env id r results)).
Proof.
  intros Hr Hp handlers. unfold execute_erasure. rewrite Hr, Hp. simpl. fold handlers.
  by destruct (verify_all _ _ _) as [w2 results].
Qed.

Lemma final_status env id r results :
  eq_status (final_request env id r results) =
  if existsb (λ v, bool_decide (v = VrFailed)) results then EsFailed else EsCompleted.
Proof.
  unfold final_request. destruct (forallb _ _) eqn:E.
  - destruct (existsb _ _) eqn:F; [|done]. apply existsb_exists in F as (v & Hv & ->%bool_decide_eq_true).
    rewrite forallb_forall in E. by apply E in Hv.
  - by destruct (existsb _ _).
Qed.

(** A request is carried out at most once: whatever its outcome, a second
    execution is refused and touches no data. *)
Theorem erasure_runs_once env w m id w' m' r env' w2 :
  execute_erasure env w m id = (w', m', Ok r) →
  ∃ status, execute_erasure env' w2 m' id = (w2, m', Err (ErasureFailed ("Request already " +:+ status))) ∧
    eq_status r ≠ EsPending.
Proof.
  unfold execute_erasure at 1. destruct (em_requests m !! id) as [r0|] eqn:Hr; [|done].
  case_bool_decide as Hp; [|done]. simpl.
  destruct (verify_all _ _ _) as [w3 results]. intros [= <- <- <-].
  assert (eq_status (final_request env id r0 results) ≠ EsPending) as N.
  { rewrite final_status. by destruct (existsb _ _). }
  eexists. split; [|done]. unfold execute_erasure. simpl. rewrite lookup_insert_eq.
  by rewrite bool_decide_eq_false_2.
Qed.

(** Every handler is asked to erase, once, in some order. *)
Theorem every_handler_erases env w m id r :
  em_requests m !! id = Some r → eq_status r = EsPending →
  ∃ handlers, handlers ≡ₚ (map_to_list (em_data_handlers m)).*2 ∧
    (execute_erasure env w m id).1.1 =
    (verify_all (foldl (λ w h, (erase_data h w (eq_user_id r) (eq_tenant_id r) (eq_data_categories r)).1) w handlers)
       r handlers).1.
Proof.
  intros Hr Hp. exists (hash_values (em_data_handlers m)). split.
  { unfold hash_values. apply fmap_Permutation, hash_order_perm. }
  pose proof (execute_pending env w m id r Hr Hp) as E. simpl in E. unfold erase_all in E.
  destruct (verify_all _ _ _) as [w2 results]. by rewrite E.
Qed.

(** What a request asks for beyond its categories, full or partial erasure or
    anonymization, makes no difference to the data. *)
Definition retype (t : ErasureType) r : ErasureRequest :=
  MkErasure (eq_id r) (eq_user_id r) (eq_tenant_id r) t (eq_data_categories r) (eq_created_at r) (eq_status r)
    (eq_completed_at r) (eq_verification r) (eq_notes r).

Lemma verify_all_retype t w r hs : verify_all w (retype t r) hs = verify_all w r hs.
Proof. revert w. induction hs as [|h hs IH]; intros w; simpl; [done|]. destruct (verify_erasure _ _ _ _ _). by rewrite IH. Qed.

Theorem erasure_type_ignored env w m id r t :
  em_requests m !! id = Some r →
  let m' := MkErasureManager (<[id := retype t r]> (em_requests m)) (em_data_handlers m) in
  (execute_erasure env w m' id).1.1 = (execute_erasure env w m id).1.1.
Proof.
  intros Hr m'. unfold execute_erasure. simpl. rewrite Hr, lookup_insert_eq. simpl.
  case_bool_decide; [|done]. simpl.
  assert (∀ hs, erase_all w (retype t r) hs = erase_all w r hs) as -> by done.
  rewrite verify_all_retype. by destruct (verify_all _ _ _).
Qed.

(** A handler that answers every call with an error. *)
Definition useless h : Prop :=
  ∀ w user tenant categories, (∃ e, erase_data h w user tenant categories = (w, Err e)) ∧
                              (∃ e, verify_erasure h w user tenant categories = (w, Err e)).

Lemma useless_erase w r hs : Forall useless hs → erase_all w r hs = w ∧ verify_all w r hs = (w, []).
Proof.
  intros Hu. split.
  - unfold erase_all. induction Hu as [|h hs Hh _ IH]; simpl; [done|].
    destruct (Hh w (eq_user_id r) (eq_tenant_id r) (eq_data_categories r)) as [[e ->] _]. apply IH.
  - induction Hu as [|h hs Hh _ IH]; simpl; [done|].
    destruct (Hh w (eq_user_id r) (eq_tenant_id r) (eq_data_categories r)) as [_ [e ->]]. by rewrite IH.
Qed.

(** Errors count as nothing: when no handler can erase or verify (or there is
    none) the request is reported completed and verified, and no data changed. *)
Theorem failed_erasure_reports_verified env w m id r :
  em_requests m !! id = Some r → eq_status r = EsPending → map_Forall (λ _ h, useless h) (em_data_handlers m) →
  ∃ m' r', execute_erasure env w m id = (w, m', Ok r') ∧ eq_status r' = EsCompleted ∧
    ev_result <$> eq_verification r' = Some Verified.
Proof.
  intros Hr Hp Hu. pose proof (execute_pending env w m id r Hr Hp) as E. simpl in E.
  assert (Forall useless (hash_values (em_data_handlers m))) as Hf.
  { apply Forall_forall. intros h Hh. unfold hash_values in Hh. apply list_elem_of_fmap in Hh as ([k h'] & -> & Hin).
    apply elem_of_hash_order in Hin. by apply (Hu k). }
  destruct (useless_erase w r _ Hf) as [Ew Ev]. rewrite Ew, Ev in E. rewrite E. eauto.
Qed.

(** The status a caller sees is never an intermediate one. *)
Inductive erasure_step : W * DataErasureManager W → W * DataErasureManager W → Prop :=
| step_handler w m h : erasure_step (w, m) (w, register_erasure_handler m h)
| step_create w m uuid now user tenant t categories :
    erasure_step (w, m) (w, (create_erasure m uuid now user tenant t categories).1)
| step_execute env w m id : erasure_step (w, m) (execute_erasure env w m id).1
| step_reject w m now id reason : erasure_step (w, m) (w, (reject_erasure m now id reason).1).

Definition settled_status (s : ErasureStatus) : Prop := s ≠ EsProcessing ∧ s ≠ EsVerifying.

Theorem statuses_settled w0 w m :
  rtc erasure_step (w0, DataErasureManager_new) (w, m) → map_Forall (λ _ r, settled_status (eq_status r)) (em_requests m).
Proof.
  intros Hs. remember (w, m) as x eqn:Ex.
  enough (map_Forall (λ _ r, settled_status (eq_status r)) (em_requests x.2)) as K by by subst.
  clear w m Ex. remember (w0, DataErasureManager_new) as y eqn:Ey.
  assert (map_Forall (λ _ r, settled_status (eq_status r)) (em_requests y.2)) as Hy by (subst; apply map_Forall_empty).
  clear Ey. induction Hs as [|x y z S _ IH]; [done|]. apply IH. clear IH.
  destruct S as [w m h|w m uuid now user tenant t categories|env w m id|w m now id reason]; simpl in *; [done|..].
  - by apply map_Forall_insert_2.
  - unfold execute_erasure. destruct (em_requests m !! id) as [r|] eqn:Hr; [|done].
    case_bool_decide; [|done]. simpl. destruct (verify_all _ _ _) as [w2 results]. simpl.
    apply map_Forall_insert_2; [|done]. rewrite final_status. by destruct (existsb _ _).
  - unfold reject_erasure. destruct (em_requests m !! id) as [r|] eqn:Hr; [|done]. simpl.
    by apply map_Forall_insert_2.
Qed.

(** A request that was carried out can still be rejected, and then no longer
    shows that it was. *)
Theorem completed_erasure_rejected env w m id w' m' r now reason :
  execute_erasure env w m id = (w', m', Ok r) →
  ∃ m'' r'', reject_erasure m' now id reason = (m'', Ok r'') ∧ eq_status r'' = EsRejected ∧
    eq_verification r'' = eq_verification r.
Proof.
  unfold execute_erasure. destruct (em_requests m !! id) as [r0|] eqn:Hr; [|done].
  case_bool_decide; [|done]. simpl. destruct (verify_all _ _ _) as [w2 results]. intros [= <- <- <-].
  unfold reject_erasure. simpl. rewrite lookup_insert_eq. by do 2 eexists.
Qed.
End Facts.
End ErasureFacts.

(** ** Export *)

Module ExportFacts.
Import DataExport.
Section Facts.
Context `{JV : JsonValue, !ExportJson, HashOrder}.
Implicit Types (m : DataExportManager) (r : DataExportRequest).

Lemma collect_dom providers r categories acc :
  dom (ct_data (foldl (collect_category providers r) acc categories))
  = dom (ct_data acc) ∪ list_to_set (List.filter (λ c, bool_decide (is_Some (providers !! c))) categories).
Proof.
  revert acc. induction categories as [|c cs IH]; intros acc; simpl; [set_solver|].
  rewrite IH. unfold collect_category. destruct (providers !! c) as [p|] eqn:E; simpl.
  - destruct (p _ _ _); simpl; rewrite dom_insert_L; set_solver.
  - done.
Qed.

(** An export holds exactly the categories asked for that have a provider; the
    others are left out without a word, and still listed in the metadata. *)
Theorem export_categories generated exported m id m' result r :
  execute_export generated exported m id = (m', Ok result) → dm_requests m !! id = Some r →
  (∀ c, c ∈ dom (xe_data result) ↔ c ∈ xr_data_categories r ∧ is_Some (dm_providers m !! c)) ∧
  xm_categories (xe_metadata result) = xr_data_categories r ∧ xe_user_id result = xr_user_id r ∧
  get_result m' id = Some result ∧ get_request_status m' id = Some XsCompleted.
Proof.
  unfold execute_export, begin_export. intros E Hr. rewrite Hr in E. revert E. case_bool_decide; [|done]. simpl.
  intros [= <- <-]. split_and!; simpl; try done.
  - intros c. unfold collect. rewrite collect_dom. simpl. rewrite dom_empty_L, elem_of_union, elem_of_list_to_set.
    rewrite list_elem_of_In, filter_In, <-list_elem_of_In, bool_decide_eq_true. set_solver.
  - unfold get_result. simpl. by rewrite lookup_insert_eq.
  - unfold get_request_status. simpl. rewrite map_update_lookup, decide_True, lookup_insert_eq by done. done.
Qed.

(** An export is made once; a second execution is refused. *)
Theorem export_runs_once generated exported m id m' result g e :
  execute_export generated exported m id = (m', Ok result) →
  execute_export g e m' id = (m', Err (ExportFailed "Invalid request status: Completed")).
Proof.
  unfold execute_export at 1, begin_export. destruct (dm_requests m !! id) as [r|] eqn:Hr; [|done].
  case_bool_decide; [|done]. simpl. intros [= <- <-]. unfold execute_export, begin_export. simpl.
  by rewrite map_update_lookup, decide_True, lookup_insert_eq by done.
Qed.

(** A request cancelled while its data is collected leaves the result behind: it
    can be read, though the request is gone and cancelling finds nothing. *)
Theorem cancelled_export_stays_readable generated exported m id m1 r :
  begin_export m id = (m1, Ok r) →
  let cancelled := (cancel_export m1 id).1 in
  let result := make_export generated exported r (collect (dm_providers m1) r) in
  let m2 := store_export (complete_export cancelled id) id result in
  get_request_status m2 id = None ∧ get_result m2 id = Some result ∧ cancel_export m2 id = (m2, false).
Proof.
  intros B cancelled result m2. revert B. unfold begin_export in *.
  destruct (dm_requests m !! id) as [r0|] eqn:Hr; [|done]. case_bool_decide; [|done]. intros [= <- <-].
  assert (dm_requests m2 !! id = None) as Hn.
  { unfold m2, cancelled, cancel_export. simpl. rewrite lookup_insert_eq. simpl.
    by rewrite map_update_lookup, decide_True, lookup_delete_eq. }
  unfold get_request_status, cancel_export. rewrite Hn. split_and!; try done.
  unfold get_result, m2. simpl. by rewrite lookup_insert_eq.
Qed.

(** The checksum does not see the order of the bytes. *)
Lemma byte_sum_mod l acc :
  foldl (λ acc c, wrap 32 (acc + Z.of_nat (byte_of c))) (wrap 32 acc) l
  = wrap 32 (acc + foldr (λ c s, Z.of_nat (byte_of c) + s) 0 l)%Z.
Proof.
  revert acc. induction l as [|c l IH]; intros acc; simpl; [by rewrite Z.add_0_r|].
  unfold wrap in *. rewrite Zplus_mod_idemp_l, IH. f_equal. lia.
Qed.

Theorem checksum_blind_to_order a b :
  String.list_ascii_of_string a ≡ₚ String.list_ascii_of_string b → export_checksum a = export_checksum b.
Proof.
  intros P. unfold export_checksum, byte_sum.
  assert (∀ s, String.length s = length (String.list_ascii_of_string s)) as L
    by (induction s; simpl; congruence).
  rewrite !L, (Permutation_length P). f_equal. f_equal. change 0%Z with (wrap 32 0). rewrite !byte_sum_mod. f_equal. f_equal.
  induction P; simpl; lia.
Qed.
End Facts.
End ExportFacts.
