(* ===== verification/Governance.v ===== *)
(** Data governance ([crates/uhorse-governance/src]): the classification of fields
    by their names, retention policies, and archives; and the classification of
    fields of the privacy crate ([crates/uhorse-gdpr/src/classification.rs]). *)
From Stdlib Require Import SpecFloat.
From S2P Require Import Prelude Text Float32 Permission.

(** ** Classification by names *)

Inductive SensitivityLevel := Public | Internal | Confidential | Restricted.
#[export] Instance SensitivityLevel_eq_dec : EqDecision SensitivityLevel. Proof. solve_decision. Defined.
Definition level_rank (s : SensitivityLevel) : nat :=
  match s with Public => 0 | Internal => 1 | Confidential => 2 | Restricted => 3 end.
Definition SensitivityLevel_default : SensitivityLevel := Internal.
Definition SensitivityLevel_display (s : SensitivityLevel) : string :=
  match s with
  | Public => "Public" | Internal => "Internal" | Confidential => "Confidential" | Restricted => "Restricted"
  end.
(** The derived [>=]. *)
Definition level_geb (a b : SensitivityLevel) : bool := bool_decide (level_rank b ≤ level_rank a).

Inductive DataType :=
| PersonalIdentifiableInfo | Financial | Health | Location | Behavioral | TechnicalLogs | Configuration
| UserGenerated | SystemMetadata | OtherData (s : string).
#[export] Instance DataType_eq_dec : EqDecision DataType. Proof. solve_decision. Defined.

Definition default_sensitivity (t : DataType) : SensitivityLevel :=
  match t with
  | PersonalIdentifiableInfo | Health => Restricted
  | Financial | Location | Behavioral => Confidential
  | TechnicalLogs | UserGenerated | Configuration | SystemMetadata | OtherData _ => Internal
  end.
Definition requires_encryption (t : DataType) : bool := level_geb (default_sensitivity t) Confidential.
Definition requires_masking (t : DataType) : bool :=
  match t with PersonalIdentifiableInfo | Health => true | _ => false end.

Record ClassificationRule := MkClassRule {
  lr_id : string;
  lr_name : string;
  lr_data_type : DataType;
  lr_sensitivity : SensitivityLevel;
  lr_pattern : option string;
  lr_field_names : list string;
  lr_description : option string;
  lr_enabled : bool
}.
Definition ClassificationRule_new (id name : string) (t : DataType) (s : SensitivityLevel) : ClassificationRule :=
  MkClassRule id name t s None [] None true.
Definition with_field_names (names : list string) (r : ClassificationRule) : ClassificationRule :=
  MkClassRule (lr_id r) (lr_name r) (lr_data_type r) (lr_sensitivity r) (lr_pattern r) names (lr_description r)
    (lr_enabled r).
Definition with_pattern (pattern : string) (r : ClassificationRule) : ClassificationRule :=
  MkClassRule (lr_id r) (lr_name r) (lr_data_type r) (lr_sensitivity r) (Some pattern) (lr_field_names r)
    (lr_description r) (lr_enabled r).

Record ClassificationResult := MkClassResult {
  cz_data_type : DataType;
  cz_sensitivity : SensitivityLevel;
  cz_matched_rule : option string;
  cz_requires_encryption : bool;
  cz_requires_masking : bool;
  cz_confidence : f32
}.

(** The rules, and for each field name the index of the rule registered last. *)
Record DataClassifier := MkDataClassifier {
  dc_rules : list ClassificationRule;
  dc_field_map : gmap string nat
}.

Definition register_rule (c : DataClassifier) (r : ClassificationRule) : DataClassifier :=
  MkDataClassifier (dc_rules c ++ [r])
    (foldl (λ m f, <[f := length (dc_rules c)]> m) (dc_field_map c) (lr_field_names r)).

Definition default_rules : list ClassificationRule :=
  let rule id name t s names := with_field_names names (ClassificationRule_new id name t s) in
  [rule "pii-email" "Email Address" PersonalIdentifiableInfo Confidential ["email"; "email_address"; "mail"];
   rule "pii-phone" "Phone Number" PersonalIdentifiableInfo Confidential
     ["phone"; "phone_number"; "mobile"; "telephone"];
   rule "pii-name" "Person Name" PersonalIdentifiableInfo Confidential
     ["name"; "first_name"; "last_name"; "full_name"];
   rule "financial-card" "Credit Card" Financial Restricted ["card_number"; "credit_card"; "card"];
   rule "financial-account" "Bank Account" Financial Restricted ["account_number"; "bank_account"; "iban"];
   rule "tech-ip" "IP Address" TechnicalLogs Internal ["ip"; "ip_address"; "client_ip"];
   rule "tech-token" "Access Token" TechnicalLogs Confidential ["token"; "access_token"; "api_key"; "secret"]].
Definition DataClassifier_new : DataClassifier := foldl register_rule (MkDataClassifier [] ∅) default_rules.

(** The result of a match, and a rule by its index, which is always in range. *)
Definition rule_result (r : ClassificationRule) (confidence : f32) : ClassificationResult :=
  MkClassResult (lr_data_type r) (lr_sensitivity r) (Some (lr_id r)) (requires_encryption (lr_data_type r))
    (requires_masking (lr_data_type r)) confidence.
Definition rule_at (c : DataClassifier) (confidence : f32) (idx : nat) : option ClassificationResult :=
  match dc_rules c !! idx with Some r => Some (rule_result r confidence) | None => None end.

Section Classify.
Context `{HashOrder, ToLowercase}.

(** [to_lowercase().replace('_', "")]. *)
Definition normalize_field (s : string) : string := str_concat (str_split "_" (to_lowercase s)).

(** The first mapped field, in the order of the map, that passes. *)
Definition find_mapped (c : DataClassifier) (p : string → bool) : option nat :=
  match List.find (λ fi : string * nat, p fi.1) (hash_order (dc_field_map c)) with Some fi => Some fi.2 | None => None end.

(** [None] of the outer option would be an index out of range. *)
Definition classify_by_field (c : DataClassifier) (field : string) : option ClassificationResult :=
  let normalized := normalize_field field in
  match dc_field_map c !! field with
  | Some idx => rule_at c f32_one idx
  | None =>
      match find_mapped c (λ f, bool_decide (normalized = normalize_field f)) with
      | Some idx => rule_at c (f32_lit 9 10) idx
      | None =>
          match find_mapped c (λ f, str_contains (normalize_field f) normalized
                                    || str_contains normalized (normalize_field f)) with
          | Some idx => rule_at c (f32_lit 7 10) idx
          | None => None
          end
      end
  end.

Definition unknown_field : ClassificationResult :=
  MkClassResult (OtherData "unknown") Internal None false false (f32_lit 5 10).
Definition classify_fields (c : DataClassifier) (fields : list string) : gmap string ClassificationResult :=
  foldl (λ m f, <[f := default unknown_field (classify_by_field c f)]> m) ∅ fields.
Definition get_fields_by_sensitivity (c : DataClassifier) (s : SensitivityLevel) : list string :=
  List.flat_map lr_field_names (List.filter (λ r, bool_decide (lr_sensitivity r = s)) (dc_rules c)).
End Classify.

(** ** Retention *)

Inductive RetentionAction := RtDelete | RtArchive | RtAnonymize | RtNotifyAdmin.

Record RetentionPolicy := MkRetention {
  po_id : string;
  po_name : string;
  po_data_type : option DataType;
  po_sensitivity : option SensitivityLevel;
  po_retention_days : Z;
  po_action : RetentionAction;
  po_enabled : bool;
  po_description : option string
}.
Definition RetentionPolicy_new (id name : string) (days : Z) (action : RetentionAction) : RetentionPolicy :=
  MkRetention id name None None days action true None.
Definition for_data_type (t : DataType) (p : RetentionPolicy) : RetentionPolicy :=
  MkRetention (po_id p) (po_name p) (Some t) (po_sensitivity p) (po_retention_days p) (po_action p) (po_enabled p)
    (po_description p).
Definition for_sensitivity (s : SensitivityLevel) (p : RetentionPolicy) : RetentionPolicy :=
  MkRetention (po_id p) (po_name p) (po_data_type p) (Some s) (po_retention_days p) (po_action p) (po_enabled p)
    (po_description p).

(** A restriction that is not set lets everything pass. *)
Definition restricts {A} `{EqDecision A} (o : option A) (x : A) : bool :=
  match o with Some y => bool_decide (y = x) | None => true end.
Definition applies_to (p : RetentionPolicy) (t : DataType) (s : SensitivityLevel) : bool :=
  po_enabled p && restricts (po_data_type p) t && restricts (po_sensitivity p) s.

Definition days (n : Z) : duration := seconds (n * 86400).
Definition calculate_expiry (p : RetentionPolicy) (created_at : timestamp) : timestamp :=
  (created_at + days (po_retention_days p))%Z.
Definition policy_expired (now : timestamp) (p : RetentionPolicy) (created_at : timestamp) : bool :=
  bool_decide (calculate_expiry p created_at < now)%Z.

Record DataRecord := MkDataRecord {
  dr_id : string;
  dr_data_type : DataType;
  dr_sensitivity : SensitivityLevel;
  dr_created_at : timestamp;
  dr_last_accessed : option timestamp;
  dr_size_bytes : Z;
  dr_location : string;
  dr_tenant_id : string;
  dr_metadata : gmap string string
}.
Definition DataRecord_new (now : timestamp) (id : string) (t : DataType) (s : SensitivityLevel)
    (location tenant : string) : DataRecord :=
  MkDataRecord id t s now None 0 location tenant ∅.

Record RetentionCheckResult := MkRetentionCheck {
  rk_record_id : string;
  rk_policy_id : string;
  rk_is_expired : bool;
  rk_suggested_action : RetentionAction;
  rk_expiry_date : timestamp
}.

Definition default_policies : list RetentionPolicy :=
  [for_data_type PersonalIdentifiableInfo
     (for_sensitivity Restricted (RetentionPolicy_new "pii-retention" "PII Data Retention" 90 RtDelete));
   for_data_type Financial (RetentionPolicy_new "financial-retention" "Financial Data Retention" 2555 RtArchive);
   for_data_type TechnicalLogs (RetentionPolicy_new "logs-retention" "Technical Logs Retention" 30 RtDelete);
   for_data_type Behavioral (RetentionPolicy_new "session-retention" "Session Data Retention" 365 RtAnonymize);
   for_data_type SystemMetadata
     (RetentionPolicy_new "metadata-retention" "System Metadata Retention" 90 RtDelete)].

(** The manager is its list of policies. *)
Definition RetentionPolicyManager := list RetentionPolicy.
Definition RetentionPolicyManager_new : RetentionPolicyManager := default_policies.
Definition register_policy (m : RetentionPolicyManager) (p : RetentionPolicy) : RetentionPolicyManager := m ++ [p].
Definition find_applicable_policy (m : RetentionPolicyManager) (t : DataType) (s : SensitivityLevel)
    : option RetentionPolicy :=
  List.find (λ p, applies_to p t s) m.
Definition check_retention (now : timestamp) (m : RetentionPolicyManager) (r : DataRecord)
    : option RetentionCheckResult :=
  match find_applicable_policy m (dr_data_type r) (dr_sensitivity r) with
  | Some p =>
      Some (MkRetentionCheck (dr_id r) (po_id p) (policy_expired now p (dr_created_at r)) (po_action p)
              (calculate_expiry p (dr_created_at r)))
  | None => None
  end.
Definition batch_check (now : timestamp) (m : RetentionPolicyManager) (records : list DataRecord)
    : list RetentionCheckResult :=
  omap (check_retention now m) records.
Definition get_expired_records (now : timestamp) (m : RetentionPolicyManager) (records : list DataRecord)
    : list RetentionCheckResult :=
  List.filter rk_is_expired (batch_check now m records).
(** The clock is read at one date for the whole batch. *)
Definition get_expiring_soon (now : timestamp) (m : RetentionPolicyManager) (records : list DataRecord)
    (threshold : Z) : list RetentionCheckResult :=
  List.filter (λ c, negb (rk_is_expired c) && bool_decide (rk_expiry_date c - now < days threshold)%Z)
    (batch_check now m records).

(** ** Archives *)

Inductive ArchiveStatus := ArPending | ArArchiving | ArArchived | ArFailed | ArRestored.
#[export] Instance ArchiveStatus_eq_dec : EqDecision ArchiveStatus. Proof. solve_decision. Defined.
Definition archive_status_debug (s : ArchiveStatus) : string :=
  match s with
  | ArPending => "Pending"
  | ArArchiving => "Archiving"
  | ArArchived => "Archived"
  | ArFailed => "Failed"
  | ArRestored => "Restored"
  end.

Inductive GovernanceError := ArchiveError (m : string) | GNotFound (id : string).

Record ArchiveRecord := MkArchive {
  av_id : string;
  av_source_id : string;
  av_data_type : DataType;
  av_sensitivity : SensitivityLevel;
  av_archive_path : string;
  av_original_size : Z;
  av_compressed_size : Z;
  av_created_at : timestamp;
  av_archived_at : option timestamp;
  av_status : ArchiveStatus;
  av_checksum : string;
  av_metadata : gmap string string
}.

(** [1.0 - c as f32 / o as f32], 0 for an empty original. *)
Definition ratio (original compressed : Z) : f32 :=
  if bool_decide (original = 0)%Z then f32_zero
  else SFsub 24 128 f32_one (f32_div (f32_of_Z compressed) (f32_of_Z original)).
Definition compression_ratio (r : ArchiveRecord) : f32 := ratio (av_original_size r) (av_compressed_size r).

Record ArchiveConfig := MkArchiveConfig {
  ag_archive_dir : string;
  ag_max_archive_size : Z;
  ag_retention_days : Z;
  ag_compress : bool;
  ag_encrypt : bool
}.
Definition ArchiveConfig_default : ArchiveConfig := MkArchiveConfig "archives" (1024 * 1024 * 1024) 365 true false.

Record ArchiveManager := MkArchiveManager { am_config : ArchiveConfig; am_records : gmap string ArchiveRecord }.
Definition ArchiveManager_new (c : ArchiveConfig) : ArchiveManager := MkArchiveManager c ∅.

(** [Path::join] of a directory and a relative path. *)
Definition join_path (dir rel : string) : string :=
  if bool_decide (dir = "") then rel
  else if bool_decide (String.get (String.length dir - 1) dir = Some "/"%char) then dir +:+ rel
  else dir +:+ "/" +:+ rel.

(** The file system as the archives use it, the hasher of the standard library
    (whose algorithm is not specified) with its text in hexadecimal, and the date
    of a path. *)
Class ArchiveWorld (W : Type) := {
  fs_create_dirs : W → string → W * Result unit string;
  fs_write : W → string → string → W * Result unit string;
  fs_read : W → string → Result string string;
  fs_remove : W → string → W * Result unit string;
  hash_hex : string → string;
  date_path : timestamp → string
}.

Record ArchiveStats := MkArchiveStats {
  at_total_archives : nat;
  at_archived_count : nat;
  at_pending_count : nat;
  at_failed_count : nat;
  at_total_original_size : Z;
  at_total_compressed_size : Z;
  at_by_data_type : gmap string nat
}.

Section Archives.
Context `{AW : ArchiveWorld W}.

Definition archive_dir_of (m : ArchiveManager) (now : timestamp) : string :=
  join_path (ag_archive_dir (am_config m)) (date_path now).
Definition archive_path_of (m : ArchiveManager) (now : timestamp) (id : string) : string :=
  join_path (archive_dir_of m now) (id +:+ ".archive").

(** The readings: creation, date of the path, date of the archive.  The data is
    stored as it is, compressed or not. *)
Record archive_env := MkArchiveEnv { ne_uuid : string; ne_created_at : timestamp; ne_path_at : timestamp;
                                     ne_archived_at : timestamp }.

Definition archive_record (env : archive_env) (m : ArchiveManager) (source : string) (t : DataType)
    (s : SensitivityLevel) (data : string) : ArchiveRecord :=
  MkArchive (ne_uuid env) source t s (archive_path_of m (ne_path_at env) (ne_uuid env))
    (Z.of_nat (String.length data)) (Z.of_nat (String.length data)) (ne_created_at env) (Some (ne_archived_at env))
    ArArchived (hash_hex data) ∅.

Definition create_archive (env : archive_env) (w : W) (m : ArchiveManager) (source : string) (t : DataType)
    (s : SensitivityLevel) (data : string) : W * ArchiveManager * Result string GovernanceError :=
  let r := archive_record env m source t s data in
  match fs_create_dirs w (archive_dir_of m (ne_path_at env)) with
  | (w1, Err e) => (w1, m, Err (ArchiveError e))
  | (w1, Ok _) =>
      match fs_write w1 (av_archive_path r) data with
      | (w2, Err e) => (w2, m, Err (ArchiveError e))
      | (w2, Ok _) => (w2, MkArchiveManager (am_config m) (<[ne_uuid env := r]> (am_records m)), Ok (ne_uuid env))
      end
  end.

Definition restore_archive (w : W) (m : ArchiveManager) (id : string) : Result string GovernanceError :=
  match am_records m !! id with
  | None => Err (GNotFound id)
  | Some r =>
      if negb (bool_decide (av_status r = ArArchived)) then
        Err (ArchiveError ("Archive not ready for restore: " +:+ archive_status_debug (av_status r)))
      else
        match fs_read w (av_archive_path r) with
        | Err e => Err (ArchiveError e)
        | Ok data =>
            if bool_decide (hash_hex data = av_checksum r) then Ok data
            else Err (ArchiveError "Checksum verification failed")
        end
  end.

(** The record goes whether or not its file could be removed. *)
Definition delete_archive (w : W) (m : ArchiveManager) (id : string) : W * ArchiveManager * bool :=
  match am_records m !! id with
  | Some r => ((fs_remove w (av_archive_path r)).1, MkArchiveManager (am_config m) (delete id (am_records m)), true)
  | None => (w, m, false)
  end.

Context `{HashOrder}.

(** Archives older than the retention, in the order of the map. *)
Definition archive_old (now : timestamp) (m : ArchiveManager) (r : ArchiveRecord) : bool :=
  match av_archived_at r with
  | Some t => bool_decide (t < now - days (ag_retention_days (am_config m)))%Z
  | None => false
  end.
Definition cleanup_expired_archives (now : timestamp) (w : W) (m : ArchiveManager) : W * ArchiveManager * nat :=
  foldl (λ '(w, m, n) (kr : string * ArchiveRecord),
      match delete_archive w m kr.1 with
      | (w', m', true) => (w', m', S n)
      | (w', m', false) => (w', m', n)
      end)
    (w, m, 0) (List.filter (λ kr : string * ArchiveRecord, archive_old now m kr.2) (hash_order (am_records m))).

(** [debug] is the derived text of a data type. *)
Definition count_archive (debug : DataType → string) (st : ArchiveStats) (r : ArchiveRecord) : ArchiveStats :=
  let when s n := if bool_decide (av_status r = s) then S n else n in
  MkArchiveStats (at_total_archives st) (when ArArchived (at_archived_count st))
    (when ArPending (at_pending_count st)) (when ArFailed (at_failed_count st))
    (wrap 64 (at_total_original_size st + av_original_size r))
    (wrap 64 (at_total_compressed_size st + av_compressed_size r))
    (<[debug (av_data_type r) := S (default 0 (at_by_data_type st !! debug (av_data_type r)))]> (at_by_data_type st)).
Definition archive_stats (debug : DataType → string) (m : ArchiveManager) : ArchiveStats :=
  foldl (count_archive debug) (MkArchiveStats (size (am_records m)) 0 0 0 0 0 ∅) (hash_values (am_records m)).
End Archives.
Definition total_compression_ratio (st : ArchiveStats) : f32 :=
  ratio (at_total_original_size st) (at_total_compressed_size st).

(** ** The classification of the privacy crate *)

Inductive DataCategory :=
| PersonalIdentifiableInformation | HealthData | FinancialData | LocationData | BiometricData | EthnicData
| PoliticalOpinions | ReligiousBeliefs | SexualOrientation | CriminalRecords | GeneralBusiness | TechnicalData
| UserGeneratedContent | OtherCategory (s : string).

Definition is_special_category (c : DataCategory) : bool :=
  match c with
  | HealthData | BiometricData | EthnicData | PoliticalOpinions | ReligiousBeliefs | SexualOrientation
  | CriminalRecords => true
  | _ => false
  end.
Definition category_sensitivity (c : DataCategory) : SensitivityLevel :=
  match c with
  | HealthData | BiometricData | EthnicData | PoliticalOpinions | ReligiousBeliefs | SexualOrientation
  | CriminalRecords => Restricted
  | PersonalIdentifiableInformation | FinancialData => Confidential
  | LocationData | TechnicalData | GeneralBusiness | UserGeneratedContent | OtherCategory _ => Internal
  end.

Record DataFieldClassification := MkField {
  fl_field_name : string;
  fl_category : DataCategory;
  fl_sensitivity : SensitivityLevel;
  fl_requires_encryption : bool;
  fl_requires_masking : bool;
  fl_retention_days : option Z;
  fl_description : option string
}.
Definition DataFieldClassification_new (name : string) (c : DataCategory) (s : SensitivityLevel)
    : DataFieldClassification :=
  MkField name c s (level_geb s Confidential) (level_geb s Confidential) None None.
Definition field_retention (n : Z) (f : DataFieldClassification) : DataFieldClassification :=
  MkField (fl_field_name f) (fl_category f) (fl_sensitivity f) (fl_requires_encryption f) (fl_requires_masking f)
    (Some n) (fl_description f).
Definition field_description (d : string) (f : DataFieldClassification) : DataFieldClassification :=
  MkField (fl_field_name f) (fl_category f) (fl_sensitivity f) (fl_requires_encryption f) (fl_requires_masking f)
    (fl_retention_days f) (Some d).

Record PersonalDataClassifier := MkPersonalClassifier {
  pd_field_classifications : gmap string DataFieldClassification;
  pd_table_classifications : gmap string DataCategory
}.
Definition register_field (c : PersonalDataClassifier) (f : DataFieldClassification) : PersonalDataClassifier :=
  MkPersonalClassifier (<[fl_field_name f := f]> (pd_field_classifications c)) (pd_table_classifications c).
Definition register_table (c : PersonalDataClassifier) (name : string) (t : DataCategory) : PersonalDataClassifier :=
  MkPersonalClassifier (pd_field_classifications c) (<[name := t]> (pd_table_classifications c)).

Definition default_fields : list DataFieldClassification :=
  let field := DataFieldClassification_new in
  [field "user_id" PersonalIdentifiableInformation Confidential;
   field_description "User email address" (field "email" PersonalIdentifiableInformation Confidential);
   field_description "Phone number" (field "phone" PersonalIdentifiableInformation Confidential);
   field "name" PersonalIdentifiableInformation Internal;
   field "ip_address" TechnicalData Internal;
   field "device_id" TechnicalData Internal;
   field_retention 30 (field "session_id" TechnicalData Internal);
   field_retention 365 (field "message_content" UserGeneratedContent Confidential);
   field_retention 1 (field "access_token" TechnicalData Restricted);
   field_retention 30 (field "refresh_token" TechnicalData Restricted)].
Definition PersonalDataClassifier_new : PersonalDataClassifier :=
  foldl register_field (MkPersonalClassifier ∅ ∅) default_fields.

Definition get_field_classification (c : PersonalDataClassifier) (name : string) : option DataFieldClassification :=
  pd_field_classifications c !! name.
Definition get_field_sensitivity (c : PersonalDataClassifier) (name : string) : SensitivityLevel :=
  match get_field_classification c name with Some f => fl_sensitivity f | None => SensitivityLevel_default end.
Definition field_requires_encryption (c : PersonalDataClassifier) (name : string) : bool :=
  match get_field_classification c name with Some f => fl_requires_encryption f | None => false end.
Definition fields_where `{HashOrder} (p : DataFieldClassification → bool) (c : PersonalDataClassifier) : list string :=
  (List.filter (λ nf : string * DataFieldClassification, p nf.2) (hash_order (pd_field_classifications c))).*1.
Definition get_restricted_fields `{HashOrder} : PersonalDataClassifier → list string :=
  fields_where (λ f, bool_decide (fl_sensitivity f = Restricted)).
Definition get_special_category_fields `{HashOrder} : PersonalDataClassifier → list string :=
  fields_where (λ f, is_special_category (fl_category f)).
Definition get_table_category (c : PersonalDataClassifier) (name : string) : option DataCategory :=
  pd_table_classifications c !! name.
