(* ===== verification/GovernanceFacts.v ===== *)
(** Data governance: which rule classifies a field, which policy applies to it, and
    what an archive gives back. *)
From S2P Require Import Prelude Text Float32 Permission Governance.

(** ** Classification *)

Definition build (rules : list ClassificationRule) : DataClassifier := foldl register_rule (MkDataClassifier [] ∅) rules.

Lemma build_snoc rules r : build (rules ++ [r]) = register_rule (build rules) r.
Proof. unfold build. by rewrite foldl_app. Qed.

Lemma build_rules rules : dc_rules (build rules) = rules.
Proof. induction rules as [|r rules IH] using rev_ind; [done|]. rewrite build_snoc. simpl. by rewrite IH. Qed.

Lemma insert_names_lookup (names : list string) (k : nat) (m : gmap string nat) f :
  foldl (λ m f, <[f := k]> m) m names !! f = if bool_decide (f ∈ names) then Some k else m !! f.
Proof.
  revert m. induction names as [|x names IH]; intros m; cbn [foldl].
  { by rewrite bool_decide_eq_false_2 by apply not_elem_of_nil. }
  rewrite IH. destruct (decide (f = x)) as [->|N].
  - rewrite (bool_decide_eq_true_2 (x ∈ x :: names)) by set_solver. case_bool_decide; [done|]. by rewrite lookup_insert_eq.
  - rewrite lookup_insert_ne by done. by rewrite (bool_decide_ext (f ∈ x :: names) (f ∈ names)) by set_solver.
Qed.

(** A field name stands for the rule registered last among those that list it. *)
Theorem last_rule_classifies rules f idx :
  dc_field_map (build rules) !! f = Some idx ↔
  (∃ r, rules !! idx = Some r ∧ f ∈ lr_field_names r) ∧
  (∀ j r, idx < j → rules !! j = Some r → f ∉ lr_field_names r).
Proof.
  induction rules as [|r rules IH] using rev_ind; [by set_solver|].
  rewrite build_snoc. simpl. rewrite insert_names_lookup, build_rules. case_bool_decide as Hf.
  - split.
    + intros [= <-]. split; [exists r; by rewrite lookup_app_r, Nat.sub_diag by lia|].
      intros j r' Hj [Hlt|Hlt]%lookup_app_Some; [by apply lookup_lt_Some in Hlt; lia|].
      destruct Hlt as [_ Hlt%lookup_lt_Some]. simpl in Hlt. lia.
    + intros [(r' & Hr & Hin) Hlast]. f_equal. destruct (decide (idx = length rules)) as [|N]; [done|].
      assert (idx < length rules) as Hlt by (apply lookup_lt_Some in Hr; rewrite length_app in Hr; simpl in Hr; lia).
      exfalso. apply (Hlast (length rules) r Hlt); [by rewrite lookup_app_r, Nat.sub_diag by lia|done].
  - rewrite IH. split; intros [(r' & Hr & Hin) Hlast]; split.
    + exists r'. split; [|done]. by apply lookup_app_l_Some.
    + intros j r2 Hj [Hl|[_ Hl]]%lookup_app_Some; [by apply (Hlast j)|]. by apply list_lookup_singleton_Some in Hl as [_ <-].
    + apply lookup_app_Some in Hr as [Hr|[_ Hr]]; [by eauto|]. by apply list_lookup_singleton_Some in Hr as [_ <-].
    + intros j r2 Hj Hl. apply (Hlast j); [done|]. by apply lookup_app_l_Some.
Qed.

Section Classify.
Context `{HashOrder, ToLowercase}.

(** A listed name is classified by its rule, with full confidence; whether it needs
    encryption follows from the type of the data alone. *)
Theorem listed_field_classified rules f idx r :
  dc_field_map (build rules) !! f = Some idx → rules !! idx = Some r →
  classify_by_field (build rules) f = Some (rule_result r f32_one).
Proof.
  intros Hi Hr. unfold classify_by_field, rule_at. by rewrite Hi, build_rules, Hr.
Qed.

(** Every classified field has a rule: no index is out of range. *)
Lemma indices_in_range rules f idx : dc_field_map (build rules) !! f = Some idx → is_Some (rules !! idx).
Proof. intros [(r & Hr & _) _]%last_rule_classifies. eauto. Qed.

(** Secrets are confidential and yet need no encryption, for their type is that of
    technical logs. *)
Theorem secrets_need_no_encryption f :
  f ∈ ["token"; "access_token"; "api_key"; "secret"] →
  ∃ r, classify_by_field DataClassifier_new f = Some r ∧ cz_sensitivity r = Confidential ∧
    cz_requires_encryption r = false.
Proof. rewrite !elem_of_cons, elem_of_nil. intros [->|[->|[->|[->|[]]]]]; eexists; split; vm_compute; done. Qed.
End Classify.

(** Two orders of a hash map. *)
Definition reversed_order : HashOrder.
Proof.
  refine {| hash_order := λ K V _ _ m, rev (map_to_list m) |}. intros K V ? ? m. by rewrite <-Permutation_rev.
Defined.
Definition plain_ascii_lower : ToLowercase :=
  {| to_lowercase := ascii_lower; to_lowercase_ascii _ _ := eq_refl |}.

(** A name that contains several listed names is classified by whichever comes
    first in the map, so the same field is restricted in one run and confidential
    in another. *)
Theorem fuzzy_classification_unstable :
  let classify order := classify_by_field (H := order) (H0 := plain_ascii_lower) DataClassifier_new "card_mobile" in
  cz_sensitivity <$> classify canonical_order ≠ cz_sensitivity <$> classify reversed_order.
Proof. vm_compute. congruence. Qed.

(** ** Retention *)

(** The first policy in the order of registration decides; a later one, however
    specific, is not looked at. *)
Theorem first_policy_decides m p t s :
  find_applicable_policy (register_policy m p) t s =
  match find_applicable_policy m t s with
  | Some q => Some q
  | None => if applies_to p t s then Some p else None
  end.
Proof.
  unfold find_applicable_policy, register_policy. induction m as [|q m IH]; simpl; [done|].
  by destruct (applies_to q t s).
Qed.

(** The personal data the default rules find falls under no default policy: they
    call it confidential, and the policy is for restricted data. *)
Theorem classified_personal_data_kept r :
  r ∈ default_rules → lr_data_type r = PersonalIdentifiableInfo →
  find_applicable_policy RetentionPolicyManager_new PersonalIdentifiableInfo (lr_sensitivity r) = None ∧
  ∀ now record, dr_data_type record = PersonalIdentifiableInfo → dr_sensitivity record = lr_sensitivity r →
    check_retention now RetentionPolicyManager_new record = None.
Proof.
  intros Hr Ht. assert (find_applicable_policy RetentionPolicyManager_new PersonalIdentifiableInfo (lr_sensitivity r) = None) as E.
  { assert (Forall (λ r, lr_data_type r = PersonalIdentifiableInfo → lr_sensitivity r = Confidential) default_rules) as F
      by (repeat (apply Forall_cons_2; [done|]); apply Forall_nil_2).
    rewrite Forall_forall in F. by rewrite (F r Hr Ht). }
  split; [done|]. intros now record Hd Hs. unfold check_retention. by rewrite Hd, Hs, E.
Qed.

(** A record is reported expired, or about to, exactly by the policy that applies
    to it, and never as both. *)
Theorem retention_reports_exact now m records threshold c :
  (c ∈ get_expired_records now m records ↔
     ∃ r p, r ∈ records ∧ find_applicable_policy m (dr_data_type r) (dr_sensitivity r) = Some p ∧
       check_retention now m r = Some c ∧ (calculate_expiry p (dr_created_at r) < now)%Z) ∧
  (c ∈ get_expiring_soon now m records threshold ↔
     ∃ r p, r ∈ records ∧ find_applicable_policy m (dr_data_type r) (dr_sensitivity r) = Some p ∧
       check_retention now m r = Some c ∧
       (now ≤ calculate_expiry p (dr_created_at r) < now + days threshold)%Z).
Proof.
  assert (∀ r, check_retention now m r = Some c ↔
    ∃ p, find_applicable_policy m (dr_data_type r) (dr_sensitivity r) = Some p ∧ check_retention now m r = Some c ∧
      rk_is_expired c = policy_expired now p (dr_created_at r) ∧ rk_expiry_date c = calculate_expiry p (dr_created_at r)) as C.
  { intros r. unfold check_retention. destruct (find_applicable_policy _ _ _) as [p|]; [|naive_solver].
    split; [intros [= <-]; by exists p|naive_solver]. }
  assert (c ∈ batch_check now m records ↔ ∃ r, r ∈ records ∧ check_retention now m r = Some c) as B
    by (unfold batch_check; apply list_elem_of_omap).
  unfold get_expired_records, get_expiring_soon.
  rewrite !list_elem_of_In, !filter_In, <-!list_elem_of_In, B. split; split.
  - intros [(r & Hr & Hc) Hx]. apply C in Hc as (p & Hp & Hc & Hxp & _). exists r, p. split_and!; try done.
    rewrite Hxp in Hx. by apply bool_decide_eq_true in Hx.
  - intros (r & p & Hr & Hp & Hc & Hlt). split; [by eauto|]. apply C in Hc as (p' & Hp' & _ & -> & _). simplify_eq.
    by apply bool_decide_eq_true.
  - intros [(r & Hr & Hc) [Hx Hd%bool_decide_eq_true]%andb_prop]. apply C in Hc as (p & Hp & Hc & Hxp & Hxd).
    exists r, p. split_and!; try done.
    + apply negb_true_iff in Hx. rewrite Hxp in Hx. apply bool_decide_eq_false in Hx. lia.
    + rewrite Hxd in Hd. lia.
  - intros (r & p & Hr & Hp & Hc & Hlt). split; [by eauto|]. apply C in Hc as (p' & Hp' & _ & Hx & Hd). simplify_eq.
    rewrite Hx, Hd. unfold policy_expired. rewrite bool_decide_eq_false_2 by lia. simpl. apply bool_decide_eq_true. lia.
Qed.

(** ** Archives *)

(** A file reads as it was written last, and writing, making directories or
    removing another file leaves it alone. *)
Class ArchiveWorldLaws (W : Type) `{!ArchiveWorld W} := {
  fs_read_write w p d w' : fs_write w p d = (w', Ok tt) → fs_read w' p = Ok d;
  fs_write_other w p d w' r q : fs_write w p d = (w', r) → q ≠ p → fs_read w' q = fs_read w q;
  fs_create_dirs_reads w d w' r q : fs_create_dirs w d = (w', r) → fs_read w' q = fs_read w q;
  fs_remove_other w p w' r q : fs_remove w p = (w', r) → q ≠ p → fs_read w' q = fs_read w q
}.

Section Archives.
Context `{LAWS : ArchiveWorldLaws W}.
Implicit Types (w : W) (m : ArchiveManager) (r : ArchiveRecord).

Lemma create_archive_ok env w m source t s data w' m' id :
  create_archive env w m source t s data = (w', m', Ok id) →
  id = ne_uuid env ∧
  m' = MkArchiveManager (am_config m) (<[id := archive_record env m source t s data]> (am_records m)) ∧
  fs_read w' (av_archive_path (archive_record env m source t s data)) = Ok data ∧
  ∀ q, q ≠ av_archive_path (archive_record env m source t s data) → fs_read w' q = fs_read w q.
Proof.
  unfold create_archive. destruct (fs_create_dirs _ _) as [w1 [[]|e]] eqn:Ed; [|done].
  destruct (fs_write _ _ _) as [w2 [[]|e]] eqn:Ew; [|done]. intros [= <- <- <-]. split_and!; [done..| |].
  - by eapply fs_read_write.
  - intros q Hq. rewrite (fs_write_other _ _ _ _ _ _ Ew Hq). by eapply fs_create_dirs_reads.
Qed.

(** Other archives made and deleted, at other places. *)
Inductive elsewhere (id path : string) : W * ArchiveManager → W * ArchiveManager → Prop :=
| elsewhere_create env w m source t s data w' m' id' :
    create_archive env w m source t s data = (w', m', Ok id') → id' ≠ id →
    av_archive_path (archive_record env m source t s data) ≠ path →
    elsewhere id path (w, m) (w', m')
| elsewhere_delete w m id' w' m' b :
    delete_archive w m id' = (w', m', b) → id' ≠ id →
    (∀ r, am_records m !! id' = Some r → av_archive_path r ≠ path) →
    elsewhere id path (w, m) (w', m').

(** C37. An archive gives back the data it was made of, whatever happens to others in
    between. *)
Theorem archive_round_trip env w m source t s data w1 m1 id w2 m2 :
  create_archive env w m source t s data = (w1, m1, Ok id) →
  rtc (elsewhere id (av_archive_path (archive_record env m source t s data))) (w1, m1) (w2, m2) →
  restore_archive w2 m2 id = Ok data.
Proof.
  intros (_ & -> & Hread & _)%create_archive_ok Hs. set (r := archive_record env m source t s data) in *.
  assert (∀ x y, rtc (elsewhere id (av_archive_path r)) x y →
    am_records x.2 !! id = Some r → fs_read x.1 (av_archive_path r) = Ok data →
    am_records y.2 !! id = Some r ∧ fs_read y.1 (av_archive_path r) = Ok data) as K.
  { clear -LAWS. intros x y Hs. induction Hs as [|x y z S _ IH]; [done|]. intros Hm Hf. apply IH; clear IH.
    - destruct S as [env' w m' ? ? ? ? w' m'' id' (-> & -> & _)%create_archive_ok N|w m' id' w' m'' b D N]; simpl in *.
      + by rewrite lookup_insert_ne.
      + unfold delete_archive in D. destruct (am_records m' !! id'); simplify_eq/=; [by rewrite lookup_delete_ne|done].
    - destruct S as [env' w m' ? ? ? ? w' m'' id' (_ & _ & _ & F)%create_archive_ok N|w m' id' w' m'' b D N P]; simpl in *.
      + by rewrite F.
      + unfold delete_archive in D. destruct (am_records m' !! id') as [r'|] eqn:E; [|by simplify_eq].
        destruct (fs_remove w (av_archive_path r')) as [w3 o] eqn:R. simplify_eq/=.
        rewrite (fs_remove_other _ _ _ _ _ R); [done|]. intros Heq. by apply (P r'). }
  destruct (K _ _ Hs) as [Hm Hf]; [simpl; by rewrite lookup_insert_eq|done|]. simpl in *.
  unfold restore_archive. rewrite Hm. simpl. by rewrite Hf, bool_decide_eq_true_2.
Qed.

(** What is restored carries the checksum taken when it was archived. *)
Theorem restored_data_checked w m id data :
  restore_archive w m id = Ok data →
  ∃ r, am_records m !! id = Some r ∧ av_status r = ArArchived ∧ hash_hex data = av_checksum r.
Proof.
  unfold restore_archive. destruct (am_records m !! id) as [r|]; [|done]. case_bool_decide; [|done]. simpl.
  destruct (fs_read w _) as [d|]; [|done]. case_bool_decide; [|done]. intros [= <-]. eauto.
Qed.

Context `{HashOrder}.

Lemma cleanup_fold (l : list (string * ArchiveRecord)) w m n :
  NoDup l.*1 → (∀ k r, (k, r) ∈ l → am_records m !! k = Some r) →
  let '(_, m', n') := foldl (λ '(w, m, n) (kr : string * ArchiveRecord),
      match delete_archive w m kr.1 with
      | (w', m', true) => (w', m', S n)
      | (w', m', false) => (w', m', n)
      end) (w, m, n) l in
  n' + size (am_records m') = n + size (am_records m) ∧
  ∀ k, am_records m' !! k = if bool_decide (k ∈ l.*1) then None else am_records m !! k.
Proof.
  revert w m n. induction l as [|[k r] l IH]; intros w m n.
  { intros _ _. cbn [foldl]. split; [done|]. intros k. by rewrite bool_decide_eq_false_2 by apply not_elem_of_nil. }
  rewrite fmap_cons, NoDup_cons. intros [Nk Nd] Hl. cbn [foldl]. unfold delete_archive at 2. cbn [fst].
  assert (am_records m !! k = Some r) as Hk by (apply Hl, elem_of_cons; by left). rewrite Hk.
  match goal with |- context [foldl _ (?w', ?m', ?n') l] => specialize (IH w' m' n') end.
  destruct (foldl _ _ l) as [[w' m'] n']. destruct IH as (Hn & Hks); [done| |].
  { intros k' r' Hin. simpl. rewrite lookup_delete_ne; [apply Hl, elem_of_cons; by right|].
    intros ->. apply Nk. apply list_elem_of_fmap. by exists (k', r'). }
  simpl in Hn. rewrite map_size_delete_Some in Hn by eauto.
  assert (size (am_records m) ≠ 0) by (apply (map_size_ne_0_lookup_2 _ k); eauto). split; [lia|].
  intros k'. rewrite Hks. simpl. destruct (decide (k' = k)) as [->|N].
  - rewrite lookup_delete_eq. rewrite (bool_decide_eq_true_2 (k ∈ k :: _)) by set_solver. by case_bool_decide.
  - rewrite lookup_delete_ne by done. by rewrite (bool_decide_ext (k' ∈ k :: l.*1) (k' ∈ l.*1)) by set_solver.
Qed.

(** A clean-up removes exactly the archives past the retention, and counts them. *)
Theorem cleanup_exact now w m :
  let '(_, m', n) := cleanup_expired_archives now w m in
  (∀ id, am_records m' !! id = match am_records m !! id with
                               | Some r => if archive_old now m r then None else Some r
                               | None => None
                               end) ∧
  n + size (am_records m') = size (am_records m).
Proof.
  unfold cleanup_expired_archives. destruct (filter_keys_spec (archive_old now m) (am_records m)) as [Nd Hk].
  pose proof (cleanup_fold (List.filter (λ kr, archive_old now m kr.2) (hash_order (am_records m))) w m 0 Nd) as F.
  destruct (foldl _ _ _) as [[w' m'] n]. destruct F as [Hn Hm].
  { intros k r [_ Hin]%elem_of_filter_bool. by apply elem_of_hash_order. }
  split; [|lia]. intros id. rewrite Hm. case_bool_decide as D.
  - apply Hk in D as (r & -> & ->). done.
  - destruct (am_records m !! id) as [r|] eqn:E; [|done]. destruct (archive_old now m r) eqn:O; [|done].
    exfalso. apply D, Hk. eauto.
Qed.
End Archives.

(** ** The classification of the privacy crate *)

(** The two classifiers differ on the name of a person: one holds it confidential,
    the other neither encrypts nor masks it, though it calls it personal. *)
Theorem classifiers_disagree `{HashOrder, ToLowercase} :
  (∃ r, classify_by_field DataClassifier_new "name" = Some r ∧ cz_sensitivity r = Confidential ∧
        cz_requires_encryption r = true) ∧
  ∃ f, get_field_classification PersonalDataClassifier_new "name" = Some f ∧
       fl_category f = PersonalIdentifiableInformation ∧ category_sensitivity (fl_category f) = Confidential ∧
       field_requires_encryption PersonalDataClassifier_new "name" = false.
Proof. split; eexists; split_and!; by vm_compute. Qed.

(** Encryption and masking follow the level a field was registered with. *)
Theorem field_flags_follow_level fields name f :
  get_field_classification
    (foldl register_field (MkPersonalClassifier ∅ ∅)
       ((λ '(n, c, s), DataFieldClassification_new n c s) <$> fields)) name = Some f →
  fl_requires_encryption f = level_geb (fl_sensitivity f) Confidential ∧
  fl_requires_masking f = level_geb (fl_sensitivity f) Confidential ∧ fl_field_name f = name.
Proof.
  assert (∀ c, map_Forall (λ k f, fl_requires_encryption f = level_geb (fl_sensitivity f) Confidential ∧
    fl_requires_masking f = level_geb (fl_sensitivity f) Confidential ∧ fl_field_name f = k) (pd_field_classifications c) →
    map_Forall (λ k f, fl_requires_encryption f = level_geb (fl_sensitivity f) Confidential ∧
    fl_requires_masking f = level_geb (fl_sensitivity f) Confidential ∧ fl_field_name f = k)
    (pd_field_classifications (foldl register_field c ((λ '(n, c, s), DataFieldClassification_new n c s) <$> fields)))) as K.
  { induction fields as [|[[n c] s] fields IH]; intros cl Hc; [done|]. apply IH. by apply map_Forall_insert_2. }
  intros Hf. by apply (K (MkPersonalClassifier ∅ ∅) ltac:(apply map_Forall_empty) name).
Qed.

(** *** Archives in memory *)

#[export] Instance memory_world : ArchiveWorld (gmap string string) := {
  fs_create_dirs w _ := (w, Ok tt);
  fs_write w p d := (<[p := d]> w, Ok tt);
  fs_read w p := ok_or (w !! p) "not found";
  fs_remove w p := (delete p w, Ok tt);
  hash_hex d := pretty (String.length d);
  date_path _ := "2026/01/01"
}.
#[export] Instance memory_world_laws : ArchiveWorldLaws (gmap string string).
Proof.
  split; simpl; intros; simplify_eq; [by rewrite lookup_insert_eq|by rewrite lookup_insert_ne|done|
    by rewrite lookup_delete_ne].
Qed.

Definition archive_demo_env (id : string) : archive_env := MkArchiveEnv id 1 1 1.
Definition archive_demo : ArchiveManager := ArchiveManager_new ArchiveConfig_default.
Definition archived_a : gmap string string * ArchiveManager :=
  (create_archive (archive_demo_env "a") ∅ archive_demo "source" TechnicalLogs Internal "hello").1.
Definition archived_b : gmap string string * ArchiveManager :=
  (create_archive (archive_demo_env "b") archived_a.1 archived_a.2 "other" TechnicalLogs Internal "world").1.

Lemma archive_round_trip_witness :
  restore_archive archived_b.1 archived_b.2 "a" = Ok "hello".
Proof.
  assert (elsewhere "a" (av_archive_path (archive_record (archive_demo_env "a") archive_demo "source" TechnicalLogs Internal
    "hello")) archived_a archived_b) as S.
  { apply (elsewhere_create _ _ (archive_demo_env "b") archived_a.1 archived_a.2 "other" TechnicalLogs Internal "world"
      archived_b.1 archived_b.2 "b"); [by vm_compute|done|by vm_compute]. }
  apply (archive_round_trip (archive_demo_env "a") ∅ archive_demo "source" TechnicalLogs Internal "hello"
    archived_a.1 archived_a.2 "a"); [vm_compute; reflexivity|].
  apply rtc_once. exact S.
Defined.
