(* ===== verification/Webhook.v ===== *)
(** Webhooks ([crates/uhorse-webhook/src]): templates, signatures, retries, the
    history of calls and the client that puts them together.  The remote side is
    the outcome of each attempt; the hash, the JSON texts, the powers of floats and
    the random samples are parameters. *)
From Stdlib Require Import SpecFloat.
From S2P Require Import Prelude Text Float32 Json.

Inductive WebhookError :=
| TemplateError (m : string)
| HttpError (m : string)
| SerializationError (m : string).
Definition WebhookError_display (e : WebhookError) : string :=
  match e with
  | TemplateError m => "Template error: " +:+ m
  | HttpError m => "HTTP error: " +:+ m
  | SerializationError m => "Serialization error: " +:+ m
  end.

(** ** Floats *)

(** [f64::powi], whose rounding the standard library leaves open. *)
Class Powi := powi : f64 → Z → f64.

Definition f64_max (x y : f64) : f64 :=
  if is_nan x then y else if is_nan y then x else if SFltb x y then y else x.
Definition f64_neg (x : f64) : f64 := SFopp x.
Definition f64_lit (n d : Z) : f64 := f64_div (f64_of_Z n) (f64_of_Z d).

(** [x as u64]: towards zero, saturating, 0 for NaN. *)
Definition f64_as_u64 (x : f64) : Z :=
  match x with
  | S754_infinity false => u64_max
  | S754_finite false m e => Z.min u64_max (Z.shiftl (Zpos m) e)
  | _ => 0
  end.

(** ** Retries *)

Record RetryPolicy := MkRetryPolicy {
  rp_max_retries : Z;
  rp_initial_delay_ms : Z;
  rp_max_delay_ms : Z;
  rp_multiplier : f64;
  rp_jitter : f64;
  rp_retryable_status_codes : list Z
}.
Definition RetryPolicy_default : RetryPolicy :=
  MkRetryPolicy 5 1000 60000 (f64_of_Z 2) (f64_lit 1 10) [408; 429; 500; 502; 503; 504]%Z.
Definition RetryPolicy_new (max_retries : Z) : RetryPolicy :=
  MkRetryPolicy max_retries 1000 60000 (f64_of_Z 2) (f64_lit 1 10) [408; 429; 500; 502; 503; 504]%Z.

Inductive RetryableError := RTimeout | RConnection | RStatus (code : Z) | ROther (m : string).
Definition RetryableError_display (e : RetryableError) : string :=
  match e with
  | RTimeout => "Timeout"
  | RConnection => "Connection error"
  | RStatus code => "HTTP status: " +:+ pretty code
  | ROther m => "Error: " +:+ m
  end.

(** An error of the HTTP crate. *)
Record request_error := MkRequestError {
  re_timeout : bool;
  re_connect : bool;
  re_status : option Z;
  re_text : string
}.
Definition RetryableError_from (e : request_error) : RetryableError :=
  if re_timeout e then RTimeout
  else if re_connect e then RConnection
  else match re_status e with Some code => RStatus code | None => ROther (re_text e) end.

Definition should_retry (p : RetryPolicy) (attempt : Z) (e : RetryableError) : bool :=
  if bool_decide (rp_max_retries p ≤ attempt)%Z then false
  else match e with
       | RTimeout | RConnection => true
       | RStatus code => bool_decide (code ∈ rp_retryable_status_codes p)
       | ROther _ => false
       end.

Section Delay.
Context `{Powi}.

(** The delay in milliseconds; [sample] is what the generator draws from the range
    it is given.  [None] is the panic of an empty range. *)
Definition calculate_delay (p : RetryPolicy) (attempt : Z) (sample : f64) : option Z :=
  let base := f64_mul (f64_of_Z (rp_initial_delay_ms p)) (powi (rp_multiplier p) (Z.max 0 (attempt - 1))) in
  let delay := f32_min base (f64_of_Z (rp_max_delay_ms p)) in
  let range := f64_mul delay (rp_jitter p) in
  if SFltb (f64_neg range) range then Some (f64_as_u64 (f64_max (f64_add delay sample) f32_zero)) else None.

Record RetryState := MkRetryState {
  rs_attempts : Z;
  rs_last_error : option string;
  rs_delays_ms : list Z;
  rs_exhausted : bool
}.
Definition RetryState_new : RetryState := MkRetryState 0 None [] false.
Definition total_delay (s : RetryState) : Z := foldr Z.add 0%Z (rs_delays_ms s).

(** [execute]: [operation n] is the outcome of attempt [n], counted from 1, and
    [sample n] the draw after it.  The answers: [None] is a panic, and the fuel is
    more than the attempts left. *)
Inductive retried (T : Type) :=
| Finished (r : Result T RetryState)
| Panicked
| OutOfFuel.
Arguments Finished {T}.
Arguments Panicked {T}.
Arguments OutOfFuel {T}.

Fixpoint execute_from {T} (fuel : nat) (p : RetryPolicy) (operation : Z → Result T RetryableError)
    (sample : Z → f64) (attempt : Z) (delays : list Z) : retried T :=
  match fuel with
  | O => OutOfFuel
  | S fuel =>
      let attempt := (attempt + 1)%Z in
      match operation attempt with
      | Ok r => Finished (Ok r)
      | Err e =>
          if negb (should_retry p attempt e) then
            Finished (Err (MkRetryState attempt (Some (RetryableError_display e)) delays true))
          else
            match calculate_delay p attempt (sample attempt) with
            | None => Panicked
            | Some d => execute_from fuel p operation sample attempt (delays ++ [d])
            end
      end
  end.
Definition retry_execute {T} (p : RetryPolicy) (operation : Z → Result T RetryableError) (sample : Z → f64) : retried T :=
  execute_from (S (Z.to_nat (rp_max_retries p))) p operation sample 0 [].
End Delay.
Arguments Finished {T}.
Arguments Panicked {T}.
Arguments OutOfFuel {T}.

(** ** History *)

Inductive WebhookStatus := WhPending | WhSuccess | WhFailed | WhRetrying | WhCancelled.
#[export] Instance WebhookStatus_eq_dec : EqDecision WebhookStatus. Proof. solve_decision. Defined.
Definition WebhookStatus_display (s : WebhookStatus) : string :=
  match s with
  | WhPending => "pending"
  | WhSuccess => "success"
  | WhFailed => "failed"
  | WhRetrying => "retrying"
  | WhCancelled => "cancelled"
  end.

Record WebhookRecord := MkWebhook {
  wr_id : string;
  wr_endpoint : string;
  wr_event_type : string;
  wr_payload : string;
  wr_headers : gmap string string;
  wr_response_code : option Z;
  wr_response_body : option string;
  wr_retry_count : Z;
  wr_status : WebhookStatus;
  wr_error_message : option string;
  wr_created_at : timestamp;
  wr_completed_at : option timestamp;
  wr_duration_ms : option Z;
  wr_tenant_id : string
}.
Definition WebhookRecord_new (uuid : string) (now : timestamp) (endpoint event_type payload tenant : string)
    : WebhookRecord :=
  MkWebhook uuid endpoint event_type payload ∅ None None 0 WhPending None now None None tenant.
Definition record_add_header (key value : string) (r : WebhookRecord) : WebhookRecord :=
  MkWebhook (wr_id r) (wr_endpoint r) (wr_event_type r) (wr_payload r) (<[key := value]> (wr_headers r))
    (wr_response_code r) (wr_response_body r) (wr_retry_count r) (wr_status r) (wr_error_message r) (wr_created_at r)
    (wr_completed_at r) (wr_duration_ms r) (wr_tenant_id r).
Definition mark_success (now : timestamp) (code : Z) (body : option string) (duration_ms : Z) (r : WebhookRecord)
    : WebhookRecord :=
  MkWebhook (wr_id r) (wr_endpoint r) (wr_event_type r) (wr_payload r) (wr_headers r) (Some code) body
    (wr_retry_count r) WhSuccess (wr_error_message r) (wr_created_at r) (Some now) (Some duration_ms) (wr_tenant_id r).
Definition mark_failure (now : timestamp) (error : string) (r : WebhookRecord) : WebhookRecord :=
  MkWebhook (wr_id r) (wr_endpoint r) (wr_event_type r) (wr_payload r) (wr_headers r) (wr_response_code r)
    (wr_response_body r) (wr_retry_count r) WhFailed (Some error) (wr_created_at r) (Some now) (wr_duration_ms r)
    (wr_tenant_id r).
Definition mark_retrying (r : WebhookRecord) : WebhookRecord :=
  MkWebhook (wr_id r) (wr_endpoint r) (wr_event_type r) (wr_payload r) (wr_headers r) (wr_response_code r)
    (wr_response_body r) (wrap 32 (wr_retry_count r + 1)) WhRetrying (wr_error_message r) (wr_created_at r)
    (wr_completed_at r) (wr_duration_ms r) (wr_tenant_id r).
Definition record_succeeded (r : WebhookRecord) : bool := bool_decide (wr_status r = WhSuccess).
Definition is_retryable (r : WebhookRecord) : bool :=
  match wr_status r with WhFailed | WhRetrying => true | _ => false end.

Record WebhookFilter := MkWebhookFilter {
  wf_status : option WebhookStatus;
  wf_event_type : option string;
  wf_endpoint : option string;
  wf_tenant_id : option string;
  wf_start_time : option timestamp;
  wf_end_time : option timestamp
}.
Definition WebhookFilter_new : WebhookFilter := MkWebhookFilter None None None None None None.

Definition filter_status (x : WebhookStatus) (f : WebhookFilter) : WebhookFilter :=
  MkWebhookFilter (Some x) (wf_event_type f) (wf_endpoint f) (wf_tenant_id f) (wf_start_time f) (wf_end_time f).
Definition filter_event_type (x : string) (f : WebhookFilter) : WebhookFilter :=
  MkWebhookFilter (wf_status f) (Some x) (wf_endpoint f) (wf_tenant_id f) (wf_start_time f) (wf_end_time f).
Definition filter_endpoint (x : string) (f : WebhookFilter) : WebhookFilter :=
  MkWebhookFilter (wf_status f) (wf_event_type f) (Some x) (wf_tenant_id f) (wf_start_time f) (wf_end_time f).
Definition filter_tenant (x : string) (f : WebhookFilter) : WebhookFilter :=
  MkWebhookFilter (wf_status f) (wf_event_type f) (wf_endpoint f) (Some x) (wf_start_time f) (wf_end_time f).
Definition filter_time_range (low high : timestamp) (f : WebhookFilter) : WebhookFilter :=
  MkWebhookFilter (wf_status f) (wf_event_type f) (wf_endpoint f) (wf_tenant_id f) (Some low) (Some high).

(** A filter that is not set lets everything pass. *)
Definition passes {A} (o : option A) (f : A → bool) : bool := match o with Some a => f a | None => true end.
Definition filter_matches (f : WebhookFilter) (r : WebhookRecord) : bool :=
  passes (wf_status f) (λ x, bool_decide (wr_status r = x)) &&
  passes (wf_event_type f) (λ x, bool_decide (wr_event_type r = x)) &&
  passes (wf_endpoint f) (λ x, str_contains x (wr_endpoint r)) &&
  passes (wf_tenant_id f) (λ x, bool_decide (wr_tenant_id r = x)) &&
  passes (wf_start_time f) (λ x, negb (bool_decide (wr_created_at r < x)%Z)) &&
  passes (wf_end_time f) (λ x, negb (bool_decide (x < wr_created_at r)%Z)).

Record WebhookHistory := MkHistory { wh_records : list WebhookRecord; wh_max_records : nat }.
Definition WebhookHistory_new (max_records : nat) : WebhookHistory := MkHistory [] max_records.
Definition WebhookHistory_default : WebhookHistory := WebhookHistory_new (Z.to_nat 10000).

(** [None] is the panic of removing from an empty list. *)
Definition history_add (h : WebhookHistory) (r : WebhookRecord) : option WebhookHistory :=
  if bool_decide (wh_max_records h ≤ length (wh_records h)) then
    match wh_records h with
    | [] => None
    | _ :: rest => Some (MkHistory (rest ++ [r]) (wh_max_records h))
    end
  else Some (MkHistory (wh_records h ++ [r]) (wh_max_records h)).

(** The first record with the identifier is replaced. *)
Fixpoint replace_record (r : WebhookRecord) (l : list WebhookRecord) : list WebhookRecord :=
  match l with
  | [] => []
  | x :: l => if bool_decide (wr_id x = wr_id r) then r :: l else x :: replace_record r l
  end.
Definition history_update (h : WebhookHistory) (r : WebhookRecord) : WebhookHistory :=
  MkHistory (replace_record r (wh_records h)) (wh_max_records h).
Definition history_get (h : WebhookHistory) (id : string) : option WebhookRecord :=
  List.find (λ r, bool_decide (wr_id r = id)) (wh_records h).
Definition history_query (h : WebhookHistory) (f : WebhookFilter) : list WebhookRecord :=
  List.filter (filter_matches f) (wh_records h).
Definition recent (h : WebhookHistory) (limit : nat) : list WebhookRecord := take limit (rev (wh_records h)).
Definition history_cleanup (h : WebhookHistory) (before : timestamp) : WebhookHistory * nat :=
  let kept := List.filter (λ r, bool_decide (before ≤ wr_created_at r)%Z) (wh_records h) in
  (MkHistory kept (wh_max_records h), length (wh_records h) - length kept).

Record WebhookStats := MkWebhookStats {
  wt_total : nat;
  wt_success_count : nat;
  wt_failed_count : nat;
  wt_pending_count : nat;
  wt_retrying_count : nat;
  wt_cancelled_count : nat;
  wt_success_rate : f64;
  wt_total_duration_ms : Z;
  wt_min_duration_ms : Z;
  wt_max_duration_ms : Z
}.

Definition count_record (s : WebhookStats) (r : WebhookRecord) : WebhookStats :=
  let when x n := if bool_decide (wr_status r = x) then S n else n in
  let '(total, low, high) :=
    match wr_duration_ms r with
    | Some d =>
        (wrap 64 (wt_total_duration_ms s + d),
         (if bool_decide (wt_min_duration_ms s = 0 ∨ d < wt_min_duration_ms s)%Z then d else wt_min_duration_ms s),
         (if bool_decide (wt_max_duration_ms s < d)%Z then d else wt_max_duration_ms s))
    | None => (wt_total_duration_ms s, wt_min_duration_ms s, wt_max_duration_ms s)
    end in
  MkWebhookStats (wt_total s) (when WhSuccess (wt_success_count s)) (when WhFailed (wt_failed_count s))
    (when WhPending (wt_pending_count s)) (when WhRetrying (wt_retrying_count s))
    (when WhCancelled (wt_cancelled_count s)) (wt_success_rate s) total low high.
Definition history_stats (h : WebhookHistory) : WebhookStats :=
  let s := foldl count_record (MkWebhookStats (length (wh_records h)) 0 0 0 0 0 f32_zero 0 0 0) (wh_records h) in
  let finished := wt_success_count s + wt_failed_count s in
  if bool_decide (0 < finished) then
    MkWebhookStats (wt_total s) (wt_success_count s) (wt_failed_count s) (wt_pending_count s) (wt_retrying_count s)
      (wt_cancelled_count s)
      (f64_mul (f64_div (f64_of_Z (Z.of_nat (wt_success_count s))) (f64_of_Z (Z.of_nat finished))) (f64_of_Z 100))
      (wt_total_duration_ms s) (wt_min_duration_ms s) (wt_max_duration_ms s)
  else s.

(** ** Signatures *)

Inductive SignatureAlgorithm := HmacSha256 | HmacSha512.
Record SigningConfig := MkSigning {
  sg_secret : string;
  sg_algorithm : SignatureAlgorithm;
  sg_header_name : string;
  sg_prefix : option string;
  sg_timestamp_tolerance_secs : option Z
}.
Definition SigningConfig_new (secret : string) : SigningConfig :=
  MkSigning secret HmacSha256 "X-Signature" (Some "sha256=") (Some 300%Z).
Definition without_prefix (c : SigningConfig) : SigningConfig :=
  MkSigning (sg_secret c) (sg_algorithm c) (sg_header_name c) None (sg_timestamp_tolerance_secs c).
Definition signing_header (header : string) (c : SigningConfig) : SigningConfig :=
  MkSigning (sg_secret c) (sg_algorithm c) header (sg_prefix c) (sg_timestamp_tolerance_secs c).

(** The code of an algorithm with a key for a message, in hexadecimal. *)
Class Hmac := hmac_hex : SignatureAlgorithm → string → string → string.
(** [String::from_utf8_lossy]. *)
Class LossyText := utf8_lossy : string → string.

Section Signing.
Context `{Hmac}.

Definition sign_payload (c : SigningConfig) (payload : string) : string :=
  hmac_hex (sg_algorithm c) (sg_secret c) payload.
Definition with_sig_prefix (c : SigningConfig) (signature : string) : string := default "" (sg_prefix c) +:+ signature.
Definition generate_signature_header (c : SigningConfig) (payload : string) : string :=
  with_sig_prefix c (sign_payload c payload).

(** The prefix, if there is one and the text starts with it, goes. *)
Definition drop_sig_prefix (c : SigningConfig) (signature : string) : string :=
  match sg_prefix c with
  | Some p => default signature (strip_prefix p signature)
  | None => signature
  end.

(** The bytes are compared with one accumulated byte. *)
Definition constant_time_compare (a b : string) : bool :=
  if negb (bool_decide (String.length a = String.length b)) then false
  else bool_decide (foldl (λ r '(x, y), Z.lor r (Z.lxor (Z.of_nat (byte_of x)) (Z.of_nat (byte_of y)))) 0%Z
                      (zip (String.list_ascii_of_string a) (String.list_ascii_of_string b)) = 0%Z).

Definition verify_signature (c : SigningConfig) (payload signature : string) : bool :=
  constant_time_compare (sign_payload c payload) (drop_sig_prefix c signature).

Context `{LossyText}.

Definition sign_with_timestamp (c : SigningConfig) (payload : string) (ts : Z) : string :=
  sign_payload c (pretty ts +:+ ":" +:+ utf8_lossy payload).

(** A signed 64-bit number in two's complement. *)
Definition wrap_i64 (z : Z) : Z := as_i64 (wrap 64 z).

Definition verify_with_timestamp (now : Z) (c : SigningConfig) (payload signature : string) (ts : Z)
    : Result bool string :=
  let diff := wrap 64 (Z.abs (wrap_i64 (now - ts))) in
  match sg_timestamp_tolerance_secs c with
  | Some tolerance =>
      if bool_decide (tolerance < diff)%Z then Err ("Timestamp expired: " +:+ pretty diff +:+ " seconds old")
      else Ok (constant_time_compare (sign_with_timestamp c payload ts) signature)
  | None => Ok (constant_time_compare (sign_with_timestamp c payload ts) signature)
  end.

Definition TIMESTAMP_HEADER : string := "X-Signature-Timestamp".

Definition create_signature_headers (now : Z) (c : SigningConfig) (payload : string) : list (string * string) :=
  match sg_timestamp_tolerance_secs c with
  | Some _ =>
      [(sg_header_name c, with_sig_prefix c (sign_with_timestamp c payload now)); (TIMESTAMP_HEADER, pretty now)]
  | None => [(sg_header_name c, generate_signature_header c payload)]
  end.

(** [parse::<i64>]. *)
Fixpoint parse_digits (acc : Z) (s : string) : option Z :=
  match s with
  | EmptyString => Some acc
  | String c s =>
      let n := Z.of_nat (byte_of c) in
      if bool_decide (48 ≤ n ≤ 57)%Z then parse_digits (acc * 10 + (n - 48)) s else None
  end.
Definition parse_i64 (s : string) : option Z :=
  match (match s with
         | String c rest =>
             if bool_decide (rest = "") then parse_digits 0 s
             else if Ascii.eqb c "-" then Z.opp <$> parse_digits 0 rest
             else if Ascii.eqb c "+" then parse_digits 0 rest
             else parse_digits 0 s
         | EmptyString => None
         end) with
  | Some z => if bool_decide (- 2 ^ 63 ≤ z < 2 ^ 63)%Z then Some z else None
  | None => None
  end.

Definition verify_request_signature (now : Z) (c : SigningConfig) (payload : string) (headers : gmap string string)
    : Result bool string :=
  let? signature := ok_or (headers !! sg_header_name c) "Missing signature header" in
  let stripped := drop_sig_prefix c signature in
  match sg_timestamp_tolerance_secs c with
  | Some _ =>
      let? text := ok_or (headers !! TIMESTAMP_HEADER) "Missing timestamp header" in
      let? ts := ok_or (parse_i64 text) "Invalid timestamp" in
      verify_with_timestamp now c payload stripped ts
  | None => Ok (verify_signature c payload stripped)
  end.
End Signing.

(** ** Templates *)

Inductive ContentType := CtJson | CtFormUrlEncoded | CtXml | CtPlainText.
Inductive VariableType := VtString | VtNumber | VtBoolean | VtObject | VtArray.
Definition VariableType_debug (t : VariableType) : string :=
  match t with
  | VtString => "String" | VtNumber => "Number" | VtBoolean => "Boolean" | VtObject => "Object" | VtArray => "Array"
  end.

(** The kinds of JSON values with their texts. *)
Inductive value_kind := KString (s : string) | KNumber (text : string) | KBool (b : bool) | KObject (text : string)
  | KArray (text : string) | KNull.

Section Templates.
Context `{JsonValue}.

Class ValueKinds := {
  kind_of : Value → value_kind;
  kind_of_string s : kind_of (json_string s) = KString s
}.

Record VariableDefinition := MkVariable {
  vd_var_type : VariableType;
  vd_required : bool;
  vd_default : option Value;
  vd_description : option string
}.
Definition VariableDefinition_new (t : VariableType) : VariableDefinition := MkVariable t false None None.
Definition required (d : VariableDefinition) : VariableDefinition :=
  MkVariable (vd_var_type d) true (vd_default d) (vd_description d).
Definition with_default (v : Value) (d : VariableDefinition) : VariableDefinition :=
  MkVariable (vd_var_type d) (vd_required d) (Some v) (vd_description d).

Record WebhookTemplate := MkTemplate {
  tp_id : string;
  tp_name : string;
  tp_description : option string;
  tp_content : string;
  tp_content_type : ContentType;
  tp_variables : gmap string VariableDefinition;
  tp_created_at : timestamp;
  tp_updated_at : timestamp
}.
Definition WebhookTemplate_new (uuid : string) (now : timestamp) (name content : string) : WebhookTemplate :=
  MkTemplate uuid name None content CtJson ∅ now now.
Definition add_variable (name : string) (d : VariableDefinition) (t : WebhookTemplate) : WebhookTemplate :=
  MkTemplate (tp_id t) (tp_name t) (tp_description t) (tp_content t) (tp_content_type t)
    (<[name := d]> (tp_variables t)) (tp_created_at t) (tp_updated_at t).

Definition template_description (d : string) (t : WebhookTemplate) : WebhookTemplate :=
  MkTemplate (tp_id t) (tp_name t) (Some d) (tp_content t) (tp_content_type t) (tp_variables t) (tp_created_at t)
    (tp_updated_at t).
Definition template_content_type (x : ContentType) (t : WebhookTemplate) : WebhookTemplate :=
  MkTemplate (tp_id t) (tp_name t) (tp_description t) (tp_content t) x (tp_variables t) (tp_created_at t)
    (tp_updated_at t).

Record TemplateEngine := MkTemplateEngine { te_left_delimiter : string; te_right_delimiter : string }.
Definition TemplateEngine_new : TemplateEngine := MkTemplateEngine "{{" "}}".
Definition with_delimiters (left right : string) (e : TemplateEngine) : TemplateEngine := MkTemplateEngine left right.

(** [str::replace] for a pattern that is not empty: from left to right, without
    overlaps; [skip] counts the bytes of a match still to pass over. *)
Fixpoint str_replace_from (skip : nat) (pat new s : string) : string :=
  match s with
  | EmptyString => EmptyString
  | String c rest =>
      match skip with
      | S k => str_replace_from k pat new rest
      | O =>
          if String.prefix pat s then new +:+ str_replace_from (String.length pat - 1) pat new rest
          else String c (str_replace_from 0 pat new rest)
      end
  end.
(** An empty pattern matches at every boundary of characters. *)
Fixpoint str_interleave (new s : string) : string :=
  match s with
  | EmptyString => new
  | String c rest => if is_continuation c then String c (str_interleave new rest) else new +:+ String c (str_interleave new rest)
  end.
Definition str_replace (pat new s : string) : string :=
  if bool_decide (pat = "") then str_interleave new s else str_replace_from 0 pat new s.

Context `{!ValueKinds, HashOrder}.

Definition check_type (v : Value) (t : VariableType) : bool :=
  match t, kind_of v with
  | VtString, KString _ | VtNumber, KNumber _ | VtBoolean, KBool _ | VtObject, KObject _ | VtArray, KArray _ => true
  | _, _ => false
  end.
Definition value_to_string (v : Value) : string :=
  match kind_of v with
  | KString s => s
  | KNumber s => s
  | KBool true => "true"
  | KBool false => "false"
  | KObject s | KArray s => s
  | KNull => ""
  end.

(** The first variable, in the order of the map, that fails. *)
Definition validate_variable (variables : gmap string Value) (kd : string * VariableDefinition)
    : Result unit WebhookError :=
  if vd_required kd.2 && bool_decide (variables !! kd.1 = None) && bool_decide (vd_default kd.2 = None) then
    Err (TemplateError ("Missing required variable: " +:+ kd.1))
  else match variables !! kd.1 with
       | Some v =>
           if check_type v (vd_var_type kd.2) then Ok tt
           else Err (TemplateError ("Type mismatch for variable '" +:+ kd.1 +:+ "': expected " +:+
                                    VariableType_debug (vd_var_type kd.2)))
       | None => Ok tt
       end.
Definition validate_variables (t : WebhookTemplate) (variables : gmap string Value) : Result unit WebhookError :=
  foldl (λ r kd, match r with Ok _ => validate_variable variables kd | Err e => Err e end) (Ok tt)
    (hash_order (tp_variables t)).

Definition placeholder (e : TemplateEngine) (key : string) : string :=
  te_left_delimiter e +:+ key +:+ te_right_delimiter e.
Definition fill (e : TemplateEngine) (s : string) (key : string) (v : Value) : string :=
  str_replace (placeholder e key) (value_to_string v) s.

Definition render (e : TemplateEngine) (t : WebhookTemplate) (variables : gmap string Value)
    : Result string WebhookError :=
  let? checked := validate_variables t variables in
  let given := foldl (λ s '(k, v), fill e s k v) (tp_content t) (hash_order variables) in
  Ok (foldl (λ s '(k, d), match variables !! k, vd_default d with None, Some v => fill e s k v | _, _ => s end)
        given (hash_order (tp_variables t))).

(** [None] is fuel that ran out: each round moves past a delimiter, so the length
    of the text is enough, unless both delimiters are empty. *)
Fixpoint extract_from (fuel : nat) (e : TemplateEngine) (rest : string) (found : list string) : option (list string) :=
  match fuel with
  | O => None
  | S fuel =>
      match String.index 0 (te_left_delimiter e) rest with
      | Some begin =>
          let after := slice_from (begin + String.length (te_left_delimiter e)) rest in
          match String.index 0 (te_right_delimiter e) after with
          | Some stop =>
              let name := str_trim (slice_to stop after) in
              extract_from fuel e (slice_from (stop + String.length (te_right_delimiter e)) after)
                (if bool_decide (name = "" ∨ name ∈ found) then found else found ++ [name])
          | None => Some found
          end
      | None => Some found
      end
  end.
Definition extract_variables (e : TemplateEngine) (template : string) : option (list string) :=
  extract_from (S (String.length template)) e template [].
End Templates.

(** ** The client *)

Inductive WebhookMethod := MGet | MPost | MPut | MDelete | MPatch.
#[export] Instance HttpMethod_eq_dec : EqDecision WebhookMethod. Proof. solve_decision. Defined.

Section Client.
Context `{JV : JsonValue, !ValueKinds, HashOrder, Powi, Hmac}.

Record WebhookConfig := MkWebhookConfig {
  wc_endpoint : string;
  wc_method : WebhookMethod;
  wc_timeout_secs : Z;
  wc_retry_policy : RetryPolicy;
  wc_signing_config : option SigningConfig;
  wc_headers : gmap string string;
  wc_template : option WebhookTemplate
}.
Definition WebhookConfig_new (endpoint : string) : WebhookConfig :=
  MkWebhookConfig endpoint MPost 30 RetryPolicy_default None ∅ None.
Definition with_signing (secret : string) (c : WebhookConfig) : WebhookConfig :=
  MkWebhookConfig (wc_endpoint c) (wc_method c) (wc_timeout_secs c) (wc_retry_policy c)
    (Some (SigningConfig_new secret)) (wc_headers c) (wc_template c).
Definition with_retry (p : RetryPolicy) (c : WebhookConfig) : WebhookConfig :=
  MkWebhookConfig (wc_endpoint c) (wc_method c) (wc_timeout_secs c) p (wc_signing_config c) (wc_headers c)
    (wc_template c).

Definition with_method (m : WebhookMethod) (c : WebhookConfig) : WebhookConfig :=
  MkWebhookConfig (wc_endpoint c) m (wc_timeout_secs c) (wc_retry_policy c) (wc_signing_config c) (wc_headers c)
    (wc_template c).
Definition with_timeout (secs : Z) (c : WebhookConfig) : WebhookConfig :=
  MkWebhookConfig (wc_endpoint c) (wc_method c) secs (wc_retry_policy c) (wc_signing_config c) (wc_headers c)
    (wc_template c).
Definition config_add_header (key value : string) (c : WebhookConfig) : WebhookConfig :=
  MkWebhookConfig (wc_endpoint c) (wc_method c) (wc_timeout_secs c) (wc_retry_policy c) (wc_signing_config c)
    (<[key := value]> (wc_headers c)) (wc_template c).
Definition with_template (t : WebhookTemplate) (c : WebhookConfig) : WebhookConfig :=
  MkWebhookConfig (wc_endpoint c) (wc_method c) (wc_timeout_secs c) (wc_retry_policy c) (wc_signing_config c)
    (wc_headers c) (Some t).

Record WebhookEvent := MkWebhookEvent {
  we_event_type : string;
  we_timestamp : timestamp;
  we_data : Value;
  we_tenant_id : string
}.

Definition WebhookEvent_new (now : timestamp) (event_type : string) (data : Value) (tenant : string) : WebhookEvent :=
  MkWebhookEvent event_type now data tenant.

(** The text of an event in JSON, and dates in RFC 3339. *)
Class EventTexts := { event_json : WebhookEvent → Result string string; event_date : timestamp → string }.
Context `{!EventTexts}.

Record response := MkResponse { rn_status : Z; rn_body : Result string string }.
Definition response_ok (r : response) : bool := bool_decide (200 ≤ rn_status r < 300)%Z.

Definition event_variables (event : WebhookEvent) : gmap string Value :=
  <["tenant_id" := json_string (we_tenant_id event)]> (<["data" := we_data event]>
    (<["timestamp" := json_string (event_date (we_timestamp event))]>
      {["event_type" := json_string (we_event_type event)]})).

Definition prepare_payload (e : TemplateEngine) (c : WebhookConfig) (event : WebhookEvent) : Result string WebhookError :=
  match wc_template c with
  | Some t => render e t (event_variables event)
  | None => match event_json event with Ok s => Ok s | Err m => Err (SerializationError m) end
  end.

(** Whether the outcome of an attempt asks for another one. *)
Definition status_retryable (c : WebhookConfig) (code : Z) : bool :=
  bool_decide (code ∈ rp_retryable_status_codes (wc_retry_policy c)).
Definition outcome_retryable (c : WebhookConfig) (o : Result response request_error) : bool :=
  match o with
  | Ok r => status_retryable c (rn_status r)
  | Err e => re_timeout e || re_connect e || match re_status e with Some s => status_retryable c s | None => false end
  end.
Definition outcome_result (o : Result response request_error) : Result response WebhookError :=
  match o with
  | Ok r => if response_ok r then Ok r else Err (HttpError ("HTTP error: " +:+ pretty (rn_status r)))
  | Err e => Err (HttpError (re_text e))
  end.

(** [outcome n] is what attempt [n] comes to; the answer says how many requests
    were sent.  [None] is a panic of the delay; the fuel is enough when it exceeds
    the attempts left. *)
Fixpoint send_from (fuel : nat) (c : WebhookConfig) (outcome : Z → Result response request_error)
    (sample : Z → f64) (attempts : Z) : option (Z * Result response WebhookError) :=
  let attempts := (attempts + 1)%Z in
  let o := outcome attempts in
  let policy := wc_retry_policy c in
  if outcome_retryable c o && bool_decide (attempts < rp_max_retries policy)%Z then
    match fuel with
    | O => None
    | S fuel =>
        match calculate_delay policy attempts (sample attempts) with
        | None => None
        | Some _ => send_from fuel c outcome sample attempts
        end
    end
  else Some (attempts, outcome_result o).
Definition send_with_retry (c : WebhookConfig) (outcome : Z → Result response request_error) (sample : Z → f64)
    : option (Z * Result response WebhookError) :=
  send_from (Z.to_nat (rp_max_retries (wc_retry_policy c))) c outcome sample 0.

(** The headers a request carries. *)
Definition request_headers (c : WebhookConfig) (payload : string) : gmap string string :=
  match wc_signing_config c with
  | Some s => <[sg_header_name s := generate_signature_header s payload]> (wc_headers c)
  | None => wc_headers c
  end.

(** The readings of one call. *)
Record send_env := MkSendEnv { sv_uuid : string; sv_created_at : timestamp; sv_duration_ms : Z;
                               sv_completed_at : timestamp }.

Definition finish_record (env : send_env) (r : WebhookRecord) (result : Result response WebhookError) : WebhookRecord :=
  match result with
  | Ok response =>
      mark_success (sv_completed_at env) (rn_status response) (Some (unwrap_or (rn_body response) ""))
        (sv_duration_ms env) r
  | Err e => mark_failure (sv_completed_at env) (WebhookError_display e) r
  end.

(** The history after the call and its answer; a request that failed is an answer
    like any other. *)
Definition send (env : send_env) (e : TemplateEngine) (h : WebhookHistory) (c : WebhookConfig)
    (event : WebhookEvent) (outcome : Z → Result response request_error) (sample : Z → f64)
    : option (WebhookHistory * Result WebhookRecord WebhookError) :=
  match prepare_payload e c event with
  | Err err => Some (h, Err err)
  | Ok payload =>
      let r0 := WebhookRecord_new (sv_uuid env) (sv_created_at env) (wc_endpoint c) (we_event_type event) payload
                  (we_tenant_id event) in
      let r1 := foldl (λ r '(k, v), record_add_header k v r) r0 (hash_order (wc_headers c)) in
      match send_with_retry c outcome sample with
      | None => None
      | Some (_, result) =>
          let r2 := finish_record env r1 result in
          match history_add h r2 with Some h' => Some (h', Ok r2) | None => None end
      end
  end.

(** One call per configuration, in their order; [calls] holds what each meets. *)
Fixpoint send_batch (e : TemplateEngine) (h : WebhookHistory) (event : WebhookEvent)
    (calls : list (WebhookConfig * send_env * (Z → Result response request_error) * (Z → f64)))
    : option (WebhookHistory * list (Result WebhookRecord WebhookError)) :=
  match calls with
  | [] => Some (h, [])
  | (c, env, outcome, sample) :: calls =>
      match send env e h c event outcome sample with
      | Some (h, answer) =>
          match send_batch e h event calls with
          | Some (h, answers) => Some (h, answer :: answers)
          | None => None
          end
      | None => None
      end
  end.
End Client.
