(* ===== verification/WebhookFacts.v ===== *)
(** Webhooks: how often a request is sent and what ends it, which signatures
    verify, what the history keeps, and what a template can not be relied on for. *)
From Stdlib Require Import SpecFloat.
From S2P Require Import Prelude Text Float32 Json ProtocolTypes Webhook.

(** ** Retries *)

Section Retries.
Context `{Powi}.

(** Without jitter there is no range to draw from: every retry panics. *)
Theorem no_jitter_panics p attempt sample :
  rp_jitter p = f32_zero → calculate_delay p attempt sample = None.
Proof.
  unfold calculate_delay. set (d := f32_min _ _). intros ->.
  assert (SFltb (f64_neg (f64_mul d f32_zero)) (f64_mul d f32_zero) = false) as ->; [|done].
  by destruct d as [[]|[]| |[] m e].
Qed.

(** What [execute] comes to: it stops at the first attempt that succeeds or may not
    be retried, and that is at most the number of attempts allowed. *)
Inductive attempts_to {T} (p : RetryPolicy) (operation : Z → Result T RetryableError) (sample : Z → f64)
  : Z → list Z → retried T → Prop :=
| attempt_ok n delays r : operation n = Ok r → attempts_to p operation sample n delays (Finished (Ok r))
| attempt_stop n delays e :
    operation n = Err e → should_retry p n e = false →
    attempts_to p operation sample n delays
      (Finished (Err (MkRetryState n (Some (RetryableError_display e)) delays true)))
| attempt_panic n delays e :
    operation n = Err e → should_retry p n e = true → calculate_delay p n (sample n) = None →
    attempts_to p operation sample n delays Panicked
| attempt_again n delays e d out :
    operation n = Err e → should_retry p n e = true → calculate_delay p n (sample n) = Some d →
    attempts_to p operation sample (n + 1) (delays ++ [d]) out →
    attempts_to p operation sample n delays out.

Lemma should_retry_bound p n e : should_retry p n e = true → (n < rp_max_retries p)%Z.
Proof. unfold should_retry. case_bool_decide; [done|lia]. Qed.

Lemma execute_from_spec {T} fuel p (operation : Z → Result T RetryableError) sample n delays :
  (rp_max_retries p - n < Z.of_nat fuel)%Z → 0 < fuel →
  attempts_to p operation sample (n + 1) delays (execute_from fuel p operation sample n delays).
Proof.
  revert n delays. induction fuel as [|fuel IH]; intros n delays Hf Hp; [lia|]. cbn [execute_from].
  destruct (operation (n + 1)%Z) as [r|e] eqn:Eo; [by constructor|].
  destruct (should_retry p (n + 1) e) eqn:Er; cbn [negb]; [|by econstructor].
  destruct (calculate_delay p (n + 1) (sample (n + 1)%Z)) as [d|] eqn:Ed; [|by econstructor].
  apply should_retry_bound in Er as Hb. eapply attempt_again; [done..|]. apply IH; lia.
Qed.

(** [execute] always ends, by its rules. *)
Theorem execute_terminates {T} p (operation : Z → Result T RetryableError) sample :
  attempts_to p operation sample 1 [] (retry_execute p operation sample) ∧ retry_execute p operation sample ≠ OutOfFuel.
Proof.
  assert (attempts_to p operation sample 1 [] (retry_execute p operation sample)) as A.
  { apply (execute_from_spec _ p operation sample 0 []); lia. }
  split; [done|]. intros E. rewrite E in A. clear E. remember OutOfFuel as out.
  by induction A; subst; [..|apply IHA].
Qed.

(** The state of a failure: as many delays as retries, and at most the attempts
    allowed, when any are. *)
Theorem execute_failure {T} p (operation : Z → Result T RetryableError) sample st :
  retry_execute p operation sample = Finished (Err st) →
  (1 ≤ rs_attempts st ≤ Z.max 1 (rp_max_retries p))%Z ∧ zlen (rs_delays_ms st) = (rs_attempts st - 1)%Z ∧
  rs_exhausted st = true.
Proof.
  intros E. destruct (execute_terminates p operation sample) as [A _]. rewrite E in A. clear E.
  remember (Finished (Err st)) as out eqn:Eo.
  enough (∀ n delays, attempts_to p operation sample n delays out → zlen delays = (n - 1)%Z →
    (1 ≤ n ≤ Z.max 1 (rp_max_retries p))%Z → (n ≤ rs_attempts st ≤ Z.max 1 (rp_max_retries p))%Z ∧
    zlen (rs_delays_ms st) = (rs_attempts st - 1)%Z ∧ rs_exhausted st = true) as K
    by (destruct (K _ _ A eq_refl); [lia|]; split; [lia|done]).
  clear A. intros n delays A. induction A as [| | |n delays e d out Ho Hr Hd A IH]; intros Hl Hn; simplify_eq/=.
  - split; [lia|done].
  - apply should_retry_bound in Hr. destruct IH as [? ?]; [done| |lia|split; [lia|done]].
    unfold zlen in *. rewrite length_app. simpl. lia.
Qed.
End Retries.

(** ** Signatures *)

(** The comparison of bytes is equality. *)
Theorem constant_time_compare_eq a b : constant_time_compare a b = true ↔ a = b.
Proof.
  assert (∀ s, String.length s = length (String.list_ascii_of_string s)) as L by (induction s; simpl; congruence).
  assert (∀ x y : Ascii.ascii, Z.lxor (Z.of_nat (byte_of x)) (Z.of_nat (byte_of y)) = 0%Z ↔ x = y) as X.
  { intros x y. rewrite Z.lxor_eq_0_iff. split; [|by intros ->]. intros E%(inj Z.of_nat). unfold byte_of in E.
    by rewrite <-(ascii_nat_embedding x), <-(ascii_nat_embedding y), E. }
  assert (∀ l k acc, length l = length k →
    foldl (λ r '(x, y), Z.lor r (Z.lxor (Z.of_nat (byte_of x)) (Z.of_nat (byte_of y)))) acc (zip l k) = 0%Z
    ↔ acc = 0%Z ∧ l = k) as F.
  { induction l as [|x l IH]; intros [|y k] acc Hl; simplify_eq/=; [naive_solver|].
    rewrite IH by done. rewrite Z.lor_eq_0_iff, X. naive_solver. }
  unfold constant_time_compare. case_bool_decide as Hl; simpl.
  - rewrite bool_decide_eq_true, F by (rewrite <-!L; done). split; [|by intros ->].
    intros [_ E]. by rewrite <-(String.string_of_list_ascii_of_string a), E, String.string_of_list_ascii_of_string.
  - split; [done|]. by intros ->.
Qed.

Section Signatures.
Context `{Hmac, LossyText}.

Lemma drop_with_prefix c s : drop_sig_prefix c (with_sig_prefix c s) = s.
Proof.
  unfold drop_sig_prefix, with_sig_prefix. destruct (sg_prefix c) as [p|]; simpl; [by rewrite strip_prefix_app|].
  by rewrite str_app_nil_l.
Qed.

Lemma wrap_i64_small z : (- 2 ^ 63 ≤ z < 2 ^ 63)%Z → wrap_i64 z = z.
Proof.
  intros Hz. unfold wrap_i64, as_i64, wrap. destruct (decide (0 ≤ z)%Z).
  - rewrite Z.mod_small by lia. case_decide; lia.
  - replace (z mod 2 ^ 64)%Z with (z + 2 ^ 64)%Z; [case_decide; lia|].
    apply (Z.mod_unique _ _ (-1)); lia.
Qed.

(** The digits of a number read back. *)
Lemma parse_digits_char acc d s :
  (d < 10)%N → parse_digits acc (String (pretty_N_char d) s) = parse_digits (acc * 10 + Z.of_N d) s.
Proof.
  intros Hd. assert (d = 0 ∨ d = 1 ∨ d = 2 ∨ d = 3 ∨ d = 4 ∨ d = 5 ∨ d = 6 ∨ d = 7 ∨ d = 8 ∨ d = 9)%N as E by lia.
  naive_solver.
Qed.

Lemma parse_digits_pretty_go x s : parse_digits 0 (pretty_N_go x s) = parse_digits (Z.of_N x) s.
Proof.
  revert s. induction (N.lt_wf_0 x) as [x _ IH]; intros s.
  destruct (decide (x = 0)%N) as [->|Hnz]; [by rewrite pretty_N_go_0|].
  rewrite pretty_N_go_step by lia.
  assert (x `div` 10 < x)%N by (apply N.div_lt; lia).
  rewrite IH by done.
  rewrite parse_digits_char by (apply N.mod_lt; lia). f_equal.
  pose proof (f_equal Z.of_N (N.div_mod' x 10)). lia.
Qed.

Lemma parse_digits_pretty (n : N) : parse_digits 0 (pretty n) = Some (Z.of_N n).
Proof.
  unfold pretty, pretty_N. case_decide as E; [by subst|]. by rewrite parse_digits_pretty_go.
Qed.

Lemma pretty_first_digit (n : N) : str_forallb is_digit (pretty n) = true ∧ pretty n ≠ "".
Proof.
  pose proof (display_u_digits (Z.of_N n)) as A. pose proof (display_u_nonempty (Z.of_N n)) as B.
  unfold display_u in *. by rewrite N2Z.id in *.
Qed.

Lemma parse_i64_pretty z : (0 ≤ z < 2 ^ 63)%Z → parse_i64 (pretty z) = Some z.
Proof.
  intros Hz. assert (pretty z = pretty (Z.to_N z)) as -> by (destruct z; [done|done|lia]).
  destruct (pretty_first_digit (Z.to_N z)) as [D N]. pose proof (parse_digits_pretty (Z.to_N z)) as P.
  rewrite Z2N.id in P by lia. unfold parse_i64. destruct (pretty (Z.to_N z)) as [|c rest]; [done|].
  simpl in D. apply andb_true_iff in D as [D _].
  assert (Ascii.eqb c "-" = false ∧ Ascii.eqb c "+" = false) as [-> ->].
  { unfold is_digit in D. apply bool_decide_eq_true in D as [d D].
    split; apply Ascii.eqb_neq; intros ->; by vm_compute in D. }
  rewrite P. case_bool_decide; [|]; by rewrite bool_decide_true by lia.
Qed.

(** C18. Headers made for a payload verify for it, until the tolerance is over. *)
Theorem signature_round_trip now later c payload tolerance :
  sg_timestamp_tolerance_secs c = Some tolerance → sg_header_name c ≠ TIMESTAMP_HEADER →
  (0 ≤ now ≤ later)%Z → (later < 2 ^ 63)%Z → (later - now ≤ tolerance)%Z →
  verify_request_signature later c payload (list_to_map (create_signature_headers now c payload)) = Ok true.
Proof.
  intros Ht Hn Hnow Hl Hd. unfold create_signature_headers, verify_request_signature. rewrite Ht.
  cbn [list_to_map foldr]. rewrite lookup_insert_eq. simpl. rewrite lookup_insert_ne, lookup_insert_eq by done. simpl.
  rewrite parse_i64_pretty by lia. simpl. rewrite drop_with_prefix. unfold verify_with_timestamp. rewrite Ht.
  rewrite wrap_i64_small, Z.abs_eq by lia. unfold wrap. rewrite Z.mod_small by lia.
  rewrite bool_decide_false by lia. f_equal. by apply constant_time_compare_eq.
Qed.

(** What a verified request shows: its timestamp is within the tolerance, and its
    header holds the code of that timestamp with the payload under the secret. *)
Theorem verified_request_signed now c payload headers tolerance :
  sg_timestamp_tolerance_secs c = Some tolerance →
  verify_request_signature now c payload headers = Ok true →
  ∃ signature text ts, headers !! sg_header_name c = Some signature ∧ headers !! TIMESTAMP_HEADER = Some text ∧
    parse_i64 text = Some ts ∧ (wrap 64 (Z.abs (wrap_i64 (now - ts))) ≤ tolerance)%Z ∧
    drop_sig_prefix c signature = hmac_hex (sg_algorithm c) (sg_secret c) (pretty ts +:+ ":" +:+ utf8_lossy payload).
Proof.
  intros Ht. unfold verify_request_signature. rewrite Ht.
  destruct (headers !! sg_header_name c) as [signature|]; [|done]. simpl.
  destruct (headers !! TIMESTAMP_HEADER) as [text|] eqn:Et; [|done]. simpl.
  destruct (parse_i64 text) as [ts|] eqn:Ep; [|done]. simpl.
  unfold verify_with_timestamp. rewrite Ht. case_bool_decide; [done|]. intros [= E%constant_time_compare_eq].
  exists signature, text, ts. split; [done|]. split; [done|]. split; [done|]. split; [lia|done].
Qed.

(** A request as the client sends it has no timestamp, so the check of this library
    refuses it when a tolerance is set, which it is by default. *)
Theorem client_signature_refused `{JsonValue, !ValueKinds, HashOrder} now c s payload :
  wc_signing_config c = Some s → is_Some (sg_timestamp_tolerance_secs s) →
  wc_headers c !! TIMESTAMP_HEADER = None → sg_header_name s ≠ TIMESTAMP_HEADER →
  verify_request_signature now s payload (request_headers c payload) = Err "Missing timestamp header".
Proof.
  intros Hs [t Ht] Hh Hn. unfold verify_request_signature, request_headers. rewrite Hs, lookup_insert_eq. simpl.
  by rewrite Ht, lookup_insert_ne, Hh by done.
Qed.
End Signatures.

(** ** History *)

(** The history never holds more than its maximum, and keeps the newest. *)
Theorem history_keeps_newest h r h' :
  length (wh_records h) ≤ wh_max_records h → history_add h r = Some h' →
  length (wh_records h') ≤ wh_max_records h ∧ wh_max_records h' = wh_max_records h ∧
  wh_records h' = drop (S (length (wh_records h)) - wh_max_records h) (wh_records h ++ [r]).
Proof.
  unfold history_add. intros Hl. case_bool_decide as Hm.
  - destruct (wh_records h) as [|x rest] eqn:E; [done|]. intros [= <-]; simpl in *.
    replace (S (S (length rest)) - wh_max_records h) with 1 by lia. simpl. rewrite length_app. simpl.
    split; [lia|done].
  - intros [= <-]; simpl. rewrite length_app; simpl.
    replace (S (length (wh_records h)) - wh_max_records h) with 0 by lia. split; [lia|done].
Qed.

(** A history made for no records panics at the first one; no other history does. *)
Theorem history_panic_iff h r : history_add h r = None ↔ wh_records h = [] ∧ wh_max_records h = 0.
Proof.
  unfold history_add. destruct (wh_records h) as [|x rest]; case_bool_decide; naive_solver lia.
Qed.

(** A record that was added, and not pushed out, is found; updating it replaces it. *)
Lemma find_app {A} (f : A → bool) l k : List.find f (l ++ k) = match List.find f l with Some x => Some x | None => List.find f k end.
Proof. induction l as [|x l IH]; [done|]. simpl. by destruct (f x). Qed.

Theorem history_get_updated h r id :
  history_get (history_update h r) id =
  if bool_decide (id = wr_id r) then match history_get h id with Some _ => Some r | None => None end
  else history_get h id.
Proof.
  unfold history_get, history_update. simpl. induction (wh_records h) as [|x l IH]; simpl; [by case_bool_decide|].
  destruct (decide (wr_id x = wr_id r)) as [E|E].
  - rewrite (bool_decide_true (wr_id x = wr_id r)) by done. simpl. rewrite <-E.
    repeat case_bool_decide; congruence.
  - rewrite (bool_decide_false (wr_id x = wr_id r)) by done. simpl.
    destruct (decide (wr_id x = id)) as [E'|E'].
    + rewrite (bool_decide_true (wr_id x = id)) by done. rewrite bool_decide_false by congruence. done.
    + by rewrite (bool_decide_false (wr_id x = id)), IH by done.
Qed.

(** Every record is counted once, under its status. *)
Definition stats_sum (s : WebhookStats) : nat :=
  wt_success_count s + wt_failed_count s + wt_pending_count s + wt_retrying_count s + wt_cancelled_count s.

Lemma count_record_sum s r : stats_sum (count_record s r) = S (stats_sum s).
Proof.
  unfold stats_sum, count_record. destruct (wr_duration_ms r); simpl; destruct (wr_status r); simpl; lia.
Qed.
Lemma count_record_success s r :
  wt_success_count (count_record s r) = wt_success_count s + (if record_succeeded r then 1 else 0) ∧
  wt_total (count_record s r) = wt_total s.
Proof.
  unfold record_succeeded, count_record. destruct (wr_duration_ms r); simpl; destruct (wr_status r); simpl; split; lia.
Qed.

Theorem stats_exact h :
  stats_sum (history_stats h) = length (wh_records h) ∧ wt_total (history_stats h) = length (wh_records h) ∧
  wt_success_count (history_stats h) = length (List.filter record_succeeded (wh_records h)).
Proof.
  assert (∀ l s, stats_sum (foldl count_record s l) = stats_sum s + length l ∧
    wt_total (foldl count_record s l) = wt_total s ∧
    wt_success_count (foldl count_record s l) = wt_success_count s + length (List.filter record_succeeded l)) as K.
  { induction l as [|r l IH]; intros s; simpl; [lia|]. destruct (IH (count_record s r)) as (E1 & E2 & E3).
    destruct (count_record_success s r) as [C1 C2]. rewrite E1, E2, E3, count_record_sum, C1, C2.
    destruct (record_succeeded r); simpl; lia. }
  unfold history_stats.
  destruct (K (wh_records h) (MkWebhookStats (length (wh_records h)) 0 0 0 0 0 f32_zero 0 0 0)) as (E1 & E2 & E3).
  cbv zeta. case_bool_decide; [|by rewrite E1, E2, E3].
  unfold stats_sum in *. cbn [wt_success_count wt_failed_count wt_pending_count wt_retrying_count wt_cancelled_count wt_total].
  rewrite E3, E2. split; [|done]. rewrite <-E3 at 1. by rewrite E1.
Qed.

(** ** The client *)

Section Client.
Context `{JV : JsonValue, !ValueKinds, HashOrder, Powi, Hmac, !EventTexts}.

Lemma send_from_spec fuel c outcome sample n k result :
  send_from fuel c outcome sample n = Some (k, result) →
  (n < k)%Z ∧ (k ≤ Z.max (n + 1) (rp_max_retries (wc_retry_policy c)))%Z ∧ result = outcome_result (outcome k) ∧
  (∀ i, (n < i < k)%Z → outcome_retryable c (outcome i) = true) ∧
  (outcome_retryable c (outcome k) = true → (rp_max_retries (wc_retry_policy c) ≤ k)%Z).
Proof.
  revert n. induction fuel as [|fuel IH]; intros n; cbn [send_from];
    destruct (outcome_retryable c (outcome (n + 1)%Z)) eqn:Er; simpl; try case_bool_decide as Hm; try done.
  1,2: intros [= <- <-]; (split; [lia|]; split; [lia|]; split; [done|]; split; [intros i Hi; lia|]; intros; congruence || lia).
  - destruct (calculate_delay _ _ _); [|done]. intros (A & B & C & D & E)%IH.
    split; [lia|]. split; [lia|]. split; [done|]. split; [|done].
    intros i Hi. destruct (decide (i = n + 1)%Z) as [->|]; [done|]. apply D. lia.
  - intros [= <- <-]. split; [lia|]. split; [lia|]. split; [done|]. split; [intros i Hi; lia|lia].
  - intros [= <- <-]. split; [lia|]. split; [lia|]. split; [done|]. split; [intros i Hi; lia|congruence].
Qed.

(** How many requests a call sends: all but the last asked for another, the last
    did not or was the last allowed; at least one is sent, and never more than
    [max_retries]. *)
Theorem requests_sent c outcome sample k result :
  send_with_retry c outcome sample = Some (k, result) →
  (1 ≤ k ≤ Z.max 1 (rp_max_retries (wc_retry_policy c)))%Z ∧ result = outcome_result (outcome k) ∧
  (∀ i, (1 ≤ i < k)%Z → outcome_retryable c (outcome i) = true) ∧
  (outcome_retryable c (outcome k) = true → (rp_max_retries (wc_retry_policy c) ≤ k)%Z).
Proof.
  intros (A & B & C & D & E)%send_from_spec. split; [lia|]. split; [done|]. split; [|done].
  intros i Hi. apply D. lia.
Qed.

(** The call ends when no delay panics. *)
Theorem send_with_retry_total c outcome sample :
  (∀ n, is_Some (calculate_delay (wc_retry_policy c) n (sample n))) →
  is_Some (send_with_retry c outcome sample).
Proof.
  intros Hd. unfold send_with_retry.
  enough (∀ fuel n, (rp_max_retries (wc_retry_policy c) - n ≤ Z.of_nat fuel)%Z →
    is_Some (send_from fuel c outcome sample n)) as K by (apply K; lia).
  induction fuel as [|fuel IH]; intros n Hn; cbn [send_from].
  - case_bool_decide; [lia|]. by rewrite andb_false_r.
  - destruct (_ && bool_decide _) eqn:E; [|done]. destruct (Hd (n + 1)%Z) as [d ->]. apply IH.
    apply andb_true_iff in E as [_ E%bool_decide_eq_true]. lia.
Qed.

(** A call whose payload is ready always adds one record, and answers with it: its
    status says whether the last outcome was a success, and the answer does not. *)
Theorem send_records env e h c event outcome sample payload h' answer :
  prepare_payload e c event = Ok payload → send env e h c event outcome sample = Some (h', answer) →
  ∃ k result r, send_with_retry c outcome sample = Some (k, result) ∧ answer = Ok r ∧
    history_add h r = Some h' ∧ last (wh_records h') = Some r ∧ wr_payload r = payload ∧
    (wr_status r = WhSuccess ∧ wr_error_message r = None ↔ ∃ x, outcome k = Ok x ∧ response_ok x = true) ∧
    (wr_status r = WhSuccess ∨ wr_status r = WhFailed).
Proof.
  unfold send. intros ->. destruct (send_with_retry c outcome sample) as [[k result]|] eqn:Es; [|done].
  set (r1 := foldl _ _ (hash_order (wc_headers c))).
  destruct (history_add h (finish_record env r1 result)) as [h1|] eqn:Eh; [|done]. intros [= <- <-].
  assert (wr_payload r1 = payload ∧ wr_error_message r1 = None) as [P1 P2].
  { unfold r1. generalize (hash_order (wc_headers c)) as l. intros l.
    set (r0 := WebhookRecord_new _ _ _ _ _ _). assert (wr_payload r0 = payload ∧ wr_error_message r0 = None) as Q by done.
    clearbody r0. revert r0 Q. induction l as [|[x v] l IH]; intros r0 Q; simpl; [done|]. by apply IH. }
  exists k, result, (finish_record env r1 result). split; [done|]. split; [done|]. split; [done|].
  split. { unfold history_add in Eh. case_bool_decide; [destruct (wh_records h)|]; simplify_eq/=; by rewrite last_snoc. }
  apply requests_sent in Es as (_ & -> & _). unfold outcome_result.
  destruct (outcome k) as [x|err] eqn:Ek; simpl; [destruct (response_ok x) eqn:Ex|]; simpl.
  all: split; [done|]; split; [|auto]; split; try naive_solver congruence.
Qed.

(** Nothing is recorded of a call whose payload could not be made. *)
Theorem send_not_prepared env e h c event outcome sample err :
  prepare_payload e c event = Err err → send env e h c event outcome sample = Some (h, Err err).
Proof. unfold send. by intros ->. Qed.

(** A batch answers every configuration, and keeps the history within its maximum. *)
Lemma send_bounded env e h c event outcome sample h' answer :
  length (wh_records h) ≤ wh_max_records h → send env e h c event outcome sample = Some (h', answer) →
  length (wh_records h') ≤ wh_max_records h'.
Proof.
  intros Hl. unfold send. destruct (prepare_payload e c event) as [payload|err]; [|by intros [= <- <-]].
  destruct (send_with_retry c outcome sample) as [[k result]|]; [|done].
  destruct (history_add h _) as [h1|] eqn:Eh; [|done]. intros [= <- <-].
  destruct (history_keeps_newest _ _ _ Hl Eh) as (? & E & _). by rewrite E.
Qed.

Theorem batch_answers e h event calls h' answers :
  length (wh_records h) ≤ wh_max_records h → send_batch e h event calls = Some (h', answers) →
  length answers = length calls ∧ length (wh_records h') ≤ wh_max_records h'.
Proof.
  revert h h' answers. induction calls as [|[[[c env] outcome] sample] calls IH]; intros h h' answers Hl; simpl.
  - by intros [= <- <-].
  - destruct (send env e h c event outcome sample) as [[h1 answer]|] eqn:Es; [|done].
    apply send_bounded in Es; [|done]. destruct (send_batch e h1 event calls) as [[h2 rest]|] eqn:Eb; [|done].
    intros [= <- <-]. destruct (IH _ _ _ Es Eb). simpl. split; [lia|done].
Qed.
End Client.

(** ** Templates *)

Lemma str_index_bound p s n : String.index 0 p s = Some n → n + String.length p ≤ String.length s.
Proof.
  assert (∀ m t, String.length (String.substring 0 m t) ≤ String.length t) as L.
  { induction m as [|m IHm]; intros [|x t]; simpl; [lia..|]. specialize (IHm t). lia. }
  revert n. induction s as [|c s IH]; intros n.
  - destruct p; intros E; simpl in E; simplify_eq. simpl. lia.
  - destruct p as [|d p]; [intros E; simpl in E; simplify_eq; simpl; lia|]. cbn [String.index].
    destruct (String.prefix (String d p) (String c s)) eqn:Ep.
    + intros E. simplify_eq. apply String.prefix_correct in Ep. rewrite <-Ep. apply L.
    + destruct (String.index 0 (String d p) s) as [k|]; [|done]. intros E. simplify_eq. specialize (IH k eq_refl). simpl in *. lia.
Qed.

Lemma slice_from_length k s : k ≤ String.length s → String.length (slice_from k s) = String.length s - k.
Proof.
  unfold slice_from. revert k. induction s as [|c s IH]; intros [|k] Hk; simpl in *; [done|lia| |].
  - f_equal. assert (∀ t, String.length (String.substring 0 (String.length t) t) = String.length t) as L
      by (induction t; simpl; auto). apply L.
  - apply IH. lia.
Qed.

Section TemplateFacts.
Context `{JsonValue, !ValueKinds, HashOrder}.

(** The names of a template are found, when one of the delimiters is a text; the
    search never ends when both are empty. *)
Theorem extract_variables_ends e template :
  is_Some (extract_variables e template) ↔ te_left_delimiter e ≠ "" ∨ te_right_delimiter e ≠ "".
Proof.
  split.
  - intros [l E]. destruct (decide (te_left_delimiter e = "")) as [Ll|]; [|by left].
    destruct (decide (te_right_delimiter e = "")) as [Lr|]; [|by right]. exfalso. revert E.
    unfold extract_variables. generalize (S (String.length template)) as fuel.
    assert (∀ s, String.index 0 "" s = Some 0) as I by (by intros []).
    intros fuel. generalize (@nil string) as found. revert template. induction fuel as [|fuel IH]; intros s found; [done|].
    cbn [extract_from]. rewrite Ll, Lr, !I. apply IH.
  - intros D. unfold extract_variables. assert (String.length template < S (String.length template)) as Hf by lia.
    revert Hf. generalize (S (String.length template)) as fuel. intros fuel. generalize (@nil string) as found.
    revert template. induction fuel as [|fuel IH]; intros s found Hf; [lia|]. cbn [extract_from].
    destruct (String.index 0 (te_left_delimiter e) s) as [b|] eqn:Eb; [|done].
    apply str_index_bound in Eb. pose proof (slice_from_length (b + String.length (te_left_delimiter e)) s ltac:(lia)) as L1.
    set (after := slice_from _ s) in *.
    destruct (String.index 0 (te_right_delimiter e) after) as [k|] eqn:Ek; [|done].
    apply str_index_bound in Ek. apply IH.
    rewrite slice_from_length by lia.
    assert (0 < String.length (te_left_delimiter e) + String.length (te_right_delimiter e)).
    { destruct (te_left_delimiter e), (te_right_delimiter e); simpl; [naive_solver|lia..]. }
    lia.
Qed.

(** A template renders exactly when every variable it defines passes its check. *)
Theorem render_ok_iff e t variables :
  is_ok (render e t variables) = true ↔
  ∀ name d, tp_variables t !! name = Some d →
    (variables !! name = None → vd_required d = true → is_Some (vd_default d)) ∧
    (∀ v, variables !! name = Some v → check_type v (vd_var_type d) = true).
Proof.
  assert (∀ kd, validate_variable variables kd = Ok tt ↔
    (variables !! kd.1 = None → vd_required kd.2 = true → is_Some (vd_default kd.2)) ∧
    (∀ v, variables !! kd.1 = Some v → check_type v (vd_var_type kd.2) = true)) as V.
  { intros [k d]. unfold validate_variable. simpl.
    destruct (variables !! k) as [v|] eqn:Ev.
    - rewrite (bool_decide_false (Some v = None)), andb_false_r by done. cbn [andb].
      destruct (check_type v (vd_var_type d)) eqn:Ec; [naive_solver|].
      split; [done|]. intros [_ K]. specialize (K v eq_refl). congruence.
    - rewrite bool_decide_true, andb_true_r by done.
      destruct (vd_required d); [|naive_solver]. destruct (vd_default d) as [x|]; [naive_solver|].
      split; [done|]. intros [K _]. by destruct K. }
  assert (∀ l r, is_ok (foldl (λ r kd, match r with Ok _ => validate_variable variables kd | Err e => Err e end) r l)
    = true ↔ is_ok r = true ∧ ∀ kd, kd ∈ l → validate_variable variables kd = Ok tt) as F.
  { induction l as [|kd l IH]; intros r; cbn [foldl]; [set_solver|]. rewrite IH. setoid_rewrite elem_of_cons.
    destruct r as [[]|]; [|by split; intros [? _]].
    destruct (validate_variable variables kd) as [[]|err] eqn:E; split.
    - intros [_ K]. split; [done|]. intros kd' [->|Hk]; auto.
    - intros [_ K]. auto.
    - by intros [? _].
    - intros [_ K]. specialize (K kd (or_introl eq_refl)). congruence. }
  unfold render, validate_variables. specialize (F (hash_order (tp_variables t)) (Ok tt)).
  trans (∀ kd, kd ∈ hash_order (tp_variables t) → validate_variable variables kd = Ok tt).
  - destruct (foldl _ _ _) as [[]|]; simpl in *; split; intros K; try done; by apply F.
  - setoid_rewrite V. split.
    + intros K name d E. apply (K (name, d)). by apply elem_of_hash_order.
    + intros K [name d] E%elem_of_hash_order. by apply K.
Qed.
End TemplateFacts.

(** *** A request signed and checked *)

#[export] Instance plain_hmac : Hmac := λ _ secret payload, secret +:+ "/" +:+ payload.
#[export] Instance plain_text : LossyText := λ s, s.

Lemma signature_round_trip_witness :
  let c := SigningConfig_new "secret" in
  verify_request_signature 1700000100 c "hello"
    (list_to_map (create_signature_headers 1700000000 c "hello")) = Ok true.
Proof.
  exact (signature_round_trip 1700000000 1700000100 (SigningConfig_new "secret") "hello" 300 eq_refl
    ltac:(by vm_compute) ltac:(lia) ltac:(lia) ltac:(lia)).
Defined.
