(* ===== verification/Config.v ===== *)
(** Configuration ([crates/uhorse-config/src]): the settings with their defaults,
    the sources and how they are merged, validation, the history of values with
    rollback and diffs, hot reload and the distributed client with its in-memory
    backend.  The JSON and TOML readers, the environment and the file system are
    parameters. *)
From S2P Require Import Prelude Text Float32 Json ProtocolTypes Paths Permission Workspace Notifications.

(** ** Settings *)

Record TlsConfig := MkTlsConfig { tl_cert_path : path; tl_key_path : path; tl_ca_path : option path }.
Record HealthConfig := MkHealthConfig { hc_enabled : bool; hc_path : string; hc_verbose : bool }.
Definition HealthConfig_default : HealthConfig := MkHealthConfig true "/api/health" false.

Record ServerConfig := MkServerConfig {
  se_host : string;
  se_port : Z;
  se_max_connections : Z;
  se_request_timeout : Z;
  se_read_timeout : Z;
  se_write_timeout : Z;
  se_tls : option TlsConfig;
  se_health : HealthConfig
}.
Definition ServerConfig_default : ServerConfig :=
  MkServerConfig "0.0.0.0" 8765 1000 30 10 10 None HealthConfig_default.

Record DatabaseConfig := MkDatabaseConfig {
  db_path : string;
  db_pool_size : Z;
  db_conn_timeout : Z;
  db_wal_enabled : bool;
  db_fk_enabled : bool
}.
Definition DatabaseConfig_default : DatabaseConfig := MkDatabaseConfig "./data/uhorse.db" 10 30 true true.

Record TelegramConfig := MkTelegramConfig {
  tg_bot_token : string; tg_webhook_url : option string; tg_max_connections : Z }.
Record DingTalkSkillInstaller := MkDingTalkSkillInstaller {
  si_user_id : option string; si_staff_id : option string; si_corp_id : option string }.
Record DingTalkConfig := MkDingTalkConfig {
  dt_app_key : string;
  dt_app_secret : string;
  dt_agent_id : Z;
  dt_ai_card_template_id : option string;
  dt_skillhub_search_url : option string;
  dt_skillhub_download_url_template : option string;
  dt_notification_bindings : list DingTalkNotificationBinding;
  dt_skill_installers : list DingTalkSkillInstaller
}.
Record SlackConfig := MkSlackConfig {
  sl_bot_token : string; sl_signing_secret : string; sl_app_token : option string }.
Record DiscordConfig := MkDiscordConfig {
  di_bot_token : string; di_application_id : string; di_max_shards : Z }.
Record WhatsAppConfig := MkWhatsAppConfig {
  wh_access_token : string; wh_phone_number_id : string; wh_business_account_id : string;
  wh_webhook_verify_token : string }.

Record ChannelsConfig := MkChannelsConfig {
  ch_enabled : list string;
  ch_telegram : option TelegramConfig;
  ch_dingtalk : option DingTalkConfig;
  ch_slack : option SlackConfig;
  ch_discord : option DiscordConfig;
  ch_whatsapp : option WhatsAppConfig
}.
Definition ChannelsConfig_default : ChannelsConfig := MkChannelsConfig [] None None None None None.

Record SecurityConfig := MkSecurityConfig {
  sc_jwt_secret : option string;
  sc_token_expiry : Z;
  sc_refresh_token_expiry : Z;
  sc_pairing_expiry : Z;
  sc_approval_enabled : bool;
  sc_pairing_enabled : bool
}.
Definition SecurityConfig_default : SecurityConfig := MkSecurityConfig None 86400 2592000 300 true true.

Inductive LogFormat := LogFull | LogCompact | LogJson | LogPretty.
Inductive LogOutput := LogStdout | LogStderr | LogFile (p : path) (rotate : bool) | LogBoth (file : path) (rotate : bool).
Record LoggingConfig := MkLoggingConfig {
  lg_level : string; lg_format : LogFormat; lg_output : LogOutput;
  lg_ansi : bool; lg_file : bool; lg_line : bool; lg_target : bool }.
Definition LoggingConfig_default : LoggingConfig := MkLoggingConfig "info" LogFull LogStdout true true true true.

Record ObservabilityConfig := MkObservabilityConfig {
  ob_service_name : string; ob_tracing_enabled : bool; ob_metrics_enabled : bool;
  ob_otlp_endpoint : option string; ob_metrics_port : Z }.
Definition ObservabilityConfig_default : ObservabilityConfig := MkObservabilityConfig "uhorse-hub" true true None 9090.

Record SchedulerConfig := MkSchedulerConfig { sd_enabled : bool; sd_threads : Z; sd_max_concurrent_jobs : Z }.
Definition SchedulerConfig_default : SchedulerConfig := MkSchedulerConfig true 2 100.

Record ToolsConfig := MkToolsConfig { to_sandbox_enabled : bool; to_sandbox_timeout : Z; to_sandbox_max_memory : Z }.
Definition ToolsConfig_default : ToolsConfig := MkToolsConfig true 30 512.

Record LLMConfig := MkLLMConfig {
  lm_enabled : bool; lm_provider : string; lm_api_key : string; lm_base_url : string; lm_model : string;
  lm_temperature : f32; lm_max_tokens : Z; lm_system_prompt : string }.
Definition LLMConfig_default : LLMConfig :=
  MkLLMConfig false "openai" "" "https://api.openai.com/v1" "gpt-3.5-turbo" (f32_lit 7 10) 2000
    "You are a helpful AI assistant for uHorse, a multi-channel AI gateway.".

Record UHorseConfig := MkUHorseConfig {
  uh_server : ServerConfig;
  uh_database : DatabaseConfig;
  uh_channels : ChannelsConfig;
  uh_security : SecurityConfig;
  uh_logging : LoggingConfig;
  uh_observability : ObservabilityConfig;
  uh_scheduler : SchedulerConfig;
  uh_tools : ToolsConfig;
  uh_llm : LLMConfig
}.
Definition UHorseConfig_default : UHorseConfig :=
  MkUHorseConfig ServerConfig_default DatabaseConfig_default ChannelsConfig_default SecurityConfig_default
    LoggingConfig_default ObservabilityConfig_default SchedulerConfig_default ToolsConfig_default LLMConfig_default.

(** ** Validation ([validator.rs]) *)

Inductive ValidationResult := ValidationValid | ValidationInvalid (errors : list string).
Definition validation_is_valid (r : ValidationResult) : bool := match r with ValidationValid => true | _ => false end.
Definition validation_errors (r : ValidationResult) : list string :=
  match r with ValidationValid => [] | ValidationInvalid errors => errors end.
Definition of_errors (errors : list string) : ValidationResult :=
  match errors with [] => ValidationValid | _ => ValidationInvalid errors end.
Definition merge_results (rs : list ValidationResult) : ValidationResult := of_errors (rs ≫= validation_errors).

Definition line_break : string := String "010" EmptyString.
Definition error_if (b : bool) (message : string) : list string := if b then [message] else [].

Section Validators.
Context `{FileSystem, PathTexts}.

Definition tls_errors (t : TlsConfig) : list string :=
  error_if (negb (fs_exists (tl_cert_path t))) ("TLS cert file not found: " +:+ path_debug (tl_cert_path t)) ++
  error_if (negb (fs_exists (tl_key_path t))) ("TLS key file not found: " +:+ path_debug (tl_key_path t)) ++
  match tl_ca_path t with
  | Some ca => error_if (negb (fs_exists ca)) ("TLS CA file not found: " +:+ path_debug ca)
  | None => []
  end.
Definition ServerValidator (c : UHorseConfig) : ValidationResult :=
  let s := uh_server c in
  of_errors (
    error_if (bool_decide (se_port s < 1024)%Z) "Server port < 1024 requires root privileges" ++
    error_if (bool_decide (se_request_timeout s = 0%Z)) "Request timeout must be > 0" ++
    error_if (bool_decide (se_read_timeout s = 0%Z)) "Read timeout must be > 0" ++
    error_if (bool_decide (se_write_timeout s = 0%Z)) "Write timeout must be > 0" ++
    match se_tls s with Some t => tls_errors t | None => [] end).

Definition parent_errors (db : string) : list string :=
  match path_parent (path_of_string db) with
  | Some parent =>
      error_if (negb (bool_decide (parent = [])) && negb (fs_exists parent))
        ("Database parent directory does not exist: " +:+ path_debug parent)
  | None => []
  end.
Definition DatabaseValidator (c : UHorseConfig) : ValidationResult :=
  let d := uh_database c in
  of_errors (
    error_if (bool_decide (db_pool_size d = 0%Z)) "Database pool size must be > 0" ++
    error_if (bool_decide (100 < db_pool_size d)%Z) "Database pool size should be <= 100" ++
    parent_errors (db_path d) ++
    error_if (bool_decide (db_conn_timeout d = 0%Z)) "Database connection timeout must be > 0").

Definition SecurityValidator (c : UHorseConfig) : ValidationResult :=
  let s := uh_security c in
  of_errors (
    match sc_jwt_secret s with
    | Some secret => error_if (bool_decide (String.length secret < 32)) "JWT secret must be at least 32 characters"
    | None => ["JWT secret is required for production"]
    end ++
    error_if (bool_decide (sc_token_expiry s = 0%Z)) "Token expiry must be > 0" ++
    error_if (bool_decide (sc_refresh_token_expiry s ≤ sc_token_expiry s)%Z) "Refresh token expiry must be > token expiry" ++
    error_if (bool_decide (sc_pairing_expiry s = 0%Z)) "Pairing expiry must be > 0" ++
    error_if (bool_decide (600 < sc_pairing_expiry s)%Z) "Pairing expiry should be <= 600 seconds (10 minutes)").

Definition validate_dingtalk_notification_binding (b : DingTalkNotificationBinding) : list string :=
  error_if (bool_decide (str_trim (dn_node_id b) = "")) "DingTalk notification binding node_id is required" ++
  error_if (bool_decide (str_trim (dn_user_id b) = "")) "DingTalk notification binding user_id is required".
Definition blank (o : option string) : bool := match o with Some s => bool_decide (str_trim s = "") | None => false end.
Definition validate_dingtalk_skill_installer (i : DingTalkSkillInstaller) : list string :=
  error_if (blank (si_user_id i)) "DingTalk skill installer user_id cannot be empty" ++
  error_if (blank (si_staff_id i)) "DingTalk skill installer staff_id cannot be empty" ++
  error_if (blank (si_corp_id i)) "DingTalk skill installer corp_id cannot be empty" ++
  error_if (bool_decide (si_user_id i = None) && bool_decide (si_staff_id i = None))
    "DingTalk skill installer requires either user_id or staff_id".

(** The errors of an enabled channel: its own, or that it is not configured. *)
Definition enabled_errors {A} (c : ChannelsConfig) (name missing : string) (o : option A) (f : A → list string)
    : list string :=
  if bool_decide (name ∈ ch_enabled c) then match o with Some a => f a | None => [missing] end else [].

Definition known_channels : list string := ["telegram"; "dingtalk"; "slack"; "discord"; "whatsapp"].
Definition ChannelsValidator (c : UHorseConfig) : ValidationResult :=
  let ch := uh_channels c in
  of_errors (
    (ch_enabled ch ≫= λ name, error_if (negb (bool_decide (name ∈ known_channels))) ("Unknown channel type: " +:+ name)) ++
    enabled_errors ch "telegram" "Telegram config is missing" (ch_telegram ch) (λ t,
      error_if (bool_decide (tg_bot_token t = "")) "Telegram bot_token is required" ++
      error_if (negb (String.prefix "bot" (tg_bot_token t)) || bool_decide (String.length (tg_bot_token t) < 45))
        "Invalid Telegram bot token format") ++
    enabled_errors ch "dingtalk" "DingTalk config is missing" (ch_dingtalk ch) (λ d,
      error_if (bool_decide (dt_app_key d = "")) "DingTalk app_key is required" ++
      error_if (bool_decide (dt_app_secret d = "")) "DingTalk app_secret is required" ++
      error_if (bool_decide (dt_agent_id d = 0%Z)) "DingTalk agent_id must be > 0" ++
      (dt_notification_bindings d ≫= validate_dingtalk_notification_binding) ++
      (dt_skill_installers d ≫= validate_dingtalk_skill_installer)) ++
    enabled_errors ch "slack" "Slack config is missing" (ch_slack ch) (λ s,
      error_if (bool_decide (sl_bot_token s = "")) "Slack bot_token is required" ++
      error_if (bool_decide (sl_signing_secret s = "")) "Slack signing_secret is required") ++
    enabled_errors ch "discord" "Discord config is missing" (ch_discord ch) (λ d,
      error_if (bool_decide (di_bot_token d = "")) "Discord bot_token is required" ++
      error_if (negb (String.prefix "Bot " (di_bot_token d))) "Discord bot_token must start with 'Bot '") ++
    enabled_errors ch "whatsapp" "WhatsApp config is missing" (ch_whatsapp ch) (λ w,
      error_if (bool_decide (wh_access_token w = "")) "WhatsApp access_token is required" ++
      error_if (bool_decide (wh_phone_number_id w = "")) "WhatsApp phone_number_id is required")).

Definition CompositeValidator (vs : list (UHorseConfig → ValidationResult)) (c : UHorseConfig) : ValidationResult :=
  merge_results ((λ v, v c) <$> vs).
Definition production : UHorseConfig → ValidationResult :=
  CompositeValidator [ServerValidator; DatabaseValidator; SecurityValidator; ChannelsValidator].
Definition development : UHorseConfig → ValidationResult := CompositeValidator [ServerValidator; DatabaseValidator].
Definition validate_config (c : UHorseConfig) (for_production : bool) : Result unit string :=
  match (if for_production then production else development) c with
  | ValidationValid => Ok tt
  | ValidationInvalid errors =>
      Err ("Configuration validation failed:" +:+ line_break +:+ str_join line_break errors)
  end.
End Validators.

(** ** Sources ([source.rs]) *)

(** JSON objects as the merge sees them: a map of members, and a bound on the depth
    of nesting, which every value has. *)
Class JsonMaps `{JsonValue} := {
  as_map : Value → option (gmap string Value);
  of_map : gmap string Value → Value;
  depth : Value → nat;
  as_map_of_map m : as_map (of_map m) = Some m;
  as_map_string s : as_map (json_string s) = None;
  member_depth v m k x : as_map v = Some m → m !! k = Some x → depth x < depth v
}.

Inductive MergeStrategy := MergeDefault | MergeOverride.
#[export] Instance MergeStrategy_eq_dec : EqDecision MergeStrategy. Proof. solve_decision. Defined.

Section Sources.
Context `{JV : JsonValue, !JsonMaps, HashOrder, ToLowercase}.

(** [insert_nested]; [None] is the panic of an empty path. *)
Fixpoint insert_nested (map : gmap string Value) (path : list string) (value : Value) : option (gmap string Value) :=
  match path with
  | [] => None
  | [key] => Some (<[key := value]> map)
  | key :: rest =>
      let nested := default ∅ (map !! key ≫= as_map) in
      match insert_nested nested rest value with
      | Some new => Some (<[key := of_map new]> map)
      | None => None
      end
  end.

Definition insert_all (entries : list (list string * Value)) : option (gmap string Value) :=
  foldl (λ m '(path, value), match m with Some m => insert_nested m path value | None => None end) (Some ∅) entries.

Record EnvSource := MkEnvSource { ev_prefix : string }.
Definition EnvSource_new : EnvSource := MkEnvSource "OPENCLAW_".
Definition env_to_path (s : EnvSource) (key : string) : option (list string) :=
  (λ rest, to_lowercase <$> str_split "_" rest) <$> strip_prefix (ev_prefix s) key.

(** [vars] is the environment, in its order. *)
Definition env_load (s : EnvSource) (vars : list (string * string)) : option Value :=
  of_map <$> insert_all (omap (λ '(key, value), (λ p, (p, json_string value)) <$> env_to_path s key) vars).

Record MemorySource := MkMemorySource { ms_data : gmap string string }.
Definition MemorySource_set (s : MemorySource) (key value : string) : MemorySource :=
  MkMemorySource (<[key := value]> (ms_data s)).
Definition memory_load (s : MemorySource) : option Value :=
  of_map <$> insert_all ((λ '(key, value), (str_split "." key, json_string value)) <$> hash_order (ms_data s)).

(** ** Merging ([loader.rs]) *)

(** The depth of the overlay is enough fuel. *)
Fixpoint merge_from (fuel : nat) (base overlay : Value) : Value :=
  match fuel with
  | O => overlay
  | S fuel =>
      match as_map base, as_map overlay with
      | Some b, Some o =>
          of_map (merge (λ x y, match x, y with
                                | Some x, Some y => Some (merge_from fuel x y)
                                | None, Some y => Some y
                                | x, None => x
                                end) b o)
      | _, _ => overlay
      end
  end.
Definition deep_merge (base overlay : Value) : Value := merge_from (S (depth overlay)) base overlay.

(** The derived readers and writers of the settings, and the TOML reader. *)
Class ConfigJson := {
  config_value : UHorseConfig → Value;
  config_of_value : Value → Result UHorseConfig string;
  toml_value : string → Result Value string
}.
Context `{!ConfigJson}.

Inductive ConfigValue := CvJson (v : Value) | CvToml (s : string).
Definition config_as_json (v : ConfigValue) : Result Value string :=
  match v with CvJson v => Ok v | CvToml s => toml_value s end.

Definition merge_config (strategy : MergeStrategy) (base : UHorseConfig) (overlay : ConfigValue)
    : Result UHorseConfig string :=
  match strategy with
  | MergeDefault =>
      let? overlay := config_as_json overlay in
      config_of_value (deep_merge (config_value base) overlay)
  | MergeOverride => let? overlay := config_as_json overlay in config_of_value overlay
  end.

(** [var] reads the environment; [parse_u16] is the reader of ports. *)
Definition parse_u16 (s : string) : option Z :=
  match ProtocolTypes.parse_u32 s with
  | Some n => if bool_decide (n < 65536)%Z then Some n else None
  | None => None
  end.
Definition apply_env_overrides (var : string → option string) (c : UHorseConfig) : Result UHorseConfig string :=
  let s := uh_server c in
  let host := default (se_host s) (var "OPENCLAW_SERVER_HOST") in
  let? port := match var "OPENCLAW_SERVER_PORT" with
               | Some p => ok_or (parse_u16 p) "Invalid OPENCLAW_SERVER_PORT"
               | None => Ok (se_port s)
               end in
  let server := MkServerConfig host port (se_max_connections s) (se_request_timeout s) (se_read_timeout s)
                  (se_write_timeout s) (se_tls s) (se_health s) in
  let d := uh_database c in
  let database := MkDatabaseConfig (default (db_path d) (var "OPENCLAW_DATABASE_PATH")) (db_pool_size d)
                    (db_conn_timeout d) (db_wal_enabled d) (db_fk_enabled d) in
  let x := uh_security c in
  let security := MkSecurityConfig (match var "OPENCLAW_JWT_SECRET" with Some s => Some s | None => sc_jwt_secret x end)
                    (sc_token_expiry x) (sc_refresh_token_expiry x) (sc_pairing_expiry x) (sc_approval_enabled x)
                    (sc_pairing_enabled x) in
  let l := uh_logging c in
  let logging := MkLoggingConfig (default (lg_level l) (var "OPENCLAW_LOG_LEVEL")) (lg_format l) (lg_output l)
                   (lg_ansi l) (lg_file l) (lg_line l) (lg_target l) in
  let ch := uh_channels c in
  let telegram := (λ t, MkTelegramConfig (default (tg_bot_token t) (var "OPENCLAW_TELEGRAM_BOT_TOKEN"))
                          (tg_webhook_url t) (tg_max_connections t)) <$> ch_telegram ch in
  let channels := MkChannelsConfig (ch_enabled ch) telegram (ch_dingtalk ch) (ch_slack ch) (ch_discord ch)
                    (ch_whatsapp ch) in
  Ok (MkUHorseConfig server database channels security logging (uh_observability c) (uh_scheduler c) (uh_tools c)
        (uh_llm c)).

(** [load]: each source is what it gives; one that fails is passed over, but a
    merge that fails is the answer. *)
Fixpoint load_sources (strategy : MergeStrategy) (c : UHorseConfig) (sources : list (Result ConfigValue string))
    : Result UHorseConfig string :=
  match sources with
  | [] => Ok c
  | Ok v :: sources => let? c := merge_config strategy c v in load_sources strategy c sources
  | Err _ :: sources => load_sources strategy c sources
  end.
Definition load (strategy : MergeStrategy) (sources : list (Result ConfigValue string)) (var : string → option string)
    : Result UHorseConfig string :=
  let? c := load_sources strategy UHorseConfig_default sources in
  apply_env_overrides var c.

(** The default loader: a file, then the environment. *)
Definition default_load (file : Result ConfigValue string) (vars : list (string * string)) : option (Result UHorseConfig string) :=
  match env_load EnvSource_new vars with
  | Some v => Some (load MergeDefault [file; Ok (CvJson v)] (λ k, (list_to_map vars : gmap string string) !! k))
  | None => None
  end.

(** A watch keeps its settings when a reload fails. *)
Definition reload (current : UHorseConfig) (loaded : Result UHorseConfig string) : UHorseConfig * Result unit string :=
  match loaded with Ok c => (c, Ok tt) | Err e => (current, Err e) end.

(** One turn of the watch task, on the time the file was last changed, if it can
    be read: the time is noted, and the settings are not loaded. *)
Definition watch_tick (last : option timestamp) (modified : option timestamp) : option timestamp :=
  match modified, last with
  | Some m, Some l => if bool_decide (l < m)%Z then Some m else last
  | Some m, None => Some m
  | None, _ => last
  end.
End Sources.

(** ** History and rollback ([versioning.rs]) *)

Record ConfigVersion := MkConfigVersion {
  vn_version : Z;
  vn_key : string;
  vn_value : string;
  vn_timestamp : timestamp;
  vn_changed_by : option string;
  vn_description : option string
}.
Record ConfigHistory := MkConfigHistory {
  hy_history : gmap string (list ConfigVersion);
  hy_current : gmap string Z;
  hy_max : nat
}.
Definition ConfigHistory_new : ConfigHistory := MkConfigHistory ∅ ∅ 100.
Definition with_max_history (max : nat) : ConfigHistory := MkConfigHistory ∅ ∅ max.

(** The two locks are taken one after the other: first the number, then the entry. *)
Definition next_version (h : ConfigHistory) (key : string) : ConfigHistory * Z :=
  let v := (default 0 (hy_current h !! key) + 1)%Z in
  (MkConfigHistory (hy_history h) (<[key := v]> (hy_current h)) (hy_max h), v).
Definition trim (max : nat) (l : list ConfigVersion) : list ConfigVersion := drop (length l - max) l.
Definition push_version (h : ConfigHistory) (e : ConfigVersion) : ConfigHistory :=
  MkConfigHistory (<[vn_key e := trim (hy_max h) (default [] (hy_history h !! vn_key e) ++ [e])]> (hy_history h))
    (hy_current h) (hy_max h).
Definition record_change (now : timestamp) (h : ConfigHistory) (key value : string) (by_ description : option string)
    : ConfigHistory * ConfigVersion :=
  let '(h1, v) := next_version h key in
  let e := MkConfigVersion v key value now by_ description in
  (push_version h1 e, e).

Definition get_history (h : ConfigHistory) (key : string) : list ConfigVersion :=
  rev (default [] (hy_history h !! key)).
Definition get_version (h : ConfigHistory) (key : string) (version : Z) : option ConfigVersion :=
  List.find (λ v, bool_decide (vn_version v = version)) (get_history h key).
Definition current_version (h : ConfigHistory) (key : string) : Z := default 0%Z (hy_current h !! key).
Definition clear_history (h : ConfigHistory) (key : string) : ConfigHistory :=
  MkConfigHistory (delete key (hy_history h)) (delete key (hy_current h)) (hy_max h).
Definition changes_newest_first (a b : ConfigVersion) : bool := bool_decide (vn_timestamp b ≤ vn_timestamp a)%Z.
Definition recent_changes `{HashOrder} (h : ConfigHistory) (limit : nat) : list ConfigVersion :=
  take limit (sort_by changes_newest_first (hash_values (hy_history h) ≫= @rev _)).

Definition rollback_to (now : timestamp) (h : ConfigHistory) (key : string) (version : Z)
    : ConfigHistory * Result string string :=
  match get_version h key version with
  | None => (h, Err ("Version " +:+ pretty version +:+ " not found for key " +:+ key))
  | Some e =>
      ((record_change now h key (vn_value e) (vn_changed_by e) (Some ("Rollback to version " +:+ pretty version))).1,
       Ok (vn_value e))
  end.
Definition rollback_previous (now : timestamp) (h : ConfigHistory) (key : string) : ConfigHistory * Result string string :=
  if bool_decide (current_version h key ≤ 1)%Z then (h, Err "No previous version to rollback to")
  else rollback_to now h key (current_version h key - 1).

Inductive DiffLine := LineUnchanged (s : string) | LineAdded (s : string) | LineRemoved (s : string).
Record ConfigDiff := MkConfigDiff {
  df_key : string; df_old_version : Z; df_new_version : Z; df_old_value : string; df_new_value : string }.
Definition ConfigDiff_new (key : string) (old new : ConfigVersion) : ConfigDiff :=
  MkConfigDiff key (vn_version old) (vn_version new) (vn_value old) (vn_value new).
Definition has_changes (d : ConfigDiff) : bool := negb (bool_decide (df_old_value d = df_new_value d)).
Fixpoint diff_lines (old new : list string) : list DiffLine :=
  match old, new with
  | o :: old, n :: new =>
      if bool_decide (o = n) then LineUnchanged o :: diff_lines old new
      else LineRemoved o :: LineAdded n :: diff_lines old new
  | o :: old, [] => LineRemoved o :: diff_lines old []
  | [], new => LineAdded <$> new
  end.
Definition line_diff (d : ConfigDiff) : list DiffLine :=
  diff_lines (str_lines (df_old_value d)) (str_lines (df_new_value d)).

(** ** Hot reload ([hot_reload.rs]) *)

Record ConfigChangeEvent := MkConfigChange {
  cc_key : string; cc_old_value : option string; cc_new_value : option string }.

(** [str::strip_suffix] of one byte. *)
Definition strip_star (s : string) : option string :=
  if bool_decide (String.get (String.length s - 1) s = Some "*"%char) then Some (slice_to (String.length s - 1) s) else None.
Definition matches_pattern (pattern key : string) : bool :=
  if bool_decide (pattern = "*" ∨ pattern = "**") then true
  else match strip_star pattern with
       | Some prefix => String.prefix prefix key
       | None => bool_decide (pattern = key)
       end.

(** Reloaders are names; what calling one answers does not matter to the others. *)
Abbreviation ConfigSubscribers := (gmap string (list string)) (only parsing).
Definition subscribe (m : ConfigSubscribers) (pattern reloader : string) : ConfigSubscribers :=
  <[pattern := default [] (m !! pattern) ++ [reloader]]> m.
(** The reloaders called for a change, in order. *)
Definition notify_change `{HashOrder} (m : ConfigSubscribers) (e : ConfigChangeEvent) : list string :=
  hash_order m ≫= λ '(pattern, reloaders), if matches_pattern pattern (cc_key e) then reloaders else [].

(** ** The distributed client ([distributed.rs]) *)

(** What a backend answers, and how it changes. *)
Class ConfigBackend (B : Type) := {
  backend_get : B → string → Result (option string) string;
  backend_set : B → string → string → B * Result unit string;
  backend_delete : B → string → B * Result unit string;
  backend_list : B → string → Result (list string) string
}.

Definition CONFIG_PREFIX : string := "/uhorse/config/".
Definition full_key (key : string) : string := CONFIG_PREFIX +:+ key.

Section Distributed.
Context `{ConfigBackend B} {T : Type}.

(** The JSON reader and writer of the type asked for. *)
Context (read : string → option T) (write : T → string).

Record ConfigClient := MkConfigClient { ct_cache : gmap string string; ct_backend : B }.

Definition config_get (c : ConfigClient) (key : string) : ConfigClient * Result (option T) string :=
  match ct_cache c !! full_key key ≫= read with
  | Some v => (c, Ok (Some v))
  | None =>
      match backend_get (ct_backend c) (full_key key) with
      | Err e => (c, Err e)
      | Ok None => (c, Ok None)
      | Ok (Some s) =>
          (MkConfigClient (<[full_key key := s]> (ct_cache c)) (ct_backend c),
           match read s with Some v => Ok (Some v) | None => Err "invalid value" end)
      end
  end.
Definition config_set (c : ConfigClient) (key : string) (v : T) : ConfigClient * Result unit string :=
  match backend_set (ct_backend c) (full_key key) (write v) with
  | (b, Err e) => (MkConfigClient (ct_cache c) b, Err e)
  | (b, Ok _) => (MkConfigClient (<[full_key key := write v]> (ct_cache c)) b, Ok tt)
  end.
Definition config_delete (c : ConfigClient) (key : string) : ConfigClient * Result unit string :=
  match backend_delete (ct_backend c) (full_key key) with
  | (b, Err e) => (MkConfigClient (ct_cache c) b, Err e)
  | (b, Ok _) => (MkConfigClient (delete (full_key key) (ct_cache c)) b, Ok tt)
  end.
Definition config_list (c : ConfigClient) (prefix : string) : Result (list string) string :=
  let? keys := backend_list (ct_backend c) (full_key prefix) in
  Ok (omap (strip_prefix CONFIG_PREFIX) keys).
End Distributed.
Arguments ConfigClient : clear implicits.
Arguments MkConfigClient {B}.
Arguments ct_cache {B}.
Arguments ct_backend {B}.

Definition InMemoryConfigBackend `{HashOrder} : ConfigBackend (gmap string string) := {|
  backend_get m k := Ok (m !! k);
  backend_set m k v := (<[k := v]> m, Ok tt);
  backend_delete m k := (delete k m, Ok tt);
  backend_list m p := Ok (List.filter (String.prefix p) (hash_keys m))
|}.
#[export] Existing Instance InMemoryConfigBackend.
