(* ===== verification/ConfigFacts.v ===== *)
(** Configuration: what merging keeps and replaces, which settings the environment
    can not reach and which break loading, what validation accepts, the numbers of a
    history and how far rollback goes, diffs, and the cache of the client. *)
From S2P Require Import Prelude Text Float32 Json ProtocolTypes Paths Permission Workspace Notifications Config.

(** ** Validation *)

Lemma error_if_nil b m : error_if b m = [] ↔ b = false.
Proof. by destruct b. Qed.
Lemma of_errors_valid l : validation_is_valid (of_errors l) = true ↔ l = [].
Proof. by destruct l. Qed.
Lemma of_errors_errors l : validation_errors (of_errors l) = l.
Proof. by destruct l. Qed.

Section Validation.
Context `{FileSystem, PathTexts}.

(** Validators put together accept what each of them accepts, and report all errors
    in their order. *)
Theorem composite_exact vs c :
  (validation_is_valid (CompositeValidator vs c) = true ↔ Forall (λ v, validation_errors (v c) = []) vs) ∧
  validation_errors (CompositeValidator vs c) = vs ≫= λ v, validation_errors (v c).
Proof.
  unfold CompositeValidator, merge_results. split.
  - rewrite of_errors_valid. induction vs as [|v vs IH]; [done|]. csimpl. rewrite app_nil. by rewrite IH, Forall_cons.
  - rewrite of_errors_errors. induction vs as [|v vs IH]; [done|]. csimpl. by rewrite IH.
Qed.

(** The security settings that pass. *)
Theorem security_valid c :
  validation_is_valid (SecurityValidator c) = true ↔
  (∃ secret, sc_jwt_secret (uh_security c) = Some secret ∧ 32 ≤ String.length secret) ∧
  sc_token_expiry (uh_security c) ≠ 0%Z ∧
  (sc_token_expiry (uh_security c) < sc_refresh_token_expiry (uh_security c))%Z ∧
  sc_pairing_expiry (uh_security c) ≠ 0%Z ∧ (sc_pairing_expiry (uh_security c) ≤ 600)%Z.
Proof.
  unfold SecurityValidator. rewrite of_errors_valid, !app_nil, !error_if_nil, !bool_decide_eq_false.
  destruct (sc_jwt_secret (uh_security c)) as [secret|].
  - rewrite error_if_nil, bool_decide_eq_false. split.
    + intros (? & ? & ? & ? & ?). split_and!; [exists secret; split; [done|lia]|done|lia|done|lia].
    + intros ((? & [= ->] & ?) & ? & ? & ? & ?). split_and!; [lia|done|lia|done|lia].
  - split; [by intros []|]. by intros ((? & [=] & _) & _).
Qed.

(** The default settings do not pass the default validation: they have no secret. *)
Theorem default_config_invalid : validation_is_valid (production UHorseConfig_default) = false.
Proof.
  apply not_true_is_false. intros K%composite_exact. rewrite !Forall_cons in K. by destruct K as (_ & _ & K & _).
Qed.

(** An unknown channel is reported, and so is every enabled channel that is not
    configured. *)
Theorem channels_valid_configured c name :
  validation_is_valid (ChannelsValidator c) = true → name ∈ ch_enabled (uh_channels c) →
  name ∈ known_channels ∧
  (name = "telegram" → is_Some (ch_telegram (uh_channels c))) ∧
  (name = "dingtalk" → is_Some (ch_dingtalk (uh_channels c))) ∧
  (name = "slack" → is_Some (ch_slack (uh_channels c))) ∧
  (name = "discord" → is_Some (ch_discord (uh_channels c))) ∧
  (name = "whatsapp" → is_Some (ch_whatsapp (uh_channels c))).
Proof.
  unfold ChannelsValidator. rewrite of_errors_valid, !app_nil. intros (Hk & Ht & Hd & Hs & Hi & Hw) Hn.
  assert (∀ A missing (o : option A) f, enabled_errors (uh_channels c) name missing o f = [] → is_Some o) as E.
  { intros A missing o f. unfold enabled_errors. rewrite bool_decide_true by done. by destruct o. }
  split.
  { clear -Hk Hn. induction (ch_enabled (uh_channels c)) as [|x l IH]; [by apply not_elem_of_nil in Hn|].
    simpl in Hk. apply app_nil in Hk as [Hx Hl]. apply elem_of_cons in Hn as [<-|Hn]; [|by apply IH].
    apply error_if_nil, negb_false_iff, bool_decide_eq_true in Hx. done. }
  split_and!; intros ->; eapply E; eassumption.
Qed.
End Validation.

(** ** Merging *)

Section Merging.
Context `{JV : JsonValue, !JsonMaps, HashOrder, ToLowercase}.

(** The value at a path of keys. *)
Fixpoint walk (v : Value) (p : list string) : option Value :=
  match p with
  | [] => Some v
  | k :: p => m ← as_map v; x ← m !! k; walk x p
  end.
Definition walk_map (m : gmap string Value) (p : list string) : option Value :=
  match p with [] => None | k :: p => x ← m !! k; walk x p end.

Lemma walk_of_map m p : p ≠ [] → walk (of_map m) p = walk_map m p.
Proof. destruct p; [done|]. intros _. simpl. by rewrite as_map_of_map. Qed.

(** More fuel than the depth of the overlay makes no difference. *)
Lemma merge_from_fuel f1 f2 b o : depth o < f1 → depth o < f2 → merge_from f1 b o = merge_from f2 b o.
Proof.
  revert f2 b o. induction f1 as [|f1 IH]; intros [|f2] b o Hf1 Hf2; try lia. cbn [merge_from].
  destruct (as_map b) as [bm|]; [|done]. destruct (as_map o) as [om|] eqn:Eo; [|done]. f_equal.
  apply map_eq. intros k. rewrite !lookup_merge. unfold diag_None.
  destruct (bm !! k) as [x|], (om !! k) as [y|] eqn:Ey; try done. f_equal.
  pose proof (member_depth _ _ _ _ Eo Ey). apply IH; lia.
Qed.

(** One level of a merge. *)
Lemma deep_merge_maps b o bm om :
  as_map b = Some bm → as_map o = Some om →
  as_map (deep_merge b o) = Some (merge (λ x y, match x, y with
                                | Some x, Some y => Some (deep_merge x y)
                                | None, Some y => Some y
                                | x, None => x
                                end) bm om).
Proof.
  intros Eb Eo. unfold deep_merge at 1. cbn [merge_from]. rewrite Eb, Eo, as_map_of_map. f_equal.
  apply map_eq. intros k. rewrite !lookup_merge. unfold diag_None.
  destruct (bm !! k) as [x|], (om !! k) as [y|] eqn:Ey; try done. f_equal.
  pose proof (member_depth _ _ _ _ Eo Ey). apply merge_from_fuel; lia.
Qed.

Lemma deep_merge_leaf b o : as_map b = None ∨ as_map o = None → deep_merge b o = o.
Proof.
  intros Hn. unfold deep_merge. cbn [merge_from]. destruct (as_map b); [|done]. destruct (as_map o); [naive_solver|done].
Qed.

(** What the overlay says, other than opening an object, is what the merge says. *)
Theorem overlay_wins b o p v :
  walk o p = Some v → as_map v = None → walk (deep_merge b o) p = Some v.
Proof.
  revert b o. induction p as [|k p IH]; intros b o; simpl.
  - intros [= ->] Hv. by rewrite deep_merge_leaf by auto.
  - destruct (as_map o) as [om|] eqn:Eo; [|done]. simpl. destruct (om !! k) as [y|] eqn:Ey; [|done]. simpl. intros Hw Hv.
    destruct (as_map b) as [bm|] eqn:Eb.
    + rewrite (deep_merge_maps _ _ _ _ Eb Eo). simpl. rewrite lookup_merge, Ey.
      destruct (bm !! k) as [x|]; simpl; [by apply IH|done].
    + rewrite deep_merge_leaf by auto. by rewrite Eo; simpl; rewrite Ey.
Qed.

(** Where the overlay has no member, and objects on the way, the base stays. *)
Fixpoint silent (o : Value) (p : list string) : Prop :=
  match p with
  | [] => False
  | k :: p => ∃ m, as_map o = Some m ∧ match m !! k with None => True | Some x => silent x p end
  end.
Theorem base_stays b o p v : walk b p = Some v → silent o p → walk (deep_merge b o) p = Some v.
Proof.
  revert b o. induction p as [|k p IH]; intros b o; simpl; [done|].
  destruct (as_map b) as [bm|] eqn:Eb; [|done]. simpl. destruct (bm !! k) as [x|] eqn:Ex; [|done]. simpl.
  intros Hw (om & Eo & Hs). rewrite (deep_merge_maps _ _ _ _ Eb Eo). simpl. rewrite lookup_merge, Ex.
  destruct (om !! k) as [y|]; simpl; [by apply IH|done].
Qed.

(** ** Sources *)

Lemma insert_nested_cons m k k2 p v :
  insert_nested m (k :: k2 :: p) v =
  match insert_nested (default ∅ (m !! k ≫= as_map)) (k2 :: p) v with
  | Some new => Some (<[k := of_map new]> m)
  | None => None
  end.
Proof. done. Qed.

Lemma insert_nested_total m p v : p ≠ [] → is_Some (insert_nested m p v).
Proof.
  revert m. induction p as [|k [|k2 p] IH]; intros m Hp; [done|by eexists|].
  rewrite insert_nested_cons. destruct (IH (default ∅ (m !! k ≫= as_map))) as [m' ->]; [done|]. by eexists.
Qed.

Lemma insert_nested_at m p v m' : insert_nested m p v = Some m' → walk_map m' p = Some v.
Proof.
  revert m m'. induction p as [|k [|k2 p] IH]; intros m m'; [done|intros [= <-]; simpl; by rewrite lookup_insert_eq|].
  rewrite insert_nested_cons. destruct (insert_nested _ (k2 :: p) v) as [m2|] eqn:E; [|done]. intros [= <-].
  cbn [walk_map]. rewrite lookup_insert_eq. cbn [option_bind mbind]. rewrite walk_of_map by done. by eapply IH.
Qed.

(** Another path: neither begins with the other. *)
Definition apart (p q : list string) : Prop := ¬ p `prefix_of` q ∧ ¬ q `prefix_of` p.

Lemma insert_nested_apart m p v m' q :
  insert_nested m p v = Some m' → apart p q → walk_map m' q = walk_map m q.
Proof.
  revert m m' q. induction p as [|k [|k2 p] IH]; intros m m' q; [done|..].
  - intros [= <-] [Hp Hq]. destruct q as [|l q]; [by destruct Hq; apply prefix_nil|]. simpl.
    rewrite lookup_insert_ne; [done|]. intros ->. destruct Hp. by exists q.
  - rewrite insert_nested_cons. destruct (insert_nested _ (k2 :: p) v) as [m2|] eqn:E; [|done]. intros [= <-] [Hp Hq].
    destruct q as [|l q]; [by destruct Hq; apply prefix_nil|]. simpl.
    destruct (decide (k = l)) as [<-|Hn]; [|by rewrite lookup_insert_ne].
    rewrite lookup_insert_eq. simpl.
    assert (apart (k2 :: p) q) as A by (split; intros C; [apply Hp|apply Hq]; by apply prefix_cons).
    destruct q as [|l2 q]; [by destruct A as [_ []]; apply prefix_nil|].
    rewrite walk_of_map by done. rewrite (IH _ _ _ E A). simpl.
    destruct (m !! k) as [x|]; simpl; [|by rewrite lookup_empty].
    destruct (as_map x); simpl; [done|by rewrite lookup_empty].
Qed.

(** Sources with a path for every entry load. *)
Lemma insert_all_total entries : Forall (λ e, e.1 ≠ []) entries → is_Some (insert_all entries).
Proof.
  unfold insert_all. generalize (∅ : gmap string Value) as m. induction entries as [|[p v] entries IH]; intros m Hf; [done|].
  apply Forall_cons in Hf as [Hp Hf]. simpl. destruct (insert_nested_total m p v Hp) as [m' ->]. by apply IH.
Qed.
Lemma split_nonempty sep s : str_split sep s ≠ [].
Proof.
  unfold str_split. generalize "" as cur. induction s as [|c s IH]; intros cur; simpl; [done|].
  destruct (Ascii.eqb c sep); [done|]. apply IH.
Qed.

Theorem sources_load s vars ms : is_Some (env_load s vars) ∧ is_Some (memory_load ms).
Proof.
  unfold env_load, memory_load. split; apply fmap_is_Some, insert_all_total, Forall_forall.
  - intros [p v] Hin. apply list_elem_of_omap in Hin as ([k x] & _ & E). unfold env_to_path in E.
    destruct (strip_prefix _ k) as [rest|]; simplify_eq/=. intros E%fmap_nil_inv. by apply split_nonempty in E.
  - intros [p v] Hin. apply list_elem_of_fmap in Hin as ([k x] & [= -> ->] & _). apply split_nonempty.
Qed.

(** The last of the entries at a path, or apart from it, decides what is there. *)
Lemma insert_all_walk entries m p v :
  insert_all entries = Some m → (p, v) ∈ entries →
  Forall (λ e, e.1 = p ∨ apart e.1 p) entries → ∃ w, (p, w) ∈ entries ∧ walk_map m p = Some w.
Proof.
  unfold insert_all. intros Hm Hin Hf.
  assert (∀ entries m0 m, foldl (λ m '(path, value), match m with Some m => insert_nested m path value | None => None end)
    (Some m0) entries = Some m → Forall (λ e, e.1 = p ∨ apart e.1 p) entries →
    (∃ w, (p, w) ∈ entries ∧ walk_map m p = Some w) ∨ (Forall (λ e, e.1 ≠ p) entries ∧ walk_map m p = walk_map m0 p)) as K.
  { clear. induction entries as [|[q x] entries IH]; intros m0 m; simpl; [intros [= ->] _; by right|].
    destruct (insert_nested m0 q x) as [m1|] eqn:E.
    2:{ intros Hn. exfalso. clear -Hn. induction entries as [|[] ? IH]; [done|by apply IH]. }
    intros Hm [Hq Hf]%Forall_cons. simpl in Hq. destruct (IH _ _ Hm Hf) as [(w & Hw & Ew)|[Hn Ew]].
    - left. exists w. split; [by apply elem_of_cons; right|done].
    - destruct Hq as [->|A].
      + left. exists x. split; [apply elem_of_cons; by left|]. rewrite Ew. by eapply insert_nested_at.
      + right. split; [|by rewrite Ew; eapply insert_nested_apart].
        constructor; [|done]. simpl. intros ->. destruct A as [A _]. by apply A. }
  destruct (K _ _ _ Hm Hf) as [?|[Hn _]]; [done|]. rewrite Forall_forall in Hn. by destruct (Hn _ Hin).
Qed.
End Merging.

(** ** The environment *)

(** The pieces of a text hold no separator, and only characters of the text. *)
Lemma str_split_pieces (f : Ascii.ascii → bool) sep s :
  str_forallb f s = true →
  Forall (λ p, str_forallb (λ c, f c && negb (Ascii.eqb c sep)) p = true) (str_split sep s).
Proof.
  unfold str_split. assert (str_forallb (λ c, f c && negb (Ascii.eqb c sep)) "" = true) as Hc by done.
  revert Hc. generalize "" as cur. induction s as [|c s IH]; intros cur Hc Hs; simpl; [by constructor|].
  simpl in Hs. apply andb_true_iff in Hs as [Hf Hs]. destruct (Ascii.eqb c sep) eqn:E.
  - constructor; [done|]. by apply IH.
  - apply IH; [|done]. rewrite str_forallb_app, Hc. simpl. by rewrite Hf, E.
Qed.

Lemma ascii_to_lower_underscore c : ascii_to_lower c = "_"%char → c = "_"%char.
Proof. by destruct c as [[] [] [] [] [] [] [] []]. Qed.
Lemma ascii_lower_no_underscore s :
  str_forallb (λ c, negb (Ascii.eqb c "_")) s = true → str_forallb (λ c, negb (Ascii.eqb c "_")) (ascii_lower s) = true.
Proof.
  unfold ascii_lower. induction s as [|c s IH]; [done|]. simpl. intros [Hc Hs]%andb_true_iff. rewrite IH, andb_true_r by done.
  apply negb_true_iff, Ascii.eqb_neq. apply negb_true_iff, Ascii.eqb_neq in Hc. by intros E%ascii_to_lower_underscore.
Qed.
Lemma strip_prefix_forallb f p s rest : strip_prefix p s = Some rest → str_forallb f s = true → str_forallb f rest = true.
Proof.
  unfold strip_prefix. destruct (String.prefix p s); [|done]. intros [= <-]. generalize (String.length s - String.length p) as n.
  generalize (String.length p) as k. intros k n. revert k n. induction s as [|c s IH]; intros [|k] n Hs; simpl in *; try done.
  - by destruct n.
  - apply andb_true_iff in Hs as [Hc Hs]. destruct n as [|n]; [done|]. simpl. rewrite Hc. by apply (IH 0).
  - apply andb_true_iff in Hs as [Hc Hs]. by apply IH.
  Qed.

Section Environment.
Context `{JV : JsonValue, !JsonMaps, HashOrder, ToLowercase, !ConfigJson}.

(** A variable never reaches a setting whose name has an underscore, such as the
    timeouts, the pool size or the secret: every key of its path is without one. *)
Theorem env_keys_have_no_underscore s key p :
  is_ascii_str key = true → env_to_path s key = Some p →
  Forall (λ k, str_forallb (λ c, negb (Ascii.eqb c "_")) k = true) p.
Proof.
  intros Ha. unfold env_to_path. destruct (strip_prefix _ key) as [rest|] eqn:E; [|done]. intros [= <-].
  eapply strip_prefix_forallb in E; [|exact Ha]. apply (str_split_pieces _ "_") in E.
  apply Forall_fmap. eapply Forall_impl; [exact E|]. intros x Hx. simpl.
  rewrite to_lowercase_ascii.
  - apply ascii_lower_no_underscore. revert Hx. apply str_forallb_impl. by intros c [_ ?]%andb_true_iff.
  - unfold is_ascii_str. revert Hx. apply str_forallb_impl. by intros c [? _]%andb_true_iff.
Qed.

(** What serde does with the port: it is a number. *)
Class ConfigJsonLaws := {
  port_is_no_string v s c :
    walk v ["server"; "port"] = Some (json_string s) → config_of_value v ≠ Ok c
}.
Context `{!ConfigJsonLaws}.

(** Setting [OPENCLAW_SERVER_PORT] makes the default loader fail, whatever the file
    says and whatever the port is: the source of the environment merges it as a
    text, which is no port, before the override that would have read it. *)
Theorem port_override_breaks_loading file vars port :
  ("OPENCLAW_SERVER_PORT", port) ∈ vars →
  (∀ key value q, (key, value) ∈ vars → env_to_path EnvSource_new key = Some q →
    q = ["server"; "port"] ∨ apart q ["server"; "port"]) →
  ∃ e, default_load file vars = Some (Err e).
Proof.
  intros Hin Hap. unfold default_load. destruct (sources_load EnvSource_new vars (MkMemorySource ∅)) as [[v Ev] _].
  rewrite Ev. unfold env_load in Ev. destruct (insert_all _) as [m|] eqn:Em; [|done]. simplify_eq/=.
  assert (env_to_path EnvSource_new "OPENCLAW_SERVER_PORT" = Some ["server"; "port"]) as Hp.
  { unfold env_to_path. simpl. by rewrite !to_lowercase_ascii by done. }
  destruct (insert_all_walk _ _ ["server"; "port"] (json_string port) Em) as (w & Hw & Ew).
  - apply list_elem_of_omap. exists ("OPENCLAW_SERVER_PORT", port). split; [done|]. by rewrite Hp.
  - apply Forall_forall. intros [q x] Hq. apply list_elem_of_omap in Hq as ([k y] & Hk & E).
    destruct (env_to_path EnvSource_new k) as [q'|] eqn:Eq; simplify_eq/=. by eapply Hap.
  - apply list_elem_of_omap in Hw as ([k y] & _ & E). destruct (env_to_path EnvSource_new k); simplify_eq/=.
    assert (∀ c, ∃ e, merge_config MergeDefault c (CvJson (of_map m)) = Err e) as M.
    { intros c. simpl. destruct (config_of_value (deep_merge (config_value c) (of_map m))) as [c'|e] eqn:E; [|by eexists].
      exfalso. revert E. apply port_is_no_string with y. apply overlay_wins; [by rewrite walk_of_map|apply as_map_string]. }
    unfold load. destruct file as [f|ferr]; simpl.
    + destruct (merge_config MergeDefault UHorseConfig_default f) as [c|e] eqn:Ef; simpl in *.
      * destruct (M c) as [e E']. simpl in E'. rewrite Ef. simpl. rewrite E'. by eexists.
      * rewrite Ef. by eexists.
    + destruct (M UHorseConfig_default) as [e E']. simpl in E'. rewrite E'. by eexists.
Qed.
End Environment.

(** ** History *)

(** The numbers of a history: consecutive, ending at the current version. *)
Definition key_entries (h : ConfigHistory) (key : string) : list ConfigVersion := default [] (hy_history h !! key).
Record history_wf (h : ConfigHistory) : Prop := {
  hw_versions key n e : key_entries h key !! n = Some e →
    vn_version e = (current_version h key - zlen (key_entries h key) + Z.of_nat n + 1)%Z ∧ vn_key e = key;
  hw_length key : length (key_entries h key) = min (Z.to_nat (current_version h key)) (hy_max h);
  hw_current key : (0 ≤ current_version h key)%Z
}.

Inductive history_op :=
| HRecord (now : timestamp) (key value : string) (by_ description : option string)
| HRollback (now : timestamp) (key : string) (version : Z)
| HPrevious (now : timestamp) (key : string)
| HClear (key : string).
Definition history_step (h : ConfigHistory) (op : history_op) : ConfigHistory :=
  match op with
  | HRecord now key value by_ d => (record_change now h key value by_ d).1
  | HRollback now key v => (rollback_to now h key v).1
  | HPrevious now key => (rollback_previous now h key).1
  | HClear key => clear_history h key
  end.
Definition history_run (h : ConfigHistory) (ops : list history_op) : ConfigHistory := foldl history_step h ops.

Lemma record_entries now h key value by_ d key' :
  key_entries (record_change now h key value by_ d).1 key' =
  if decide (key' = key) then
    trim (hy_max h) (key_entries h key ++ [MkConfigVersion (current_version h key + 1) key value now by_ d])
  else key_entries h key'.
Proof.
  unfold record_change, key_entries. simpl. case_decide; [subst; by rewrite lookup_insert_eq|by rewrite lookup_insert_ne].
Qed.
Lemma record_current now h key value by_ d key' :
  current_version (record_change now h key value by_ d).1 key' =
  if decide (key' = key) then (current_version h key + 1)%Z else current_version h key'.
Proof.
  unfold record_change, current_version. simpl. case_decide; [subst; by rewrite lookup_insert_eq|by rewrite lookup_insert_ne].
Qed.

Lemma record_wf now h key value by_ d : history_wf h → history_wf (record_change now h key value by_ d).1.
Proof.
  intros W. split; intros key'; rewrite ?record_current, ?record_entries; simpl; case_decide as D; try by apply W.
  - subst key'. intros n e. unfold trim, zlen. rewrite length_drop, length_app, lookup_drop. simpl.
    pose proof (hw_length _ W key) as L. pose proof (hw_current _ W key) as C.
    intros [Hl|[Hge He]]%lookup_app_Some.
    + destruct (hw_versions _ W key _ _ Hl) as [Hv Hk]. split; [|done]. rewrite Hv. unfold zlen. apply lookup_lt_Some in Hl. lia.
    + apply list_lookup_singleton_Some in He as [He <-]. simpl. split; [lia|done].
  - subst key'. pose proof (hw_length _ W key) as L. pose proof (hw_current _ W key) as C.
    unfold trim. rewrite length_drop, length_app. simpl. lia.
  - subst key'. pose proof (hw_current _ W key). lia.
Qed.

(** Over any history of changes, rollbacks and clearings the entries kept for a key
    are the last ones, as many as allowed, under consecutive numbers. *)
Theorem history_numbered max ops : history_wf (history_run (with_max_history max) ops).
Proof.
  assert (∀ h, history_wf h → history_wf (history_run h ops)) as K.
  { induction ops as [|op ops IH]; intros h W; [done|]. apply IH. destruct op as [now key value b d|now key v|now key|key]; simpl.
    - by apply record_wf.
    - unfold rollback_to. destruct (get_version h key v); [by apply record_wf|done].
    - unfold rollback_previous, rollback_to. case_bool_decide; [done|].
      destruct (get_version h key _); [by apply record_wf|done].
    - split; intros key'; unfold key_entries, current_version; simpl;
        (destruct (decide (key = key')) as [<-|]; [rewrite !lookup_delete_eq|rewrite !lookup_delete_ne by done]); simpl;
        try done; try apply W. }
  apply K. split; unfold key_entries, current_version; simpl; intros; rewrite !lookup_empty in *; done.
Qed.

(** A version is found exactly when it is among those kept. *)
Lemma find_reverse_unique {A} (f : A → Z) l v e :
  (∀ i j x y, l !! i = Some x → l !! j = Some y → f x = f y → i = j) →
  (List.find (λ x, bool_decide (f x = v)) (rev l) = Some e ↔ e ∈ l ∧ f e = v).
Proof.
  intros U. split.
  - intros [Hin Hv]%List.find_some. rewrite <-in_rev in Hin. apply list_elem_of_In in Hin.
    by apply bool_decide_eq_true in Hv.
  - intros [Hin Hv]. destruct (List.find _ (rev l)) as [x|] eqn:Ef.
    + apply List.find_some in Ef as [Hx Ex]. rewrite <-in_rev in Hx. apply list_elem_of_In in Hx.
      apply bool_decide_eq_true in Ex. apply list_elem_of_lookup in Hin as [i Hi]. apply list_elem_of_lookup in Hx as [j Hj].
      assert (i = j) as <- by (eapply U; [done..|congruence]). congruence.
    + exfalso. eapply List.find_none in Ef; [|by rewrite <-in_rev; apply list_elem_of_In].
      by apply bool_decide_eq_false in Ef.
Qed.

Lemma versions_distinct h key i j x y : history_wf h →
  key_entries h key !! i = Some x → key_entries h key !! j = Some y → vn_version x = vn_version y → i = j.
Proof. intros W Hx Hy. destruct (hw_versions _ W _ _ _ Hx), (hw_versions _ W _ _ _ Hy). lia. Qed.

Theorem get_version_exact h key v : history_wf h →
  (is_Some (get_version h key v) ↔
   (0 < v ≤ current_version h key)%Z ∧ (current_version h key - Z.of_nat (hy_max h) < v)%Z).
Proof.
  intros W. pose proof (hw_length _ W key) as L. pose proof (hw_current _ W key) as C.
  unfold get_version, get_history. change (default [] (hy_history h !! key)) with (key_entries h key). split.
  - intros [e E%find_reverse_unique]; [|by intros ????; apply versions_distinct].
    destruct E as [[n Hn]%list_elem_of_lookup <-]. destruct (hw_versions _ W _ _ _ Hn) as [-> _].
    apply lookup_lt_Some in Hn. unfold zlen. lia.
  - intros [Hv Hm]. set (n := Z.to_nat (v - 1 - (current_version h key - zlen (key_entries h key)))).
    destruct (lookup_lt_is_Some_2 (key_entries h key) n) as [e He]; [unfold n, zlen; lia|].
    exists e. apply find_reverse_unique; [by intros ????; apply versions_distinct|]. split; [by eapply list_elem_of_lookup_2|].
    destruct (hw_versions _ W _ _ _ He) as [-> _]. unfold n, zlen. lia.
Qed.

(** A recorded version is found, and so are those it does not push out. *)
Lemma get_recorded now h key value by_ d : history_wf h → 0 < hy_max h →
  get_version (record_change now h key value by_ d).1 key (current_version h key + 1) =
  Some (MkConfigVersion (current_version h key + 1) key value now by_ d).
Proof.
  intros W Hm. pose proof (record_wf now h key value by_ d W) as W'. unfold get_version, get_history.
  change (default [] (hy_history ?x !! key)) with (key_entries x key).
  apply find_reverse_unique; [by intros ????; apply versions_distinct|]. split; [|done].
  rewrite record_entries, decide_True by done. unfold trim. pose proof (hw_length _ W key) as L.
  rewrite length_app. simpl. rewrite drop_app_le by lia. apply elem_of_app. right. by apply list_elem_of_singleton.
Qed.

Lemma get_kept now h key value by_ d v : history_wf h →
  (v ≤ current_version h key)%Z → (current_version h key + 1 - Z.of_nat (hy_max h) < v)%Z →
  get_version (record_change now h key value by_ d).1 key v = get_version h key v.
Proof.
  intros W Hv Hm. pose proof (record_wf now h key value by_ d W) as W'. apply option_eq. intros e.
  unfold get_version, get_history. change (default [] (hy_history ?x !! key)) with (key_entries x key).
  rewrite !find_reverse_unique by (by intros ????; apply versions_distinct).
  rewrite record_entries, decide_True by done. unfold trim. rewrite length_app. simpl.
  pose proof (hw_length _ W key) as L. pose proof (hw_current _ W key) as C. rewrite !list_elem_of_lookup.
  setoid_rewrite lookup_drop. split.
  - intros [[n Hn] Hx]. split; [|done]. apply lookup_app_Some in Hn as [Hn|[_ Hn]]; [by eexists|].
    apply list_lookup_singleton_Some in Hn as [_ <-]. simpl in Hx. lia.
  - intros [[n Hn] Hx]. split; [|done]. destruct (hw_versions _ W _ _ _ Hn) as [Ex _]. apply lookup_lt_Some in Hn as Hlt.
    exists (n - (length (key_entries h key) + 1 - hy_max h)). rewrite lookup_app_l by (unfold zlen in *; lia).
    rewrite <-Hn. f_equal. unfold zlen in *. lia.
Qed.

(** Rolling back to a version that is kept makes its value the newest version. *)
Theorem rollback_restores now h key v e : history_wf h → 0 < hy_max h →
  get_version h key v = Some e →
  let '(h', r) := rollback_to now h key v in
  r = Ok (vn_value e) ∧ current_version h' key = (current_version h key + 1)%Z ∧
  vn_value <$> get_version h' key (current_version h' key) = Some (vn_value e).
Proof.
  intros W Hm Hv. unfold rollback_to. rewrite Hv. split; [done|]. rewrite record_current, decide_True by done.
  split; [done|]. by rewrite get_recorded.
Qed.

(** Rolling back twice to the previous version goes nowhere: the second time gives
    back the value the first one left. *)
Theorem rollback_previous_toggles now1 now2 h key e : history_wf h → 2 ≤ hy_max h →
  (2 ≤ current_version h key)%Z → get_version h key (current_version h key) = Some e →
  let '(h1, r1) := rollback_previous now1 h key in
  is_ok r1 = true ∧ (rollback_previous now2 h1 key).2 = Ok (vn_value e).
Proof.
  intros W Hm Hc He. unfold rollback_previous. rewrite bool_decide_false by lia.
  destruct (get_version h key (current_version h key - 1)) as [p|] eqn:Ep.
  2:{ exfalso. apply eq_None_not_Some in Ep. apply Ep, get_version_exact; [done|]. lia. }
  unfold rollback_to at 1. rewrite Ep. split; [done|]. rewrite record_current, decide_True by done.
  rewrite bool_decide_false by lia. replace (current_version h key + 1 - 1)%Z with (current_version h key) by lia.
  unfold rollback_to. rewrite get_kept by (done || lia). by rewrite He.
Qed.

Lemma trim_snoc max l x : 1 ≤ max → ∃ k, trim max (l ++ [x]) = k ++ [x].
Proof. intros Hm. unfold trim. rewrite length_app. simpl. rewrite drop_app_le by lia. by eexists. Qed.

(** Two changes of a key at once: the lock of the numbers is released before the
    lock of the entries is taken, so the entries can end up in the other order, and
    the newest entry is not the current version. *)
Theorem interleaved_records_reorder now h key a b :
  let '(h1, va) := next_version h key in
  let '(h2, vb) := next_version h1 key in
  let h3 := push_version h2 (MkConfigVersion vb key b now None None) in
  let h4 := push_version h3 (MkConfigVersion va key a now None None) in
  1 ≤ hy_max h → vb = (va + 1)%Z ∧ current_version h4 key = vb ∧
  vn_version <$> head (get_history h4 key) = Some va.
Proof.
  unfold next_version, push_version, current_version, get_history. simpl. intros Hm. rewrite !lookup_insert_eq. simpl.
  split_and!; [done..|]. edestruct trim_snoc as [k ->]; [done|]. by rewrite rev_app_distr.
Qed.

(** ** Diffs *)

Definition old_line (d : DiffLine) : option string :=
  match d with LineUnchanged s | LineRemoved s => Some s | LineAdded _ => None end.
Definition new_line (d : DiffLine) : option string :=
  match d with LineUnchanged s | LineAdded s => Some s | LineRemoved _ => None end.

(** A diff holds both texts. *)
Theorem diff_holds_both d :
  omap old_line (line_diff d) = str_lines (df_old_value d) ∧ omap new_line (line_diff d) = str_lines (df_new_value d).
Proof.
  unfold line_diff. generalize (str_lines (df_new_value d)) as new. generalize (str_lines (df_old_value d)) as old.
  induction old as [|o old IH]; intros new.
  - simpl. induction new as [|n new IH]; [done|]. csimpl. destruct IH as [-> ->]. done.
  - destruct new as [|n new].
    + destruct (IH []) as [E1 E2]. cbn [diff_lines omap list_omap old_line new_line]. by rewrite E1, E2.
    + destruct (IH new) as [E1 E2]. cbn [diff_lines].
      case_bool_decide; cbn [omap list_omap old_line new_line]; rewrite E1, E2; by subst.
Qed.

(** ** Hot reload *)

(** A change calls exactly the reloaders subscribed under a pattern that matches. *)
Theorem notified_exact `{HashOrder} (m : ConfigSubscribers) e r :
  r ∈ notify_change m e ↔
  ∃ pattern l, m !! pattern = Some l ∧ r ∈ l ∧ matches_pattern pattern (cc_key e) = true.
Proof.
  unfold notify_change. rewrite list_elem_of_bind. split.
  - intros ([p l] & Hr & Hp%elem_of_hash_order). destruct (matches_pattern p (cc_key e)) eqn:E; [by exists p, l|].
    by apply not_elem_of_nil in Hr.
  - intros (p & l & Hp & Hr & E). exists (p, l). rewrite E. split; [done|]. by apply elem_of_hash_order.
Qed.

(** ** The client *)

Section Client.
Context {T : Type} (read : string → option T) (write : T → string) (Hrw : ∀ v, read (write v) = Some v).

(** With any backend that stores, a value that was set is read. *)
Theorem set_then_get `{ConfigBackend B} (c c' : ConfigClient B) key v r :
  config_set write c key v = (c', Ok r) → (config_get read c' key).2 = Ok (Some v).
Proof.
  unfold config_set. destruct (backend_set _ _ _) as [b [u|e]]; [|done]. intros [= <- _].
  unfold config_get. simpl. rewrite lookup_insert_eq. simpl. by rewrite Hrw.
Qed.

(** A value that is cached hides what the backend says, for ever: a change another
    client made is not seen. *)
Theorem cache_hides_backend `{ConfigBackend B} (c : ConfigClient B) (b : B) key s v :
  ct_cache c !! full_key key = Some s → read s = Some v →
  config_get read (MkConfigClient (ct_cache c) b) key = (MkConfigClient (ct_cache c) b, Ok (Some v)).
Proof. intros Hc Hr. unfold config_get. simpl. by rewrite Hc; simpl; rewrite Hr. Qed.

(** A client that has the backend to itself: its cache changes no answer. *)
Inductive client_call := CcGet (key : string) | CcSet (key : string) (v : T) | CcDelete (key : string).
Definition plain_answer (m : gmap string string) (key : string) : Result (option T) string :=
  match m !! full_key key with
  | None => Ok None
  | Some s => match read s with Some v => Ok (Some v) | None => Err "invalid value" end
  end.
Definition plain_step (m : gmap string string) (c : client_call) : gmap string string :=
  match c with
  | CcGet _ => m
  | CcSet key v => <[full_key key := write v]> m
  | CcDelete key => delete (full_key key) m
  end.
Definition client_step `{HashOrder} (c : ConfigClient (gmap string string)) (call : client_call)
    : ConfigClient (gmap string string) :=
  match call with
  | CcGet key => (config_get read c key).1
  | CcSet key v => (config_set write c key v).1
  | CcDelete key => (config_delete c key).1
  end.

Lemma client_step_inv `{HashOrder} c call :
  ct_cache c ⊆ ct_backend c →
  ct_cache (client_step c call) ⊆ ct_backend (client_step c call) ∧
  ct_backend (client_step c call) = plain_step (ct_backend c) call.
Proof.
  intros Hs. destruct call as [key|key v|key]; simpl.
  - unfold config_get. destruct (ct_cache c !! full_key key ≫= read); [done|]. simpl.
    destruct (ct_backend c !! full_key key) as [s|] eqn:E; simpl; [|done]. split; [|done].
    by apply insert_subseteq_l.
  - split; [|done]. by apply insert_mono.
  - split; [|done]. by apply delete_mono.
Qed.

Theorem client_transparent `{HashOrder} m calls key :
  let c := foldl client_step (MkConfigClient ∅ m) calls in
  (config_get read c key).2 = plain_answer (foldl plain_step m calls) key.
Proof.
  simpl. assert (∀ c, ct_cache c ⊆ ct_backend c → ct_cache (foldl client_step c calls) ⊆ foldl plain_step (ct_backend c) calls ∧
    ct_backend (foldl client_step c calls) = foldl plain_step (ct_backend c) calls) as K.
  { induction calls as [|call calls IH]; intros c Hc; [done|]. simpl. destruct (client_step_inv c call Hc) as [Hs E].
    rewrite <-E. by apply IH. }
  destruct (K (MkConfigClient ∅ m) (map_empty_subseteq _)) as [Hs E]. simpl in Hs, E.
  unfold config_get, plain_answer. simpl. destruct (ct_cache _ !! full_key key) as [s|] eqn:Ec; simpl.
  - rewrite E. pose proof (lookup_weaken _ _ _ _ Ec Hs) as ->. by destruct (read s) eqn:Er; simpl; rewrite ?Er.
  - rewrite E. destruct (foldl plain_step m calls !! full_key key) as [s|]; simpl; [|done]. by destruct (read s).
Qed.

(** The keys listed are those stored under the prefix, without the part that all
    keys of settings have. *)
Lemma strip_prefix_inv p s r : strip_prefix p s = Some r → s = p +:+ r.
Proof.
  unfold strip_prefix. destruct (String.prefix p s) eqn:E; [|done]. intros [= <-]. revert s E.
  assert (∀ s, String.substring 0 (String.length s) s = s) as W by (induction s as [|c s IH]; simpl; congruence).
  induction p as [|c p IH]; intros s E.
  - rewrite str_app_nil_l. simpl. by rewrite Nat.sub_0_r, W.
  - destruct s as [|d s]; [done|]. simpl in E. destruct (Ascii.ascii_dec c d) as [<-|]; [|done].
    rewrite str_app_cons. f_equal. by apply IH.
Qed.

Theorem list_exact `{HashOrder} (m : gmap string string) cache prefix key :
  ∃ l, config_list (MkConfigClient cache m) prefix = Ok l ∧
    (key ∈ l ↔ is_Some (m !! full_key key) ∧ String.prefix (full_key prefix) (full_key key) = true).
Proof.
  unfold config_list. simpl. eexists. split; [done|]. rewrite list_elem_of_omap. split.
  - intros (k & Hk & E). apply elem_of_filter_bool in Hk as [Hp Hk]. apply elem_of_hash_keys in Hk.
    apply strip_prefix_inv in E as ->. done.
  - intros [Hm Hp]. exists (full_key key). split; [|apply strip_prefix_app].
    apply elem_of_filter_bool. split; [done|]. by apply elem_of_hash_keys.
Qed.
End Client.

(** ** Trees as settings *)

Fixpoint tree_depth (t : json_tree) : nat :=
  match t with
  | GenLeaf _ => 0
  | GenNode _ l => S ((fix go (l : list json_tree) := match l with [] => 0 | t :: l => max (tree_depth t) (go l) end) l)
  end.

#[export] Instance tree_maps : @JsonMaps json_trees.
Proof.
  refine {| as_map := tree_members : @Value json_trees → option (gmap string (@Value json_trees));
            of_map := λ m, tree_object (map_to_list m);
            depth := tree_depth |}.
  - intros m. change (tree_members (tree_object (map_to_list m)) = Some m).
    by rewrite tree_members_object, list_to_map_to_list.
  - done.
  - intros v m k x. destruct v as [s|[|n] l]; [done| |done]. intros [= <-] Hk.
    apply elem_of_list_to_map_2, list_elem_of_omap in Hk as (t & Ht & E).
    assert (tree_depth x < tree_depth t) as Hx.
    { unfold tree_entry in E. repeat case_match; simplify_eq. simpl. lia. }
    simpl. clear E. induction l as [|t' l IH]; [by apply not_elem_of_nil in Ht|].
    apply elem_of_cons in Ht as [<-|Ht]; [lia|]. specialize (IH Ht). lia.
Defined.

(** Settings that only look at the port. *)
#[export] Instance port_reader : @ConfigJson json_trees := {
  config_value _ := (tree_object [] : @Value json_trees);
  config_of_value v :=
    match @walk json_trees tree_maps v ["server"; "port"] with
    | Some (GenLeaf _) => Err "invalid type: string"
    | _ => Ok UHorseConfig_default
    end;
  toml_value _ := Err "not TOML"
}.
#[export] Instance port_reader_laws : @ConfigJsonLaws json_trees tree_maps port_reader.
Proof. split. intros v s c. simpl. intros E. change (@Value json_trees) with json_tree in *. rewrite E. done. Qed.

#[export] Instance plain_lower : ToLowercase := { to_lowercase := ascii_lower; to_lowercase_ascii s _ := eq_refl }.

Lemma port_override_breaks_loading_witness :
  ∃ e, @default_load json_trees tree_maps _ port_reader (Err "no file") [("PATH", "/bin"); ("OPENCLAW_SERVER_PORT", "8080")]
       = Some (Err e).
Proof.
  apply (@port_override_breaks_loading json_trees tree_maps canonical_order plain_lower port_reader port_reader_laws
    (Err "no file") [("PATH", "/bin"); ("OPENCLAW_SERVER_PORT", "8080")] "8080").
  - apply elem_of_cons. right. apply elem_of_cons. by left.
  - intros key value q Hin Hq. apply elem_of_cons in Hin as [E|Hin]; [by simplify_eq|].
    apply elem_of_cons in Hin as [E|Hin]; [|by apply not_elem_of_nil in Hin]. simplify_eq. left.
    vm_compute in Hq. by simplify_eq.
Defined.
