(* ===== verification/Cache.v ===== *)
(** Caches ([crates/uhorse-cache/src]) and the retry strategies of the queue
    ([crates/uhorse-queue/src/retry.rs]): the Redis wrapper, the black list of tokens
    and the cache of sessions, each over a local layer and an optional Redis.  The
    Redis server, the LRU container and the JSON texts are parameters. *)
From Stdlib Require Import SpecFloat.
From S2P Require Import Prelude Text Float32 Json Webhook.

(** ** Policies ([policy.rs]) *)

Inductive EvictionPolicy := LRU | LFU | FIFO | NoEviction.
Record CachePolicy := MkCachePolicy {
  cy_max_items : Z;
  cy_max_memory_bytes : Z;
  cy_default_ttl : Z;
  cy_eviction_policy : EvictionPolicy;
  cy_refresh_ttl_on_access : bool;
  cy_eviction_sample_size : Z
}.
Definition CachePolicy_default : CachePolicy := MkCachePolicy 10000 0 300 LRU true 10.
Definition with_max_items (n : Z) (p : CachePolicy) : CachePolicy :=
  MkCachePolicy n (cy_max_memory_bytes p) (cy_default_ttl p) (cy_eviction_policy p) (cy_refresh_ttl_on_access p)
    (cy_eviction_sample_size p).
Definition with_max_memory (n : Z) (p : CachePolicy) : CachePolicy :=
  MkCachePolicy (cy_max_items p) n (cy_default_ttl p) (cy_eviction_policy p) (cy_refresh_ttl_on_access p)
    (cy_eviction_sample_size p).
Definition with_ttl (n : Z) (p : CachePolicy) : CachePolicy :=
  MkCachePolicy (cy_max_items p) (cy_max_memory_bytes p) n (cy_eviction_policy p) (cy_refresh_ttl_on_access p)
    (cy_eviction_sample_size p).
Definition with_eviction_policy (e : EvictionPolicy) (p : CachePolicy) : CachePolicy :=
  MkCachePolicy (cy_max_items p) (cy_max_memory_bytes p) (cy_default_ttl p) e (cy_refresh_ttl_on_access p)
    (cy_eviction_sample_size p).
Definition with_refresh_ttl (b : bool) (p : CachePolicy) : CachePolicy :=
  MkCachePolicy (cy_max_items p) (cy_max_memory_bytes p) (cy_default_ttl p) (cy_eviction_policy p) b
    (cy_eviction_sample_size p).

(** Times in nanoseconds. *)
Record CacheEntryMeta := MkCacheEntryMeta {
  em_created_at : timestamp;
  em_expires_at : option timestamp;
  em_access_count : Z;
  em_last_accessed_at : timestamp;
  em_size_bytes : Z
}.
Definition CacheEntryMeta_new (now : timestamp) (ttl : option duration) : CacheEntryMeta :=
  MkCacheEntryMeta now ((λ d, now + d)%Z <$> ttl) 0 now 0.
Definition entry_expired (now : timestamp) (m : CacheEntryMeta) : bool :=
  match em_expires_at m with Some e => bool_decide (e < now)%Z | None => false end.
Definition record_access (now : timestamp) (m : CacheEntryMeta) : CacheEntryMeta :=
  MkCacheEntryMeta (em_created_at m) (em_expires_at m) (wrap 64 (em_access_count m + 1)) now (em_size_bytes m).
Definition remaining_ttl (now : timestamp) (m : CacheEntryMeta) : option duration :=
  (λ e, Z.max 0 (e - now)) <$> em_expires_at m.

(** ** Redis ([redis.rs]) *)

(** A server, whose state also changes by itself; durations in seconds. *)
Class RedisServer (R : Type) := {
  rd_connect : R → R * Result unit string;
  rd_get : R → string → R * Result (option string) string;
  rd_setex : R → string → string → Z → R * Result unit string;
  rd_del : R → list string → R * Result Z string;
  rd_exists : R → string → R * Result bool string;
  rd_expire : R → string → Z → R * Result Z string;
  rd_ttl : R → string → R * Result Z string;
  rd_incr : R → string → R * Result Z string;
  rd_keys : R → string → R * Result (list string) string
}.

Record RedisCache := MkRedisCache { rc_policy : CachePolicy; rc_key_prefix : string }.
Definition RedisCache_new (p : CachePolicy) : RedisCache := MkRedisCache p "uhorse:".
Definition with_prefix (prefix : string) (c : RedisCache) : RedisCache := MkRedisCache (rc_policy c) prefix.
Definition build_key (c : RedisCache) (key : string) : string := rc_key_prefix c +:+ key.

Section Redis.
Context `{RedisServer R}.
Implicit Types (c : RedisCache) (r : R).

(** Every call connects first. *)
Definition connected {A} (r : R) (k : R → R * Result A string) : R * Result A string :=
  match rd_connect r with
  | (r, Err e) => (r, Err ("Failed to get Redis connection: " +:+ e))
  | (r, Ok _) => k r
  end.
Definition redis_error {A} (text : string) (x : R * Result A string) : R * Result A string :=
  match x with (r, Err e) => (r, Err (text +:+ e)) | _ => x end.

(** A hit sets the time to live to the default one, when the policy says so; that
    it fails is only logged. *)
Definition redis_get c key r : R * Result (option string) string :=
  connected r (λ r,
    match rd_get r (build_key c key) with
    | (r, Ok (Some v)) =>
        if cy_refresh_ttl_on_access (rc_policy c) then
          ((rd_expire r (build_key c key) (cy_default_ttl (rc_policy c))).1, Ok (Some v))
        else (r, Ok (Some v))
    | (r, Ok None) => (r, Ok None)
    | (r, Err e) => (r, Err ("Redis get error: " +:+ e))
    end).
Definition redis_set_with_ttl c key (value : string) (ttl : Z) r : R * Result unit string :=
  connected r (λ r, redis_error "Redis set error: " (rd_setex r (build_key c key) value ttl)).
Definition redis_set c key (value : string) r : R * Result unit string :=
  redis_set_with_ttl c key value (cy_default_ttl (rc_policy c)) r.
(** Reading a text does not touch the time to live. *)
Definition get_string c key r : R * Result (option string) string :=
  connected r (λ r, redis_error "Redis get string error: " (rd_get r (build_key c key))).
Definition set_string_with_ttl c key (value : string) (ttl : Z) r : R * Result unit string :=
  connected r (λ r, redis_error "Redis set string error: " (rd_setex r (build_key c key) value ttl)).
Definition set_string c key (value : string) r : R * Result unit string :=
  set_string_with_ttl c key value (cy_default_ttl (rc_policy c)) r.
Definition redis_delete c key r : R * Result bool string :=
  connected r (λ r,
    match rd_del r [build_key c key] with
    | (r, Ok n) => (r, Ok (bool_decide (0 < n)%Z))
    | (r, Err e) => (r, Err ("Redis delete error: " +:+ e))
    end).
Definition redis_exists c key r : R * Result bool string :=
  connected r (λ r, redis_error "Redis exists error: " (rd_exists r (build_key c key))).
Definition redis_expire c key (ttl : Z) r : R * Result bool string :=
  connected r (λ r,
    match rd_expire r (build_key c key) ttl with
    | (r, Ok n) => (r, Ok (bool_decide (n = 1%Z)))
    | (r, Err e) => (r, Err ("Redis expire error: " +:+ e))
    end).
Definition redis_ttl c key r : R * Result (option Z) string :=
  connected r (λ r,
    match rd_ttl r (build_key c key) with
    | (r, Ok n) => (r, Ok (if bool_decide (n < 0)%Z then None else Some n))
    | (r, Err e) => (r, Err ("Redis TTL error: " +:+ e))
    end).
Definition redis_incr c key r : R * Result Z string :=
  connected r (λ r, redis_error "Redis incr error: " (rd_incr r (build_key c key))).
Definition incr_with_expiry c key (ttl : Z) r : R * Result Z string :=
  match redis_incr c key r with
  | (r, Ok n) =>
      if bool_decide (n = 1%Z) then
        match redis_expire c key ttl r with (r, Ok _) => (r, Ok n) | (r, Err e) => (r, Err e) end
      else (r, Ok n)
  | (r, Err e) => (r, Err e)
  end.
Definition delete_pattern c pattern r : R * Result Z string :=
  connected r (λ r,
    match rd_keys r (build_key c pattern) with
    | (r, Ok []) => (r, Ok 0%Z)
    | (r, Ok keys) => redis_error "Redis delete pattern error: " (rd_del r keys)
    | (r, Err e) => (r, Err ("Redis KEYS error: " +:+ e))
    end).
End Redis.

(** ** The black list of tokens ([token_blacklist.rs]) *)

(** Times in seconds. *)
Record BlacklistedToken := MkBlacklistedToken {
  bt_token_id : string;
  bt_tenant_id : string;
  bt_reason : string;
  bt_blacklisted_at : Z;
  bt_expires_at : Z
}.
Definition BlacklistedToken_new (now : Z) (id tenant reason : string) (expires_in : Z) : BlacklistedToken :=
  MkBlacklistedToken id tenant reason now (now + expires_in).
Definition blacklisting_expired (now : Z) (t : BlacklistedToken) : bool := bool_decide (bt_expires_at t < now)%Z.

(** The JSON texts of what is stored. *)
Class StoredJson (A : Type) := { to_bytes : A → Result string string; from_bytes : string → Result A string }.

Section Blacklist.
Context `{RedisServer R, StoredJson BlacklistedToken}.

(** The local layer, the server when there is one, and the time to live of tokens
    that have none left. *)
Record TokenBlacklist := MkTokenBlacklist {
  tb_local : gset string;
  tb_redis : option RedisCache;
  tb_policy : CachePolicy;
  tb_default_ttl : Z
}.
Definition TokenBlacklist_new_local (p : CachePolicy) : TokenBlacklist := MkTokenBlacklist ∅ None p 86400.
Definition TokenBlacklist_new_with_redis (c : RedisCache) (p : CachePolicy) : TokenBlacklist :=
  MkTokenBlacklist ∅ (Some c) p 86400.
Definition with_default_ttl (ttl : Z) (b : TokenBlacklist) : TokenBlacklist :=
  MkTokenBlacklist (tb_local b) (tb_redis b) (tb_policy b) ttl.
Definition set_local (b : TokenBlacklist) (l : gset string) : TokenBlacklist :=
  MkTokenBlacklist l (tb_redis b) (tb_policy b) (tb_default_ttl b).
Definition blacklist_key (id : string) : string := "blacklist:" +:+ id.

Definition blacklist_add (now : Z) (b : TokenBlacklist) (t : BlacklistedToken) (r : R)
    : R * TokenBlacklist * Result unit string :=
  let ttl := Z.max 0 (bt_expires_at t - now) in
  let b' := set_local b (tb_local b ∪ {[bt_token_id t]}) in
  match tb_redis b with
  | None => (r, b', Ok tt)
  | Some c =>
      match to_bytes t with
      | Err e => (r, b', Err e)
      | Ok data =>
          let '(r, x) := redis_set_with_ttl c (blacklist_key (bt_token_id t)) data
                           (if bool_decide (ttl = 0%Z) then tb_default_ttl b else ttl) r in
          (r, b', x)
      end
  end.

Definition is_blacklisted (b : TokenBlacklist) (id : string) (r : R) : R * TokenBlacklist * Result bool string :=
  if bool_decide (id ∈ tb_local b) then (r, b, Ok true)
  else match tb_redis b with
       | None => (r, b, Ok false)
       | Some c =>
           match redis_exists c (blacklist_key id) r with
           | (r, Ok true) => (r, set_local b (tb_local b ∪ {[id]}), Ok true)
           | (r, Ok false) => (r, b, Ok false)
           | (r, Err e) => (r, b, Err e)
           end
       end.

Definition blacklist_remove (b : TokenBlacklist) (id : string) (r : R) : R * TokenBlacklist * Result bool string :=
  let removed := bool_decide (id ∈ tb_local b) in
  let b' := set_local b (tb_local b ∖ {[id]}) in
  match tb_redis b with
  | None => (r, b', Ok removed)
  | Some c =>
      match redis_delete c (blacklist_key id) r with
      | (r, Ok d) => (r, b', Ok (d || removed))
      | (r, Err e) => (r, b', Err e)
      end
  end.

(** Only the server holds the details. *)
Definition blacklist_get (b : TokenBlacklist) (id : string) (r : R) : R * Result (option BlacklistedToken) string :=
  match tb_redis b with
  | None => (r, Ok None)
  | Some c =>
      match redis_get c (blacklist_key id) r with
      | (r, Ok (Some data)) => (r, match from_bytes data with Ok t => Ok (Some t) | Err e => Err e end)
      | (r, Ok None) => (r, Ok None)
      | (r, Err e) => (r, Err e)
      end
  end.
(** The clean-up of expired entries removes nothing. *)
Definition blacklist_cleanup (b : TokenBlacklist) : TokenBlacklist * Z := (b, 0%Z).
Definition blacklist_stats (b : TokenBlacklist) : Z * Z := (Z.of_nat (size (tb_local b)), cy_max_items (tb_policy b)).
Definition blacklist_clear (b : TokenBlacklist) (r : R) : R * TokenBlacklist * Result Z string :=
  let count := Z.of_nat (size (tb_local b)) in
  match tb_redis b with
  | None => (r, set_local b ∅, Ok count)
  | Some c =>
      match delete_pattern c "blacklist:*" r with
      | (r, Ok n) => (r, set_local b ∅, Ok (count + n)%Z)
      | (r, Err e) => (r, set_local b ∅, Err e)
      end
  end.
End Blacklist.

(** ** Sessions ([session.rs]) *)

(** The container of the [lru] crate: the most recent entries, up to a capacity. *)
Class Lru (L V : Type) := {
  lru_new : Z → L;
  lru_put : L → string → V → L;
  (** [get_mut], with the change made through it. *)
  lru_update : L → string → (V → V) → L * option V;
  lru_pop : L → string → L;
  lru_contains : L → string → bool;
  lru_entries : L → list (string * V)
}.

Section CachedSessions.
Context `{JsonValue, RedisServer R}.

Record SessionData := MkSessionData {
  sn_session_id : string;
  sn_tenant_id : string;
  sn_metadata : Value;
  sn_created_at : Z;
  sn_last_accessed_at : Z
}.
Definition SessionData_new (now : Z) (id tenant : string) : SessionData :=
  MkSessionData id tenant (json_object []) now now.
Definition with_session_metadata (v : Value) (s : SessionData) : SessionData :=
  MkSessionData (sn_session_id s) (sn_tenant_id s) v (sn_created_at s) (sn_last_accessed_at s).
Definition touch_session (now : Z) (s : SessionData) : SessionData :=
  MkSessionData (sn_session_id s) (sn_tenant_id s) (sn_metadata s) (sn_created_at s) now.

Context `{!Lru L SessionData, !StoredJson SessionData}.

Record CachedSessions := MkSessionCache {
  sh_local : L;
  sh_redis : option RedisCache;
  sh_policy : CachePolicy;
  sh_session_ttl : Z
}.
(** A capacity of 0 becomes 1000. *)
Definition lru_capacity (p : CachePolicy) : Z := if bool_decide (cy_max_items p = 0%Z) then 1000 else cy_max_items p.
Definition CachedSessions_new (redis : option RedisCache) (p : CachePolicy) : CachedSessions :=
  MkSessionCache (lru_new (lru_capacity p)) redis p 3600.
Definition with_session_ttl (ttl : Z) (c : CachedSessions) : CachedSessions :=
  MkSessionCache (sh_local c) (sh_redis c) (sh_policy c) ttl.
Definition set_sh_local (c : CachedSessions) (l : L) : CachedSessions :=
  MkSessionCache l (sh_redis c) (sh_policy c) (sh_session_ttl c).
Definition session_cache_key (id : string) : string := "session:" +:+ id.

Definition cached_session_set (c : CachedSessions) (s : SessionData) (r : R) : R * CachedSessions * Result unit string :=
  let c' := set_sh_local c (lru_put (sh_local c) (sn_session_id s) s) in
  match sh_redis c with
  | None => (r, c', Ok tt)
  | Some rc =>
      match to_bytes s with
      | Err e => (r, c', Err e)
      | Ok data =>
          let '(r, x) := redis_set_with_ttl rc (session_cache_key (sn_session_id s)) data (sh_session_ttl c) r in
          (r, c', x)
      end
  end.

Definition cached_session_get (now : Z) (c : CachedSessions) (id : string) (r : R)
    : R * CachedSessions * Result (option SessionData) string :=
  match lru_update (sh_local c) id (touch_session now) with
  | (l, Some s) => (r, set_sh_local c l, Ok (Some s))
  | (l, None) =>
      let c := set_sh_local c l in
      match sh_redis c with
      | None => (r, c, Ok None)
      | Some rc =>
          match redis_get rc (session_cache_key id) r with
          | (r, Ok (Some data)) =>
              match from_bytes data with
              | Err e => (r, c, Err e)
              | Ok s =>
                  let s := touch_session now s in
                  (r, set_sh_local c (lru_put (sh_local c) id s), Ok (Some s))
              end
          | (r, Ok None) => (r, c, Ok None)
          | (r, Err e) => (r, c, Err e)
          end
      end
  end.

(** The answer is always that a session was deleted. *)
Definition cached_session_delete (c : CachedSessions) (id : string) (r : R) : R * CachedSessions * Result bool string :=
  let c' := set_sh_local c (lru_pop (sh_local c) id) in
  match sh_redis c with
  | None => (r, c', Ok true)
  | Some rc =>
      match redis_delete rc (session_cache_key id) r with
      | (r, Ok _) => (r, c', Ok true)
      | (r, Err e) => (r, c', Err e)
      end
  end.
Definition cached_session_exists (c : CachedSessions) (id : string) (r : R) : R * Result bool string :=
  if lru_contains (sh_local c) id then (r, Ok true)
  else match sh_redis c with
       | None => (r, Ok false)
       | Some rc => redis_exists rc (session_cache_key id) r
       end.
Definition cached_session_refresh (now : Z) (c : CachedSessions) (id : string) (r : R) : R * CachedSessions * Result bool string :=
  let c' := set_sh_local c (lru_update (sh_local c) id (touch_session now)).1 in
  match sh_redis c with
  | None => (r, c', Ok true)
  | Some rc => let '(r, x) := redis_expire rc (session_cache_key id) (sh_session_ttl c) r in (r, c', x)
  end.

(** The sessions of a tenant in the local layer. *)
Definition get_tenant_sessions (c : CachedSessions) (tenant : string) : list string :=
  sn_session_id <$> List.filter (λ s, bool_decide (sn_tenant_id s = tenant)) (lru_entries (sh_local c)).*2.
Fixpoint delete_each (c : CachedSessions) (ids : list string) (r : R) : R * CachedSessions * Result unit string :=
  match ids with
  | [] => (r, c, Ok tt)
  | id :: ids =>
      match cached_session_delete c id r with
      | (r, c, Ok _) => delete_each c ids r
      | (r, c, Err e) => (r, c, Err e)
      end
  end.
Definition delete_tenant_sessions (c : CachedSessions) (tenant : string) (r : R) : R * CachedSessions * Result Z string :=
  let ids := get_tenant_sessions c tenant in
  match delete_each c ids r with
  | (r, c, Ok _) => (r, c, Ok (zlen ids))
  | (r, c, Err e) => (r, c, Err e)
  end.
End CachedSessions.

(** ** Durations as floats *)

Definition f64_sub (x y : f64) : f64 := SFsub 53 1024 x y.
(** [x as i32] for an unsigned 32-bit number. *)
Definition as_i32 (z : Z) : Z := if bool_decide (z < 2 ^ 31)%Z then z else (z - 2 ^ 32)%Z.

(** ** Retry strategies of the queue ([uhorse-queue/src/retry.rs]) *)

(** [Duration::as_secs_f64]. *)
Definition as_secs_f64 (d : duration) : f64 :=
  f64_add (f64_of_Z (d / nanos_per_sec)) (f64_div (f64_of_Z (d mod nanos_per_sec)) (f64_of_Z nanos_per_sec)).
(** The nearest integer to [a / b], the even one when two are. *)
Definition div_nearest (a b : Z) : Z :=
  let q := (a / b)%Z in
  let r := (2 * (a mod b))%Z in
  if bool_decide (r < b)%Z || (bool_decide (r = b) && Z.even q) then q else (q + 1)%Z.
(** [Duration::from_secs_f64]: to the nearest nanosecond; [None] is the panic of a
    negative number, one that is too large, or none at all. *)
Definition from_secs_f64 (x : f64) : option duration :=
  match x with
  | S754_zero _ => Some 0%Z
  | S754_finite false m e =>
      let n := if bool_decide (0 ≤ e)%Z then (Zpos m * nanos_per_sec * 2 ^ e)%Z
               else div_nearest (Zpos m * nanos_per_sec) (2 ^ (- e)) in
      if bool_decide (n / nanos_per_sec ≤ u64_max)%Z then Some n else None
  | _ => None
  end.

Inductive RetryStrategy :=
| NoRetry
| FixedRetry (interval : duration) (max_retries : Z)
| ExponentialBackoff (initial_interval : duration) (multiplier : f64) (max_interval : duration) (max_retries : Z)
| CustomRetry (intervals : list duration).
Definition exponential_backoff (max_retries : Z) : RetryStrategy :=
  ExponentialBackoff (millis 100) (f64_of_Z 2) (seconds 60) max_retries.
Definition RetryStrategy_default : RetryStrategy := exponential_backoff 3.

(** The outer option is a panic. *)
Definition get_delay `{Powi} (s : RetryStrategy) (attempt : Z) : option (option duration) :=
  match s with
  | NoRetry => Some None
  | FixedRetry interval max => Some (if bool_decide (attempt < max)%Z then Some interval else None)
  | ExponentialBackoff initial multiplier cap max =>
      if bool_decide (attempt < max)%Z then
        let delay := f64_mul (as_secs_f64 initial) (powi multiplier (as_i32 attempt)) in
        Some <$> from_secs_f64 (f32_min delay (as_secs_f64 cap))
      else Some None
  | CustomRetry intervals => Some (intervals !! Z.to_nat attempt)
  end.
Definition has_retry `{Powi} (s : RetryStrategy) (attempt : Z) : option bool :=
  (λ d, bool_decide (is_Some d)) <$> get_delay s attempt.
Definition strategy_max_retries (s : RetryStrategy) : Z :=
  match s with
  | NoRetry => 0
  | FixedRetry _ max | ExponentialBackoff _ _ _ max => max
  | CustomRetry intervals => wrap 32 (zlen intervals)
  end.

Record QueueRetryPolicy := MkQueueRetryPolicy { qr_strategy : RetryStrategy; qr_jitter : f64 }.
Definition QueueRetryPolicy_new : QueueRetryPolicy := MkQueueRetryPolicy RetryStrategy_default (f64_lit 1 10).
Definition with_strategy (s : RetryStrategy) (p : QueueRetryPolicy) : QueueRetryPolicy :=
  MkQueueRetryPolicy s (qr_jitter p).
(** [clamp] between 0 and 1 leaves NaN. *)
Definition with_jitter (j : f64) (p : QueueRetryPolicy) : QueueRetryPolicy :=
  MkQueueRetryPolicy (qr_strategy p)
    (if SFltb j f32_zero then f32_zero else if SFltb (f64_of_Z 1) j then f64_of_Z 1 else j).
(** [random] is drawn from 0 to 1. *)
Definition retry_delay `{Powi} (p : QueueRetryPolicy) (attempt : Z) (random : f64) : option (option duration) :=
  match get_delay (qr_strategy p) attempt with
  | None => None
  | Some None => Some None
  | Some (Some base) =>
      let factor := f64_add (f64_sub (f64_of_Z 1) (f64_div (qr_jitter p) (f64_of_Z 2))) (f64_mul random (qr_jitter p)) in
      Some <$> from_secs_f64 (f64_mul (as_secs_f64 base) factor)
  end.

(** * Theorems *)

(** ** The black list *)

Section LocalBlacklist.
Context `{RedisServer R, StoredJson BlacklistedToken}.

Inductive blacklist_op := BlAdd (now : Z) (t : BlacklistedToken) | BlRemove (id : string) | BlCheck (id : string) | BlCleanup | BlClear.
Definition blacklist_step (x : R * TokenBlacklist) (op : blacklist_op) : R * TokenBlacklist :=
  match op with
  | BlAdd now t => (blacklist_add now x.2 t x.1).1
  | BlRemove id => (blacklist_remove x.2 id x.1).1
  | BlCheck id => (is_blacklisted x.2 id x.1).1
  | BlCleanup => (x.1, (blacklist_cleanup x.2).1)
  | BlClear => (blacklist_clear x.2 x.1).1
  end.
Definition listed_after (id : string) (listed : bool) (op : blacklist_op) : bool :=
  match op with
  | BlAdd _ t => if bool_decide (bt_token_id t = id) then true else listed
  | BlRemove id' => if bool_decide (id' = id) then false else listed
  | BlClear => false
  | _ => listed
  end.

(** Without a server a token is listed exactly when the last word on it was that it
    is; that it expired, or that the clean-up ran, makes no difference. *)
Theorem local_blacklist_exact p ops r id :
  let '(r', b) := foldl blacklist_step (r, TokenBlacklist_new_local p) ops in
  is_blacklisted b id r' = (r', b, Ok (foldl (listed_after id) false ops)).
Proof.
  assert (∀ x, tb_redis x.2 = None →
    let '(r', b) := foldl blacklist_step x ops in
    is_blacklisted b id r' = (r', b, Ok (foldl (listed_after id) (bool_decide (id ∈ tb_local x.2)) ops))) as K.
  { induction ops as [|op ops IH]; intros [r0 b] Hn; simpl in *.
    - unfold is_blacklisted. rewrite Hn. by case_bool_decide.
    - assert (tb_redis (blacklist_step (r0, b) op).2 = None ∧
        bool_decide (id ∈ tb_local (blacklist_step (r0, b) op).2) = listed_after id (bool_decide (id ∈ tb_local b)) op) as [En E].
      { destruct op as [now t|id'|id'| |]; simpl;
          unfold blacklist_add, blacklist_remove, is_blacklisted, blacklist_clear; simpl; rewrite ?Hn; simpl.
        - split; [done|]. repeat case_bool_decide; set_solver.
        - split; [done|]. repeat case_bool_decide; set_solver.
        - case_bool_decide; done.
        - done.
        - split; [done|]. by apply bool_decide_eq_false_2, not_elem_of_empty. }
      specialize (IH (blacklist_step (r0, b) op) En). by rewrite E in IH. }
  specialize (K (r, TokenBlacklist_new_local p) eq_refl). simpl in K. by rewrite bool_decide_eq_false_2 in K by apply not_elem_of_empty.
Qed.

(** A token found once stays listed here: the server is not asked again, so a
    removal elsewhere is not seen. *)
Theorem local_listing_hides_server b id r r' b' r2 :
  is_blacklisted b id r = (r', b', Ok true) → is_blacklisted b' id r2 = (r2, b', Ok true).
Proof.
  intros E. assert (id ∈ tb_local b') as Hin; [|unfold is_blacklisted; by rewrite bool_decide_true].
  revert E. unfold is_blacklisted. case_bool_decide; [by intros [= _ <-]|]. destruct (tb_redis b) as [c|]; [|done].
  destruct (redis_exists c _ r) as [r1 [[]|e]]; [|done..]. intros [= _ <-]. simpl. set_solver.
Qed.

(** A token whose time is over is listed on the server for the default time. *)
Theorem expired_token_listed_anew now b c t data r :
  tb_redis b = Some c → (bt_expires_at t ≤ now)%Z → to_bytes t = Ok data →
  (blacklist_add now b t r).1.1 =
  (redis_set_with_ttl c (blacklist_key (bt_token_id t)) data (tb_default_ttl b) r).1.
Proof.
  intros Hc He Hd. unfold blacklist_add. rewrite Hc, Hd, Z.max_l, bool_decide_true by (done || lia).
  by destruct (redis_set_with_ttl _ _ _ _ _).
Qed.
End LocalBlacklist.

(** ** Times to live *)

(** What Redis documents: connecting and reading leave the times to live alone, and
    [EXPIRE] sets one from now. *)
Class RedisLaws (R : Type) `{!RedisServer R} := {
  rd_now : R → Z;
  rd_deadline : R → string → option Z;
  rd_connect_keeps r r' : rd_connect r = (r', Ok tt) → rd_deadline r' = rd_deadline r;
  rd_get_keeps r k r' x : rd_get r k = (r', x) → rd_deadline r' = rd_deadline r;
  rd_setex_sets r k v ttl r' : rd_setex r k v ttl = (r', Ok tt) → rd_deadline r' k = Some (rd_now r' + ttl)%Z;
  rd_expire_sets r k ttl r' : rd_expire r k ttl = (r', Ok 1%Z) → rd_deadline r' k = Some (rd_now r' + ttl)%Z
}.

Section TimesToLive.
Context `{RedisLaws R}.

(** With the default policy, reading a value from the server gives it the default
    time to live, whatever it was stored with: a session stored for an hour, or a
    listing stored until its token expires, is gone five minutes after it is read. *)
Theorem reading_resets_ttl c key r r' v :
  cy_refresh_ttl_on_access (rc_policy c) = true → redis_get c key r = (r', Ok (Some v)) →
  (∀ r1 r2 n, rd_expire r1 (build_key c key) (cy_default_ttl (rc_policy c)) = (r2, n) → n = Ok 1%Z) →
  rd_deadline r' (build_key c key) = Some (rd_now r' + cy_default_ttl (rc_policy c))%Z.
Proof.
  intros Hp. unfold redis_get, connected. destruct (rd_connect r) as [r1 [[]|e]]; [|done].
  destruct (rd_get r1 (build_key c key)) as [r2 [[x|]|e]]; [|done..]. rewrite Hp. intros [= <- _] He.
  destruct (rd_expire r2 _ _) as [r3 n] eqn:Ee. simpl. rewrite (He _ _ _ Ee) in Ee. by eapply rd_expire_sets.
Qed.
End TimesToLive.

(** ** Sessions *)

(** What the container promises: what was put last is there, what was taken out is
    not, and changing a value changes only it. *)
Class LruLaws (L V : Type) `{!Lru L V} := {
  lru_put_update l k v f : (lru_update (lru_put l k v) k f).2 = Some (f v);
  lru_put_contains l k v : lru_contains (lru_put l k v) k = true;
  lru_pop_update l k f : lru_update (lru_pop l k) k f = (lru_pop l k, None);
  lru_contains_update l k f : lru_contains l k = true ↔ is_Some (lru_update l k f).2
}.

Section Sessions.
Context `{JV : JsonValue, RedisServer R, LL : LruLaws L SessionData, !StoredJson SessionData}.

(** A session that was set is found, whatever the server does with it. *)
Theorem set_then_get_session now (c : CachedSessions) s r r1 c1 x :
  cached_session_set c s r = (r1, c1, x) →
  (cached_session_get now c1 (sn_session_id s) r1).2 = Ok (Some (touch_session now s)).
Proof.
  intros E. assert (sh_local c1 = lru_put (sh_local c) (sn_session_id s) s) as El.
  { revert E. unfold cached_session_set. destruct (sh_redis c) as [rc|]; [|by intros [= _ <- _]].
    destruct (to_bytes s); [destruct (redis_set_with_ttl _ _ _ _ _)|]; by intros [= _ <- _]. }
  unfold cached_session_get. rewrite El. pose proof (lru_put_update (sh_local c) (sn_session_id s) s (touch_session now)) as P.
  by destruct (lru_update _ _ _) as [l [y|]]; simplify_eq/=.
Qed.

(** A session in the local layer never ends: the time to live only counts on the
    server, which is not asked. *)
Theorem local_session_hides_server now (c : CachedSessions) id r :
  lru_contains (sh_local c) id = true →
  ∃ c' s, cached_session_get now c id r = (r, c', Ok (Some s)) ∧ cached_session_exists c id r = (r, Ok true).
Proof.
  intros Hc. pose proof (proj1 (lru_contains_update _ _ (touch_session now)) Hc) as [s Hs].
  unfold cached_session_get, cached_session_exists. rewrite Hc. destruct (lru_update _ _ _) as [l o]. simpl in Hs. rewrite Hs. eauto.
Qed.

(** Without a server a deleted session is gone, and deleting what is not there, or
    refreshing it, answers the same. *)
Theorem local_delete now (c : CachedSessions) id r :
  sh_redis c = None →
  let '(r1, c1, x) := cached_session_delete c id r in
  x = Ok true ∧ (cached_session_get now c1 id r1).2 = Ok None ∧ (cached_session_refresh now c1 id r1).2 = Ok true.
Proof.
  intros Hn. unfold cached_session_delete. rewrite Hn. split; [done|]. unfold cached_session_get, cached_session_refresh. simpl.
  rewrite lru_pop_update. simpl. by rewrite Hn.
Qed.

(** When the server fails, the session is gone here and stays there. *)
Theorem failed_delete_keeps_remote now (c : CachedSessions) rc id r r1 e :
  sh_redis c = Some rc → redis_delete rc (session_cache_key id) r = (r1, Err e) →
  ∃ c1, cached_session_delete c id r = (r1, c1, Err e) ∧ lru_update (sh_local c1) id (touch_session now) = (sh_local c1, None).
Proof.
  intros Hr Hd. unfold cached_session_delete. rewrite Hr, Hd. eexists. split; [done|]. simpl. apply lru_pop_update.
Qed.

(** The sessions of a tenant that are only on the server survive the deletion of
    all sessions of the tenant: the server is not even called. *)
Theorem remote_sessions_survive (c : CachedSessions) tenant r :
  Forall (λ s, sn_tenant_id s ≠ tenant) (lru_entries (sh_local c)).*2 →
  delete_tenant_sessions c tenant r = (r, c, Ok 0%Z).
Proof.
  intros Hf. unfold delete_tenant_sessions, get_tenant_sessions.
  assert (List.filter (λ s, bool_decide (sn_tenant_id s = tenant)) (lru_entries (sh_local c)).*2 = []) as ->; [|done].
  induction Hf as [|s l Hs Hf IH]; [done|]. simpl. by rewrite bool_decide_false.
Qed.
End Sessions.

(** ** Retries *)

(** Where no delay panics there are exactly the retries allowed. *)
Theorem has_retry_exact `{Powi} s attempt b :
  (0 ≤ attempt)%Z → (∀ l, s = CustomRetry l → zlen l < 2 ^ 32)%Z → has_retry s attempt = Some b →
  b = bool_decide (attempt < strategy_max_retries s)%Z.
Proof.
  intros Ha Hl. unfold has_retry. destruct s as [|i m|i mu c m|l]; simpl.
  - intros [= <-]. rewrite (bool_decide_false (attempt < 0)%Z) by lia. done.
  - destruct (bool_decide (attempt < m)%Z); by intros [= <-].
  - destruct (bool_decide (attempt < m)%Z); [|by intros [= <-]]. destruct (from_secs_f64 _); [by intros [= <-]|done].
  - intros [= <-]. specialize (Hl l eq_refl). unfold wrap. rewrite Z.mod_small by (unfold zlen in *; lia).
    apply bool_decide_ext. rewrite lookup_lt_is_Some. unfold zlen. split; lia.
Qed.

(** A negative multiplier, or one that is no number, makes an exponential backoff
    panic; the fixed and listed intervals never do. *)
Theorem delay_panics_only_exponential `{Powi} s attempt :
  get_delay s attempt = None → ∃ i m c k, s = ExponentialBackoff i m c k ∧ (attempt < k)%Z.
Proof.
  destruct s as [|i m|i mu c m|l]; simpl; try done; case_bool_decide; try done. intros _. eauto 10.
Qed.

(** *** The default strategy *)

Definition repeated_product : Powi := λ x n, Nat.iter (Z.to_nat n) (f64_mul x) (f64_of_Z 1).
Example default_delays :
  (λ n, @get_delay repeated_product RetryStrategy_default n) <$> [0; 1; 2; 3]%Z =
  [Some (Some (millis 100)); Some (Some (millis 200)); Some (Some (millis 400)); Some None].
Proof. vm_compute. reflexivity. Qed.
