(* ===== verification/Siem.v ===== *)
(** Security events ([crates/uhorse-siem/src]): the alert rules with their counters,
    the export of audit events and the clients of Splunk and Datadog.  The JSON
    texts, the formatted dates and the outcomes of requests are parameters. *)
From S2P Require Import Prelude Text Json.

Inductive SiemError :=
| SiemExport (m : string) | SiemSplunk (m : string) | SiemDatadog (m : string) | SiemAlert (m : string)
| SiemSerialization (m : string) | SiemHttp (m : string) | SiemIo (m : string).
Definition SiemError_display (e : SiemError) : string :=
  match e with
  | SiemExport m => "Export error: " +:+ m
  | SiemSplunk m => "Splunk error: " +:+ m
  | SiemDatadog m => "Datadog error: " +:+ m
  | SiemAlert m => "Alert error: " +:+ m
  | SiemSerialization m => "Serialization error: " +:+ m
  | SiemHttp m => "HTTP error: " +:+ m
  | SiemIo m => "IO error: " +:+ m
  end.

(** ** Audit events and their export ([export.rs]) *)

Section Exports.
Context `{JsonValue}.

Record AuditEvent := MkAuditEvent {
  ae_id : string;
  ae_timestamp : timestamp;
  ae_event_type : string;
  ae_tenant_id : string;
  ae_actor : string;
  ae_resource : string;
  ae_action : string;
  ae_result : string;
  ae_details : gmap string Value;
  ae_ip_address : option string;
  ae_user_agent : option string;
  ae_signature : option string
}.
Definition AuditEvent_new (uuid : string) (now : timestamp) (event_type tenant actor resource action : string) : AuditEvent :=
  MkAuditEvent uuid now event_type tenant actor resource action "success" ∅ None None None.
Definition with_result (x : string) (e : AuditEvent) : AuditEvent :=
  MkAuditEvent (ae_id e) (ae_timestamp e) (ae_event_type e) (ae_tenant_id e) (ae_actor e) (ae_resource e) (ae_action e) x
    (ae_details e) (ae_ip_address e) (ae_user_agent e) (ae_signature e).
Definition with_ip (x : string) (e : AuditEvent) : AuditEvent :=
  MkAuditEvent (ae_id e) (ae_timestamp e) (ae_event_type e) (ae_tenant_id e) (ae_actor e) (ae_resource e) (ae_action e)
    (ae_result e) (ae_details e) (Some x) (ae_user_agent e) (ae_signature e).
Definition with_user_agent (x : string) (e : AuditEvent) : AuditEvent :=
  MkAuditEvent (ae_id e) (ae_timestamp e) (ae_event_type e) (ae_tenant_id e) (ae_actor e) (ae_resource e) (ae_action e)
    (ae_result e) (ae_details e) (ae_ip_address e) (Some x) (ae_signature e).
Definition add_detail (key : string) (v : Value) (e : AuditEvent) : AuditEvent :=
  MkAuditEvent (ae_id e) (ae_timestamp e) (ae_event_type e) (ae_tenant_id e) (ae_actor e) (ae_resource e) (ae_action e)
    (ae_result e) (<[key := v]> (ae_details e)) (ae_ip_address e) (ae_user_agent e) (ae_signature e).

Definition cef_severity (e : AuditEvent) : Z :=
  if bool_decide (ae_result e = "failure" ∨ ae_result e = "denied") then 8
  else if bool_decide (ae_result e = "error") then 7
  else if bool_decide (ae_result e = "warning") then 5
  else 3.

Inductive AuditFormat := FormatJson | FormatCef | FormatSyslog | FormatCsv.

(** The texts serde and the date library give, and the number of the process. *)
Class SiemTexts := {
  audit_json : AuditEvent → Result string string;
  audits_json_pretty : list AuditEvent → Result string string;
  details_json : gmap string Value → string;
  rfc3339 : timestamp → string;
  syslog_date : timestamp → string;
  process_id : string
}.
Context `{!SiemTexts}.

Definition build_cef_extension (e : AuditEvent) : string :=
  str_join " " (
    ["rt=" +:+ pretty (ae_timestamp e / 1000000)%Z; "suser=" +:+ ae_actor e; "duser=" +:+ ae_tenant_id e;
     "request=" +:+ ae_resource e; "act=" +:+ ae_action e; "outcome=" +:+ ae_result e] ++
    match ae_ip_address e with Some ip => ["src=" +:+ ip] | None => [] end ++
    match ae_user_agent e with Some ua => ["requestClientApplication=" +:+ ua] | None => [] end).
Definition export_cef (e : AuditEvent) : string :=
  str_join "|" ["CEF:0"; "uHorse"; "AI Gateway"; "2.0"; ae_event_type e; ae_action e +:+ " " +:+ ae_resource e;
                pretty (cef_severity e); build_cef_extension e].
Definition syslog_priority : Z := 13 * 8 + 6.
Definition export_syslog (e : AuditEvent) : string :=
  "<" +:+ pretty syslog_priority +:+ ">" +:+ syslog_date (ae_timestamp e) +:+ " localhost uhorse[" +:+ process_id +:+
  "]: [" +:+ ae_event_type e +:+ "] " +:+
  str_join " " [ae_tenant_id e; ae_actor e; ae_resource e; ae_action e; ae_result e].
Definition csv_fields (e : AuditEvent) : list string :=
  [ae_id e; rfc3339 (ae_timestamp e); ae_event_type e; ae_tenant_id e; ae_actor e; ae_resource e; ae_action e; ae_result e;
   default "" (ae_ip_address e); default "" (ae_user_agent e); details_json (ae_details e)].
Definition export_audit_csv (e : AuditEvent) : string := str_join "," (csv_fields e).
Definition csv_header : string :=
  "id,timestamp,event_type,tenant_id,actor,resource,action,result,ip_address,user_agent,details".

Definition export_event (f : AuditFormat) (e : AuditEvent) : Result string SiemError :=
  match f with
  | FormatJson => match audit_json e with Ok s => Ok s | Err m => Err (SiemSerialization m) end
  | FormatCef => Ok (export_cef e)
  | FormatSyslog => Ok (export_syslog e)
  | FormatCsv => Ok (export_audit_csv e)
  end.
Definition line_feed_text : string := String "010" EmptyString.
Fixpoint export_lines (f : AuditFormat) (events : list AuditEvent) : Result string SiemError :=
  match events with
  | [] => Ok ""
  | e :: events =>
      let? line := export_event f e in
      let? rest := export_lines f events in
      Ok (line +:+ line_feed_text +:+ rest)
  end.
Definition export_events (f : AuditFormat) (events : list AuditEvent) : Result string SiemError :=
  match f with
  | FormatJson => match audits_json_pretty events with Ok s => Ok s | Err m => Err (SiemSerialization m) end
  | _ => export_lines f events
  end.

(** ** Alerts ([alerts.rs]) *)

Inductive AlertSeverity := SeverityLow | SeverityMedium | SeverityHigh | SeverityCritical.
Definition AlertSeverity_display (s : AlertSeverity) : string :=
  match s with SeverityLow => "low" | SeverityMedium => "medium" | SeverityHigh => "high" | SeverityCritical => "critical" end.

Inductive AlertCondition :=
| CondAlways
| CondResultEquals (s : string)
| CondActorEquals (s : string)
| CondResourceMatches (s : string)
| CondActionEquals (s : string)
| CondCustom (s : string)
| CondAnd (l : list AlertCondition)
| CondOr (l : list AlertCondition)
| CondNot (c : AlertCondition).

Fixpoint condition_holds (c : AlertCondition) (e : AuditEvent) : bool :=
  match c with
  | CondAlways => true
  | CondResultEquals s => bool_decide (ae_result e = s)
  | CondActorEquals s => bool_decide (ae_actor e = s)
  | CondResourceMatches s => str_contains s (ae_resource e)
  | CondActionEquals s => bool_decide (ae_action e = s)
  | CondCustom _ => true
  | CondAnd l => forallb (λ c, condition_holds c e) l
  | CondOr l => existsb (λ c, condition_holds c e) l
  | CondNot c => negb (condition_holds c e)
  end.

Record AlertRule := MkAlertRule {
  ar_id : string;
  ar_name : string;
  ar_description : string;
  ar_severity : AlertSeverity;
  ar_event_types : list string;
  ar_condition : AlertCondition;
  ar_threshold : Z;
  ar_window_secs : Z;
  ar_enabled : bool;
  ar_notification_channels : list string
}.
Definition AlertRule_new (uuid name : string) (s : AlertSeverity) : AlertRule :=
  MkAlertRule uuid name "" s [] CondAlways 1 300 true [].
Definition with_event_types (l : list string) (r : AlertRule) : AlertRule :=
  MkAlertRule (ar_id r) (ar_name r) (ar_description r) (ar_severity r) l (ar_condition r) (ar_threshold r)
    (ar_window_secs r) (ar_enabled r) (ar_notification_channels r).
Definition with_threshold (n : Z) (r : AlertRule) : AlertRule :=
  MkAlertRule (ar_id r) (ar_name r) (ar_description r) (ar_severity r) (ar_event_types r) (ar_condition r) n
    (ar_window_secs r) (ar_enabled r) (ar_notification_channels r).
Definition alert_rule_matches (r : AlertRule) (e : AuditEvent) : bool :=
  if negb (ar_enabled r) then false
  else if negb (bool_decide (ar_event_types r = [])) && negb (bool_decide (ae_event_type e ∈ ar_event_types r)) then false
  else condition_holds (ar_condition r) e.

Inductive AlertStatus := AlertOpen | AlertAcknowledged | AlertResolved | AlertIgnored.
#[export] Instance AlertStatus_eq_dec : EqDecision AlertStatus. Proof. solve_decision. Defined.

Record Alert := MkAlert {
  al_id : string;
  al_rule_id : string;
  al_rule_name : string;
  al_severity : AlertSeverity;
  al_triggered_at : timestamp;
  al_event_count : Z;
  al_events : list AuditEvent;
  al_status : AlertStatus;
  al_acknowledged_by : option string;
  al_acknowledged_at : option timestamp;
  al_notes : option string
}.

Record AlertManager := MkAlertManager {
  am_rules : gmap string AlertRule;
  am_alerts : gmap string Alert;
  am_event_counters : gmap string (list timestamp)
}.
Definition AlertManager_new : AlertManager := MkAlertManager ∅ ∅ ∅.
Definition add_alert_rule (m : AlertManager) (r : AlertRule) : AlertManager :=
  MkAlertManager (<[ar_id r := r]> (am_rules m)) (am_alerts m) (am_event_counters m).
Definition remove_alert_rule (m : AlertManager) (id : string) : AlertManager * bool :=
  (MkAlertManager (delete id (am_rules m)) (am_alerts m) (am_event_counters m), bool_decide (is_Some (am_rules m !! id))).

(** The time stamp of the event is added, and those before the window that ends now
    go. *)
Definition update_counter (now : timestamp) (m : AlertManager) (rule_id : string) (t : timestamp) (window_secs : Z)
    : AlertManager :=
  let counter := default [] (am_event_counters m !! rule_id) ++ [t] in
  MkAlertManager (am_rules m) (am_alerts m)
    (<[rule_id := List.filter (λ t, bool_decide (now - seconds window_secs < t)%Z) counter]> (am_event_counters m)).
Definition check_threshold (m : AlertManager) (rule_id : string) (threshold : Z) : bool :=
  match am_event_counters m !! rule_id with Some c => bool_decide (threshold ≤ zlen c)%Z | None => false end.

Definition new_alert (uuid : string) (now : timestamp) (rule_id : string) (r : AlertRule) (e : AuditEvent) : Alert :=
  MkAlert uuid rule_id (ar_name r) (ar_severity r) now 1 [e] AlertOpen None None None.

(** One rule, with the readings it takes: the clock, and the identifier of an alert. *)
Definition process_rule (now : timestamp) (uuid : string) (m : AlertManager) (rule_id : string) (r : AlertRule)
    (e : AuditEvent) : AlertManager * list Alert :=
  if negb (alert_rule_matches r e) then (m, [])
  else
    let m := update_counter now m rule_id (ae_timestamp e) (ar_window_secs r) in
    if check_threshold m rule_id (ar_threshold r) then
      let a := new_alert uuid now rule_id r e in
      (MkAlertManager (am_rules m) (<[al_id a := a]> (am_alerts m)) (am_event_counters m), [a])
    else (m, []).
Fixpoint process_rules (now : timestamp) (uuid : string → string) (m : AlertManager) (rules : list (string * AlertRule))
    (e : AuditEvent) : AlertManager * list Alert :=
  match rules with
  | [] => (m, [])
  | (id, r) :: rules =>
      let '(m, found) := process_rule now (uuid id) m id r e in
      let '(m, rest) := process_rules now uuid m rules e in
      (m, found ++ rest)
  end.
Definition process_event `{HashOrder} (now : timestamp) (uuid : string → string) (m : AlertManager) (e : AuditEvent)
    : AlertManager * list Alert :=
  process_rules now uuid m (hash_order (am_rules m)) e.

Definition not_found (id : string) : SiemError := SiemAlert ("Alert not found: " +:+ id).
Definition update_alert (m : AlertManager) (id : string) (f : Alert → Alert) : AlertManager * Result unit SiemError :=
  match am_alerts m !! id with
  | Some a => (MkAlertManager (am_rules m) (<[id := f a]> (am_alerts m)) (am_event_counters m), Ok tt)
  | None => (m, Err (not_found id))
  end.
Definition acknowledge_alert (now : timestamp) (m : AlertManager) (id by_ : string) : AlertManager * Result unit SiemError :=
  update_alert m id (λ a, MkAlert (al_id a) (al_rule_id a) (al_rule_name a) (al_severity a) (al_triggered_at a)
    (al_event_count a) (al_events a) AlertAcknowledged (Some by_) (Some now) (al_notes a)).
Definition resolve_alert (m : AlertManager) (id : string) (notes : option string) : AlertManager * Result unit SiemError :=
  update_alert m id (λ a, MkAlert (al_id a) (al_rule_id a) (al_rule_name a) (al_severity a) (al_triggered_at a)
    (al_event_count a) (al_events a) AlertResolved (al_acknowledged_by a) (al_acknowledged_at a) notes).
Definition get_active_alerts `{HashOrder} (m : AlertManager) : list Alert :=
  List.filter (λ a, bool_decide (al_status a = AlertOpen ∨ al_status a = AlertAcknowledged)) (hash_values (am_alerts m)).
Definition get_all_alerts `{HashOrder} (m : AlertManager) : list Alert := hash_values (am_alerts m).

Definition default_alert_rules : list AlertRule := [
  MkAlertRule "login-failure" "Multiple Login Failures" "检测短时间内多次登录失败" SeverityMedium ["user.login"]
    (CondResultEquals "failure") 5 300 true ["email"; "slack"];
  MkAlertRule "permission-denied" "Permission Denied" "检测权限被拒绝的操作" SeverityHigh ["user.access"]
    (CondResultEquals "denied") 3 600 true ["email"];
  MkAlertRule "sensitive-action" "Sensitive Action" "检测敏感操作 (删除/修改配置等)" SeverityHigh
    ["config.delete"; "config.update"] CondAlways 1 60 true ["email"; "slack"]].

(** ** Splunk and Datadog ([splunk.rs], [datadog.rs]) *)

Record SplunkConfig := MkSplunkConfig {
  sp_hec_url : string; sp_hec_token : string; sp_index : string; sp_source : string; sp_source_type : string;
  sp_host : string; sp_batch_size : Z; sp_enable_compression : bool }.
Definition SplunkConfig_new (url token index : string) : SplunkConfig :=
  MkSplunkConfig url token index "uhorse" "uhorse:audit" "localhost" 100 true.
Record SplunkEvent := MkSplunkEvent {
  sv_time : Z; sv_event : Value; sv_source : option string; sv_sourcetype : option string; sv_index : option string;
  sv_host : option string; sv_fields : gmap string Value }.
Definition audit_fields (a : AuditEvent) : gmap string Value :=
  list_to_map [("actor", json_string (ae_actor a)); ("resource", json_string (ae_resource a));
               ("action", json_string (ae_action a)); ("result", json_string (ae_result a))].
(** [event] is the JSON value of the audit event; the time is in microseconds. *)
Definition SplunkEvent_from_audit (event : Value) (a : AuditEvent) : SplunkEvent :=
  let fields := <["event_type" := json_string (ae_event_type a)]> (<["tenant_id" := json_string (ae_tenant_id a)]>
                  (audit_fields a)) in
  MkSplunkEvent (ae_timestamp a / 1000) event (Some "uhorse") (Some "uhorse:audit") None None
    (match ae_ip_address a with Some ip => <["ip_address" := json_string ip]> fields | None => fields end).

Record DatadogConfig := MkDatadogConfig {
  dd_api_key : string; dd_app_key : option string; dd_api_endpoint : string; dd_service : string; dd_env : string;
  dd_batch_size : Z }.
Definition DatadogConfig_new (key service env : string) : DatadogConfig :=
  MkDatadogConfig key None "https://http-intake.logs.datadoghq.com" service env 100.
Definition DatadogConfig_new_eu (key service env : string) : DatadogConfig :=
  MkDatadogConfig key None "https://http-intake.logs.datadoghq.eu" service env 100.
Record DatadogLogEntry := MkDatadogLogEntry {
  de_message : string; de_timestamp : timestamp; de_host : option string; de_source : option string;
  de_service : option string; de_status : option string; de_tags : list string; de_attributes : gmap string Value }.
Definition result_to_status (r : string) : string :=
  if bool_decide (r = "success") then "info"
  else if bool_decide (r = "failure" ∨ r = "error") then "error"
  else if bool_decide (r = "denied" ∨ r = "warning") then "warn"
  else "info".
Definition DatadogLogEntry_from_audit (a : AuditEvent) (service env : string) : DatadogLogEntry :=
  MkDatadogLogEntry
    ("[" +:+ ae_event_type a +:+ "] " +:+ ae_actor a +:+ " - " +:+ ae_action a +:+ " " +:+ ae_result a +:+ " on " +:+ ae_resource a)
    (ae_timestamp a) (ae_ip_address a) (Some "uhorse") (Some service) (Some (result_to_status (ae_result a)))
    (["env:" +:+ env; "tenant_id:" +:+ ae_tenant_id a; "event_type:" +:+ ae_event_type a] ++
     match ae_ip_address a with Some ip => ["ip_address:" +:+ ip] | None => [] end)
    (audit_fields a).

(** What became of a request: its status with the text of the answer, or an error. *)
Abbreviation siem_outcome := (Result (Z * string) string) (only parsing).
Definition siem_answer (fail : string → SiemError) (refused : string) (o : siem_outcome) : Result unit SiemError :=
  match o with
  | Err e => Err (fail ("HTTP request failed: " +:+ e))
  | Ok (status, text) =>
      if bool_decide (200 ≤ status < 300)%Z then Ok tt else Err (fail (refused +:+ text))
  end.
Definition splunk_send_event (json : SplunkEvent → Result string string) (e : SplunkEvent) (o : siem_outcome)
    : Result unit SiemError :=
  match json e with
  | Err m => Err (SiemSerialization m)
  | Ok _ => siem_answer SiemSplunk "HEC request failed: " o
  end.

(** The body of a batch: a line for each event. *)
Fixpoint batch_body {A} (json : A → Result string string) (l : list A) : Result string SiemError :=
  match l with
  | [] => Ok ""
  | e :: l =>
      match json e with
      | Err m => Err (SiemSerialization m)
      | Ok s => let? rest := batch_body json l in Ok (s +:+ line_feed_text +:+ rest)
      end
  end.
Definition splunk_send_batch (json : SplunkEvent → Result string string) (l : list SplunkEvent) (o : siem_outcome)
    : Result unit SiemError :=
  match l with
  | [] => Ok tt
  | _ => let? body := batch_body json l in siem_answer SiemSplunk "HEC batch request failed: " o
  end.
(** The buffer is taken before the batch is sent. *)
Definition splunk_flush (json : SplunkEvent → Result string string) (buffer : list SplunkEvent) (o : siem_outcome)
    : list SplunkEvent * Result Z SiemError :=
  match buffer with
  | [] => ([], Ok 0%Z)
  | _ => ([], let? sent := splunk_send_batch json buffer o in Ok (zlen buffer))
  end.
Definition splunk_send_audit (json : SplunkEvent → Result string string) (c : SplunkConfig) (event : Value)
    (a : AuditEvent) (o : siem_outcome) : Result unit SiemError :=
  let e := SplunkEvent_from_audit event a in
  splunk_send_event json (MkSplunkEvent (sv_time e) (sv_event e) (Some (sp_source c)) (Some (sp_source_type c))
    (Some (sp_index c)) (Some (sp_host c)) (sv_fields e)) o.

Definition datadog_send_log (e : DatadogLogEntry) (o : siem_outcome) : Result unit SiemError :=
  siem_answer SiemDatadog "Logs API request failed: " o.
Definition datadog_send_batch (l : list DatadogLogEntry) (o : siem_outcome) : Result unit SiemError :=
  match l with [] => Ok tt | _ => siem_answer SiemDatadog "Logs API batch request failed: " o end.
Definition datadog_flush (buffer : list DatadogLogEntry) (o : siem_outcome) : list DatadogLogEntry * Result Z SiemError :=
  match buffer with
  | [] => ([], Ok 0%Z)
  | _ => ([], let? sent := datadog_send_batch buffer o in Ok (zlen buffer))
  end.
Definition datadog_send_audit (c : DatadogConfig) (a : AuditEvent) (o : siem_outcome) : Result unit SiemError :=
  datadog_send_log (DatadogLogEntry_from_audit a (dd_service c) (dd_env c)) o.

(** * Theorems *)

(** ** Counters and alerts *)

Definition in_window (now : timestamp) (window_secs : Z) (t : timestamp) : bool := bool_decide (now - seconds window_secs < t)%Z.

Lemma filter_filter_later w now1 now2 l :
  (now1 ≤ now2)%Z → List.filter (in_window now2 w) (List.filter (in_window now1 w) l) = List.filter (in_window now2 w) l.
Proof.
  intros Hn. induction l as [|t l IH]; [done|]. simpl. destruct (in_window now1 w t) eqn:E1; simpl; rewrite IH; [done|].
  destruct (in_window now2 w t) eqn:E2; [|done]. unfold in_window in *. apply bool_decide_eq_false in E1.
  apply bool_decide_eq_true in E2. lia.
Qed.

(** The counter of a rule after events that match it: the time stamps of all of
    them that lie in the window ending now, if the clock does not go back. *)
Definition count_all (m : AlertManager) (id : string) (w : Z) (l : list (timestamp * timestamp)) : AlertManager :=
  foldl (λ m x, update_counter x.1 m id x.2 w) m l.
Theorem counter_exact id w l now t :
  Sorted Z.le (l.*1 ++ [now]) →
  am_event_counters (count_all AlertManager_new id w (l ++ [(now, t)])) !! id =
  Some (List.filter (in_window now w) (l.*2 ++ [t])).
Proof.
  revert now t. induction l as [|[now1 t1] l IH] using rev_ind; intros now t Hs; unfold count_all in *.
  - simpl. by rewrite lookup_insert_eq, lookup_empty.
  - rewrite foldl_app. cbn [foldl]. unfold update_counter at 1. cbn [am_event_counters fst snd]. rewrite lookup_insert_eq.
    rewrite fmap_app in Hs. simpl in Hs.
    assert (Sorted Z.le (l.*1 ++ [now1]) ∧ (now1 ≤ now)%Z) as [Hs1 Hle].
    { rewrite <-app_assoc in Hs. clear -Hs. induction (l.*1) as [|x k IH]; simpl in *.
      - inversion Hs as [|?? ? Hr]. inversion Hr. split; [repeat constructor|done].
      - apply Sorted_inv in Hs as [Hs Hr]. destruct (IH Hs) as [IH1 IH2]. split; [|done]. constructor; [done|].
        destruct k; simpl in *; inversion Hr; by constructor. }
    rewrite (IH _ _ Hs1), fmap_app. cbn [from_option]. unfold Datatypes.id.
    rewrite (List.filter_app _ (List.filter _ _)), (List.filter_app _ (_ ++ _)). do 2 f_equal.
    by apply filter_filter_later.
Qed.

(** Which alerts an event raises: one for each rule it matches whose counter reaches
    the threshold with it. *)
Definition counter_with (now : timestamp) (m : AlertManager) (id : string) (r : AlertRule) (e : AuditEvent) : list timestamp :=
  List.filter (in_window now (ar_window_secs r)) (default [] (am_event_counters m !! id) ++ [ae_timestamp e]).
Definition raises (now : timestamp) (m : AlertManager) (id : string) (r : AlertRule) (e : AuditEvent) : Prop :=
  alert_rule_matches r e = true ∧ (ar_threshold r ≤ zlen (counter_with now m id r e))%Z.

Lemma process_rule_spec now uuid m id r e :
  (∀ a, a ∈ (process_rule now uuid m id r e).2 ↔ raises now m id r e ∧ a = new_alert uuid now id r e) ∧
  (∀ k, k ≠ id → am_event_counters (process_rule now uuid m id r e).1 !! k = am_event_counters m !! k).
Proof.
  unfold process_rule, raises. destruct (alert_rule_matches r e); simpl.
  2:{ split; [|done]. intros a. split; [by intros ?%not_elem_of_nil|by intros [[[=] _] _]]. }
  unfold check_threshold. simpl. rewrite lookup_insert_eq. fold (in_window now (ar_window_secs r)).
  fold (counter_with now m id r e). case_bool_decide as Hc; simpl.
  - split; [|by intros k Hk; rewrite lookup_insert_ne]. intros a. rewrite list_elem_of_singleton. naive_solver.
  - split; [|by intros k Hk; rewrite lookup_insert_ne]. intros a. split; [by intros ?%not_elem_of_nil|by intros [[_ ?] _]].
Qed.

Lemma process_rules_spec now uuid rules e : NoDup rules.*1 → ∀ m a,
  a ∈ (process_rules now uuid m rules e).2 ↔
  ∃ id r, (id, r) ∈ rules ∧ raises now m id r e ∧ a = new_alert (uuid id) now id r e.
Proof.
  induction rules as [|[id r] rules IH]; intros Hnd m a; cbn [process_rules].
  - split; [by intros ?%not_elem_of_nil|by intros (? & ? & ?%not_elem_of_nil & _)].
  - apply NoDup_cons in Hnd as [Hid Hnd]. destruct (process_rule_spec now (uuid id) m id r e) as [S1 S2].
    destruct (process_rule now (uuid id) m id r e) as [m1 found] eqn:E1. simpl in S1, S2.
    specialize (IH Hnd m1 a). destruct (process_rules now uuid m1 rules e) as [m2 rest] eqn:E2. simpl in *.
    rewrite elem_of_app, IH, S1. setoid_rewrite elem_of_cons. split.
    + intros [[Hr ->]|(id' & r' & Hin & Hr & ->)]; [exists id, r; auto|].
      exists id', r'. split; [auto|]. split; [|done]. revert Hr. unfold raises, counter_with. rewrite S2; [done|].
      intros ->. apply Hid, list_elem_of_fmap. by exists (id, r').
    + intros (id' & r' & [[= -> ->]|Hin] & Hr & ->); [by left|]. right. exists id', r'. split; [done|]. split; [|done].
      revert Hr. unfold raises, counter_with. rewrite S2; [done|]. intros ->. apply Hid, list_elem_of_fmap. by exists (id, r').
Qed.

Theorem alerts_exact `{HashOrder} now uuid m e a :
  a ∈ (process_event now uuid m e).2 ↔
  ∃ id r, am_rules m !! id = Some r ∧ raises now m id r e ∧ a = new_alert (uuid id) now id r e.
Proof.
  unfold process_event. rewrite process_rules_spec by apply NoDup_hash_keys. by setoid_rewrite elem_of_hash_order.
Qed.

(** Nothing resets a counter: once the threshold is reached, the next event inside
    the window raises another alert, and so on for every event. *)
Theorem every_further_event_alerts now uuid m id r e e2 uuid2 :
  alert_rule_matches r e = true → alert_rule_matches r e2 = true →
  (now - seconds (ar_window_secs r) < ae_timestamp e2)%Z →
  raises now m id r e → raises now (process_rule now uuid m id r e).1 id r e2 ∧
  (process_rule now uuid2 (process_rule now uuid m id r e).1 id r e2).2 = [new_alert uuid2 now id r e2].
Proof.
  intros Hm Hm2 Hw [_ Ht].
  assert (am_event_counters (process_rule now uuid m id r e).1 !! id = Some (counter_with now m id r e)) as Ec.
  { unfold process_rule. rewrite Hm. simpl. unfold check_threshold. simpl. rewrite lookup_insert_eq.
    case_bool_decide; simpl; by rewrite lookup_insert_eq. }
  assert (raises now (process_rule now uuid m id r e).1 id r e2) as Hr.
  { split; [done|]. unfold counter_with at 1. rewrite Ec. simpl. rewrite List.filter_app. unfold zlen in *.
    rewrite length_app. unfold counter_with at 1. rewrite filter_filter_later by lia. fold (counter_with now m id r e). lia. }
  split; [done|]. destruct Hr as [_ Hr]. unfold process_rule at 1. rewrite Hm2. simpl. unfold check_threshold. simpl.
  rewrite lookup_insert_eq. fold (in_window now (ar_window_secs r)).
  fold (counter_with now (process_rule now uuid m id r e).1 id r e2). by rewrite bool_decide_true.
Qed.

(** A resolved alert is active again when somebody acknowledges it. *)
Theorem acknowledging_reopens `{HashOrder} now m id by_ notes a :
  am_alerts m !! id = Some a →
  let m1 := (resolve_alert m id notes).1 in
  let m2 := (acknowledge_alert now m1 id by_).1 in
  (∀ x, am_alerts m1 !! id = Some x → al_status x = AlertResolved) ∧
  ∃ x, x ∈ get_active_alerts m2 ∧ am_alerts m2 !! id = Some x ∧ al_notes x = notes.
Proof.
  intros Ha m1 m2. unfold m2, m1, resolve_alert, acknowledge_alert, update_alert. rewrite Ha. simpl. rewrite lookup_insert_eq.
  split; [by intros x [= <-]|]. eexists. split; [|by simpl; rewrite lookup_insert_eq].
  unfold get_active_alerts. apply elem_of_filter_bool. simpl. split; [done|]. apply elem_of_hash_values. simpl.
  exists id. by rewrite lookup_insert_eq.
Qed.

(** A condition that is an expression is never evaluated. *)
Theorem custom_condition_ignored text e : condition_holds (CondCustom text) e = true ∧ condition_holds (CondNot (CondCustom text)) e = false.
Proof. done. Qed.

(** ** Exports *)

(** An export has a line for each event, if the event has a text at all. *)
Theorem export_lines_exact f events :
  f ≠ FormatJson → ∃ lines, Forall2 (λ e line, export_event f e = Ok line) events lines ∧
    export_events f events = Ok (str_concat ((λ line, line +:+ line_feed_text) <$> lines)).
Proof.
  intros Hf. assert (∀ e, ∃ line, export_event f e = Ok line) as L by (intros e; destruct f; [done|by eexists..]).
  assert (∃ lines, Forall2 (λ e line, export_event f e = Ok line) events lines ∧
    export_lines f events = Ok (str_concat ((λ line, line +:+ line_feed_text) <$> lines))) as (lines & A & B).
  { induction events as [|e events (lines & A & B)]; [by exists []|]. destruct (L e) as [line El].
    exists (line :: lines). split; [by constructor|]. simpl. rewrite El. simpl. rewrite B. simpl.
    by rewrite str_app_assoc. }
  exists lines. split; [done|]. by destruct f.
Qed.

(** Nothing is quoted: an actor with a comma gives the line of another event, whose
    resource, action and result are what the actor wrote. *)
Theorem csv_collides uuid now event_type tenant actor resource1 resource2 action result :
  let e1 := with_result result (AuditEvent_new uuid now event_type tenant (actor +:+ "," +:+ resource1) resource2 action) in
  let e2 := with_result result (AuditEvent_new uuid now event_type tenant actor resource1 (resource2 +:+ "," +:+ action)) in
  export_audit_csv e1 = export_audit_csv e2.
Proof.
  unfold export_audit_csv, csv_fields. simpl. rewrite !str_app_assoc. done.
Qed.

(** In the event format of ArcSight an event type with a bar chooses the severity
    that is read. *)
Theorem cef_severity_forged e :
  ae_event_type e = "login|x|0" →
  str_split "|" (str_join "|" ["CEF:0"; "uHorse"; "AI Gateway"; "2.0"; ae_event_type e]) !! 6 = Some "0".
Proof. by intros ->. Qed.

(** The priority of syslog is 110, facility 13; local0 is facility 16. *)
Theorem syslog_facility : syslog_priority = 110%Z ∧ (syslog_priority / 8)%Z = 13%Z.
Proof. done. Qed.

(** ** Clients *)

(** A flush that fails has emptied the buffer all the same. *)
Theorem failed_flush_loses json buffer o e :
  (splunk_flush json buffer o).2 = Err e → buffer ≠ [] ∧ (splunk_flush json buffer o).1 = [].
Proof. by destruct buffer. Qed.
Theorem flush_counts json buffer o n :
  (splunk_flush json buffer o).2 = Ok n → n = zlen buffer.
Proof.
  destruct buffer as [|e buffer]; simpl; [by intros [= <-]|]. intros Hn. revert Hn.
  destruct (match json e with Ok _ => _ | Err _ => _ end) as [body|]; simpl; [|done].
  destruct (siem_answer _ _ o); simpl; [by intros [= <-]|done].
Qed.
End Exports.
