(* ===== verification/Backup.v ===== *)
(** Backups ([crates/uhorse-backup/src]): when they are due and which are kept,
    encryption, restores and replication.  The files, the hasher of the standard
    library and formatted dates are parameters. *)
From S2P Require Import Prelude Text Paths Permission Workspace.

Inductive BackupError :=
| BackupFailed (m : string) | RestoreFailed (m : string) | EncryptionError (m : string) | ReplicationError (m : string)
| BackupIoError (m : string) | BackupNotFound (m : string) | BackupConfigError (m : string) | RestoreError (m : string).
Definition BackupError_display (e : BackupError) : string :=
  match e with
  | BackupFailed m => "Backup failed: " +:+ m
  | RestoreFailed m => "Restore failed: " +:+ m
  | EncryptionError m => "Encryption error: " +:+ m
  | ReplicationError m => "Replication error: " +:+ m
  | BackupIoError m => "IO error: " +:+ m
  | BackupNotFound m => "Not found: " +:+ m
  | BackupConfigError m => "Configuration error: " +:+ m
  | RestoreError m => "Restore error: " +:+ m
  end.

(** ** The scheduler ([scheduler.rs]) *)

Inductive BackupType := BackupFull | BackupIncremental.
#[export] Instance BackupType_eq_dec : EqDecision BackupType. Proof. solve_decision. Defined.
Inductive BackupStatus := BackupPending | BackupRunning | BackupCompleted | BackupWasFailed.
#[export] Instance BackupStatus_eq_dec : EqDecision BackupStatus. Proof. solve_decision. Defined.

Record BackupRecord := MkBackupRecord {
  br_id : string;
  br_backup_type : BackupType;
  br_status : BackupStatus;
  br_storage_path : path;
  br_size_bytes : Z;
  br_checksum : string;
  br_base_backup_id : option string;
  br_encryption_key_id : option string;
  br_started_at : timestamp;
  br_completed_at : option timestamp;
  br_error_message : option string;
  br_metadata : gmap string string
}.
Definition BackupRecord_new (uuid : string) (now : timestamp) (t : BackupType) (p : path) : BackupRecord :=
  MkBackupRecord uuid t BackupPending p 0 "" None None now None None ∅.
Definition with_base (base : string) (r : BackupRecord) : BackupRecord :=
  MkBackupRecord (br_id r) (br_backup_type r) (br_status r) (br_storage_path r) (br_size_bytes r) (br_checksum r)
    (Some base) (br_encryption_key_id r) (br_started_at r) (br_completed_at r) (br_error_message r) (br_metadata r).
(** Whole seconds, towards zero, as an unsigned number. *)
Definition elapsed_secs (start : timestamp) (completed : option timestamp) : option Z :=
  (λ c, wrap 64 (Z.quot (c - start) nanos_per_sec)) <$> completed.
Definition backup_duration_secs (r : BackupRecord) : option Z := elapsed_secs (br_started_at r) (br_completed_at r).

Record BackupScheduleConfig := MkBackupScheduleConfig {
  bg_backup_dir : path;
  bg_full_backup_interval_hours : Z;
  bg_incremental_backup_interval_hours : Z;
  bg_retention_count : nat;
  bg_compress : bool;
  bg_encrypt : bool
}.
Definition BackupScheduleConfig_default : BackupScheduleConfig :=
  MkBackupScheduleConfig [CNormal "backups"] 24 4 30 true true.

Record BackupScheduler := MkBackupScheduler {
  bs_config : BackupScheduleConfig;
  bs_records : list BackupRecord;
  bs_last_full : option timestamp;
  bs_last_incremental : option timestamp
}.
Definition BackupScheduler_new (c : BackupScheduleConfig) : BackupScheduler := MkBackupScheduler c [] None None.

(** [num_hours], towards zero. *)
Definition num_hours (d : duration) : Z := Z.quot d (3600 * nanos_per_sec).
Definition interval_over (now : timestamp) (last : option timestamp) (hours : Z) : bool :=
  match last with None => true | Some t => bool_decide (hours ≤ num_hours (now - t))%Z end.
Definition needs_full_backup (now : timestamp) (s : BackupScheduler) : bool :=
  interval_over now (bs_last_full s) (bg_full_backup_interval_hours (bs_config s)).
(** The clock is read once for each question. *)
Definition needs_incremental_backup (now1 now2 : timestamp) (s : BackupScheduler) : bool :=
  if needs_full_backup now1 s then false
  else interval_over now2 (bs_last_incremental s) (bg_incremental_backup_interval_hours (bs_config s)).

(** [max_by_key]: the last of the greatest. *)
Definition latest_started (l : list BackupRecord) : option BackupRecord :=
  foldl (λ best r, match best with
                   | Some b => if bool_decide (br_started_at b ≤ br_started_at r)%Z then Some r else best
                   | None => Some r
                   end) None l.
Definition completed_full (r : BackupRecord) : bool :=
  bool_decide (br_backup_type r = BackupFull) && bool_decide (br_status r = BackupCompleted).

(** [date] is the time as text, for the name of the file. *)
Definition create_backup_record (uuid date : string) (now : timestamp) (s : BackupScheduler) (t : BackupType) : BackupRecord :=
  let name := match t with BackupFull => "full_" | BackupIncremental => "incremental_" end +:+ date +:+ ".backup" in
  let r := BackupRecord_new uuid now t (path_push (bg_backup_dir (bs_config s)) (path_of_string name)) in
  match t with
  | BackupFull => r
  | BackupIncremental =>
      match latest_started (List.filter completed_full (bs_records s)) with
      | Some base => with_base (br_id base) r
      | None => r
      end
  end.
Definition start_backup (now : timestamp) (r : BackupRecord) : BackupRecord :=
  MkBackupRecord (br_id r) (br_backup_type r) BackupRunning (br_storage_path r) (br_size_bytes r) (br_checksum r)
    (br_base_backup_id r) (br_encryption_key_id r) now (br_completed_at r) (br_error_message r) (br_metadata r).
Definition complete_backup (now : timestamp) (s : BackupScheduler) (r : BackupRecord) (size : Z) (checksum : string)
    : BackupScheduler * BackupRecord :=
  let r' := MkBackupRecord (br_id r) (br_backup_type r) BackupCompleted (br_storage_path r) size checksum
              (br_base_backup_id r) (br_encryption_key_id r) (br_started_at r) (Some now) (br_error_message r)
              (br_metadata r) in
  (MkBackupScheduler (bs_config s) (bs_records s ++ [r'])
     (match br_backup_type r with BackupFull => Some (br_started_at r) | _ => bs_last_full s end)
     (match br_backup_type r with BackupIncremental => Some (br_started_at r) | _ => bs_last_incremental s end), r').
Definition fail_backup (now : timestamp) (s : BackupScheduler) (r : BackupRecord) (error : string)
    : BackupScheduler * BackupRecord :=
  let r' := MkBackupRecord (br_id r) (br_backup_type r) BackupWasFailed (br_storage_path r) (br_size_bytes r) (br_checksum r)
              (br_base_backup_id r) (br_encryption_key_id r) (br_started_at r) (Some now) (Some error) (br_metadata r) in
  (MkBackupScheduler (bs_config s) (bs_records s ++ [r']) (bs_last_full s) (bs_last_incremental s), r').
Definition get_backup_record (s : BackupScheduler) (id : string) : option BackupRecord :=
  List.find (λ r, bool_decide (br_id r = id)) (bs_records s).
Definition list_backups_by_type (s : BackupScheduler) (t : BackupType) : list BackupRecord :=
  List.filter (λ r, bool_decide (br_backup_type r = t)) (bs_records s).

(** The first record with the identifier goes; its file is removed, and that this
    fails is only logged. *)
Fixpoint remove_record (id : string) (l : list BackupRecord) : list BackupRecord * option path :=
  match l with
  | [] => ([], None)
  | r :: l => if bool_decide (br_id r = id) then (l, Some (br_storage_path r))
              else let '(l', p) := remove_record id l in (r :: l', p)
  end.
Fixpoint remove_records (ids : list string) (l : list BackupRecord) : list BackupRecord * list path :=
  match ids with
  | [] => (l, [])
  | id :: ids =>
      match remove_record id l with
      | (l, Some p) => let '(l, ps) := remove_records ids l in (l, p :: ps)
      | (l, None) => remove_records ids l
      end
  end.
Definition later_started (a b : BackupRecord) : bool := bool_decide (br_started_at b ≤ br_started_at a)%Z.
(** The scheduler, the files to remove, and how many. *)
Definition cleanup_old_backups (s : BackupScheduler) : BackupScheduler * list path * Z :=
  let sorted := sort_by later_started (bs_records s) in
  let '(kept, files) := remove_records (br_id <$> drop (bg_retention_count (bs_config s)) sorted) sorted in
  (MkBackupScheduler (bs_config s) kept (bs_last_full s) (bs_last_incremental s), files, zlen files).

Record BackupStats := MkBackupStats {
  bk_total : Z; bk_completed : Z; bk_running : Z; bk_pending : Z; bk_failed : Z;
  bk_full : Z; bk_incremental : Z; bk_total_size : Z }.
Definition count_of {A} (f : A → bool) (l : list A) : Z := zlen (List.filter f l).
Definition backup_stats (s : BackupScheduler) : BackupStats :=
  let l := bs_records s in
  let has x r := bool_decide (br_status r = x) in
  let finished := List.filter (has BackupCompleted) l in
  MkBackupStats (zlen l) (count_of (has BackupCompleted) l) (count_of (has BackupRunning) l) (count_of (has BackupPending) l)
    (count_of (has BackupWasFailed) l)
    (count_of (λ r, bool_decide (br_backup_type r = BackupFull)) finished)
    (count_of (λ r, bool_decide (br_backup_type r = BackupIncremental)) finished)
    (wrap 64 (foldr (λ r n, br_size_bytes r + n) 0 finished))%Z.

(** ** Encryption ([encryption.rs]) *)

Record EncryptionKey := MkEncryptionKey {
  ek_id : string; ek_name : string; ek_version : Z; ek_created_at : timestamp; ek_active : bool; ek_metadata : gmap string string }.
Record EncryptionConfig := MkEncryptionConfig {
  ec_enabled : bool; ec_key_length : nat; ec_salt_length : nat; ec_nonce_length : nat }.
Definition EncryptionConfig_default : EncryptionConfig := MkEncryptionConfig true 32 16 12.
Record EncryptionManager := MkEncryptionManager {
  ey_config : EncryptionConfig; ey_keys : gmap string EncryptionKey; ey_active_key_id : option string }.
Definition EncryptionManager_new (c : EncryptionConfig) : EncryptionManager := MkEncryptionManager c ∅ None.

Definition set_active (b : bool) (k : EncryptionKey) : EncryptionKey :=
  MkEncryptionKey (ek_id k) (ek_name k) (ek_version k) (ek_created_at k) b (ek_metadata k).
Definition generate_key (uuid : string) (now : timestamp) (m : EncryptionManager) (name : string)
    : EncryptionManager * EncryptionKey :=
  let k := MkEncryptionKey uuid name 1 now true ∅ in
  (MkEncryptionManager (ey_config m) (<[uuid := k]> (ey_keys m)) (Some uuid), k).
Definition get_active_key (m : EncryptionManager) : option EncryptionKey :=
  match ey_active_key_id m with Some id => ey_keys m !! id | None => None end.
(** All keys are put out of use before the one is looked for. *)
Definition activate_key (m : EncryptionManager) (id : string) : EncryptionManager * bool :=
  let keys := set_active false <$> ey_keys m in
  match keys !! id with
  | Some k => (MkEncryptionManager (ey_config m) (<[id := set_active true k]> keys) (Some id), true)
  | None => (MkEncryptionManager (ey_config m) keys (ey_active_key_id m), false)
  end.
Definition delete_key (m : EncryptionManager) (id : string) : EncryptionManager * bool :=
  match ey_keys m !! id with
  | Some k =>
      (MkEncryptionManager (ey_config m) (delete id (ey_keys m))
         (if bool_decide (ey_active_key_id m = Some (ek_id k)) then None else ey_active_key_id m), true)
  | None => (m, false)
  end.

(** The hashes of the standard library's default hasher, as 64-bit numbers: of a
    byte string, of two one after the other, and of a time. *)
Class DefaultHasher := { hash_bytes : string → Z; hash_two : string → string → Z; hash_time : timestamp → Z }.

Record EncryptedData := MkEncryptedData { ed_key_id : string; ed_nonce : string; ed_data : string; ed_tag : string }.

Definition byte_xor (a b : Ascii.ascii) : Ascii.ascii :=
  Ascii.ascii_of_nat (Z.to_nat (Z.lxor (Z.of_nat (byte_of a)) (Z.of_nat (byte_of b)))).
(** The bytes of a 64-bit number, least first. *)
Fixpoint le_bytes (n : nat) (z : Z) : string :=
  match n with O => "" | S n => String (Ascii.ascii_of_nat (Z.to_nat (z mod 256))) (le_bytes n (z / 256)) end.
(** [i] counts the bytes before; [None] is the division by zero of an empty nonce. *)
Fixpoint xor_from (i : nat) (data nonce : string) : option string :=
  match data with
  | EmptyString => Some ""
  | String c rest =>
      match String.get (i mod String.length nonce) nonce with
      | Some k => String (byte_xor c k) <$> xor_from (S i) rest nonce
      | None => None
      end
  end.
Definition xor_encrypt (data nonce : string) : option string := xor_from 0 data nonce.
Fixpoint cycle_bytes (n : nat) (i : nat) (bytes : string) : string :=
  match n with
  | O => ""
  | S n => match String.get (i mod String.length bytes) bytes with
           | Some c => String c (cycle_bytes n (S i) bytes)
           | None => ""
           end
  end.

Section Encryption.
Context `{DefaultHasher}.

Definition generate_nonce (now : timestamp) (m : EncryptionManager) : string :=
  cycle_bytes (ec_nonce_length (ey_config m)) 0 (le_bytes 8 (hash_time now)).
Definition compute_tag (data nonce : string) : string := le_bytes 8 (hash_two data nonce).

(** The outer option is a panic. *)
Definition encrypt (now : timestamp) (m : EncryptionManager) (data key_id : string) : option (Result EncryptedData BackupError) :=
  if bool_decide (ey_keys m !! key_id = None) then Some (Err (BackupNotFound ("Key not found: " +:+ key_id)))
  else
    let nonce := generate_nonce now m in
    match xor_encrypt data nonce with
    | Some encrypted => Some (Ok (MkEncryptedData key_id nonce encrypted (compute_tag encrypted nonce)))
    | None => None
    end.
Definition decrypt (m : EncryptionManager) (e : EncryptedData) : option (Result string BackupError) :=
  if bool_decide (ey_keys m !! ed_key_id e = None) then Some (Err (BackupNotFound ("Key not found: " +:+ ed_key_id e)))
  else if negb (bool_decide (compute_tag (ed_data e) (ed_nonce e) = ed_tag e)) then
    Some (Err (EncryptionError "Authentication tag verification failed"))
  else Ok <$> xor_encrypt (ed_data e) (ed_nonce e).
End Encryption.

(** ** Restores ([restore.rs]) *)

Inductive RestoreStatus := RestorePending | RestoreRunning | RestoreCompleted | RestoreWasFailed | RestoreRolledBack.
#[export] Instance RestoreStatus_eq_dec : EqDecision RestoreStatus. Proof. solve_decision. Defined.
Record RollbackInfo := MkRollbackInfo { rk_rolled_back_at : timestamp; rk_reason : string; rk_success : bool }.
Record RestoreRecord := MkRestoreRecord {
  rr_id : string;
  rr_backup_id : string;
  rr_status : RestoreStatus;
  rr_target_path : path;
  rr_point_in_time : option timestamp;
  rr_started_at : timestamp;
  rr_completed_at : option timestamp;
  rr_error_message : option string;
  rr_rollback_info : option RollbackInfo
}.
Definition RestoreRecord_new (uuid : string) (now : timestamp) (backup : string) (target : path) : RestoreRecord :=
  MkRestoreRecord uuid backup RestorePending target None now None None None.
Definition set_restore_status (x : RestoreStatus) (r : RestoreRecord) : RestoreRecord :=
  MkRestoreRecord (rr_id r) (rr_backup_id r) x (rr_target_path r) (rr_point_in_time r) (rr_started_at r)
    (rr_completed_at r) (rr_error_message r) (rr_rollback_info r).
Definition with_pitr (t : timestamp) (r : RestoreRecord) : RestoreRecord :=
  MkRestoreRecord (rr_id r) (rr_backup_id r) (rr_status r) (rr_target_path r) (Some t) (rr_started_at r)
    (rr_completed_at r) (rr_error_message r) (rr_rollback_info r).
Record RestoreConfig := MkRestoreConfig {
  rg_verify_integrity : bool; rg_create_snapshot : bool; rg_max_parallel_restores : nat; rg_timeout_secs : Z }.
Definition RestoreConfig_default : RestoreConfig := MkRestoreConfig true true 4 3600.
Record RestoreManager := MkRestoreManager { rm_config : RestoreConfig; rm_records : list RestoreRecord }.

(** The digits of a number in hexadecimal, without leading zeros. *)
Definition hex_u64_digit (n : Z) : Ascii.ascii := Ascii.ascii_of_nat (Z.to_nat (if bool_decide (n < 10)%Z then 48 + n else 87 + n)).
Fixpoint hex_go (fuel : nat) (z : Z) (acc : string) : string :=
  match fuel with
  | O => acc
  | S fuel => let acc := String (hex_u64_digit (z mod 16)) acc in
              if bool_decide (z / 16 = 0)%Z then acc else hex_go fuel (z / 16) acc
  end.
Definition hex_u64 (z : Z) : string := hex_go 16 z "".

(** What is found at the path of a backup: whether it exists, as far as can be
    told, and its bytes. *)
Class BackupFiles := { backup_exists : path → bool; backup_read : path → Result string string }.

Section Restore.
Context `{DefaultHasher, BackupFiles, PathTexts}.

Definition verify_backup (m : RestoreManager) (b : BackupRecord) : Result bool BackupError :=
  if negb (rg_verify_integrity (rm_config m)) then Ok true
  else if negb (bool_decide (br_status b = BackupCompleted)) then Err (RestoreError "Backup is not in completed status")
  else if negb (backup_exists (br_storage_path b)) then
    Err (BackupNotFound ("Backup file not found: " +:+ path_debug (br_storage_path b)))
  else match backup_read (br_storage_path b) with
       | Err e => Err (RestoreError e)
       | Ok data =>
           if bool_decide (hex_u64 (hash_bytes data) = br_checksum b) then Ok true
           else Err (RestoreError "Backup checksum verification failed")
       end.

Definition start_restore (uuid : string) (now : timestamp) (m : RestoreManager) (b : BackupRecord) (target : path)
    : RestoreManager * Result RestoreRecord BackupError :=
  match verify_backup m b with
  | Err e => (m, Err e)
  | Ok _ =>
      let r := set_restore_status RestoreRunning (RestoreRecord_new uuid now (br_id b) target) in
      (MkRestoreManager (rm_config m) (rm_records m ++ [r]), Ok r)
  end.
(** The point in time is set on the answer, after the record was saved. *)
Definition start_pitr_restore (uuid : string) (now : timestamp) (m : RestoreManager) (b : BackupRecord) (target : path)
    (t : timestamp) : RestoreManager * Result RestoreRecord BackupError :=
  if negb (bool_decide (br_backup_type b = BackupFull)) then (m, Err (RestoreError "PITR requires a full backup as base"))
  else match start_restore uuid now m b target with
       | (m, Ok r) => (m, Ok (with_pitr t r))
       | (m, Err e) => (m, Err e)
       end.

(** The first record with the identifier is changed, if there is one. *)
Fixpoint change_restore (id : string) (f : RestoreRecord → RestoreRecord) (l : list RestoreRecord) : option (list RestoreRecord) :=
  match l with
  | [] => None
  | r :: l => if bool_decide (rr_id r = id) then Some (f r :: l) else cons r <$> change_restore id f l
  end.
Definition with_restore (m : RestoreManager) (id : string) (f : RestoreRecord → RestoreRecord)
    : RestoreManager * Result bool BackupError :=
  match change_restore id f (rm_records m) with
  | Some l => (MkRestoreManager (rm_config m) l, Ok true)
  | None => (m, Err (BackupNotFound id))
  end.
Definition complete_restore (now : timestamp) (m : RestoreManager) (id : string) : RestoreManager * Result bool BackupError :=
  with_restore m id (λ r, MkRestoreRecord (rr_id r) (rr_backup_id r) RestoreCompleted (rr_target_path r)
    (rr_point_in_time r) (rr_started_at r) (Some now) (rr_error_message r) (rr_rollback_info r)).
Definition fail_restore (now : timestamp) (m : RestoreManager) (id error : string) : RestoreManager * Result bool BackupError :=
  with_restore m id (λ r, MkRestoreRecord (rr_id r) (rr_backup_id r) RestoreWasFailed (rr_target_path r)
    (rr_point_in_time r) (rr_started_at r) (Some now) (Some error) (rr_rollback_info r)).
Definition rollback_restore (now : timestamp) (m : RestoreManager) (id reason : string)
    : RestoreManager * Result bool BackupError :=
  with_restore m id (λ r, MkRestoreRecord (rr_id r) (rr_backup_id r) RestoreRolledBack (rr_target_path r)
    (rr_point_in_time r) (rr_started_at r) (rr_completed_at r) (rr_error_message r)
    (Some (MkRollbackInfo now reason true))).
Definition get_restore (m : RestoreManager) (id : string) : option RestoreRecord :=
  List.find (λ r, bool_decide (rr_id r = id)) (rm_records m).

Record RestoreStats := MkRestoreStats {
  rx_total : Z; rx_completed : Z; rx_pending : Z; rx_running : Z; rx_failed : Z; rx_rolled_back : Z; rx_pitr : Z }.
Definition restore_stats (m : RestoreManager) : RestoreStats :=
  let l := rm_records m in
  let has x r := bool_decide (rr_status r = x) in
  MkRestoreStats (zlen l) (count_of (has RestoreCompleted) l) (count_of (has RestorePending) l)
    (count_of (has RestoreRunning) l) (count_of (has RestoreWasFailed) l) (count_of (has RestoreRolledBack) l)
    (count_of (λ r, bool_decide (is_Some (rr_point_in_time r))) l).
End Restore.

(** ** Replication ([replication.rs]) *)

Record ReplicationTarget := MkReplicationTarget {
  rt_id : string; rt_name : string; rt_region : string; rt_endpoint : string; rt_enabled : bool;
  rt_last_sync_at : option timestamp }.
Definition ReplicationTarget_new (uuid name region endpoint : string) : ReplicationTarget :=
  MkReplicationTarget uuid name region endpoint true None.
Inductive ReplicationStatus := ReplicationPending | ReplicationRunning | ReplicationCompleted | ReplicationWasFailed.
#[export] Instance ReplicationStatus_eq_dec : EqDecision ReplicationStatus. Proof. solve_decision. Defined.
Record ReplicationTask := MkReplicationTask {
  rn_id : string; rn_source_backup_id : string; rn_target_id : string; rn_status : ReplicationStatus;
  rn_started_at : timestamp; rn_completed_at : option timestamp; rn_transferred_bytes : Z; rn_error_message : option string }.
Record ReplicationConfig := MkReplicationConfig {
  rp_enabled : bool; rp_interval_hours : Z; rp_parallel_transfers : nat; rp_retries : Z; rp_timeout_secs : Z }.
Definition ReplicationConfig_default : ReplicationConfig := MkReplicationConfig true 6 3 3 300.
Record ReplicationManager := MkReplicationManager {
  ra_config : ReplicationConfig; ra_targets : list ReplicationTarget; ra_tasks : list ReplicationTask }.
Definition ReplicationManager_new (c : ReplicationConfig) : ReplicationManager := MkReplicationManager c [] [].
Definition add_target (m : ReplicationManager) (t : ReplicationTarget) : ReplicationManager :=
  MkReplicationManager (ra_config m) (ra_targets m ++ [t]) (ra_tasks m).
Fixpoint drop_target (id : string) (l : list ReplicationTarget) : option (list ReplicationTarget) :=
  match l with
  | [] => None
  | t :: l => if bool_decide (rt_id t = id) then Some l else cons t <$> drop_target id l
  end.
Definition remove_target (m : ReplicationManager) (id : string) : ReplicationManager * bool :=
  match drop_target id (ra_targets m) with
  | Some l => (MkReplicationManager (ra_config m) l (ra_tasks m), true)
  | None => (m, false)
  end.
(** Neither the backup nor the target is looked for. *)
Definition create_replication (uuid : string) (now : timestamp) (m : ReplicationManager) (source target : string)
    : ReplicationManager * ReplicationTask :=
  let t := MkReplicationTask uuid source target ReplicationPending now None 0 None in
  (MkReplicationManager (ra_config m) (ra_targets m) (ra_tasks m ++ [t]), t).
Fixpoint change_replication (id : string) (f : ReplicationTask → ReplicationTask) (l : list ReplicationTask)
    : option (list ReplicationTask) :=
  match l with
  | [] => None
  | t :: l => if bool_decide (rn_id t = id) then Some (f t :: l) else cons t <$> change_replication id f l
  end.
Definition with_replication (m : ReplicationManager) (id : string) (f : ReplicationTask → ReplicationTask)
    : ReplicationManager * Result unit BackupError :=
  match change_replication id f (ra_tasks m) with
  | Some l => (MkReplicationManager (ra_config m) (ra_targets m) l, Ok tt)
  | None => (m, Err (BackupNotFound id))
  end.
Definition start_replication (m : ReplicationManager) (id : string) : ReplicationManager * Result unit BackupError :=
  with_replication m id (λ t, MkReplicationTask (rn_id t) (rn_source_backup_id t) (rn_target_id t) ReplicationRunning
    (rn_started_at t) (rn_completed_at t) (rn_transferred_bytes t) (rn_error_message t)).
Definition complete_replication (now : timestamp) (m : ReplicationManager) (id : string) (bytes : Z)
    : ReplicationManager * Result unit BackupError :=
  with_replication m id (λ t, MkReplicationTask (rn_id t) (rn_source_backup_id t) (rn_target_id t) ReplicationCompleted
    (rn_started_at t) (Some now) bytes (rn_error_message t)).
Definition fail_replication (now : timestamp) (m : ReplicationManager) (id error : string)
    : ReplicationManager * Result unit BackupError :=
  with_replication m id (λ t, MkReplicationTask (rn_id t) (rn_source_backup_id t) (rn_target_id t) ReplicationWasFailed
    (rn_started_at t) (Some now) (rn_transferred_bytes t) (Some error)).
Definition get_replication (m : ReplicationManager) (id : string) : option ReplicationTask :=
  List.find (λ t, bool_decide (rn_id t = id)) (ra_tasks m).

Record ReplicationStats := MkReplicationStats {
  rz_total_targets : Z; rz_enabled_targets : Z; rz_total_tasks : Z; rz_completed : Z; rz_running : Z; rz_pending : Z;
  rz_failed : Z; rz_total_bytes : Z }.
Definition replication_stats (m : ReplicationManager) : ReplicationStats :=
  let l := ra_tasks m in
  let has x t := bool_decide (rn_status t = x) in
  MkReplicationStats (zlen (ra_targets m)) (count_of rt_enabled (ra_targets m)) (zlen l)
    (count_of (has ReplicationCompleted) l) (count_of (has ReplicationRunning) l) (count_of (has ReplicationPending) l)
    (count_of (has ReplicationWasFailed) l)
    (wrap 64 (foldr (λ t n, rn_transferred_bytes t + n) 0 (List.filter (has ReplicationCompleted) l)))%Z.

(** * Theorems *)

(** ** Encryption *)

Lemma lxor_byte a b : (0 ≤ a < 256)%Z → (0 ≤ b < 256)%Z → (0 ≤ Z.lxor a b < 256)%Z.
Proof.
  intros Ha Hb. assert (Z.lxor a b = Z.lxor a b mod 2 ^ 8)%Z as ->; [|apply Z.mod_pos_bound; lia].
  apply Z.bits_inj'. intros n Hn. destruct (decide (n < 8)%Z); [by rewrite Z.mod_pow2_bits_low|].
  rewrite Z.mod_pow2_bits_high, Z.lxor_spec by lia.
  assert (∀ x, (0 ≤ x < 256)%Z → Z.testbit x n = false) as B; [|by rewrite !B].
  intros x Hx. destruct (decide (x = 0)%Z) as [->|]; [apply Z.bits_0|]. apply Z.bits_above_log2; [lia|].
  apply Z.log2_lt_pow2; [lia|]. apply Z.lt_le_trans with (2 ^ 8)%Z; [lia|]. apply Z.pow_le_mono_r; lia.
Qed.

Lemma byte_xor_involutive c k : byte_xor (byte_xor c k) k = c.
Proof.
  assert (∀ x : Ascii.ascii, (0 ≤ Z.of_nat (byte_of x) < 256)%Z) as B.
  { intros x. unfold byte_of. pose proof (Ascii.nat_ascii_bounded x). lia. }
  pose proof (lxor_byte _ _ (B c) (B k)) as L. unfold byte_xor at 1.
  assert (Z.of_nat (byte_of (byte_xor c k)) = Z.lxor (Z.of_nat (byte_of c)) (Z.of_nat (byte_of k))) as ->.
  { unfold byte_xor. unfold byte_of at 1. rewrite Ascii.nat_ascii_embedding by lia. lia. }
  rewrite Z.lxor_assoc, Z.lxor_nilpotent, Z.lxor_0_r, Nat2Z.id. apply Ascii.ascii_nat_embedding.
Qed.

Lemma xor_from_involutive i data nonce out : xor_from i data nonce = Some out → xor_from i out nonce = Some data.
Proof.
  revert i out. induction data as [|c data IH]; intros i out; cbn [xor_from]; [by intros [= <-]|].
  destruct (String.get _ nonce) as [k|] eqn:Ek; [|done]. destruct (xor_from (S i) data nonce) as [rest|] eqn:Er; [|done].
  intros [= <-]. cbn [xor_from]. rewrite Ek, (IH _ _ Er). simpl. by rewrite byte_xor_involutive.
Qed.

Section EncryptionFacts.
Context `{DefaultHasher}.

(** What is encrypted decrypts. *)
Theorem decrypt_encrypt now m data key e :
  encrypt now m data key = Some (Ok e) → decrypt m e = Some (Ok data).
Proof.
  unfold encrypt. case_bool_decide as Hk; [done|]. destruct (xor_encrypt data _) as [out|] eqn:E; [|done].
  intros [= <-]. unfold decrypt. simpl. rewrite bool_decide_false by done. rewrite bool_decide_true by done. simpl.
  unfold xor_encrypt in *. by rewrite (xor_from_involutive _ _ _ _ E).
Qed.

(** The key takes no part: the data is in clear to whoever holds the message, for
    the nonce stands beside it, and every key gives the same message. *)
Theorem key_is_not_used now m data key e :
  encrypt now m data key = Some (Ok e) →
  xor_encrypt (ed_data e) (ed_nonce e) = Some data ∧
  ∀ key2, is_Some (ey_keys m !! key2) →
    encrypt now m data key2 = Some (Ok (MkEncryptedData key2 (ed_nonce e) (ed_data e) (ed_tag e))).
Proof.
  unfold encrypt. case_bool_decide as Hk; [done|]. destruct (xor_encrypt data _) as [out|] eqn:E; [|done].
  intros [= <-]. simpl. split; [by apply xor_from_involutive|]. intros key2 [k Hk2].
  by rewrite bool_decide_false by (rewrite Hk2; done).
Qed.

(** Nor does the tag need it: anyone makes a message that decrypts to data of their
    choice. *)
Theorem message_forgeable m key data nonce out :
  is_Some (ey_keys m !! key) → xor_encrypt data nonce = Some out →
  decrypt m (MkEncryptedData key nonce out (compute_tag out nonce)) = Some (Ok data).
Proof.
  intros [k Hk] E. unfold decrypt. simpl. rewrite bool_decide_false by (rewrite Hk; done).
  rewrite bool_decide_true by done. simpl. unfold xor_encrypt in *. by rewrite (xor_from_involutive _ _ _ _ E).
Qed.

(** Encryption panics exactly for data with an empty nonce. *)
Theorem encrypt_panics_iff now m data key :
  encrypt now m data key = None ↔ is_Some (ey_keys m !! key) ∧ data ≠ "" ∧ ec_nonce_length (ey_config m) = 0.
Proof.
  assert (∀ s, s ≠ "" → ∀ i, is_Some (String.get (i mod String.length s) s)) as G.
  { intros s Hs i. assert (i mod String.length s < String.length s) as Hl by (apply Nat.mod_upper_bound; by destruct s).
    revert Hl. generalize (i mod String.length s) as k. clear. induction s as [|c s IH]; intros [|k] Hk; simpl in *; [lia..| |].
    - by eexists.
    - apply IH. lia. }
  assert (∀ nonce data i, nonce ≠ "" → is_Some (xor_from i data nonce)) as X.
  { intros nonce data' i Hn. revert i. induction data' as [|c d IH]; intros i; cbn [xor_from]; [by eexists|].
    destruct (G nonce Hn i) as [k ->]. destruct (IH (S i)) as [o ->]. by eexists. }
  assert (String.length (le_bytes 8 (hash_time now)) = 8) as L by done.
  assert (∀ n i, cycle_bytes n i (le_bytes 8 (hash_time now)) = "" ↔ n = 0) as C.
  { intros [|n] i; cbn [cycle_bytes]; [done|]. destruct (G (le_bytes 8 (hash_time now)) ltac:(done) i) as [c ->]. done. }
  unfold encrypt. case_bool_decide as Hk; [split; [done|]; rewrite Hk; by intros [[] _]|].
  apply not_eq_None_Some in Hk. destruct (xor_encrypt data _) as [out|] eqn:E.
  - split; [done|]. intros (_ & Hd & Hn). unfold generate_nonce in E. rewrite Hn in E. by destruct data.
  - split; [|done]. intros _. split; [done|]. split; [by intros ->|].
    destruct (decide (generate_nonce now m = "")) as [Hn|Hn]; [by apply C in Hn|].
    unfold xor_encrypt in E. destruct (X (generate_nonce now m) data 0 Hn) as [? E']. congruence.
Qed.
End EncryptionFacts.

(** ** Keys *)

Inductive key_op := KGenerate (uuid : string) (now : timestamp) (name : string) | KActivate (id : string) | KDelete (id : string).
Definition key_step (m : EncryptionManager) (op : key_op) : EncryptionManager :=
  match op with
  | KGenerate uuid now name => (generate_key uuid now m name).1
  | KActivate id => (activate_key m id).1
  | KDelete id => (delete_key m id).1
  end.

(** The key in use is always one of the keys. *)
Theorem active_key_exists c ops id :
  let m := foldl key_step (EncryptionManager_new c) ops in
  ey_active_key_id m = Some id → ∃ k, get_active_key m = Some k ∧ ek_id k = id.
Proof.
  intros m. enough (map_Forall (λ i k, ek_id k = i) (ey_keys m) ∧
    (∀ i, ey_active_key_id m = Some i → is_Some (ey_keys m !! i))) as [K1 K2].
  { intros E. destruct (K2 _ E) as [k Hk]. exists k. unfold get_active_key. rewrite E. split; [done|]. by apply K1. }
  unfold m. assert (∀ m, map_Forall (λ i k, ek_id k = i) (ey_keys m) ∧
    (∀ i, ey_active_key_id m = Some i → is_Some (ey_keys m !! i)) →
    let m' := foldl key_step m ops in map_Forall (λ i k, ek_id k = i) (ey_keys m') ∧
    (∀ i, ey_active_key_id m' = Some i → is_Some (ey_keys m' !! i))) as K.
  2:{ apply (K (EncryptionManager_new c)). split; [apply map_Forall_empty|done]. }
  clear m. induction ops as [|op ops IH]; intros m [K1 K2]; [done|]. apply IH.
  destruct op as [uuid now name|i|i]; simpl.
  - split; [by apply map_Forall_insert_2|]. intros i [= <-]. rewrite lookup_insert_eq. by eexists.
  - unfold activate_key. rewrite lookup_fmap. destruct (ey_keys m !! i) as [k|] eqn:Ek; simpl.
    + split.
      * apply map_Forall_insert_2; [simpl; by apply K1|]. intros j x. rewrite lookup_fmap, fmap_Some.
        intros (y & Hy & ->). simpl. by apply K1.
      * intros j [= <-]. rewrite lookup_insert_eq. by eexists.
    + split; [intros j x; rewrite lookup_fmap, fmap_Some; intros (y & Hy & ->); simpl; by apply K1|].
      intros j Hj. rewrite lookup_fmap. destruct (K2 _ Hj) as [x ->]. by eexists.
  - unfold delete_key. destruct (ey_keys m !! i) as [k|] eqn:Ek; simpl; [|done].
    rewrite (K1 _ _ Ek). split; [by apply map_Forall_delete|]. intros j. case_bool_decide as D; [done|]. intros Hj.
    rewrite lookup_delete_ne by congruence. by apply K2.
Qed.

(** Activating a key that does not exist puts all keys out of use; the one that was
    active stays the current one, marked inactive. *)
Theorem activating_unknown_disables_all m id :
  ey_keys m !! id = None →
  (activate_key m id).2 = false ∧ map_Forall (λ _ k, ek_active k = false) (ey_keys (activate_key m id).1) ∧
  ey_active_key_id (activate_key m id).1 = ey_active_key_id m.
Proof.
  intros Hn. unfold activate_key. rewrite lookup_fmap, Hn. simpl. split; [done|]. split; [|done].
  intros j x. rewrite lookup_fmap, fmap_Some. by intros (y & _ & ->).
Qed.

(** A new key does not put the others out of use. *)
Theorem generated_key_leaves_others uuid now m name id k :
  id ≠ uuid → ey_keys m !! id = Some k → ey_keys (generate_key uuid now m name).1 !! id = Some k.
Proof. intros Hn Hk. simpl. by rewrite lookup_insert_ne. Qed.

(** *** Two locks in two orders *)

(** [get_active_key] takes the lock of the active key and then that of the keys, for
    reading; [generate_key], [activate_key] and [delete_key] take the keys and then
    the active key, for writing.  Each passes from 0 (no lock) to 1, 2 (both) and 3. *)
Inductive key_locks_step : nat * nat → nat * nat → Prop :=
| reader_active w : w ≠ 2 → key_locks_step (0, w) (1, w)
| reader_keys w : w ≠ 1 → w ≠ 2 → key_locks_step (1, w) (2, w)
| reader_done w : key_locks_step (2, w) (3, w)
| writer_keys r : r ≠ 2 → key_locks_step (r, 0) (r, 1)
| writer_active r : r ≠ 1 → r ≠ 2 → key_locks_step (r, 1) (r, 2)
| writer_done r : key_locks_step (r, 2) (r, 3).

Theorem key_locks_deadlock :
  rtc key_locks_step (0, 0) (1, 1) ∧ ∀ s, ¬ key_locks_step (1, 1) s.
Proof.
  split; [|intros s Hs; inversion Hs; lia].
  eapply rtc_l; [by apply reader_active|]. apply rtc_once. by apply writer_keys.
Qed.

(** ** Schedules and retention *)

Lemma quot_le_iff a b d : (0 < b)%Z → (0 ≤ d)%Z → (0 ≤ a)%Z → (a ≤ Z.quot d b ↔ a * b ≤ d)%Z.
Proof. intros Hb Hd Ha. rewrite Z.quot_div_nonneg by lia. split; intros Hq; [pose proof (Z.mul_div_le d b Hb); nia|apply Z.div_le_lower_bound; lia]. Qed.

(** After a full backup the next one is due exactly when the hours of the interval
    have passed since the last one was started. *)
Theorem full_backup_due now s r size sum t :
  br_backup_type r = BackupFull → (0 ≤ bg_full_backup_interval_hours (bs_config s))%Z → (br_started_at r ≤ now)%Z →
  (needs_full_backup now (complete_backup t s r size sum).1 = true ↔
   (br_started_at r + bg_full_backup_interval_hours (bs_config s) * seconds 3600 ≤ now)%Z).
Proof.
  intros Hf Hi Hs. unfold needs_full_backup, complete_backup, interval_over, num_hours. simpl. rewrite Hf.
  rewrite bool_decide_eq_true, quot_le_iff by (unfold nanos_per_sec; lia). unfold seconds, nanos_per_sec. lia.
Qed.

Lemma latest_started_from l a r :
  foldl (λ best r, match best with
                   | Some b => if bool_decide (br_started_at b ≤ br_started_at r)%Z then Some r else best
                   | None => Some r
                   end) (Some a) l = Some r →
  (r = a ∨ r ∈ l) ∧ (br_started_at a ≤ br_started_at r)%Z ∧ ∀ x, x ∈ l → (br_started_at x ≤ br_started_at r)%Z.
Proof.
  revert a. induction l as [|b l IH]; intros a; cbn [foldl]; [intros [= <-]; set_solver by lia|].
  case_bool_decide; intros (Hr & Ha & Hl)%IH; set_solver by lia.
Qed.
Lemma latest_started_spec l r :
  latest_started l = Some r → r ∈ l ∧ ∀ x, x ∈ l → (br_started_at x ≤ br_started_at r)%Z.
Proof. destruct l as [|a l]; [done|]. intros (Hr & Ha & Hl)%latest_started_from. set_solver. Qed.
Lemma latest_started_None l : latest_started l = None → l = [].
Proof.
  destruct l as [|a l]; [done|]. unfold latest_started. cbn [foldl]. revert a.
  induction l as [|b l IH]; intros a; cbn [foldl]; [done|]. case_bool_decide; by intros E%IH.
Qed.
Lemma completed_full_filter l x : x ∈ List.filter completed_full l ↔ x ∈ l ∧ completed_full x = true.
Proof. rewrite elem_of_filter_bool. naive_solver. Qed.

(** An incremental backup stands on the latest completed full backup among the
    records, and on none exactly when there is no such backup. *)
Theorem base_is_latest uuid date now s :
  match br_base_backup_id (create_backup_record uuid date now s BackupIncremental) with
  | Some base => ∃ r, r ∈ bs_records s ∧ completed_full r = true ∧ br_id r = base ∧
      ∀ x, x ∈ bs_records s → completed_full x = true → (br_started_at x ≤ br_started_at r)%Z
  | None => ∀ x, x ∈ bs_records s → completed_full x = false
  end.
Proof.
  unfold create_backup_record. destruct (latest_started _) as [r|] eqn:E; simpl.
  - apply latest_started_spec in E as [[Hr Hc]%completed_full_filter Hl]. exists r. split_and!; [done..|].
    intros x Hx Hf. by apply Hl, completed_full_filter.
  - apply latest_started_None in E. intros x Hx. destruct (completed_full x) eqn:Hf; [|done].
    assert (x ∈ List.filter completed_full (bs_records s)) as Hin by by apply completed_full_filter. rewrite E in Hin. set_solver.
Qed.

Lemma remove_record_tail id (l1 l2 : list BackupRecord) r :
  id ∉ br_id <$> l1 → br_id r = id → remove_record id (l1 ++ r :: l2) = (l1 ++ l2, Some (br_storage_path r)).
Proof.
  intros Hn <-. induction l1 as [|a l1 IH]; cbn [remove_record app]; [by rewrite bool_decide_true|].
  rewrite fmap_cons, not_elem_of_cons in Hn. destruct Hn. rewrite bool_decide_false by done. by rewrite IH.
Qed.
Lemma remove_records_tail (l1 l2 : list BackupRecord) :
  NoDup (br_id <$> l1 ++ l2) → remove_records (br_id <$> l2) (l1 ++ l2) = (l1, br_storage_path <$> l2).
Proof.
  induction l2 as [|r l2 IH]; [by rewrite app_nil_r|]. rewrite fmap_app, fmap_cons. intros Hd. cbn [remove_records].
  rewrite remove_record_tail; [|apply NoDup_app in Hd; set_solver|done].
  rewrite IH; [done|]. rewrite fmap_app. apply NoDup_app in Hd as (? & ? & [? ?]%NoDup_cons). apply NoDup_app. set_solver.
Qed.

(** With distinct identifiers the cleanup keeps the latest started of the
    configured number, of whatever kind and outcome, and removes the files of the
    others. *)
Theorem backup_cleanup_exact s :
  NoDup (br_id <$> bs_records s) →
  let sorted := sort_by later_started (bs_records s) in
  let n := bg_retention_count (bs_config s) in
  let '(s', files, count) := cleanup_old_backups s in
  bs_records s' = take n sorted ∧ files = br_storage_path <$> drop n sorted ∧
  count = Z.of_nat (length (bs_records s) - n).
Proof.
  intros Hd sorted n. unfold cleanup_old_backups. fold sorted n.
  assert (NoDup (br_id <$> take n sorted ++ drop n sorted)) as Hs.
  { rewrite take_drop. unfold sorted. by rewrite sort_by_perm. }
  pose proof (remove_records_tail _ _ Hs) as E. rewrite take_drop in E. rewrite E. simpl.
  split_and!; [done..|]. unfold zlen. rewrite length_fmap, length_drop. unfold sorted. by rewrite sort_by_length.
Qed.

(** What is kept started no earlier than what is removed. *)
Theorem cleanup_keeps_latest s x y :
  let sorted := sort_by later_started (bs_records s) in
  let n := bg_retention_count (bs_config s) in
  x ∈ take n sorted → y ∈ drop n sorted → (br_started_at y ≤ br_started_at x)%Z.
Proof.
  intros sorted n Hx Hy.
  assert (StronglySorted (λ a b, later_started a b = true) (take n sorted ++ drop n sorted)) as S.
  { rewrite take_drop. apply sort_by_sorted.
    - intros a b. unfold later_started. rewrite !bool_decide_eq_true. lia.
    - intros a b c. unfold later_started. rewrite !bool_decide_eq_true. lia. }
  pose proof (proj1 (StronglySorted_app _ _ _) S) as (L & _ & _).
  specialize (L _ _ Hx Hy). unfold later_started in L. by rewrite bool_decide_eq_true in L.
Qed.

(** It does not look at what the backups stand on: the incremental backup it keeps
    can be left without its base. *)
Theorem cleanup_removes_base :
  let config := MkBackupScheduleConfig [] 24 4 1 true true in
  let s0 := BackupScheduler_new config in
  let full := start_backup (seconds 1) (create_backup_record "f" "1" 0 s0 BackupFull) in
  let s1 := (complete_backup (seconds 2) s0 full 10 "c").1 in
  let incremental := start_backup (seconds 3) (create_backup_record "i" "2" 0 s1 BackupIncremental) in
  let s2 := (complete_backup (seconds 4) s1 incremental 1 "c").1 in
  let '(s3, files, _) := cleanup_old_backups s2 in
  (λ r, (br_id r, br_base_backup_id r)) <$> bs_records s3 = [("i", Some "f")] ∧
  files = [br_storage_path full] ∧ get_backup_record s3 "f" = None.
Proof. by vm_compute. Qed.

Lemma count_of_add {A} (f g : A → bool) l :
  (∀ x, f x = true → g x = false) → (count_of f l + count_of g l = count_of (λ x, f x || g x) l)%Z.
Proof.
  intros D. unfold count_of, zlen. induction l as [|x l IH]; simpl; [done|]. pose proof (D x) as Dx.
  destruct (f x), (g x); simpl; naive_solver lia.
Qed.
Lemma count_of_all {A} (f : A → bool) l : (∀ x, f x = true) → count_of f l = zlen l.
Proof. intros T. unfold count_of, zlen. induction l as [|x l IH]; simpl; [done|]. rewrite T. simpl. lia. Qed.

(** The records are counted once by their status, and the completed ones once by
    their kind. *)
Theorem backup_stats_add_up s :
  let k := backup_stats s in
  (bk_completed k + bk_running k + bk_pending k + bk_failed k = bk_total k)%Z ∧
  (bk_full k + bk_incremental k = bk_completed k)%Z.
Proof.
  unfold backup_stats. simpl. split.
  - rewrite !count_of_add.
    + apply count_of_all. intros r. by destruct (br_status r).
    + intros r. by destruct (br_status r).
    + intros r. by destruct (br_status r).
    + intros r. by destruct (br_status r).
  - rewrite count_of_add by (intros r; by destruct (br_backup_type r)). apply count_of_all.
    intros r. by destruct (br_backup_type r).
Qed.

(** ** Restores *)

Section RestoreFacts.
Context `{DefaultHasher, BackupFiles, PathTexts}.

(** With the verification on, a restore begins exactly for a completed backup whose
    file exists, can be read, and has the checksum of the record. *)
Theorem restore_verified uuid now m b target :
  rg_verify_integrity (rm_config m) = true →
  (∃ r, (start_restore uuid now m b target).2 = Ok r) ↔
  br_status b = BackupCompleted ∧ backup_exists (br_storage_path b) = true ∧
  ∃ data, backup_read (br_storage_path b) = Ok data ∧ hex_u64 (hash_bytes data) = br_checksum b.
Proof.
  intros Hv. unfold start_restore, verify_backup. rewrite Hv. simpl.
  case_bool_decide as Hs; simpl; [|split; [by intros [r Hr]|by intros [? _]]].
  destruct (backup_exists _) eqn:Hx; simpl; [|split; [by intros [r Hr]|by intros (_ & ? & _)]].
  destruct (backup_read _) as [data|e] eqn:Hd; [|split; [by intros [r Hr]|by intros (_ & _ & ? & ? & _)]].
  case_bool_decide as Hc; simpl; split.
  - intros _. split; [done|]. split; [done|]. by exists data.
  - intros _. by eexists.
  - by intros [r Hr].
  - intros (_ & _ & d & [= <-] & Hh). done.
Qed.

(** Without it everything is restored, even a backup that failed. *)
Theorem restore_unverified uuid now m b target :
  rg_verify_integrity (rm_config m) = false → ∃ r, (start_restore uuid now m b target).2 = Ok r.
Proof. intros Hv. unfold start_restore, verify_backup. rewrite Hv. by eexists. Qed.

Inductive restore_call :=
| CallStart (uuid : string) (now : timestamp) (b : BackupRecord) (target : path)
| CallPitr (uuid : string) (now : timestamp) (b : BackupRecord) (target : path) (t : timestamp)
| CallComplete (now : timestamp) (id : string)
| CallFail (now : timestamp) (id error : string)
| CallRollback (now : timestamp) (id reason : string).
Definition restore_run (m : RestoreManager) (c : restore_call) : RestoreManager :=
  match c with
  | CallStart uuid now b target => (start_restore uuid now m b target).1
  | CallPitr uuid now b target t => (start_pitr_restore uuid now m b target t).1
  | CallComplete now id => (complete_restore now m id).1
  | CallFail now id e => (fail_restore now m id e).1
  | CallRollback now id e => (rollback_restore now m id e).1
  end.

Lemma change_restore_Forall (P : RestoreRecord → Prop) id f l l' :
  (∀ r, P r → P (f r)) → Forall P l → change_restore id f l = Some l' → Forall P l'.
Proof.
  intros Hf HP. revert l'. induction HP as [|r l Hr Hl IH]; intros l'; cbn [change_restore]; [done|].
  case_bool_decide; [intros [= <-]; constructor; auto|]. destruct (change_restore id f l) as [l2|]; [|done].
  intros [= <-]. constructor; auto.
Qed.
Lemma with_restore_Forall (P : RestoreRecord → Prop) m id f :
  (∀ r, P r → P (f r)) → Forall P (rm_records m) → Forall P (rm_records (with_restore m id f).1).
Proof.
  intros Hf HP. unfold with_restore. destruct (change_restore _ _ _) as [l|] eqn:E; [|done]. simpl.
  by eapply change_restore_Forall.
Qed.
Lemma start_restore_Forall (P : RestoreRecord → Prop) uuid now m b target :
  P (set_restore_status RestoreRunning (RestoreRecord_new uuid now (br_id b) target)) →
  Forall P (rm_records m) → Forall P (rm_records (start_restore uuid now m b target).1).
Proof.
  intros Hn HP. unfold start_restore. destruct (verify_backup m b); [|done]. simpl. apply Forall_app. auto.
Qed.

(** The point in time of a restore is on the answer only: no record has one, and
    the statistics count none. *)
Theorem pitr_never_recorded c calls :
  let m := foldl restore_run (MkRestoreManager c []) calls in
  Forall (λ r, rr_point_in_time r = None) (rm_records m) ∧ rx_pitr (restore_stats m) = 0%Z.
Proof.
  intros m. assert (Forall (λ r, rr_point_in_time r = None) (rm_records m)) as F.
  { unfold m. assert (Forall (λ r, rr_point_in_time r = None) (rm_records (MkRestoreManager c []))) as F by done.
    revert F. generalize (MkRestoreManager c []). clear m. induction calls as [|k calls IH]; intros m F; [done|]. apply IH.
    destruct k; simpl; [by apply start_restore_Forall| |by apply with_restore_Forall..].
    unfold start_pitr_restore. case_bool_decide; simpl; [|done].
    pose proof (start_restore_Forall (λ r, rr_point_in_time r = None) uuid now m b target eq_refl F) as F'.
    by destruct (start_restore uuid now m b target) as [m' [r|e]]. }
  split; [done|]. simpl. unfold count_of. clear -F. induction F as [|r l Hr F IH]; [done|]. simpl.
  by rewrite Hr.
Qed.

(** A restore record passes from any status to any of the three final ones: a
    restore that failed completes, and one that was rolled back fails. *)
Theorem restore_outcome_overwritten now m id r e :
  get_restore m id = Some r →
  ∃ r1 r2 r3, get_restore (complete_restore now m id).1 id = Some r1 ∧ rr_status r1 = RestoreCompleted ∧
    get_restore (fail_restore now m id e).1 id = Some r2 ∧ rr_status r2 = RestoreWasFailed ∧
    get_restore (rollback_restore now m id e).1 id = Some r3 ∧ rr_status r3 = RestoreRolledBack.
Proof.
  assert (∀ f, (∀ x, rr_id (f x) = rr_id x) → get_restore m id = Some r →
    get_restore (with_restore m id f).1 id = Some (f r)) as K; last (intros Hr; do 3 eexists; split_and!; by try apply K).
  intros f Hid. unfold get_restore, with_restore.
  assert (∀ l, List.find (λ r, bool_decide (rr_id r = id)) l = Some r →
    ∃ l', change_restore id f l = Some l' ∧ List.find (λ r, bool_decide (rr_id r = id)) l' = Some (f r)) as F;
    last (intros [l' [-> ?]]%F; done).
  induction l as [|x l IH]; cbn [List.find change_restore]; [done|]. case_bool_decide as Hx.
  - intros [= ->]. eexists. split; [done|]. simpl. by rewrite Hid, bool_decide_true.
  - intros [l' [-> Hl]]%IH. eexists. split; [done|]. simpl. by rewrite bool_decide_false.
Qed.
End RestoreFacts.

(** ** Replication *)

(** A replication is taken on for any backup and any target, the unknown and the
    disabled ones too; it is recorded as pending, and nothing starts it. *)
Theorem replication_of_unknown uuid now m source target :
  let '(m', t) := create_replication uuid now m source target in
  ra_tasks m' = ra_tasks m ++ [t] ∧ rn_status t = ReplicationPending ∧ rn_target_id t = target ∧ rn_source_backup_id t = source.
Proof. done. Qed.

(** Removing a target removes the first with the identifier, and leaves the tasks
    that replicate to it. *)
Theorem remove_target_exact m id m' :
  remove_target m id = (m', true) →
  ∃ l1 t l2, ra_targets m = l1 ++ t :: l2 ∧ rt_id t = id ∧ id ∉ rt_id <$> l1 ∧ ra_targets m' = l1 ++ l2 ∧ ra_tasks m' = ra_tasks m.
Proof.
  unfold remove_target. destruct (drop_target id (ra_targets m)) as [l|] eqn:E; [|done]. intros [= <-]. simpl.
  revert l E. induction (ra_targets m) as [|t l0 IH]; intros l; cbn [drop_target]; [done|]. case_bool_decide as Ht.
  - intros [= <-]. exists [], t, l0. split_and!; try done. apply not_elem_of_nil.
  - destruct (drop_target id l0) as [l'|]; [|done]. intros [= <-].
    destruct (IH _ eq_refl) as (l1 & t' & l2 & -> & ? & ? & -> & ?). exists (t :: l1), t', l2.
    split_and!; try done. rewrite fmap_cons. set_solver.
Qed.

Theorem replication_stats_add_up m :
  let k := replication_stats m in
  (rz_completed k + rz_running k + rz_pending k + rz_failed k = rz_total_tasks k)%Z ∧
  (rz_enabled_targets k ≤ rz_total_targets k)%Z.
Proof.
  unfold replication_stats. simpl. split.
  - rewrite !count_of_add; [|intros t; by destruct (rn_status t)..]. apply count_of_all. intros t. by destruct (rn_status t).
  - unfold count_of, zlen. pose proof (filter_length rt_enabled (ra_targets m)). lia.
Qed.
