(* ===== verification/Layered.v ===== *)
(** Agents and skills in layers ([crates/uhorse-agent/src/skill.rs],
    [agent.rs] and the [LayeredAgentCatalog] of
    [crates/uhorse-hub/src/web/mod.rs]): a global table and one per scope, and what
    a session finds in them along its chain of scopes. *)
From S2P Require Import Prelude Text ProtocolTypes Paths AgentRouting.

(** The two catalogues of the code are the same over their values. *)
Record Layered (V : Type) := MkLayered { ly_global : gmap string V; ly_scoped : gmap string (gmap string V) }.
Arguments MkLayered {V}.
Arguments ly_global {V}.
Arguments ly_scoped {V}.
(** A value and where it is from. *)
Record LayeredEntry (V : Type) := MkLayeredEntry { le_value : V; le_source_layer : string; le_source_scope : option string }.
Arguments MkLayeredEntry {V}.
Arguments le_value {V}.
Arguments le_source_layer {V}.
Arguments le_source_scope {V}.

Section Layered.
Context `{HashOrder} {V : Type}.
Implicit Types (c : Layered V) (scopes : list string) (name : string).

Definition layered_new (global : gmap string V) : Layered V := MkLayered global ∅.
Definition register_scoped c (scope : string) (values : gmap string V) : Layered V :=
  MkLayered (ly_global c)
    (if bool_decide (values = ∅) then delete scope (ly_scoped c) else <[scope := values]> (ly_scoped c)).

Definition scoped_value c (scope name : string) : option V := ly_scoped c !! scope ≫= λ t, t !! name.
Definition scoped_entry (scope : string) (v : V) : LayeredEntry V :=
  MkLayeredEntry v (scope_layer_from_scope scope) (Some scope).
Definition global_entry (v : V) : LayeredEntry V := MkLayeredEntry v "global" None.

(** The first scope of the list that has the name, else the global table. *)
Fixpoint find_in_scopes c scopes name : option (LayeredEntry V) :=
  match scopes with
  | [] => None
  | scope :: scopes =>
      match scoped_value c scope name with
      | Some v => Some (scoped_entry scope v)
      | None => find_in_scopes c scopes name
      end
  end.
Definition scopes_or_global c scopes name : option (LayeredEntry V) :=
  match find_in_scopes c scopes name with
  | Some e => Some e
  | None => global_entry <$> ly_global c !! name
  end.

Definition layered_by_source c name (layer : string) (scope : option string) : option (LayeredEntry V) :=
  if bool_decide (layer = "global") then
    match scope with Some _ => None | None => global_entry <$> ly_global c !! name end
  else
    scope ≫= λ scope,
      if bool_decide (scope_layer_from_scope scope = layer) then scoped_entry scope <$> scoped_value c scope name
      else None.

Definition sorted_scopes {T} (m : gmap string T) : list string := sort_by str_leb (hash_keys m).
Definition scope_rank_leb (a b : string) : bool :=
  let ra := scope_layer_rank (scope_layer_from_scope a) in
  let rb := scope_layer_rank (scope_layer_from_scope b) in
  if bool_decide (ra = rb) then str_leb a b else bool_decide (ra < rb).
Definition sorted_scopes_by_rank {T} (m : gmap string T) : list string := sort_by scope_rank_leb (hash_keys m).
Definition any_entry c name : option (LayeredEntry V) :=
  scopes_or_global c (sorted_scopes_by_rank (ly_scoped c)) name.

(** All names, in order. *)
Definition all_names c : list string :=
  dedup (sort_by str_leb (hash_keys (ly_global c) ++ (hash_values (ly_scoped c) ≫= hash_keys))).
(** The names a list of scopes sees. *)
Definition names_for_scopes c scopes : list string :=
  dedup (sort_by str_leb (hash_keys (ly_global c)
    ++ (reverse scopes ≫= λ scope, match ly_scoped c !! scope with Some t => hash_keys t | None => [] end))).

(** Entries are ordered by the name their value has, then the layer, then the scope. *)
Context (name_of : V → string).
Definition entry_leb (a b : LayeredEntry V) : bool :=
  if bool_decide (name_of (le_value a) = name_of (le_value b)) then
    let ra := scope_layer_rank (le_source_layer a) in
    let rb := scope_layer_rank (le_source_layer b) in
    if bool_decide (ra = rb) then str_leb (default "" (le_source_scope a)) (default "" (le_source_scope b))
    else bool_decide (ra < rb)
  else str_leb (name_of (le_value a)) (name_of (le_value b)).
Definition unsorted_entries c : list (LayeredEntry V) :=
  (global_entry <$> hash_values (ly_global c))
    ++ (sorted_scopes (ly_scoped c) ≫= λ scope,
          match ly_scoped c !! scope with Some t => scoped_entry scope <$> hash_values t | None => [] end).
Definition all_entries c : list (LayeredEntry V) := sort_by entry_leb (unsorted_entries c).
End Layered.

(** ** Skills ([skill.rs]) *)

Record SkillParameter (Json : Type) := MkSkillParameter {
  sp_name : string; sp_description : string; sp_param_type : string; sp_required : bool; sp_default : option Json }.
Record SkillManifest (Json : Type) := MkSkillManifest {
  mf_name : string; mf_description : string; mf_version : string; mf_author : option string;
  mf_parameters : list (SkillParameter Json); mf_permissions : list string }.
Arguments MkSkillManifest {Json}.
Arguments mf_name {Json}.
Arguments mf_description {Json}.
Arguments mf_version {Json}.
Arguments mf_author {Json}.
Arguments mf_parameters {Json}.
Arguments mf_permissions {Json}.
Record SkillConfig := MkSkillConfig {
  sc_enabled : bool; sc_timeout : Z; sc_max_retries : nat; sc_executable : option string; sc_args : list string;
  sc_env : gmap string string }.
Definition default_timeout : Z := 30.
Definition skill_default_max_retries : nat := 3.
Definition SkillConfig_default : SkillConfig := MkSkillConfig false default_timeout skill_default_max_retries None [] ∅.

(** What runs a skill: nothing, or a process in the skill's directory. *)
Inductive SkillExecutor :=
| DummySkillExecutor (name description : string)
| ProcessSkillExecutor (name description executable : string) (args : list string) (env : gmap string string)
    (timeout_secs : Z) (workdir : path).
Record Skill (Json : Type) := MkSkill { sl_manifest : SkillManifest Json; sl_config : SkillConfig; sl_executor : SkillExecutor }.
Arguments MkSkill {Json}.
Arguments sl_manifest {Json}.
Arguments sl_config {Json}.
Arguments sl_executor {Json}.
Definition skill_name {Json} (s : Skill Json) : string := mf_name (sl_manifest s).

(** A process is started with a program, its arguments, the variables that are set
    for it and a directory, and waited for that long. *)
Inductive process_outcome :=
| ProcessTimedOut
| ProcessNotRun (error : string)
| ProcessExited (success : bool) (status_text stdout stderr : string).
Class Processes := run_process : string → list string → gmap string string → path → Z → process_outcome.
(** The pretty text of a JSON text, if it is one; it may not be printable. *)
Class SkillOutput := skill_output_json : string → option (option string).

Section Execution.
Context `{Processes, SkillOutput} {Json : Type}.

(** The variables of the configuration come after those of the call. *)
Definition process_env (name input : string) (env : gmap string string) : gmap string string :=
  env ∪ <["SKILL_NAME" := name]> {["SKILL_INPUT" := input]}.
Definition executor_run (e : SkillExecutor) (input : string) : AgentResult string :=
  match e with
  | DummySkillExecutor name _ => Ok ("[Skill: " +:+ name +:+ "] Executed with input: " +:+ input)
  | ProcessSkillExecutor name _ executable args env timeout workdir =>
      match run_process executable args (process_env name input env) workdir timeout with
      | ProcessTimedOut => Err (AeSkillExecution name ("timed out after " +:+ display_u timeout +:+ "s"))
      | ProcessNotRun e => Err (AeSkillExecution name e)
      | ProcessExited success status out err =>
          let out := str_trim out in
          let err := str_trim err in
          if negb success then
            Err (AeSkillExecution name (if bool_decide (err = "") then "process exited with status " +:+ status else err))
          else if negb (bool_decide (err = "")) then Err (AeSkillExecution name err)
          else if bool_decide (out = "") then Ok ""
          else match skill_output_json out with Some pretty => Ok (default out pretty) | None => Ok out end
      end
  end.
Definition skill_execute (s : Skill Json) (input : string) : AgentResult string :=
  if negb (sc_enabled (sl_config s)) then Err (AeSkill ("Skill " +:+ skill_name s +:+ " is disabled"))
  else executor_run (sl_executor s) input.
End Execution.

(** *** Loading *)

(** What is in the directories of skills, and the readers of the two formats. *)
Class SkillFiles (Json : Type) := {
  sf_exists : path → bool;
  sf_is_dir : path → bool;
  sf_read : path → Result string string;
  (** The entries, in some order; the listing and each of its steps can fail. *)
  sf_list : path → Result (list (Result path string)) string;
  sf_yaml : string → Result (SkillManifest Json) string;
  sf_toml : string → Result SkillConfig string
}.
Definition file_in (dir : path) (name : string) : path := path_join dir (path_of_string name).

Section Loading.
Context {Json : Type} `{SkillFiles Json}.

Definition parse_skill_md (content : string) : AgentResult (SkillManifest Json) :=
  match strip_prefix "---" (str_trim content) with
  | None => Err (AeSkill "SKILL.md must start with YAML frontmatter")
  | Some rest =>
      match String.index 0 "---" rest with
      | None => Err (AeSkill "Invalid YAML frontmatter")
      | Some n =>
          match sf_yaml (slice_to n rest) with
          | Ok m => Ok m
          | Err e => Err (AeSkill ("Failed to parse SKILL.md: " +:+ e))
          end
      end
  end.

Definition inferred_config (dir : path) : SkillConfig :=
  let args := if sf_exists (file_in (file_in dir "src") "main.py") then ["src/main.py"]
              else if sf_exists (file_in dir "main.py") then ["main.py"] else [] in
  MkSkillConfig (negb (bool_decide (args = []))) default_timeout skill_default_max_retries
    (if bool_decide (args = []) then None else Some "python3") args ∅.
Definition skill_config_of (dir : path) : AgentResult SkillConfig :=
  if sf_exists (file_in dir "skill.toml") then
    match sf_read (file_in dir "skill.toml") with
    | Err e => Err (AeIo e)
    | Ok text => match sf_toml text with Ok c => Ok c | Err e => Err (AeSkill ("Failed to parse skill.toml: " +:+ e)) end
    end
  else Ok (if sf_exists (file_in dir "skill.yaml") then inferred_config dir else SkillConfig_default).
Definition executor_of (m : SkillManifest Json) (c : SkillConfig) (dir : path) : SkillExecutor :=
  match sc_executable c with
  | Some executable =>
      ProcessSkillExecutor (mf_name m) (mf_description m) executable (sc_args c) (sc_env c) (sc_timeout c) dir
  | None => DummySkillExecutor (mf_name m) (mf_description m)
  end.
Definition load_skill (dir : path) : AgentResult (Skill Json) :=
  match sf_read (file_in dir "SKILL.md") with
  | Err e => Err (AeIo e)
  | Ok text =>
      let? m := parse_skill_md text in
      let? c := skill_config_of dir in
      Ok (MkSkill m c (executor_of m c dir))
  end.

(** A directory whose skill does not load is passed over. *)
Definition skill_register (r : gmap string (Skill Json)) (s : Skill Json) : gmap string (Skill Json) := <[skill_name s := s]> r.
Fixpoint load_entries (entries : list (Result path string)) (r : gmap string (Skill Json)) (count : nat)
    : AgentResult (gmap string (Skill Json) * nat) :=
  match entries with
  | [] => Ok (r, count)
  | Err e :: _ => Err (AeIo e)
  | Ok p :: entries =>
      if sf_is_dir p then
        match load_skill p with
        | Ok s => load_entries entries (skill_register r s) (S count)
        | Err _ => load_entries entries r count
        end
      else load_entries entries r count
  end.
Definition load_from_dir (dir : path) (r : gmap string (Skill Json)) : AgentResult (gmap string (Skill Json) * nat) :=
  match sf_list dir with Ok entries => load_entries entries r 0 | Err e => Err (AeIo e) end.
Definition registry_from_dir (dir : path) : AgentResult (gmap string (Skill Json)) :=
  if sf_exists dir then let? x := load_from_dir dir ∅ in Ok x.1 else Ok ∅.
End Loading.

Abbreviation SkillRegistry Json := (gmap string (Skill Json)).
Abbreviation LayeredSkillRegistry Json := (Layered (Skill Json)).

Section LayeredSkills.
Context `{HashOrder} {Json : Type}.
Implicit Types (r : LayeredSkillRegistry Json).

Definition LayeredSkillRegistry_new : SkillRegistry Json → LayeredSkillRegistry Json := layered_new.
Definition register_scoped_registry r (scope : string) (t : SkillRegistry Json) : LayeredSkillRegistry Json :=
  register_scoped r scope t.
Definition skill_for_scopes_entry r (scopes : list string) (name : string) : option (LayeredEntry (Skill Json)) :=
  scopes_or_global r scopes name.
Definition skill_for_scopes r (scopes : list string) (name : string) : option (Skill Json) :=
  le_value <$> skill_for_scopes_entry r scopes name.
Definition skill_entry_by_source r (name layer : string) (scope : option string) : option (LayeredEntry (Skill Json)) :=
  layered_by_source r name layer scope.
Definition list_skill_names_for_scopes r (scopes : list string) : list string := names_for_scopes r scopes.
Definition skill_source_for_scopes r (scopes : list string) (name : string) : option string :=
  le_source_layer <$> skill_for_scopes_entry r scopes name.
Definition list_all_skill_names r : list string := all_names r.
Definition list_all_skill_entries r : list (LayeredEntry (Skill Json)) := all_entries skill_name r.
Definition any_skill_entry r (name : string) : option (LayeredEntry (Skill Json)) := any_entry r name.
Definition any_skill r (name : string) : option (Skill Json) := le_value <$> any_skill_entry r name.
End LayeredSkills.

(** * Theorems *)

(** Comparing by a key first, and by another order when the keys are equal. *)
Section Lexicographic.
Context {A K : Type} `{EqDecision K} (key : A → K) (r1 : K → K → bool) (r2 : A → A → bool).
Definition lex (a b : A) : bool := if bool_decide (key a = key b) then r2 a b else r1 (key a) (key b).
Context (total1 : ∀ x y, x ≠ y → r1 x y = true ∨ r1 y x = true) (total2 : ∀ a b, r2 a b = true ∨ r2 b a = true).
Context (trans1 : ∀ x y z, r1 x y = true → r1 y z = true → r1 x z = true).
Context (trans2 : ∀ a b d, r2 a b = true → r2 b d = true → r2 a d = true).
Context (anti1 : ∀ x y, r1 x y = true → r1 y x = true → x = y).

Lemma lex_total a b : lex a b = true ∨ lex b a = true.
Proof.
  unfold lex. destruct (decide (key a = key b)) as [->|N]; [rewrite !bool_decide_true by done; apply total2|].
  rewrite !bool_decide_false by congruence. by apply total1.
Qed.
Lemma lex_trans a b d : lex a b = true → lex b d = true → lex a d = true.
Proof.
  unfold lex. destruct (decide (key a = key b)) as [E|N], (decide (key b = key d)) as [E'|N'].
  - rewrite !bool_decide_true by congruence. apply trans2.
  - rewrite (bool_decide_true (key a = _)), !bool_decide_false by congruence. by rewrite E.
  - rewrite (bool_decide_false (key a = key b)), (bool_decide_true (key b = _)), bool_decide_false by congruence. by rewrite E'.
  - rewrite (bool_decide_false (key a = key b)), (bool_decide_false (key b = _)) by done. intros L1 L2.
    destruct (decide (key a = key d)) as [E|N2]; [|rewrite bool_decide_false by done; eauto].
    destruct N. apply anti1; [done|]. by rewrite E.
Qed.
Lemma lex_anti a b : lex a b = true → lex b a = true → key a = key b ∧ r2 a b = true ∧ r2 b a = true.
Proof.
  unfold lex. destruct (decide (key a = key b)) as [E|N].
  - rewrite !bool_decide_true by congruence. done.
  - rewrite !bool_decide_false by congruence. intros L1 L2. destruct N. by apply anti1.
Qed.
End Lexicographic.

Definition nat_before (x y : nat) : bool := bool_decide (x < y).
Lemma nat_before_total x y : x ≠ y → nat_before x y = true ∨ nat_before y x = true.
Proof. unfold nat_before. rewrite !bool_decide_eq_true. lia. Qed.
Lemma nat_before_trans x y z : nat_before x y = true → nat_before y z = true → nat_before x z = true.
Proof. unfold nat_before. rewrite !bool_decide_eq_true. lia. Qed.
Lemma nat_before_anti x y : nat_before x y = true → nat_before y x = true → x = y.
Proof. unfold nat_before. rewrite !bool_decide_eq_true. lia. Qed.
#[local] Hint Resolve nat_before_total nat_before_trans nat_before_anti str_leb_total str_leb_trans : core.

Section LayeredFacts.
Context `{HashOrder} {V : Type}.
Implicit Types (c : Layered V) (scopes : list string) (name : string) (e : LayeredEntry V).

Lemma layer_global_iff scope : scope_layer_from_scope scope = "global" ↔ scope = "global".
Proof. unfold scope_layer_from_scope. case_decide as D; [done|]. split; [|done]. by repeat case_match. Qed.

Lemma find_in_scopes_spec c scopes name :
  match find_in_scopes c scopes name with
  | Some e => ∃ before scope after v, scopes = before ++ scope :: after ∧ scoped_value c scope name = Some v ∧
      e = scoped_entry scope v ∧ Forall (λ s, scoped_value c s name = None) before
  | None => Forall (λ s, scoped_value c s name = None) scopes
  end.
Proof.
  induction scopes as [|s scopes IH]; cbn [find_in_scopes]; [constructor|].
  destruct (scoped_value c s name) as [v|] eqn:E; [by exists [], s, scopes, v|].
  destruct (find_in_scopes c scopes name) as [e|]; [|by constructor].
  destruct IH as (before & scope & after & v & -> & Hv & -> & Hb). exists (s :: before), scope, after, v.
  split_and!; try done. by constructor.
Qed.

(** A session finds what the first scope of its chain has under the name, and the
    global value exactly when none of them has one. *)
Theorem scopes_nearest_first c scopes name :
  match scopes_or_global c scopes name with
  | Some e =>
      (∃ before scope after v, scopes = before ++ scope :: after ∧ scoped_value c scope name = Some v ∧
         e = scoped_entry scope v ∧ Forall (λ s, scoped_value c s name = None) before) ∨
      (∃ v, ly_global c !! name = Some v ∧ e = global_entry v ∧ Forall (λ s, scoped_value c s name = None) scopes)
  | None => ly_global c !! name = None ∧ Forall (λ s, scoped_value c s name = None) scopes
  end.
Proof.
  unfold scopes_or_global. pose proof (find_in_scopes_spec c scopes name) as F.
  destruct (find_in_scopes c scopes name) as [e|]; [by left|].
  destruct (ly_global c !! name) as [v|] eqn:E; simpl; [|done]. right. by exists v.
Qed.

(** What was found is found again by the layer and the scope it is recorded with,
    unless a scope is called like the global layer. *)
Theorem entry_found_by_source c scopes name e :
  scopes_or_global c scopes name = Some e → le_source_scope e ≠ Some "global" →
  layered_by_source c name (le_source_layer e) (le_source_scope e) = Some e.
Proof.
  pose proof (scopes_nearest_first c scopes name) as F. intros E Hn. rewrite E in F. unfold layered_by_source.
  destruct F as [(before & scope & after & v & _ & Hv & -> & _)|(v & Hv & -> & _)]; simpl in *.
  - rewrite bool_decide_false by (rewrite layer_global_iff; congruence). rewrite bool_decide_true by done. by rewrite Hv.
  - rewrite ?bool_decide_true by done. by rewrite Hv.
Qed.
Theorem global_scope_lost c name v :
  scoped_value c "global" name = Some v →
  scopes_or_global c ["global"] name = Some (scoped_entry "global" v) ∧ layered_by_source c name "global" (Some "global") = None.
Proof. intros Hv. unfold scopes_or_global. cbn [find_in_scopes]. rewrite Hv. done. Qed.

(** A table is registered whole, in place of the one the scope had; an empty one
    takes the scope away. *)
Theorem register_scoped_exact c scope values s name :
  scoped_value (register_scoped c scope values) s name =
  if decide (s = scope) then values !! name else scoped_value c s name.
Proof.
  unfold scoped_value, register_scoped. simpl. case_bool_decide as Hv; case_decide as Hs; subst.
  - by rewrite lookup_delete_eq.
  - by rewrite lookup_delete_ne.
  - by rewrite lookup_insert_eq.
  - by rewrite lookup_insert_ne.
Qed.

(** *** Any scope *)

Lemma scope_rank_leb_lex a b :
  scope_rank_leb a b = lex (λ s, scope_layer_rank (scope_layer_from_scope s)) nat_before str_leb a b.
Proof. done. Qed.
Lemma scope_rank_leb_total a b : scope_rank_leb a b = true ∨ scope_rank_leb b a = true.
Proof. rewrite !scope_rank_leb_lex. apply lex_total; auto. Qed.
Lemma scope_rank_leb_trans a b d : scope_rank_leb a b = true → scope_rank_leb b d = true → scope_rank_leb a d = true.
Proof. rewrite !scope_rank_leb_lex. apply lex_trans; eauto. Qed.
Lemma scope_rank_leb_rank a b :
  scope_rank_leb a b = true → scope_layer_rank (scope_layer_from_scope a) ≤ scope_layer_rank (scope_layer_from_scope b).
Proof. unfold scope_rank_leb. repeat case_bool_decide; lia || done. Qed.

(** Looked for without scopes, a name is found in a scope of the nearest layer that
    has it, whosever scope that is, and globally when no scope has it. *)
Theorem any_entry_nearest_layer c name :
  match any_entry c name with
  | Some e =>
      (∃ scope v, scoped_value c scope name = Some v ∧ e = scoped_entry scope v ∧
         ∀ s, is_Some (scoped_value c s name) → scope_rank_leb scope s = true) ∨
      (∃ v, ly_global c !! name = Some v ∧ e = global_entry v ∧ ∀ s, scoped_value c s name = None)
  | None => ly_global c !! name = None ∧ ∀ s, scoped_value c s name = None
  end.
Proof.
  pose proof (scopes_nearest_first c (sorted_scopes_by_rank (ly_scoped c)) name) as F.
  fold (any_entry c name) in F.
  assert (∀ s, s ∈ sorted_scopes_by_rank (ly_scoped c) ∨ scoped_value c s name = None) as All.
  { intros s. unfold sorted_scopes_by_rank. rewrite sort_by_elem_of, elem_of_hash_keys. unfold scoped_value.
    destruct (ly_scoped c !! s); [left; by eexists|by right]. }
  assert (∀ l, Forall (λ s, scoped_value c s name = None) l → ∀ s, s ∈ l → scoped_value c s name = None) as FE.
  { intros l Hl s Hs. by rewrite Forall_forall in Hl; apply Hl. }
  destruct (any_entry c name) as [e|].
  - destruct F as [(before & scope & after & v & El & Hv & -> & Hb)|(v & Hv & -> & Hb)].
    + left. exists scope, v. split_and!; try done. intros s [w Hw]. destruct (All s) as [Hs|Hs]; [|congruence].
      pose proof (sort_by_sorted scope_rank_leb scope_rank_leb_total scope_rank_leb_trans (hash_keys (ly_scoped c))) as S.
      fold (sorted_scopes_by_rank (ly_scoped c)) in S. rewrite El in S, Hs.
      apply elem_of_app in Hs as [Hs|[->|Hs]%elem_of_cons].
      * rewrite (FE _ Hb _ Hs) in Hw. done.
      * by destruct (scope_rank_leb_total scope scope).
      * apply StronglySorted_app in S as (_ & _ & S). inversion_clear S as [|?? _ S'].
        rewrite Forall_forall in S'. by apply S'.
    + right. exists v. split_and!; try done. intros s. destruct (All s); [by eapply FE|done].
  - destruct F as [Hg Hb]. split; [done|]. intros s. destruct (All s); [by eapply FE|done].
Qed.

(** *** Names *)

Theorem names_for_scopes_exact c scopes name :
  name ∈ names_for_scopes c scopes ↔ is_Some (scopes_or_global c scopes name).
Proof.
  unfold names_for_scopes. rewrite dedup_elem_of, sort_by_elem_of, elem_of_app, elem_of_hash_keys.
  assert ((name ∈ reverse scopes ≫= λ scope, match ly_scoped c !! scope with Some t => hash_keys t | None => [] end) ↔
    ∃ s, s ∈ scopes ∧ is_Some (scoped_value c s name)) as ->.
  { rewrite list_elem_of_bind. split.
    - intros (s & Hn & Hs). rewrite elem_of_reverse in Hs. exists s. split; [done|]. unfold scoped_value.
      destruct (ly_scoped c !! s) as [t|]; [|set_solver]. by apply elem_of_hash_keys in Hn.
    - intros (s & Hs & Hv). exists s. rewrite elem_of_reverse. split; [|done]. unfold scoped_value in Hv.
      destruct (ly_scoped c !! s) as [t|]; [by apply elem_of_hash_keys|by destruct Hv]. }
  pose proof (scopes_nearest_first c scopes name) as F. destruct (scopes_or_global c scopes name) as [e|].
  - split; [by eexists|]. intros _. destruct F as [(before & s & after & v & -> & Hv & _)|(v & Hv & _)].
    + right. exists s. split; [set_solver|by eexists].
    + left. by eexists.
  - destruct F as [Hg Hb]. split; [|by intros []]. intros [[v Hv]|(s & Hs & v & Hv)]; [congruence|].
    rewrite Forall_forall in Hb. rewrite (Hb _ Hs) in Hv. done.
Qed.
End LayeredFacts.

(** *** Listings *)

(** Values stand under the names they have. *)
Definition well_named {V} (name_of : V → string) (c : Layered V) : Prop :=
  (∀ name v, ly_global c !! name = Some v → name_of v = name) ∧
  ∀ scope name v, scoped_value c scope name = Some v → name_of v = name.

Section ListingFacts.
Context {V : Type} (name_of : V → string).
Implicit Types (c : Layered V) (e : LayeredEntry V).

Lemma elem_of_unsorted_entries `{HashOrder} c e :
  e ∈ unsorted_entries c ↔
  (∃ name v, ly_global c !! name = Some v ∧ e = global_entry v) ∨
  (∃ scope name v, scoped_value c scope name = Some v ∧ e = scoped_entry scope v).
Proof.
  unfold unsorted_entries. rewrite elem_of_app, list_elem_of_fmap, list_elem_of_bind. f_equiv.
  - split; [intros (v & -> & [n Hn]%elem_of_hash_values); by exists n, v|].
    intros (n & v & Hn & ->). exists v. split; [done|]. apply elem_of_hash_values. by exists n.
  - split.
    + intros (s & He & _). unfold scoped_value. destruct (ly_scoped c !! s) as [t|] eqn:Et; [|set_solver].
      apply list_elem_of_fmap in He as (v & -> & [n Hn]%elem_of_hash_values). exists s, n, v. by rewrite Et.
    + intros (s & n & v & Hv & ->). exists s. unfold scoped_value in Hv. destruct (ly_scoped c !! s) as [t|] eqn:Et; [|done].
      split; [|unfold sorted_scopes; rewrite sort_by_elem_of, elem_of_hash_keys, Et; by eexists].
      apply list_elem_of_fmap. exists v. split; [done|]. apply elem_of_hash_values. by exists n.
Qed.

Lemma bind_perm {A B} (f g : A → list B) l1 l2 : l1 ≡ₚ l2 → (∀ x, f x ≡ₚ g x) → l1 ≫= f ≡ₚ l2 ≫= g.
Proof.
  intros -> Hfg. induction l2 as [|x l IH]; [done|]. rewrite !bind_cons. by rewrite Hfg, IH.
Qed.
Lemma hash_values_perm (h1 h2 : HashOrder) (m : gmap string V) :
  @hash_values h1 _ _ _ _ m ≡ₚ @hash_values h2 _ _ _ _ m.
Proof. unfold hash_values. by rewrite !hash_order_perm. Qed.
Lemma unsorted_entries_perm (h1 h2 : HashOrder) c : @unsorted_entries h1 V c ≡ₚ @unsorted_entries h2 V c.
Proof.
  unfold unsorted_entries. f_equiv; [f_equiv; apply hash_values_perm|]. apply bind_perm.
  - unfold sorted_scopes. rewrite !sort_by_perm. unfold hash_keys. by rewrite !hash_order_perm.
  - intros s. destruct (ly_scoped c !! s); [|done]. f_equiv. apply hash_values_perm.
Qed.

Lemma str_leb_anti a b : str_leb a b = true → str_leb b a = true → a = b.
Proof. apply String.leb_antisym. Qed.
Definition within_name (a b : LayeredEntry V) : bool :=
  lex (λ e, scope_layer_rank (le_source_layer e)) nat_before
    (λ a b, str_leb (default "" (le_source_scope a)) (default "" (le_source_scope b))) a b.
Lemma entry_leb_lex a b : entry_leb name_of a b = lex (λ e, name_of (le_value e)) str_leb within_name a b.
Proof. done. Qed.
Lemma within_name_total a b : within_name a b = true ∨ within_name b a = true.
Proof. apply lex_total; auto. Qed.
Lemma within_name_trans a b d : within_name a b = true → within_name b d = true → within_name a d = true.
Proof. apply lex_trans; eauto. Qed.
Lemma entry_leb_total a b : entry_leb name_of a b = true ∨ entry_leb name_of b a = true.
Proof. rewrite !entry_leb_lex. apply lex_total; auto using within_name_total. Qed.
Lemma entry_leb_trans a b d : entry_leb name_of a b = true → entry_leb name_of b d = true → entry_leb name_of a d = true.
Proof. rewrite !entry_leb_lex. apply lex_trans; eauto using within_name_trans, str_leb_anti. Qed.

(** Two entries of a well-named catalogue that compare equal are the same. *)
Lemma entry_leb_anti `{HashOrder} c a b :
  well_named name_of c → a ∈ unsorted_entries c → b ∈ unsorted_entries c →
  entry_leb name_of a b = true → entry_leb name_of b a = true → a = b.
Proof.
  intros [W1 W2] Ha Hb. rewrite !entry_leb_lex. intros L1 L2.
  apply lex_anti in L1 as (En & L1 & L3); [|apply str_leb_anti|done].
  apply lex_anti in L1 as (Er & L1 & L4); [|apply nat_before_anti|done].
  pose proof (str_leb_anti _ _ L1 L4) as Es. clear L1 L2 L3 L4.
  assert (∀ s, scope_layer_rank (scope_layer_from_scope s) = 6 → s ≠ "") as N6 by by (intros s ? ->).
  apply elem_of_unsorted_entries in Ha as [(n & v & Hv & ->)|(s & n & v & Hv & ->)];
    apply elem_of_unsorted_entries in Hb as [(n' & v' & Hv' & ->)|(s' & n' & v' & Hv' & ->)]; simpl in *.
  - rewrite (W1 _ _ Hv), (W1 _ _ Hv') in En. congruence.
  - symmetry in Er. apply N6 in Er. congruence.
  - apply N6 in Er. congruence.
  - rewrite (W2 _ _ _ Hv), (W2 _ _ _ Hv') in En. congruence.
Qed.

(** The listing holds each value of each table once, and does not depend on the
    order in which the tables are gone through. *)
Theorem listing_deterministic (h1 h2 : HashOrder) c :
  well_named name_of c → @all_entries h1 V name_of c = @all_entries h2 V name_of c.
Proof.
  intros W. unfold all_entries.
  eapply (StronglySorted_unique_strong (λ x y, entry_leb name_of x y = true)).
  - intros a b Ha Hb. rewrite sort_by_elem_of in Ha, Hb. rewrite (unsorted_entries_perm h2 h1) in Hb.
    by eapply (@entry_leb_anti h1).
  - apply sort_by_sorted; eauto using entry_leb_total, entry_leb_trans.
  - apply sort_by_sorted; eauto using entry_leb_total, entry_leb_trans.
  - rewrite !sort_by_perm. apply unsorted_entries_perm.
Qed.
Theorem listing_exact `{HashOrder} c e :
  e ∈ all_entries name_of c ↔
  (∃ name v, ly_global c !! name = Some v ∧ e = global_entry v) ∨
  (∃ scope name v, scoped_value c scope name = Some v ∧ e = scoped_entry scope v).
Proof. unfold all_entries. rewrite sort_by_elem_of. apply elem_of_unsorted_entries. Qed.
End ListingFacts.

(** *** Skills *)

Section SkillFacts.
Context {Json : Type} `{SkillFiles Json}.
Implicit Types (r : gmap string (Skill Json)) (s : Skill Json).

Lemma load_entries_inv (P : string → Skill Json → Prop) entries r count r' count' :
  (∀ p s, Ok p ∈ entries → sf_is_dir p = true → load_skill p = Ok s → P (skill_name s) s) →
  map_Forall P r → load_entries entries r count = Ok (r', count') → map_Forall P r'.
Proof.
  revert r count. induction entries as [|[p|e] entries IH]; intros r count HP Hr; cbn [load_entries]; [by intros [= <- <-]| |done].
  assert (∀ q s', Ok q ∈ entries → sf_is_dir q = true → load_skill q = Ok s' → P (skill_name s') s') as HP'.
  { intros q s' Hq. apply HP. by right. }
  destruct (sf_is_dir p) eqn:Hd; [destruct (load_skill p) as [s|e] eqn:Hl|]; apply IH; try done.
  apply map_Forall_insert_2; [|done]. by apply (HP p); [left|..].
Qed.

(** A registry read from a directory holds skills of its subdirectories only, each
    under the name its manifest gives; which directory a name is from, when two give
    it, the order of the listing decides. *)
Theorem registry_from_dir_sound dir r name s :
  registry_from_dir dir = Ok r → r !! name = Some s →
  skill_name s = name ∧ ∃ entries p, sf_list dir = Ok entries ∧ Ok p ∈ entries ∧ sf_is_dir p = true ∧ load_skill p = Ok s.
Proof.
  unfold registry_from_dir. destruct (sf_exists dir); [|intros [= <-]; by rewrite lookup_empty].
  unfold load_from_dir. destruct (sf_list dir) as [entries|]; [|done]. simpl.
  destruct (load_entries entries ∅ 0) as [[r0 n]|] eqn:L; [|done]. intros [= <-] Hs.
  eapply (load_entries_inv (λ name s, skill_name s = name ∧ ∃ p, Ok p ∈ entries ∧ sf_is_dir p = true ∧ load_skill p = Ok s))
    in L; [|naive_solver|apply map_Forall_empty].
  destruct (L _ _ Hs) as (? & p & ?). split; [done|]. by exists entries, p.
Qed.

(** A skill without [skill.toml] runs only if it has [skill.yaml] and a Python
    script in one of two places. *)
Theorem skill_without_toml dir s :
  load_skill dir = Ok s → sf_exists (file_in dir "skill.toml") = false →
  sc_enabled (sl_config s) =
    sf_exists (file_in dir "skill.yaml") &&
    (sf_exists (file_in (file_in dir "src") "main.py") || sf_exists (file_in dir "main.py")).
Proof.
  unfold load_skill, skill_config_of. intros L T. rewrite T in L.
  destruct (sf_read _) as [text|]; [|done]. destruct (parse_skill_md text) as [m|]; simpl in L; [|done].
  injection L as <-. simpl. destruct (sf_exists (file_in dir "skill.yaml")); [|done]. unfold inferred_config.
  by destruct (sf_exists (file_in (file_in dir "src") "main.py")), (sf_exists (file_in dir "main.py")).
Qed.

End SkillFacts.

Section ExecutionFacts.
Context `{Processes, SkillOutput} {Json : Type}.
Implicit Types (s : Skill Json).

Theorem disabled_skill_never_runs s input :
  sc_enabled (sl_config s) = false → skill_execute s input = Err (AeSkill ("Skill " +:+ skill_name s +:+ " is disabled")).
Proof. intros E. unfold skill_execute. by rewrite E. Qed.

(** A process answers exactly when it ends well and writes nothing but white space
    to its error output: a warning there is a failure. *)
Theorem process_answers_iff name d x args env t dir input :
  (∃ o, executor_run (ProcessSkillExecutor name d x args env t dir) input = Ok o) ↔
  ∃ status out err, run_process x args (process_env name input env) dir t = ProcessExited true status out err ∧ str_trim err = "".
Proof.
  simpl. destruct (run_process _ _ _ _ _) as [|e|success status out err].
  - split; [by intros []|by intros (? & ? & ? & ? & _)].
  - split; [by intros []|by intros (? & ? & ? & ? & _)].
  - destruct success; simpl; [|split; [by intros []|by intros (? & ? & ? & ? & _)]].
    case_bool_decide as He; simpl.
    + split; [intros _; by exists status, out, err|]. intros _. case_bool_decide; [by eexists|].
      destruct (skill_output_json _); by eexists.
    + split; [by intros []|]. intros (? & ? & ? & [= <- <- <-] & ?). done.
Qed.

(** What the configuration sets stands before what the call sets: with a
    [SKILL_INPUT] of its own a skill never sees its input. *)
Theorem configured_input_wins name d x args env t dir v :
  env !! "SKILL_INPUT" = Some v → ∀ input1 input2,
  executor_run (ProcessSkillExecutor name d x args env t dir) input1 =
  executor_run (ProcessSkillExecutor name d x args env t dir) input2.
Proof.
  intros E input1 input2. simpl. assert (process_env name input1 env = process_env name input2 env) as ->; [|done].
  apply map_eq. intros k. unfold process_env. rewrite !lookup_union. destruct (decide (k = "SKILL_INPUT")) as [->|].
  - by rewrite E, !(lookup_insert_ne _ "SKILL_NAME"), !lookup_singleton_eq by done.
  - destruct (decide (k = "SKILL_NAME")) as [->|]; [by rewrite !lookup_insert_eq|].
    by rewrite !lookup_insert_ne, !lookup_singleton_ne by done.
Qed.
End ExecutionFacts.
