(* ===== verification/AgentCatalog.v ===== *)
(** The agents of the Hub and the sessions that use them
    ([crates/uhorse-hub/src/web/mod.rs]): the catalogue of agents and how it is
    loaded, the namespace of a session in its metadata, logical workspaces, which
    agent answers a session, and what is kept of a turn. *)
From S2P Require Import Prelude Text ProtocolTypes Paths Workspace AgentRouting SessionRuntime Layered AgentFiles.

(** ** Agents *)

Record Agent := MkAgent {
  ag_agent_id : string; ag_name : string; ag_description : string; ag_workspace_dir : path;
  ag_system_prompt : string; ag_is_default : bool; ag_scope : option AgentScope }.
Abbreviation LayeredAgentCatalog := (Layered Agent).
Abbreviation CatalogAgentEntry := (LayeredEntry Agent).

Section Catalog.
Context `{HashOrder}.
Implicit Types (c : LayeredAgentCatalog).
Definition LayeredAgentCatalog_new : gmap string Agent → LayeredAgentCatalog := layered_new.
Definition register_scoped_catalog c (scope : string) (agents : gmap string Agent) : LayeredAgentCatalog :=
  register_scoped c scope agents.
Definition get_any_agent_entry c (id : string) : option CatalogAgentEntry := any_entry c id.
Definition get_any_agent c (id : string) : option Agent := le_value <$> get_any_agent_entry c id.
Definition contains_any c (id : string) : bool := bool_decide (is_Some (get_any_agent c id)).
Definition get_agent_for_scopes_entry c (scopes : list string) (id : string) : option CatalogAgentEntry :=
  scopes_or_global c scopes id.
Definition get_agent_for_scopes c (scopes : list string) (id : string) : option Agent :=
  le_value <$> get_agent_for_scopes_entry c scopes id.
Definition get_agent_entry_by_source c (id layer : string) (scope : option string) : option CatalogAgentEntry :=
  layered_by_source c id layer scope.
Definition list_all_agent_ids c : list string := all_names c.
Definition list_all_agent_entries c : list CatalogAgentEntry := all_entries ag_agent_id c.
End Catalog.

(** *** Loading *)

(** The directories there are, and their entries in some order. *)
Class AgentDirs := {
  path_exists : path → bool;
  path_is_dir : path → bool;
  list_dir : path → Result (list (Result path string)) string
}.

Section Loader.
Context `{AgentDisk, AgentTexts, AgentDirs}.
Implicit Types (d : Disk).

Definition agent_display_name (id : string) : string :=
  if bool_decide (id = "main") then "Main Agent"
  else
    let segments := upper_first <$> List.filter (λ s, negb (bool_decide (s = ""))) (str_split "-" id ≫= str_split "_") in
    if bool_decide (segments = []) then id else str_join " " segments.

Definition build_catalog_agent d (id : string) (workspace : path) (is_default : bool) (description prompt : string)
    : Disk * AgentResult Agent :=
  let name := agent_display_name id in
  let scope := AgentScope_new (MkAgentScopeConfig id workspace (Some name) is_default) in
  match init_workspace scope d with
  | (d, Err e) => (d, Err e)
  | (d, Ok _) => (d, Ok (MkAgent id name description workspace prompt is_default (Some scope)))
  end.

(** The directories [workspace-<id>], and [workspace] as the one of [main]. *)
Definition agent_of_entry (p : path) : option (string * path) :=
  if path_is_dir p then
    match file_name p ≫= strip_prefix "workspace-" with
    | Some id => if bool_decide (id = "") then None else Some (id, p)
    | None => None
    end
  else None.
Fixpoint entries_or_error (entries : list (Result path string)) : AgentResult (list path) :=
  match entries with
  | [] => Ok []
  | Err e :: _ => Err (AeIo e)
  | Ok p :: entries => let? l := entries_or_error entries in Ok (p :: l)
  end.
Definition listed (p : path) : AgentResult (list path) :=
  match list_dir p with Ok entries => entries_or_error entries | Err e => Err (AeIo e) end.
Definition candidates_leb (a b : string * path) : bool := str_leb a.1 b.1.
Definition agent_candidates (root : path) (include_main : bool) : AgentResult (list (string * path)) :=
  let? entries := listed root in
  let main := in_dir root "workspace" in
  Ok (sort_by candidates_leb ((if include_main && path_is_dir main then [("main", main)] else []) ++ omap agent_of_entry entries)).
Fixpoint build_agents d (candidates : list (string * path)) (agents : gmap string Agent) : Disk * AgentResult (gmap string Agent) :=
  match candidates with
  | [] => (d, Ok agents)
  | (id, workspace) :: candidates =>
      let name := agent_display_name id in
      match build_catalog_agent d id workspace false (name +:+ " agent") ("You are the " +:+ name +:+ " for uHorse.") with
      | (d, Err e) => (d, Err e)
      | (d, Ok a) => build_agents d candidates (<[id := a]> agents)
      end
  end.
Definition load_agent_catalog_from_root d (root : path) (include_main : bool) : Disk * AgentResult (gmap string Agent) :=
  if path_exists root then
    match agent_candidates root include_main with
    | Err e => (d, Err e)
    | Ok candidates => build_agents d candidates ∅
    end
  else (d, Ok ∅).

Fixpoint load_scopes d (entries : list (Result path string)) (c : LayeredAgentCatalog) : Disk * AgentResult LayeredAgentCatalog :=
  match entries with
  | [] => (d, Ok c)
  | Err e :: _ => (d, Err (AeIo e))
  | Ok p :: entries =>
      match (if path_is_dir p then file_name p else None) with
      | None => load_scopes d entries c
      | Some scope =>
          match load_agent_catalog_from_root d p true with
          | (d, Err e) => (d, Err e)
          | (d, Ok agents) =>
              load_scopes d entries (if bool_decide (agents = ∅) then c else register_scoped_catalog c scope agents)
          end
      end
  end.
Definition load_scoped_dir d (base : path) (name : string) (c : LayeredAgentCatalog) : Disk * AgentResult LayeredAgentCatalog :=
  if path_exists (in_dir base name) then
    match list_dir (in_dir base name) with
    | Err e => (d, Err (AeIo e))
    | Ok entries => load_scopes d entries c
    end
  else (d, Ok c).
Fixpoint load_scoped_dirs d (base : path) (names : list string) (c : LayeredAgentCatalog) : Disk * AgentResult LayeredAgentCatalog :=
  match names with
  | [] => (d, Ok c)
  | name :: names =>
      match load_scoped_dir d base name c with
      | (d, Err e) => (d, Err e)
      | (d, Ok c) => load_scoped_dirs d base names c
      end
  end.
Definition SCOPE_DIRECTORIES : list string := ["tenants"; "enterprises"; "departments"; "roles"; "users"].

Definition register_scopes (m : AgentManager) (agents : list Agent) : AgentManager :=
  foldl (λ m a, match ag_scope a with Some s => register_scope m s | None => m end) m agents.
Context `{HashOrder}.
(** The agents of [init_default_agent_runtime]; the memory and the skills are set
    up after them. *)
Definition init_agents d (base : path) : Disk * AgentResult (AgentManager * LayeredAgentCatalog) :=
  match build_catalog_agent d "main" (in_dir base "workspace") true "Hub default agent" "You are the default uHorse Hub agent." with
  | (d, Err e) => (d, Err e)
  | (d, Ok main) =>
      let m := register_scopes (AgentManager_new base) [main] in
      match load_agent_catalog_from_root d base false with
      | (d, Err e) => (d, Err e)
      | (d, Ok more) =>
          let m := register_scopes m (hash_values more) in
          let c := LayeredAgentCatalog_new (more ∪ {["main" := main]}) in
          match load_scoped_dirs d base SCOPE_DIRECTORIES c with
          | (d, Err e) => (d, Err e)
          | (d, Ok c) =>
              match memory_init_workspace d (in_dir base "workspace") with
              | (d, Err e) => (d, Err e)
              | (d, Ok _) => (d, Ok (m, c))
              end
          end
      end
  end.
End Loader.

(** ** Namespaces in metadata *)

Abbreviation Metadata := (gmap string string).
(** A list of texts as JSON; reading one may fail. *)
Class RolesJson := { text_of_roles : list string → string; roles_of_text : string → option (list string) }.

Section Namespaces.
Context `{RolesJson}.
Implicit Types (m : Metadata) (k : SessionKey) (n : SessionNamespace).

Definition access_context_from_metadata m : option AccessContext :=
  let c := normalized (MkAccessContext (m !! "namespace_tenant") (m !! "namespace_enterprise") (m !! "namespace_department")
             (default [] (m !! "namespace_roles" ≫= roles_of_text))) in
  if bool_decide (is_Some (ac_tenant c)) || bool_decide (is_Some (ac_enterprise c)) || bool_decide (is_Some (ac_department c))
     || negb (bool_decide (ac_roles c = []))
  then Some c else None.
Definition key_of_session (session : string) : option SessionKey :=
  match SessionKey_parse session with Ok k => Some k | Err _ => None end.
(** The three other names of the metadata stand in place of those of the key. *)
Definition session_namespace_from_metadata (key : option SessionKey) m : option SessionNamespace :=
  let access := access_context_from_metadata m in
  (λ k, let n := namespace_with_access_context k access in
        MkSessionNamespace (default (ns_global n) (m !! "namespace_global")) (ns_tenant n) (ns_enterprise n) (ns_department n)
          (ns_roles n) (default (ns_user n) (m !! "namespace_user")) (default (ns_session n) (m !! "namespace_session")))
  <$> match key with Some k => Some k | None => m !! "session_id" ≫= key_of_session end.
Definition session_namespace_for_session k (s : option SessionState) : SessionNamespace :=
  default (namespace_with_access_context k None)
    (s ≫= λ s, session_namespace_from_metadata (Some k) (<["session_id" := ss_session_id s]> (ss_metadata s))).

Definition set_or_remove (key : string) (v : option string) m : Metadata :=
  match v with Some v => <[key := v]> m | None => delete key m end.
Definition write_namespace_metadata n m : Metadata :=
  let m := <["namespace_global" := ns_global n]> m in
  let m := set_or_remove "namespace_tenant" (ns_tenant n) m in
  let m := set_or_remove "namespace_enterprise" (ns_enterprise n) m in
  let m := set_or_remove "namespace_department" (ns_department n) m in
  let m := if bool_decide (ns_roles n = []) then delete "namespace_roles" m
           else <["namespace_roles" := text_of_roles (ns_roles n)]> m in
  <["namespace_session" := ns_session n]> (<["namespace_user" := ns_user n]> m).

(** *** Logical workspaces *)

Record CollaborationWorkspace := MkCollaborationWorkspace {
  cw_id : string; cw_scope_owner : string; cw_members : list string; cw_default_agent_id : option string;
  cw_visible_scope_chain : list string; cw_bound_execution_workspace_id : option string; cw_materialization : string }.

Definition collaboration_workspace_id_for_session k : string := "collab:session:" +:+ SessionKey_as_str k.
Definition collaboration_workspace_id_from_metadata m (k : option SessionKey) : option string :=
  or_else (m !! "collaboration_workspace_id") (collaboration_workspace_id_for_session <$> k).
Definition session_owner (id : string) (n : option SessionNamespace) m : string :=
  default id (or_else (ns_session <$> n) (or_else (m !! "namespace_session") (m !! "session_id"))).
Definition collaboration_scope_owner (id : string) (n : option SessionNamespace) m : string :=
  if String.prefix "collab:session:" id then session_owner id n m
  else match m !! "collaboration_scope_owner" with Some o => o | None => session_owner id n m end.
Definition collaboration_materialization m : string := default "none" (m !! "collaboration_materialization").
Definition write_collaboration_metadata (id : string) (n : option SessionNamespace) m : Metadata :=
  let owner := collaboration_scope_owner id n m in
  let materialization := collaboration_materialization m in
  <["collaboration_materialization" := materialization]>
    (<["collaboration_scope_owner" := owner]> (<["collaboration_workspace_id" := id]> m)).

Definition add_member (l : list string) (x : option string) : list string :=
  match x with Some x => if bool_decide (x ∈ l) then l else l ++ [x] | None => l end.
Definition collaboration_workspace_from_parts (id : option string) (n : option SessionNamespace) m (agent : option string)
    : option CollaborationWorkspace :=
  (λ id, MkCollaborationWorkspace id (collaboration_scope_owner id n m)
           (add_member (add_member (option_list (m !! "sender_user_id")) (m !! "sender_staff_id")) (ns_user <$> n))
           agent (default [] (visibility_chain <$> n)) (m !! "execution_workspace_id") (collaboration_materialization m))
  <$> id.
Definition resolve_collaboration_workspace (k : option SessionKey) (id : option string) (n : option SessionNamespace) m
    (agent : option string) : option CollaborationWorkspace :=
  collaboration_workspace_from_parts (or_else id (collaboration_workspace_id_from_metadata m k)) n m agent.
Definition or_dash (l : list string) (sep : string) : string := if bool_decide (l = []) then "-" else str_join sep l.
Definition render_collaboration_workspace_context (w : CollaborationWorkspace) : string :=
  "--- Collaboration Workspace Context ---" +:+ line_feed
    +:+ "- collaboration_workspace_id: " +:+ cw_id w +:+ line_feed
    +:+ "- scope_owner: " +:+ cw_scope_owner w +:+ line_feed
    +:+ "- default_agent_id: " +:+ default "-" (cw_default_agent_id w) +:+ line_feed
    +:+ "- bound_execution_workspace_id: " +:+ default "-" (cw_bound_execution_workspace_id w) +:+ line_feed
    +:+ "- materialization: " +:+ cw_materialization w +:+ line_feed
    +:+ "- members: " +:+ or_dash (cw_members w) ", " +:+ line_feed
    +:+ "- visible_scope_chain: " +:+ or_dash (cw_visible_scope_chain w) " -> " +:+ line_feed
    +:+ "- note: 这是 Hub 侧逻辑协作空间，不是 Node 实际执行目录。".

(** *** The metadata of a task *)

Definition task_context_namespace (k : option SessionKey) (c : TaskContext) : option SessionNamespace :=
  match k with
  | Some k => or_else (session_namespace_from_metadata (Some k) (tc_env c)) (Some (namespace_with_access_context k None))
  | None => session_namespace_from_metadata None (<["session_id" := session_id_str (tc_session_id c)]> (tc_env c))
  end.
Definition set_task_env (c : TaskContext) (env : Metadata) (collaboration : option string) : TaskContext :=
  MkTaskContext (tc_user_id c) (tc_session_id c) (tc_channel c) (tc_execution_workspace_id c) collaboration (tc_intent c) env
    (tc_created_at c).
Definition populate_task_context_runtime_metadata (k : option SessionKey) (source : option Metadata) (c : TaskContext)
    : TaskContext :=
  let n := or_else (source ≫= λ m, k ≫= λ k, session_namespace_from_metadata (Some k) m) (task_context_namespace k c) in
  let env := match n with Some n => write_namespace_metadata n (tc_env c) | None => tc_env c end in
  let env := match tc_execution_workspace_id c with Some w => <["execution_workspace_id" := w]> env | None => env end in
  match or_else (tc_collaboration_workspace_id c)
          (or_else (source ≫= λ m, collaboration_workspace_id_from_metadata m k) (collaboration_workspace_id_from_metadata env k)) with
  | Some id => set_task_env c (write_collaboration_metadata id n env) (Some id)
  | None => set_task_env c env (tc_collaboration_workspace_id c)
  end.
End Namespaces.

(** ** The agent of a session *)

(** What the runtime has: the manager of scopes, the agents and the root of the
    memories; its skills are in [Layered.v]. *)
Record WebAgentRuntime := MkWebAgentRuntime {
  wr_root : path; wr_manager : AgentManager; wr_agents : LayeredAgentCatalog; wr_memory : path }.

Section SessionAgents.
Context `{HashOrder, AgentDisk, AgentTexts, RolesJson}.
Implicit Types (w : WebAgentRuntime) (k : SessionKey) (d : Disk).

Definition default_agent_id w : string :=
  if contains_any (wr_agents w) "main" then "main" else default "main" (head (list_all_agent_ids (wr_agents w))).
Definition agent_scope_for w (id : string) : option AgentScope :=
  or_else (get_any_agent (wr_agents w) id ≫= ag_scope) (get_default_scope (wr_manager w)).

(** The states of all agents are looked through, each directory once; an error
    counts as no state.  The latest active one wins, the first among equals. *)
Fixpoint distinct_scopes (entries : list CatalogAgentEntry) (seen : gset string) : list AgentScope :=
  match entries with
  | [] => []
  | e :: entries =>
      match ag_scope (le_value e) with
      | None => distinct_scopes entries seen
      | Some s =>
          let dir := path_to_string (as_agents_dir s) in
          if bool_decide (dir ∈ seen) then distinct_scopes entries seen else s :: distinct_scopes entries ({[dir]} ∪ seen)
      end
  end.
Definition later_state (best : option SessionState) (s : SessionState) : option SessionState :=
  match best with
  | None => Some s
  | Some b => if bool_decide (ss_last_active b < ss_last_active s)%Z then Some s else Some b
  end.
Definition state_of (r : AgentResult (option SessionState)) : option SessionState := match r with Ok o => o | Err _ => None end.
Definition load_session_state_for_session w d k : option SessionState :=
  let session := SessionKey_as_str k in
  let states := omap (λ s, state_of (load_session_state s d session)) (distinct_scopes (list_all_agent_entries (wr_agents w)) ∅) in
  or_else (foldl later_state None states)
    (get_default_scope (wr_manager w) ≫= λ s, state_of (load_session_state s d session)).

Definition agent_entry_from_source_metadata w (id : string) (layer scope : option string) : option CatalogAgentEntry :=
  layer ≫= λ layer, get_agent_entry_by_source (wr_agents w) id layer scope.
Definition session_state_agent_entry w (s : SessionState) : option CatalogAgentEntry :=
  ss_metadata s !! "current_agent" ≫= λ id,
    agent_entry_from_source_metadata w id (ss_metadata s !! "agent_source_layer") (ss_metadata s !! "agent_source_scope").
(** Along the scopes, and then anywhere. *)
Definition visible_or_any w (scopes : list string) (id : string) : option CatalogAgentEntry :=
  or_else (get_agent_for_scopes_entry (wr_agents w) scopes id) (get_any_agent_entry (wr_agents w) id).
Definition task_context_agent_entry w (k : option SessionKey) (c : TaskContext) : option CatalogAgentEntry :=
  tc_env c !! "agent_id" ≫= λ id,
    or_else (agent_entry_from_source_metadata w id (tc_env c !! "agent_source_layer") (tc_env c !! "agent_source_scope"))
      (or_else (task_context_namespace k c ≫= λ n, get_agent_for_scopes_entry (wr_agents w) (visibility_chain n) id)
         (get_any_agent_entry (wr_agents w) id)).
Definition asked_for (requested : option string) (id : string) : bool :=
  match requested with Some r => bool_decide (id = r) | None => true end.
Definition resolve_agent_entry_for_session w d k (requested : option string) : option CatalogAgentEntry :=
  let state := load_session_state_for_session w d k in
  let chain := visibility_chain (session_namespace_for_session k state) in
  let recorded :=
    state ≫= λ s,
      or_else (session_state_agent_entry w s ≫= λ e, if asked_for requested (ag_agent_id (le_value e)) then Some e else None)
        (ss_metadata s !! "current_agent" ≫= λ id, if asked_for requested id then visible_or_any w chain id else None) in
  match recorded with
  | Some e => Some e
  | None => visible_or_any w chain (default (default_agent_id w) requested)
  end.
Definition resolve_agent_scope_for_session w d k (requested : option string) : option AgentScope :=
  resolve_agent_entry_for_session w d k requested ≫= λ e, ag_scope (le_value e).
Definition resolve_agent_id_for_session w d k : string :=
  match resolve_agent_entry_for_session w d k None with Some e => ag_agent_id (le_value e) | None => default_agent_id w end.

(** *** What is kept of a turn *)

Definition load_or_init_session_state_for_update (now : timestamp) w d k (agent : string)
    : option (AgentScope * SessionState * option CatalogAgentEntry) :=
  let entry := resolve_agent_entry_for_session w d k (Some agent) in
  (λ s, (s, default (SessionState_new now (SessionKey_as_str k)) (state_of (load_session_state s d (SessionKey_as_str k))), entry))
  <$> or_else (entry ≫= λ e, ag_scope (le_value e)) (agent_scope_for w agent).
Definition set_if (key : string) (v : option string) (m : Metadata) : Metadata :=
  match v with Some v => <[key := v]> m | None => m end.
Record persisted_turn := MkPersistedTurn {
  pt_agent_id : string; pt_conversation_id : string; pt_sender_user_id : option string; pt_sender_staff_id : option string;
  pt_task_id : option string; pt_execution_workspace_id : option string; pt_collaboration_workspace_id : option string }.
Definition turn_metadata k (t : persisted_turn) (entry : option CatalogAgentEntry) (s : SessionState) : SessionState :=
  let m := <["current_agent" := pt_agent_id t]> (ss_metadata s) in
  let m := match entry with
           | Some e => set_or_remove "agent_source_scope" (le_source_scope e) (<["agent_source_layer" := le_source_layer e]> m)
           | None => m
           end in
  let m := <["conversation_id" := pt_conversation_id t]> m in
  let m := set_if "sender_user_id" (pt_sender_user_id t) m in
  let m := set_if "sender_staff_id" (pt_sender_staff_id t) m in
  let m := set_if "last_task_id" (pt_task_id t) m in
  let m := set_if "execution_workspace_id" (pt_execution_workspace_id t) m in
  let id := default (collaboration_workspace_id_for_session k) (pt_collaboration_workspace_id t) in
  let n := session_namespace_for_session k (Some (set_state_metadata m s)) in
  set_state_metadata (write_collaboration_metadata id (Some n) (write_namespace_metadata n m)) s.
(** That the state is not saved is only logged. *)
Definition persist_session_state (now1 now2 : timestamp) w d k (t : persisted_turn) : Disk :=
  match load_or_init_session_state_for_update now1 w d k (pt_agent_id t) with
  | None => d
  | Some (scope, s, entry) =>
      (save_session_state scope d (SessionKey_as_str k) (turn_metadata k t entry (increment_message_count now2 s))).1
  end.

Definition save_if_loaded (scope : AgentScope) d (session : string) (f : SessionState → SessionState) : Disk :=
  match load_session_state scope d session with
  | Ok (Some s) => (save_session_state scope d session (f s)).1
  | _ => d
  end.
Definition persist_direct_reply_memory (now1 now2 now3 now4 : timestamp) w d k (agent user reply : string) : Disk :=
  let session := SessionKey_as_str k in
  let d := (store_message now1 d (wr_memory w) session user reply).1 in
  match resolve_agent_scope_for_session w d k (Some agent) with
  | None => d
  | Some scope =>
      let d := (append_to_today_memory now3 scope d (history_entry now2 user reply)).1 in
      save_if_loaded scope d session (touch now4)
  end.
Definition persist_task_result_memory (now1 now2 now3 now4 : timestamp) w d (c : TaskContext) (task_text reply : string) : Disk :=
  let user := default "" (tc_intent c) in
  if bool_decide (str_trim user = "") then d
  else
    let session := session_id_str (tc_session_id c) in
    let d := (store_message now1 d (wr_memory w) session user reply).1 in
    match or_else (task_context_agent_entry w (key_of_session session) c ≫= λ e, ag_scope (le_value e))
            (tc_env c !! "agent_id" ≫= agent_scope_for w) with
    | None => d
    | Some scope =>
        let d := (append_to_today_memory now3 scope d (history_entry now2 user reply)).1 in
        save_if_loaded scope d session
          (λ s, let s := touch now4 s in set_state_metadata (<["last_task_id" := task_text]> (ss_metadata s)) s)
    end.
End SessionAgents.

(** *** Skills run by the Hub itself *)

Section LocalSkills.
Context `{HashOrder, AgentDisk, AgentTexts, RolesJson, Processes, SkillOutput} {Json : Type}.
(** The skill is the one the session sees; nothing is found outside its scopes. *)
Definition execute_local_skill (w : WebAgentRuntime) (skills : LayeredSkillRegistry Json) (d : Disk) (k : SessionKey)
    (name input : string) : Result string string + AgentError :=
  let chain := visibility_chain (session_namespace_for_session k (load_session_state_for_session w d k)) in
  match skill_for_scopes skills chain name with
  | None => inl (Err ("Skill not found: " +:+ name))
  | Some s =>
      match skill_execute s input with
      | Err e => inr e
      | Ok output => inl (Ok (if bool_decide (str_trim output = "") then "技能 " +:+ name +:+ " 执行成功，无输出。" else output))
      end
  end.
End LocalSkills.

(** ** The views of sessions and agents *)

Record SessionRuntimeDetail := MkSessionRuntimeDetail {
  sd_session_id : string; sd_agent_id : option string; sd_conversation_id : option string;
  sd_sender_user_id : option string; sd_sender_staff_id : option string; sd_last_task_id : option string;
  sd_message_count : Z; sd_created_at : string; sd_last_active : string; sd_namespace : option SessionNamespace;
  sd_collaboration_workspace : option CollaborationWorkspace; sd_memory_context_chain : list string;
  sd_visibility_chain : list string; sd_metadata : Metadata; sd_runtime_mailbox : option SessionMailboxSnapshot }.
Record AgentRuntimeSummary := MkAgentRuntimeSummary {
  rs_agent_id : string; rs_name : string; rs_description : string; rs_workspace_dir : string; rs_is_default : bool;
  rs_skill_names : list string; rs_active_session_count : nat; rs_source_layer : string; rs_source_scope : option string }.

Section Views.
Context `{HashOrder, AgentDisk, AgentTexts, RolesJson, AgentDirs} (rfc3339 : timestamp → string).
Implicit Types (w : WebAgentRuntime) (d : Disk) (s : SessionState) (v : SessionRuntimeDetail).

Definition session_namespace_from_session_id (session : string) : option SessionNamespace :=
  (λ k, namespace_with_access_context k None) <$> key_of_session session.
Definition session_state_to_detail s : SessionRuntimeDetail :=
  let m := <["session_id" := ss_session_id s]> (ss_metadata s) in
  let n := or_else (session_namespace_from_metadata None m) (session_namespace_from_session_id (ss_session_id s)) in
  let agent := ss_metadata s !! "current_agent" in
  MkSessionRuntimeDetail (ss_session_id s) agent (ss_metadata s !! "conversation_id") (ss_metadata s !! "sender_user_id")
    (ss_metadata s !! "sender_staff_id") (ss_metadata s !! "last_task_id") (ss_message_count s) (rfc3339 (ss_created_at s))
    (rfc3339 (ss_last_active s)) n
    (resolve_collaboration_workspace (key_of_session (ss_session_id s)) None n m agent)
    (default [] (memory_context_chain <$> n)) (default [] (visibility_chain <$> n)) (ss_metadata s) None.
Definition set_mailbox (b : option SessionMailboxSnapshot) v : SessionRuntimeDetail :=
  MkSessionRuntimeDetail (sd_session_id v) (sd_agent_id v) (sd_conversation_id v) (sd_sender_user_id v) (sd_sender_staff_id v)
    (sd_last_task_id v) (sd_message_count v) (sd_created_at v) (sd_last_active v) (sd_namespace v)
    (sd_collaboration_workspace v) (sd_memory_context_chain v) (sd_visibility_chain v) (sd_metadata v) b.
Definition mailbox_detail (session : string) (b : SessionMailboxSnapshot) : SessionRuntimeDetail :=
  MkSessionRuntimeDetail session None None None None None 0 "" "" None None [] [] ∅ (Some b).

(** The first error ends the listing. *)
Fixpoint until_error (entries : list (Result path string)) : list path :=
  match entries with Ok p :: entries => p :: until_error entries | _ => [] end.
(** The directories below [sessions] whose state loads. *)
Definition stored_sessions d (scope : AgentScope) : list SessionState :=
  let dir := in_dir (as_agents_dir scope) "sessions" in
  if path_exists dir then
    match list_dir dir with
    | Err _ => []
    | Ok entries =>
        omap (λ p, if path_is_dir p then file_name p ≫= λ name, state_of (load_session_state scope d name) else None)
          (until_error entries)
    end
  else [].
(** The texts of the times are compared. *)
Definition keep_later (sessions : gmap string SessionRuntimeDetail) v : gmap string SessionRuntimeDetail :=
  match sessions !! sd_session_id v with
  | Some old => if negb (str_leb (sd_last_active v) (sd_last_active old)) then <[sd_session_id v := v]> sessions else sessions
  | None => <[sd_session_id v := v]> sessions
  end.
Definition collect_runtime_sessions (mailboxes : list SessionMailboxSnapshot) w d : list SessionRuntimeDetail :=
  let boxes := foldl (λ m b, <[mb_session_key b := b]> m) ∅ mailboxes in
  let sessions :=
    foldl (λ m s, let v := session_state_to_detail s in keep_later m (set_mailbox (boxes !! sd_session_id v) v)) ∅
      (distinct_scopes (list_all_agent_entries (wr_agents w)) ∅ ≫= stored_sessions d) in
  let sessions := sessions ∪ map_imap (λ k b, Some (mailbox_detail k b)) boxes in
  sort_by (λ a b, str_leb (sd_last_active b) (sd_last_active a)) (hash_values sessions).

Definition session_count_key : Type := string * string * option string.
Definition resolve_session_agent_count_key w v : option session_count_key :=
  sd_agent_id v ≫= λ id,
    (λ e, (id, le_source_layer e, le_source_scope e))
    <$> or_else (sd_metadata v !! "agent_source_layer" ≫= λ layer,
                   get_agent_entry_by_source (wr_agents w) id layer (sd_metadata v !! "agent_source_scope"))
          (if bool_decide (sd_visibility_chain v = []) then get_any_agent_entry (wr_agents w) id
           else visible_or_any w (sd_visibility_chain v) id).
Definition active_session_count w (sessions : list SessionRuntimeDetail) (key : session_count_key) : nat :=
  length (List.filter (λ v, bool_decide (resolve_session_agent_count_key w v = Some key)) sessions).
Definition agent_summary w (skills : list string) (sessions : list SessionRuntimeDetail) (e : CatalogAgentEntry)
    : AgentRuntimeSummary :=
  let a := le_value e in
  MkAgentRuntimeSummary (ag_agent_id a) (ag_name a) (ag_description a) (path_to_string (ag_workspace_dir a))
    (match ag_scope a with Some s => asc_is_default (as_config s) | None => false end) skills
    (active_session_count w sessions (ag_agent_id a, le_source_layer e, le_source_scope e)) (le_source_layer e) (le_source_scope e).
(** By identifier, then the text of the layer, then the scope. *)
Definition summary_leb (a b : AgentRuntimeSummary) : bool :=
  if bool_decide (rs_agent_id a = rs_agent_id b) then
    if bool_decide (rs_source_layer a = rs_source_layer b)
    then str_leb (default "" (rs_source_scope a)) (default "" (rs_source_scope b))
    else str_leb (rs_source_layer a) (rs_source_layer b)
  else str_leb (rs_agent_id a) (rs_agent_id b).
Definition list_runtime_agents w d (mailboxes : list SessionMailboxSnapshot) (skills : list string) : list AgentRuntimeSummary :=
  let sessions := collect_runtime_sessions mailboxes w d in
  sort_by summary_leb (agent_summary w skills sessions <$> list_all_agent_entries (wr_agents w)).
Definition runtime_agent_entry w (id : string) (layer scope : option string) : option CatalogAgentEntry :=
  match layer with
  | Some layer => get_agent_entry_by_source (wr_agents w) id layer scope
  | None => get_any_agent_entry (wr_agents w) id
  end.
Definition find_runtime_session (sessions : list SessionRuntimeDetail) (session : string) : option SessionRuntimeDetail :=
  List.find (λ v, bool_decide (sd_session_id v = session)) sessions.
Definition get_runtime_session w d (mailboxes : list SessionMailboxSnapshot) (session : string)
    : Z * Result SessionRuntimeDetail string :=
  match find_runtime_session (collect_runtime_sessions mailboxes w d) session with
  | Some v => (200%Z, Ok v)
  | None => (404%Z, Err "Session not found")
  end.
Definition get_runtime_session_messages (m : SessionRuntimeManager) w d (mailboxes : list SessionMailboxSnapshot) (session : string)
    : Z * Result (list SessionMessageRecord) string :=
  match find_runtime_session (collect_runtime_sessions mailboxes w d) session with
  | Some _ => (200%Z, Ok (read_session_messages rfc3339 m d (wr_memory w) session))
  | None => (404%Z, Err "Session not found")
  end.
End Views.

(** * Theorems *)

(** ** Namespaces *)

Section NamespaceFacts.
Context `{RolesJson}.
Implicit Types (m : Metadata) (k : SessionKey) (n : SessionNamespace) (c : AccessContext).

(** The keys of a namespace. *)
Definition namespace_keys : list string :=
  ["namespace_global"; "namespace_tenant"; "namespace_enterprise"; "namespace_department"; "namespace_roles";
   "namespace_user"; "namespace_session"].

Lemma set_or_remove_eq key v m : set_or_remove key v m !! key = v.
Proof. destruct v; simpl; [by rewrite lookup_insert_eq|by rewrite lookup_delete_eq]. Qed.
Lemma set_or_remove_ne key key2 v m : key2 ≠ key → set_or_remove key v m !! key2 = m !! key2.
Proof. intros Hn. destruct v; simpl; [by rewrite lookup_insert_ne|by rewrite lookup_delete_ne]. Qed.
Lemma write_namespace_other n m key : key ∉ namespace_keys → write_namespace_metadata n m !! key = m !! key.
Proof.
  unfold namespace_keys. rewrite !not_elem_of_cons. intros (? & ? & ? & ? & ? & ? & ? & _). unfold write_namespace_metadata.
  rewrite !lookup_insert_ne by done. case_bool_decide; [rewrite lookup_delete_ne by done|rewrite lookup_insert_ne by done];
    by rewrite !set_or_remove_ne, lookup_insert_ne by done.
Qed.
Lemma write_namespace_lookup n m :
  let m' := write_namespace_metadata n m in
  m' !! "namespace_global" = Some (ns_global n) ∧ m' !! "namespace_tenant" = ns_tenant n ∧
  m' !! "namespace_enterprise" = ns_enterprise n ∧ m' !! "namespace_department" = ns_department n ∧
  m' !! "namespace_roles" = (if bool_decide (ns_roles n = []) then None else Some (text_of_roles (ns_roles n))) ∧
  m' !! "namespace_user" = Some (ns_user n) ∧ m' !! "namespace_session" = Some (ns_session n).
Proof.
  intros m'. unfold m', write_namespace_metadata. split_and!.
  all: repeat (rewrite lookup_insert_ne by done); rewrite ?lookup_insert_eq; try done.
  all: case_bool_decide; repeat (rewrite lookup_delete_ne by done); repeat (rewrite lookup_insert_ne by done);
    rewrite ?lookup_delete_eq, ?lookup_insert_eq; try done;
    repeat (rewrite set_or_remove_ne by done); rewrite ?set_or_remove_eq; try done; by rewrite lookup_insert_eq.
Qed.

Context (roles_law : ∀ l, roles_of_text (text_of_roles l) = Some l).

(** A namespace that was written into metadata is read back, for the same key. *)
Theorem namespace_round_trip k c m :
  normalized c = c →
  let n := namespace_with_access_context k (Some c) in
  session_namespace_from_metadata (Some k) (write_namespace_metadata n m) = Some n.
Proof.
  intros Hc n. unfold session_namespace_from_metadata. simpl. f_equal.
  destruct (write_namespace_lookup n m) as (-> & Ht & He & Hd & Hr & -> & ->). simpl.
  unfold access_context_from_metadata. rewrite Ht, He, Hd, Hr.
  assert (default [] ((if bool_decide (ns_roles n = []) then None else Some (text_of_roles (ns_roles n))) ≫= roles_of_text)
    = ns_roles n) as ->.
  { case_bool_decide as Hn; [by rewrite Hn|]. simpl. by rewrite roles_law. }
  assert (n = MkSessionNamespace "global" (match tenant_key k with None => ac_tenant c | Some t => Some t end)
    (ac_enterprise c) (ac_department c) (ac_roles c) ("user:" +:+ user_key k) ("session:" +:+ SessionKey_as_str k)) as En.
  { unfold n, namespace_with_access_context, with_access_context. by rewrite Hc. }
  assert (normalize_optional_scope (ac_enterprise c) = ac_enterprise c ∧ normalize_optional_scope (ac_department c) = ac_department c
    ∧ normalize_role_scopes (ac_roles c) = ac_roles c ∧ normalize_optional_scope (ac_tenant c) = ac_tenant c) as (Ne & Nd & Nr & Nt).
  { rewrite <-Hc at 2 4 6 8. done. }
  rewrite En. clear En n Ht He Hd Hr. simpl.
  set (T := match tenant_key k with Some t => Some t | None => ac_tenant c end).
  assert (tenant_key k = None → T = ac_tenant c) as HT by (intros E; unfold T; by rewrite E).
  unfold namespace_with_access_context, with_access_context, namespace, from_session_key.
  destruct (_ || _) eqn:Hcond; simpl.
  - rewrite !Ne, !Nd, !Nr. f_equal. destruct (tenant_key k) eqn:Ek; [done|].
    rewrite (HT eq_refl). by rewrite !Nt.
  - simpl in Hcond. rewrite ?Ne, ?Nd, ?Nr, !orb_false_iff, negb_false_iff, !bool_decide_eq_false, bool_decide_eq_true in Hcond.
    destruct Hcond as [[[H1 H2] H3] ->]. rewrite <-!eq_None_not_Some in *. rewrite H2, H3. f_equal.
    unfold T in *. destruct (tenant_key k); [done|]. by rewrite <-H1, Nt.
Qed.

(** The user and the session of a namespace are those the metadata names, whosever
    key it is; the key decides only when the metadata is silent. *)
Theorem metadata_names_user k m n :
  session_namespace_from_metadata (Some k) m = Some n →
  ns_user n = default ("user:" +:+ user_key k) (m !! "namespace_user") ∧
  ns_session n = default ("session:" +:+ SessionKey_as_str k) (m !! "namespace_session") ∧
  head (visibility_chain n) = Some (ns_user n).
Proof.
  unfold session_namespace_from_metadata. simpl. intros [= <-]. simpl.
  by destruct (access_context_from_metadata m).
Qed.

(** The owner of a logical workspace of a session is the session, whatever the
    metadata says of an owner. *)
Theorem session_workspace_owner k n m :
  let id := collaboration_workspace_id_for_session k in
  collaboration_scope_owner id (Some n) m = ns_session n ∧
  write_collaboration_metadata id (Some n) m !! "collaboration_scope_owner" = Some (ns_session n).
Proof.
  intros id. assert (collaboration_scope_owner id (Some n) m = ns_session n) as E.
  { unfold collaboration_scope_owner. assert (String.prefix "collab:session:" id = true) as -> by (unfold id, collaboration_workspace_id_for_session; by destruct (SessionKey_as_str k)).
    done. }
  split; [done|]. unfold write_collaboration_metadata. rewrite E. by rewrite lookup_insert_ne, lookup_insert_eq by done.
Qed.

(** A task is given its namespace and, when it has a session key, always a logical
    workspace; what it is about and where it runs stay as they are. *)
Theorem populated_task k (t : TaskContext) :
  let t' := populate_task_context_runtime_metadata (Some k) None t in
  is_Some (tc_collaboration_workspace_id t') ∧
  tc_user_id t' = tc_user_id t ∧ tc_session_id t' = tc_session_id t ∧ tc_intent t' = tc_intent t ∧
  tc_execution_workspace_id t' = tc_execution_workspace_id t ∧
  (is_Some (tc_collaboration_workspace_id t) → tc_collaboration_workspace_id t' = tc_collaboration_workspace_id t).
Proof.
  intros t'. unfold t', populate_task_context_runtime_metadata. destruct (tc_collaboration_workspace_id t) as [id|] eqn:Ec; simpl.
  - by split_and!.
  - unfold collaboration_workspace_id_from_metadata. destruct (_ !! "collaboration_workspace_id"); simpl; split_and!; try done;
      by intros [].
Qed.
End NamespaceFacts.

(** ** Agents of sessions *)

Section AgentFacts.
Context `{HashOrder, AgentDisk, AgentTexts, RolesJson}.
Implicit Types (w : WebAgentRuntime) (k : SessionKey) (d : Disk).

Lemma write_collaboration_other id n (m : Metadata) key :
  key ∉ ["collaboration_materialization"; "collaboration_scope_owner"; "collaboration_workspace_id"] →
  write_collaboration_metadata id n m !! key = m !! key.
Proof.
  rewrite !not_elem_of_cons. intros (? & ? & ? & _). unfold write_collaboration_metadata. by rewrite !lookup_insert_ne by done.
Qed.
Lemma set_if_ne key v (m : Metadata) key2 : key2 ≠ key → set_if key v m !! key2 = m !! key2.
Proof. intros Hn. destruct v; simpl; [by rewrite lookup_insert_ne|done]. Qed.
Lemma turn_metadata_lookup k t entry s key :
  key ∉ namespace_keys → key ∉ ["collaboration_materialization"; "collaboration_scope_owner"; "collaboration_workspace_id"] →
  key ∉ ["conversation_id"; "sender_user_id"; "sender_staff_id"; "last_task_id"; "execution_workspace_id"] →
  ss_metadata (turn_metadata k t entry s) !! key =
  (match entry with
   | Some e => set_or_remove "agent_source_scope" (le_source_scope e)
                 (<["agent_source_layer" := le_source_layer e]> (<["current_agent" := pt_agent_id t]> (ss_metadata s)))
   | None => <["current_agent" := pt_agent_id t]> (ss_metadata s)
   end) !! key.
Proof.
  intros K1 K2 K3. unfold turn_metadata. simpl. rewrite write_collaboration_other, write_namespace_other by done.
  rewrite !not_elem_of_cons in K3. destruct K3 as (? & ? & ? & ? & ? & _).
  by rewrite !set_if_ne, lookup_insert_ne by done.
Qed.

(** The agent that is recorded with a turn is the one that the state of the session
    leads to, as long as the catalogue has it and no scope is called [global]. *)
Theorem recorded_agent_found w k t e s scopes :
  visible_or_any w scopes (pt_agent_id t) = Some e → le_source_scope e ≠ Some "global" →
  session_state_agent_entry w (turn_metadata k t (Some e) s) = Some e.
Proof.
  intros E Hn. unfold session_state_agent_entry.
  rewrite !turn_metadata_lookup by (unfold namespace_keys; set_solver).
  assert (set_or_remove "agent_source_scope" (le_source_scope e)
    (<["agent_source_layer" := le_source_layer e]> (<["current_agent" := pt_agent_id t]> (ss_metadata s))) !! "current_agent"
    = Some (pt_agent_id t)) as ->.
  { rewrite set_or_remove_ne by done. by rewrite lookup_insert_ne, lookup_insert_eq by done. }
  rewrite set_or_remove_eq, set_or_remove_ne, lookup_insert_eq by done. simpl.
  unfold visible_or_any, get_agent_for_scopes_entry, get_any_agent_entry, any_entry in E. unfold get_agent_entry_by_source.
  destruct (scopes_or_global (wr_agents w) scopes (pt_agent_id t)) as [e'|] eqn:E'; simpl in E.
  - injection E as ->. by eapply entry_found_by_source.
  - by eapply entry_found_by_source.
Qed.

(** An agent that a session asks for by name is found in the scope of another user,
    when neither its own scopes nor the global table have it. *)
Theorem private_agent_leaks w d k id a owner :
  load_session_state_for_session w d k = None →
  (∀ s, s ∈ visibility_chain (namespace k) → scoped_value (wr_agents w) s id = None) →
  ly_global (wr_agents w) !! id = None →
  scoped_value (wr_agents w) owner id = Some a → (∀ s, is_Some (scoped_value (wr_agents w) s id) → s = owner) →
  resolve_agent_entry_for_session w d k (Some id) = Some (scoped_entry owner a).
Proof.
  intros Hs Hc Hg Ho Hu. unfold resolve_agent_entry_for_session. rewrite Hs. simpl.
  unfold visible_or_any, get_agent_for_scopes_entry, get_any_agent_entry.
  pose proof (scopes_nearest_first (wr_agents w) (visibility_chain (session_namespace_for_session k None)) id) as F.
  destruct (scopes_or_global _ _ id) as [e|].
  - exfalso. destruct F as [(before & s & after & v & El & Hv & _)|(v & Hv & _)]; [|congruence].
    rewrite Hc in Hv; [done|]. change (visibility_chain (namespace k)) with (visibility_chain (session_namespace_for_session k None)).
    rewrite El. set_solver.
  - simpl. pose proof (any_entry_nearest_layer (wr_agents w) id) as A. destruct (any_entry (wr_agents w) id) as [e|].
    + destruct A as [(s & v & Hv & -> & _)|(v & Hv & _)]; [|congruence].
      assert (s = owner) as -> by (apply Hu; by eexists). congruence.
    + destruct A as [_ A]. rewrite A in Ho. done.
Qed.

(** *** The latest state *)

Lemma later_state_spec l b s :
  foldl later_state (Some b) l = Some s →
  (s = b ∨ s ∈ l) ∧ (ss_last_active b ≤ ss_last_active s)%Z ∧ ∀ x, x ∈ l → (ss_last_active x ≤ ss_last_active s)%Z.
Proof.
  revert b. induction l as [|x l IH]; intros b; cbn [foldl]; [intros [= <-]; set_solver by lia|].
  unfold later_state at 2. case_bool_decide; intros (Hs & Hb & Hl)%IH; set_solver by lia.
Qed.
(** The state of a session is the latest active one of those the agents keep. *)
Theorem latest_state_loaded w d k s :
  load_session_state_for_session w d k = Some s →
  let states := omap (λ a, state_of (load_session_state a d (SessionKey_as_str k)))
                  (distinct_scopes (list_all_agent_entries (wr_agents w)) ∅) in
  states ≠ [] → s ∈ states ∧ ∀ x, x ∈ states → (ss_last_active x ≤ ss_last_active s)%Z.
Proof.
  unfold load_session_state_for_session. cbv zeta.
  generalize (omap (λ a, state_of (load_session_state a d (SessionKey_as_str k)))
                (distinct_scopes (list_all_agent_entries (wr_agents w)) ∅)) as states.
  intros [|x l]; [done|].
  cbn [foldl]. intros E _. assert (∃ s', foldl later_state (Some x) l = Some s') as [s' Es].
  { clear E. revert x. induction l as [|y l IH]; intros x; cbn [foldl]; [by eexists|]. simpl. case_bool_decide; apply IH. }
  cbn [later_state] in E. rewrite Es in E. injection E as ->. apply later_state_spec in Es as (Hs & Hx & Hl).
  split; [set_solver|]. intros y [->|Hy]%elem_of_cons; auto.
Qed.
End AgentFacts.

(** *** The default agent *)

Section LoaderFacts.
Context `{AgentDisk, AgentTexts, AgentDirs, HashOrder}.
Implicit Types (d : Disk).

(** Under its name, with a scope of that name that is not the default one. *)
Definition plain_agent (id : string) (a : Agent) : Prop :=
  ag_agent_id a = id ∧ ∃ s, ag_scope a = Some s ∧ asc_agent_id (as_config s) = id ∧ asc_is_default (as_config s) = false.

Lemma build_agents_plain d candidates agents d' agents' :
  map_Forall plain_agent agents → build_agents d candidates agents = (d', Ok agents') → map_Forall plain_agent agents'.
Proof.
  revert d agents. induction candidates as [|[id p] candidates IH]; intros d agents Ha; cbn [build_agents]; [by intros [= _ <-]|].
  unfold build_catalog_agent. destruct (init_workspace _ d) as [d2 [[]|e]]; [|done]. apply IH. apply map_Forall_insert_2; [|done].
  split; [done|]. by eexists.
Qed.
Lemma loaded_agents_plain d root main d' agents :
  load_agent_catalog_from_root d root main = (d', Ok agents) → map_Forall plain_agent agents.
Proof.
  unfold load_agent_catalog_from_root. destruct (path_exists root); [|intros [= _ <-]; apply map_Forall_empty].
  destruct (agent_candidates root main); [|done]. apply build_agents_plain, map_Forall_empty.
Qed.

Lemma register_scopes_lookup m agents id s :
  am_scopes (register_scopes m agents) !! id = Some s →
  am_scopes m !! id = Some s ∧ Forall (λ a, ∀ t, ag_scope a = Some t → asc_agent_id (as_config t) ≠ id) agents ∨
  ∃ a, a ∈ agents ∧ ag_scope a = Some s ∧ asc_agent_id (as_config s) = id.
Proof.
  revert m. induction agents as [|a agents IH]; intros m; [by left|]. unfold register_scopes. cbn [foldl].
  intros [[E F]|(b & ? & ?)]%IH; [|right; exists b; set_solver].
  destruct (ag_scope a) as [t|] eqn:Et; [|left; split; [done|by constructor; [congruence|]]].
  simpl in E. destruct (decide (asc_agent_id (as_config t) = id)) as [<-|Hn].
  - rewrite lookup_insert_eq in E. injection E as ->. right. exists a. set_solver.
  - rewrite lookup_insert_ne in E by done. left. split; [done|]. constructor; [|done]. rewrite Et. by intros ? [= <-].
Qed.

(** A directory [workspace-main] takes the place of the agent that is set up as the
    default: no agent is the default one any more. *)
Theorem workspace_main_replaces_default d base d1 main d2 more d' m c a :
  build_catalog_agent d "main" (in_dir base "workspace") true "Hub default agent" "You are the default uHorse Hub agent." = (d1, Ok main) →
  load_agent_catalog_from_root d1 base false = (d2, Ok more) → more !! "main" = Some a →
  init_agents d base = (d', Ok (m, c)) →
  get_default_scope m = None ∧ ly_global c !! "main" = Some a.
Proof.
  intros Hm Hl Ha. unfold init_agents. rewrite Hm, Hl. destruct (load_scoped_dirs _ _ _ _) as [d3 [c3|e]] eqn:Ec; [|done].
  destruct (memory_init_workspace _ _) as [d4 [[]|e]]; [|done]. intros [= _ <- <-].
  apply loaded_agents_plain in Hl. split.
  - unfold get_default_scope. destruct (List.find _ _) as [s|] eqn:Ef; [|done]. exfalso.
    apply find_some in Ef as [Hs Hd]. apply list_elem_of_In, elem_of_hash_values in Hs as [id Hs].
    apply register_scopes_lookup in Hs as [[Hs F]|(b & Hb & Hbs & _)].
    + assert (id = "main") as ->.
      { unfold build_catalog_agent in Hm. destruct (init_workspace _ d) as [? [[]|e]]; [|done]. injection Hm as _ <-.
        unfold register_scopes in Hs. simpl in Hs. destruct (decide ("main" = id)) as [|Hn]; [done|].
        by rewrite lookup_insert_ne in Hs. }
      rewrite Forall_forall in F. destruct (Hl _ _ Ha) as (_ & t & Ht & Hi & _).
      eapply (F a); [by apply elem_of_hash_values; eexists|done|done].
    + apply elem_of_hash_values in Hb as [i Hi]. destruct (Hl _ _ Hi) as (_ & t & Ht & _ & Hf).
      rewrite Ht in Hbs. injection Hbs as ->. congruence.
  - assert (∀ names d c d' c', load_scoped_dirs d base names c = (d', Ok c') → ly_global c' = ly_global c) as G.
    { induction names as [|n names IH]; intros d0 c0 d0' c0'; cbn [load_scoped_dirs]; [by intros [= _ <-]|].
      destruct (load_scoped_dir d0 base n c0) as [d5 [c5|e]] eqn:E5; [|done]. intros E6. rewrite (IH _ _ _ _ E6).
      revert E5. unfold load_scoped_dir. destruct (path_exists _); [|by intros [= _ <-]]. destruct (list_dir _) as [l|]; [|done].
      clear. revert d0 c0. induction l as [|[p|e] l IH]; intros d0 c0; cbn [load_scopes]; [by intros [= _ <-]| |done].
      destruct (if path_is_dir p then file_name p else None); [|apply IH].
      destruct (load_agent_catalog_from_root d0 p true) as [d6 [g|e]]; [|done]. intros E. rewrite (IH _ _ E).
      by case_bool_decide. }
    rewrite (G _ _ _ _ _ Ec). unfold LayeredAgentCatalog_new, layered_new. simpl. by apply lookup_union_Some_l.
Qed.
End LoaderFacts.

(** *** Sessions and skills *)

Section ViewFacts.
Context `{HashOrder, AgentDisk, AgentTexts, RolesJson, AgentDirs} (rfc3339 : timestamp → string).
Implicit Types (w : WebAgentRuntime) (d : Disk).

(** Every session is listed once, those that only have a mailbox too. *)
Theorem sessions_listed_once mailboxes w d :
  NoDup (sd_session_id <$> collect_runtime_sessions rfc3339 mailboxes w d) ∧
  ∀ b, b ∈ mailboxes → mb_session_key b ∈ sd_session_id <$> collect_runtime_sessions rfc3339 mailboxes w d.
Proof.
  unfold collect_runtime_sessions.
  set (boxes := foldl _ ∅ mailboxes). set (stored := foldl (λ m s, _) ∅ _).
  assert (map_Forall (λ k v, sd_session_id v = k) stored) as Ks.
  { unfold stored. generalize (distinct_scopes (list_all_agent_entries (wr_agents w)) ∅ ≫= stored_sessions d). intros l.
    assert (map_Forall (λ k v, sd_session_id v = k) (∅ : gmap string SessionRuntimeDetail)) as E by apply map_Forall_empty.
    revert E. generalize (∅ : gmap string SessionRuntimeDetail). clear stored. induction l as [|s l IH]; intros m E; [done|].
    cbn [foldl]. apply IH. unfold keep_later. repeat case_match; try done; by apply map_Forall_insert_2. }
  assert (map_Forall (λ k v, sd_session_id v = k) (stored ∪ map_imap (λ k b, Some (mailbox_detail k b)) boxes)) as K.
  { intros k v. rewrite lookup_union_Some_raw, map_lookup_imap. intros [Hv|[_ Hv]]; [by apply Ks|].
    destruct (boxes !! k); [|done]. by injection Hv as <-. }
  split.
  - rewrite sort_by_perm. unfold hash_values. rewrite hash_order_perm.
    assert (∀ m : gmap string SessionRuntimeDetail, map_Forall (λ k v, sd_session_id v = k) m →
      sd_session_id <$> (map_to_list m).*2 = (map_to_list m).*1) as ->; [|apply NoDup_fst_map_to_list|done].
    intros m Hm. rewrite <-list_fmap_compose. apply list_fmap_ext. intros i [k v] Hi. simpl. apply Hm.
    by apply elem_of_map_to_list, list_elem_of_lookup_2 with i.
  - intros b Hb.
    assert (is_Some (boxes !! mb_session_key b)) as [x Hx].
    { unfold boxes. assert (∀ l (m : gmap string SessionMailboxSnapshot),
        (b ∈ l ∨ is_Some (m !! mb_session_key b)) → is_Some (foldl (λ m b, <[mb_session_key b := b]> m) m l !! mb_session_key b)) as F.
      { induction l as [|y l IH]; intros m Hm; cbn [foldl]; [destruct Hm as [Hm|]; [set_solver|done]|]. apply IH.
        destruct (decide (mb_session_key y = mb_session_key b)) as [->|Hn]; [right; rewrite lookup_insert_eq; by eexists|].
        destruct Hm as [[->|Hm]%elem_of_cons|Hm]; [done|by left|right; by rewrite lookup_insert_ne]. }
      apply F. by left. }
    assert (is_Some ((stored ∪ map_imap (λ k b, Some (mailbox_detail k b)) boxes) !! mb_session_key b)) as [v Hv].
    { destruct (stored !! mb_session_key b) as [v|] eqn:E; [exists v; by apply lookup_union_Some_l|].
      exists (mailbox_detail (mb_session_key b) x). rewrite lookup_union_r by done. by rewrite map_lookup_imap, Hx. }
    apply list_elem_of_fmap. exists v. split; [symmetry; by apply K|]. apply sort_by_elem_of, elem_of_hash_values. by eexists.
Qed.
End ViewFacts.

(** A skill that only another user's scope has is not found: unlike agents, skills
    stay inside their scopes. *)
Theorem private_skill_hidden `{HashOrder, AgentDisk, AgentTexts, RolesJson, Processes, SkillOutput} {Json}
    w (skills : LayeredSkillRegistry Json) d k name input :
  (∀ s, s ∈ visibility_chain (session_namespace_for_session k (load_session_state_for_session w d k)) →
        scoped_value skills s name = None) →
  ly_global skills !! name = None →
  execute_local_skill w skills d k name input = inl (Err ("Skill not found: " +:+ name)).
Proof.
  intros Hc Hg. unfold execute_local_skill, skill_for_scopes, skill_for_scopes_entry.
  pose proof (scopes_nearest_first skills
    (visibility_chain (session_namespace_for_session k (load_session_state_for_session w d k))) name) as F.
  destruct (scopes_or_global _ _ name) as [e|]; [|done]. exfalso.
  destruct F as [(before & s & after & v & El & Hv & _)|(v & Hv & _)]; [|congruence].
  rewrite Hc in Hv; [done|]. rewrite El. set_solver.
Qed.
