(* ===== verification/TaskApi.v ===== *)
(** Tasks over HTTP ([crates/uhorse-hub/src/web/mod.rs], [submit_task_api],
    [get_task], [list_tasks] and [task_info_from_status_and_context]): what a client
    may say of the task it submits, and what it is shown of a task. *)
From S2P Require Import Prelude Float32 Json ProtocolTypes ProtocolCommand ProtocolResult.
From S2P Require Import ProtocolMessage Channel Paths NodeManager TaskScheduler SchedulerFacts SchedulerTheorems.
From S2P Require Import SessionRuntime Approval Notifications Permission Hub HubFacts Jwt NodeAuth Pairing WebApi.
From S2P Require Import AgentRouting Layered AgentFiles AgentCatalog.

Record TaskInfo := MkTaskInfo {
  ti_task_id : string; ti_status : string; ti_command_type : string; ti_priority : string;
  ti_execution_workspace_id : option string; ti_collaboration_workspace : option CollaborationWorkspace;
  ti_started_at : option string }.
Record SubmitTaskPayload `{JsonValue} := MkSubmitTaskPayload {
  pl_command : Command; pl_user_id : string; pl_session_id : string; pl_channel : string;
  pl_execution_workspace_id : option string; pl_collaboration_workspace_id : option string; pl_intent : option string;
  pl_env : gmap string string; pl_priority : Priority; pl_workspace_hint : option string; pl_required_tags : list string }.

Definition TaskStatus_debug (s : TaskStatus) : string :=
  match s with
  | StatusCreated => "Created" | StatusQueued => "Queued" | StatusAssigned => "Assigned" | StatusRunning => "Running"
  | StatusCompleted => "Completed" | StatusFailed => "Failed" | StatusCancelled => "Cancelled" | StatusTimeout => "Timeout"
  end.

Section TaskApi.
Context `{JsonValue, HashOrder, ToLowercase, !WireJson, ChannelTypeText, FileSystem, SendErrorText, TimeText, RolesJson}.

Definition task_info_from_status_and_context (s : TaskStatusInfo) (c : option TaskContext) : TaskInfo :=
  let m := default ∅ (tc_env <$> c) in
  let m := set_if "session_id" ((λ c, session_id_str (tc_session_id c)) <$> c) m in
  let m := set_if "execution_workspace_id" (c ≫= tc_execution_workspace_id) m in
  let k := c ≫= λ c, key_of_session (session_id_str (tc_session_id c)) in
  let n := c ≫= task_context_namespace k in
  MkTaskInfo (task_id_str (tsi_task_id s)) (TaskStatus_debug (tsi_status s))
    (match tsi_command_type s with Some t => to_lowercase (CommandType_debug t) | None => "unknown" end)
    (match tsi_priority s with Some p => Priority_display p | None => "unknown" end)
    (c ≫= tc_execution_workspace_id)
    (resolve_collaboration_workspace k (c ≫= tc_collaboration_workspace_id) n m (c ≫= λ c, tc_env c !! "agent_id"))
    (rfc3339 <$> tsi_started_at s).

Definition apply_opt {A} (f : TaskContext → A → TaskContext) (v : option A) (c : TaskContext) : TaskContext :=
  match v with Some x => f c x | None => c end.
(** The context is what the client says it is. *)
Definition payload_context (now : timestamp) (p : SubmitTaskPayload) : TaskContext :=
  let c := TaskContext_new (MkUserId (pl_user_id p)) (MkSessionId (pl_session_id p)) (pl_channel p) now in
  let c := apply_opt with_execution_workspace_id (pl_execution_workspace_id p) c in
  let c := apply_opt with_collaboration_workspace_id (pl_collaboration_workspace_id p) c in
  let c := apply_opt with_intent (pl_intent p) c in
  foldl (λ c kv, with_env c kv.1 kv.2) c (hash_order (pl_env p)).
(** [None] is a panic. *)
Definition submit_task_api (env : hub_env) (st : ApiState) (p : SubmitTaskPayload) : option (ApiState * response string) :=
  let c := payload_context (he_now env) p in
  let c := populate_task_context_runtime_metadata (key_of_session (session_id_str (tc_session_id c))) None c in
  (λ r : Hub * TaskId, (set_api_hub st r.1, (201%Z, api_success (task_id_str r.2))))
  <$> Hub_submit_task env (as_hub st) (pl_command p) c (pl_priority p) None (pl_required_tags p) (pl_workspace_hint p).
Definition api_get_task (st : ApiState) (id : string) : response TaskInfo :=
  let s := task_scheduler (as_hub st) in
  match get_task_status s (MkTaskId id) with
  | Some status => (200%Z, api_success (task_info_from_status_and_context status (get_task_context s (MkTaskId id))))
  | None => (404%Z, api_error "Task not found")
  end.
(** Always nothing. *)
Definition list_tasks (st : ApiState) : response (list TaskInfo) := (200%Z, api_success []).
End TaskApi.

(** * Theorems *)

Section TaskApiFacts.
Context `{JsonValue, HashOrder, ToLowercase, !WireJson, ChannelTypeText, FileSystem, SendErrorText, TimeText, RolesJson}.
Implicit Types (st : ApiState) (p : SubmitTaskPayload).

Lemma env_added c l :
  foldl (λ c (kv : string * string), with_env c kv.1 kv.2) c l =
  MkTaskContext (tc_user_id c) (tc_session_id c) (tc_channel c) (tc_execution_workspace_id c) (tc_collaboration_workspace_id c)
    (tc_intent c) (foldl (λ m (kv : string * string), <[kv.1 := kv.2]> m) (tc_env c) l) (tc_created_at c).
Proof. revert c. induction l as [|kv l IH]; intros c; cbn [foldl]; [by destruct c|]. by rewrite IH. Qed.
Lemma all_inserted (m m0 : gmap string string) l :
  l ≡ₚ map_to_list m → foldl (λ m (kv : string * string), <[kv.1 := kv.2]> m) m0 l = m ∪ m0.
Proof.
  intros Hl. assert (NoDup l.*1) as Hn by (rewrite Hl; apply NoDup_fst_map_to_list).
  assert (m = list_to_map l) as ->.
  { rewrite <-(list_to_map_to_list m). symmetry. by apply list_to_map_proper. }
  clear Hl. revert m0 Hn. induction l as [|[k v] l IH]; intros m0; [by rewrite list_to_map_nil, map_empty_union|]. cbn [foldl fst snd fmap list_fmap].
  intros [Hk Hn]%NoDup_cons. rewrite IH by done. simpl. rewrite <-insert_union_r, insert_union_l; [done|].
  by apply not_elem_of_list_to_map_1.
Qed.
Theorem payload_context_exact now p :
  let c := payload_context now p in
  tc_env c = pl_env p ∧ tc_user_id c = MkUserId (pl_user_id p) ∧ tc_session_id c = MkSessionId (pl_session_id p) ∧
  tc_execution_workspace_id c = pl_execution_workspace_id p ∧ tc_collaboration_workspace_id c = pl_collaboration_workspace_id p ∧
  tc_intent c = pl_intent p.
Proof.
  intros c. unfold c, payload_context. rewrite env_added. simpl.
  rewrite (all_inserted (pl_env p)) by apply hash_order_perm.
  destruct (pl_intent p), (pl_collaboration_workspace_id p), (pl_execution_workspace_id p); simpl; by rewrite map_union_empty.
Qed.

Lemma populated_lookup k c n key :
  session_namespace_from_metadata (Some k) (tc_env c) = Some n →
  key ∉ ["execution_workspace_id"; "collaboration_materialization"; "collaboration_scope_owner"; "collaboration_workspace_id"] →
  tc_env (populate_task_context_runtime_metadata (Some k) None c) !! key = write_namespace_metadata n (tc_env c) !! key.
Proof.
  intros Hn Hk. rewrite !not_elem_of_cons in Hk. destruct Hk as (K1 & K2 & K3 & K4 & _).
  unfold populate_task_context_runtime_metadata, task_context_namespace. cbn [mbind option_bind or_else]. rewrite Hn. cbn [or_else].
  assert (∀ id m, write_collaboration_metadata id (Some n) m !! key = m !! key) as W.
  { intros id m. unfold write_collaboration_metadata. by rewrite !lookup_insert_ne by done. }
  destruct (or_else _ _); simpl; rewrite ?W; destruct (tc_execution_workspace_id c); cbv iota; try done; by rewrite lookup_insert_ne by done.
Qed.

(** The user whose agents and memory a task works with is the one its client names
    in the variables it sends, whoever the session belongs to. *)
Theorem client_names_user now p k u :
  key_of_session (pl_session_id p) = Some k → pl_env p !! "namespace_user" = Some u →
  ∃ n, task_context_namespace (Some k) (populate_task_context_runtime_metadata (Some k) None (payload_context now p)) = Some n ∧
    head (visibility_chain n) = Some u.
Proof.
  intros Hk Hu. destruct (payload_context_exact now p) as (He & _).
  assert (∃ n0, session_namespace_from_metadata (Some k) (tc_env (payload_context now p)) = Some n0 ∧ ns_user n0 = u) as (n0 & Hn0 & Hu0).
  { eexists. split; [done|]. simpl. by rewrite He, Hu. }
  unfold task_context_namespace. eexists. split; [done|]. simpl.
  rewrite (populated_lookup _ _ _ _ Hn0) by set_solver.
  destruct (write_namespace_lookup n0 (tc_env (payload_context now p))) as (_ & _ & _ & _ & _ & -> & _). by rewrite Hu0.
Qed.

(** A task that was submitted is found, queued or running, under the identifier in
    the response. *)
Theorem submitted_task_found env st p :
  sched_wf (task_scheduler (as_hub st)) →
  ∃ st' id info, submit_task_api env st p = Some (st', (201%Z, api_success id)) ∧
    api_get_task st' id = (200%Z, api_success info) ∧ ti_task_id info = id.
Proof.
  intros W. unfold submit_task_api, Hub_submit_task.
  set (c := populate_task_context_runtime_metadata _ _ _).
  destruct (submit_task (task_scheduler (as_hub st)) (he_now env) (pl_command p) c (pl_priority p) None (pl_required_tags p)
    (pl_workspace_hint p)) as [s id] eqn:E.
  destruct (submit_live _ _ _ _ _ _ _ _ _ _ E (sw_dom _ W _)) as (Hp & _).
  destruct (dispatch_spec env (set_task_scheduler (as_hub st) s)) as (h' & -> & []). simpl in *.
  assert (live (task_scheduler h') id) as L by (apply di_live; by left).
  assert (∃ info, get_task_status (task_scheduler h') id = Some info ∧ tsi_task_id info = id) as (info & Hi & Hid).
  { unfold get_task_status. destruct (running_tasks (task_scheduler h') !! id) as [r|] eqn:Er; [by eexists|].
    destruct (completed_tasks (task_scheduler h') !! id); [by eexists|].
    destruct (find_pending (task_scheduler h') id) as [[[q pos] t]|] eqn:Ef; [by eexists|].
    apply find_pending_None in Ef. destruct L as [L|L]; [done|]. rewrite Er in L. by destruct L. }
  eexists _, _, _. split; [done|]. unfold api_get_task. simpl. destruct id as [i]. simpl. rewrite Hi. split; [done|].
  simpl. by rewrite Hid.
Qed.
End TaskApiFacts.
