(* ===== verification/SkillInstall.v ===== *)
(** The installation of skills ([crates/uhorse-hub/src/web/mod.rs]): who may, what
    a chat message asks for, the attachments that wait for a message, and where an
    archive goes.  Requests, archives and the processes of Python are outcomes that
    the operations are given. *)
From S2P Require Import Prelude Text ProtocolTypes Paths AgentRouting SessionRuntime Layered AgentFiles AgentCatalog Planner Config.

(** ** Texts *)

(** [strip_suffix], and [trim_end_matches] and [trim_start_matches] of one
    character: each round drops a character, so the length is enough fuel. *)
Definition strip_suffix (p s : string) : option string :=
  if bool_decide (String.length p ≤ String.length s) && bool_decide (slice_from (String.length s - String.length p) s = p)
  then Some (slice_to (String.length s - String.length p) s) else None.
Definition ends_with (p s : string) : bool := bool_decide (is_Some (strip_suffix p s)).
Fixpoint trim_end_go (fuel : nat) (p s : string) : string :=
  match fuel, strip_suffix p s with S fuel, Some s => trim_end_go fuel p s | _, _ => s end.
Definition trim_end_char (p s : string) : string := trim_end_go (String.length s) p s.
Fixpoint trim_start_go (fuel : nat) (p s : string) : string :=
  match fuel, strip_prefix p s with S fuel, Some s => trim_start_go fuel p s | _, _ => s end.
Definition trim_char (p s : string) : string := trim_end_char p (trim_start_go (String.length s) p s).
Definition starts_with (p s : string) : bool := String.prefix p s.
Definition non_blank (s : option string) : option string := s ≫= non_empty_trimmed.
(** [filter(|v| !v.trim().is_empty())]: the text itself, when it is not blank. *)
Definition unless_blank (s : option string) : option string :=
  s ≫= λ s, if bool_decide (str_trim s = "") then None else Some s.

(** ** Requests *)

Inductive SkillInstallSourceType := Skillhub | DingtalkAttachment.
Inductive SkillInstallTargetLayer := TargetGlobal | TargetUser.
Record SkillInstallRequest := MkSkillInstallRequest {
  si_source_type : SkillInstallSourceType; si_package : string; si_version : option string; si_download_url : string;
  si_target_layer : SkillInstallTargetLayer; si_target_scope : option string;
  si_attachment_download_code : option string; si_attachment_file_name : option string }.
Record SkillInstallResponse := MkSkillInstallResponse {
  sr_skill_name : string; sr_source_type : string; sr_package : string; sr_version : option string;
  sr_target_layer : string; sr_target_scope : option string }.
Record SkillInstallActor := MkSkillInstallActor {
  ia_channel : string; ia_sender_user_id : option string; ia_sender_staff_id : option string; ia_sender_corp_id : option string }.
Record SkillhubSearchEntry := MkSkillhubSearchEntry { sh_slug : string; sh_name : string; sh_version : option string }.
Inductive DingtalkSkillInstallIntent :=
| ExplicitCommand (r : SkillInstallRequest)
| NaturalLanguage (e : SkillhubSearchEntry)
| NaturalLanguageNoMatch (query : string).

(** *** Who may *)

Definition installer_matches (actor : SkillInstallActor) (i : DingTalkSkillInstaller) : bool :=
  match si_corp_id i with Some c => bool_decide (ia_sender_corp_id actor = Some c) | None => true end
  && (match si_user_id i with Some u => bool_decide (ia_sender_user_id actor = Some u) | None => false end
      || match si_staff_id i with Some s => bool_decide (ia_sender_staff_id actor = Some s) | None => false end).
Definition actor_can_install_skill (installers : list DingTalkSkillInstaller) (actor : SkillInstallActor) : bool :=
  if bool_decide (ia_channel actor = "dingtalk") then existsb (installer_matches actor) installers else true.

(** ** What a message asks for *)

Definition resolve_dingtalk_skill_install_request (text : string) : option SkillInstallRequest :=
  let trimmed := str_trim text in
  (str_trim <$> or_else (strip_prefix "安装技能" trimmed) (strip_prefix "install skill" trimmed)) ≫= λ normalized,
  match split_whitespace normalized with
  | package :: url :: rest => Some (MkSkillInstallRequest Skillhub package (head rest) url TargetGlobal None None None)
  | _ => None
  end.

Definition looks_like_dingtalk_skill_install_intent (text : string) : bool :=
  let trimmed := str_trim text in
  let lower := ascii_lower trimmed in
  if bool_decide (trimmed = "") then false
  else starts_with "安装技能" trimmed || starts_with "安装 " trimmed || str_contains "帮我安装" trimmed
       || str_contains "请帮我安装" trimmed || str_contains "请安装" trimmed || starts_with "install skill" lower
       || starts_with "install " lower || str_contains "please install" lower.

Definition normalize_dingtalk_skill_install_query (text : string) : option string :=
  let candidate := str_trim (trim_end_char "?" (trim_end_char "？" (trim_end_char "!" (trim_end_char "！"
                     (trim_end_char "。" (str_trim text)))))) in
  let candidate := str_trim (default candidate (or_else (strip_suffix "技能" candidate)
                     (or_else (strip_suffix "skill" candidate) (strip_suffix "Skill" candidate)))) in
  if bool_decide (candidate = "") then None else Some candidate.

Definition BLOCKED_FRAGMENTS : list string :=
  ["帮我"; "请帮我"; "请"; "看看"; "列出"; "已经安装"; "已安装"; "安装"; "please"; "install"; "list"; "show"; "query"].
Definition is_alphanumeric (c : Ascii.ascii) : bool :=
  let n := byte_of c in bool_decide (48 ≤ n ≤ 57) || bool_decide (65 ≤ n ≤ 90) || bool_decide (97 ≤ n ≤ 122).
(** [is_ascii_whitespace]: without the vertical tab. *)
Definition is_ascii_space (c : Ascii.ascii) : bool :=
  let n := byte_of c in bool_decide (n = 32 ∨ n = 9 ∨ n = 10 ∨ n = 12 ∨ n = 13).
(** The characters of a name: some of ASCII, and the two of the word for skill. *)
Fixpoint name_characters (fuel : nat) (s : string) : bool :=
  match fuel, s with
  | _, EmptyString => true
  | O, _ => false
  | S fuel, String c r =>
      if is_alphanumeric c || is_ascii_space c || bool_decide (c = "-"%char ∨ c = "_"%char ∨ c = "."%char)
      then name_characters fuel r
      else match or_else (strip_prefix "技" s) (strip_prefix "能" s) with Some r => name_characters fuel r | None => false end
  end.
Definition is_likely_pure_skill_name (text : string) : bool :=
  let trimmed := str_trim text in
  if bool_decide (trimmed = "") then false
  else if existsb (λ f, str_contains f trimmed || str_contains (ascii_lower f) (ascii_lower trimmed)) BLOCKED_FRAGMENTS then false
  else name_characters (String.length trimmed) trimmed.

Definition after (sep s in_text : string) : option string :=
  (λ n, slice_from (n + String.length sep) s) <$> String.index 0 sep in_text.
Definition parse_dingtalk_skill_install_search_query (text : string) : option string :=
  let trimmed := str_trim text in
  if looks_like_dingtalk_skill_install_intent trimmed then
    let rest := str_trim (default trimmed (or_else (strip_prefix "帮我" trimmed)
                  (or_else (strip_prefix "请帮我" trimmed) (strip_prefix "请" trimmed)))) in
    normalize_dingtalk_skill_install_query
      (default rest (str_trim <$> or_else (strip_prefix "安装" rest)
         (or_else (after "install" rest (ascii_lower rest)) (after "装" rest rest))))
  else if is_likely_pure_skill_name trimmed then normalize_dingtalk_skill_install_query trimmed
  else None.

(** Bytes of other characters are passed over; the flag says that a dash was the
    last to be written. *)
Fixpoint slug_from (dash : bool) (s : string) : string :=
  match s with
  | EmptyString => ""
  | String c s =>
      if is_alphanumeric c then String (ascii_to_lower c) (slug_from false s)
      else if (is_ascii_space c || bool_decide (c = "-"%char ∨ c = "_"%char)) && negb dash then String "-" (slug_from true s)
      else slug_from dash s
  end.
Definition infer_skillhub_slug_from_query (query : string) : option string :=
  let slug := trim_char "-" (slug_from false (str_trim query)) in
  if bool_decide (slug = "") then None else Some slug.

Definition DEFAULT_SKILLHUB_SEARCH_URL : string := "https://api.skillhub.tencent.com/api/skills".
Definition SKILLHUB_PRIMARY_DOWNLOAD_URL_TEMPLATE : string := "https://api.skillhub.tencent.com/api/v1/download?slug={slug}".
Definition SKILLHUB_OFFICIAL_HOSTS : list string :=
  ["skillhub-1388575217.cos.ap-guangzhou.myqcloud.com"; "api.skillhub.tencent.com"].
(** [variable] is the environment variable, if it is set. *)
Definition configured_skillhub_search_url (c : option DingTalkConfig) (variable : option string) : string :=
  default DEFAULT_SKILLHUB_SEARCH_URL (or_else (non_blank (c ≫= dt_skillhub_search_url)) (non_blank variable)).
Definition configured_skillhub_download_url_template (c : option DingTalkConfig) : string :=
  default SKILLHUB_PRIMARY_DOWNLOAD_URL_TEMPLATE (non_blank (c ≫= dt_skillhub_download_url_template)).
(** The pieces around the placeholder are joined by the slug. *)
Definition build_skillhub_download_url (c : option DingTalkConfig) (slug : string) : string :=
  str_join slug (split_text "{slug}" (configured_skillhub_download_url_template c)).
Definition is_allowed_skillhub_download_url `{UrlParser} (url : string) : bool :=
  match url_parse url with
  | Some (scheme, Some host) =>
      bool_decide (scheme = "http" ∨ scheme = "https") &&
      existsb (λ allowed, bool_decide (ascii_lower host = ascii_lower allowed)) SKILLHUB_OFFICIAL_HOSTS
  | _ => false
  end.

(** The fields of a result of a search. *)
Record SkillhubSearchItem := MkSkillhubSearchItem {
  hi_slug : string; hi_display_name : option string; hi_name : option string; hi_title : option string; hi_version : option string }.
Definition search_entry (i : SkillhubSearchItem) : SkillhubSearchEntry :=
  MkSkillhubSearchEntry (hi_slug i)
    (default (hi_slug i) (or_else (unless_blank (hi_display_name i)) (or_else (hi_title i) (hi_name i))))
    (unless_blank (hi_version i)).
(** The items of the answer, or an error. *)
Definition search_skillhub_skill (answer : Result (list SkillhubSearchItem) string) : Result (option SkillhubSearchEntry) string :=
  match answer with Ok items => Ok (search_entry <$> head items) | Err e => Err e end.

(** ** Attachments that wait *)

Record DingTalkInboundAttachment := MkInboundAttachment {
  ib_kind : string; ib_key : option string; ib_file_name : option string; ib_download_code : option string;
  ib_recognition : option string; ib_caption : option string }.
Record PendingDingTalkAttachment := MkPendingAttachment {
  pa_kind : string; pa_summary : string; pa_file_name : option string; pa_download_code : option string }.

Definition named (base empty : string) (name : option string) : string :=
  match unless_blank name with Some n => base +:+ "（" +:+ n +:+ "）" | None => empty end.
Definition pending_attachment_from_inbound_attachment (a : DingTalkInboundAttachment) : PendingDingTalkAttachment :=
  let summary :=
    if bool_decide (ib_kind a = "image") then
      let base := named "图片" "图片" (ib_file_name a) in
      match non_blank (ib_caption a) with Some c => base +:+ "：" +:+ c | None => base end
    else if bool_decide (ib_kind a = "file") then named "文件" "文件" (ib_file_name a)
    else if bool_decide (ib_kind a = "audio") then named "语音" "语音消息" (ib_file_name a)
    else ib_kind a in
  MkPendingAttachment (ib_kind a) summary (non_blank (ib_file_name a)) (non_blank (ib_download_code a)).

Definition normalize_pending_attachment_package_name (file_name : option string) : option string :=
  non_blank file_name ≫= λ name,
    let lower := ascii_lower name in
    let stem := match or_else (strip_suffix ".tar.gz" lower) (or_else (strip_suffix ".tgz" lower) (strip_suffix ".zip" lower)) with
                | Some s => slice_to (String.length s) name
                | None => name
                end in
    let stem := trim_char "-" (trim_char "_" (trim_char "." (str_trim stem))) in
    if bool_decide (stem = "") then None else Some stem.
Definition is_pending_skill_archive_attachment (a : PendingDingTalkAttachment) : bool :=
  bool_decide (pa_kind a = "file") && bool_decide (is_Some (pa_download_code a)) &&
  match pa_file_name a with
  | Some name => let lower := ascii_lower (str_trim name) in
                 ends_with ".zip" lower || ends_with ".tar.gz" lower || ends_with ".tgz" lower
  | None => false
  end.
Definition pending_attachment_matches_install_query (text : string) (a : PendingDingTalkAttachment) : bool :=
  let query := str_trim text in
  let lower := ascii_lower query in
  let package := ascii_lower (default "" (normalize_pending_attachment_package_name (pa_file_name a))) in
  let file := ascii_lower (default "" (str_trim <$> pa_file_name a)) in
  if bool_decide (query = "") then false
  else negb (bool_decide (file = "")) && bool_decide (lower = file) || negb (bool_decide (package = "")) && bool_decide (lower = package)
       || negb (bool_decide (file = "")) && str_contains file lower || negb (bool_decide (package = "")) && str_contains package lower.
Definition install_fits (text : string) (a : PendingDingTalkAttachment) : bool :=
  is_pending_skill_archive_attachment a
  && (looks_like_dingtalk_skill_install_intent text || pending_attachment_matches_install_query text a).
(** The last one that fits. *)
Definition build_pending_attachment_install_request (text : string) (attachments : list PendingDingTalkAttachment)
    : option SkillInstallRequest :=
  (λ a, MkSkillInstallRequest DingtalkAttachment
          (default "uploaded-skill" (normalize_pending_attachment_package_name (pa_file_name a))) None "" TargetGlobal None
          (pa_download_code a) (pa_file_name a))
  <$> List.find (install_fits text) (reverse attachments).
Definition build_pending_attachment_prefix (attachments : list PendingDingTalkAttachment) : option string :=
  if bool_decide (attachments = []) then None
  else Some ("用户刚刚发送了以下附件上下文：" +:+ line_feed
             +:+ str_join line_feed ((λ a, "- " +:+ pa_summary a) <$> attachments)
             +:+ line_feed +:+ line_feed +:+ "用户本条补充说明：").

(** *** The intent of a message *)

Section Intents.
Context `{UrlParser}.
(** [answer] is what the search for a query answers. *)
Definition resolve_dingtalk_skill_install_intent (answer : string → Result (list SkillhubSearchItem) string) (text : string)
    (pending : list PendingDingTalkAttachment) : Result (option DingtalkSkillInstallIntent) string :=
  match build_pending_attachment_install_request text pending with
  | Some r => Ok (Some (ExplicitCommand r))
  | None =>
      match resolve_dingtalk_skill_install_request text with
      | Some r =>
          if is_allowed_skillhub_download_url (si_download_url r) then Ok (Some (ExplicitCommand r))
          else Err "仅允许安装 SkillHub 官方下载地址。"
      | None =>
          match parse_dingtalk_skill_install_search_query text with
          | None => Ok None
          | Some query =>
              match search_skillhub_skill (answer query), infer_skillhub_slug_from_query query with
              | Ok (Some e), _ => Ok (Some (NaturalLanguage e))
              | Ok None, None => Ok (Some (NaturalLanguageNoMatch query))
              | Err e, None => Err e
              | _, Some slug => Ok (Some (NaturalLanguage (MkSkillhubSearchEntry slug query None)))
              end
          end
      end
  end.
End Intents.

(** *** An incoming message *)

(** The content of a message: a file is a structured content of that kind, of which
    the name may be known; other structured content is its JSON text. *)
Inductive InboundContent :=
| InText (text : string) | InImage (caption : option string) | InAudio | InFile (name : option string) | InStructured (json : string).
Inductive NormalizedDingTalkInbound :=
| ContinueAsText (text : string) (consumed : list PendingDingTalkAttachment)
| WaitForFollowUp (reply : string).
Definition DINGTALK_ATTACHMENT_WAITING_REPLY_TEXT : string := "已收到这条消息，请继续告诉我你希望我怎么处理。".
Definition PENDING_KEY : string := "pending_attachment_context".
Definition TRANSCRIPT_KEY : string := "last_audio_transcript".

Definition of_kind (kind : string) (l : list DingTalkInboundAttachment) : option DingTalkInboundAttachment :=
  List.find (λ a, bool_decide (ib_kind a = kind)) l.
Definition summary_of_kind (kind : string) (l : list DingTalkInboundAttachment) : option string :=
  (λ a, pa_summary (pending_attachment_from_inbound_attachment a)) <$> of_kind kind l.
Definition summarize_dingtalk_inbound_user_text (content : InboundContent) (attachments : list DingTalkInboundAttachment)
    (consumed : list PendingDingTalkAttachment) : string :=
  match content with
  | InText text =>
      let text := str_trim text in
      if bool_decide (consumed = []) then text
      else match build_pending_attachment_install_request text consumed with
           | Some r => text +:+ "（基于刚收到的附件：" +:+ si_package r +:+ "）"
           | None => text +:+ "（结合附件上下文：" +:+ str_join "，" (pa_summary <$> consumed) +:+ "）"
           end
  | InImage caption =>
      match non_blank caption with
      | Some c => "用户发送了一张图片：" +:+ c
      | None => default "用户发送了一张图片" (summary_of_kind "image" attachments)
      end
  | InAudio =>
      default "用户发送了一条语音消息"
        (or_else (of_kind "audio" attachments ≫= λ a, non_blank (ib_recognition a)) (summary_of_kind "audio" attachments))
  | InFile name =>
      default "文件" (or_else (summary_of_kind "file" attachments) ((λ n, "文件（" +:+ n +:+ "）") <$> non_blank name))
  | InStructured json => str_trim json
  end.

Class PendingJson := {
  text_of_pending : list PendingDingTalkAttachment → string;
  pending_of_text : string → option (list PendingDingTalkAttachment)
}.
Section Inbound.
Context `{HashOrder, AgentDisk, AgentTexts, RolesJson, PendingJson}.
Implicit Types (w : WebAgentRuntime) (d : Disk) (k : SessionKey).

Definition read_pending_dingtalk_attachments (m : Metadata) : list PendingDingTalkAttachment :=
  default [] (m !! PENDING_KEY ≫= pending_of_text).
(** A change of the metadata of the session's state, saved when there is one. *)
Definition update_metadata (now : timestamp) w d k (agent : string) (f : Metadata → option Metadata) : Disk :=
  match load_or_init_session_state_for_update now w d k agent with
  | None => d
  | Some (scope, s, _) =>
      match f (ss_metadata s) with
      | Some m => (save_session_state scope d (SessionKey_as_str k) (set_state_metadata m s)).1
      | None => d
      end
  end.
Definition append_pending_dingtalk_attachments (now : timestamp) w d k (agent : string)
    (l : list PendingDingTalkAttachment) : Disk :=
  if bool_decide (l = []) then d
  else update_metadata now w d k agent
         (λ m, Some (<[PENDING_KEY := text_of_pending (read_pending_dingtalk_attachments m ++ l)]> m)).
Definition set_last_audio_transcript (now : timestamp) w d k (agent transcript : string) : Disk :=
  if bool_decide (str_trim transcript = "") then d
  else update_metadata now w d k agent (λ m, Some (<[TRANSCRIPT_KEY := str_trim transcript]> m)).
Definition clear_pending_dingtalk_attachments (now : timestamp) w d k (agent : string) : Disk :=
  update_metadata now w d k agent (λ m, if bool_decide (is_Some (m !! PENDING_KEY)) then Some (delete PENDING_KEY m) else None).

(** [speech] is the outcome of fetching the sound and having it transcribed. *)
Definition normalize_dingtalk_inbound_message (now : timestamp) w d k (content : InboundContent)
    (attachments : list DingTalkInboundAttachment) (speech : Result string string) : Disk * Result NormalizedDingTalkInbound string :=
  let agent := resolve_agent_id_for_session w d k in
  let pending := default [] ((λ s, read_pending_dingtalk_attachments (ss_metadata s)) <$> load_session_state_for_session w d k) in
  let base : Disk * Result (option string) string :=
    match content with
    | InText text => (d, Ok (Some (str_trim text)))
    | InAudio =>
        match of_kind "audio" attachments ≫= λ a, non_blank (ib_recognition a) with
        | Some t => (set_last_audio_transcript now w d k agent t, Ok (Some t))
        | None =>
            match speech with
            | Ok t => (set_last_audio_transcript now w d k agent (str_trim t), Ok (Some (str_trim t)))
            | Err e => (d, Err e)
            end
        end
    | InImage caption => (d, Ok ((λ c, "用户发送了一张图片：" +:+ c) <$> non_blank caption))
    | InFile _ => (d, Ok None)
    | InStructured json => (d, Ok (Some (str_trim json)))
    end in
  match base with
  | (d, Err e) => (d, Err e)
  | (d, Ok text) =>
      match non_blank text with
      | None =>
          (append_pending_dingtalk_attachments now w d k agent (pending_attachment_from_inbound_attachment <$> attachments),
           Ok (WaitForFollowUp DINGTALK_ATTACHMENT_WAITING_REPLY_TEXT))
      | Some text =>
          let request := build_pending_attachment_install_request text pending in
          let d := if bool_decide (pending = []) then d else clear_pending_dingtalk_attachments now w d k agent in
          let merged :=
            match request with
            | Some r => "帮我安装这个技能" +:+ line_feed +:+ line_feed +:+ "附件技能包："
                        +:+ default (si_package r) (si_attachment_file_name r)
            | None => match build_pending_attachment_prefix pending with
                      | Some prefix => prefix +:+ line_feed +:+ text
                      | None => text
                      end
            end in
          (d, Ok (ContinueAsText merged pending))
      end
  end.
End Inbound.

(** ** Archives *)

(** What was fetched: the entries of an archive with the names that stay inside
    the directory it is unpacked in ([None] for the others) and their bytes ([None]
    for a directory), or something else.  A zip archive is unpacked with links as
    plain files, as the code does; the tar archives here are those without links (the
    code unpacks links of a tar archive as links, and would later write through one
    that is named as the configuration of the skill). *)
Inductive SkillArchive :=
| ZipFile (entries : list (option path * option string))
| TarGz (entries : list (path * string))
| OtherBytes.
Definition remove_dir (p : path) (d : Disk) : Disk := filter (λ kv, ¬ p `prefix_of` kv.1) d.
Definition exists_below (p : path) (d : Disk) : bool := bool_decide (filter (λ kv, p `prefix_of` kv.1) d ≠ ∅).
(** The files below a directory, under another. *)
Definition moved_files (a b : path) (d : Disk) : Disk :=
  list_to_map ((λ kv, (b ++ drop (length a) kv.1, kv.2)) <$> map_to_list (filter (λ kv, a `prefix_of` kv.1) d)).
Definition move_dir (a b : path) (d : Disk) : Disk := moved_files a b d ∪ remove_dir a d.

(** The names of the directories right below that have a [SKILL.md]. *)
Definition skill_dir_name (root p : path) : option string :=
  match path_strip_prefix root p with
  | Some [CNormal n; CNormal f] => if bool_decide (f = "SKILL.md") then Some n else None
  | _ => None
  end.
Definition collect_skill_dir (d : Disk) (root : path) : Result string string :=
  match omap (λ kv, skill_dir_name root kv.1) (map_to_list d) with
  | [n] => Ok n
  | _ => Err "Skill 安装包必须且只能包含一个 Skill 目录"
  end.
(** An entry of a directory cannot be moved onto a directory with files, nor a
    directory onto a file. *)
Definition rename_blocked (a b : path) (d : Disk) : bool :=
  existsb (λ kv : path * string,
    match path_strip_prefix a kv.1 with
    | Some (e :: rest) =>
        existsb (λ other : path * string, bool_decide (b ++ [e] `prefix_of` other.1 ∧ other.1 ≠ b ++ [e])) (map_to_list d)
        || disk_exists d (b ++ [e]) && negb (bool_decide (rest = []))
    | _ => false
    end) (map_to_list d).
Definition extract_zip (root : path) (entries : list (option path * option string)) (d : Disk) : Disk :=
  foldl (λ d e, match e with (Some p, Some bytes) => <[path_join root p := bytes]> d | _ => d end) d entries.
(** [rename_error] is the text of a move that is blocked; the entries moved before
    it are those the directory lists first, here none. *)
Definition unpack_skill_archive (rename_error : string) (archive : SkillArchive) (destination : path) (package : string) (d : Disk)
    : Disk * Result string string :=
  match archive with
  | OtherBytes => (d, Err "Skill 安装包格式非法：既不是 zip，也不是 tar.gz")
  | TarGz entries =>
      let d := foldl (λ d e, <[path_join destination e.1 := e.2]> d) d entries in
      (d, collect_skill_dir d destination)
  | ZipFile entries =>
      let root := in_dir destination package in
      let d := extract_zip root entries d in
      if disk_exists d (in_dir root "SKILL.md") then (d, Ok package)
      else
        match collect_skill_dir d root with
        | Err e => (d, Err e)
        | Ok nested =>
            let from := root ++ [CNormal nested] in
            if bool_decide (nested = package) then
              if rename_blocked from root d then (d, Err rename_error)
              else (move_dir from root d, Ok package)
            else
              let final := destination ++ [CNormal nested] in
              (remove_dir root (move_dir from final (remove_dir final d)), Ok nested)
        end
  end.

(** ** Installing *)

Definition resolve_skill_install_target_dir (root : path) (layer : SkillInstallTargetLayer) (scope : option string)
    : Result path string :=
  match layer with
  | TargetGlobal => match scope with Some _ => Err "global 安装不允许传 target_scope" | None => Ok (in_dir root "skills") end
  | TargetUser =>
      match unless_blank scope with
      | Some s => Ok (in_dir (in_dir (in_dir root "users") s) "skills")
      | None => Err "user 安装必须提供 target_scope"
      end
  end.
Definition source_label (t : SkillInstallSourceType) : string :=
  match t with Skillhub => "skillhub" | DingtalkAttachment => "dingtalk_attachment" end.
Definition layer_label (l : SkillInstallTargetLayer) : string := match l with TargetGlobal => "global" | TargetUser => "user" end.

(** A configuration is written for a Python skill that has none. *)
Definition toml_line (key value : string) : string := key +:+ " = " +:+ value +:+ line_feed.
Definition back_slash : string := String "092" "".
Definition generated_skill_toml (executable entry : string) : string :=
  toml_line "enabled" "true" +:+ toml_line "timeout" "30"
    +:+ toml_line "executable" (in_quotes (str_join (back_slash +:+ back_slash) (str_split "092" executable)))
    +:+ toml_line "args" ("[" +:+ in_quotes entry +:+ "]").
Definition ensure_generated_skill_toml_if_missing (d : Disk) (dir : path) : Disk :=
  let there name := disk_exists d (in_dir dir name) in
  if there "skill.toml" || negb (there "skill.yaml") then d
  else
    let entry := if there "src/main.py" then Some "src/main.py" else if there "main.py" then Some "main.py" else None in
    match entry with
    | None => d
    | Some e =>
        let python := in_dir dir ".venv/bin/python3" in
        <[in_dir dir "skill.toml" :=
            generated_skill_toml (if disk_exists d python then path_to_string python else "python3") e]> d
    end.

(** What comes from outside: the archive, the directory for temporary files, what
    installing the requirements of the skill in a directory does and answers, and
    what reading the skills anew answers. *)
Record install_world := MkInstallWorld {
  iw_fetch : SkillInstallRequest → Result SkillArchive string;
  iw_temp : path;
  iw_rename_error : string;
  iw_python : path → Disk → Disk * Result unit string;
  iw_refresh : Disk → Result nat string
}.
Definition install_archive (iw : install_world) (target : path) (archive : SkillArchive) (d : Disk) (r : SkillInstallRequest)
    : Disk * Result SkillInstallResponse string :=
  match unpack_skill_archive (iw_rename_error iw) archive (iw_temp iw) (si_package r) d with
  | (d, Err e) => (d, Err e)
  | (d, Ok name) =>
      let destination := in_dir target name in
      if exists_below destination d then (d, Err ("Skill " +:+ name +:+ " 已存在，暂不支持覆盖安装"))
      else
        let d := move_dir (in_dir (iw_temp iw) name) destination d in
        match (if disk_exists d (in_dir destination "requirements.txt") then iw_python iw destination d else (d, Ok tt)) with
        | (d, Err e) => (d, Err e)
        | (d, Ok _) =>
            let d := ensure_generated_skill_toml_if_missing d destination in
            match iw_refresh iw d with
            | Err e => (d, Err e)
            | Ok _ => (d, Ok (MkSkillInstallResponse name (source_label (si_source_type r)) (si_package r) (si_version r)
                                (layer_label (si_target_layer r)) (si_target_scope r)))
            end
        end
  end.
(** The temporary directory is removed at the end. *)
Definition install_skill_from_request (iw : install_world) (installers : list DingTalkSkillInstaller) (root : path) (d : Disk)
    (actor : SkillInstallActor) (r : SkillInstallRequest) : Disk * Result SkillInstallResponse string :=
  if negb (actor_can_install_skill installers actor) then (d, Err "当前账号没有安装 Skill 的权限。")
  else
    match resolve_skill_install_target_dir root (si_target_layer r) (si_target_scope r) with
    | Err e => (d, Err e)
    | Ok target =>
        match iw_fetch iw r with
        | Err e => (d, Err e)
        | Ok archive =>
            let '(d, answer) := install_archive iw target archive d r in (remove_dir (iw_temp iw) d, answer)
        end
    end.
(** The endpoint: the actor is the HTTP interface itself. *)
Definition install_runtime_skill (iw : install_world) (installers : list DingTalkSkillInstaller) (root : path) (d : Disk)
    (r : SkillInstallRequest) : Disk * (Z * Result SkillInstallResponse string) :=
  match install_skill_from_request iw installers root d (MkSkillInstallActor "http_api" None None None) r with
  | (d, Ok a) => (d, (201%Z, Ok a))
  | (d, Err e) => (d, (400%Z, Err e))
  end.

(** *** What the chat is told *)

Definition build_skill_install_dir (root : path) (r : SkillInstallResponse) : path :=
  if bool_decide (sr_target_layer r = "user") then
    in_dir (in_dir (in_dir (in_dir root "users") (default "" (sr_target_scope r))) "skills") (sr_skill_name r)
  else in_dir (in_dir root "skills") (sr_skill_name r).
(** The pieces around the first two marks. *)
Definition front_and_body (text : string) : option (string * option string) :=
  (λ x : string * string, match split_once "---" x.2 with Some (f, b) => (f, Some b) | None => (x.2, None) end) <$> split_once "---" text.
Definition first_some {A B} (f : A → option B) (l : list A) : option B := head (omap f l).
Definition extract_skill_manifest_description (text : string) : option string :=
  front_and_body text ≫= λ x,
    first_some (λ line, strip_prefix "description:" (str_trim line)) (str_lines (str_trim x.1)) ≫= λ value,
      let v := trim_end_char "。" (trim_char "'" (trim_char dquote (str_trim value))) in
      if bool_decide (v = "") then None else Some v.
Definition usage_line (line : string) : option string :=
  let t := str_trim line in
  if bool_decide (t = "") || starts_with "#" t || starts_with "```" t then None
  else if starts_with "-" t || starts_with "*" t then
    let bullet := str_trim (slice_from 1 t) in
    if bool_decide (bullet = "") then None else Some (trim_end_char "。" bullet)
  else Some (trim_end_char "。" t).
Definition extract_skill_usage_hint (text : string) : option string :=
  front_and_body text ≫= λ x, x.2 ≫= λ body, first_some usage_line (str_lines (str_trim body)).
Definition build_skill_install_example_in_chinese (name description : string) (usage : option string) : string :=
  let texts := ascii_lower <$> [name; description; default "" usage] in
  if existsb (λ w, existsb (str_contains w) texts) ["browser"; "web"; "网页"; "表单"; "截图"; "自动化"]
  then "请打开目标网页，帮我完成点击、输入或截图，并把结果发给我"
  else "请使用 " +:+ name +:+ " 帮我处理这个任务".
(** [summary] is what a language model makes of the text, if it is of use. *)
Definition build_skill_install_trigger_hint (name : string) (manifest_description skill_md : option string)
    (summary : string → option (string * string)) : string :=
  let description := default "帮助你完成特定任务" (or_else (skill_md ≫= extract_skill_manifest_description) manifest_description) in
  let usage := skill_md ≫= extract_skill_usage_hint in
  let '(zh, example) := default (description, build_skill_install_example_in_chinese name description usage) (skill_md ≫= summary) in
  "这个 Skill 主要用于：" +:+ zh +:+ "。你现在可以直接用自然语言描述需求，例如：" +:+ example +:+ "。".
(** The names and the descriptions. *)
Definition build_installed_skills_reply (skills : list (string * string)) : string :=
  if bool_decide (skills = []) then "当前还没有安装任何 Skill。"
  else "当前已安装 " +:+ display_u (zlen skills) +:+ " 个 Skill：" +:+ line_feed
       +:+ str_join line_feed ((λ s : string * string, "- " +:+ s.1 +:+ "：" +:+ s.2) <$> skills).

(** * Theorems *)

(** ** Who may, and from where *)

(** In the chat only a configured installer may install, and with none configured
    nobody; any other channel may always. *)
Theorem installers_exact installers actor :
  actor_can_install_skill installers actor = true ↔
  ia_channel actor ≠ "dingtalk" ∨
  ∃ i, i ∈ installers ∧ (∀ c, si_corp_id i = Some c → ia_sender_corp_id actor = Some c) ∧
    ((∃ u, si_user_id i = Some u ∧ ia_sender_user_id actor = Some u) ∨
     (∃ s, si_staff_id i = Some s ∧ ia_sender_staff_id actor = Some s)).
Proof.
  unfold actor_can_install_skill. case_bool_decide as Hc; [|naive_solver].
  assert (∀ i, installer_matches actor i = true ↔
    (∀ c, si_corp_id i = Some c → ia_sender_corp_id actor = Some c) ∧
    ((∃ u, si_user_id i = Some u ∧ ia_sender_user_id actor = Some u) ∨
     (∃ s, si_staff_id i = Some s ∧ ia_sender_staff_id actor = Some s))) as M.
  { intros i. unfold installer_matches. rewrite andb_true_iff, orb_true_iff.
    destruct (si_corp_id i), (si_user_id i), (si_staff_id i); rewrite ?bool_decide_eq_true; naive_solver. }
  rewrite existsb_exists. setoid_rewrite M. setoid_rewrite <-list_elem_of_In. naive_solver.
Qed.

(** Over HTTP the installation asks for no right and looks at no address: whatever
    can be fetched is unpacked into the directory of the skills. *)
Theorem http_install_unrestricted iw installers root d r target archive :
  resolve_skill_install_target_dir root (si_target_layer r) (si_target_scope r) = Ok target →
  iw_fetch iw r = Ok archive →
  (install_runtime_skill iw installers root d r).2.2 = (install_archive iw target archive d r).2.
Proof.
  intros Ht Hf. unfold install_runtime_skill, install_skill_from_request. simpl. rewrite Ht, Hf.
  by destruct (install_archive iw target archive d r) as [d' [a|e]].
Qed.

(** A command of the chat is only followed to the hosts of the skill hub. *)
Theorem commands_stay_official `{UrlParser} answer text r :
  resolve_dingtalk_skill_install_intent answer text [] = Ok (Some (ExplicitCommand r)) →
  is_allowed_skillhub_download_url (si_download_url r) = true ∧ si_target_layer r = TargetGlobal.
Proof.
  unfold resolve_dingtalk_skill_install_intent. simpl.
  destruct (resolve_dingtalk_skill_install_request text) as [q|] eqn:Eq.
  - destruct (is_allowed_skillhub_download_url (si_download_url q)) eqn:Ea; [|done]. intros [= <-]. split; [done|].
    unfold resolve_dingtalk_skill_install_request in Eq. destruct (or_else _ _); simpl in Eq; [|done].
    destruct (split_whitespace _) as [|? [|]]; simplify_eq. done.
  - destruct (parse_dingtalk_skill_install_search_query text) as [query|]; [|done].
    destruct (search_skillhub_skill (answer query)) as [[e|]|e], (infer_skillhub_slug_from_query query); done.
Qed.

(** An archive that waits is installed by any message in which its name occurs, be
    it a single letter. *)
Theorem any_mention_installs :
  let waiting := MkPendingAttachment "file" "" (Some "a.zip") (Some "code") in
  looks_like_dingtalk_skill_install_intent "what is this?" = false ∧
  si_package <$> build_pending_attachment_install_request "what is this?" [waiting] = Some "a".
Proof. by vm_compute. Qed.

Lemma find_first {A} (f : A → bool) l a :
  List.find f l = Some a → ∃ l1 l2, l = l1 ++ a :: l2 ∧ f a = true ∧ Forall (λ b, f b = false) l1.
Proof.
  revert a. induction l as [|x l IH]; intros a; cbn [List.find]; [done|].
  destruct (f x) eqn:E; [intros [= <-]; by exists [], l|].
  intros (l1 & l2 & -> & ? & ?)%IH. exists (x :: l1), l2. split; [done|]. split; [done|]. by constructor.
Qed.

(** An archive is asked for exactly when one waits that the message fits, and then
    the last of them. *)
Theorem install_request_exact text attachments r :
  build_pending_attachment_install_request text attachments = Some r →
  ∃ before a later, attachments = before ++ a :: later ∧ is_pending_skill_archive_attachment a = true ∧
    si_attachment_download_code r = pa_download_code a ∧
    Forall (λ b, is_pending_skill_archive_attachment b = true →
      looks_like_dingtalk_skill_install_intent text = false ∧ pending_attachment_matches_install_query text b = false) later.
Proof.
  unfold build_pending_attachment_install_request.
  destruct (List.find (install_fits text) (reverse attachments)) as [a|] eqn:E; [|done]. intros [= <-].
  apply find_first in E as (l1 & l2 & El & Ha & Hl). exists (reverse l2), a, (reverse l1). split_and!.
  - rewrite <-(reverse_involutive attachments), El, reverse_app, reverse_cons, <-app_assoc. done.
  - unfold install_fits in Ha. by apply andb_prop in Ha as [? _].
  - done.
  - apply Forall_reverse. eapply Forall_impl; [exact Hl|]. intros b Hb Hp. unfold install_fits in Hb. rewrite Hp in Hb. simpl in Hb.
    by apply orb_false_iff in Hb.
Qed.

(** ** Where the files go *)

Lemma path_join_relative p q : is_absolute q = false → path_join p q = p ++ q.
Proof. intros Hq. unfold path_join, path_push. by rewrite Hq. Qed.

Lemma in_dir_absolute dir name : is_absolute (path_of_string name) = true → in_dir dir name = path_of_string name.
Proof. intros Ha. unfold in_dir, path_join, path_push. by rewrite Ha. Qed.

Lemma exists_below_intro p q d : p `prefix_of` q → is_Some (d !! q) → exists_below p d = true.
Proof.
  intros Hp [x Hx]. apply bool_decide_eq_true. intros Hn.
  assert (filter (λ kv : path * string, p `prefix_of` kv.1) d !! q = Some x) as E by (by apply map_lookup_filter_Some).
  by rewrite Hn, lookup_empty in E.
Qed.

(** A package that is an absolute path is unpacked there, beside the temporary
    directory and beside the skills; the request is then refused, since what it
    just unpacked is already there. *)
Theorem absolute_package_escapes iw target entries d r :
  let root := path_of_string (si_package r) in
  is_absolute root = true →
  disk_exists (extract_zip root entries d) (in_dir root "SKILL.md") = true →
  install_archive iw target (ZipFile entries) d r =
  (extract_zip root entries d, Err ("Skill " +:+ si_package r +:+ " 已存在，暂不支持覆盖安装")).
Proof.
  cbv zeta. intros Ha He. unfold install_archive, unpack_skill_archive. rewrite !in_dir_absolute, He, in_dir_absolute by done.
  rewrite (exists_below_intro _ (in_dir (path_of_string (si_package r)) "SKILL.md")); [done| |by apply bool_decide_eq_true in He].
  rewrite in_dir_plain by (by vm_compute). by apply prefix_app_r.
Qed.

Example absolute_package_escapes_witness :
  let entries := [(Some [CNormal "SKILL.md"], Some "text"); (Some [CNormal "job"], Some "* * * * * root run")] in
  let r := MkSkillInstallRequest Skillhub "/etc/cron.d" None "https://a/b.zip" TargetGlobal None None None in
  let iw := MkInstallWorld (λ _, Ok (ZipFile entries)) [RootDir; CNormal "tmp"] "" (λ _ d, (d, Ok tt)) (λ _, Ok 0) in
  (install_archive iw [RootDir; CNormal "skills"] (ZipFile entries) ∅ r).1 !! [RootDir; CNormal "etc"; CNormal "cron.d"; CNormal "job"]
  = Some "* * * * * root run".
Proof. cbv zeta. rewrite absolute_package_escapes; by vm_compute. Defined.

(** *** An ordinary package stays where it belongs *)

Definition plain_component (c : component) : Prop := match c with CNormal n => plain_name n | _ => True end.
Definition plain_path (p : path) : Prop := Forall plain_component p.
Definition plain_disk (d : Disk) : Prop := ∀ p, is_Some (d !! p) → plain_path p.
(** The files that an archive names are relative, of plain components. *)
Definition plain_entry (p : path) : Prop := is_absolute p = false ∧ plain_path p.
Definition plain_archive (a : SkillArchive) : Prop :=
  match a with
  | ZipFile l => Forall (λ e : option path * option string, ∀ p, e.1 = Some p → plain_entry p) l
  | TarGz l => Forall (λ e : path * string, plain_entry e.1) l
  | OtherBytes => True
  end.
#[export] Instance plain_name_dec n : Decision (plain_name n).
Proof. unfold plain_name. apply _. Defined.
#[export] Instance plain_component_dec c : Decision (plain_component c).
Proof. destruct c; simpl; apply _. Defined.
#[export] Instance plain_path_dec p : Decision (plain_path p).
Proof. unfold plain_path. apply _. Defined.
#[export] Instance plain_entry_dec p : Decision (plain_entry p).
Proof. unfold plain_entry. apply _. Defined.
Ltac decide_plain := apply (bool_decide_unpack _); by vm_compute.
(** Two disks that agree but below a directory. *)
Definition same_outside (a : path) (d d' : Disk) : Prop := ∀ p, ¬ a `prefix_of` p → d' !! p = d !! p.

#[export] Instance same_outside_preorder a : PreOrder (same_outside a).
Proof. split; [by intros d p|]. intros d1 d2 d3 H1 H2 p Hp. by rewrite (H2 p Hp), (H1 p Hp). Qed.
Lemma same_outside_weaken a b d d' : a `prefix_of` b → same_outside b d d' → same_outside a d d'.
Proof. intros Hab Hd p Hp. apply Hd. intros Hb. apply Hp. by transitivity b. Qed.

Lemma remove_dir_outside a d : same_outside a d (remove_dir a d).
Proof.
  intros p Hp. unfold remove_dir. destruct (d !! p) as [x|] eqn:E.
  - by apply map_lookup_filter_Some.
  - apply map_lookup_filter_None. by left.
Qed.
Lemma moved_files_below a b d p : is_Some (moved_files a b d !! p) → b `prefix_of` p.
Proof.
  intros [x Hx]. apply elem_of_list_to_map_2, list_elem_of_fmap in Hx as ([q y] & [= -> _] & _). by apply prefix_app_r.
Qed.
Lemma lookup_moved_other a b d p : ¬ a `prefix_of` p → ¬ b `prefix_of` p → move_dir a b d !! p = d !! p.
Proof.
  intros Ha Hb. unfold move_dir. rewrite lookup_union_r; [by apply remove_dir_outside|].
  by apply eq_None_not_Some; intros Hs%moved_files_below.
Qed.
Lemma move_dir_outside a b c d : c `prefix_of` a → c `prefix_of` b → same_outside c d (move_dir a b d).
Proof.
  intros Ha Hb p Hp. unfold move_dir. rewrite lookup_union_r.
  - apply remove_dir_outside. intros Hap. apply Hp. by transitivity a.
  - apply eq_None_not_Some. intros Hs%moved_files_below. apply Hp. by transitivity b.
Qed.
Lemma write_below root p bytes d : is_absolute p = false → same_outside root d (<[path_join root p := bytes]> d).
Proof.
  intros Hr q Hq. apply lookup_insert_ne. intros <-. apply Hq. rewrite path_join_relative by done. by apply prefix_app_r.
Qed.
Lemma write_plain root p bytes d : plain_path root → plain_entry p → plain_disk d → plain_disk (<[path_join root p := bytes]> d).
Proof.
  intros Hroot [Hr Hp] Hd q. rewrite path_join_relative by done. intros Hq.
  destruct (decide (q = root ++ p)) as [->|Hn]; [by apply Forall_app|]. apply Hd. by rewrite lookup_insert_ne in Hq.
Qed.
Lemma foldl_kept {S E} (P : S → Prop) (Q : E → Prop) f (l : list E) s :
  (∀ s e, Q e → P s → P (f s e)) → Forall Q l → P s → P (foldl f s l).
Proof. intros Hf Hl. revert s. induction Hl; simpl; intros s Hs; [done|]. auto. Qed.

Definition unpacked_in (root : path) (d d' : Disk) : Prop := same_outside root d d' ∧ plain_disk d'.
Lemma write_unpacked root p bytes d d' :
  plain_path root → plain_entry p → unpacked_in root d d' → unpacked_in root d (<[path_join root p := bytes]> d').
Proof. intros Hroot Hp [Ho Hd]. split; [by etrans; [|apply write_below, Hp]|by apply write_plain]. Qed.
Lemma extract_zip_unpacked root entries d :
  plain_path root → plain_archive (ZipFile entries) → plain_disk d → unpacked_in root d (extract_zip root entries d).
Proof.
  intros Hroot He Hd. unfold extract_zip. eapply foldl_kept; [|exact He|done].
  intros d' [[p|] [bytes|]]; simpl; [|done..]. intros Hp. apply write_unpacked; [done|]. by apply Hp.
Qed.
Lemma untar_unpacked root entries d :
  plain_path root → plain_archive (TarGz entries) → plain_disk d →
  unpacked_in root d (foldl (λ d e, <[path_join root e.1 := e.2]> d) d entries).
Proof. intros Hroot He Hd. eapply foldl_kept; [|exact He|done]. intros d' e. by apply write_unpacked. Qed.

Lemma collect_plain d root n : plain_disk d → collect_skill_dir d root = Ok n → plain_name n.
Proof.
  intros Hd. unfold collect_skill_dir. destruct (omap _ _) as [|m [|]] eqn:E; [done| |done]. intros [= ->].
  assert (n ∈ omap (λ kv : path * string, skill_dir_name root kv.1) (map_to_list d)) as Hn by (rewrite E; by left).
  apply list_elem_of_omap in Hn as ([p x] & Hp%elem_of_map_to_list & Hs). simpl in Hs. unfold skill_dir_name in Hs.
  destruct (path_strip_prefix root p) as [rest|] eqn:Er; [|done]. apply path_strip_prefix_Some in Er as ->.
  destruct rest as [|[| | |m] [|[| | |f] [|]]]; try done. case_bool_decide; [|done]. injection Hs as ->.
  specialize (Hd _ ltac:(by eexists)). by apply Forall_app in Hd as [_ [Hm _]%Forall_cons].
Qed.

(** Unpacking touches only the temporary directory, and names a directory of it. *)
Lemma unpack_confined e archive temp package d d' answer :
  plain_name package → plain_path temp → plain_archive archive → plain_disk d →
  unpack_skill_archive e archive temp package d = (d', answer) →
  same_outside temp d d' ∧ match answer with Ok n => plain_name n | Err _ => True end.
Proof.
  intros Hpkg Ht Ha Hd. unfold unpack_skill_archive. destruct archive as [entries|entries|]; [| |by intros [= <- <-]].
  - rewrite in_dir_plain by done. set (root := temp ++ [CNormal package]).
    destruct (extract_zip_unpacked root entries d) as [Ho Hp]; [by apply Forall_app; split; [|apply Forall_singleton]|done|done|].
    assert (temp `prefix_of` root) as Hr by by apply prefix_app_r.
    apply (same_outside_weaken temp) in Ho; [|done]. set (d1 := extract_zip root entries d) in *.
    case_match; [by intros [= <- <-]|]. destruct (collect_skill_dir d1 root) as [n|] eqn:Ec; [|by intros [= <- <-]].
    apply collect_plain in Ec; [|done]. assert (temp `prefix_of` root ++ [CNormal n]) as Hn by by apply prefix_app_r.
    case_bool_decide.
    + case_match; intros [= <- <-]; (split; [|done]); [done|]. etrans; [exact Ho|]. by apply move_dir_outside.
    + intros [= <- <-]. split; [|done]. assert (temp `prefix_of` temp ++ [CNormal n]) as Hf by by apply prefix_app_r.
      etrans; [exact Ho|]. etrans; [eapply same_outside_weaken, remove_dir_outside; exact Hf|].
      etrans; [by apply (move_dir_outside (root ++ [CNormal n]) (temp ++ [CNormal n]))|].
      eapply same_outside_weaken, remove_dir_outside. done.
  - intros [= <- <-]. destruct (untar_unpacked temp entries d) as [Ho Hp]; [done..|]. split; [done|].
    destruct (collect_skill_dir _ temp) eqn:Ec; [|done]. by eapply collect_plain.
Qed.

Lemma exists_below_false a d p : exists_below a d = false → a `prefix_of` p → d !! p = None.
Proof.
  intros E Hp. apply eq_None_not_Some. intros Hs. by rewrite (exists_below_intro a p d) in E.
Qed.
Lemma generated_toml_below d dir : same_outside dir d (ensure_generated_skill_toml_if_missing d dir).
Proof.
  unfold ensure_generated_skill_toml_if_missing. case_match; [done|]. case_match; [|done].
  intros p Hp. apply lookup_insert_ne. intros <-. apply Hp. rewrite in_dir_plain by (by vm_compute). by apply prefix_app_r.
Qed.

(** C28. A zip archive of relative, ordinary names that is installed under an ordinary
    name changes nothing but the temporary directory and one directory of the skills,
    which was not there before: whatever was installed stays.  So it is up to the
    installation of Python requirements, which takes place only for a skill with a
    [requirements.txt] and may do anything; what the program itself does after that
    again changes the directory of the skill only. *)
Theorem install_confined iw target entries d r d' answer :
  plain_name (si_package r) → plain_path (iw_temp iw) → plain_archive (ZipFile entries) → plain_disk d →
  install_archive iw target (ZipFile entries) d r = (d', answer) →
  ∃ name d2, plain_name name ∧
    (∀ p, ¬ iw_temp iw `prefix_of` p → ¬ target ++ [CNormal name] `prefix_of` p → d2 !! p = d !! p) ∧
    (same_outside (target ++ [CNormal name]) d2 d' ∨
     disk_exists d2 (target ++ [CNormal name] ++ [CNormal "requirements.txt"]) = true ∧
     same_outside (target ++ [CNormal name]) (iw_python iw (target ++ [CNormal name]) d2).1 d') ∧
    (∀ a, answer = Ok a → sr_skill_name a = name ∧
       (¬ iw_temp iw `prefix_of` target ++ [CNormal name] → ¬ target ++ [CNormal name] `prefix_of` iw_temp iw →
        ∀ p, target ++ [CNormal name] `prefix_of` p → d !! p = None)).
Proof.
  intros Hpkg Ht Ha Hd. unfold install_archive.
  destruct (unpack_skill_archive _ (ZipFile entries) _ _ d) as [d1 [n|e]] eqn:Eu.
  all: apply unpack_confined in Eu as [Ho Hn]; [|done..].
  2: { intros [= <- <-]. exists (si_package r), d1. split_and!; [done|by intros p Hp _; apply Ho|by left|done]. }
  rewrite !in_dir_plain by done. set (dest := target ++ [CNormal n]).
  destruct (exists_below dest d1) eqn:Eb.
  { intros [= <- <-]. exists n, d1. split_and!; [done|by intros p Hp _; apply Ho|by left|done]. }
  set (d2 := move_dir _ dest d1).
  assert (∀ p, ¬ iw_temp iw `prefix_of` p → ¬ dest `prefix_of` p → d2 !! p = d !! p) as Hsame.
  { intros p Hp Hq. rewrite <-(Ho p Hp). apply lookup_moved_other; [|done].
    intros Hx. apply Hp. etrans; [|exact Hx]. by apply prefix_app_r. }
  assert (¬ iw_temp iw `prefix_of` dest → ¬ dest `prefix_of` iw_temp iw → ∀ p, dest `prefix_of` p → d !! p = None) as Hfresh.
  { intros Hx Hy p Hp. rewrite <-(Ho p). { eapply exists_below_false; [exact Eb|done]. }
    intros Hq. by destruct (prefix_weak_total _ _ _ Hq Hp). }
  rewrite ?(in_dir_plain dest "requirements.txt") by (by vm_compute).
  assert (dest ++ [CNormal "requirements.txt"] = target ++ [CNormal n] ++ [CNormal "requirements.txt"]) as ->
    by (unfold dest; by rewrite <-app_assoc).
  set (req := disk_exists d2 _) in *.
  set (step := if req then _ else _).
  assert (∀ d3, same_outside dest step.1 d3 → same_outside dest d2 d3 ∨ req = true ∧ same_outside dest (iw_python iw dest d2).1 d3)
    as Hstep by (unfold step; destruct req; [by right|by left]).
  destruct step as [d3 [[]|e]]; simpl in *; [case_match|]; intros [= <- <-]; exists n, d2; (split; [done|]);
    (split; [exact Hsame|]); (split; [apply Hstep; first [apply generated_toml_below|reflexivity]|by intros ? [= <-]]).
Qed.

Definition example_entries : list (option path * option string) :=
  [(Some [CNormal "SKILL.md"], Some "text"); (Some [CNormal "requirements.txt"], Some "requests");
   (Some [CNormal "src"; CNormal "main.py"], Some "code")].
Definition example_archive : SkillArchive := ZipFile example_entries.
Definition example_world : install_world :=
  MkInstallWorld (λ _, Ok example_archive) [RootDir; CNormal "tmp"] ""
    (λ dir d, (<[dir ++ [CNormal ".venv"] := "packages"]> d, Ok tt)) (λ _, Ok 1).
Definition example_request : SkillInstallRequest :=
  MkSkillInstallRequest Skillhub "notes" None "https://api.skillhub.tencent.com/notes.zip" TargetGlobal None None None.
Definition example_disk : Disk := {[ [RootDir; CNormal "skills"; CNormal "mail"; CNormal "SKILL.md"] := "kept" ]}.

(** The skill has requirements, for which Python fills a directory of the skill.  The
    other skill is kept. *)
Example install_confined_witness :
  (install_archive example_world [RootDir; CNormal "skills"] example_archive example_disk example_request).1
    !! [RootDir; CNormal "skills"; CNormal "mail"; CNormal "SKILL.md"] = Some "kept".
Proof.
  destruct (install_archive example_world [RootDir; CNormal "skills"] example_archive example_disk example_request) as [d answer] eqn:E.
  assert (∃ a, answer = Ok a ∧ sr_skill_name a = "notes") as (a & Ha & Hn).
  { assert ((λ x, sr_skill_name <$> match x with Ok a => Some a | Err _ => None end)
      (install_archive example_world [RootDir; CNormal "skills"] example_archive example_disk example_request).2 = Some "notes")
      as H by (vm_compute; reflexivity).
    rewrite E in H. simpl in H. destruct answer as [a|]; [|done]. exists a. split; [done|]. by injection H. }
  destruct (install_confined example_world [RootDir; CNormal "skills"] example_entries example_disk example_request d answer)
    as (name & d2 & _ & Hk & Hrest & Hnew); [decide_plain|decide_plain| | |exact E|].
  - repeat apply List.Forall_cons; [..|apply List.Forall_nil]; intros p [= <-]; decide_plain.
  - intros p [x Hx]. unfold example_disk in Hx. apply lookup_singleton_Some in Hx as [<- _]. decide_plain.
  - destruct (Hnew a Ha) as [Hname _]. rewrite Hn in Hname. subst name. simpl fst.
    assert (d2 !! [RootDir; CNormal "skills"; CNormal "mail"; CNormal "SKILL.md"] = Some "kept") as H2
      by (rewrite Hk; [by vm_compute|..]; intros Hx%(bool_decide_eq_true_2 _); by vm_compute in Hx).
    assert (¬ [RootDir; CNormal "skills"; CNormal "notes"] `prefix_of` [RootDir; CNormal "skills"; CNormal "mail"; CNormal "SKILL.md"])
      as Hp by (intros Hx%(bool_decide_eq_true_2 _); by vm_compute in Hx).
    destruct Hrest as [Hs|[_ Hs]]; rewrite (Hs _ Hp); [exact H2|].
    unfold example_world. cbn [iw_python fst]. rewrite lookup_insert_ne; [exact H2|]. discriminate.
Defined.

(** When Python cannot install the requirements the skill stays where it was moved,
    and the next attempt finds it there. *)
Theorem failed_requirements_block :
  let archive := ZipFile [(Some [CNormal "SKILL.md"], Some "text"); (Some [CNormal "requirements.txt"], Some "missing")] in
  let iw := MkInstallWorld (λ _, Ok archive) [RootDir; CNormal "tmp"] "" (λ _ d, (d, Err "pip failed")) (λ _, Ok 1) in
  let target := [RootDir; CNormal "skills"] in
  let first := install_archive iw target archive ∅ example_request in
  first.2 = Err "pip failed" ∧
  (install_archive iw target archive (remove_dir (iw_temp iw) first.1) example_request).2 = Err "Skill notes 已存在，暂不支持覆盖安装".
Proof. by vm_compute. Qed.
