(* ===== verification/GatewayStore.v ===== *)
(** The API of the gateway over its store in memory
    ([crates/uhorse-gateway/src/store.rs], [api/types.rs], [api/handlers]): agents,
    skills and sessions page by page, files of agents, channels and the market of
    skills. *)
From Stdlib Require Import SpecFloat.
From S2P Require Import Prelude Float32 ProtocolTypes Permission.

(** ** Answers ([api/types.rs]) *)

Record GwApiError := MkGwApiError { ge_code : string; ge_message : string }.
Record GwResponse (T : Type) := MkGwResponse { gr_success : bool; gr_data : option T; gr_error : option GwApiError }.
Arguments MkGwResponse {T}.
Arguments gr_success {T}.
Arguments gr_data {T}.
Arguments gr_error {T}.
Definition gw_success {T} (data : T) : GwResponse T := MkGwResponse true (Some data) None.
Definition gw_error {T} (code message : string) : GwResponse T := MkGwResponse false None (Some (MkGwApiError code message)).
(** The status and the body. *)
Abbreviation gw_answer T := (Z * GwResponse T)%type.
Definition gw_not_found {T} (message : string) : gw_answer T := (404%Z, gw_error "NOT_FOUND" message).

Record PaginationQuery := MkPaginationQuery { pq_page : Z; pq_per_page : Z }.
Definition default_page : Z := 1.
Definition default_per_page : Z := 20.
Definition PaginationQuery_default : PaginationQuery := MkPaginationQuery default_page default_per_page.
Record PaginatedResponse (T : Type) := MkPaginatedResponse {
  pr_items : list T; pr_total : Z; pr_page : Z; pr_per_page : Z; pr_total_pages : Z }.
Arguments MkPaginatedResponse {T}.
Arguments pr_items {T}.
Arguments pr_total {T}.
Arguments pr_page {T}.
Arguments pr_per_page {T}.
Arguments pr_total_pages {T}.

(** [ceil() as u32] of a number that is not negative: a fraction is rounded up, and
    what is too large becomes the largest. *)
Definition f64_ceil_u32 (x : f64) : Z :=
  match x with
  | S754_finite false m e =>
      Z.min u32_max (if bool_decide (0 ≤ e)%Z then Zpos m * 2 ^ e else - (- Zpos m / 2 ^ (- e)))%Z
  | S754_infinity false => u32_max
  | _ => 0%Z
  end.
Definition PaginatedResponse_new {T} (items : list T) (total : Z) (q : PaginationQuery) : PaginatedResponse T :=
  MkPaginatedResponse items total (pq_page q) (pq_per_page q)
    (if bool_decide (0 < pq_per_page q)%Z then f64_ceil_u32 (f64_div (f64_of_Z total) (f64_of_Z (pq_per_page q))) else 0).

(** ** The data of the store *)

(** Which builds check their arithmetic: [None] is the panic of one that does. *)
Definition page_skip (checked : bool) (q : PaginationQuery) : option nat :=
  let n := ((pq_page q - 1) * pq_per_page q)%Z in
  if checked then if bool_decide (0 ≤ pq_page q - 1 ∧ n ≤ u32_max)%Z then Some (Z.to_nat n) else None
  else Some (Z.to_nat (wrap 32 (wrap 32 (pq_page q - 1) * pq_per_page q))).
Definition page_items {A} (checked : bool) (l : list A) (q : PaginationQuery) : option (list A * Z) :=
  (λ skip, (take (Z.to_nat (pq_per_page q)) (drop skip l), zlen l)) <$> page_skip checked q.

Record GwChannelStatus := MkGwChannelStatus {
  cst_type : string; cst_enabled : bool; cst_running : bool; cst_connected : bool; cst_last_activity : option Z;
  cst_error : option string }.
Definition GwChannelStatus_new (channel : string) : GwChannelStatus := MkGwChannelStatus channel false false false None None.
Record ChannelStatusDto := MkChannelStatusDto {
  cd_type : string; cd_enabled : bool; cd_running : bool; cd_connected : bool; cd_last_activity : option string;
  cd_error : option string }.

Inductive GwAgentStatus := AgentIsRunning | AgentIsStopped | AgentHasError.
Record GwAgent := MkGwAgent {
  ga_id : string; ga_name : string; ga_description : option string; ga_system_prompt : option string; ga_model : option string;
  ga_temperature : option f32; ga_max_tokens : option Z; ga_is_default : bool; ga_skills : list string;
  ga_status : GwAgentStatus; ga_created_at : Z; ga_updated_at : Z }.
Record AgentDto := MkAgentDto {
  ad_id : string; ad_name : string; ad_description : option string; ad_system_prompt : option string; ad_model : option string;
  ad_temperature : option f32; ad_max_tokens : option Z; ad_is_default : bool; ad_skills : list string;
  ad_created_at : string; ad_updated_at : string }.
Record CreateAgentRequest := MkCreateAgentRequest {
  car_name : string; car_description : option string; car_system_prompt : option string; car_model : option string;
  car_temperature : option f32; car_max_tokens : option Z; car_is_default : bool; car_skills : list string }.
Record UpdateAgentRequest := MkUpdateAgentRequest {
  uar_name : option string; uar_description : option string; uar_system_prompt : option string; uar_model : option string;
  uar_temperature : option f32; uar_max_tokens : option Z; uar_is_default : option bool; uar_skills : option (list string) }.

Record ApiSkillParameter (Json : Type) := MkApiSkillParameter {
  asp_name : string; asp_description : string; asp_type : string; asp_required : bool; asp_default : option Json }.
Record GwSkill (Json : Type) := MkGwSkill {
  gk_id : string; gk_name : string; gk_description : string; gk_version : string; gk_author : option string;
  gk_tags : list string; gk_parameters : list (ApiSkillParameter Json); gk_manifest : string; gk_agent_id : option string;
  gk_created_at : Z; gk_updated_at : Z }.
Arguments MkGwSkill {Json}.
Arguments gk_id {Json}.
Arguments gk_name {Json}.
Arguments gk_description {Json}.
Arguments gk_version {Json}.
Arguments gk_author {Json}.
Arguments gk_tags {Json}.
Arguments gk_parameters {Json}.
Arguments gk_manifest {Json}.
Arguments gk_agent_id {Json}.
Arguments gk_created_at {Json}.
Arguments gk_updated_at {Json}.
Record SkillDto (Json : Type) := MkSkillDto {
  kd_id : string; kd_name : string; kd_description : string; kd_version : string; kd_author : option string;
  kd_tags : list string; kd_parameters : list (ApiSkillParameter Json); kd_agent_id : option string;
  kd_created_at : string; kd_updated_at : string }.
Arguments MkSkillDto {Json}.
Record CreateSkillRequest (Json : Type) := MkCreateSkillRequest {
  csr_name : string; csr_description : string; csr_version : string; csr_author : option string; csr_tags : list string;
  csr_parameters : list (ApiSkillParameter Json); csr_manifest : string; csr_agent_id : option string }.
Arguments MkCreateSkillRequest {Json}.
Arguments csr_name {Json}.
Arguments csr_description {Json}.
Arguments csr_version {Json}.
Arguments csr_author {Json}.
Arguments csr_tags {Json}.
Arguments csr_parameters {Json}.
Arguments csr_manifest {Json}.
Arguments csr_agent_id {Json}.
Definition default_skill_version : string := "1.0.0".
Record UpdateSkillRequest (Json : Type) := MkUpdateSkillRequest {
  usr_name : option string; usr_description : option string; usr_version : option string; usr_tags : option (list string);
  usr_parameters : option (list (ApiSkillParameter Json)); usr_manifest : option string }.
Arguments MkUpdateSkillRequest {Json}.
Arguments usr_name {Json}.
Arguments usr_description {Json}.
Arguments usr_version {Json}.
Arguments usr_tags {Json}.
Arguments usr_parameters {Json}.
Arguments usr_manifest {Json}.
Record MarketplaceSkill := MkMarketplaceSkill {
  ms_id : string; ms_name : string; ms_description : string; ms_version : string; ms_author : string; ms_downloads : Z;
  ms_rating : f32; ms_tags : list string; ms_icon_url : option string; ms_repository_url : option string }.

Inductive GwSessionStatus := SessionActive | SessionIdle | SessionClosed.
Inductive GwMessageRole := RoleUser | RoleAssistant | RoleSystem.
Record GwSession := MkGwSession {
  gs_id : string; gs_agent_id : string; gs_channel : string; gs_user_id : string; gs_status : GwSessionStatus;
  gs_created_at : Z; gs_updated_at : Z }.
Record GwSessionDto := MkGwSessionDto {
  gd_id : string; gd_agent_id : string; gd_channel : string; gd_user_id : string; gd_status : GwSessionStatus;
  gd_created_at : string; gd_updated_at : string }.
Record GwMessage := MkGwMessage {
  gm_id : string; gm_session_id : string; gm_role : GwMessageRole; gm_content : string; gm_timestamp : Z }.
Record GwMessageDto := MkGwMessageDto { md_id : string; md_role : GwMessageRole; md_content : string; md_timestamp : string }.
Record FileEntry := MkFileEntry {
  fe_agent_id : string; fe_path : string; fe_name : string; fe_content : string; fe_created_at : Z; fe_updated_at : Z }.
Record GwFileInfo := MkGwFileInfo {
  fi_path : string; fi_name : string; fi_is_dir : bool; fi_size : option Z; fi_modified_at : option string }.
Record GwFileContent := MkGwFileContent { fc_path : string; fc_content : string; fc_size : Z }.

(** The text of a time in seconds, as chrono writes it. *)
Class StampText := stamp_text : Z → string.

Section Data.
Context `{StampText} {Json : Type}.
Definition gw_channel_to_dto (c : GwChannelStatus) : ChannelStatusDto :=
  MkChannelStatusDto (cst_type c) (cst_enabled c) (cst_running c) (cst_connected c) (stamp_text <$> cst_last_activity c) (cst_error c).
Definition GwAgent_new (uuid : string) (now : Z) (r : CreateAgentRequest) : GwAgent :=
  MkGwAgent uuid (car_name r) (car_description r) (car_system_prompt r) (car_model r) (car_temperature r) (car_max_tokens r)
    (car_is_default r) (car_skills r) AgentIsStopped now now.
Definition gw_agent_to_dto (a : GwAgent) : AgentDto :=
  MkAgentDto (ga_id a) (ga_name a) (ga_description a) (ga_system_prompt a) (ga_model a) (ga_temperature a) (ga_max_tokens a)
    (ga_is_default a) (ga_skills a) (stamp_text (ga_created_at a)) (stamp_text (ga_updated_at a)).
Definition GwSkill_new (uuid : string) (now : Z) (r : CreateSkillRequest Json) : GwSkill Json :=
  MkGwSkill uuid (csr_name r) (csr_description r) (csr_version r) (csr_author r) (csr_tags r) (csr_parameters r) (csr_manifest r)
    (csr_agent_id r) now now.
Definition from_marketplace (uuid : string) (now : Z) (s : MarketplaceSkill) (agent : option string) : GwSkill Json :=
  MkGwSkill uuid (ms_name s) (ms_description s) (ms_version s) (Some (ms_author s)) (ms_tags s) [] "" agent now now.
Definition gw_skill_to_dto (s : GwSkill Json) : SkillDto Json :=
  MkSkillDto (gk_id s) (gk_name s) (gk_description s) (gk_version s) (gk_author s) (gk_tags s) (gk_parameters s) (gk_agent_id s)
    (stamp_text (gk_created_at s)) (stamp_text (gk_updated_at s)).
Definition gw_session_to_dto (s : GwSession) : GwSessionDto :=
  MkGwSessionDto (gs_id s) (gs_agent_id s) (gs_channel s) (gs_user_id s) (gs_status s) (stamp_text (gs_created_at s))
    (stamp_text (gs_updated_at s)).
Definition gw_message_to_dto (m : GwMessage) : GwMessageDto :=
  MkGwMessageDto (gm_id m) (gm_role m) (gm_content m) (stamp_text (gm_timestamp m)).
(** The name is what follows the last slash. *)
Definition FileEntry_new (now : Z) (agent path content : string) : FileEntry :=
  MkFileEntry agent path (default path (last (str_split "/" path))) content now now.
Definition file_to_info (f : FileEntry) : GwFileInfo :=
  MkGwFileInfo (fe_path f) (fe_name f) false (Some (Z.of_nat (String.length (fe_content f)))) (Some (stamp_text (fe_updated_at f))).
End Data.

(** ** The store *)

Record GwStore (Json : Type) := MkGwStore {
  st_agents : gmap string GwAgent; st_skills : gmap string (GwSkill Json); st_sessions : gmap string GwSession;
  st_messages : gmap string (list GwMessage); st_files : gmap string FileEntry; st_channels : gmap string GwChannelStatus }.
Arguments MkGwStore {Json}.
Arguments st_agents {Json}.
Arguments st_skills {Json}.
Arguments st_sessions {Json}.
Arguments st_messages {Json}.
Arguments st_files {Json}.
Arguments st_channels {Json}.
Definition GW_CHANNEL_TYPES : list string := ["telegram"; "dingtalk"; "feishu"; "wework"; "slack"; "discord"; "whatsapp"].

Section Store.
Context `{StampText, HashOrder} {Json : Type}.
Implicit Types (s : GwStore Json) (q : PaginationQuery) (checked : bool).
Abbreviation Store := (GwStore Json).

Definition GwStore_default : Store :=
  MkGwStore ∅ ∅ ∅ ∅ ∅ (list_to_map ((λ c, (c, GwChannelStatus_new c)) <$> GW_CHANNEL_TYPES)).
Definition set_agents s m : Store := MkGwStore m (st_skills s) (st_sessions s) (st_messages s) (st_files s) (st_channels s).
Definition set_skills s m : Store := MkGwStore (st_agents s) m (st_sessions s) (st_messages s) (st_files s) (st_channels s).
Definition set_files s m : Store := MkGwStore (st_agents s) (st_skills s) (st_sessions s) (st_messages s) m (st_channels s).
Definition set_channels s m : Store := MkGwStore (st_agents s) (st_skills s) (st_sessions s) (st_messages s) (st_files s) m.

(** What the request leaves out is kept. *)
Definition change_agent (now : Z) (r : UpdateAgentRequest) (a : GwAgent) : GwAgent :=
  MkGwAgent (ga_id a) (default (ga_name a) (uar_name r)) (or_else (uar_description r) (ga_description a))
    (or_else (uar_system_prompt r) (ga_system_prompt a)) (or_else (uar_model r) (ga_model a))
    (or_else (uar_temperature r) (ga_temperature a)) (or_else (uar_max_tokens r) (ga_max_tokens a))
    (default (ga_is_default a) (uar_is_default r)) (default (ga_skills a) (uar_skills r)) (ga_status a) (ga_created_at a) now.
Definition change_skill (now : Z) (r : UpdateSkillRequest Json) (k : GwSkill Json) : GwSkill Json :=
  MkGwSkill (gk_id k) (default (gk_name k) (usr_name r)) (default (gk_description k) (usr_description r))
    (default (gk_version k) (usr_version r)) (gk_author k) (default (gk_tags k) (usr_tags r))
    (default (gk_parameters k) (usr_parameters r)) (default (gk_manifest k) (usr_manifest r)) (gk_agent_id k) (gk_created_at k) now.
Definition store_list_agents checked s q : option (list GwAgent * Z) := page_items checked (hash_values (st_agents s)) q.
Definition store_create_agent s (a : GwAgent) : Store := set_agents s (<[ga_id a := a]> (st_agents s)).
Definition store_update_agent (now : Z) s (id : string) (r : UpdateAgentRequest) : Store * option GwAgent :=
  match st_agents s !! id with
  | Some a => (set_agents s (<[id := change_agent now r a]> (st_agents s)), Some (change_agent now r a))
  | None => (s, None)
  end.
Definition store_delete_agent s (id : string) : Store * bool :=
  (set_agents s (delete id (st_agents s)), bool_decide (is_Some (st_agents s !! id))).
Definition store_list_skills checked s q : option (list (GwSkill Json) * Z) := page_items checked (hash_values (st_skills s)) q.
Definition store_create_skill s (k : GwSkill Json) : Store := set_skills s (<[gk_id k := k]> (st_skills s)).
Definition store_update_skill (now : Z) s (id : string) (r : UpdateSkillRequest Json) : Store * option (GwSkill Json) :=
  match st_skills s !! id with
  | Some k => (set_skills s (<[id := change_skill now r k]> (st_skills s)), Some (change_skill now r k))
  | None => (s, None)
  end.
Definition store_delete_skill s (id : string) : Store * bool :=
  (set_skills s (delete id (st_skills s)), bool_decide (is_Some (st_skills s !! id))).
Definition store_list_sessions checked s q : option (list GwSession * Z) := page_items checked (hash_values (st_sessions s)) q.
Definition store_delete_session s (id : string) : Store * bool :=
  (MkGwStore (st_agents s) (st_skills s) (delete id (st_sessions s)) (delete id (st_messages s)) (st_files s) (st_channels s),
   bool_decide (is_Some (st_sessions s !! id))).
Definition store_session_messages checked s (id : string) q : option (list GwMessage * Z) :=
  page_items checked (default [] (st_messages s !! id)) q.
Definition file_key (agent path : string) : string := agent +:+ ":" +:+ path.
Definition store_list_files s (agent : string) : list GwFileInfo :=
  file_to_info <$> List.filter (λ f, bool_decide (fe_agent_id f = agent)) (hash_values (st_files s)).
Definition store_get_file s (agent path : string) : option FileEntry := st_files s !! file_key agent path.
Definition store_save_file (now : Z) s (agent path content : string) : Store * FileEntry :=
  let f := FileEntry_new now agent path content in (set_files s (<[file_key agent path := f]> (st_files s)), f).
Definition store_delete_file s (agent path : string) : Store * bool :=
  (set_files s (delete (file_key agent path) (st_files s)), bool_decide (is_Some (st_files s !! file_key agent path))).
Definition store_list_channels s : list ChannelStatusDto := gw_channel_to_dto <$> hash_values (st_channels s).
Definition store_channel_status s (channel : string) : option ChannelStatusDto := gw_channel_to_dto <$> st_channels s !! channel.
Definition set_enabled (now : Z) (enabled : bool) (c : GwChannelStatus) : GwChannelStatus :=
  MkGwChannelStatus (cst_type c) enabled (cst_running c) (cst_connected c) (Some now) (cst_error c).
Definition store_set_channel_enabled (now : Z) s (channel : string) (enabled : bool) : Store * ChannelStatusDto :=
  let c := set_enabled now enabled (default (GwChannelStatus_new channel) (st_channels s !! channel)) in
  (set_channels s (<[channel := c]> (st_channels s)), gw_channel_to_dto c).
End Store.

(** ** The handlers ([api/handlers]) *)

Section Handlers.
Context `{StampText, HashOrder, ToLowercase} {Json : Type}.
Implicit Types (s : GwStore Json) (q : PaginationQuery) (checked : bool) (id : string).
Abbreviation Store := (GwStore Json).

(** [None] is a panic, which ends the request. *)
Definition paginated {A D} (dto : A → D) q (page : option (list A * Z)) : option (gw_answer (PaginatedResponse D)) :=
  (λ x : list A * Z, (200%Z, gw_success (PaginatedResponse_new (dto <$> x.1) x.2 q))) <$> page.
Definition found_or {T} (message : string) (o : option T) : gw_answer T :=
  match o with Some x => (200%Z, gw_success x) | None => gw_not_found message end.
Definition done_or (message : string) (removed : bool) : gw_answer unit :=
  if removed then (200%Z, gw_success tt) else gw_not_found message.

(** *** Agents *)
Definition gw_list_agents checked s q : option (gw_answer (PaginatedResponse AgentDto)) :=
  paginated gw_agent_to_dto q (store_list_agents checked s q).
Definition gw_get_agent s id : gw_answer AgentDto := found_or "Agent not found" (gw_agent_to_dto <$> st_agents s !! id).
Definition gw_create_agent (uuid : string) (now : Z) s (r : CreateAgentRequest) : Store * gw_answer AgentDto :=
  let a := GwAgent_new uuid now r in (store_create_agent s a, (201%Z, gw_success (gw_agent_to_dto a))).
Definition gw_update_agent (now : Z) s id (r : UpdateAgentRequest) : Store * gw_answer AgentDto :=
  let '(s, a) := store_update_agent now s id r in (s, found_or "Agent not found" (gw_agent_to_dto <$> a)).
Definition gw_delete_agent s id : Store * gw_answer unit :=
  let '(s, removed) := store_delete_agent s id in (s, done_or "Agent not found" removed).
(** The answer names the identifier and a status; nothing is started or stopped. *)
Definition gw_start_agent s id : gw_answer (string * string) :=
  found_or "Agent not found" ((λ a, (ga_id a, "running")) <$> st_agents s !! id).
Definition gw_stop_agent s id : gw_answer (string * string) :=
  found_or "Agent not found" ((λ a, (ga_id a, "stopped")) <$> st_agents s !! id).

(** *** Skills *)
Definition gw_list_skills checked s q : option (gw_answer (PaginatedResponse (SkillDto Json))) :=
  paginated gw_skill_to_dto q (store_list_skills checked s q).
Definition gw_get_skill s id : gw_answer (SkillDto Json) := found_or "Skill not found" (gw_skill_to_dto <$> st_skills s !! id).
Definition gw_create_skill (uuid : string) (now : Z) s (r : CreateSkillRequest Json) : Store * gw_answer (SkillDto Json) :=
  let k := GwSkill_new uuid now r in (store_create_skill s k, (201%Z, gw_success (gw_skill_to_dto k))).
Definition gw_update_skill (now : Z) s id (r : UpdateSkillRequest Json) : Store * gw_answer (SkillDto Json) :=
  let '(s, k) := store_update_skill now s id r in (s, found_or "Skill not found" (gw_skill_to_dto <$> k)).
Definition gw_delete_skill s id : Store * gw_answer unit :=
  let '(s, removed) := store_delete_skill s id in (s, done_or "Skill not found" removed).

(** *** Sessions *)
Definition gw_list_sessions checked s q : option (gw_answer (PaginatedResponse GwSessionDto)) :=
  paginated gw_session_to_dto q (store_list_sessions checked s q).
Definition gw_get_session s id : gw_answer GwSessionDto := found_or "Session not found" (gw_session_to_dto <$> st_sessions s !! id).
Definition gw_delete_session s id : Store * gw_answer unit :=
  let '(s, removed) := store_delete_session s id in (s, done_or "Session not found" removed).
Definition gw_session_messages checked s id q : option (gw_answer (PaginatedResponse GwMessageDto)) :=
  paginated gw_message_to_dto q (store_session_messages checked s id q).

(** *** Files *)
Definition gw_list_files s (agent : string) : gw_answer (list GwFileInfo) := (200%Z, gw_success (store_list_files s agent)).
Definition gw_get_file s (agent path : string) : gw_answer GwFileContent :=
  found_or "File not found"
    ((λ f, MkGwFileContent (fe_path f) (fe_content f) (Z.of_nat (String.length (fe_content f)))) <$> store_get_file s agent path).
(** The body has been made into a text. *)
Definition gw_update_file (now : Z) s (agent path content : string) : Store * gw_answer GwFileInfo :=
  let '(s, f) := store_save_file now s agent path content in (s, (200%Z, gw_success (file_to_info f))).
Definition gw_create_file (now : Z) s (agent path content : string) : Store * gw_answer GwFileInfo :=
  let '(s, f) := store_save_file now s agent path content in (s, (201%Z, gw_success (file_to_info f))).
Definition gw_delete_file s (agent path : string) : Store * gw_answer unit :=
  let '(s, removed) := store_delete_file s agent path in (s, done_or "File not found" removed).

(** *** Channels *)
Definition invalid_channel {T} : gw_answer T := (400%Z, gw_error "INVALID_CHANNEL" "Unknown channel type").
Definition gw_list_channels s : gw_answer (list ChannelStatusDto) := (200%Z, gw_success (store_list_channels s)).
Definition gw_channel_status s (channel : string) : gw_answer ChannelStatusDto :=
  found_or "Channel type not found" (store_channel_status s channel).
Definition gw_set_channel (enabled : bool) (now : Z) s (channel : string) : Store * gw_answer ChannelStatusDto :=
  if bool_decide (channel ∈ GW_CHANNEL_TYPES) then
    let '(s, c) := store_set_channel_enabled now s channel enabled in (s, (200%Z, gw_success c))
  else (s, invalid_channel).
Definition enable_channel : Z → Store → string → Store * gw_answer ChannelStatusDto := gw_set_channel true.
Definition disable_channel : Z → Store → string → Store * gw_answer ChannelStatusDto := gw_set_channel false.
(** The channel, the result and a message; no connection is tried. *)
Definition gw_test_channel (channel : string) : gw_answer (string * string * string) :=
  if bool_decide (channel ∈ GW_CHANNEL_TYPES) then (200%Z, gw_success (channel, "success", "Channel connection test passed"))
  else invalid_channel.

(** *** The market *)
Definition get_mock_marketplace_skills : list MarketplaceSkill :=
  [MkMarketplaceSkill "marketplace/code-review" "Code Review" "自动代码审查技能，支持多种编程语言" "1.2.0" "uHorse Team" 1520 (f32_lit 48 10)
     ["code"; "review"; "quality"] None (Some "https://github.com/uhorse/skill-code-review");
   MkMarketplaceSkill "marketplace/translation" "Translation" "多语言翻译技能，支持 100+ 种语言" "2.0.1" "uHorse Team" 3200 (f32_lit 49 10)
     ["translation"; "i18n"] None (Some "https://github.com/uhorse/skill-translation");
   MkMarketplaceSkill "marketplace/summarization" "Text Summarization" "智能文本摘要技能，支持长文档压缩" "1.5.0" "Community" 890 (f32_lit 45 10)
     ["nlp"; "summary"] None None;
   MkMarketplaceSkill "marketplace/web-search" "Web Search" "网络搜索技能，支持多种搜索引擎" "1.0.0" "uHorse Team" 2100 (f32_lit 47 10)
     ["search"; "web"] None (Some "https://github.com/uhorse/skill-web-search");
   MkMarketplaceSkill "marketplace/data-analysis" "Data Analysis" "数据分析技能，支持 CSV、Excel、JSON 格式" "1.1.0" "Community" 650 (f32_lit 43 10)
     ["data"; "analysis"; "visualization"] None None].
Record MarketplaceSearchQuery := MkMarketplaceSearchQuery { mq_q : option string; mq_tags : list string; mq_sort : option string }.
Definition has_keyword (q : string) (k : MarketplaceSkill) : bool :=
  str_contains (to_lowercase q) (to_lowercase (ms_name k)) || str_contains (to_lowercase q) (to_lowercase (ms_description k))
  || existsb (λ t, str_contains (to_lowercase q) (to_lowercase t)) (ms_tags k).
Definition has_tag (k : MarketplaceSkill) (tag : string) : bool :=
  existsb (λ t, bool_decide (ascii_lower t = ascii_lower tag)) (ms_tags k).
Definition market_match (query : MarketplaceSearchQuery) (k : MarketplaceSkill) : bool :=
  match mq_q query with Some q => has_keyword q k | None => true end && forallb (has_tag k) (mq_tags query).
Definition more_downloads (a b : MarketplaceSkill) : bool := bool_decide (ms_downloads b ≤ ms_downloads a)%Z.
(** Ratings are compared by [partial_cmp], and none of them is not a number. *)
Definition better_rated (a b : MarketplaceSkill) : bool := f32_cmp_leb (ms_rating b) (ms_rating a).
Definition search_skills (query : MarketplaceSearchQuery) : list MarketplaceSkill :=
  let found := List.filter (market_match query) get_mock_marketplace_skills in
  match mq_sort query with
  | Some sort =>
      if bool_decide (sort = "downloads") then sort_by more_downloads found
      else if bool_decide (sort = "rating") then sort_by better_rated found else found
  | None => found
  end.
Definition market_skill id : option MarketplaceSkill :=
  List.find (λ k, bool_decide (ms_id k = id)) get_mock_marketplace_skills.
Definition get_marketplace_skill id : gw_answer MarketplaceSkill := found_or "Skill not found in marketplace" (market_skill id).
Definition gw_install_skill (uuid : string) (now : Z) s id (agent : option string) : Store * gw_answer (SkillDto Json) :=
  match market_skill id with
  | None => (s, gw_not_found "Skill not found in marketplace")
  | Some m =>
      let k := from_marketplace uuid now m agent in (store_create_skill s k, (201%Z, gw_success (gw_skill_to_dto k)))
  end.

(** ** Histories of requests that change the store *)

Inductive gw_call :=
| CallCreateAgent (uuid : string) (now : Z) (r : CreateAgentRequest)
| CallUpdateAgent (now : Z) id (r : UpdateAgentRequest)
| CallDeleteAgent id
| CallCreateSkill (uuid : string) (now : Z) (r : CreateSkillRequest Json)
| CallUpdateSkill (now : Z) id (r : UpdateSkillRequest Json)
| CallDeleteSkill id
| CallDeleteSession id
| CallUpdateFile (now : Z) (agent path content : string)
| CallCreateFile (now : Z) (agent path content : string)
| CallDeleteFile (agent path : string)
| CallSetChannel (enabled : bool) (now : Z) (channel : string)
| CallInstall (uuid : string) (now : Z) id (agent : option string).
Definition gw_step s (c : gw_call) : Store :=
  match c with
  | CallCreateAgent uuid now r => (gw_create_agent uuid now s r).1
  | CallUpdateAgent now id r => (gw_update_agent now s id r).1
  | CallDeleteAgent id => (gw_delete_agent s id).1
  | CallCreateSkill uuid now r => (gw_create_skill uuid now s r).1
  | CallUpdateSkill now id r => (gw_update_skill now s id r).1
  | CallDeleteSkill id => (gw_delete_skill s id).1
  | CallDeleteSession id => (gw_delete_session s id).1
  | CallUpdateFile now agent path content => (gw_update_file now s agent path content).1
  | CallCreateFile now agent path content => (gw_create_file now s agent path content).1
  | CallDeleteFile agent path => (gw_delete_file s agent path).1
  | CallSetChannel enabled now channel => (gw_set_channel enabled now s channel).1
  | CallInstall uuid now id agent => (gw_install_skill uuid now s id agent).1
  end.
Definition gw_run_from s (calls : list gw_call) : Store := foldl gw_step s calls.
Definition gw_run : list gw_call → Store := gw_run_from GwStore_default.
End Handlers.

(** * Theorems *)

(** ** Pages *)

Section Pages.
Context {A : Type}.
Implicit Types (l : list A) (checked : bool).

Lemma page_items_at checked l i per :
  (0 < per)%Z → (Z.of_nat (S i) * per ≤ u32_max)%Z →
  page_items checked l (MkPaginationQuery (Z.of_nat (S i)) per) =
  Some (take (Z.to_nat per) (drop (i * Z.to_nat per) l), zlen l).
Proof.
  intros Hp Hb. unfold page_items, page_skip. simpl pq_page. simpl pq_per_page.
  assert (Z.of_nat (S i) - 1 = Z.of_nat i)%Z as -> by lia.
  assert (Z.to_nat (Z.of_nat i * per) = i * Z.to_nat per) as E by (rewrite Z2Nat.inj_mul, Nat2Z.id; lia).
  unfold u32_max in *. destruct checked.
  - rewrite bool_decide_true by nia. simpl. by rewrite E.
  - unfold wrap. rewrite (Z.mod_small (Z.of_nat i)), Z.mod_small by nia. simpl. by rewrite E.
Qed.

Lemma chunks_joined l per n :
  mjoin ((λ i, take per (drop (i * per) l)) <$> seq 0 n) = take (n * per) l.
Proof.
  induction n as [|n IH]; [done|]. rewrite seq_S, fmap_app, join_app. simpl. rewrite IH, app_nil_r.
  rewrite take_take_drop. f_equal. lia.
Qed.

(** The pages from the first to one that reaches the end are everything, each item
    once and in the order of the whole. *)
Theorem pages_cover checked l per n :
  (0 < per)%Z → (Z.of_nat n * per ≤ u32_max)%Z → (zlen l ≤ Z.of_nat n * per)%Z →
  mjoin ((λ i, default [] (fst <$> page_items checked l (MkPaginationQuery (Z.of_nat (S i)) per))) <$> seq 0 n) = l.
Proof.
  intros Hp Hb Hl. trans (mjoin ((λ i, take (Z.to_nat per) (drop (i * Z.to_nat per) l)) <$> seq 0 n)).
  - f_equal. apply list_fmap_ext. intros i j Hij. apply lookup_seq in Hij as [-> Hi].
    rewrite page_items_at by nia. done.
  - rewrite chunks_joined. apply take_ge. unfold zlen in Hl. nia.
Qed.

(** The page before the first: a build that checks its arithmetic panics, the
    others skip nearly four thousand million items. *)
Theorem page_zero checked l per :
  (0 < per)%Z → (per + zlen l ≤ 2 ^ 32)%Z →
  page_items checked l (MkPaginationQuery 0 per) = if checked then None else Some ([], zlen l).
Proof.
  intros Hp Hl. unfold page_items, page_skip. simpl pq_page. simpl pq_per_page. destruct checked.
  - by rewrite bool_decide_false by lia.
  - assert (wrap 32 (wrap 32 (0 - 1) * per) = 2 ^ 32 - per)%Z as ->.
    { unfold wrap. rewrite Z.mul_mod_idemp_l by lia. replace ((0 - 1) * per)%Z with (2 ^ 32 - per + -1 * 2 ^ 32)%Z by lia.
      rewrite Z.mod_add by lia. apply Z.mod_small. unfold zlen in *. lia. }
    simpl. rewrite drop_ge; [by rewrite take_nil|]. unfold zlen in *. lia.
Qed.
End Pages.

(** The number of pages is the quotient rounded up, where everything was tried. *)
Theorem total_pages_small :
  forallb (λ total, forallb (λ per, Z.eqb (pr_total_pages (PaginatedResponse_new (T:=unit) [] (Z.of_nat total) (MkPaginationQuery 1 (Z.of_nat per))))
                                          (- (- Z.of_nat total / Z.of_nat per)))
                     (seq 1 40)) (seq 0 200) = true.
Proof. by vm_compute. Qed.

Section StoreFacts.
Context `{StampText, HashOrder, ToLowercase} {Json : Type}.
Implicit Types (s : GwStore Json) (id agent path content : string).

(** Every agent of the store is shown on one of the pages. *)
Theorem every_agent_on_a_page checked s id a per :
  st_agents s !! id = Some a → (0 < per)%Z → (Z.of_nat (size (st_agents s)) * per ≤ u32_max)%Z →
  ∃ i r, i < size (st_agents s) ∧
    gw_list_agents checked s (MkPaginationQuery (Z.of_nat (S i)) per) = Some (200%Z, gw_success r) ∧ gw_agent_to_dto a ∈ pr_items r.
Proof.
  intros Ha Hp Hb. set (l := hash_values (st_agents s)).
  assert (a ∈ l) as Hin by (apply elem_of_hash_values; by exists id).
  assert (length l = size (st_agents s)) as Hlen by (unfold l, hash_values; by rewrite length_fmap, hash_order_length).
  rewrite <-(pages_cover checked l per (size (st_agents s))) in Hin; [|done..|unfold zlen; nia].
  apply list_elem_of_join in Hin as (page & Hin & Hpage). apply list_elem_of_fmap in Hpage as (i & -> & Hi%elem_of_seq).
  exists i. unfold gw_list_agents, store_list_agents, paginated. fold l. rewrite page_items_at in * by nia. simpl in *.
  eexists. split_and!; [lia|done|]. simpl. by apply list_elem_of_fmap_2.
Qed.

(** What an update does not name is kept, with the identifier, the status and the
    time of creation; the other agents are kept, and an unknown one changes
    nothing. *)
Theorem update_agent_exact now s id r :
  let '(s', answer) := gw_update_agent now s id r in
  match st_agents s !! id with
  | None => s' = s ∧ answer = gw_not_found "Agent not found"
  | Some a =>
      ∃ a', st_agents s' = <[id := a']> (st_agents s) ∧ answer = (200%Z, gw_success (gw_agent_to_dto a')) ∧
        ga_id a' = ga_id a ∧ ga_status a' = ga_status a ∧ ga_created_at a' = ga_created_at a ∧ ga_updated_at a' = now ∧
        ga_name a' = default (ga_name a) (uar_name r) ∧ (is_Some (ga_description a) → is_Some (ga_description a')) ∧
        st_skills s' = st_skills s ∧ st_files s' = st_files s
  end.
Proof.
  unfold gw_update_agent, store_update_agent. destruct (st_agents s !! id) as [a|]; [|done].
  exists (change_agent now r a). split_and!; try done. simpl. intros [x ->]. destruct (uar_description r); by eexists.
Qed.

(** *** Files *)

Definition colon_free (s : string) : Prop := str_forallb (λ c, negb (Ascii.eqb c ":")) s = true.
Lemma split_file_key agent path : colon_free agent → split_at_char ":" (file_key agent path) = Some (agent, path).
Proof.
  unfold file_key, colon_free. induction agent as [|c agent IH]; [done|]. simpl. intros [Hc Ha]%andb_prop.
  rewrite negb_true_iff in Hc. rewrite Hc. rewrite IH by done. done.
Qed.
Lemma file_key_inj a1 p1 a2 p2 :
  colon_free a1 → colon_free a2 → file_key a1 p1 = file_key a2 p2 → a1 = a2 ∧ p1 = p2.
Proof. intros C1 C2 E. apply (f_equal (split_at_char ":")) in E. rewrite !split_file_key in E by done. by simplify_eq. Qed.

(** What is written to a file is read from it, and the files of other agents and
    paths are kept, for agents whose identifiers have no colon. *)
Theorem files_kept_apart now s agent path content agent2 path2 :
  let s' := (gw_update_file now s agent path content).1 in
  gw_get_file s' agent path = (200%Z, gw_success (MkGwFileContent path content (Z.of_nat (String.length content)))) ∧
  (colon_free agent → colon_free agent2 → (agent2, path2) ≠ (agent, path) →
   gw_get_file s' agent2 path2 = gw_get_file s agent2 path2).
Proof.
  unfold gw_get_file, store_get_file. simpl. split; [by rewrite lookup_insert_eq|]. intros C1 C2 Hn.
  rewrite lookup_insert_ne; [done|]. intros E. apply Hn. apply file_key_inj in E as [-> ->]; done.
Qed.
(** With a colon two agents share a file: what one writes, the other reads in place
    of its own. *)
Theorem colon_files_collide now s content :
  gw_get_file (gw_update_file now s "a:b" "c" content).1 "a" "b:c" =
  (200%Z, gw_success (MkGwFileContent "c" content (Z.of_nat (String.length content)))).
Proof. unfold gw_get_file, store_get_file. simpl. by rewrite lookup_insert_eq. Qed.

(** *** What the store can hold *)

(** Agents and skills are filed under their identifiers, and no agent runs; there
    are no sessions and no messages; files are filed under their agent and path; the
    channels are the seven, and none is connected. *)
Record gw_wf s : Prop := {
  gw_agents_filed : map_Forall (λ id a, ga_id a = id ∧ ga_status a = AgentIsStopped) (st_agents s);
  gw_skills_filed : map_Forall (λ id k, gk_id k = id) (st_skills s);
  gw_no_sessions : st_sessions s = ∅ ∧ st_messages s = ∅;
  gw_files_filed : map_Forall (λ key f, file_key (fe_agent_id f) (fe_path f) = key) (st_files s);
  gw_channels_known : dom (st_channels s) = list_to_set GW_CHANNEL_TYPES;
  gw_channels_idle : map_Forall (λ c x, cst_type x = c ∧ cst_running x = false ∧ cst_connected x = false) (st_channels s)
}.

Lemma set_with_member (c : string) l : c ∈ l → {[c]} ∪ (list_to_set l : gset string) = list_to_set l.
Proof. set_solver. Qed.
Lemma gw_step_wf s c : gw_wf s → gw_wf (gw_step s c).
Proof.
  intros [A K [S M] F D C]. destruct c; cbn [gw_step].
  - constructor; try done. simpl. by apply map_Forall_insert_2.
  - unfold gw_update_agent, store_update_agent. destruct (st_agents s !! id) as [a|] eqn:E; [|done].
    constructor; try done. simpl. apply map_Forall_insert_2; [|done]. apply (A _ _ E).
  - constructor; try done. simpl. by apply map_Forall_delete.
  - constructor; try done. simpl. by apply map_Forall_insert_2.
  - unfold gw_update_skill, store_update_skill. destruct (st_skills s !! id) as [k|] eqn:E; [|done].
    constructor; try done. simpl. apply map_Forall_insert_2; [|done]. apply (K _ _ E).
  - constructor; try done. simpl. by apply map_Forall_delete.
  - constructor; try done. simpl. by rewrite S, M, !delete_empty.
  - constructor; try done. simpl. by apply map_Forall_insert_2.
  - constructor; try done. simpl. by apply map_Forall_insert_2.
  - constructor; try done. simpl. by apply map_Forall_delete.
  - unfold gw_set_channel. case_bool_decide as Hc; [|done]. simpl. constructor; try done; simpl.
    + rewrite dom_insert_L, D. by apply set_with_member.
    + apply map_Forall_insert_2; [|done]. destruct (st_channels s !! channel) as [x|] eqn:E; simpl; [apply (C _ _ E)|done].
  - unfold gw_install_skill. destruct (market_skill id) as [m|]; [|done]. constructor; try done. simpl. by apply map_Forall_insert_2.
Qed.

(** Whatever requests are answered: starting an agent does not run it, enabling a
    channel does not connect it, and there is never a session to list. *)
Theorem gateway_store_invariant calls : gw_wf (gw_run calls).
Proof.
  assert (∀ s, gw_wf s → gw_wf (gw_run_from s calls)) as Hrun.
  { induction calls as [|c calls IH]; intros s Hs; [done|]. by apply IH, gw_step_wf. }
  apply Hrun. constructor; try done; apply (bool_decide_unpack _); by vm_compute.
Qed.

(** *** The market *)

Lemma sorted_impl {A} (P Q : A → A → Prop) l : (∀ a b, P a b → Q a b) → StronglySorted P l → StronglySorted Q l.
Proof. intros HPQ. induction 1; constructor; [done|]. eapply Forall_impl; eauto. Qed.
(** What a search finds are the skills that match, each once, in the order that was
    asked for. *)
Theorem search_exact query :
  search_skills query ≡ₚ List.filter (market_match query) get_mock_marketplace_skills ∧
  (mq_sort query = Some "downloads" → StronglySorted (λ a b, (ms_downloads b ≤ ms_downloads a)%Z) (search_skills query)) ∧
  (mq_sort query = None → search_skills query = List.filter (market_match query) get_mock_marketplace_skills).
Proof.
  unfold search_skills. split_and!.
  - destruct (mq_sort query); [|done]. by repeat (case_bool_decide; [apply sort_by_perm|]).
  - intros ->. rewrite bool_decide_true by done. eapply (sorted_impl (λ a b, more_downloads a b = true)); [|apply sort_by_sorted].
    + unfold more_downloads. intros a b. by rewrite bool_decide_eq_true.
    + unfold more_downloads. intros a b. rewrite !bool_decide_eq_true. lia.
    + unfold more_downloads. intros a b c. rewrite !bool_decide_eq_true. lia.
  - by intros ->.
Qed.

(** Installing a skill of the market twice makes two skills of it. *)
Theorem installed_twice uuid1 uuid2 now s id m :
  market_skill id = Some m → uuid1 ≠ uuid2 →
  let s1 := (gw_install_skill uuid1 now s id None).1 in
  let s2 := (gw_install_skill uuid2 now s1 id None).1 in
  gk_name <$> st_skills s2 !! uuid1 = Some (ms_name m) ∧ gk_name <$> st_skills s2 !! uuid2 = Some (ms_name m).
Proof.
  intros Hm Hn. unfold gw_install_skill. rewrite Hm. simpl. split; [|by rewrite lookup_insert_eq].
  by rewrite lookup_insert_ne, lookup_insert_eq by done.
Qed.
End StoreFacts.
