(* ===== verification/Tools.v ===== *)
(** Tools ([crates/uhorse-tool/src]): who may call one ([permission.rs] and the trait
    of [uhorse-core/src/traits.rs]), the errors and their codes, the registry ([registry.rs]), the built-in tools
    ([tools.rs], [executor.rs]), and plugins as processes ([plugin.rs]). *)
From Stdlib Require Import SpecFloat.
From S2P Require Import Prelude Text Float32 Json Paths Workspace Permission Planner Versioning AgentFiles.

(** ** Errors ([uhorse-core/src/error.rs], [types.rs]) *)

Inductive ToolPermissionLevel := LevelPublic | LevelAuthenticated | LevelTrusted | LevelAdmin.
Definition permission_level_rank (l : ToolPermissionLevel) : nat :=
  match l with LevelPublic => 0 | LevelAuthenticated => 1 | LevelTrusted => 2 | LevelAdmin => 3 end.
Definition level_debug (l : ToolPermissionLevel) : string :=
  match l with LevelPublic => "Public" | LevelAuthenticated => "Authenticated" | LevelTrusted => "Trusted" | LevelAdmin => "Admin" end.
Inductive ErrorCode :=
| CodeUnknown | CodeInternalError | CodeNotImplemented | CodeInvalidMessage | CodeUnsupportedVersion | CodeHandshakeFailed
| CodeUnauthorized | CodeTokenExpired | CodeInvalidToken | CodeDeviceNotPaired | CodeSessionNotFound | CodeSessionExpired
| CodeSessionIsolated | CodeToolNotFound | CodeToolPermissionDenied | CodeToolValidationFailed | CodeToolExecutionFailed
| CodeJobNotFound | CodeJobExecutionFailed | CodeScheduleConflict | CodeIdempotencyConflict | CodeIdempotencyKeyExpired.
#[export] Instance ErrorCode_eq_dec : EqDecision ErrorCode.
Proof. solve_decision. Defined.
(** The numbers they are written with. *)
Definition code_number (c : ErrorCode) : Z :=
  match c with
  | CodeUnknown => 1 | CodeInternalError => 2 | CodeNotImplemented => 3 | CodeInvalidMessage => 100 | CodeUnsupportedVersion => 101
  | CodeHandshakeFailed => 102 | CodeUnauthorized => 200 | CodeTokenExpired => 201 | CodeInvalidToken => 202
  | CodeDeviceNotPaired => 203 | CodeSessionNotFound => 300 | CodeSessionExpired => 301 | CodeSessionIsolated => 302
  | CodeToolNotFound => 400 | CodeToolPermissionDenied => 401 | CodeToolValidationFailed => 402 | CodeToolExecutionFailed => 403
  | CodeJobNotFound => 500 | CodeJobExecutionFailed => 501 | CodeScheduleConflict => 502 | CodeIdempotencyConflict => 600
  | CodeIdempotencyKeyExpired => 601
  end%Z.
Inductive ErrorCategory := General | Protocol | Auth | Session | Tool | Scheduler | Idempotency.
Definition code_category (c : ErrorCode) : ErrorCategory :=
  match c with
  | CodeUnknown | CodeInternalError | CodeNotImplemented => General
  | CodeInvalidMessage | CodeUnsupportedVersion | CodeHandshakeFailed => Protocol
  | CodeUnauthorized | CodeTokenExpired | CodeInvalidToken | CodeDeviceNotPaired => Auth
  | CodeSessionNotFound | CodeSessionExpired | CodeSessionIsolated => Session
  | CodeToolNotFound | CodeToolPermissionDenied | CodeToolValidationFailed | CodeToolExecutionFailed => Tool
  | CodeJobNotFound | CodeJobExecutionFailed | CodeScheduleConflict => Scheduler
  | CodeIdempotencyConflict | CodeIdempotencyKeyExpired => Idempotency
  end.
Definition code_is_client (c : ErrorCode) : bool :=
  match c with
  | CodeInvalidMessage | CodeUnauthorized | CodeTokenExpired | CodeInvalidToken | CodeDeviceNotPaired | CodeSessionNotFound
  | CodeToolNotFound | CodeToolPermissionDenied | CodeToolValidationFailed => true
  | _ => false
  end.
Definition code_is_server (c : ErrorCode) : bool := negb (code_is_client c).

Inductive CoreChannelError :=
| SendFailed (e : string) | VerificationFailed | RateLimited | ChannelConfigError (e : string) | ConnectionLost
| ChannelTimeout | ChannelConnectionError (e : string) | ChannelInvalidResponse (e : string).
Inductive PluginError :=
| PluginNotFound (name : string) | MethodNotFound (name : string) | PluginTimeout | PluginCrashed
| InitFailed (e : string) | InvalidResponse (e : string).
Inductive CoreStorageError :=
| DatabaseError (e : string) | MigrationError (e : string) | StorageConnectionError (e : string) | QueryError (e : string)
| TransactionError (e : string) | RecordNotFound (e : string).
Inductive UHorseError :=
| SessionNotFound (id : string) | SessionExpired (id : string) | SessionIsolated (id : string) | ToolNotFound (id : string)
| PermissionDenied (id : string) (level : ToolPermissionLevel) | ToolExecutionFailed (e : string) | ToolValidationFailed (e : string)
| OfChannel (e : CoreChannelError) | OfPlugin (e : PluginError) | JobNotFound (id : string) | JobExecutionFailed (e : string)
| ScheduleConflict (e : string) | AuthFailed (e : string) | TokenExpired | InvalidToken | DeviceNotPaired (id : string)
| ProtocolError (e : string) | InvalidMessage (e : string) | UnsupportedVersion (v : string) | OfStorage (e : CoreStorageError)
| ConfigError (e : string) | IdempotencyConflict (key : string) | IdempotencyKeyExpired (key : string)
| SerializationError (e : string) | InternalError (e : string) | NotImplemented (e : string).
Definition ChannelError_code (e : CoreChannelError) : ErrorCode :=
  match e with VerificationFailed => CodeUnauthorized | _ => CodeInternalError end.
Definition PluginError_code (e : PluginError) : ErrorCode :=
  match e with PluginNotFound _ | MethodNotFound _ => CodeToolNotFound | _ => CodeToolExecutionFailed end.
Definition StorageError_code (e : CoreStorageError) : ErrorCode :=
  match e with RecordNotFound _ => CodeSessionNotFound | _ => CodeInternalError end.
Definition UHorseError_code (e : UHorseError) : ErrorCode :=
  match e with
  | SessionNotFound _ => CodeSessionNotFound | SessionExpired _ => CodeSessionExpired | SessionIsolated _ => CodeSessionIsolated
  | ToolNotFound _ => CodeToolNotFound | PermissionDenied _ _ => CodeToolPermissionDenied
  | ToolValidationFailed _ => CodeToolValidationFailed | ToolExecutionFailed _ => CodeToolExecutionFailed
  | OfChannel e => ChannelError_code e | OfPlugin e => PluginError_code e | JobNotFound _ => CodeJobNotFound
  | JobExecutionFailed _ => CodeJobExecutionFailed | ScheduleConflict _ => CodeScheduleConflict | AuthFailed _ => CodeUnauthorized
  | TokenExpired => CodeTokenExpired | InvalidToken => CodeInvalidToken | DeviceNotPaired _ => CodeDeviceNotPaired
  | ProtocolError _ => CodeInvalidMessage | InvalidMessage _ => CodeInvalidMessage | UnsupportedVersion _ => CodeUnsupportedVersion
  | OfStorage e => StorageError_code e | IdempotencyConflict _ => CodeIdempotencyConflict
  | IdempotencyKeyExpired _ => CodeIdempotencyKeyExpired | InternalError _ => CodeInternalError
  | NotImplemented _ => CodeNotImplemented | ConfigError _ => CodeInternalError | SerializationError _ => CodeInternalError
  end.
Definition error_is_client (e : UHorseError) : bool := code_is_client (UHorseError_code e).
Definition error_is_server (e : UHorseError) : bool := code_is_server (UHorseError_code e).
Definition CoreChannelError_display (e : CoreChannelError) : string :=
  match e with
  | SendFailed e => "Send failed: " +:+ e | VerificationFailed => "Verification failed" | RateLimited => "Rate limited"
  | ChannelConfigError e => "Configuration error: " +:+ e | ConnectionLost => "Connection lost" | ChannelTimeout => "Timeout"
  | ChannelConnectionError e => "Connection error: " +:+ e | ChannelInvalidResponse e => "Invalid response: " +:+ e
  end.
Definition PluginError_display (e : PluginError) : string :=
  match e with
  | PluginNotFound e => "Plugin not found: " +:+ e | MethodNotFound e => "Method not found: " +:+ e
  | PluginTimeout => "Execution timeout" | PluginCrashed => "Plugin crashed" | InitFailed e => "Initialization failed: " +:+ e
  | InvalidResponse e => "Invalid response: " +:+ e
  end.
Definition CoreStorageError_display (e : CoreStorageError) : string :=
  match e with
  | DatabaseError e => "Database error: " +:+ e | MigrationError e => "Migration failed: " +:+ e
  | StorageConnectionError e => "Connection error: " +:+ e | QueryError e => "Query error: " +:+ e
  | TransactionError e => "Transaction error: " +:+ e | RecordNotFound e => "Record not found: " +:+ e
  end.
Definition UHorseError_display (e : UHorseError) : string :=
  match e with
  | SessionNotFound id => "Session not found: " +:+ id | SessionExpired id => "Session expired: " +:+ id
  | SessionIsolated id => "Session isolated: " +:+ id | ToolNotFound id => "Tool not found: " +:+ id
  | PermissionDenied id level => "Tool permission denied for " +:+ id +:+ ": requires " +:+ level_debug level
  | ToolExecutionFailed e => "Tool execution failed: " +:+ e | ToolValidationFailed e => "Tool validation failed: " +:+ e
  | OfChannel e => "Channel error: " +:+ CoreChannelError_display e | OfPlugin e => "Plugin error: " +:+ PluginError_display e
  | JobNotFound id => "Job not found: " +:+ id | JobExecutionFailed e => "Job execution failed: " +:+ e
  | ScheduleConflict e => "Schedule conflict: " +:+ e | AuthFailed e => "Authentication failed: " +:+ e
  | TokenExpired => "Token expired" | InvalidToken => "Invalid token" | DeviceNotPaired id => "Device not paired: " +:+ id
  | ProtocolError e => "Protocol error: " +:+ e | InvalidMessage e => "Invalid message format: " +:+ e
  | UnsupportedVersion e => "Unsupported version: " +:+ e | OfStorage e => "Storage error: " +:+ CoreStorageError_display e
  | ConfigError e => "Configuration error: " +:+ e | IdempotencyConflict key => "Idempotency conflict: " +:+ key
  | IdempotencyKeyExpired key => "Idempotency key expired: " +:+ key | SerializationError e => "Serialization error: " +:+ e
  | InternalError e => "Internal error: " +:+ e | NotImplemented e => "Not implemented: " +:+ e
  end.
Abbreviation ToolResultOf T := (Result T UHorseError).
Record ToolContext := MkToolContext {
  xc_session_id : string; xc_user_id : option string; xc_device_id : option string; xc_scopes : list string }.

(** ** Who may call a tool *)

Definition known_caller (c : ToolContext) : bool := bool_decide (is_Some (xc_user_id c)) || bool_decide (is_Some (xc_device_id c)).
Definition PermissionChecker_check (required : ToolPermissionLevel) (c : ToolContext) : ToolResultOf unit :=
  match required with
  | LevelPublic => Ok tt
  | LevelAuthenticated => if known_caller c then Ok tt else Err (AuthFailed "Authentication required")
  | LevelTrusted =>
      if bool_decide ("trusted" ∈ xc_scopes c) then Ok tt else Err (PermissionDenied "unknown" LevelTrusted)
  | LevelAdmin => if bool_decide ("admin" ∈ xc_scopes c) then Ok tt else Err (PermissionDenied "unknown" LevelAdmin)
  end.
(** What a tool does by itself, unless it says otherwise; none does. *)
Definition default_check_permission (level : ToolPermissionLevel) (c : ToolContext) : ToolResultOf unit :=
  if bool_decide (0 < permission_level_rank level) && negb (known_caller c) then Err (AuthFailed "Authentication required") else Ok tt.

(** ** Numbers *)

(** [n / d], correctly rounded, for any sizes. *)
Definition f64_ratio (negative : bool) (n d : positive) : f64 :=
  let '(q, e, l) := SFdiv_core_binary 53 1024 (Zpos n) 0 (Zpos d) 0 in
  binary_round_aux 53 1024 negative q e l.
(** [n * 10 ^ e]. *)
Definition f64_decimal (negative : bool) (n e : Z) : f64 :=
  match n with
  | Zpos p => if bool_decide (0 ≤ e)%Z then f64_ratio negative (Z.to_pos (n * 10 ^ e)) 1
              else f64_ratio negative p (Z.to_pos (10 ^ (- e)))
  | _ => S754_zero negative
  end.
Fixpoint span_decimal (s : string) : string * string :=
  match s with
  | String c r => let n := byte_of c in
                  if bool_decide (48 ≤ n ≤ 57) then let '(a, b) := span_decimal r in (String c a, b) else ("", s)
  | EmptyString => ("", "")
  end.
Fixpoint decimal_value (acc : Z) (s : string) : Z :=
  match s with String c r => decimal_value (10 * acc + (Z.of_nat (byte_of c) - 48)) r | EmptyString => acc end.
Definition take_sign (s : string) : bool * string :=
  match s with
  | String c r => if bool_decide (c = "-"%char) then (true, r) else if bool_decide (c = "+"%char) then (false, r) else (false, s)
  | EmptyString => (false, s)
  end.
Definition parse_exponent (s : string) : option Z :=
  match s with
  | EmptyString => Some 0%Z
  | String c r =>
      if bool_decide (c = "e"%char ∨ c = "E"%char) then
        let '(negative, r) := take_sign r in
        let '(digits, rest) := span_decimal r in
        if bool_decide (digits ≠ "") && bool_decide (rest = "") then
          Some (if negative then - decimal_value 0 digits else decimal_value 0 digits)%Z
        else None
      else None
  end.
(** [str::parse::<f64>]. *)
Definition parse_f64 (s : string) : option f64 :=
  let '(negative, s) := take_sign s in
  if bool_decide (ascii_lower s = "inf" ∨ ascii_lower s = "infinity") then Some (S754_infinity negative)
  else if bool_decide (ascii_lower s = "nan") then Some S754_nan
  else
    let '(whole, rest) := span_decimal s in
    let '(fraction, rest) :=
      match rest with
      | String c r => if bool_decide (c = "."%char) then span_decimal r else ("", rest)
      | EmptyString => ("", rest)
      end in
    if bool_decide (whole +:+ fraction = "") then None
    else (λ e, f64_decimal negative (decimal_value 0 (whole +:+ fraction)) (e - Z.of_nat (String.length fraction))) <$> parse_exponent rest.

(** ** Built-in tools *)

(** Arrays and numbers beside what [JsonShape] has; a text is no array, and the
    value at a key that is not there is neither. *)
Class ToolJson `{JsonShape} := {
  json_array : list Value → Value;
  json_f64 : f64 → Value;
  json_int : Z → Value;
  as_str_no_array : ∀ v s, as_str v = Some s → as_array v = None
}.
Class ToUppercase := to_uppercase : string → string.
(** Dates of RFC 3339: the text, the seconds, and the text in a format, which panics
    ([None]) when the format is none. *)
Class ToolDates := {
  date : Type;
  date_parse : string → option date;
  date_text : date → string;
  date_unix : date → Z;
  date_format : string → date → option string
}.

Section Values.
Context `{ToolJson}.
(** [params[key]] as a text. *)
Definition param_str (params : Value) (key : string) : option string := get params key ≫= as_str.
Definition need_str (params : Value) (key message : string) : ToolResultOf string :=
  ok_or (param_str params key) (ToolValidationFailed message).
End Values.

(** *** The calculator *)

Definition is_blank_char (c : Ascii.ascii) : bool := Ascii.eqb c " ".
Fixpoint drop_blanks (s : string) : string :=
  match s with
  | EmptyString => EmptyString
  | String c r => if is_blank_char c then drop_blanks r else String c (drop_blanks r)
  end.
Definition f64_minus (x y : f64) : f64 := SFsub 53 1024 x y.
Definition is_zero (x : f64) : bool := match x with S754_zero _ => true | _ => false end.
(** The first of [+], [-], [*] and [/] that occurs at all decides, and its first
    place. *)
Definition OPERATORS : list (Ascii.ascii * (f64 → f64 → Result f64 string)) :=
  [("+"%char, λ x y, Ok (f64_add x y)); ("-"%char, λ x y, Ok (f64_minus x y)); ("*"%char, λ x y, Ok (f64_mul x y));
   ("/"%char, λ x y, if is_zero y then Err "Division by zero" else Ok (f64_div x y))].
Fixpoint evaluate_with (ops : list (Ascii.ascii * (f64 → f64 → Result f64 string))) (expr : string) : Result f64 string :=
  match ops with
  | [] => ok_or (parse_f64 expr) "Invalid expression"
  | (c, f) :: ops =>
      match split_at_char c expr with
      | Some (a, b) =>
          let? x := ok_or (parse_f64 a) "Invalid left operand" in
          let? y := ok_or (parse_f64 b) "Invalid right operand" in
          f x y
      | None => evaluate_with ops expr
      end
  end.
Definition evaluate_expression (expr : string) : Result f64 string := evaluate_with OPERATORS (drop_blanks expr).

(** *** Characters of a text *)

Fixpoint text_chars (s : string) : list string :=
  match s with
  | EmptyString => []
  | String c r =>
      match text_chars r with
      | ch :: l => match ch with
                   | String d _ => if is_continuation d then String c ch :: l else String c "" :: ch :: l
                   | EmptyString => [String c ""]
                   end
      | [] => [String c ""]
      end
  end.
Definition reverse_text (s : string) : string := str_concat (reverse (text_chars s)).
(** [str::split]: an empty separator is found around every character. *)
Definition split_by (sep s : string) : list string :=
  if bool_decide (sep = "") then "" :: text_chars s ++ [""] else split_text sep s.

(** *** The tools *)

Record ToolExecutor `{JsonValue} := MkToolExecutor {
  te_id : string; te_name : string; te_level : ToolPermissionLevel;
  te_execute : Value → ToolContext → option (ToolResultOf Value) }.
(** What a request of the HTTP tool ends in: an error in sending it, or the status,
    the headers that are texts, and the body or an error in reading it.  Of equal
    names of headers the last counts. *)
Inductive http_end := HttpNotSent (e : string) | HttpAnswered (status : Z) (headers : list (string * string)) (body : Result string string).
Class ToolHttp `{JsonValue} := tool_http : string → string → list (string * string) → option Value → http_end.

Section Builtins.
Context `{ToolJson, ToolDates, ToLowercase, ToUppercase, !ToolHttp}.
Implicit Types (params : Value) (c : ToolContext).

Definition calculator_execute params c : option (ToolResultOf Value) :=
  Some (let? expr := need_str params "expression" "Missing 'expression' parameter" in
        match evaluate_expression expr with
        | Ok x => Ok (json_object [("expression", json_string expr); ("result", json_f64 x)])
        | Err e => Err (ToolExecutionFailed ("Calculation error: " +:+ e))
        end).
Definition HTTP_METHODS : list string := ["GET"; "POST"; "PUT"; "DELETE"].
Definition http_execute params c : option (ToolResultOf Value) :=
  Some (let? url := need_str params "url" "Missing 'url' parameter" in
        let? method := need_str params "method" "Missing 'method' parameter" in
        if bool_decide (method ∈ HTTP_METHODS) then
          let headers := omap (λ kv, (λ t, (kv.1, t)) <$> as_str kv.2) (default [] (get params "headers" ≫= as_object)) in
          match tool_http method url headers (get params "body") with
          | HttpNotSent e => Err (ToolExecutionFailed ("HTTP request failed: " +:+ e))
          | HttpAnswered status headers (Err e) => Err (ToolExecutionFailed ("Failed to read response: " +:+ e))
          | HttpAnswered status headers (Ok body) =>
              Ok (json_object [("status", json_int status);
                    ("headers", json_object (prod_map id json_string <$> map_to_list (list_to_map (reverse headers) : gmap string string))); ("body", json_string body)])
          end
        else Err (ToolValidationFailed "Invalid HTTP method")).
(** Nothing is searched. *)
Definition search_execute params c : option (ToolResultOf Value) :=
  Some (let? query := need_str params "query" "Missing 'query' parameter" in
        Ok (json_object [("query", json_string query); ("results", json_array []); ("note", json_string "Search API integration pending")])).
Definition datetime_execute (now : date) params c : option (ToolResultOf Value) :=
  let action := default "now" (param_str params "action") in
  if bool_decide (action = "now") then
    Some (Ok (json_object [("iso", json_string (date_text now)); ("timestamp", json_int (date_unix now)); ("unix", json_int (date_unix now))]))
  else if bool_decide (action = "parse") then
    Some (let? input := need_str params "input" "Missing 'input' for parse" in
          Ok (match date_parse input with
              | Some d => json_object [("parsed", json_string (date_text d)); ("timestamp", json_int (date_unix d))]
              | None => json_object [("error", json_string "Unable to parse date"); ("input", json_string input)]
              end))
  else if bool_decide (action = "format") then
    match need_str params "input" "Missing 'input' for format" with
    | Err e => Some (Err e)
    | Ok input =>
        match date_parse input with
        | Some d =>
            (λ t, Ok (json_object [("formatted", json_string t)])) <$> date_format (default "%Y-%m-%d %H:%M:%S" (param_str params "format")) d
        | None => Some (Ok (json_object [("error", json_string "Unable to parse date for formatting")]))
        end
    end
  else Some (Err (ToolValidationFailed ("Unknown action: " +:+ action))).
Definition text_action (action text : string) params : ToolResultOf Value :=
  let separator := default " " (param_str params "separator") in
  let result (t : string) := json_object [("result", json_string t)] in
  if bool_decide (action = "count") then Ok (json_object [("count", json_int (zlen (text_chars text)))])
  else if bool_decide (action = "split") then Ok (json_object [("parts", json_array (json_string <$> split_by separator text))])
  else if bool_decide (action = "join") then
    Ok (match get params "text" ≫= as_array with
        | Some l => result (str_join separator (omap as_str l))
        | None => json_object [("error", json_string "text must be an array for join")]
        end)
  else if bool_decide (action = "upper") then Ok (result (to_uppercase text))
  else if bool_decide (action = "lower") then Ok (result (to_lowercase text))
  else if bool_decide (action = "reverse") then Ok (result (reverse_text text))
  else Err (ToolValidationFailed ("Unknown action: " +:+ action)).
Definition text_execute params c : option (ToolResultOf Value) :=
  Some (let? action := need_str params "action" "Missing 'action' parameter" in
        let? text := need_str params "text" "Missing 'text' parameter" in
        text_action action text params).
(** The weather is the same everywhere. *)
Definition weather_execute params c : option (ToolResultOf Value) :=
  Some (Ok (json_object [("city", json_string (default "Unknown" (param_str params "city"))); ("temperature", json_int 25);
                         ("condition", json_string "Sunny")])).

Definition CalculatorTool : ToolExecutor := MkToolExecutor _ "calculator" "calculator" LevelPublic calculator_execute.
Definition HttpTool : ToolExecutor := MkToolExecutor _ "http" "http" LevelAuthenticated http_execute.
Definition SearchTool : ToolExecutor := MkToolExecutor _ "search" "search" LevelPublic search_execute.
Definition DatetimeTool (now : date) : ToolExecutor := MkToolExecutor _ "datetime" "datetime" LevelPublic (datetime_execute now).
Definition TextTool : ToolExecutor := MkToolExecutor _ "text" "text" LevelPublic text_execute.
Definition WeatherTool : ToolExecutor := MkToolExecutor _ "weather" "weather" LevelPublic weather_execute.

(** ** The registry *)

Abbreviation ToolRegistry := (gmap string ToolExecutor).
Definition register_tool (r : ToolRegistry) (t : ToolExecutor) : ToolRegistry := <[te_id t := t]> r.
Definition unregister_tool (r : ToolRegistry) (id : string) : ToolRegistry := delete id r.
(** Nothing is given out and nothing listed. *)
Definition get_tool (r : ToolRegistry) (id : string) : option ToolExecutor := None.
Definition list_tools (r : ToolRegistry) : list ToolExecutor := [].
(** [None] is a panic of the tool. *)
Definition call_tool (r : ToolRegistry) (id : string) params c : option (ToolResultOf Value) :=
  match r !! id with Some t => te_execute t params c | None => Some (Err (ToolNotFound id)) end.
End Builtins.

(** ** Plugins ([plugin.rs]) *)

Record SandboxConfig := MkSandboxConfig {
  bx_enabled : bool; bx_memory_limit_mb : option nat; bx_cpu_limit_percent : option nat; bx_timeout_seconds : option Z;
  bx_allow_network : bool; bx_allowed_paths : list path }.
Definition SandboxConfig_default : SandboxConfig := MkSandboxConfig true (Some 512) (Some 50) (Some 30%Z) false [].
Record PluginConfig := MkPluginConfig {
  pg_name : string; pg_executable : path; pg_working_dir : option path; pg_env_vars : gmap string string; pg_sandbox : SandboxConfig }.
(** A plugin and the process that was started for it, by its number. *)
Record ProcessPlugin := MkProcessPlugin { pn_config : PluginConfig; pn_child : option nat }.
Definition ProcessPlugin_new (c : PluginConfig) : ProcessPlugin := MkProcessPlugin c None.
Record PluginRuntime := MkPluginRuntime { pt_plugins : gmap string ProcessPlugin; pt_sandbox : SandboxConfig }.

(** How a process that is asked something with arguments ends. *)
Inductive plugin_end := PluginNotRun (e : string) | PluginExited (success : bool) (stdout stderr : string).
(** Whether a process of the plugin cannot be started, and what one with arguments
    answers; the text of a request; a response is a result and an error message, each
    if there is one, or not a response. *)
Class PluginWorld `{JsonValue} := {
  spawn_fault : PluginConfig → option string;
  plugin_run : PluginConfig → list string → plugin_end;
  request_text : string → Value → Result string string;
  response_of : string → Result (option Value * option string) string
}.

Section Plugins.
Context `{PluginWorld, HashOrder}.
Implicit Types (p : ProcessPlugin) (r : PluginRuntime) (running : gset nat).

(** Processes that run; a process that is replaced is not ended. *)
Definition plugin_initialize (pid : nat) running p : gset nat * Result ProcessPlugin PluginError :=
  match spawn_fault (pn_config p) with
  | Some e => (running, Err (InitFailed ("Failed to spawn plugin process: " +:+ e)))
  | None => ({[pid]} ∪ running, Ok (MkProcessPlugin (pn_config p) (Some pid)))
  end.
(** Every call starts a process of its own. *)
Definition plugin_call p (method : string) (params : Value) : Result Value PluginError :=
  match request_text method params with
  | Err e => Err (InvalidResponse ("Failed to serialize request: " +:+ e))
  | Ok request =>
      match plugin_run (pn_config p) ["--method"; method; "--request"; request] with
      | PluginNotRun e => Err (InvalidResponse ("Failed to execute plugin: " +:+ e))
      | PluginExited false _ stderr => Err (InvalidResponse ("Plugin execution failed: " +:+ stderr))
      | PluginExited true stdout _ =>
          match response_of stdout with
          | Err e => Err (InvalidResponse ("Failed to parse plugin response: " +:+ e))
          | Ok (_, Some message) => Err (InvalidResponse message)
          | Ok (Some v, None) => Ok v
          | Ok (None, None) => Err (InvalidResponse "Empty result")
          end
      end
  end.
Definition plugin_shutdown running p : gset nat * ProcessPlugin :=
  match pn_child p with Some pid => (running ∖ {[pid]}, MkProcessPlugin (pn_config p) None) | None => (running, p) end.
Definition plugin_health p : Result unit PluginError :=
  match pn_child p with
  | Some _ => match plugin_call p "ping" (json_object []) with Ok _ => Ok tt | Err e => Err e end
  | None => Err PluginCrashed
  end.

Definition PluginRuntime_new : PluginRuntime := MkPluginRuntime ∅ SandboxConfig_default.
Definition with_sandbox_config (c : SandboxConfig) r : PluginRuntime := MkPluginRuntime (pt_plugins r) c.
Definition register_plugin r (c : PluginConfig) : PluginRuntime :=
  MkPluginRuntime (<[pg_name c := ProcessPlugin_new c]> (pt_plugins r)) (pt_sandbox r).
(** In the order of the hash map, up to the first that cannot be started; new
    processes are numbered from [pid] on. *)
Fixpoint initialize_each (pid : nat) running (entries : list (string * ProcessPlugin)) (done : gmap string ProcessPlugin)
    : gset nat * gmap string ProcessPlugin * ToolResultOf unit :=
  match entries with
  | [] => (running, done, Ok tt)
  | (name, p) :: entries =>
      match plugin_initialize pid running p with
      | (running, Err e) => (running, done, Err (OfPlugin e))
      | (running, Ok p) => initialize_each (S pid) running entries (<[name := p]> done)
      end
  end.
Definition initialize_all (pid : nat) running r : gset nat * PluginRuntime * ToolResultOf unit :=
  let '(running, plugins, answer) := initialize_each pid running (hash_order (pt_plugins r)) (pt_plugins r) in
  (running, MkPluginRuntime plugins (pt_sandbox r), answer).
Definition runtime_call r (name method : string) (params : Value) : ToolResultOf Value :=
  match pt_plugins r !! name with
  | None => Err (OfPlugin (PluginNotFound name))
  | Some p => match plugin_call p method params with Ok v => Ok v | Err e => Err (OfPlugin e) end
  end.
Fixpoint shutdown_each running (entries : list (string * ProcessPlugin)) (done : gmap string ProcessPlugin)
    : gset nat * gmap string ProcessPlugin :=
  match entries with
  | [] => (running, done)
  | (name, p) :: entries =>
      let '(running, p) := plugin_shutdown running p in shutdown_each running entries (<[name := p]> done)
  end.
Definition shutdown_all running r : gset nat * PluginRuntime :=
  let '(running, plugins) := shutdown_each running (hash_order (pt_plugins r)) (pt_plugins r) in
  (running, MkPluginRuntime plugins (pt_sandbox r)).
Definition health_check_all r : gmap string (Result unit PluginError) := plugin_health <$> pt_plugins r.
End Plugins.

(** *** The sandbox *)

(** The variables that are set for a process. *)
Definition apply_to_command (c : SandboxConfig) (env : gmap string string) : gmap string string :=
  if bx_enabled c then <["OPENCLAW_SANDBOX" := "1"]> env else env.
Definition validate_path_access `{PathTexts} (c : SandboxConfig) (p : path) : ToolResultOf unit :=
  if negb (bx_enabled c) || existsb (path_starts_with p) (bx_allowed_paths c) then Ok tt
  else Err (InternalError ("Path access denied: " +:+ path_debug p)).
Definition validate_network_access (c : SandboxConfig) : ToolResultOf unit :=
  if negb (bx_enabled c) || bx_allow_network c then Ok tt else Err (InternalError "Network access denied by sandbox policy").

(** * Theorems *)

(** ** Errors *)

(** The numbers tell the codes apart, and their hundreds are the categories. *)
Theorem code_number_category c d :
  (code_number c = code_number d ↔ c = d) ∧
  code_category c = nth (Z.to_nat (code_number c / 100)) [General; Protocol; Auth; Session; Tool; Scheduler; Idempotency] General.
Proof. split; [split; [by destruct c, d|by intros ->]|by destruct c]. Qed.
(** Two codes stand for no error of the program. *)
Theorem codes_of_errors c : (∃ e, UHorseError_code e = c) ↔ c ≠ CodeUnknown ∧ c ≠ CodeHandshakeFailed.
Proof.
  split; [intros [e <-]; by destruct e as [| | | | | | |[]|[]| | | | | | | | | | |[]| | | | | | ]|].
  intros [? ?]. exists (match c with
    | CodeNotImplemented => NotImplemented "" | CodeInvalidMessage => InvalidMessage "" | CodeUnsupportedVersion => UnsupportedVersion ""
    | CodeUnauthorized => AuthFailed "" | CodeTokenExpired => TokenExpired | CodeInvalidToken => InvalidToken
    | CodeDeviceNotPaired => DeviceNotPaired "" | CodeSessionNotFound => SessionNotFound "" | CodeSessionExpired => SessionExpired ""
    | CodeSessionIsolated => SessionIsolated "" | CodeToolNotFound => ToolNotFound ""
    | CodeToolPermissionDenied => PermissionDenied "" LevelPublic | CodeToolValidationFailed => ToolValidationFailed ""
    | CodeToolExecutionFailed => ToolExecutionFailed "" | CodeJobNotFound => JobNotFound "" | CodeJobExecutionFailed => JobExecutionFailed ""
    | CodeScheduleConflict => ScheduleConflict "" | CodeIdempotencyConflict => IdempotencyConflict ""
    | CodeIdempotencyKeyExpired => IdempotencyKeyExpired "" | _ => InternalError ""
    end). by destruct c.
Qed.
(** Whose fault an error is: a record that storage does not have is blamed on the
    client as a session that is not there, while a version that is not supported, an
    expired session, a job that is not there and a key used twice are blamed on the
    server. *)
Theorem client_errors e :
  error_is_client e = true ↔
  match e with
  | SessionNotFound _ | ToolNotFound _ | PermissionDenied _ _ | ToolValidationFailed _ | AuthFailed _ | TokenExpired | InvalidToken
  | DeviceNotPaired _ | ProtocolError _ | InvalidMessage _ | OfChannel VerificationFailed
  | OfPlugin (PluginNotFound _ | MethodNotFound _) | OfStorage (RecordNotFound _) => True
  | _ => False
  end.
Proof. by destruct e as [| | | | | | |[]|[]| | | | | | | | | | |[]| | | | | | ]. Qed.

(** ** Who may call *)

(** The two checks agree below the trusted level and are unrelated above it: scopes
    need no known caller for the one, and a known caller needs no scope for the
    other. *)
Theorem checks_compared level c :
  (is_ok (PermissionChecker_check level c) = true ↔
   match level with
   | LevelPublic => True
   | LevelAuthenticated => known_caller c = true
   | LevelTrusted => "trusted" ∈ xc_scopes c
   | LevelAdmin => "admin" ∈ xc_scopes c
   end) ∧
  (is_ok (default_check_permission level c) = true ↔ level = LevelPublic ∨ known_caller c = true).
Proof.
  unfold default_check_permission. destruct level; simpl; split; repeat case_bool_decide; destruct (known_caller c); simpl;
    try lia; naive_solver.
Qed.
Theorem checks_disagree :
  let anonymous := MkToolContext "s" None None ["admin"] in
  let user := MkToolContext "s" (Some "u") None [] in
  is_ok (PermissionChecker_check LevelAdmin anonymous) = true ∧ is_ok (default_check_permission LevelAdmin anonymous) = false ∧
  is_ok (PermissionChecker_check LevelAdmin user) = false ∧ is_ok (default_check_permission LevelAdmin user) = true ∧
  is_ok (PermissionChecker_check LevelTrusted anonymous) = false.
Proof. by vm_compute. Qed.

(** ** The calculator *)

(** A number without sign and exponent. *)
Definition plain_number (s : string) : Prop :=
  str_forallb (λ c, let n := byte_of c in bool_decide (48 ≤ n ≤ 57) || Ascii.eqb c ".") s = true.
Lemma plain_number_no c s : (byte_of c < 46 ∨ byte_of c = 47) → plain_number s → str_forallb (λ d, negb (Ascii.eqb d c)) s = true.
Proof.
  intros Hc. unfold plain_number. induction s as [|d s IH]; [done|]. simpl. intros [Hd Hs]%andb_prop. rewrite (IH Hs), andb_true_r.
  apply negb_true_iff, Ascii.eqb_neq. intros ->. apply orb_prop in Hd as [Hd|Hd].
  - apply bool_decide_eq_true in Hd. lia.
  - apply Ascii.eqb_eq in Hd as ->. by vm_compute in Hc; lia.
Qed.
Lemma drop_blanks_app a b : drop_blanks (a +:+ b) = drop_blanks a +:+ drop_blanks b.
Proof. induction a as [|c a IH]; [done|]. simpl. destruct (is_blank_char c); [done|]. by rewrite str_app_cons, IH. Qed.
Lemma drop_blanks_plain s : plain_number s → drop_blanks s = s.
Proof.
  intros Hs. pose proof (plain_number_no " " s ltac:(left; vm_compute; lia) Hs) as Hb. revert Hb. clear.
  induction s as [|c s IH]; [done|]. simpl. intros [Hc%negb_true_iff Hs]%andb_prop. unfold is_blank_char. by rewrite Hc, IH.
Qed.

(** Two numbers and an operator, with or without blanks around it, have the value
    of the operation in double precision. *)
Theorem simple_operation_exact (op : Ascii.ascii) f a b x y :
  (op, f) ∈ OPERATORS → plain_number a → plain_number b → parse_f64 a = Some x → parse_f64 b = Some y →
  evaluate_expression (a +:+ String op b) = f x y ∧ evaluate_expression (a +:+ " " +:+ String op (" " +:+ b)) = f x y.
Proof.
  intros Hop Ha Hb Hx Hy.
  assert (evaluate_with OPERATORS (a +:+ String op b) = f x y) as E.
  { assert (∀ c, (byte_of c < 46 ∨ byte_of c = 47) → c ≠ op → split_at_char c (a +:+ String op b) = None) as Habs.
    { intros c Hc Hne. apply split_at_absent. rewrite str_forallb_app, (plain_number_no c a) by done. simpl.
      rewrite (plain_number_no c b) by done. rewrite andb_true_r. by apply negb_true_iff, Ascii.eqb_neq. }
    unfold OPERATORS in *. rewrite !elem_of_cons in Hop. cbn [evaluate_with].
    destruct Hop as [[= -> ->]|[[= -> ->]|[[= -> ->]|[[= -> ->]|[]%elem_of_nil]]]].
    all: repeat (rewrite Habs by (first [done | vm_compute; lia])).
    all: rewrite split_at_first by (apply plain_number_no; [vm_compute; lia|done]); by rewrite Hx, Hy. }
  unfold evaluate_expression.
  assert (is_blank_char op = false) as Hblank.
  { unfold OPERATORS in Hop. rewrite !elem_of_cons in Hop.
    by destruct Hop as [[= -> ->]|[[= -> ->]|[[= -> ->]|[[= -> ->]|[]%elem_of_nil]]]]. }
  rewrite !drop_blanks_app. cbn [drop_blanks]. rewrite Hblank, drop_blanks_app, !drop_blanks_plain by done.
  split; [exact E|]. cbn [drop_blanks]. exact E.
Qed.
(** It reads neither a sign in front, nor three numbers, nor a negative exponent. *)
Theorem calculator_limits :
  evaluate_expression "-5" = Err "Invalid left operand" ∧ evaluate_expression "2*3-1" = Err "Invalid left operand" ∧
  evaluate_expression "10-2-3" = Err "Invalid right operand" ∧ evaluate_expression "1e-5" = Err "Invalid left operand" ∧
  evaluate_expression "1/0" = Err "Division by zero" ∧ is_ok (evaluate_expression "-5+3") = true.
Proof. by vm_compute. Qed.

(** ** What the registry leaves out *)

Section Registry.
Context `{ToolJson, ToolDates, ToLowercase, ToUppercase, !ToolHttp}.

Definition builtin_tools (now : date) : list ToolExecutor :=
  [CalculatorTool; HttpTool; SearchTool; DatetimeTool now; TextTool; WeatherTool].

(** Of the built-in tools the registry calls each for anyone: the answer does not
    depend on who asks, although the HTTP tool asks for a known caller. *)
Theorem call_tool_unchecked now (r : gmap string ToolExecutor) id params c c' :
  map_Forall (λ _ t, t ∈ builtin_tools now) r →
  call_tool r id params c = call_tool r id params c' ∧
  (r !! id = Some HttpTool → known_caller c' = false →
   is_ok (PermissionChecker_check (te_level HttpTool) c') = false).
Proof.
  intros Hr. unfold call_tool. split.
  - destruct (r !! id) as [t|] eqn:E; [|done]. specialize (Hr _ _ E). unfold builtin_tools in Hr.
    rewrite !elem_of_cons in Hr. by destruct Hr as [->|[->|[->|[->|[->|[->|[]%elem_of_nil]]]]]].
  - intros _ Hc. simpl. by rewrite Hc.
Qed.

(** Of the texts it is given, [join] joins none: what it asks for twice over is a
    text in one place and an array in the other. *)
Theorem join_never_joins params c :
  param_str params "action" = Some "join" →
  text_execute params c = Some (match param_str params "text" with
    | Some _ => Ok (json_object [("error", json_string "text must be an array for join")])
    | None => Err (ToolValidationFailed "Missing 'text' parameter")
    end).
Proof.
  intros Ha. unfold text_execute, need_str. rewrite Ha. simpl. unfold param_str.
  destruct (get params "text") as [v|] eqn:Ev; simpl; [|done]. destruct (as_str v) as [s|] eqn:Es; simpl; [|done].
  unfold text_action. simpl. rewrite Ev. simpl. by rewrite (as_str_no_array v s Es).
Qed.
End Registry.

(** ** Texts *)

Lemma text_chars_not_empty s : "" ∉ text_chars s.
Proof.
  induction s as [|c s IH]; simpl; [by intros ?%elem_of_nil|]. destruct (text_chars s) as [|[|d t] l]; rewrite ?elem_of_cons in *; [naive_solver..|].
  destruct (is_continuation d); rewrite !elem_of_cons; naive_solver.
Qed.
(** The characters of a text make it up. *)
Lemma text_chars_concat s : str_concat (text_chars s) = s.
Proof.
  induction s as [|c s IH]; [done|]. simpl. pose proof (text_chars_not_empty s) as Hn.
  destruct (text_chars s) as [|[|d t] l]; simpl in *; [by rewrite <- IH|by destruct Hn; left|].
  destruct (is_continuation d); simpl; by rewrite ?str_app_cons, <- IH.
Qed.
Lemma prefix_and_rest p s : String.prefix p s = true → s = p +:+ slice_from (String.length p) s.
Proof.
  unfold slice_from. revert s. induction p as [|c p IH]; intros s; [intros _; by rewrite str_app_nil_l, Nat.sub_0_r, Versioning.substring_whole|].
  destruct s as [|d s]; [done|]. simpl. destruct (Ascii.ascii_dec c d) as [->|]; [|done]. intros Hp.
  rewrite str_app_cons. by rewrite <- IH.
Qed.
Lemma index_here sep s n : String.index 0 sep s = Some n → s = slice_to n s +:+ sep +:+ slice_from (n + String.length sep) s.
Proof.
  revert n. induction s as [|c s IH]; intros n.
  - destruct sep; [intros [= <-]|]; done.
  - cbn [String.index]. destruct (String.prefix sep (String c s)) eqn:Hp.
    + intros [= <-]. by apply prefix_and_rest.
    + destruct (String.index 0 sep s) as [m|] eqn:E; [|done]. intros [= <-]. specialize (IH m eq_refl).
      unfold slice_to, slice_from in *. simpl. rewrite str_app_cons. by rewrite <- IH.
Qed.
(** What is split by a text that is not empty and joined by it again is what it was. *)
Theorem split_join_round_trip sep s : sep ≠ "" → str_join sep (split_by sep s) = s.
Proof.
  intros Hsep. unfold split_by. rewrite bool_decide_eq_false_2 by done. unfold split_text. generalize (String.length s) as fuel.
  intros fuel. revert s. induction fuel as [|fuel IH]; intros s; [done|]. simpl. unfold split_once.
  destruct (String.index 0 sep s) as [n|] eqn:E; [|done]. simpl. set (b := slice_from _ s).
  transitivity (slice_to n s +:+ sep +:+ str_join sep (split_text_go fuel sep b)).
  { destruct fuel; [done|]. simpl. by destruct (split_once sep b) as [[? ?]|]. }
  rewrite IH. symmetry. by apply index_here.
Qed.

(** ** Plugins *)

Section PluginFacts.
Context `{PluginWorld, HashOrder}.
Implicit Types (p : ProcessPlugin) (r : PluginRuntime) (running : gset nat) (entries : list (string * ProcessPlugin)).

(** A call ends well exactly when the request has a text, the process ends well and
    what it writes is a response with a result and no message. *)
Theorem plugin_call_exact p method params v :
  plugin_call p method params = Ok v ↔
  ∃ request stdout stderr, request_text method params = Ok request ∧
    plugin_run (pn_config p) ["--method"; method; "--request"; request] = PluginExited true stdout stderr ∧
    response_of stdout = Ok (Some v, None).
Proof.
  unfold plugin_call. split.
  - destruct (request_text method params) as [request|]; [|done].
    destruct (plugin_run _ _) as [|[] out err] eqn:E; [done| |done].
    destruct (response_of out) as [[[w|] [m|]]|] eqn:E'; try done. intros [= ->]. by exists request, out, err.
  - intros (request & out & err & -> & -> & ->). done.
Qed.

Definition started (pid : nat) p : ProcessPlugin := MkProcessPlugin (pn_config p) (Some pid).
Lemma initialize_each_starts entries pid running m :
  Forall (λ e, spawn_fault (pn_config e.2) = None) entries → NoDup entries.*1 →
  ∃ m', initialize_each pid running entries m = (list_to_set (seq pid (length entries)) ∪ running, m', Ok tt) ∧
    (∀ i e, entries !! i = Some e → m' !! e.1 = Some (started (pid + i) e.2)) ∧
    (∀ name, name ∉ entries.*1 → m' !! name = m !! name).
Proof.
  intros Hs. revert pid running m. induction Hs as [|[name p] entries Hp Hs IH]; intros pid running m Hnd.
  { exists m. split; [|done]. simpl. by rewrite (left_id_L ∅ _). }
  apply NoDup_cons in Hnd as [Hn Hnd]. simpl. unfold plugin_initialize. simpl in Hp. rewrite Hp.
  destruct (IH (S pid) ({[pid]} ∪ running) (<[name := started pid p]> m) Hnd) as (m' & E & Hin & Hout).
  exists m'. split; [|split].
  - unfold started in E. rewrite E. do 2 f_equal. set_solver.
  - intros [|i] e; simpl.
    + intros [= <-]. simpl. rewrite (Hout name Hn), lookup_insert_eq. by rewrite Nat.add_0_r.
    + intros He. rewrite (Hin i e He). do 2 f_equal. lia.
  - intros name' [Hne Hout']%not_elem_of_cons. rewrite (Hout name' Hout'). by apply lookup_insert_ne.
Qed.
Lemma shutdown_each_ends entries running m :
  NoDup entries.*1 →
  (shutdown_each running entries m).1 = running ∖ list_to_set (omap (λ e, pn_child e.2) entries) ∧
  (∀ e, e ∈ entries → (shutdown_each running entries m).2 !! e.1 = Some (ProcessPlugin_new (pn_config e.2))) ∧
  (∀ name, name ∉ entries.*1 → (shutdown_each running entries m).2 !! name = m !! name).
Proof.
  revert running m. induction entries as [|[name p] entries IH]; intros running m Hnd.
  { simpl. split; [set_solver|]. split; [by intros e ?%elem_of_nil|done]. }
  apply NoDup_cons in Hnd as [Hn Hnd]. simpl.
  assert (plugin_shutdown running p = (running ∖ list_to_set (omap pn_child [p]), ProcessPlugin_new (pn_config p))) as ->.
  { unfold plugin_shutdown, ProcessPlugin_new. destruct p as [c [pid|]]; simpl; f_equal; set_solver. }
  destruct (IH (running ∖ list_to_set (omap pn_child [p])) (<[name := ProcessPlugin_new (pn_config p)]> m) Hnd) as (E & Hin & Hout).
  split; [|split].
  - rewrite E. destruct p as [c [pid|]]; simpl; set_solver.
  - intros e [->|He]%elem_of_cons; [|by apply Hin]. cbn [fst snd]. by rewrite (Hout name Hn), lookup_insert_eq.
  - intros name' [Hne Hout']%not_elem_of_cons. rewrite (Hout name' Hout'). by apply lookup_insert_ne.
Qed.

(** What is started when nothing fails: each plugin with a process of its own, beside
    the processes that ran. *)
Theorem initialize_all_exact pid running r :
  map_Forall (λ _ p, spawn_fault (pn_config p) = None) (pt_plugins r) →
  ∃ r', initialize_all pid running r = (list_to_set (seq pid (size (pt_plugins r))) ∪ running, r', Ok tt) ∧
    dom (pt_plugins r') = dom (pt_plugins r) ∧
    ∀ i name p, hash_order (pt_plugins r) !! i = Some (name, p) → pt_plugins r' !! name = Some (started (pid + i) p).
Proof.
  intros Hs. destruct (initialize_each_starts (hash_order (pt_plugins r)) pid running (pt_plugins r)) as (m & E & Hin & Hout).
  { apply Forall_forall. intros [name p] Hp%elem_of_hash_order. by apply (Hs name). }
  { apply NoDup_hash_keys. }
  exists (MkPluginRuntime m (pt_sandbox r)). unfold initialize_all. rewrite E, hash_order_length. split; [done|]. split.
  - apply set_eq. intros name. rewrite !elem_of_dom. destruct (decide (name ∈ (hash_order (pt_plugins r)).*1)) as [Hn|Hn].
    + split; intros _; [by apply elem_of_hash_keys|]. apply list_elem_of_fmap in Hn as ([? p] & -> & Hn).
      apply list_elem_of_lookup_1 in Hn as [i Hi]. apply Hin in Hi. simpl in *. by rewrite Hi.
    + simpl. by rewrite (Hout name Hn).
  - intros i name p Hi. apply (Hin i (name, p) Hi).
Qed.
(** Shutting down ends the process of each plugin, and nothing else. *)
Theorem shutdown_all_exact running r :
  (∀ pid, pid ∈ (shutdown_all running r).1 ↔
          pid ∈ running ∧ ∀ name p, pt_plugins r !! name = Some p → pn_child p ≠ Some pid) ∧
  pt_plugins (shutdown_all running r).2 = (λ p, ProcessPlugin_new (pn_config p)) <$> pt_plugins r.
Proof.
  destruct (shutdown_each_ends (hash_order (pt_plugins r)) running (pt_plugins r)) as (E & Hin & Hout); [apply NoDup_hash_keys|].
  unfold shutdown_all. destruct (shutdown_each _ _ _) as [running' m]. simpl in *. split.
  - intros pid. rewrite E, elem_of_difference, elem_of_list_to_set, list_elem_of_omap. apply and_iff_compat_l. split.
    + intros Hno name p Hp Hc. apply Hno. exists (name, p). by rewrite elem_of_hash_order.
    + intros Hno ([name p] & Hp%elem_of_hash_order & Hc). by apply (Hno name p).
  - apply map_eq. intros name. rewrite lookup_fmap. destruct (pt_plugins r !! name) as [p|] eqn:Hp; simpl.
    + apply (Hin (name, p)). by apply elem_of_hash_order.
    + rewrite Hout; [done|]. intros Hn. apply elem_of_hash_keys in Hn as [? Hn]. by rewrite Hp in Hn.
Qed.
(** Starting all and shutting all down ends what was started and leaves all that ran
    before: the processes of plugins that had been started already run on, and no
    plugin knows them. *)
Theorem start_stop_leaves pid running r :
  map_Forall (λ _ p, spawn_fault (pn_config p) = None) (pt_plugins r) → (∀ n, n ∈ running → n < pid) →
  let '(running', r', _) := initialize_all pid running r in
  (shutdown_all running' r').1 = running ∧
  map_Forall (λ _ p, pn_child p = None) (pt_plugins (shutdown_all running' r').2).
Proof.
  intros Hs Hf. destruct (initialize_all_exact pid running r Hs) as (r' & -> & Hd & Hin).
  destruct (shutdown_all_exact (list_to_set (seq pid (size (pt_plugins r))) ∪ running) r') as [Hrun Hmap]. split.
  - apply set_eq. intros n. rewrite Hrun, elem_of_union, elem_of_list_to_set, elem_of_seq.
    assert (∀ name p, pt_plugins r' !! name = Some p → ∃ i, pn_child p = Some (pid + i)) as Hchild.
    { intros name p Hp. assert (name ∈ dom (pt_plugins r)) as [q Hq]%elem_of_dom by (rewrite <- Hd; by apply elem_of_dom_2 in Hp).
      apply elem_of_hash_order, list_elem_of_lookup_1 in Hq as [i Hi]. pose proof (Hin _ _ _ Hi) as Hi'. simpl in *. rewrite Hp in Hi'. injection Hi' as ->. by exists i. }
    split.
    + intros [[Hn|Hn] Hno]; [|done]. exfalso. assert (n - pid < length (hash_order (pt_plugins r))) as Hl by (rewrite hash_order_length; lia).
      apply lookup_lt_is_Some_2 in Hl as [[name p] Hi]. apply (Hno name (started (pid + (n - pid)) p)).
      * by apply Hin.
      * simpl. f_equal. lia.
    + intros Hn. split; [by right|]. intros name p Hp Hc. destruct (Hchild name p Hp) as [i Hi]. rewrite Hi in Hc.
      injection Hc as <-. specialize (Hf _ Hn). lia.
  - rewrite Hmap. intros name p. rewrite lookup_fmap. intros (q & _ & ->)%fmap_Some. done.
Qed.
(** A plugin that is registered again is not started, and what was started for the
    one before runs on. *)
Theorem register_again_forgets running r c pid :
  pid ∈ running → (∀ name p, name ≠ pg_name c → pt_plugins r !! name = Some p → pn_child p ≠ Some pid) →
  pt_plugins (register_plugin r c) !! pg_name c = Some (ProcessPlugin_new c) ∧
  plugin_health (ProcessPlugin_new c) = Err PluginCrashed ∧ pid ∈ (shutdown_all running (register_plugin r c)).1.
Proof.
  intros Hr Hno. unfold register_plugin. simpl. rewrite lookup_insert_eq. repeat split; try done.
  destruct (shutdown_all_exact running (register_plugin r c)) as [Hrun _]. apply Hrun. split; [done|].
  unfold register_plugin. simpl. intros name p [[_ <-]|[Hne Hp]]%lookup_insert_Some; [done|]. by apply (Hno name).
Qed.
(** What the sandbox is does not matter for a call: neither the runtime's own nor the
    plugin's is looked at. *)
Theorem sandbox_never_applied (b : SandboxConfig) r name method params :
  runtime_call (with_sandbox_config b r) name method params = runtime_call r name method params ∧
  initialize_all 0 ∅ (with_sandbox_config b r) =
    (let '(running, r', answer) := initialize_all 0 ∅ r in (running, with_sandbox_config b r', answer)).
Proof. split; [done|]. unfold initialize_all. simpl. by destruct (initialize_each _ _ _ _) as [[? ?] ?]. Qed.
End PluginFacts.

(** Paths are compared as they are written: below an allowed path, [..] leads out of
    it, and a path that is not written from the same start is refused. *)
Theorem path_access_exact `{PathTexts} b p :
  is_ok (validate_path_access b p) = true ↔ bx_enabled b = false ∨ ∃ base rest, base ∈ bx_allowed_paths b ∧ p = base ++ rest.
Proof.
  unfold validate_path_access. destruct (bx_enabled b); simpl; [|naive_solver].
  destruct (existsb _ _) eqn:E; simpl; split; try done.
  - intros _. right. apply existsb_exists in E as (base & Hb%list_elem_of_In & [rest ->]%path_starts_with_spec). by exists base, rest.
  - intros [|(base & rest & Hb & ->)]; [done|]. rewrite <- not_true_iff_false in E. destruct E. apply existsb_exists. exists base.
    split; [by apply list_elem_of_In|]. apply path_starts_with_spec. by exists rest.
Qed.
